(* ===== verification/_CoqProject ===== *)
-Q . S2P
Prelude.v
PrimeP256.v
BigHex.v
FieldP256.v
CurveP256.v
CurveLaws.v
CurveMult.v
CurveKeys.v
EccProps.v
Transq.v
RmtIpc.v
RmtIpcLaws.v
RmtIpcRuns.v
RmtIpcProps.v
Mcu2sens.v
Sysfreq.v
NvBt.v
NvBtLaws.v
NvBle.v
NvBleLaws.v
NvBleProps.v
NvBlePeers.v
SafeQueue.v
NvFp.v
NvDev.v
Norflash.v
FactorySection.v
NvExt.v
NvExtLaws.v
NvExtProps.v
HalKey.v
HalKeyLaws.v
HalKeyRuns.v
HalKeyClicks.v
HalKeyProps.v
HalDma.v
HalDmaLaws.v
HalTrace.v
HalTraceLaws.v
HalTraceRuns.v
HalTraceProps.v
LogSection.v
LogLaws.v
LogRuns.v
LogProps.v
