(* ===== verification/Prelude.v ===== *)
(** * A verified model of the firmware's core logic

    The repository is the C software of a Bluetooth earbud platform. Most of it programs registers or
    drives stacks delivered as binaries; the development takes the parts whose meaning is in the source:
    the elliptic curve arithmetic of pairing, the transfer queue and the messages between two cores, the
    arbitration of the system clock, the records kept in flash, the key scanner, the DMA channels and the trace output
    that runs on one, the log that keeps the traces in flash, and the queue of a test application.

    ** Files and the code they model

    - Prelude.v: fixed-width integers, the masks and carry tests of the code, the answers of the services
      ([bt_status]), list and option lemmas.
    - BigHex.v, FieldP256.v, CurveP256.v: service/ble_app_new/src/common/ecc_p256.c under
      bthost/bthost_v1: nine-word numbers ([bigHex256], the length field included), the field
      (reduction, multiplication, binary inversion), the projective points, the four-bit comb
      multiplication, keys. Each C function is the definition of its name; pointers written to are
      results. PrimeP256.v proves the modulus prime; CurveLaws.v, CurveMult.v and CurveKeys.v relate the
      functions to the group law; EccProps.v states what the component promises.
    - Transq.v: platform/hal/hal_transq.c. [chan] is a channel: its slots, the per-priority cursors and
      the log of the register writes; what the hardware answers is an argument.
    - RmtIpc.v: platform/hal/hal_rmt_ipc.c with the system wake lock of hal_sleep.c. [core] is the
      configuration of one core with its channels, [world] two cores and the mailboxes between them, which
      are the interface [RmtIpcCfg]; a pointer to a record is its index, and the receiver reads the records
      of its peer in place. The calls and interrupts of both cores are the events of a run. RmtIpcLaws.v:
      what the mailbox promises ([RmtIpcCfgSpec]), chains of records ([linked]), the two lists of a sender
      ([queue]), how far a receiver is ([reading]), the wake lock ([core_ok]); RmtIpcRuns.v: the invariant
      of a run; RmtIpcProps.v: the properties.
    - Mcu2sens.v: platform/hal/hal_mcu2sens.c, the mailbox of the sensor core that implements the interface
      of RmtIpc.v, on registers ([MailboxRegs]) whose working is [MailboxRegsSpec].
    - Sysfreq.v: platform/hal/hal_sysfreq.c. The calls to the clock and power units are a log in order.
    - NvBt.v, NvBtLaws.v: the paired device list of apps/nv_section/userdata_section/nvrecord_bt.c, an
      array and a count, against a list in order of use.
    - NvBle.v: the bonded BLE devices of nvrecord_ble.c of the same directory, with the caches of peers,
      the identity of the two earbuds and the key derived for the classic link, which goes to NvBt.v.
      NvBleLaws.v: the array as a list ([put]); NvBleProps.v: runs of calls, readers, flush requests;
      NvBlePeers.v: caches, identity, key. The calls that ask for a flush are recorded in [ble_calls].
    - NvDev.v: the factory sector of nvrecord_bt.c, bytes of flash with their CRC in two layouts.
    - FactorySection.v: the other user of that sector, apps/nv_section/factory_section/factory_section.c,
      a client of the interface of Norflash.v, with its identity as abstract state and its agreement with
      NvDev.v.
    - NvFp.v: nvrecord_fp_account_key.c of the same directory, the Fast Pair keys and their addresses.
    - Norflash.v: the flash service of services/norflash_api/norflash_api.h, whose implementation is not
      in the repository, as two interfaces: [Norflash], its operations, and [NorflashSpec], what they
      promise; with an implementation that meets them. NvExt.v: the user data section of
      nvrecord_extension.c, a client of the interface: the checks, the start and the flush of the two
      copies. NvExtLaws.v: its invariant and lemmas, for any implementation of the interface;
      NvExtProps.v: its properties. The request that NvBt.v and NvFp.v record as a flag is the
      [Request] of its runs, their changes of the record its [Change].
    - HalKey.v: the key scanner of platform/hal/hal_key.c with its power key and GPIO keys. [keys] holds
      the variables of the file and what the hardware holds: the timer, the armed interrupts. The
      interrupts of the keys and of the timer are the inputs of a run ([reach]); they have one priority,
      so each handler runs to its end. HalKeyLaws.v: pin maps, the phases of a key and the pass over the
      GPIO keys; HalKeyRuns.v: the events and the invariant of a run; HalKeyClicks.v: counted clicks;
      HalKeyProps.v: the properties.
    - HalDma.v: the channels of platform/hal/hal_dma.c: [DMA_CH_T] the registers of one, [dma] the two
      controllers and which channels are handed out. [move_unit] and [bus_error] are the hardware of a
      channel. HalDmaLaws.v: control words, chains of descriptors ([carries], [drain]), ownership.
    - HalTrace.v: platform/hal/hal_trace.c, client of HalDma.v: [hal_trace] holds the ring, the two
      descriptors, the registers of its channel, the bytes the UART has received and the calls of the
      applications. The units moved, the errors and the interrupts of the channel are inputs of a run
      beside the operations. HalTraceLaws.v: the ring as a slice of the stream, the channel idle or
      loaded with the ring's front; HalTraceRuns.v: the invariant of a run and the flush;
      HalTraceProps.v: the properties of both components.
    - LogSection.v: the log of apps/nv_section/log_section/log_section.c, which hal_trace_app_register
      of HalTrace.v makes an application of the trace. [log_dump] holds its variables; the flash service
      is the interface [LogFlash], and the records, the hook of the service and the work it does are the
      events of a run. LogLaws.v: what the service promises ([LogFlashSpec]: operations accepted in order
      and done in order, a read showing the ones done), the invariant [log_inv]: ring of buffers, pieces
      of the log, place in the flash; LogRuns.v: that runs keep it, the restart after any number of the
      operations, the end of the flushes; LogProps.v: an implementation of the service and the properties.
      Sector size, number of buffers and region are parameters, so that the theorems hold for any build.
    - SafeQueue.v: tests/anc_usb/safe_queue.c, a ring of words, against a bounded deque.

    ** Conventions

    A C integer of width w is a [Z] in [0, 2^w), wrapped where the C expression is stored. A function
    that may read or write outside an object, or fail an assertion, returns an [option]: [None] is that
    failure, and the theorems say when it does not happen. A C loop is a [Fixpoint] on its counter, or on
    a fuel. Traces, interrupt locks and cache operations have no state here: each operation runs whole,
    as it does under its lock. Code that is not in the repository (the CRC, [rand], the interrupt and
    clock hardware) is an argument of the definitions, and the theorems hold for any value of it, under
    hypotheses on its range only.

    ** Fuel

    [MULT_FUEL] is 64, the number of columns of the comb. [HALVE_FUEL] is 256 and [INV_FUEL] 512: a step
    of the inversion takes away at least one of the 512 bits of its two numbers. EccProps.v proves that
    both end. The generation of a secret key draws until a draw is accepted, which depends on the random
    source: its fuel is a parameter and the theorem says which draw is returned and when there is one. The
    loops of a synchronous flush wait for the flash service; [ends] says that with enough fuel they give
    a result that no longer depends on it, and so does log_flush_ends for the last flush of the log. The
    loops of the key scanner over pins and codes take a step for each bit of their words, [PIN_FUEL] and
    [CODE_FUEL]; HalKeyLaws.v proves them total. The
    rounds of a trace flush are a list of what happens in each: two rounds a byte of the ring suffice.
    The loops of RmtIpc.v over the records of a channel take the number of records; RmtIpcRuns.v proves
    that enough. The size left of a chain is summed over at most as many descriptors as the memory holds.

    ** What the theorems show

    - the curve: exact nine-word arithmetic, the field operations on every input and the inputs on which
      the multiplication is wrong, inversion with its termination, the group law for addition and
      doubling, the comb multiplication, public and secret keys, byte order of keys. What the code gets
      wrong is excluded by conditions on a computation that can be evaluated: [regular], that no product
      falls in the wrong window; [same_X_same_Z], that no addition meets points of one stored first
      coordinate over two denominators; [cofactor_ok], that the last reduction of an inversion is right,
      which is also necessary; [key_ok] and [result_ok] collect them for a secret key;
    - the transfer queue: each priority is a bounded queue, in every run messages are completed in the
      order of acceptance, the two ends use the same slots;
    - the messages between cores: in any run of both cores' calls and interrupts they arrive whole, in
      order and once, and are given back only when they have been read; a send is refused exactly when
      three wait; the wake lock is held exactly while one is under way; from any reachable state of a
      channel without flow control they get through once they are received. Under flow control a run
      gives a batch back when it has been read ([batch_read]). The channels stay open there: what
      reopening forgets is a closed theorem. The mailbox on the registers does what the interface says;
    - the clock: in every reachable state it is the highest request revised by the minimum; the order of
      the power and clock calls;
    - the records: the paired list refines a bounded list in order of use and no sequence of operations
      breaks it; the factory section in its second layout implements an identity (addresses, name, trim)
      over restarts, its first layout disagrees with itself on the CRC, and its two users accept the same
      sectors and read the same out of them; a trim written to the factory sector is read back and
      nothing else changes; the keys and addresses refine bounded lists;
    - the bonded devices: any run of calls, starts included and with or without memory for the copy of an
      entry, keeps the array a bounded list in order of use without an address twice and stays within it;
      what is stored is read back; every change asks for a flush, save what the first start fills in; the
      caches are a map; the exchange of identities is undone by another; the derived key is the one of
      the specification;
    - the user data: a loss of power at any moment, between or within flash operations, leaves a record
      that was stored; a flush ends, at once or by calls of the sleep hook some of which find the
      timer expired ([calls_expire]), with both copies holding the mirror; the start loads the first
      valid copy and repairs the other;
    - the keys: no interrupt, in any order, makes an assertion fail or loses a key, if the power key's
      interrupt reports a falling edge ([falling]; with another state the handler leaves it disarmed);
      the events of a key alternate and follow the key; a press is debounced; released keys bring the
      scanner to rest; short presses are counted;
    - the DMA channels: a channel moves its chain of descriptors in order and reports what is left; two
      drivers never hold one channel;
    - the trace output: what the UART receives is the stream of the records taken, each loss told by a
      line, as long as no pause finds a transfer under way ([no_cut]) and the ring has at most 32768
      bytes; a flush sends everything; the history is the end of the stream; numbers print as digits;
    - the log: its pieces carry the bytes of the records in order, numbered, one after the other round the
      region, as long as no record finds every buffer waiting to be written ([intact]); after a loss of
      power at any moment the next start goes on after the last piece written; the last flush ends with
      everything written. The region has at least two sectors there and the numbers stay below 2^32;
    - the bounded queue: any sequence of operations answers what a list answers.

    Closed theorems beside them exhibit the inputs on which the code does otherwise than meant.

    ** Not modelled

    The RAM_NV_RECORD variant, crash dump and traces of nvrecord_bt.c, the last two of
    nvrecord_ble.c too; the registration of the flash area in factory_section.c; interrupt
    registration in hal_transq.c; register and codec drivers, whose meaning is in the hardware; the
    BLE application and the Bluetooth services around prebuilt stacks; the audio chains; the
    vendored operating system and libraries; in nvrecord_extension.c the rebuilding of the parts of
    the record, whose result is a parameter, nv_record_rebuild, and the mutex and memory protection
    settings, and the timer check of a build without NORFLASH_API_FLUSH_IN_SLEEP_HOOK; in hal_key.c the
    ADC keys, the variants NO_GROUPKEY and __POWERKEY_CTRL_ONOFF_ONLY__, the pin multiplexing and the
    traces; in hal_dma.c two-dimensional transfers, burst increments
    and the waiting stop; in hal_trace.c the formatting of a record, the filter, the switch of
    transport, the receiver, the crash dumps and the builds with a second core; in log_section.c the
    build that never goes back to the first sector (DUMP_NO_ROLLBACK) and the traces. In
    hal_rmt_ipc.c a call or an interrupt of one core is one step, in which no step of the other
    falls; the tests of the configuration's pointers, the interrupt vectors and the registration
    with the power manager are left out. In hal_mcu2sens.c the second set of calls, for
    hal_ipc_notify.c, is left out. The filter of the traces, a level and a bit for each module,
    decides before a record is formatted: the records of the model are those that passed. The
    rebuilding of the user data record calls one reset for each profile of the build, most of them
    in files of their own. *)
From Stdlib Require Import ZArith Lia Bool.
From stdpp Require Import base list option.
#[global] Open Scope Z_scope.

(** * Machine words

    A C unsigned integer of width [w] is a [Z] in [0, 2^w); every C expression whose
    result is stored in such a type is wrapped explicitly. *)
Definition wrap (w x : Z) : Z := x mod 2 ^ w.
Definition u8 (x : Z) : Z := wrap 8 x.
Definition u16 (x : Z) : Z := wrap 16 x.
Definition u32 (x : Z) : Z := wrap 32 x.
Definition u64 (x : Z) : Z := wrap 64 x.

(** The conversion to [int8_t] the compilers of the build use: two's complement. *)
Definition i8 (x : Z) : Z := (x + 128) mod 256 - 128.

Definition is_u (w x : Z) : Prop := 0 <= x < 2 ^ w.

(** The mask [e & 0xFFFFFFFF] and the carry test [e & 0x100000000]. *)
Definition mask32 (x : Z) : Z := Z.land x 0xFFFFFFFF.
Definition bit32 (x : Z) : bool := negb (Z.land x 0x100000000 =? 0).

(** The answers of the Bluetooth services, those that the modelled functions give. *)
Inductive bt_status := BT_STS_SUCCESS | BT_STS_FAILED | BT_STS_INVALID_PARM.

Lemma mask32_mod x : mask32 x = x mod 2 ^ 32.
Proof. unfold mask32. change 0xFFFFFFFF with (Z.ones 32). by rewrite Z.land_ones by lia. Qed.

Lemma u32_mod x : u32 x = x mod 2 ^ 32.
Proof. done. Qed.

Lemma wrap_small w x : is_u w x -> wrap w x = x.
Proof. intros H. by apply Z.mod_small. Qed.

Lemma u32_small x : 0 <= x < 2 ^ 32 -> u32 x = x.
Proof. apply wrap_small. Qed.

Lemma u64_small x : 0 <= x < 2 ^ 64 -> u64 x = x.
Proof. apply wrap_small. Qed.

Lemma u8_small x : 0 <= x < 2 ^ 8 -> u8 x = x.
Proof. apply wrap_small. Qed.

Lemma wrap_range w x : 0 <= w -> is_u w (wrap w x).
Proof. intros. apply Z.mod_pos_bound, Z.pow_pos_nonneg; lia. Qed.

Lemma land_pow2 x n : 0 <= n -> Z.land x (2 ^ n) = if Z.testbit x n then 2 ^ n else 0.
Proof.
  intros Hn. apply Z.bits_inj'. intros i Hi. rewrite Z.land_spec.
  destruct (Z.eqb_spec i n) as [-> | Hne].
  - rewrite Z.pow2_bits_true by lia. destruct (Z.testbit x n); simpl;
      [by rewrite Z.pow2_bits_true by lia | by rewrite Z.bits_0].
  - rewrite Z.pow2_bits_false by lia. rewrite andb_false_r.
    destruct (Z.testbit x n); [by rewrite Z.pow2_bits_false by lia | by rewrite Z.bits_0].
Qed.

Lemma land_pow2_eqb x n : 0 <= n -> (Z.land x (2 ^ n) =? 0) = negb (Z.testbit x n).
Proof.
  intros Hn. rewrite land_pow2 by done.
  destruct (Z.testbit x n); [|done].
  assert (0 < 2 ^ n) by (apply Z.pow_pos_nonneg; lia). simpl. apply Z.eqb_neq. lia.
Qed.

Lemma bit32_spec x : 0 <= x < 2 ^ 33 -> bit32 x = (2 ^ 32 <=? x).
Proof.
  intros H. unfold bit32. change 0x100000000 with (2 ^ 32).
  rewrite land_pow2_eqb, negb_involutive by lia.
  destruct (Z.leb_spec (2 ^ 32) x) as [Hle | Hlt].
  - apply Z.testbit_true; [lia|]. replace (x / 2 ^ 32) with 1; [done|].
    apply Z.div_unique with (x - 2 ^ 32); lia.
  - apply Z.testbit_false; [lia|]. by rewrite Z.div_small by lia.
Qed.

(** * C booleans: the conditions of the sources are kept as [bool]. *)
Definition b2z (b : bool) : Z := if b then 1 else 0.

(** * Case analysis on the boolean comparisons of [Z] *)
Ltac zcases :=
  repeat match goal with
  | |- context [Z.eqb ?a ?b] => destruct (Z.eqb_spec a b)
  | |- context [Z.ltb ?a ?b] => destruct (Z.ltb_spec a b)
  | |- context [Z.leb ?a ?b] => destruct (Z.leb_spec a b)
  | |- context [Z.gtb ?a ?b] => rewrite (Z.gtb_ltb a b)
  | |- context [Z.geb ?a ?b] => rewrite (Z.geb_leb a b)
  end.

Ltac zbool :=
  repeat match goal with
  | H : (_ =? _) = true |- _ => apply Z.eqb_eq in H
  | H : (_ =? _) = false |- _ => apply Z.eqb_neq in H
  | H : (_ <? _) = true |- _ => apply Z.ltb_lt in H
  | H : (_ <? _) = false |- _ => apply Z.ltb_ge in H
  | H : (_ <=? _) = true |- _ => apply Z.leb_le in H
  | H : (_ <=? _) = false |- _ => apply Z.leb_gt in H
  | H : (_ && _) = true |- _ => apply andb_true_iff in H; destruct H
  | H : (_ || _) = false |- _ => apply orb_false_iff in H; destruct H
  | H : negb _ = true |- _ => apply negb_true_iff in H
  | H : negb _ = false |- _ => apply negb_false_iff in H
  end.

(** * The option monad: a step whose result is known *)
Lemma bind_step {A B} (o : option A) (f : A -> option B) a : o = Some a -> (o ≫= f) = f a.
Proof. by intros ->. Qed.

(** * Arrays *)
Lemma lookup_nth {X} (l : list X) i d : (i < length l)%nat -> l !! i = Some (nth i l d).
Proof.
  intros H. destruct (lookup_lt_is_Some_2 l i H) as [x Hx].
  rewrite Hx. f_equal. symmetry. by apply nth_lookup_Some.
Qed.

Lemma drop_nth {X} (l : list X) i d : (i < length l)%nat -> drop i l = nth i l d :: drop (S i) l.
Proof. intros H. apply drop_S. by apply lookup_nth. Qed.

(** Two numbers less than [n] apart are equal when their remainders are. *)
Lemma mod_near n p q : 0 < n -> p mod n = q mod n -> Z.abs (p - q) < n -> p = q.
Proof.
  intros Hn HE HD. pose proof (Z.div_mod p n ltac:(lia)). pose proof (Z.div_mod q n ltac:(lia)).
  assert (p / n = q / n); nia.
Qed.

(** Stepping round a ring of [n] places. *)
Lemma mod_next n x : 0 < n -> 0 <= x < n -> (x + 1) mod n = if x + 1 =? n then 0 else x + 1.
Proof. intros Hn Hx. zcases; [by replace (x + 1) with n by lia; apply Z.mod_same; lia | apply Z.mod_small; lia]. Qed.

(** Elements put in a list at a place where they fit. *)
Lemma inserts_app {X} i (k l : list X) : (i + length k <= length l)%nat -> list_inserts i k l = take i l ++ k ++ drop (i + length k) l.
Proof.
  revert i l. induction k as [|x k IH]; intros i l H; simpl in *.
  - by rewrite Nat.add_0_r, take_drop.
  - assert (Hi : (i < length l)%nat) by lia. rewrite IH by lia. rewrite (take_S_r l i (nth i l x)) by (by apply lookup_nth).
    rewrite <- app_assoc, insert_app_r_alt by (rewrite length_take; lia). rewrite length_take_le, Nat.sub_diag by lia. cbn.
    repeat f_equal. lia.
Qed.

(** Pointwise reading of [take], [delete] and the move. *)
Lemma lookup_take_if {A} n (l : list A) x : take n l !! x = if decide (x < n)%nat then l !! x else None.
Proof. destruct (decide _); [by apply lookup_take_lt | apply lookup_take_ge; lia]. Qed.

Lemma lookup_delete_if {A} i (l : list A) x : delete i l !! x = if decide (x < i)%nat then l !! x else l !! S x.
Proof. destruct (decide _); [by apply list_lookup_delete_lt | apply list_lookup_delete_ge; lia]. Qed.

Lemma lookup_insert_if {A} i (e : A) (l : list A) x :
  <[i := e]> l !! x = if decide (x = i /\ (i < length l)%nat) then Some e else l !! x.
Proof.
  destruct (decide _) as [[-> Hi] | Hx]; [by rewrite list_lookup_insert_eq|].
  destruct (decide (x = i)) as [-> |]; [|by rewrite list_lookup_insert_ne].
  rewrite list_insert_ge by lia. done.
Qed.

Lemma lookup_cons_if {A} (e : A) (l : list A) x : (e :: l) !! x = if decide (x = 0)%nat then Some e else l !! (x - 1)%nat.
Proof. destruct x; simpl; [done|]. by rewrite Nat.sub_0_r. Qed.

Lemma lookup_app_if {A} (k l : list A) x : (k ++ l) !! x = if decide (x < length k)%nat then k !! x else l !! (x - length k)%nat.
Proof. destruct (decide _); [by apply lookup_app_l|apply lookup_app_r; lia]. Qed.

(** Decide every comparison of a pointwise goal. *)
Ltac pointwise :=
  repeat (rewrite lookup_take_if || rewrite lookup_delete_if || rewrite lookup_insert_if || rewrite lookup_cons_if);
  repeat match goal with |- context [decide ?P] => destruct (decide P) end;
  try lia; try done; try (f_equal; lia).

(** A light finisher for goals about large constants: no reduction of the goal's terms. *)
Ltac fin := repeat match goal with |- _ /\ _ => split end; first [assumption | reflexivity | congruence | lia].

Ltac tr := first [assumption | reflexivity | congruence | lia].
