(* ===== verification/PrimeP256.v ===== *)
(** Primality of the field modulus of ecc_p256.c: Fermat's little theorem, Pocklington's
    criterion and a chain of certificates down to primes found by trial division. *)
From Stdlib Require Import ZArith Znumtheory Zpow_facts Lia Bool.
From stdpp Require Import base list option.
From S2P Require Import Prelude.
#[local] Set Warnings "-deprecated".

(** ** Fermat's little theorem: multiplication by [a] permutes the residues 1 .. p-1 *)
Definition prod (l : list Z) : Z := foldr Z.mul 1 l.

Lemma prod_perm l k : Permutation l k -> prod l = prod k.
Proof. induction 1; simpl; lia. Qed.

Lemma prod_scale p a l :
  0 < p -> prod (map (fun x => (a * x) mod p) l) mod p = (a ^ Z.of_nat (length l) * prod l) mod p.
Proof.
  intros Hp. induction l as [|x l IH]; [done|]. simpl map. simpl prod. fold (prod l).
  fold (prod (map (fun x => (a * x) mod p) l)).
  rewrite Z.mul_mod_idemp_l, <- Z.mul_mod_idemp_r, IH, Z.mul_mod_idemp_r by lia.
  f_equal. simpl length. rewrite Nat2Z.inj_succ, Z.pow_succ_r by lia. ring.
Qed.

Lemma prod_coprime p l : prime p -> Forall (fun x => 0 < x < p) l -> rel_prime p (prod l).
Proof.
  intros Hp. induction 1 as [|x l Hx _ IH]; [apply rel_prime_sym, rel_prime_1|].
  simpl. apply rel_prime_mult; [|exact IH]. apply prime_rel_prime; [done|].
  intros Hd. apply Z.divide_pos_le in Hd; lia.
Qed.

Lemma mod_cancel p a x y :
  prime p -> ~ (p | a) -> (a * x) mod p = (a * y) mod p -> x mod p = y mod p.
Proof.
  intros Hp Ha H. pose proof (prime_ge_2 _ Hp).
  assert (Hd : (p | a * (x - y))).
  { apply Z.mod_divide; [lia|]. rewrite Z.mul_sub_distr_l, Zminus_mod, H, Z.sub_diag. done. }
  apply prime_mult in Hd as [Hd | [k Hd]]; [done | | done].
  replace x with (y + k * p) by lia. apply Z_mod_plus_full.
Qed.

Lemma residues_perm p a :
  prime p -> ~ (p | a) ->
  Permutation (map (fun x => (a * x) mod p) (seqZ 1 (p - 1))) (seqZ 1 (p - 1)).
Proof.
  intros Hp Ha. pose proof (prime_ge_2 _ Hp). apply Permutation.NoDup_Permutation_bis.
  - apply NoDup_ListNoDup. apply NoDup_fmap_2_strong; [|apply NoDup_seqZ].
    intros x y Hx Hy Hxy. apply elem_of_seqZ in Hx, Hy.
    apply mod_cancel in Hxy; [|done..]. rewrite !Z.mod_small in Hxy; lia.
  - by rewrite length_map.
  - intros z Hz. apply in_map_iff in Hz as (x & <- & Hx). apply list_elem_of_In, elem_of_seqZ in Hx.
    apply list_elem_of_In, elem_of_seqZ. pose proof (Z.mod_pos_bound (a * x) p).
    enough ((a * x) mod p <> 0) by lia. intros Hz. apply Z.mod_divide in Hz; [|lia].
    apply prime_mult in Hz as [Hz | Hz]; [done | | done]. apply Z.divide_pos_le in Hz; lia.
Qed.

Lemma fermat_Z p a : prime p -> ~ (p | a) -> a ^ (p - 1) mod p = 1.
Proof.
  intros Hp Ha. pose proof (prime_ge_2 _ Hp).
  pose proof (prod_scale p a (seqZ 1 (p - 1)) ltac:(lia)) as HS.
  set (Q := prod (seqZ 1 (p - 1))) in *.
  rewrite (prod_perm _ _ (residues_perm p a Hp Ha)), length_seqZ, Z2Nat.id in HS by lia.
  fold Q in HS. assert (HQ : ~ (p | Q)).
  { intros Hd. assert (HF : rel_prime p Q).
    { apply prod_coprime; [done|]. apply Forall_forall. intros x Hx.
      apply list_elem_of_In, elem_of_seqZ in Hx. lia. }
    assert (Hg : (p | 1)) by (apply HF; [apply Z.divide_refl | done]).
    apply Z.divide_pos_le in Hg; lia. }
  transitivity (1 mod p); [|apply Z.mod_small; lia]. apply (mod_cancel p Q); [done..|].
  rewrite Z.mul_1_r, Z.mul_comm. by symmetry.
Qed.

(** ** Pocklington's criterion *)
Lemma pow_1_gcd r a x y :
  1 < r -> 0 <= x -> 0 <= y -> a ^ x mod r = 1 -> a ^ y mod r = 1 -> Z.gcd a r = 1 ->
  a ^ (Z.gcd x y) mod r = 1.
Proof.
  intros Hr. revert y. induction x as [x IH] using (well_founded_induction (Z.lt_wf 0)).
  intros y Hx Hy Ex Ey Hg. destruct (Z.eq_dec x 0) as [-> | Hn].
  { rewrite Z.gcd_0_l, Z.abs_eq by lia. exact Ey. }
  pose proof (Z.mod_pos_bound y x ltac:(lia)) as HB.
  rewrite <- Z.gcd_mod_r, Z.gcd_comm. apply IH; try lia.
  assert (HD : 0 <= y / x) by (apply Z.div_pos; lia).
  rewrite (Z.div_mod y x), Z.pow_add_r, Z.pow_mul_r in Ey by nia.
  assert (E1 : (a ^ x) ^ (y / x) mod r = 1).
  { rewrite <- Z.mod_pow_l, Ex, Z.pow_1_l by (apply Z.div_pos; lia). apply Z.mod_1_l. lia. }
  rewrite <- Z.mul_mod_idemp_l, E1, Z.mul_1_l in Ey by lia. exact Ey.
Qed.

(** Every prime divisor [r] of [n] has [q | r - 1]. *)
Lemma pocklington_divisor n q a r :
  1 < n -> prime q -> (q | n - 1) -> 0 <= a ->
  a ^ (n - 1) mod n = 1 -> Z.gcd (a ^ ((n - 1) / q) - 1) n = 1 ->
  prime r -> (r | n) -> (q | r - 1).
Proof.
  intros Hn Hq [m Hm] Ha E1 Eg Hr Hrn. pose proof (prime_ge_2 _ Hr) as Hr2.
  pose proof (prime_ge_2 _ Hq) as Hq2.
  assert (Em : (n - 1) / q = m) by (rewrite Hm; apply Z.div_mul; lia). rewrite Em in Eg.
  assert (E1r : a ^ (n - 1) mod r = 1).
  { destruct Hrn as [k ->]. rewrite (Z.div_mod (a ^ (k * r - 1)) (k * r)) by lia.
    rewrite E1, Z.add_comm. replace (k * r * _) with (k * (a ^ (k * r - 1) / (k * r)) * r) by ring.
    rewrite Z_mod_plus_full. apply Z.mod_1_l. lia. }
  assert (Hra : ~ (r | a)).
  { intros [k ->]. rewrite <- Z.mod_pow_l, Z_mod_mult, Z.pow_0_l, Z.mod_0_l in E1r by lia. lia. }
  assert (Hga : Z.gcd a r = 1) by (apply Zgcd_1_rel_prime, rel_prime_sym, prime_rel_prime; assumption).
  destruct (Zdivide_dec q (r - 1)) as [|Hnd]; [assumption|]. exfalso.
  assert (EF : a ^ (r - 1) mod r = 1) by (apply fermat_Z; assumption).
  pose proof (pow_1_gcd r a (n - 1) (r - 1) ltac:(lia) ltac:(lia) ltac:(lia) E1r EF Hga) as EG.
  set (g := Z.gcd (n - 1) (r - 1)) in *.
  assert (Hgm : (g | m)).
  { apply Gauss with q.
    - rewrite Z.mul_comm, <- Hm. apply Z.gcd_divide_l.
    - apply rel_prime_sym, prime_rel_prime; [assumption|]. intros H. apply Hnd.
      apply Z.divide_trans with g; [assumption | apply Z.gcd_divide_r]. }
  destruct Hgm as [j Hj].
  assert (Hm0 : 0 < m) by nia. assert (Hg0 : 0 <= g) by apply Z.gcd_nonneg.
  assert (Ej : a ^ m mod r = 1).
  { rewrite Hj, Z.mul_comm, Z.pow_mul_r by nia. rewrite <- Z.mod_pow_l, EG, Z.pow_1_l by nia.
    apply Z.mod_1_l. lia. }
  assert (Hrd : (r | a ^ m - 1)).
  { apply Z.mod_divide; [lia|]. rewrite Zminus_mod, Ej, Z.mod_1_l by lia. apply Z.mod_0_l. lia. }
  assert (Hr1 : (r | 1)) by (rewrite <- Eg; apply Z.gcd_greatest; assumption).
  apply Z.divide_1_r_nonneg in Hr1; lia.
Qed.

Lemma small_prime_divisor n : 1 < n -> prime n \/ exists r, prime r /\ (r | n) /\ r * r <= n.
Proof.
  induction n as [n IH] using (well_founded_induction (Z.lt_wf 0)). intros Hn.
  destruct (prime_dec n) as [|Hp]; [left; assumption|]. right.
  destruct (not_prime_divide n Hn Hp) as (d & Hd & e & He).
  assert (Hm : exists m, 1 < m < n /\ (m | n) /\ m * m <= n).
  { destruct (Z.le_gt_cases d e).
    - exists d. split; [lia|]. split; [exists e; assumption | nia].
    - exists e. split; [nia|]. split; [exists d; lia | nia]. }
  destruct Hm as (m & Hm & Hmn & Hsq).
  destruct (IH m ltac:(lia) ltac:(lia)) as [Hpm | (r & Hr & Hrm & Hrr)].
  - exists m. auto.
  - exists r. split; [assumption|]. split; [apply Z.divide_trans with m; assumption | nia].
Qed.

(** The checkable form: [F] is a product of known primes, each with its base. *)
Definition pock_step (n : Z) (qa : Z * Z) : bool :=
  let '(q, a) := qa in
  ((n - 1) mod q =? 0) && (Zpow_mod a (n - 1) n =? 1) &&
  (Z.gcd (Zpow_mod a ((n - 1) / q) n - 1) n =? 1).

Lemma pock_step_divides n q a r :
  1 < n -> 0 <= a -> prime q -> pock_step n (q, a) = true -> prime r -> (r | n) -> (q | r - 1).
Proof.
  intros Hn Ha Hq H Hr Hrn. unfold pock_step in H. pose proof (prime_ge_2 _ Hq).
  apply andb_true_iff in H as [H H3]. apply andb_true_iff in H as [H1 H2].
  apply Z.eqb_eq in H1, H2, H3. rewrite Zpow_mod_correct in H2, H3 by lia.
  apply pocklington_divisor with n a; try assumption; try lia.
  - apply Z.mod_divide; lia.
  - set (y := a ^ ((n - 1) / q)) in *.
    rewrite <- (Z.gcd_mod_l (y - 1) n), <- (Zminus_mod_idemp_l y 1 n), Z.gcd_mod_l. assumption.
Qed.

Lemma pocklington1 n q a :
  1 < n -> 0 <= a -> prime q -> n < q * q -> pock_step n (q, a) = true -> prime n.
Proof.
  intros Hn Ha Hq Hlt H. destruct (small_prime_divisor n Hn) as [|(r & Hr & Hrn & Hrr)]; [assumption|].
  exfalso. pose proof (prime_ge_2 _ Hr).
  pose proof (pock_step_divides n q a r Hn Ha Hq H Hr Hrn) as Hd.
  pose proof (prime_ge_2 _ Hq). apply Z.divide_pos_le in Hd; [nia | lia].
Qed.

Lemma pocklington2 n q1 a1 q2 a2 :
  1 < n -> 0 <= a1 -> 0 <= a2 -> prime q1 -> prime q2 -> q1 <> q2 ->
  n < (q1 * q2) * (q1 * q2) -> pock_step n (q1, a1) = true -> pock_step n (q2, a2) = true -> prime n.
Proof.
  intros Hn Ha1 Ha2 Hq1 Hq2 Hne Hlt H1 H2.
  destruct (small_prime_divisor n Hn) as [|(r & Hr & Hrn & Hrr)]; [assumption|].
  exfalso. pose proof (prime_ge_2 _ Hr). pose proof (prime_ge_2 _ Hq1). pose proof (prime_ge_2 _ Hq2).
  pose proof (pock_step_divides n q1 a1 r Hn Ha1 Hq1 H1 Hr Hrn) as [k Hk].
  pose proof (pock_step_divides n q2 a2 r Hn Ha2 Hq2 H2 Hr Hrn) as Hd.
  assert (Hd2 : (q2 | k)).
  { apply Gauss with q1; [rewrite Z.mul_comm, <- Hk; assumption|].
    apply rel_prime_sym, prime_rel_prime; [assumption|]. intros Hdiv.
    destruct (prime_divisors _ Hq2 _ Hdiv) as [|[|[|]]]; lia. }
  destruct Hd2 as [j ->]. assert (1 <= j) by nia. assert (q1 * q2 <= r - 1) by nia. nia.
Qed.

(** ** Trial division *)
Fixpoint no_divisor (fuel : nat) (d n : Z) : bool :=
  match fuel with
  | O => true
  | S f => negb (n mod d =? 0) && no_divisor f (d + 1) n
  end.

Lemma no_divisor_spec f d n r :
  0 < d -> no_divisor f d n = true -> d <= r < d + Z.of_nat f -> ~ (r | n).
Proof.
  revert d. induction f as [|f IH]; intros d Hd H Hr Hrn; [lia|].
  cbn [no_divisor] in H. apply andb_true_iff in H as [H1 H2].
  apply negb_true_iff, Z.eqb_neq in H1. destruct (Z.eq_dec r d) as [-> | Hne].
  - apply H1, Z.mod_divide; [lia | assumption].
  - apply (IH (d + 1)); try assumption; lia.
Qed.

Lemma trial_prime n f :
  1 < n -> n < (Z.of_nat f + 2) * (Z.of_nat f + 2) -> no_divisor f 2 n = true -> prime n.
Proof.
  intros Hn Hf H. destruct (small_prime_divisor n Hn) as [|(r & Hr & Hrn & Hrr)]; [assumption|].
  exfalso. pose proof (prime_ge_2 _ Hr). apply (no_divisor_spec f 2 n r); try assumption; nia.
Qed.

(** ** The certificate chain *)
Lemma prime_78283 : prime 78283.
Proof. apply (trial_prime _ 280); [lia | lia | vm_compute; reflexivity]. Qed.

Lemma prime_704251 : prime 704251.
Proof. apply (trial_prime _ 840); [lia | lia | vm_compute; reflexivity]. Qed.

Lemma prime_197 : prime 197.
Proof. apply (trial_prime _ 14); [lia | lia | vm_compute; reflexivity]. Qed.

Lemma prime_3677 : prime 3677.
Proof. apply (trial_prime _ 60); [lia | lia | vm_compute; reflexivity]. Qed.

Lemma prime_66417393611 : prime 66417393611.
Proof.
  apply (pocklington2 _ 197 2 3677 2); try lia;
    [apply prime_197 | apply prime_3677 | vm_compute; reflexivity | vm_compute; reflexivity].
Qed.

Lemma prime_44 : prime 11290956913871.
Proof. apply (pocklington1 _ 66417393611 2); try lia; [apply prime_66417393611 | vm_compute; reflexivity]. Qed.

Lemma prime_56 : prime 46076956964474543.
Proof.
  apply (pocklington2 _ 78283 2 704251 2); try lia;
    [apply prime_78283 | apply prime_704251 | vm_compute; reflexivity | vm_compute; reflexivity].
Qed.

Lemma prime_150 : prime 774023187263532362759620327192479577272145303.
Proof.
  apply (pocklington2 _ 46076956964474543 2 11290956913871 2); try lia;
    [apply prime_56 | apply prime_44 | vm_compute; reflexivity | vm_compute; reflexivity].
Qed.

Lemma prime_160 : prime 835945042244614951780389953367877943453916927241.
Proof.
  apply (pocklington1 _ 774023187263532362759620327192479577272145303 2); try lia;
    [apply prime_150 | vm_compute; reflexivity].
Qed.

Lemma prime_P256 :
  prime 0xFFFFFFFF00000001000000000000000000000000FFFFFFFFFFFFFFFFFFFFFFFF.
Proof.
  apply (pocklington1 _ 835945042244614951780389953367877943453916927241 2); try lia;
    [apply prime_160 | vm_compute; reflexivity].
Qed.
