(* ===== verification/BigHex.v ===== *)
(** Multi-word unsigned arithmetic of ecc_p256.c (configuration [ECC_MULT_ALGO_TYPE == 32]):
    the [bigHex256] numbers, their loops over nine 32-bit words, and the value each one has. *)
From Stdlib Require Import ZArith Lia Bool.
From stdpp Require Import base list.
From S2P Require Import Prelude.

(** ** Data

    [num] is the C array, most significant word first; the tenth field the code keeps, [len],
    is the number of words from the first non-zero one. *)
Definition ELEMENTS_BIG_HEX256 : nat := 9.
Definition HIGHEST_INDEX_BIG_HEX256 : nat := 8.

Record bigHex256 := mkBig { num : list Z; len : Z; sign : Z }.

(** The loops run over the array from its last word to its first: the recursive call is the
    part of the loop already done, and returns its carry. *)
Fixpoint add_loop (a b : list Z) : Z * list Z :=
  match a, b with
  | x :: a', y :: b' =>
      let '(carry, r) := add_loop a' b' in
      let tmp := u64 (x + y + carry) in
      (if bit32 tmp then 1 else 0, mask32 tmp :: r)
  | _, _ => (0, [])
  end.

Fixpoint sub_loop (a b : list Z) : Z * list Z :=
  match a, b with
  | x :: a', y :: b' =>
      let '(borrow, r) := sub_loop a' b' in
      if u64 (y + borrow) >? x
      then (1, mask32 (u64 (u64 (x + 0x100000000) - u32 (y + borrow))) :: r)
      else (0, mask32 (u32 (x - u32 (y + borrow))) :: r)
  | _, _ => (0, [])
  end.

(** [for(i=0;...) if(num[i] != 0) break;]: the index where the loop stops. *)
Fixpoint first_nonzero (l : list Z) : Z :=
  match l with
  | [] => 0
  | x :: l' => if negb (x =? 0) then 0 else 1 + first_nonzero l'
  end.

Definition setBigNumberLength256 (A : bigHex256) : bigHex256 :=
  mkBig (num A) (Z.of_nat ELEMENTS_BIG_HEX256 - first_nonzero (num A)) (sign A).

Definition initBigNumber256 : bigHex256 := mkBig (replicate ELEMENTS_BIG_HEX256 0) 0 0.

Definition copyBigHex256 (source : bigHex256) : bigHex256 :=
  mkBig (num source) (len source) (sign source).

Definition AddBigHex256 (A B : bigHex256) : bigHex256 :=
  let R := setBigNumberLength256 (mkBig (snd (add_loop (num A) (num B))) 0 0) in
  mkBig (num R) (len R) 0.

(** [Add2Self] keeps the sign of its first argument. *)
Definition Add2SelfBigHex256 (A B : bigHex256) : bigHex256 :=
  setBigNumberLength256 (mkBig (snd (add_loop (num A) (num B))) (len A) (sign A)).

(** [SubtractBigHex256] does not write the sign of the result: [R] is the value the result
    object has at the call, of which only the sign survives. *)
Definition SubtractBigHex256 (A B R : bigHex256) : bigHex256 :=
  setBigNumberLength256 (mkBig (snd (sub_loop (num A) (num B))) (len R) (sign R)).

Definition SubtractFromSelfBigHex256 (A B : bigHex256) : bigHex256 :=
  setBigNumberLength256 (mkBig (snd (sub_loop (num A) (num B))) (len A) (sign A)).

(** The comparison loops, from the word [i] on; [d] is what the function returns when the
    words are equal. *)
Fixpoint compare_loop (d : bool) (a b : list Z) : bool :=
  match a, b with
  | x :: a', y :: b' =>
      if y >? x then false else if y <? x then true else compare_loop d a' b'
  | _, _ => d
  end.

Definition compare256 (d : bool) (A B : bigHex256) : bool :=
  if len A >? len B then true
  else if len A <? len B then false
  else let i := Z.to_nat (Z.of_nat ELEMENTS_BIG_HEX256 - len A) in
       compare_loop d (drop i (num A)) (drop i (num B)).

Definition isGreaterThan256 : bigHex256 -> bigHex256 -> bool := compare256 false.
Definition isGreaterThanOrEqual256 : bigHex256 -> bigHex256 -> bool := compare256 true.

Fixpoint notEqual_loop (a b : list Z) : bool :=
  match a, b with
  | x :: a', y :: b' => if negb (x =? y) then true else notEqual_loop a' b'
  | _, _ => false
  end.

Definition notEqual256 (A B : bigHex256) : bool := notEqual_loop (num A) (num B).

(** Division by two walks the array upwards and hands the remainder down. *)
Fixpoint div2_loop (rem : Z) (l : list Z) : list Z :=
  match l with
  | [] => []
  | x :: l' =>
      let val := u64 (x + u64 (rem * 0x100000000)) in
      u32 (Z.shiftr val 1) :: div2_loop (u32 (val - Z.shiftl (Z.shiftr val 1) 1)) l'
  end.

Definition divideByTwo256 (A : bigHex256) : bigHex256 :=
  setBigNumberLength256 (mkBig (div2_loop 0 (num A)) (len A) (sign A)).

Definition num_at (A : bigHex256) (i : nat) : Z := nth i (num A) 0.

Definition ISBIGHEXEVEN256 (A : bigHex256) : bool :=
  Z.land (num_at A HIGHEST_INDEX_BIG_HEX256) 1 =? 0.

Definition shiftLeftOneArrayElement256 (A : bigHex256) : bigHex256 :=
  mkBig (take 8 (drop 1 (num A)) ++ drop 8 (num A)) (len A) (sign A).

(** ** Values *)
Definition base : Z := 2 ^ 32.
Definition pw (n : nat) : Z := base ^ Z.of_nat n.

Fixpoint eval (l : list Z) : Z :=
  match l with [] => 0 | x :: l' => x * pw (length l') + eval l' end.

Definition words (l : list Z) : Prop := Forall (is_u 32) l.
Definition value (A : bigHex256) : Z := eval (num A).
Definition svalue (A : bigHex256) : Z := if sign A =? 0 then value A else - value A.

(** The invariant of a [bigHex256] the code keeps between calls. *)
Record wf (A : bigHex256) : Prop := {
  wf_length : length (num A) = ELEMENTS_BIG_HEX256;
  wf_words : words (num A);
  wf_len : len A = Z.of_nat ELEMENTS_BIG_HEX256 - first_nonzero (num A);
  wf_sign : sign A = 0 \/ sign A = 1 }.

(** ** Lemmas: words and values *)
Lemma base_pos : 0 < base.
Proof. done. Qed.

Lemma pw_pos n : 0 < pw n.
Proof. apply Z.pow_pos_nonneg; [done | lia]. Qed.

Lemma pw_S n : pw (S n) = base * pw n.
Proof. unfold pw. rewrite Nat2Z.inj_succ, Z.pow_succ_r by lia. done. Qed.

Lemma pw_add n m : pw (n + m) = pw n * pw m.
Proof. unfold pw. rewrite Nat2Z.inj_add, Z.pow_add_r by lia. done. Qed.

Lemma words_nil : words [].
Proof. by apply Forall_nil. Qed.

Lemma words_cons x l : words (x :: l) <-> is_u 32 x /\ words l.
Proof. unfold words. by rewrite Forall_cons. Qed.

Lemma words_app l k : words (l ++ k) <-> words l /\ words k.
Proof. unfold words. by rewrite Forall_app. Qed.

Lemma eval_bound l : words l -> 0 <= eval l < pw (length l).
Proof.
  induction l as [|x l IH]; [done|]. intros [Hx Hl]%words_cons. simpl eval. cbn [length].
  rewrite pw_S. specialize (IH Hl). unfold is_u in Hx. fold base in Hx.
  pose proof (pw_pos (length l)). nia.
Qed.

Lemma eval_app l k : eval (l ++ k) = eval l * pw (length k) + eval k.
Proof.
  induction l as [|x l IH]; [done|]. simpl. rewrite IH, length_app, pw_add. ring.
Qed.

Lemma eval_replicate0 n : eval (replicate n 0) = 0.
Proof. induction n as [|n IH]; [done|]. simpl. lia. Qed.

Lemma words_replicate0 n : words (replicate n 0).
Proof. apply Forall_replicate. done. Qed.

Lemma words_take n l : words l -> words (take n l).
Proof. apply Forall_take. Qed.

Lemma words_drop n l : words l -> words (drop n l).
Proof. apply Forall_drop. Qed.

(** ** Lemmas: the loops *)
Lemma carry_split t :
  0 <= t < 2 ^ 33 ->
  is_u 32 (mask32 t) /\ mask32 t + base * (if bit32 t then 1 else 0) = t.
Proof.
  intros H. rewrite bit32_spec by done. rewrite mask32_mod. split; [apply wrap_range; lia|].
  unfold base. destruct (Z.leb_spec (2 ^ 32) t).
  - rewrite <- (Z.mod_unique t (2 ^ 32) 1 (t - 2 ^ 32)); lia.
  - rewrite Z.mod_small; lia.
Qed.

Lemma add_loop_spec a b :
  length a = length b -> words a -> words b ->
  let '(c, r) := add_loop a b in
  words r /\ length r = length a /\ 0 <= c <= 1 /\ eval r + c * pw (length a) = eval a + eval b.
Proof.
  revert b. induction a as [|x a IH]; intros [|y b] Hl Ha Hb; try done.
  apply words_cons in Ha as [Hx Ha]. apply words_cons in Hb as [Hy Hb].
  injection Hl as Hl. specialize (IH b Hl Ha Hb). simpl add_loop.
  destruct (add_loop a b) as [c r]. destruct IH as (Hw & Hlr & Hc & He).
  unfold is_u in Hx, Hy. rewrite u64_small by lia.
  destruct (carry_split (x + y + c)) as [Hm Hs]; [lia|].
  repeat split.
  - apply words_cons. done.
  - cbn [length]. by rewrite Hlr.
  - destruct bit32; lia.
  - destruct bit32; lia.
  - cbn [length eval]. rewrite pw_S, Hlr, <- Hl.
    set (m := mask32 _) in *. set (k := if bit32 _ then _ else _) in *.
    transitivity ((m + base * k) * pw (length a) + eval r); [ring|]. rewrite Hs. lia.
Qed.

Lemma borrow_split x y c :
  is_u 32 x -> is_u 32 y -> 0 <= c <= 1 ->
  let t := if u64 (y + c) >? x
           then (1, mask32 (u64 (u64 (x + 0x100000000) - u32 (y + c))))
           else (0, mask32 (u32 (x - u32 (y + c)))) in
  is_u 32 (snd t) /\ 0 <= fst t <= 1 /\ snd t - base * fst t = x - y - c.
Proof.
  unfold is_u. intros Hx Hy Hc. rewrite (u64_small (y + c)) by lia.
  rewrite Z.gtb_ltb. destruct (Z.ltb_spec x (y + c)); cbn [fst snd].
  - rewrite (u64_small (x + _)) by lia. rewrite mask32_mod.
    assert (Hu : u64 (x + 4294967296 - u32 (y + c)) mod 2 ^ 32 = x + base - y - c).
    { destruct (Z.eq_dec (y + c) (2 ^ 32)) as [E | E].
      - rewrite E. change (u32 (2 ^ 32)) with 0. rewrite u64_small by lia.
        rewrite <- (Z.mod_unique _ (2 ^ 32) 1 x); unfold base; lia.
      - rewrite u32_small, u64_small by lia. rewrite Z.mod_small; unfold base; lia. }
    rewrite Hu. unfold base. lia.
  - rewrite (u32_small (y + c)), u32_small, mask32_mod, Z.mod_small by lia. lia.
Qed.

Lemma sub_loop_spec a b :
  length a = length b -> words a -> words b ->
  let '(c, r) := sub_loop a b in
  words r /\ length r = length a /\ 0 <= c <= 1 /\ eval r - c * pw (length a) = eval a - eval b.
Proof.
  revert b. induction a as [|x a IH]; intros [|y b] Hl Ha Hb; try done.
  apply words_cons in Ha as [Hx Ha]. apply words_cons in Hb as [Hy Hb].
  injection Hl as Hl. specialize (IH b Hl Ha Hb). simpl sub_loop.
  destruct (sub_loop a b) as [c r]. destruct IH as (Hw & Hlr & Hc & He).
  pose proof (borrow_split x y c Hx Hy Hc) as Hb'. cbv zeta in Hb'.
  destruct (u64 (y + c) >? x); cbn [fst snd] in Hb'; destruct Hb' as (Hm & _ & Hs);
    (repeat split; [by apply words_cons | cbn [length]; by rewrite Hlr | lia | lia |]);
    cbn [length eval]; rewrite pw_S, Hlr, <- Hl; set (m := mask32 _) in *.
  - transitivity ((m - base * 1) * pw (length a) + eval r); [ring|]. rewrite Hs. lia.
  - transitivity ((m - base * 0) * pw (length a) + eval r); [ring|]. rewrite Hs. lia.
Qed.

(** Two results without the final carry: the only form the callers need. *)
Lemma add_loop_value a b :
  length a = length b -> words a -> words b -> eval a + eval b < pw (length a) ->
  let r := snd (add_loop a b) in
  words r /\ length r = length a /\ eval r = eval a + eval b.
Proof.
  intros Hl Ha Hb Hlt. pose proof (add_loop_spec a b Hl Ha Hb) as H.
  destruct (add_loop a b) as [c r]. destruct H as (Hw & Hlr & Hc & He).
  pose proof (eval_bound r Hw) as Hr. rewrite Hlr in Hr. simpl. repeat split; [done..|].
  assert (c = 0) by (pose proof (pw_pos (length a)); nia). subst. lia.
Qed.

Lemma sub_loop_value a b :
  length a = length b -> words a -> words b -> eval b <= eval a ->
  let r := snd (sub_loop a b) in
  words r /\ length r = length a /\ eval r = eval a - eval b.
Proof.
  intros Hl Ha Hb Hle. pose proof (sub_loop_spec a b Hl Ha Hb) as H.
  destruct (sub_loop a b) as [c r]. destruct H as (Hw & Hlr & Hc & He).
  pose proof (eval_bound r Hw) as Hr. rewrite Hlr in Hr. simpl. repeat split; [done..|].
  assert (c = 0) by (pose proof (pw_pos (length a)); nia). subst. lia.
Qed.

Lemma first_nonzero_range l : 0 <= first_nonzero l <= Z.of_nat (length l).
Proof. induction l as [|x l IH]; simpl; [lia|]. destruct (x =? 0); simpl; lia. Qed.

(** The length field bounds the value from both sides. *)
Lemma first_nonzero_upper l :
  words l -> eval l < base ^ (Z.of_nat (length l) - first_nonzero l).
Proof.
  intros Hw. induction l as [|x l IH]; [done|]. cbn [length eval first_nonzero].
  apply words_cons in Hw as [Hx Hw]. destruct (Z.eqb_spec x 0) as [-> | Hx0]; simpl negb; cbv iota.
  - replace (Z.of_nat (S (length l)) - (1 + first_nonzero l))
      with (Z.of_nat (length l) - first_nonzero l) by lia. specialize (IH Hw). lia.
  - replace (Z.of_nat (S (length l)) - 0) with (Z.of_nat (S (length l))) by lia.
    fold (pw (S (length l))). rewrite pw_S. unfold is_u in Hx. fold base in Hx.
    pose proof (eval_bound l Hw). nia.
Qed.

Lemma first_nonzero_lower l :
  words l -> first_nonzero l < Z.of_nat (length l) ->
  base ^ (Z.of_nat (length l) - first_nonzero l - 1) <= eval l.
Proof.
  intros Hw. induction l as [|x l IH]; [simpl; lia|]. cbn [length eval first_nonzero].
  apply words_cons in Hw as [Hx Hw]. destruct (Z.eqb_spec x 0) as [-> | Hx0]; simpl negb; cbv iota.
  - intros Hlt. replace (Z.of_nat (S (length l)) - (1 + first_nonzero l) - 1)
      with (Z.of_nat (length l) - first_nonzero l - 1) by lia. apply IH in Hw; lia.
  - intros _. replace (Z.of_nat (S (length l)) - 0 - 1) with (Z.of_nat (length l)) by lia.
    fold (pw (length l)). unfold is_u in Hx. pose proof (eval_bound l Hw).
    pose proof (pw_pos (length l)). nia.
Qed.

Lemma first_nonzero_all l :
  words l -> first_nonzero l = Z.of_nat (length l) <-> eval l = 0.
Proof.
  intros Hw. pose proof (eval_bound l Hw) as Hb. split; intros H.
  - pose proof (first_nonzero_upper l Hw) as Hu. rewrite H, Z.sub_diag in Hu. simpl in Hu. lia.
  - pose proof (first_nonzero_range l). destruct (Z.lt_ge_cases (first_nonzero l) (Z.of_nat (length l)))
      as [Hlt | ?]; [|lia].
    pose proof (first_nonzero_lower l Hw Hlt) as Hlo.
    assert (0 < base ^ (Z.of_nat (length l) - first_nonzero l - 1))
      by (apply Z.pow_pos_nonneg; [done | lia]). lia.
Qed.

Lemma compare_loop_spec d a b :
  length a = length b -> words a -> words b ->
  compare_loop d a b = if eval b <? eval a then true else if eval a <? eval b then false else d.
Proof.
  revert b. induction a as [|x a IH]; intros [|y b] Hl Ha Hb; try done.
  apply words_cons in Ha as [Hx Ha]. apply words_cons in Hb as [Hy Hb].
  injection Hl as Hl. cbn [compare_loop eval]. rewrite Z.gtb_ltb.
  pose proof (eval_bound a Ha) as Ba. pose proof (eval_bound b Hb) as Bb.
  rewrite <- Hl in *. pose proof (pw_pos (length a)).
  destruct (Z.ltb_spec x y); [|destruct (Z.ltb_spec y x)].
  - assert (eval a + x * pw (length a) < eval b + y * pw (length a)) by nia. zcases; first [done | lia].
  - assert (eval b + y * pw (length a) < eval a + x * pw (length a)) by nia. zcases; first [done | lia].
  - assert (x = y) as -> by lia. rewrite IH by done. zcases; first [done | lia].
Qed.

Lemma eval_drop_zeros l n :
  Z.of_nat n <= first_nonzero l -> eval (drop n l) = eval l.
Proof.
  revert n. induction l as [|x l IH]; intros [|n] Hn; try done.
  cbn [first_nonzero] in Hn. pose proof (first_nonzero_range l).
  destruct (Z.eqb_spec x 0) as [-> |]; simpl in Hn; [|lia].
  cbn [drop eval]. rewrite IH by lia. lia.
Qed.

Lemma notEqual_loop_spec a b :
  length a = length b -> words a -> words b ->
  notEqual_loop a b = negb (eval a =? eval b).
Proof.
  revert b. induction a as [|x a IH]; intros [|y b] Hl Ha Hb; try done.
  apply words_cons in Ha as [Hx Ha]. apply words_cons in Hb as [Hy Hb].
  injection Hl as Hl. cbn [notEqual_loop eval].
  pose proof (eval_bound a Ha) as Ba. pose proof (eval_bound b Hb) as Bb.
  rewrite <- Hl in *. pose proof (pw_pos (length a)).
  destruct (Z.eqb_spec x y) as [-> | Hne]; simpl.
  - rewrite IH by done. zcases; first [done | lia].
  - assert (x * pw (length a) + eval a <> y * pw (length a) + eval b).
    { intros E. assert (x < y \/ y < x) as [|] by lia; nia. }
    zcases; first [done | lia].
Qed.

Lemma eval_inj a b :
  length a = length b -> words a -> words b -> eval a = eval b -> a = b.
Proof.
  revert b. induction a as [|x a IH]; intros [|y b] Hl Ha Hb E; try done.
  apply words_cons in Ha as [Hx Ha]. apply words_cons in Hb as [Hy Hb].
  injection Hl as Hl. cbn [eval] in E.
  pose proof (eval_bound a Ha) as Ba. pose proof (eval_bound b Hb) as Bb.
  rewrite <- Hl in *. assert (x = y) as -> by (assert (x < y \/ y < x \/ x = y) as [|[|]] by lia; nia).
  f_equal. apply IH; [done..|]. lia.
Qed.

Lemma div2_loop_spec l rem :
  words l -> 0 <= rem <= 1 ->
  let r := div2_loop rem l in
  words r /\ length r = length l /\ eval r = (rem * pw (length l) + eval l) / 2.
Proof.
  revert rem. induction l as [|x l IH]; intros rem Hw Hr.
  { simpl. repeat split; [apply words_nil|]. assert (rem = 0 \/ rem = 1) as [-> | ->] by lia; done. }
  apply words_cons in Hw as [Hx Hw]. unfold is_u in Hx. fold base in Hx. cbn [div2_loop].
  rewrite (u64_small (rem * _)), u64_small by (unfold base in *; lia).
  set (v := x + rem * 4294967296). rewrite Z.shiftl_mul_pow2, Z.shiftr_div_pow2 by lia.
  change (2 ^ 1) with 2. assert (Hv : 0 <= v < 2 * base) by (unfold v, base in *; lia).
  assert (Hq : v = 2 * (v / 2) + v mod 2) by (apply Z.div_mod; lia).
  assert (Hm : 0 <= v mod 2 < 2) by (apply Z.mod_pos_bound; lia).
  replace (v - v / 2 * 2) with (v mod 2) by lia.
  rewrite (u32_small (v mod 2)) by lia. rewrite (u32_small (v / 2)) by (unfold base in *; lia).
  destruct (IH (v mod 2) Hw ltac:(lia)) as (Hw' & Hl' & He').
  repeat split.
  - apply words_cons. split; [unfold is_u, base in *; lia | done].
  - cbn [length]. by rewrite Hl'.
  - cbn [length eval]. rewrite Hl', He', pw_S.
    replace (rem * (base * pw (length l)) + (x * pw (length l) + eval l))
      with ((v mod 2 * pw (length l) + eval l) + (v / 2 * pw (length l)) * 2)
      by (transitivity ((2 * (v / 2) + v mod 2) * pw (length l) + eval l);
          [ring | rewrite <- Hq; unfold v, base; ring]).
    rewrite Z.div_add by lia. lia.
Qed.

(** ** The operations on whole numbers *)
Definition CAP : Z := pw ELEMENTS_BIG_HEX256.

Lemma wf_value_bound A : wf A -> 0 <= value A < CAP.
Proof. intros [Hl Hw _ _]. unfold value, CAP. rewrite <- Hl. by apply eval_bound. Qed.

Lemma setBigNumberLength256_wf l n s :
  length l = ELEMENTS_BIG_HEX256 -> words l -> s = 0 \/ s = 1 ->
  wf (setBigNumberLength256 (mkBig l n s)).
Proof. by constructor. Qed.

Lemma wf_len_upper A : wf A -> value A < base ^ len A.
Proof. intros [Hl Hw Hn _]. rewrite Hn, <- Hl. by apply first_nonzero_upper. Qed.

Lemma wf_len_lower A : wf A -> 0 < len A -> base ^ (len A - 1) <= value A.
Proof. intros [Hl Hw Hn _] H. rewrite Hn, <- Hl in *. apply first_nonzero_lower; [done | lia]. Qed.

Lemma wf_len_range A : wf A -> 0 <= len A <= 9.
Proof.
  intros [Hl Hw Hn _]. rewrite Hn. pose proof (first_nonzero_range (num A)) as H.
  rewrite Hl in H. unfold ELEMENTS_BIG_HEX256 in *. lia.
Qed.

Lemma wf_len_zero A : wf A -> len A = 0 <-> value A = 0.
Proof.
  intros [Hl Hw Hn _]. rewrite Hn, <- Hl. unfold value.
  rewrite <- (first_nonzero_all (num A)) by done. lia.
Qed.

(** Two normalised numbers of equal value have the same words and the same length field. *)
Lemma wf_value_num A B : wf A -> wf B -> value A = value B -> num A = num B.
Proof. intros [HlA HwA _ _] [HlB HwB _ _] E. apply eval_inj; [congruence | done..]. Qed.

Lemma AddBigHex256_spec A B :
  wf A -> wf B -> value A + value B < CAP ->
  wf (AddBigHex256 A B) /\ value (AddBigHex256 A B) = value A + value B /\
  sign (AddBigHex256 A B) = 0.
Proof.
  intros [HlA HwA _ _] [HlB HwB _ _] Hlt. unfold CAP, value in *.
  destruct (add_loop_value (num A) (num B)) as (Hw & Hl & He); [congruence | done | done | by rewrite HlA |].
  repeat split; try done; [cbn; congruence | by left].
Qed.

Lemma Add2SelfBigHex256_spec A B :
  wf A -> wf B -> value A + value B < CAP ->
  wf (Add2SelfBigHex256 A B) /\ value (Add2SelfBigHex256 A B) = value A + value B /\
  sign (Add2SelfBigHex256 A B) = sign A.
Proof.
  intros [HlA HwA _ HsA] [HlB HwB _ _] Hlt. unfold CAP, value in *.
  destruct (add_loop_value (num A) (num B)) as (Hw & Hl & He); [congruence | done | done | by rewrite HlA |].
  split; [|done]. apply setBigNumberLength256_wf; [congruence | done..].
Qed.

Lemma SubtractBigHex256_spec A B R :
  wf A -> wf B -> sign R = 0 \/ sign R = 1 -> value B <= value A ->
  wf (SubtractBigHex256 A B R) /\ value (SubtractBigHex256 A B R) = value A - value B /\
  sign (SubtractBigHex256 A B R) = sign R.
Proof.
  intros [HlA HwA _ _] [HlB HwB _ _] Hs Hle. unfold value in *.
  destruct (sub_loop_value (num A) (num B)) as (Hw & Hl & He); [congruence | done..|].
  split; [|done]. apply setBigNumberLength256_wf; [congruence | done..].
Qed.

Lemma SubtractFromSelfBigHex256_spec A B :
  wf A -> wf B -> value B <= value A ->
  wf (SubtractFromSelfBigHex256 A B) /\
  value (SubtractFromSelfBigHex256 A B) = value A - value B /\
  sign (SubtractFromSelfBigHex256 A B) = sign A.
Proof. intros HA HB Hle. apply (SubtractBigHex256_spec A B A); [done | done | apply HA | done]. Qed.

Lemma base_pow_mono n m : 0 <= n <= m -> base ^ n <= base ^ m.
Proof. intros H. apply Z.pow_le_mono_r; [done | lia]. Qed.

Lemma compare256_spec d A B :
  wf A -> wf B ->
  compare256 d A B = if value B <? value A then true else if value A <? value B then false else d.
Proof.
  intros HA HB. unfold compare256. rewrite Z.gtb_ltb.
  pose proof (wf_len_range A HA) as RA. pose proof (wf_len_range B HB) as RB.
  pose proof (wf_len_upper A HA) as UA. pose proof (wf_len_upper B HB) as UB.
  destruct (Z.ltb_spec (len B) (len A)) as [Hlt|Hge];
    [|destruct (Z.ltb_spec (len A) (len B)) as [Hlt|Hge2]].
  - pose proof (wf_len_lower A HA ltac:(lia)).
    pose proof (base_pow_mono (len B) (len A - 1) ltac:(lia)). zcases; first [done | lia].
  - pose proof (wf_len_lower B HB ltac:(lia)).
    pose proof (base_pow_mono (len A) (len B - 1) ltac:(lia)). zcases; first [done | lia].
  - assert (E : len A = len B) by lia. destruct HA as [HlA HwA HnA _], HB as [HlB HwB HnB _].
    pose proof (first_nonzero_range (num A)).
    set (i := Z.to_nat _). rewrite compare_loop_spec.
    + unfold value. rewrite !eval_drop_zeros by lia. done.
    + rewrite !length_drop. congruence.
    + by apply words_drop.
    + by apply words_drop.
Qed.

Lemma isGreaterThanOrEqual256_spec A B :
  wf A -> wf B -> isGreaterThanOrEqual256 A B = (value B <=? value A).
Proof.
  intros HA HB. unfold isGreaterThanOrEqual256. rewrite compare256_spec by done.
  zcases; first [done | lia].
Qed.

Lemma isGreaterThan256_spec A B :
  wf A -> wf B -> isGreaterThan256 A B = (value B <? value A).
Proof.
  intros HA HB. unfold isGreaterThan256. rewrite compare256_spec by done.
  zcases; first [done | lia].
Qed.

Lemma notEqual256_spec A B :
  wf A -> wf B -> notEqual256 A B = negb (value A =? value B).
Proof.
  intros [HlA HwA _ _] [HlB HwB _ _]. apply notEqual_loop_spec; [congruence | done..].
Qed.

Lemma divideByTwo256_spec A :
  wf A -> wf (divideByTwo256 A) /\ value (divideByTwo256 A) = value A / 2 /\
          sign (divideByTwo256 A) = sign A.
Proof.
  intros [Hl Hw _ Hs]. destruct (div2_loop_spec (num A) 0) as (Hw' & Hl' & He); [done | lia |].
  split; [|done]. apply setBigNumberLength256_wf; [congruence | done..].
Qed.

Lemma eval_last l : words l -> eval l mod 2 = List.last l 0 mod 2.
Proof.
  induction l as [|x l IH]; [done|]. intros [Hx Hw]%words_cons. specialize (IH Hw).
  destruct l as [|y l]; [cbn; by rewrite Z.mul_1_r, Z.add_0_r|].
  change (List.last (x :: y :: l) 0) with (List.last (y :: l) 0).
  rewrite <- IH. change (eval (x :: y :: l)) with (x * pw (length (y :: l)) + eval (y :: l)).
  cbn [length]. rewrite pw_S. replace (x * (base * pw (length l)) + eval (y :: l))
    with (eval (y :: l) + (x * 2 ^ 31 * pw (length l)) * 2) by (unfold base; ring).
  by rewrite Z.mod_add by lia.
Qed.

Lemma ISBIGHEXEVEN256_spec A : wf A -> ISBIGHEXEVEN256 A = Z.even (value A).
Proof.
  intros [Hl Hw _ _]. unfold ISBIGHEXEVEN256, num_at, value.
  change (Z.land ?a 1) with (Z.land a (Z.ones 1)). rewrite Z.land_ones by lia. change (2 ^ 1) with 2.
  replace (nth HIGHEST_INDEX_BIG_HEX256 (num A) 0) with (List.last (num A) 0).
  - rewrite <- eval_last by done. rewrite Zmod_even. by destruct (Z.even _).
  - destruct (num A) as [|a0 [|a1 [|a2 [|a3 [|a4 [|a5 [|a6 [|a7 [|a8 [|]]]]]]]]]]; done.
Qed.

Lemma initBigNumber256_spec : wf initBigNumber256 /\ value initBigNumber256 = 0.
Proof. split; [|done]. constructor; [done | apply words_replicate0 | done | by left]. Qed.

Lemma copyBigHex256_id A : copyBigHex256 A = A.
Proof. by destruct A. Qed.

(** Moving the array up by one word, when the word it drops is zero, multiplies by the base
    all but the last word, which is then written by the caller. *)
Lemma shiftLeftOne_insert A w :
  wf A -> value A < pw 8 -> is_u 32 w ->
  let B := mkBig (<[HIGHEST_INDEX_BIG_HEX256 := w]> (num (shiftLeftOneArrayElement256 A))) (len A) (sign A) in
  length (num B) = ELEMENTS_BIG_HEX256 /\ words (num B) /\ value B = value A * base + w.
Proof.
  intros [Hl Hw _ _] Hlt Hb. unfold value in *.
  destruct A as [l n s]; cbn [num len sign shiftLeftOneArrayElement256] in *.
  destruct l as [|a0 l]; [done|].
  assert (a0 = 0) as ->.
  { apply words_cons in Hw as [Ha Hw]. injection Hl as Hl. cbn [eval] in Hlt. rewrite Hl in Hlt.
    pose proof (eval_bound l Hw). unfold is_u in Ha. pose proof (pw_pos 8). nia. }
  destruct l as [|a1 [|a2 [|a3 [|a4 [|a5 [|a6 [|a7 [|a8 [|]]]]]]]]]; try done.
  cbn. repeat split.
  - repeat (apply words_cons in Hw as [? Hw]). repeat (apply words_cons; split; [done|]). apply words_nil.
  - unfold pw. change (Z.of_nat 8) with 8. change (Z.of_nat 7) with 7. change (Z.of_nat 6) with 6.
    change (Z.of_nat 5) with 5. change (Z.of_nat 4) with 4. change (Z.of_nat 3) with 3.
    change (Z.of_nat 2) with 2. change (Z.of_nat 1) with 1. change (Z.of_nat 0) with 0. ring.
Qed.

Create HintDb bighex.
#[export] Hint Resolve wf_value_bound setBigNumberLength256_wf words_replicate0 words_take words_drop : bighex.
