(* ===== verification/FieldP256.v ===== *)
(** Arithmetic modulo the P256 prime in ecc_p256.c: signed subtraction, the reduction
    [specialModP256], multiplication and the binary inversion. *)
From Stdlib Require Import ZArith Lia Bool Znumtheory.
From stdpp Require Import base list.
From S2P Require Import Prelude BigHex.

(** ** Constants *)
Definition bigHexP256 : bigHex256 := mkBig
  [0x00000000; 0xFFFFFFFF; 0x00000001; 0x00000000; 0x00000000; 0x00000000;
   0xFFFFFFFF; 0xFFFFFFFF; 0xFFFFFFFF] 8 0.

Record veryBigHex256 := mkVeryBig { vnum : list Z; vlen : Z; vsign : Z }.

Definition veryBigHexP256 : veryBigHex256 := mkVeryBig
  [0; 0; 0; 0; 0; 0; 0; 0; 0;
   0x00000000; 0xFFFFFFFF; 0x00000001; 0x00000000; 0x00000000; 0x00000000;
   0xFFFFFFFF; 0xFFFFFFFF; 0xFFFFFFFF] 8 0.

(** The number of words of a [veryBigHex256]. *)
Definition ELEMENTS_VERY_BIG_HEX256 : nat := 18.

(** An automatic variable the code does not initialise; each function that receives one
    writes every field that is read afterwards. *)
Definition uninit : bigHex256 := initBigNumber256.

Definition set_sign (s : Z) (A : bigHex256) : bigHex256 := mkBig (num A) (len A) s.

(** ** Signed addition and subtraction *)
Definition AddP256 (A : bigHex256) : bigHex256 :=
  let BigHexResult := SubtractBigHex256 bigHexP256 A uninit in
  set_sign 0 (copyBigHex256 BigHexResult).

Definition AddPdiv2_256 (A : bigHex256) : bigHex256 :=
  let A1 :=
    if sign A =? 0 then
      mkBig (snd (add_loop (num A) (num bigHexP256))) (len A) (sign A)
    else if isGreaterThan256 A bigHexP256 then
      mkBig (snd (sub_loop (num A) (num bigHexP256))) (len A) (sign A)
    else
      set_sign 0 (copyBigHex256 (SubtractBigHex256 bigHexP256 A uninit)) in
  setBigNumberLength256 (mkBig (div2_loop 0 (num A1)) (len A1) (sign A1)).

Definition SubtractFromSelfBigHexSign256 (A B : bigHex256) : bigHex256 :=
  if sign A =? 0 then
    if sign B =? 0 then
      if isGreaterThanOrEqual256 A B then SubtractFromSelfBigHex256 A B
      else set_sign 1 (copyBigHex256 (SubtractBigHex256 B A uninit))
    else Add2SelfBigHex256 A B
  else
    if sign B =? 0 then Add2SelfBigHex256 A B
    else
      if isGreaterThanOrEqual256 B A
      then set_sign 0 (copyBigHex256 (SubtractBigHex256 B A uninit))
      else SubtractFromSelfBigHex256 A B.

Definition AddBigHexModP256 (A B : bigHex256) : bigHex256 :=
  let R := AddBigHex256 A B in
  if sign R =? 0 then
    if isGreaterThanOrEqual256 R bigHexP256 then SubtractFromSelfBigHex256 R bigHexP256 else R
  else AddP256 R.

Definition SubtractBigHexMod256 (A B R0 : bigHex256) : bigHex256 :=
  let R :=
    if sign A =? 0 then
      if sign B =? 0 then
        if isGreaterThanOrEqual256 A B then set_sign 0 (SubtractBigHex256 A B R0)
        else set_sign 1 (SubtractBigHex256 B A R0)
      else set_sign 0 (AddBigHex256 A B)
    else
      if sign B =? 0 then set_sign 1 (AddBigHex256 A B)
      else
        if isGreaterThanOrEqual256 B A then set_sign 0 (SubtractBigHex256 B A R0)
        else set_sign 1 (SubtractBigHex256 A B R0) in
  if sign R =? 0 then
    if isGreaterThanOrEqual256 R bigHexP256 then SubtractFromSelfBigHex256 R bigHexP256 else R
  else AddP256 R.

Definition SubtractBigHexUint32_256 (A : bigHex256) (numB : Z) : bigHex256 :=
  if num_at A HIGHEST_INDEX_BIG_HEX256 >=? numB then
    let R := copyBigHex256 A in
    mkBig (<[HIGHEST_INDEX_BIG_HEX256 := u32 (num_at A HIGHEST_INDEX_BIG_HEX256 - numB)]> (num R))
      (len R) (sign R)
  else
    let N := mkBig (<[HIGHEST_INDEX_BIG_HEX256 := numB]> (num initBigNumber256)) 1 0 in
    SubtractBigHexMod256 A N initBigNumber256.

(** ** Reduction: [MultiplyByU32ModP256 N] is the number [N * P]. *)
Definition MultiplyByU32ModP256 (N : Z) : bigHex256 :=
  let tempVal := u32 (u32 (0xFFFFFFFF - N) + 1) in
  let num0 := u32 (N - 1) in
  mkBig [num0; tempVal; N; 0; 0; u32 (N - 1); 0xFFFFFFFF; 0xFFFFFFFF; tempVal]
    (if negb (num0 =? 0) then 9 else 8) 0.

Definition GETMOSTSIGNIGICANTU32_256 (A : bigHex256) : Z :=
  num_at A (Z.to_nat (Z.of_nat ELEMENTS_BIG_HEX256 - len A)).

Definition specialModP256 (tmpHexA : bigHex256) : bigHex256 :=
  let over A := ((sign A =? 0) && isGreaterThanOrEqual256 A bigHexP256) || (sign A =? 1) in
  if over tmpHexA then
    let A1 :=
      if len tmpHexA >? len bigHexP256 then
        let NModP := MultiplyByU32ModP256 (GETMOSTSIGNIGICANTU32_256 tmpHexA) in
        if sign tmpHexA =? 0 then SubtractFromSelfBigHexSign256 tmpHexA NModP
        else set_sign 1 (SubtractFromSelfBigHexSign256 (set_sign 0 tmpHexA) NModP)
      else tmpHexA in
    if over A1 then
      if sign A1 =? 1 then AddP256 A1 else SubtractFromSelfBigHex256 A1 bigHexP256
    else A1
  else tmpHexA.

(** ** Multiplication

    Row [k] of the school-book product adds [numA[k] * numB] to the nine words
    [result[k+1..k+9]]; the carry out of the last word is dropped, as in the code. *)
Fixpoint mul_row (ak : Z) (b seg : list Z) : Z * list Z :=
  match b, seg with
  | y :: b', r :: seg' =>
      let '(mcarry, s) := mul_row ak b' seg' in
      let val := u64 (u64 (u64 (ak * y) + r) + mcarry) in
      (u32 (Z.shiftr val 32), mask32 val :: s)
  | _, _ => (0, [])
  end.

(** The rows [k-1, ..., 0]. *)
Fixpoint mul_loop (k : nat) (a b result : list Z) : list Z :=
  match k with
  | O => result
  | S k' =>
      let seg := take 9 (drop (k' + 1) result) in
      mul_loop k' a b
        (take (k' + 1) result ++ snd (mul_row (nth k' a 0) b seg) ++ drop (k' + 10) result)
  end.

Definition setVeryBigNumberLength256 (A : veryBigHex256) : veryBigHex256 :=
  mkVeryBig (vnum A) (Z.of_nat ELEMENTS_VERY_BIG_HEX256 - first_nonzero (vnum A)) (vsign A).

Fixpoint very_compare_loop (a b : list Z) : bool :=
  match a, b with
  | x :: a', y :: b' => if negb (y =? x) then y <? x else very_compare_loop a' b'
  | _, _ => true
  end.

Definition isVeryBigHexGreaterThanOrEqual256 (A B : veryBigHex256) : bool :=
  if vlen A >? vlen B then true
  else if vlen A <? vlen B then false
  else let i := Z.to_nat (Z.of_nat ELEMENTS_VERY_BIG_HEX256 - vlen A) in
       very_compare_loop (drop i (vnum A)) (drop i (vnum B)).

(** [while ((num[i] == 0) && (i < n)) i++] from [i = 0]. *)
Fixpoint zero_prefix (n : nat) (l : list Z) : nat :=
  match n, l with
  | S n', x :: l' => if x =? 0 then S (zero_prefix n' l') else O
  | _, _ => O
  end.

(** The words of the object as [memcpy] sees them: the array and the two fields after it. *)
Definition very_mem (A : veryBigHex256) : list Z := vnum A ++ [vlen A; vsign A].

(** The [n] iterations left of [while((i+ELEMENTS_BIG_HEX256) < (MAX_OCTETS256/2))]. *)
Fixpoint reduce_loop (n i : nat) (tmpResult : veryBigHex256) (T : bigHex256) : bigHex256 :=
  match n with
  | O => T
  | S n' =>
      let T1 := shiftLeftOneArrayElement256 (specialModP256 T) in
      let w := nth (i + ELEMENTS_BIG_HEX256) (vnum tmpResult) 0 in
      reduce_loop n' (S i) tmpResult
        (setBigNumberLength256
          (mkBig (<[HIGHEST_INDEX_BIG_HEX256 := w]> (num T1)) (len T1) (sign T1)))
  end.

Definition multiply256 (A B : bigHex256) : veryBigHex256 :=
  setVeryBigNumberLength256
    (mkVeryBig
      (mul_loop ELEMENTS_BIG_HEX256 (num A) (num B) (replicate ELEMENTS_VERY_BIG_HEX256 0))
      0 (b2z (negb (sign A =? sign B)))).

Definition reduce_very256 (tmpResult : veryBigHex256) : bigHex256 :=
  let i0 := zero_prefix ELEMENTS_BIG_HEX256 (vnum tmpResult) in
  let i := if isVeryBigHexGreaterThanOrEqual256 tmpResult veryBigHexP256
           then (i0 + zero_prefix ELEMENTS_VERY_BIG_HEX256 (drop i0 (vnum tmpResult)))%nat
           else i0 in
  let tmpResult2 := setBigNumberLength256
    (mkBig (take ELEMENTS_BIG_HEX256 (drop i (very_mem tmpResult))) 0 (vsign tmpResult)) in
  let n := (ELEMENTS_VERY_BIG_HEX256 - ELEMENTS_BIG_HEX256 - i)%nat in
  copyBigHex256 (specialModP256 (reduce_loop n i tmpResult tmpResult2)).

Definition MultiplyBigHexModP256 (A B : bigHex256) : bigHex256 :=
  reduce_very256 (multiply256 A B).

Fixpoint mul_u32_loop (numB : Z) (a : list Z) : Z * list Z :=
  match a with
  | [] => (0, [])
  | x :: a' =>
      let '(mcarry, r) := mul_u32_loop numB a' in
      let val := u64 (u64 (x * numB) + mcarry) in
      (u32 (Z.shiftr val 32), mask32 val :: r)
  end.

Definition MultiplyBigHexByUint32_256 (A : bigHex256) (numB : Z) : bigHex256 :=
  let R := setBigNumberLength256 (mkBig (snd (mul_u32_loop numB (num A))) 0 0) in
  specialModP256 (set_sign (sign A) R).

(** ** Inversion *)
Record inv_state := mkInv { iu : bigHex256; iv : bigHex256; iA : bigHex256; iC : bigHex256 }.

(** [while(ISBIGHEXEVEN256(u)) {...}], on [u] and its cofactor. *)
Fixpoint halve_loop (fuel : nat) (u A : bigHex256) : bigHex256 * bigHex256 :=
  match fuel with
  | O => (u, A)
  | S f =>
      if ISBIGHEXEVEN256 u then
        halve_loop f (divideByTwo256 u)
          (if ISBIGHEXEVEN256 A then divideByTwo256 A else AddPdiv2_256 A)
      else (u, A)
  end.

Definition HALVE_FUEL : nat := 256.

Definition inv_step (s : inv_state) : inv_state :=
  let '(u, A) := halve_loop HALVE_FUEL (iu s) (iA s) in
  let '(v, C) := halve_loop HALVE_FUEL (iv s) (iC s) in
  if isGreaterThanOrEqual256 u v then
    mkInv (SubtractFromSelfBigHex256 u v) v (SubtractFromSelfBigHexSign256 A C) C
  else
    mkInv u (SubtractFromSelfBigHex256 v u) A (SubtractFromSelfBigHexSign256 C A).

(** [while(u.len != 0)]: [None] when the fuel does not suffice. *)
Fixpoint inv_loop (fuel : nat) (s : inv_state) : option inv_state :=
  if len (iu s) =? 0 then Some s
  else match fuel with
       | O => None
       | S f => inv_loop f (inv_step s)
       end.

Definition INV_FUEL : nat := 512.

Definition big_small (w n : Z) : bigHex256 :=
  mkBig (<[HIGHEST_INDEX_BIG_HEX256 := w]> (num initBigNumber256)) n 0.

Definition inv_init (bigHexA : bigHex256) : inv_state :=
  mkInv (copyBigHex256 (set_sign 0 bigHexA)) (copyBigHex256 bigHexP256) (big_small 1 1) (big_small 0 1).

Definition inv_final (C : bigHex256) : bigHex256 :=
  if sign C =? 0 then
    if isGreaterThan256 bigHexP256 C then copyBigHex256 C else copyBigHex256 (specialModP256 C)
  else copyBigHex256 (specialModP256 C).

Definition bigHexInversion256 (bigHexA : bigHex256) : option bigHex256 :=
  match inv_loop INV_FUEL (inv_init bigHexA) with
  | Some s => Some (inv_final (iC s))
  | None => None
  end.

(** ** Values of the constants *)
Definition P256 : Z := 0xFFFFFFFF00000001000000000000000000000000FFFFFFFFFFFFFFFFFFFFFFFF.

Lemma P256_eq : P256 = 2 ^ 256 - 2 ^ 224 + 2 ^ 192 + 2 ^ 96 - 1.
Proof. reflexivity. Qed.

Lemma P256_wf : wf bigHexP256.
Proof.
  constructor; [done | | done | by left].
  unfold words, is_u. repeat (apply Forall_cons; split; [lia|]). by apply Forall_nil.
Qed.

Lemma P256_value : value bigHexP256 = P256.
Proof. vm_compute. done. Qed.

Lemma P256_pos : 0 < P256.
Proof. done. Qed.

Lemma uninit_sign : sign uninit = 0 \/ sign uninit = 1.
Proof. by left. Qed.

Lemma CAP_value : CAP = 2 ^ 288.
Proof. done. Qed.

Lemma pw8_value : pw 8 = 2 ^ 256.
Proof. done. Qed.

(** A field element as every operation returns it: normalised, positive and reduced. *)
Record felem (A : bigHex256) : Prop := {
  felem_wf : wf A;
  felem_lt : value A < P256;
  felem_sign : sign A = 0 }.

(** A positive number of at most 256 bits: what the field operations accept. *)
Record big256 (A : bigHex256) : Prop := {
  big256_wf : wf A;
  big256_lt : value A < pw 8;
  big256_sign : sign A = 0 }.

Lemma felem_big256 A : felem A -> big256 A.
Proof. intros [H1 H2 H3]. constructor; try assumption. rewrite pw8_value. rewrite P256_eq in H2. lia. Qed.

Lemma set_sign_wf s A : wf A -> s = 0 \/ s = 1 -> wf (set_sign s A).
Proof. intros [H1 H2 H3 H4] Hs. constructor; assumption. Qed.

Lemma set_sign_value s A : value (set_sign s A) = value A.
Proof. done. Qed.

Lemma len_le_8 A : wf A -> len A <= 8 <-> value A < pw 8.
Proof.
  intros HA. pose proof (wf_len_upper A HA) as U. pose proof (wf_len_range A HA) as R.
  change (pw 8) with (base ^ 8). split; intros H.
  - pose proof (base_pow_mono (len A) 8 ltac:(lia)). lia.
  - destruct (Z.le_gt_cases (len A) 8) as [|Hgt]; [done|].
    pose proof (wf_len_lower A HA ltac:(lia)) as L.
    pose proof (base_pow_mono 8 (len A - 1) ltac:(lia)). lia.
Qed.

Lemma AddP256_spec A :
  wf A -> value A <= P256 ->
  wf (AddP256 A) /\ value (AddP256 A) = P256 - value A /\ sign (AddP256 A) = 0.
Proof.
  intros HA Hle. destruct (SubtractBigHex256_spec bigHexP256 A uninit) as (Hw & Hv & _).
  - apply P256_wf.
  - assumption.
  - apply uninit_sign.
  - by rewrite P256_value.
  - unfold AddP256. rewrite copyBigHex256_id, set_sign_value, Hv, P256_value.
    split; [apply set_sign_wf; [assumption | by left] | fin].
Qed.

Lemma svalue_pos A : sign A = 0 -> svalue A = value A.
Proof. intros H. unfold svalue. by rewrite H. Qed.

Lemma svalue_neg A : sign A = 1 -> svalue A = - value A.
Proof. intros H. unfold svalue. by rewrite H. Qed.

(** Signed subtraction is the subtraction of the integers. *)
Lemma SubtractFromSelfBigHexSign256_value A B :
  wf A -> wf B -> value A + value B < CAP ->
  wf (SubtractFromSelfBigHexSign256 A B) /\
  svalue (SubtractFromSelfBigHexSign256 A B) = svalue A - svalue B.
Proof.
  intros HA HB Hlt. unfold SubtractFromSelfBigHexSign256.
  pose proof (wf_sign A HA) as [SA | SA]; pose proof (wf_sign B HB) as [SB | SB];
    rewrite SA, SB; cbn [Z.eqb Pos.eqb].
  - rewrite isGreaterThanOrEqual256_spec by tr. destruct (Z.leb_spec (value B) (value A)).
    + destruct (SubtractFromSelfBigHex256_spec A B) as (Hw & Hv & Hs); [tr..|].
      rewrite !svalue_pos by congruence. split; [tr | lia].
    + destruct (SubtractBigHex256_spec B A uninit) as (Hw & Hv & Hs); [tr | tr | apply uninit_sign | lia |].
      rewrite copyBigHex256_id. split; [apply set_sign_wf; [tr | by right]|].
      rewrite svalue_neg, !svalue_pos by first [assumption | reflexivity]. rewrite set_sign_value. lia.
  - destruct (Add2SelfBigHex256_spec A B) as (Hw & Hv & Hs); [tr..|].
    rewrite svalue_pos, svalue_pos, svalue_neg by congruence. split; [tr | lia].
  - destruct (Add2SelfBigHex256_spec A B) as (Hw & Hv & Hs); [tr..|].
    rewrite svalue_neg, svalue_neg, svalue_pos by congruence. split; [tr | lia].
  - rewrite isGreaterThanOrEqual256_spec by tr. destruct (Z.leb_spec (value A) (value B)).
    + destruct (SubtractBigHex256_spec B A uninit) as (Hw & Hv & Hs); [tr | tr | apply uninit_sign | lia |].
      rewrite copyBigHex256_id. split; [apply set_sign_wf; [tr | by left]|].
      rewrite svalue_pos, !svalue_neg by first [assumption | reflexivity]. rewrite set_sign_value. lia.
    + destruct (SubtractFromSelfBigHex256_spec A B) as (Hw & Hv & Hs); [tr | tr | lia |].
      rewrite !svalue_neg by congruence. split; [tr | lia].
Qed.

(** ** Reduction *)
Lemma MultiplyByU32ModP256_spec N :
  1 <= N < 2 ^ 32 ->
  wf (MultiplyByU32ModP256 N) /\ value (MultiplyByU32ModP256 N) = N * P256 /\
  sign (MultiplyByU32ModP256 N) = 0.
Proof.
  intros HN. unfold MultiplyByU32ModP256.
  rewrite (u32_small (0xFFFFFFFF - N)) by lia. rewrite (u32_small (N - 1)) by lia.
  rewrite u32_small by lia. set (t := 4294967295 - N + 1).
  assert (Ht : 0 < t < 2 ^ 32) by (unfold t; lia). split; [constructor|split; [|tr]].
  - done.
  - cbn [num]. unfold words, is_u. repeat (apply Forall_cons; split; [lia|]). by apply Forall_nil.
  - cbn [num len first_nonzero]. destruct (Z.eqb_spec (N - 1) 0); simpl negb; cbv iota; [|tr].
    destruct (Z.eqb_spec t 0); [lia | done].
  - by left.
  - unfold value. cbn [num eval length]. rewrite P256_eq. unfold t, pw, base. lia.
Qed.

Lemma top_word_9 A :
  wf A -> len A = 9 ->
  1 <= GETMOSTSIGNIGICANTU32_256 A < 2 ^ 32 /\
  exists L, value A = GETMOSTSIGNIGICANTU32_256 A * pw 8 + L /\ 0 <= L < pw 8.
Proof.
  intros [Hl Hw Hn _] H9. unfold GETMOSTSIGNIGICANTU32_256, num_at, value. rewrite H9.
  change (Z.to_nat (Z.of_nat ELEMENTS_BIG_HEX256 - 9)) with 0%nat.
  destruct (num A) as [|a l]; [done|]. apply words_cons in Hw as [Ha Hw].
  injection Hl as Hl. cbn [first_nonzero] in Hn.
  assert (a <> 0).
  { intros ->. simpl in Hn. pose proof (first_nonzero_range l).
    unfold ELEMENTS_BIG_HEX256 in *. lia. }
  cbn [nth]. unfold is_u in Ha. split; [lia|]. exists (eval l). cbn [eval]. rewrite Hl. split; [done|].
  rewrite <- Hl. by apply eval_bound.
Qed.

Lemma len_gt_8 A : wf A -> (len A >? len bigHexP256) = (pw 8 <=? value A).
Proof.
  intros HA. pose proof (len_le_8 A HA). rewrite Z.gtb_ltb. cbn [len bigHexP256].
  zcases; first [tr | lia].
Qed.

(** Subtracting [N * P] for the top word [N] leaves less than [2 * P]. *)
Lemma top_word_remainder N L :
  1 <= N < 2 ^ 32 -> 0 <= L < pw 8 ->
  0 <= N * pw 8 + L - N * P256 < 2 * P256.
Proof. rewrite pw8_value. rewrite P256_eq. lia. Qed.

Lemma over_pos A :
  wf A -> sign A = 0 ->
  ((sign A =? 0) && isGreaterThanOrEqual256 A bigHexP256) || (sign A =? 1) = (P256 <=? value A).
Proof.
  intros HA HS. rewrite HS, isGreaterThanOrEqual256_spec, P256_value by (tr || apply P256_wf).
  cbn. by rewrite orb_false_r.
Qed.

(** The last conditional subtraction of [specialModP256]. *)
Lemma reduce_once A :
  wf A -> sign A = 0 -> value A < 2 * P256 ->
  let R := if P256 <=? value A
           then (if sign A =? 1 then AddP256 A else SubtractFromSelfBigHex256 A bigHexP256) else A in
  felem R /\ value R = value A mod P256.
Proof.
  intros HA HS Hlt. pose proof (wf_value_bound A HA). rewrite HS. simpl Z.eqb. cbv iota zeta.
  destruct (Z.leb_spec P256 (value A)) as [Hle | Hgt].
  - destruct (SubtractFromSelfBigHex256_spec A bigHexP256) as (Hw & Hv & Hs);
      [tr | apply P256_wf | by rewrite P256_value |].
    rewrite P256_value in Hv. assert (value A mod P256 = value A - P256) as ->
      by (symmetry; apply Z.mod_unique with 1; lia).
    split; [constructor; [tr | lia | congruence] | done].
  - rewrite Z.mod_small by lia. split; [constructor; tr | tr].
Qed.

Lemma specialModP256_value A :
  wf A -> sign A = 0 ->
  felem (specialModP256 A) /\ value (specialModP256 A) = value A mod P256.
Proof.
  intros HA HS. pose proof (wf_value_bound A HA) as HB. unfold specialModP256.
  rewrite over_pos by tr. destruct (Z.leb_spec P256 (value A)) as [Hle | Hgt]; cycle 1.
  { rewrite Z.mod_small by lia. split; [constructor; tr | tr]. }
  rewrite len_gt_8 by tr. destruct (Z.leb_spec (pw 8) (value A)) as [H8 | H8]; cycle 1.
  { rewrite over_pos by tr. apply reduce_once; try assumption.
    rewrite pw8_value in H8. rewrite P256_eq. lia. }
  assert (len A = 9) as H9
    by (pose proof (wf_len_range A HA); pose proof (len_le_8 A HA); lia).
  destruct (top_word_9 A HA H9) as (HN & L & HvA & HL).
  set (N := GETMOSTSIGNIGICANTU32_256 A) in *.
  destruct (MultiplyByU32ModP256_spec N HN) as (Hw & Hv & Hs).
  pose proof (top_word_remainder N L HN HL) as HR.
  rewrite HS. simpl Z.eqb. cbv iota. unfold SubtractFromSelfBigHexSign256.
  rewrite HS, Hs, isGreaterThanOrEqual256_spec by tr. simpl Z.eqb. cbv iota.
  destruct (Z.leb_spec (value (MultiplyByU32ModP256 N)) (value A)); [|lia].
  destruct (SubtractFromSelfBigHex256_spec A (MultiplyByU32ModP256 N)) as (Hw1 & Hv1 & Hs1); [tr..|].
  rewrite over_pos by (tr || congruence).
  destruct (reduce_once (SubtractFromSelfBigHex256 A (MultiplyByU32ModP256 N))) as [Hf He];
    [tr | congruence | lia |].
  split; [done|]. rewrite He, Hv1, Hv. replace (value A - N * P256) with (value A + (- N) * P256) by ring.
  by rewrite Z.mod_add by tr.
Qed.

(** ** Addition and subtraction in the field *)
Lemma AddBigHexModP256_value A B :
  felem A -> felem B ->
  felem (AddBigHexModP256 A B) /\
  value (AddBigHexModP256 A B) = (value A + value B) mod P256.
Proof.
  intros [WA LA SA] [WB LB SB].
  destruct (AddBigHex256_spec A B) as (Hw & Hv & Hs); [tr | tr | rewrite P256_eq in *; rewrite CAP_value; lia |].
  unfold AddBigHexModP256. rewrite Hs. simpl Z.eqb. cbv iota.
  rewrite isGreaterThanOrEqual256_spec, P256_value by (tr || apply P256_wf).
  destruct (reduce_once (AddBigHex256 A B)) as [Hf He]; [tr | tr | lia |].
  rewrite Hs in Hf, He. simpl Z.eqb in Hf, He. cbv iota in Hf, He. rewrite <- Hv. done.
Qed.

Lemma SubtractBigHexMod256_value A B R :
  felem A -> felem B -> sign R = 0 \/ sign R = 1 ->
  felem (SubtractBigHexMod256 A B R) /\
  value (SubtractBigHexMod256 A B R) = (value A - value B) mod P256.
Proof.
  intros [WA LA SA] [WB LB SB] HR. unfold SubtractBigHexMod256. rewrite SA, SB.
  simpl (0 =? 0). cbv iota. pose proof (wf_value_bound A WA). pose proof (wf_value_bound B WB).
  rewrite isGreaterThanOrEqual256_spec by tr. destruct (Z.leb_spec (value B) (value A)).
  - destruct (SubtractBigHex256_spec A B R) as (Hw & Hv & Hs); [tr..|].
    simpl (sign (set_sign _ _) =? 0). cbv iota.
    rewrite isGreaterThanOrEqual256_spec, P256_value, set_sign_value, Hv
      by (apply P256_wf || (apply set_sign_wf; [tr | by left])).
    destruct (Z.leb_spec P256 (value A - value B)); [lia|].
    rewrite set_sign_value, Hv, Z.mod_small by lia.
    split; [|fin]. constructor; [apply set_sign_wf; [assumption | by left] | rewrite set_sign_value; lia | fin].
  - destruct (SubtractBigHex256_spec B A R) as (Hw & Hv & Hs); [tr | tr | done | lia |].
    simpl (sign (set_sign _ _) =? 0). cbv iota.
    destruct (AddP256_spec (set_sign 1 (SubtractBigHex256 B A R))) as (Hw1 & Hv1 & Hs1).
    + apply set_sign_wf; [tr | by right].
    + rewrite set_sign_value. lia.
    + rewrite set_sign_value in Hv1.
      assert ((value A - value B) mod P256 = value A - value B + P256) as ->
        by (symmetry; apply Z.mod_unique with (-1); lia).
      split; [constructor; [tr | lia | done] | lia].
Qed.

(** ** Multiplication: the product *)
Lemma mac_bound x y r c :
  is_u 32 x -> is_u 32 y -> is_u 32 r -> is_u 32 c -> 0 <= x * y + r + c < 2 ^ 64.
Proof. unfold is_u. nia. Qed.

(** One multiply-accumulate step never overflows the 64-bit accumulator. *)
Lemma mac_split x y r c :
  is_u 32 x -> is_u 32 y -> is_u 32 r -> is_u 32 c ->
  let val := u64 (u64 (u64 (x * y) + r) + c) in
  is_u 32 (mask32 val) /\ is_u 32 (u32 (Z.shiftr val 32)) /\
  mask32 val + base * u32 (Z.shiftr val 32) = x * y + r + c.
Proof.
  intros Hx Hy Hr Hc. pose proof (mac_bound x y r c Hx Hy Hr Hc) as HB. cbv zeta.
  assert (0 <= x * y) by (unfold is_u in *; nia). unfold is_u in Hr, Hc.
  rewrite (u64_small (x * y)), (u64_small (x * y + r)), u64_small by lia.
  set (v := x * y + r + c) in *. rewrite mask32_mod, Z.shiftr_div_pow2 by lia.
  assert (0 <= v / 2 ^ 32 < 2 ^ 32)
    by (split; [apply Z.div_pos; lia | apply Z.div_lt_upper_bound; lia]).
  rewrite u32_small by lia. unfold is_u, base.
  pose proof (Z.mod_pos_bound v (2 ^ 32) ltac:(lia)). pose proof (Z.div_mod v (2 ^ 32) ltac:(lia)). lia.
Qed.

Lemma mul_row_spec x b seg :
  length b = length seg -> is_u 32 x -> words b -> words seg ->
  let '(c, s) := mul_row x b seg in
  words s /\ length s = length seg /\ is_u 32 c /\
  eval s + c * pw (length seg) = x * eval b + eval seg.
Proof.
  revert seg. induction b as [|y b IH]; intros [|r seg] Hl Hx Hb Hs; try done.
  { simpl. repeat split; try lia. apply words_nil. }
  apply words_cons in Hb as [Hy Hb]. apply words_cons in Hs as [Hr Hs].
  injection Hl as Hl. specialize (IH seg Hl Hx Hb Hs). cbn [mul_row].
  destruct (mul_row x b seg) as [c s]. destruct IH as (Hw & Hls & Hc & He).
  destruct (mac_split x y r c Hx Hy Hr Hc) as (Hm & Hk & Hv).
  set (val := u64 _) in *. repeat split.
  - apply words_cons. done.
  - cbn [length]. congruence.
  - apply Hk.
  - apply Hk.
  - cbn [length eval]. rewrite pw_S, Hls, Hl.
    transitivity ((mask32 val + base * u32 (Z.shiftr val 32)) * pw (length seg) + eval s); [ring|].
    rewrite Hv. transitivity ((x * y + r) * pw (length seg) + (eval s + c * pw (length seg))); [ring|].
    rewrite He. ring.
Qed.

(** With a zero top word the carry that the code drops is zero. *)
Lemma mul_row_value x b seg :
  length b = ELEMENTS_BIG_HEX256 -> length seg = ELEMENTS_BIG_HEX256 ->
  is_u 32 x -> words b -> words seg -> eval b < pw 8 -> eval seg < pw 8 ->
  let s := snd (mul_row x b seg) in
  words s /\ length s = ELEMENTS_BIG_HEX256 /\ eval s = x * eval b + eval seg.
Proof.
  intros Hlb Hls Hx Hb Hs Hbb Hsb. pose proof (mul_row_spec x b seg ltac:(congruence) Hx Hb Hs) as H.
  destruct (mul_row x b seg) as [c s]. destruct H as (Hw & Hl & Hc & He). cbn [snd].
  split; [done|]. split; [congruence|]. pose proof (eval_bound s Hw) as Hsw.
  pose proof (eval_bound b Hb). rewrite Hl, Hls in *. unfold is_u in *.
  enough (c = 0) by (subst; lia). change (pw ELEMENTS_BIG_HEX256) with (base * pw 8) in *.
  fold base in *. pose proof (pw_pos 8). nia.
Qed.

Lemma split_zero_rows (k : nat) t :
  (k <= 8)%nat -> length t = (16 - k)%nat ->
  let res := replicate (k + 2) 0 ++ t in
  take (k + 1) res = replicate (k + 1) 0 /\
  take 9 (drop (k + 1) res) = 0 :: take 8 t /\ drop (k + 10) res = drop 8 t.
Proof.
  intros Hk Hl. replace (k + 2)%nat with (k + 1 + 1)%nat by lia. rewrite replicate_add, <- app_assoc.
  split; [|split].
  - rewrite take_app_le, take_ge by (rewrite length_replicate; lia). done.
  - rewrite drop_app_length' by (by rewrite length_replicate). done.
  - replace (k + 10)%nat with (k + 1 + 9)%nat by lia.
    rewrite <- drop_drop, drop_app_length' by (by rewrite length_replicate). done.
Qed.

Lemma mul_loop_spec k a b t :
  (k <= 9)%nat -> length a = ELEMENTS_BIG_HEX256 -> length b = ELEMENTS_BIG_HEX256 ->
  words a -> words b -> eval b < pw 8 ->
  words t -> length t = (17 - k)%nat -> eval t = eval (drop k a) * eval b ->
  let r := mul_loop k a b (replicate (k + 1) 0 ++ t) in
  words r /\ length r = ELEMENTS_VERY_BIG_HEX256 /\ eval r = eval a * eval b.
Proof.
  intros Hk Hla Hlb Ha Hb Hbb. revert t Hk. induction k as [|k IH]; intros t Hk Ht Hlt He.
  { cbn [mul_loop]. rewrite drop_0 in He. split; [|split].
    - apply words_app. split; [apply words_replicate0 | done].
    - rewrite length_app, length_replicate, Hlt. done.
    - rewrite eval_app, eval_replicate0, He. lia. }
  cbn [mul_loop]. replace (S k + 1)%nat with (k + 2)%nat by lia.
  destruct (split_zero_rows k t) as (E1 & E2 & E3); [lia | lia |]. cbv zeta in E1, E2, E3.
  rewrite E1, E2, E3. set (x := nth k a 0).
  assert (Hx : is_u 32 x).
  { unfold x. apply (proj1 (List.Forall_forall _ a)); [done|]. apply nth_In. rewrite Hla.
    unfold ELEMENTS_BIG_HEX256. lia. }
  assert (Ht8 : words (take 8 t)) by (by apply words_take).
  assert (Hl8 : length (take 8 t) = 8%nat) by (rewrite length_take; lia).
  destruct (mul_row_value x b (0 :: take 8 t)) as (Hw & Hl & Hv).
  - done.
  - cbn [length]. by rewrite Hl8.
  - done.
  - done.
  - apply words_cons. done.
  - done.
  - cbn [eval]. pose proof (eval_bound _ Ht8) as B. rewrite Hl8 in B. lia.
  - cbn [eval] in Hv. set (s := snd (mul_row x b (0 :: take 8 t))) in *.
    apply (IH (s ++ drop 8 t)).
    + lia.
    + apply words_app. split; [done | by apply words_drop].
    + rewrite length_app, Hl, length_drop. unfold ELEMENTS_BIG_HEX256 in *. lia.
    + assert (Hd : drop k a = x :: drop (S k) a).
      { apply drop_nth. rewrite Hla. unfold ELEMENTS_BIG_HEX256. lia. }
      rewrite Hd. cbn [eval]. rewrite eval_app, Hv.
      rewrite (Z.mul_add_distr_r _ (eval (drop (S k) a))), <- He.
      assert (Hsplit : eval t = eval (take 8 t) * pw (length (drop 8 t)) + eval (drop 8 t))
        by (rewrite <- eval_app, take_drop; reflexivity).
      rewrite Hsplit, !length_drop, Hlt, Hla.
      replace (17 - S k - 8)%nat with (ELEMENTS_BIG_HEX256 - S k)%nat by (unfold ELEMENTS_BIG_HEX256; lia).
      ring.
Qed.

Lemma multiply256_spec A B :
  big256 A -> big256 B ->
  let M := multiply256 A B in
  words (vnum M) /\ length (vnum M) = ELEMENTS_VERY_BIG_HEX256 /\
  eval (vnum M) = value A * value B /\ vsign M = 0 /\
  vlen M = 18 - first_nonzero (vnum M).
Proof.
  intros [[HlA HwA _ _] LA SA] [[HlB HwB _ _] LB SB]. cbv zeta. unfold multiply256.
  rewrite SA, SB. unfold setVeryBigNumberLength256, value. cbn [vnum vlen vsign].
  destruct (mul_loop_spec 9 (num A) (num B) (replicate 8 0)) as (Hw & Hl & He); try tr.
  - apply words_replicate0.
  - rewrite drop_ge by (rewrite HlA; reflexivity). rewrite eval_replicate0. reflexivity.
  - cbv zeta in Hw, Hl, He. change (replicate (9 + 1) 0 ++ replicate 8 0)
      with (replicate ELEMENTS_VERY_BIG_HEX256 0) in *.
    split; [exact Hw|]. split; [exact Hl|]. split; [exact He|]. split; reflexivity.
Qed.

(** ** Multiplication: the reduction *)
Lemma very_compare_loop_spec a b :
  length a = length b -> words a -> words b ->
  very_compare_loop a b = (eval b <=? eval a).
Proof.
  intros Hl Ha Hb. pose proof (compare_loop_spec true a b Hl Ha Hb) as H.
  assert (very_compare_loop a b = compare_loop true a b) as ->.
  { clear. revert b. induction a as [|x a IH]; intros [|y b]; try done.
    simpl. rewrite IH, Z.gtb_ltb. destruct (Z.eqb_spec y x) as [-> |]; simpl.
    - by rewrite Z.ltb_irrefl.
    - zcases; first [done | lia]. }
  rewrite H. zcases; first [done | lia].
Qed.

Lemma very_first_nonzero M :
  words (vnum M) -> length (vnum M) = ELEMENTS_VERY_BIG_HEX256 ->
  let f := first_nonzero (vnum M) in
  0 <= f <= 18 /\ eval (vnum M) < base ^ (18 - f) /\ (f < 18 -> base ^ (18 - f - 1) <= eval (vnum M)).
Proof.
  intros Hw Hl. cbv zeta. pose proof (first_nonzero_range (vnum M)) as R.
  pose proof (first_nonzero_upper (vnum M) Hw) as U. pose proof (first_nonzero_lower (vnum M) Hw) as L.
  rewrite Hl in *. change (Z.of_nat ELEMENTS_VERY_BIG_HEX256) with 18 in *. auto.
Qed.

Lemma veryP_facts :
  words (vnum veryBigHexP256) /\ eval (vnum veryBigHexP256) = P256 /\
  first_nonzero (vnum veryBigHexP256) = 10.
Proof.
  split; [|split; [vm_compute; reflexivity | reflexivity]].
  unfold words, is_u. repeat (apply Forall_cons; split; [lia|]). by apply Forall_nil.
Qed.

Lemma isVeryBigHexGreaterThanOrEqual256_spec M :
  words (vnum M) -> length (vnum M) = ELEMENTS_VERY_BIG_HEX256 ->
  vlen M = 18 - first_nonzero (vnum M) ->
  isVeryBigHexGreaterThanOrEqual256 M veryBigHexP256 = (P256 <=? eval (vnum M)).
Proof.
  intros Hw Hl Hn. destruct (very_first_nonzero M Hw Hl) as (HR & HU & HL).
  destruct veryP_facts as (PW & PV & PF). unfold isVeryBigHexGreaterThanOrEqual256.
  change (vlen veryBigHexP256) with 8. rewrite Z.gtb_ltb, Hn.
  set (f := first_nonzero (vnum M)) in *. set (v := eval (vnum M)) in *.
  destruct (Z.ltb_spec 8 (18 - f)) as [H|H]; [|destruct (Z.ltb_spec (18 - f) 8) as [H2|H2]].
  - pose proof (base_pow_mono 8 (18 - f - 1) ltac:(lia)) as Hm. specialize (HL ltac:(lia)).
    change (base ^ 8) with (2 ^ 256) in Hm. symmetry. apply Z.leb_le. rewrite P256_eq. lia.
  - pose proof (base_pow_mono (18 - f) 7 ltac:(lia)) as Hm. change (base ^ 7) with (2 ^ 224) in Hm.
    symmetry. apply Z.leb_gt. rewrite P256_eq. lia.
  - assert (f = 10) as Hf by lia. rewrite Hf.
    change (Z.to_nat (Z.of_nat ELEMENTS_VERY_BIG_HEX256 - (18 - 10))) with 10%nat.
    rewrite very_compare_loop_spec.
    + rewrite !eval_drop_zeros by (fold f; lia). fold v. by rewrite PV.
    + rewrite !length_drop, Hl. reflexivity.
    + by apply words_drop.
    + by apply words_drop.
Qed.

Lemma zero_prefix_spec n l :
  Z.of_nat (zero_prefix n l) = Z.min (Z.of_nat n) (first_nonzero l).
Proof.
  revert l. induction n as [|n IH]; intros [|x l].
  - reflexivity.
  - pose proof (first_nonzero_range (x :: l)). cbn [zero_prefix]. lia.
  - pose proof (first_nonzero_range (@nil Z)). cbn [zero_prefix first_nonzero]. lia.
  - cbn [zero_prefix first_nonzero]. destruct (x =? 0); simpl negb; cbv iota; [|lia].
    rewrite Nat2Z.inj_succ, IH. lia.
Qed.

Lemma first_nonzero_drop l n :
  Z.of_nat n <= first_nonzero l -> first_nonzero (drop n l) = first_nonzero l - Z.of_nat n.
Proof.
  revert n. induction l as [|x l IH]; intros [|n] Hn.
  { reflexivity. }
  { exfalso. cbn [first_nonzero] in Hn. lia. }
  { change (drop 0 (x :: l)) with (x :: l). lia. }
  cbn [first_nonzero] in *. pose proof (first_nonzero_range l).
  destruct (x =? 0); simpl negb in *; cbv iota in *; [|lia].
  change (drop (S n) (0 :: l)) with (drop n l). change (drop (S n) (x :: l)) with (drop n l). rewrite IH by lia. lia.
Qed.

Lemma reduce_loop_spec n i M T :
  words (vnum M) -> length (vnum M) = ELEMENTS_VERY_BIG_HEX256 -> (i + n = 9)%nat ->
  wf T -> sign T = 0 ->
  let R := specialModP256 (reduce_loop n i M T) in
  felem R /\ value R = (value T * pw n + eval (drop (i + 9) (vnum M))) mod P256.
Proof.
  intros Hw Hl. revert i T. induction n as [|n IH]; intros i T Hi HT HS; cbn [reduce_loop].
  { destruct (specialModP256_value T HT HS) as [Hf Hv]. split; [done|].
    rewrite drop_ge by (rewrite Hl; unfold ELEMENTS_VERY_BIG_HEX256; lia).
    rewrite Hv. f_equal. change (pw 0) with 1. cbn [eval]. lia. }
  destruct (specialModP256_value T HT HS) as [Hf Hv].
  pose proof (felem_big256 _ Hf) as [Hwf Hlt Hsg].
  set (w := nth (i + ELEMENTS_BIG_HEX256) (vnum M) 0).
  assert (Hd : drop (i + 9) (vnum M) = w :: drop (S i + 9) (vnum M)).
  { apply (drop_nth (vnum M) (i + 9)). rewrite Hl. unfold ELEMENTS_VERY_BIG_HEX256. clear -Hi. lia. }
  assert (Hww : is_u 32 w).
  { pose proof (words_drop (i + 9) _ Hw) as Hx. rewrite Hd in Hx. by apply words_cons in Hx as [? _]. }
  destruct (shiftLeftOne_insert (specialModP256 T) w Hwf Hlt Hww) as (Hl1 & Hw1 & Hv1).
  edestruct (IH (S i)) as [Hf2 Hv2]; [lia | | | split; [exact Hf2|]].
  - apply setBigNumberLength256_wf; [exact Hl1 | exact Hw1 | left; exact Hsg].
  - exact Hsg.
  - rewrite Hv2, Hd. cbn [eval]. rewrite length_drop, Hl.
    replace (ELEMENTS_VERY_BIG_HEX256 - (S i + 9))%nat with n by (unfold ELEMENTS_VERY_BIG_HEX256; lia).
    change (value (setBigNumberLength256 ?X)) with (eval (num X)).
    unfold value in Hv1. cbn [num] in Hv1 |- *. rewrite Hv1. fold (value (specialModP256 T)). rewrite Hv, pw_S.
    set (E := eval _). set (v := value T).
    replace ((v mod P256 * base + w) * pw n + E) with (v mod P256 * (base * pw n) + (w * pw n + E)) by ring.
    rewrite <- Z.add_mod_idemp_l, Z.mul_mod_idemp_l, Z.add_mod_idemp_l by (apply Z.neq_sym, Z.lt_neq, P256_pos).
    reflexivity.
Qed.

(** What [MultiplyBigHexModP256] computes: the product modulo [P], except that a product
    in [P, 2^256) makes the copy start one word too late and read the length field. *)
(** [2 ^ 256], as a literal: the computations below compare with it at every step. *)
Definition POW256 : Z := 0x10000000000000000000000000000000000000000000000000000000000000000.

Definition reduce_once256 (x : Z) : Z :=
  if x <? POW256 then x else
  let h := Z.shiftr x 256 in
  Z.land x (Z.ones 256) + (Z.shiftl h 224 - Z.shiftl h 192 - Z.shiftl h 96 + h).

(** [x mod P256] by foldings of the high half; the division is only the fall-back. *)
Definition modP (x : Z) : Z :=
  let y := if x <? 0 then x + P256 else Nat.iter 9 reduce_once256 x in
  if (0 <=? y) && (y <? P256) then y
  else if (0 <=? y - P256) && (y - P256 <? P256) then y - P256 else x mod P256.

Lemma reduce_once256_mod x : reduce_once256 x mod P256 = x mod P256.
Proof.
  unfold reduce_once256. destruct (x <? POW256); [reflexivity|].
  rewrite !Z.shiftl_mul_pow2, Z.shiftr_div_pow2, Z.land_ones by lia.
  pose proof (Z.div_mod x (2 ^ 256) ltac:(lia)) as E.
  set (h := x / 2 ^ 256) in *. set (l := x mod 2 ^ 256) in *.
  replace (l + (h * 2 ^ 224 - h * 2 ^ 192 - h * 2 ^ 96 + h)) with (x + (- h) * P256)
    by (rewrite E, P256_eq; ring).
  apply Z_mod_plus_full.
Qed.

Lemma modP_spec x : modP x = x mod P256.
Proof.
  assert (HI : forall n, Nat.iter n reduce_once256 x mod P256 = x mod P256).
  { induction n as [|n IH]; [reflexivity|]. simpl. by rewrite reduce_once256_mod. }
  unfold modP. cbv zeta. set (y := if x <? 0 then _ else _).
  assert (Hy : y mod P256 = x mod P256).
  { unfold y. destruct (x <? 0); [|apply HI]. rewrite <- (Z.mul_1_l P256) at 1. apply Z_mod_plus_full. }
  clearbody y.
  destruct ((0 <=? y) && (y <? P256)) eqn:E1; zbool; [rewrite <- Hy; symmetry; by apply Z.mod_small|].
  destruct ((0 <=? y - P256) && (y - P256 <? P256)) eqn:E2; zbool; [|reflexivity].
  rewrite <- Hy. apply Z.mod_unique with 1; lia.
Qed.

Definition mul_window (x y : Z) : bool := let p := x * y in (P256 <=? p) && (p <? POW256).

Definition fmul (x y : Z) : Z :=
  let p := x * y in
  if (P256 <=? p) && (p <? POW256) then modP (p * 2 ^ 32 + 8) else modP p.

Lemma fmul_eq x y :
  fmul x y = if mul_window x y then (x * y * 2 ^ 32 + 8) mod P256 else (x * y) mod P256.
Proof. unfold fmul, mul_window. cbv zeta. rewrite !modP_spec. reflexivity. Qed.

Lemma take_drop_mem M i :
  length (vnum M) = ELEMENTS_VERY_BIG_HEX256 -> (i <= 9)%nat ->
  take 9 (drop i (very_mem M)) = take 9 (drop i (vnum M)).
Proof.
  intros Hl Hi. unfold very_mem. rewrite drop_app_le by (rewrite Hl; unfold ELEMENTS_VERY_BIG_HEX256; lia).
  apply take_app_le. rewrite length_drop, Hl. unfold ELEMENTS_VERY_BIG_HEX256. lia.
Qed.

(** The regular case: the copy starts inside the first ten words. *)
Lemma reduce_from M i :
  words (vnum M) -> length (vnum M) = ELEMENTS_VERY_BIG_HEX256 -> vsign M = 0 -> (i <= 9)%nat ->
  Z.of_nat i <= first_nonzero (vnum M) ->
  let T := setBigNumberLength256
    (mkBig (take ELEMENTS_BIG_HEX256 (drop i (very_mem M))) 0 (vsign M)) in
  let R := specialModP256 (reduce_loop (ELEMENTS_VERY_BIG_HEX256 - ELEMENTS_BIG_HEX256 - i) i M T) in
  felem R /\ value R = eval (vnum M) mod P256.
Proof.
  intros Hw Hl Hs Hi Hf. cbv zeta. unfold ELEMENTS_BIG_HEX256 at 1.
  rewrite take_drop_mem by done. set (l := take 9 (drop i (vnum M))).
  assert (Hll : length l = ELEMENTS_BIG_HEX256).
  { unfold l. rewrite length_take, length_drop, Hl. unfold ELEMENTS_VERY_BIG_HEX256, ELEMENTS_BIG_HEX256. lia. }
  destruct (reduce_loop_spec (ELEMENTS_VERY_BIG_HEX256 - ELEMENTS_BIG_HEX256 - i) i M
              (setBigNumberLength256 (mkBig l 0 (vsign M)))) as [Hfe Hv].
  - exact Hw.
  - exact Hl.
  - unfold ELEMENTS_VERY_BIG_HEX256, ELEMENTS_BIG_HEX256. lia.
  - apply setBigNumberLength256_wf; [exact Hll | unfold l; auto with bighex | left; exact Hs].
  - exact Hs.
  - split; [exact Hfe|]. rewrite Hv. f_equal.
    change (value (setBigNumberLength256 (mkBig l 0 (vsign M)))) with (eval l).
    rewrite <- (eval_drop_zeros (vnum M) i) by done.
    rewrite <- (take_drop 9 (drop i (vnum M))). fold l. rewrite eval_app, drop_drop, length_drop, Hl.
    do 3 f_equal. unfold ELEMENTS_VERY_BIG_HEX256, ELEMENTS_BIG_HEX256. lia.
Qed.

(** The exceptional case: nine words starting at index ten, the last one being the length. *)
Lemma reduce_window M :
  words (vnum M) -> length (vnum M) = ELEMENTS_VERY_BIG_HEX256 -> vsign M = 0 -> vlen M = 8 ->
  first_nonzero (vnum M) = 10 ->
  let T := setBigNumberLength256
    (mkBig (take ELEMENTS_BIG_HEX256 (drop 10 (very_mem M))) 0 (vsign M)) in
  felem (specialModP256 T) /\ value (specialModP256 T) = (eval (vnum M) * 2 ^ 32 + 8) mod P256.
Proof.
  intros Hw Hl Hs Hn Hf. cbv zeta.
  assert (E : take ELEMENTS_BIG_HEX256 (drop 10 (very_mem M)) = drop 10 (vnum M) ++ [8]).
  { unfold very_mem. rewrite drop_app_le by (rewrite Hl; unfold ELEMENTS_VERY_BIG_HEX256; lia).
    rewrite Hn. change [8; vsign M] with ([8] ++ [vsign M]). rewrite app_assoc.
    apply take_app_length'. rewrite length_app, length_drop, Hl. reflexivity. }
  rewrite E. destruct (specialModP256_value (setBigNumberLength256 (mkBig (drop 10 (vnum M) ++ [8]) 0 (vsign M))))
    as [Hfe Hv].
  - apply setBigNumberLength256_wf.
    + rewrite length_app, length_drop, Hl. reflexivity.
    + apply words_app. split; [auto with bighex|]. apply words_cons. split; [unfold is_u; lia | apply words_nil].
    + left. exact Hs.
  - exact Hs.
  - split; [exact Hfe|]. rewrite Hv. f_equal.
    change (value (setBigNumberLength256 ?X)) with (eval (num X)). cbn [num].
    rewrite eval_app, eval_drop_zeros by lia. change (pw (length [8])) with (2 ^ 32). cbn [eval].
    change (pw (length [])) with 1. lia.
Qed.

Lemma MultiplyBigHexModP256_value A B :
  big256 A -> big256 B ->
  felem (MultiplyBigHexModP256 A B) /\
  value (MultiplyBigHexModP256 A B) = fmul (value A) (value B).
Proof.
  intros HA HB. destruct (multiply256_spec A B HA HB) as (Hw & Hl & He & Hs & Hn).
  rewrite fmul_eq. unfold MultiplyBigHexModP256, mul_window. cbv zeta. change POW256 with (2 ^ 256). set (M := multiply256 A B) in *. rewrite <- He.
  destruct (very_first_nonzero M Hw Hl) as (HR & HU & HL). unfold reduce_very256.
  rewrite isVeryBigHexGreaterThanOrEqual256_spec, copyBigHex256_id by done.
  set (f := first_nonzero (vnum M)) in *. set (v := eval (vnum M)) in *.
  pose proof (zero_prefix_spec ELEMENTS_BIG_HEX256 (vnum M)) as Hz. fold f in Hz.
  change (Z.of_nat ELEMENTS_BIG_HEX256) with 9 in Hz.
  set (i0 := zero_prefix ELEMENTS_BIG_HEX256 (vnum M)) in *.
  destruct (Z.leb_spec P256 v) as [HP | HP]; cbn [andb].
  - (* at least P: the second scan *)
    pose proof (zero_prefix_spec ELEMENTS_VERY_BIG_HEX256 (drop i0 (vnum M))) as Hz2.
    rewrite first_nonzero_drop in Hz2 by (fold f; lia). fold f in Hz2.
    change (Z.of_nat ELEMENTS_VERY_BIG_HEX256) with 18 in Hz2.
    set (j := zero_prefix ELEMENTS_VERY_BIG_HEX256 _) in *.
    assert (f <= 10).
    { destruct (Z.le_gt_cases f 10) as [|Hgt]; [done|]. exfalso.
      pose proof (base_pow_mono (18 - f) 7 ltac:(lia)) as Hm. change (base ^ 7) with (2 ^ 224) in Hm.
      rewrite P256_eq in HP. lia. }
    destruct (Z.ltb_spec v (2 ^ 256)) as [H8 | H8].
    + assert (f = 10) as Hf.
      { destruct (Z.le_gt_cases 10 f); [lia|]. pose proof (base_pow_mono 8 (18 - f - 1) ltac:(lia)) as Hm.
        change (base ^ 8) with (2 ^ 256) in Hm. specialize (HL ltac:(lia)). lia. }
      replace (i0 + j)%nat with 10%nat by lia.
      apply reduce_window; [exact Hw | exact Hl | exact Hs | lia | exact Hf].
    + assert (f <= 9).
      { destruct (Z.le_gt_cases f 9) as [|Hgt]; [done|]. exfalso.
        pose proof (base_pow_mono (18 - f) 8 ltac:(lia)) as Hm. change (base ^ 8) with (2 ^ 256) in Hm. lia. }
      replace (i0 + j)%nat with i0 by lia. apply reduce_from; [exact Hw | exact Hl | exact Hs | lia | fold f; lia].
  - apply reduce_from; [exact Hw | exact Hl | exact Hs | lia | fold f; lia].
Qed.

Lemma fmul_regular x y : mul_window x y = false -> fmul x y = (x * y) mod P256.
Proof. intros H. rewrite fmul_eq. by rewrite H. Qed.

(** ** Multiplication by a word *)
Lemma mul_u32_loop_spec n a :
  is_u 32 n -> words a ->
  let '(c, r) := mul_u32_loop n a in
  words r /\ length r = length a /\ is_u 32 c /\ eval r + c * pw (length a) = eval a * n.
Proof.
  intros Hn. induction a as [|x a IH]; intros Ha.
  { simpl. repeat split; try lia. apply words_nil. }
  apply words_cons in Ha as [Hx Ha]. specialize (IH Ha). cbn [mul_u32_loop].
  destruct (mul_u32_loop n a) as [c r]. destruct IH as (Hw & Hl & Hc & He).
  destruct (mac_split x n 0 c Hx Hn ltac:(unfold is_u; lia) Hc) as (Hm & Hk & Hv).
  assert (Hxn : 0 <= x * n < 2 ^ 64) by (unfold is_u in *; nia).
  rewrite Z.add_0_r, (u64_small (u64 (x * n))) in Hm, Hk, Hv by (rewrite u64_small; lia).
  set (val := u64 _) in *. repeat split; [by apply words_cons | cbn [length]; congruence | apply Hk.. |].
  cbn [length eval]. rewrite pw_S, Hl.
  transitivity ((mask32 val + base * u32 (Z.shiftr val 32)) * pw (length a) + eval r); [ring|].
  rewrite Hv. transitivity (x * n * pw (length a) + (eval r + c * pw (length a))); [ring|]. rewrite He. ring.
Qed.

Lemma MultiplyBigHexByUint32_256_value A n :
  big256 A -> is_u 32 n ->
  felem (MultiplyBigHexByUint32_256 A n) /\
  value (MultiplyBigHexByUint32_256 A n) = (value A * n) mod P256.
Proof.
  intros [[Hl Hw _ _] Hlt HS] Hn. unfold MultiplyBigHexByUint32_256.
  pose proof (mul_u32_loop_spec n (num A) Hn Hw) as H. unfold value in Hlt.
  destruct (mul_u32_loop n (num A)) as [c r]. destruct H as (Hwr & Hlr & Hc & He).
  pose proof (eval_bound r Hwr) as Hr. rewrite Hlr, Hl in *.
  change (pw ELEMENTS_BIG_HEX256) with (base * pw 8) in *.
  assert (c = 0) as -> by (unfold is_u in *; fold base in *; pose proof (pw_pos 8);
    pose proof (eval_bound (num A) Hw); nia).
  destruct (specialModP256_value (set_sign (sign A) (setBigNumberLength256 (mkBig r 0 0)))) as [Hf Hv].
  - apply set_sign_wf; [apply setBigNumberLength256_wf; [congruence | done | by left] | left; done].
  - exact HS.
  - split; [exact Hf|]. cbn [snd]. rewrite Hv. f_equal. unfold value. cbn. lia.
Qed.

(** ** Inversion *)
Lemma P256_odd : Z.odd P256 = true.
Proof. reflexivity. Qed.

(** Halving modulo [P], on the integers. *)
Definition zhalf (x : Z) : Z := if Z.even x then x / 2 else (x + P256) / 2.

Lemma zhalf_double x : (2 * zhalf x) mod P256 = x mod P256.
Proof.
  unfold zhalf. destruct (Z.even x) eqn:E.
  - apply Z.even_spec in E as [k ->]. rewrite (Z.mul_comm 2 k), Z.div_mul by lia. f_equal. lia.
  - assert (Z.even (x + P256) = true) as E2.
    { rewrite Z.even_add, E. by rewrite <- Z.negb_odd, P256_odd. }
    apply Z.even_spec in E2 as [k E2]. rewrite E2, (Z.mul_comm 2 k), Z.div_mul, <- E2 by lia.
    replace (x + P256) with (x + 1 * P256) by ring. by rewrite Z.mod_add.
Qed.

Lemma zhalf_bound x B : Z.abs x <= 2 * B -> P256 <= 2 * B -> Z.abs (zhalf x) <= B + P256.
Proof.
  intros H HP. unfold zhalf. pose proof P256_pos. destruct (Z.even x); Z.to_euclidean_division_equations; lia.
Qed.

Lemma zhalf_bound_same x B : Z.abs x <= B -> P256 <= B -> Z.abs (zhalf x) <= B.
Proof.
  intros H HP. unfold zhalf. pose proof P256_pos. destruct (Z.even x); Z.to_euclidean_division_equations; lia.
Qed.

Lemma even_svalue A : Z.even (svalue A) = Z.even (value A).
Proof. unfold svalue. destruct (sign A =? 0); [done | apply Z.even_opp]. Qed.

Lemma div2_record_spec A :
  wf A -> let R := setBigNumberLength256 (mkBig (div2_loop 0 (num A)) (len A) (sign A)) in
  wf R /\ value R = value A / 2 /\ sign R = sign A.
Proof. apply divideByTwo256_spec. Qed.

(** One cofactor update: [A/2], or [(A+P)/2] when [A] is odd, sign included. *)
Lemma cofactor_half A :
  wf A -> value A + P256 < CAP ->
  let R := if ISBIGHEXEVEN256 A then divideByTwo256 A else AddPdiv2_256 A in
  wf R /\ svalue R = zhalf (svalue A).
Proof.
  intros HA HB. cbv zeta. rewrite ISBIGHEXEVEN256_spec, <- even_svalue by done. unfold zhalf.
  destruct (Z.even (svalue A)) eqn:E.
  - destruct (divideByTwo256_spec A HA) as (Hw & Hv & Hs). split; [done|].
    unfold svalue in *. rewrite Hs, Hv. destruct (sign A =? 0); [done|].
    rewrite Z.even_opp in E. apply Z.even_spec in E as [k ->].
    rewrite <- Z.mul_opp_r, !(Z.mul_comm 2), !Z.div_mul by lia. done.
  - rewrite even_svalue in E. pose proof HA as [Hl Hw Hn Hs]. pose proof P256_wf as [PL PW _ _].
    unfold AddPdiv2_256. destruct Hs as [Hs | Hs]; rewrite Hs; simpl Z.eqb; cbv iota.
    + destruct (add_loop_value (num A) (num bigHexP256)) as (Hw1 & Hl1 & He1);
        [congruence | done | done | rewrite Hl; fold (value A) (value bigHexP256); by rewrite P256_value |].
      fold (value A) (value bigHexP256) in He1. rewrite P256_value in He1.
      destruct (div2_record_spec (setBigNumberLength256 (mkBig (snd (add_loop (num A) (num bigHexP256))) (len A) 0)))
        as (Hw2 & Hv2 & Hs2); [apply setBigNumberLength256_wf; [congruence | done | by left]|].
      split; [apply setBigNumberLength256_wf; [apply Hw2 | apply Hw2 | by left]|].
      rewrite !svalue_pos by done. rewrite <- He1. exact Hv2.
    + rewrite isGreaterThan256_spec, P256_value by (done || apply P256_wf).
      assert (Hodd : exists k, value A = 2 * k + 1) by (apply Z.odd_spec; by rewrite <- Z.negb_even, E).
      assert (HPodd : exists q, P256 = 2 * q + 1) by (apply Z.odd_spec, P256_odd).
      destruct Hodd as [k Hk], HPodd as [q Hq].
      destruct (Z.ltb_spec P256 (value A)).
      * destruct (sub_loop_value (num A) (num bigHexP256)) as (Hw1 & Hl1 & He1);
          [congruence | done | done | fold (value A) (value bigHexP256); rewrite P256_value; lia |].
        fold (value A) (value bigHexP256) in He1. rewrite P256_value in He1.
        destruct (div2_record_spec (setBigNumberLength256 (mkBig (snd (sub_loop (num A) (num bigHexP256))) (len A) 1)))
          as (Hw2 & Hv2 & Hs2); [apply setBigNumberLength256_wf; [congruence | done | by right]|].
        split; [apply setBigNumberLength256_wf; [apply Hw2 | apply Hw2 | by right]|].
        rewrite !svalue_neg by done.
        etransitivity; [exact (f_equal Z.opp (eq_trans Hv2 (f_equal (fun z => z / 2) He1)))|].
        Z.to_euclidean_division_equations; lia.
      * rewrite copyBigHex256_id. destruct (AddP256_spec A) as (Hw1 & Hv1 & Hs1); [done | done |].
        unfold AddP256 in *. rewrite copyBigHex256_id in *.
        destruct (div2_record_spec (set_sign 0 (SubtractBigHex256 bigHexP256 A uninit))) as (Hw2 & Hv2 & Hs2); [done|].
        split; [exact Hw2|]. rewrite svalue_pos, svalue_neg by done.
        etransitivity; [exact Hv2|]. rewrite Hv1. Z.to_euclidean_division_equations; lia.
Qed.

Lemma halve_congr x y : (2 * x) mod P256 = (2 * y) mod P256 -> x mod P256 = y mod P256.
Proof.
  intros H. set (h := (P256 + 1) / 2).
  assert (Hh : forall z, z mod P256 = (h * (2 * z)) mod P256).
  { intros z. replace (h * (2 * z)) with (z + z * P256) by (unfold h; change (2 * ((P256 + 1) / 2)) with (P256 + 1);
      replace ((P256 + 1) / 2 * (2 * z)) with ((2 * ((P256 + 1) / 2)) * z) by ring;
      change (2 * ((P256 + 1) / 2)) with (P256 + 1); ring).
    by rewrite Z.mod_add. }
  rewrite (Hh x), (Hh y), <- Z.mul_mod_idemp_r, H, Z.mul_mod_idemp_r by done. done.
Qed.

Lemma gcd_half_1 k m : Z.gcd (2 * k) m = 1 -> Z.gcd k m = 1.
Proof.
  intros H. apply Z.divide_1_r_nonneg; [apply Z.gcd_nonneg|]. rewrite <- H.
  apply Z.gcd_greatest; [apply Z.divide_mul_r|]; auto using Z.gcd_divide_l, Z.gcd_divide_r.
Qed.

(** What halving a pair (number, cofactor) keeps: parity, gcd, the congruence that ties the
    cofactor to the number, and the bound on the cofactor. *)
Record halved (a : Z) (u A : bigHex256) (B : Z) (u' A' : bigHex256) : Prop := {
  hv_wf : wf u';
  hv_sign : sign u' = 0;
  hv_odd : Z.odd (value u') = true;
  hv_pos : 0 < value u';
  hv_le : value u' <= value u;
  hv_half : Z.even (value u) = true -> 2 * value u' <= value u;
  hv_gcd : forall m, Z.gcd (value u) m = 1 -> Z.gcd (value u') m = 1;
  hv_cwf : wf A';
  hv_bound : Z.abs (svalue A') <= B;
  hv_congr : (svalue A' * a) mod P256 = value u' mod P256 }.

Lemma value_abs A : wf A -> value A = Z.abs (svalue A).
Proof.
  intros HA. pose proof (wf_value_bound A HA). unfold svalue. destruct (sign A =? 0); lia.
Qed.

Lemma halve_once a u A B :
  wf u -> sign u = 0 -> Z.even (value u) = true -> 0 < value u ->
  wf A -> Z.abs (svalue A) <= B -> B + P256 < CAP ->
  (svalue A * a) mod P256 = value u mod P256 ->
  let u1 := divideByTwo256 u in
  let A1 := if ISBIGHEXEVEN256 A then divideByTwo256 A else AddPdiv2_256 A in
  wf u1 /\ sign u1 = 0 /\ 0 < value u1 /\ value u = 2 * value u1 /\
  wf A1 /\ svalue A1 = zhalf (svalue A) /\ (svalue A1 * a) mod P256 = value u1 mod P256.
Proof.
  intros Hu Hsu He Hpos HA HB HC Hcong. cbv zeta.
  destruct (divideByTwo256_spec u Hu) as (Hw & Hv & Hs).
  destruct (cofactor_half A HA) as (HwA & HvA); [rewrite (value_abs A HA); lia|].
  apply Z.even_spec in He as [k Hk]. rewrite Hk, (Z.mul_comm 2 k), Z.div_mul in Hv by lia.
  split_and!; try congruence; try lia; try assumption.
  apply halve_congr. rewrite Hv, <- Hk, <- Hcong, HvA, Z.mul_assoc.
  rewrite <- Z.mul_mod_idemp_l, zhalf_double, Z.mul_mod_idemp_l by done. reflexivity.
Qed.

Lemma halve_loop_spec a f u A B :
  wf u -> sign u = 0 -> 0 < value u < 2 ^ Z.of_nat f ->
  wf A -> Z.abs (svalue A) <= B -> P256 <= B -> B + P256 < CAP ->
  (svalue A * a) mod P256 = value u mod P256 ->
  halved a u A B (fst (halve_loop f u A)) (snd (halve_loop f u A)).
Proof.
  revert u A. induction f as [|f IH]; intros u A Hu Hsu Hv HA HB HP HC Hcong.
  { change (2 ^ Z.of_nat 0) with 1 in Hv. lia. }
  cbn [halve_loop]. rewrite ISBIGHEXEVEN256_spec by done.
  destruct (Z.even (value u)) eqn:E; cycle 1.
  { constructor; cbn [fst snd]; try assumption; try lia; try congruence.
    by rewrite <- Z.negb_even, E. }
  destruct (halve_once a u A B) as (Hw & Hs & Hp & Hd & HwA & HvA & Hc1); [tr..|].
  assert (Hf : value u < 2 * 2 ^ Z.of_nat f).
  { rewrite Nat2Z.inj_succ, Z.pow_succ_r in Hv by lia. lia. }
  destruct (IH (divideByTwo256 u) (if ISBIGHEXEVEN256 A then divideByTwo256 A else AddPdiv2_256 A))
    as [k1 k2 k3 k4 k5 k6 k7 k8 k9 k10]; try assumption.
  - lia.
  - rewrite HvA. by apply zhalf_bound_same.
  - constructor; try assumption; try lia.
    intros m Hm. apply k7, gcd_half_1. by rewrite <- Hd.
Qed.

(** The same with the larger bound a subtraction leaves on the cofactor of an even number. *)
Lemma halve_loop_growth a f u A M :
  wf u -> sign u = 0 -> 0 < value u < 2 ^ Z.of_nat f ->
  wf A -> Z.abs (svalue A) <= (if Z.even (value u) then 2 * M else M) ->
  P256 <= M -> 2 * M + P256 < CAP ->
  (svalue A * a) mod P256 = value u mod P256 ->
  halved a u A (M + P256) (fst (halve_loop f u A)) (snd (halve_loop f u A)).
Proof.
  intros Hu Hsu Hv HA HB HP HC Hcong. pose proof P256_pos as HPp.
  destruct (Z.even (value u)) eqn:E; [|apply halve_loop_spec; try assumption; lia].
  destruct f as [|f]; [change (2 ^ Z.of_nat 0) with 1 in Hv; lia|].
  cbn [halve_loop]. rewrite ISBIGHEXEVEN256_spec, E by done.
  destruct (halve_once a u A (2 * M)) as (Hw & Hs & Hp & Hd & HwA & HvA & Hc1); [tr..|].
  assert (Hf : value u < 2 * 2 ^ Z.of_nat f).
  { rewrite Nat2Z.inj_succ, Z.pow_succ_r in Hv by lia. lia. }
  destruct (halve_loop_spec a f (divideByTwo256 u)
    (if ISBIGHEXEVEN256 A then divideByTwo256 A else AddPdiv2_256 A) (M + P256))
    as [k1 k2 k3 k4 k5 k6 k7 k8 k9 k10]; try assumption; try lia.
  - rewrite HvA. apply zhalf_bound; lia.
  - constructor; try assumption; try lia.
    intros m Hm. apply k7, gcd_half_1. by rewrite <- Hd.
Qed.

(** The loop invariant of the inversion of [a], with bound [M] on the cofactors. *)
Record inv_ok (a M : Z) (s : inv_state) : Prop := {
  io_uwf : wf (iu s); io_vwf : wf (iv s); io_Awf : wf (iA s); io_Cwf : wf (iC s);
  io_usign : sign (iu s) = 0; io_vsign : sign (iv s) = 0;
  io_ulo : 0 <= value (iu s) < 2 ^ 256; io_vlo : 0 < value (iv s) < 2 ^ 256;
  io_gcd : Z.gcd (value (iu s)) (value (iv s)) = 1;
  io_A : (svalue (iA s) * a) mod P256 = value (iu s) mod P256;
  io_C : (svalue (iC s) * a) mod P256 = value (iv s) mod P256;
  io_Ab : Z.abs (svalue (iA s)) <= (if Z.even (value (iu s)) then 2 * M else M);
  io_Cb : Z.abs (svalue (iC s)) <= (if Z.even (value (iv s)) then 2 * M else M) }.

(** The variant: the numbers with one factor of two removed. *)
Definition odd_part1 (x : Z) : Z := if Z.even x then x / 2 else x.
Definition inv_measure (s : inv_state) : Z := odd_part1 (value (iu s)) * odd_part1 (value (iv s)).

Lemma odd_part1_le x y : 0 < y -> y <= x -> (Z.even x = true -> 2 * y <= x) -> y <= odd_part1 x.
Proof.
  intros Hy Hle He. unfold odd_part1. destruct (Z.even x); [|done].
  specialize (He eq_refl). Z.to_euclidean_division_equations; lia.
Qed.

Lemma sub_odd_even x y : Z.odd x = true -> Z.odd y = true -> Z.even (x - y) = true.
Proof. intros Hx Hy. by rewrite Z.even_sub, <- !Z.negb_odd, Hx, Hy. Qed.

Lemma congr_sub a x y u v :
  (x * a) mod P256 = u mod P256 -> (y * a) mod P256 = v mod P256 ->
  ((x - y) * a) mod P256 = (u - v) mod P256.
Proof. intros Hx Hy. rewrite Z.mul_sub_distr_r, Zminus_mod, Hx, Hy, <- Zminus_mod. done. Qed.

Lemma inv_step_ok a M s :
  inv_ok a M s -> 0 < value (iu s) -> P256 <= M -> 2 * M + 2 * P256 < CAP ->
  inv_ok a (M + P256) (inv_step s) /\ 2 * inv_measure (inv_step s) <= inv_measure s.
Proof.
  intros [Wu Wv WA WC Su Sv Bu Bv G HA HC HAb HCb] Hpos HP Hcap. unfold inv_step.
  pose proof P256_pos as HPp.
  pose proof (halve_loop_growth a HALVE_FUEL (iu s) (iA s) M Wu Su ltac:(change (2 ^ Z.of_nat HALVE_FUEL) with (2 ^ 256); lia)
    WA HAb HP ltac:(lia) HA) as H1.
  pose proof (halve_loop_growth a HALVE_FUEL (iv s) (iC s) M Wv Sv ltac:(change (2 ^ Z.of_nat HALVE_FUEL) with (2 ^ 256); lia)
    WC HCb HP ltac:(lia) HC) as H2.
  destruct (halve_loop HALVE_FUEL (iu s) (iA s)) as [u A]. destruct (halve_loop HALVE_FUEL (iv s) (iC s)) as [v C].
  cbn [fst snd] in H1, H2. destruct H1 as [p1 p2 p3 p4 p5 p6 p7 p8 p9 p10].
  destruct H2 as [q1 q2 q3 q4 q5 q6 q7 q8 q9 q10].
  assert (Gu : Z.gcd (value u) (value v) = 1).
  { apply p7. rewrite Z.gcd_comm. apply q7. by rewrite Z.gcd_comm. }
  pose proof (odd_part1_le (value (iu s)) (value u) p4 p5 p6) as Lu.
  pose proof (odd_part1_le (value (iv s)) (value v) q4 q5 q6) as Lv.
  assert (Hsum : value A + value C < CAP) by (rewrite (value_abs A p8), (value_abs C q8); lia).
  assert (Eu : Z.even (value u) = false) by (by rewrite <- Z.negb_odd, p3).
  assert (Ev : Z.even (value v) = false) by (by rewrite <- Z.negb_odd, q3).
  rewrite isGreaterThanOrEqual256_spec by done. destruct (Z.leb_spec (value v) (value u)) as [Hle | Hgt].
  - destruct (SubtractFromSelfBigHex256_spec u v) as (Hw & Hv & Hs); [tr..|].
    destruct (SubtractFromSelfBigHexSign256_value A C) as (HwA & HvA); [tr..|].
    pose proof (sub_odd_even _ _ p3 q3) as Ed. split.
    + constructor; cbn [iu iv iA iC]; try assumption; rewrite ?Hv, ?HvA, ?Ed, ?Ev; try lia.
      * rewrite Z.gcd_comm, Z.gcd_sub_diag_r, Z.gcd_comm. exact Gu.
      * by apply congr_sub.
    + unfold inv_measure. cbn [iu iv]. rewrite Hv. unfold odd_part1 at 1 2. rewrite Ed, Ev.
      assert (2 * ((value u - value v) / 2) <= value u) by (Z.to_euclidean_division_equations; lia).
      nia.
  - destruct (SubtractFromSelfBigHex256_spec v u) as (Hw & Hv & Hs); [tr | tr | lia |].
    destruct (SubtractFromSelfBigHexSign256_value C A) as (HwA & HvA); [tr | tr | lia |].
    pose proof (sub_odd_even _ _ q3 p3) as Ed. split.
    + constructor; cbn [iu iv iA iC]; try assumption; rewrite ?Hv, ?HvA, ?Ed, ?Eu; try lia.
      * rewrite Z.gcd_sub_diag_r. exact Gu.
      * by apply congr_sub.
    + unfold inv_measure. cbn [iu iv]. rewrite Hv. unfold odd_part1 at 1 2. rewrite Ed, Eu.
      assert (2 * ((value v - value u) / 2) <= value v) by (Z.to_euclidean_division_equations; lia).
      nia.
Qed.

Lemma odd_part1_pos x : 0 < x -> 0 < odd_part1 x.
Proof.
  intros H. unfold odd_part1. destruct (Z.even x) eqn:E; [|done].
  apply Z.even_spec in E as [k ->]. rewrite Z.mul_comm, Z.div_mul by lia. lia.
Qed.

Lemma inv_ok_weaken a M M' s : M <= M' -> inv_ok a M s -> inv_ok a M' s.
Proof.
  intros HM [h1 h2 h3 h4 h5 h6 h7 h8 h9 h10 h11 hA hC]. constructor; try assumption.
  - destruct (Z.even (value (iu s))); lia.
  - destruct (Z.even (value (iv s))); lia.
Qed.

(** Enough fuel: the variant halves at every iteration. *)
Lemma inv_loop_total a f M s :
  inv_ok a M s -> inv_measure s < 2 ^ Z.of_nat f ->
  P256 <= M -> 2 * (M + Z.of_nat f * P256) + 2 * P256 < CAP ->
  exists s', inv_loop f s = Some s' /\ value (iu s') = 0 /\ inv_ok a (M + Z.of_nat f * P256) s'.
Proof.
  pose proof P256_pos as HPp. revert M s. induction f as [|f IH]; intros M s HI Hm HP HC.
  all: destruct (Z.eq_dec (value (iu s)) 0) as [E | E].
  1,3: assert (HL : (len (iu s) =? 0) = true) by (apply Z.eqb_eq, wf_len_zero; [apply HI | done]);
    exists s; unfold inv_loop; fold inv_loop; rewrite HL; split; [done|]; split; [done|];
    apply (inv_ok_weaken a M); [lia | done].
  all: assert (HL : (len (iu s) =? 0) = false)
    by (apply Z.eqb_neq; intros Hl; apply E, wf_len_zero; [apply HI | done]).
  all: pose proof (io_ulo _ _ _ HI) as Hu; pose proof (io_vlo _ _ _ HI) as Hv.
  - exfalso. unfold inv_measure in Hm. change (2 ^ Z.of_nat 0) with 1 in Hm.
    pose proof (odd_part1_pos (value (iu s)) ltac:(lia)). pose proof (odd_part1_pos (value (iv s)) ltac:(lia)). nia.
  - cbn [inv_loop]. rewrite HL.
    destruct (inv_step_ok a M s) as [HI2 Hm2]; [done | lia | done | lia |].
    rewrite Nat2Z.inj_succ, Z.pow_succ_r in Hm by lia.
    destruct (IH (M + P256) (inv_step s)) as (s' & E1 & E2 & E3); [done | lia | lia | lia |].
    exists s'. split; [done|]. split; [done|].
    replace (M + Z.of_nat (S f) * P256) with (M + P256 + Z.of_nat f * P256) by lia. done.
Qed.

Lemma big_one_spec : wf (big_small 1 1) /\ value (big_small 1 1) = 1.
Proof.
  split; [constructor|]; try reflexivity; [|by left].
  unfold big_small, words. repeat (apply Forall_cons; split; [unfold is_u; lia|]). by apply Forall_nil.
Qed.

(** The code starts with a zero cofactor whose length field is one. The first iteration does
    not see the difference from a normalised zero. *)
Definition inv_init0 (bigHexA : bigHex256) : inv_state :=
  mkInv (copyBigHex256 (set_sign 0 bigHexA)) (copyBigHex256 bigHexP256) (big_small 1 1) initBigNumber256.

Lemma zero_len1_compare A :
  wf A -> 0 < value A -> isGreaterThanOrEqual256 (big_small 0 1) A = false.
Proof.
  intros HA Hpos. assert (HL : len A <> 0) by (intros E; apply wf_len_zero in E; [lia | done]).
  pose proof (wf_len_range A HA) as HR. unfold isGreaterThanOrEqual256, compare256.
  change (len (big_small 0 1)) with 1. rewrite Z.gtb_ltb.
  destruct (Z.ltb_spec (len A) 1); [lia|]. destruct (Z.ltb_spec 1 (len A)); [done|].
  assert (HA1 : len A = 1) by lia. destruct HA as [Hl Hw Hn _].
  set (i := Z.to_nat _). assert (Hi : i = 8%nat) by reflexivity. rewrite Hi.
  rewrite compare_loop_spec.
  - rewrite (eval_drop_zeros (num A)) by (unfold ELEMENTS_BIG_HEX256 in *; lia).
    fold (value A). change (eval (drop 8 (num (big_small 0 1)))) with 0. zcases; first [done | lia].
  - rewrite !length_drop, Hl. reflexivity.
  - unfold words. apply Forall_cons. split; [unfold is_u; lia | by apply Forall_nil].
  - by apply words_drop.
Qed.

Lemma inv_init0_ok a A :
  wf A -> value A = a -> 0 < a < P256 -> Z.gcd a P256 = 1 -> inv_ok a P256 (inv_init0 A).
Proof.
  intros HA Ha Hr Hg. destruct big_one_spec as [W1 V1].
  assert (HS : svalue (big_small 1 1) = 1) by (rewrite svalue_pos; [exact V1 | reflexivity]).
  assert (H0 : svalue initBigNumber256 = 0) by reflexivity.
  unfold inv_init0. rewrite !copyBigHex256_id. constructor; cbn [iu iv iA iC];
    rewrite ?set_sign_value, ?P256_value, ?HS, ?H0, ?Ha.
  - apply set_sign_wf; [done | by left].
  - apply P256_wf.
  - exact W1.
  - apply initBigNumber256_spec.
  - reflexivity.
  - reflexivity.
  - rewrite P256_eq in *. lia.
  - rewrite P256_eq. lia.
  - exact Hg.
  - f_equal. lia.
  - rewrite Z.mod_same by done. reflexivity.
  - destruct (Z.even a); rewrite P256_eq; lia.
  - destruct (Z.even P256); rewrite P256_eq; lia.
Qed.

Lemma inv_step_init a A :
  wf A -> value A = a -> 0 < a < P256 -> Z.gcd a P256 = 1 ->
  inv_step (inv_init A) = inv_step (inv_init0 A).
Proof.
  intros HA Ha Hr Hg. destruct (inv_init0_ok a A HA Ha Hr Hg) as [Wu Wv WA WC Su Sv Bu Bv G HcA HcC HAb HCb].
  pose proof P256_pos. unfold inv_step.
  change (iu (inv_init A)) with (iu (inv_init0 A)). change (iA (inv_init A)) with (iA (inv_init0 A)).
  change (iv (inv_init A)) with bigHexP256. change (iv (inv_init0 A)) with bigHexP256.
  pose proof (halve_loop_growth a HALVE_FUEL (iu (inv_init0 A)) (iA (inv_init0 A)) P256 Wu Su
    ltac:(change (2 ^ Z.of_nat HALVE_FUEL) with (2 ^ 256); change (value (iu (inv_init0 A))) with (value A) in *; lia)
    WA HAb ltac:(lia) ltac:(rewrite CAP_value, P256_eq; lia) HcA) as H1.
  destruct (halve_loop HALVE_FUEL (iu (inv_init0 A)) (iA (inv_init0 A))) as [u X].
  cbn [fst snd] in H1. destruct H1 as [p1 p2 p3 p4 p5 p6 p7 p8 p9 p10].
  change (value (iu (inv_init0 A))) with (value A) in p5.
  change (halve_loop HALVE_FUEL bigHexP256 (iC (inv_init A))) with (bigHexP256, big_small 0 1).
  change (halve_loop HALVE_FUEL bigHexP256 (iC (inv_init0 A))) with (bigHexP256, initBigNumber256).
  cbv beta iota.
  rewrite isGreaterThanOrEqual256_spec, P256_value by (done || apply P256_wf).
  destruct (Z.leb_spec P256 (value u)); [lia|].
  f_equal. unfold SubtractFromSelfBigHexSign256. change (sign (big_small 0 1)) with 0.
  change (sign initBigNumber256) with 0. simpl (0 =? 0). cbv iota.
  assert (HX : value X <> 0).
  { intros E. assert (svalue X = 0) as E0 by (unfold svalue; rewrite E; by destruct (sign X =? 0)).
    rewrite E0, Z.mul_0_l, Z.mod_0_l, Z.mod_small in p10 by lia. lia. }
  pose proof (wf_value_bound X p8). rewrite zero_len1_compare by (done || lia).
  rewrite (isGreaterThanOrEqual256_spec initBigNumber256) by (done || apply initBigNumber256_spec).
  change (value initBigNumber256) with 0. destruct (Z.leb_spec (value X) 0); [lia|].
  reflexivity.
Qed.

(** ** The negative branch of [specialModP256] *)
(** Adding the prime to a negative number, whatever its size: what leaves the nine words is lost. *)
Lemma AddP256_wrap A : wf A ->
  wf (AddP256 A) /\ value (AddP256 A) = (P256 - value A) mod CAP /\ sign (AddP256 A) = 0.
Proof.
  intros [HlA HwA _ _]. unfold AddP256. rewrite copyBigHex256_id, set_sign_value. destruct P256_wf as [HlP HwP _ _].
  pose proof (sub_loop_spec (num bigHexP256) (num A) ltac:(congruence) HwP HwA) as H.
  unfold SubtractBigHex256. destruct (sub_loop (num bigHexP256) (num A)) as [c r]. cbn [snd]. destruct H as (Hw & Hl & Hc & He).
  rewrite HlP in Hl, He. split; [|split; [|done]].
  - apply set_sign_wf; [|by left]. apply setBigNumberLength256_wf; [congruence | done | apply uninit_sign].
  - change (value (setBigNumberLength256 (mkBig r (len uninit) (sign uninit)))) with (eval r).
    pose proof (eval_bound r Hw) as HR. rewrite Hl in HR. fold (value bigHexP256) in He. fold (value A) in He. rewrite P256_value in He.
    change CAP with (pw ELEMENTS_BIG_HEX256). apply Z.mod_unique with (- c); [lia|]. lia.
Qed.

(** What is left of the size of a negative number when the multiple of the prime by its top word is taken out. *)
Definition neg_rest (v : Z) : Z := if v <? 2 ^ 256 then v else v - v / 2 ^ 256 * P256.

Lemma neg_rest_mod v : neg_rest v mod P256 = v mod P256.
Proof.
  unfold neg_rest. destruct (_ <? _); [done|]. replace (v - v / 2 ^ 256 * P256) with (v + - (v / 2 ^ 256) * P256) by ring. by rewrite Z.mod_add.
Qed.

Lemma neg_rest_range v : 0 <= v < CAP -> 0 <= neg_rest v < 2 ^ 257.
Proof.
  rewrite CAP_value. intros Hv. unfold neg_rest. rewrite P256_eq. destruct (Z.ltb_spec v (2 ^ 256)); [lia|].
  pose proof (Z.div_mod v (2 ^ 256) ltac:(lia)) as HD. pose proof (Z.mod_pos_bound v (2 ^ 256) ltac:(lia)).
  assert (v / 2 ^ 256 < 2 ^ 32) by (apply Z.div_lt_upper_bound; lia). lia.
Qed.

Lemma specialModP256_negative A : wf A -> sign A = 1 ->
  wf (specialModP256 A) /\ value (specialModP256 A) = (P256 - neg_rest (value A)) mod CAP /\ sign (specialModP256 A) = 0.
Proof.
  intros HA HS. unfold specialModP256, neg_rest. cbv beta zeta. rewrite len_gt_8, HS by done. simpl Z.eqb. cbn [andb orb].
  change (2 ^ 256) with (pw 8). destruct (Z.leb_spec (pw 8) (value A)) as [H8 | H8].
  - destruct (Z.ltb_spec (value A) (pw 8)); [lia|]. change (sign (set_sign 1 ?x)) with 1. simpl Z.eqb. cbn [andb orb]. cbv iota.
    assert (H9 : len A = 9) by (pose proof (wf_len_range A HA); pose proof (len_le_8 A HA); lia).
    destruct (top_word_9 A HA H9) as (HN & L & HvA & HL). set (N := GETMOSTSIGNIGICANTU32_256 A) in *.
    destruct (MultiplyByU32ModP256_spec N HN) as (Hw & Hv & Hs). pose proof (top_word_remainder N L HN HL) as HR.
    assert (HA0 : wf (set_sign 0 A)) by (apply set_sign_wf; [done | by left]).
    unfold SubtractFromSelfBigHexSign256. rewrite Hs, isGreaterThanOrEqual256_spec by done. change (sign (set_sign 0 A)) with 0. simpl Z.eqb. cbv iota.
    rewrite set_sign_value. destruct (Z.leb_spec (value (MultiplyByU32ModP256 N)) (value A)); [|lia].
    destruct (SubtractFromSelfBigHex256_spec (set_sign 0 A) (MultiplyByU32ModP256 N)) as (Hw1 & Hv1 & _); [done | done | by rewrite set_sign_value|].
    destruct (AddP256_wrap (set_sign 1 (SubtractFromSelfBigHex256 (set_sign 0 A) (MultiplyByU32ModP256 N)))) as (H1 & H2 & H3);
      [apply set_sign_wf; [done | by right]|].
    split; [exact H1|]. split; [|exact H3]. rewrite H2, set_sign_value, Hv1, set_sign_value, Hv.
    assert (EN : value A / pw 8 = N) by (symmetry; apply Z.div_unique with L; lia). by rewrite EN.
  - destruct (Z.ltb_spec (value A) (pw 8)); [|lia]. rewrite HS. simpl Z.eqb. cbn [andb orb]. cbv iota. by apply AddP256_wrap.
Qed.

(** Where the reduction of the final cofactor is right: it is, for a negative one, when what is left of
    its size is not above the prime. *)
Definition cofactor_ok (c : Z) : bool := (0 <=? c) || (neg_rest (- c) <=? P256).

Lemma cofactor_above c : - P256 < c -> cofactor_ok c = true.
Proof.
  intros H. unfold cofactor_ok. destruct (Z.leb_spec 0 c); [done|]. cbn [orb]. unfold neg_rest.
  destruct (Z.ltb_spec (- c) (2 ^ 256)); [apply Z.leb_le; lia | rewrite P256_eq in H; lia].
Qed.

(** The reduction of the final cofactor. *)
Lemma inv_final_value C : wf C -> svalue C mod P256 <> 0 -> cofactor_ok (svalue C) = true ->
  felem (inv_final C) /\ value (inv_final C) = svalue C mod P256.
Proof.
  intros HC Hne Hok. pose proof (wf_value_bound C HC). unfold inv_final. rewrite !copyBigHex256_id.
  destruct (wf_sign C HC) as [HS | HS]; rewrite HS; simpl Z.eqb; cbv iota.
  - rewrite svalue_pos by done. rewrite isGreaterThan256_spec, P256_value by (done || apply P256_wf).
    destruct (Z.ltb_spec (value C) P256).
    + rewrite Z.mod_small by lia. split; [constructor; tr | tr].
    + by apply specialModP256_value.
  - rewrite svalue_neg in * by done. destruct (specialModP256_negative C) as (Hw & Hv & Hs); [done | done |].
    pose proof (neg_rest_range (value C) ltac:(lia)) as HR. pose proof (neg_rest_mod (value C)) as HM.
    assert (Hr : 0 < neg_rest (value C) <= P256).
    { unfold cofactor_ok in Hok. rewrite Z.opp_involutive in Hok. apply orb_true_iff in Hok as [Hok | Hok]; apply Z.leb_le in Hok.
      - assert (value C = 0) as E by lia. rewrite E in Hne. by destruct Hne.
      - split; [|done]. destruct (Z.eq_dec (neg_rest (value C)) 0) as [E|]; [|lia]. rewrite E in HM.
        destruct Hne. apply Z.mod_opp_l_z; [done|]. rewrite <- HM. reflexivity. }
    assert (HE : (- value C) mod P256 = (P256 - neg_rest (value C)) mod P256).
    { rewrite Zminus_mod, HM, <- Zminus_mod. replace (P256 - value C) with (- value C + 1 * P256) by ring. by rewrite Z.mod_add. }
    assert (HP : neg_rest (value C) <> P256) by (intros E; rewrite HE, E, Z.sub_diag in Hne; by destruct Hne).
    rewrite Z.mod_small in Hv by (rewrite CAP_value, P256_eq in *; lia).
    rewrite HE, Z.mod_small by lia. split; [constructor; [done | lia | done] | done].
Qed.

(** Otherwise what is lost is a multiple of 2^288, and the result is no remainder of the cofactor. *)
Lemma inv_final_wrong C : wf C -> cofactor_ok (svalue C) = false ->
  value (inv_final C) mod P256 = (svalue C + 2 ^ 288) mod P256.
Proof.
  intros HC Hok. pose proof (wf_value_bound C HC). unfold cofactor_ok in Hok. apply orb_false_iff in Hok as [H1 H2].
  apply Z.leb_gt in H1, H2. destruct (wf_sign C HC) as [HS | HS]; [rewrite svalue_pos in H1 by done; lia|].
  unfold inv_final. rewrite !copyBigHex256_id, HS. simpl Z.eqb. cbv iota. rewrite svalue_neg in * by done. rewrite Z.opp_involutive in H2.
  destruct (specialModP256_negative C) as (_ & Hv & _); [done | done |]. rewrite Hv.
  pose proof (neg_rest_range (value C) ltac:(lia)) as HR. pose proof (neg_rest_mod (value C)) as HM. rewrite CAP_value in *.
  assert (E : (P256 - neg_rest (value C)) mod 2 ^ 288 = P256 - neg_rest (value C) + 2 ^ 288)
    by (symmetry; apply Z.mod_unique with (-1); rewrite P256_eq in *; lia).
  rewrite E. replace (P256 - neg_rest (value C) + 2 ^ 288) with (P256 + 2 ^ 288 - neg_rest (value C)) by ring.
  rewrite Zminus_mod, HM, <- Zminus_mod. replace (P256 + 2 ^ 288 - value C) with (- value C + 2 ^ 288 + 1 * P256) by ring. by rewrite Z.mod_add.
Qed.

(** The final cofactor of the loop, as a signed integer. *)
Definition inv_cofactor (bigHexA : bigHex256) : option Z :=
  match inv_loop INV_FUEL (inv_init bigHexA) with
  | Some s => Some (svalue (iC s))
  | None => None
  end.

Lemma inv_loop_init A a :
  wf A -> value A = a -> 0 < a < P256 -> Z.gcd a P256 = 1 ->
  exists s, inv_loop INV_FUEL (inv_init A) = Some s /\ value (iu s) = 0 /\
            inv_ok a (513 * P256) s.
Proof.
  intros HA Ha Hr Hg. pose proof (inv_init0_ok a A HA Ha Hr Hg) as HI.
  assert (HL : (len A =? 0) = false).
  { apply Z.eqb_neq. intros E. apply wf_len_zero in E; [lia | done]. }
  assert (E : inv_loop INV_FUEL (inv_init A) = inv_loop INV_FUEL (inv_init0 A)).
  { change INV_FUEL with (S 511). cbn [inv_loop]. change (len (iu (inv_init A))) with (len A).
    change (len (iu (inv_init0 A))) with (len A). rewrite HL. by rewrite (inv_step_init a A). }
  rewrite E. destruct (inv_loop_total a INV_FUEL P256 (inv_init0 A)) as (s & E1 & E2 & E3).
  - exact HI.
  - unfold inv_measure. change (value (iu (inv_init0 A))) with (value A).
    change (value (iv (inv_init0 A))) with (value bigHexP256). rewrite P256_value, Ha.
    assert (odd_part1 a <= a) by (unfold odd_part1; destruct (Z.even a); [Z.to_euclidean_division_equations|]; lia).
    change (odd_part1 P256) with P256. change (2 ^ Z.of_nat INV_FUEL) with (2 ^ 256 * 2 ^ 256).
    pose proof (odd_part1_pos a ltac:(lia)). rewrite P256_eq in *. nia.
  - lia.
  - rewrite CAP_value, P256_eq. change (Z.of_nat INV_FUEL) with 512. lia.
  - exists s. split; [exact E1|]. split; [exact E2|].
    replace (513 * P256) with (P256 + Z.of_nat INV_FUEL * P256) by (change (Z.of_nat INV_FUEL) with 512; ring).
    exact E3.
Qed.

Lemma bigHexInversion256_value A :
  wf A -> 0 < value A < P256 -> Z.gcd (value A) P256 = 1 ->
  exists c R, inv_cofactor A = Some c /\ bigHexInversion256 A = Some R /\
    (c * value A) mod P256 = 1 /\
    (cofactor_ok c = true -> felem R /\ value R = c mod P256 /\ (value R * value A) mod P256 = 1) /\
    (cofactor_ok c = false -> (value R * value A) mod P256 <> 1).
Proof.
  intros HA Hr Hg. destruct (inv_loop_init A (value A) HA eq_refl Hr Hg) as (s & E & Hu & HI).
  exists (svalue (iC s)), (inv_final (iC s)). unfold inv_cofactor, bigHexInversion256. rewrite E.
  split; [done|]. split; [done|].
  assert (Hv : value (iv s) = 1).
  { pose proof (io_gcd _ _ _ HI) as G. pose proof (io_vlo _ _ _ HI). rewrite Hu in G.
    rewrite Z.gcd_0_l in G. lia. }
  assert (H1 : (svalue (iC s) * value A) mod P256 = 1).
  { rewrite (io_C _ _ _ HI), Hv. reflexivity. }
  split; [exact H1|]. split; intros Hok.
  - assert (Hne : svalue (iC s) mod P256 <> 0).
    { intros E0. rewrite <- Z.mul_mod_idemp_l, E0, Z.mul_0_l, Z.mod_0_l in H1 by done. lia. }
    destruct (inv_final_value (iC s)) as [Hf Hval]; [apply HI | done | done |].
    split; [exact Hf|]. split; [exact Hval|]. rewrite Hval, Z.mul_mod_idemp_l by done. exact H1.
  - pose proof (inv_final_wrong (iC s) ltac:(apply HI) Hok) as HW. intros E1.
    assert (E2 : (2 ^ 288 * value A) mod P256 = 0).
    { rewrite <- Z.mul_mod_idemp_l, HW, Z.mul_mod_idemp_l in E1 by done.
      replace (2 ^ 288 * value A) with ((svalue (iC s) + 2 ^ 288) * value A - svalue (iC s) * value A) by ring.
      rewrite Zminus_mod, E1, H1. reflexivity. }
    assert (E3 : (2 ^ 288 * (svalue (iC s) * value A)) mod P256 = 0).
    { replace (2 ^ 288 * (svalue (iC s) * value A)) with (2 ^ 288 * value A * svalue (iC s)) by ring.
      by rewrite <- Z.mul_mod_idemp_l, E2. }
    rewrite <- Z.mul_mod_idemp_r, H1 in E3 by done. vm_compute in E3. discriminate.
Qed.
