(* ===== verification/CurveP256.v ===== *)
(** The P256 curve of ecc_p256.c: point addition and doubling, the four-bit comb
    multiplication with its table, key generation and key validation. *)
From Stdlib Require Import ZArith Lia Bool Zdiv Setoid Morphisms.
From stdpp Require Import base list option.
From S2P Require Import Prelude BigHex FieldP256.

(** ** Data *)
Record ECC_Point256 := mkPoint { px : bigHex256; py : bigHex256 }.
Record ECC_Jacobian_Point256 := mkJac { jx : bigHex256; jy : bigHex256; jz : bigHex256 }.

Definition coef_B : bigHex256 := mkBig
  [0x0000; 0x5ac635d8; 0xaa3a93e7; 0xb3ebbd55; 0x769886bc; 0x651d06b0; 0xcc53b0f6;
   0x3bce3c3e; 0x27d2604b] 8 0.

Definition ecc_Jacobian_InfinityPoint256 : ECC_Jacobian_Point256 :=
  mkJac (mkBig [0; 0; 0; 0; 0; 0; 0; 0; 0] 0 0) (mkBig [0; 0; 0; 0; 0; 0; 0; 0; 1] 1 0)
        (mkBig [0; 0; 0; 0; 0; 0; 0; 0; 0] 0 0).

Definition BasePoint_x_256 : list Z :=
  [0x96; 0xC2; 0x98; 0xD8; 0x45; 0x39; 0xA1; 0xF4; 0xA0; 0x33; 0xEB; 0x2D; 0x81; 0x7D; 0x03; 0x77;
   0xF2; 0x40; 0xA4; 0x63; 0xE5; 0xE6; 0xBC; 0xF8; 0x47; 0x42; 0x2C; 0xE1; 0xF2; 0xD1; 0x17; 0x6B].

Definition BasePoint_y_256 : list Z :=
  [0xF5; 0x51; 0xBF; 0x37; 0x68; 0x40; 0xB6; 0xCB; 0xCE; 0x5E; 0x31; 0x6B; 0x57; 0x33; 0xCE; 0x2B;
   0x16; 0x9E; 0x0F; 0x7C; 0x4A; 0xEB; 0xE7; 0x8E; 0x9B; 0x7F; 0x1A; 0xFE; 0xE2; 0x42; 0xE3; 0x4F].

Definition maxSecretKey_256 : list Z :=
  [0xA8; 0x92; 0x31; 0x7E; 0x61; 0xE5; 0xDC; 0x79; 0x42; 0xCF; 0x8B; 0xD3; 0x56; 0x7D; 0x73; 0xDE;
   0xFF; 0xFF; 0xFF; 0xFF; 0xFF; 0xFF; 0xFF; 0x7F; 0x00; 0x00; 0x00; 0x80; 0xFF; 0xFF; 0xFF; 0x7F].

Definition DebugE256PublicKey_x : list Z :=
  [0xE6; 0x9D; 0x35; 0x0E; 0x48; 0x01; 0x03; 0xCC; 0xDB; 0xFD; 0xF4; 0xAC; 0x11; 0x91; 0xF4; 0xEF;
   0xB9; 0xA5; 0xF9; 0xE9; 0xA7; 0x83; 0x2C; 0x5E; 0x2C; 0xBE; 0x97; 0xF2; 0xD2; 0x03; 0xB0; 0x20].

Definition DebugE256PublicKey_y : list Z :=
  [0x8B; 0xD2; 0x89; 0x15; 0xD0; 0x8E; 0x1C; 0x74; 0x24; 0x30; 0xED; 0x8F; 0xC2; 0x45; 0x63; 0x76;
   0x5C; 0x15; 0x52; 0x5A; 0xBF; 0x9A; 0x32; 0x63; 0x6D; 0xEB; 0x2A; 0x65; 0x49; 0x9C; 0x80; 0xDC].

Definition DebugE256SecretKey : list Z :=
  [0xBD; 0x1A; 0x3C; 0xCD; 0xA6; 0xB8; 0x99; 0x58; 0x99; 0xB7; 0x40; 0xEB; 0x7B; 0x60; 0xFF; 0x4A;
   0x50; 0x3F; 0x10; 0xD2; 0xE3; 0xB3; 0xC9; 0x74; 0x38; 0x5F; 0xC5; 0xA3; 0xD4; 0xF6; 0x49; 0x3F].

Definition ECC_4Win_Look_up_table : list ECC_Jacobian_Point256 :=
 [mkJac (mkBig [0x00000000; 0x6b17d1f2; 0xe12c4247; 0xf8bce6e5; 0x63a440f2; 0x77037d81; 0x2deb33a0; 0xf4a13945; 0xd898c296] 8 0)
    (mkBig [0x00000000; 0x4fe342e2; 0xfe1a7f9b; 0x8ee7eb4a; 0x7c0f9e16; 0x2bce3357; 0x6b315ece; 0xcbb64068; 0x37bf51f5] 8 0)
    (mkBig [0x00000000; 0x00000000; 0x00000000; 0x00000000; 0x00000000; 0x00000000; 0x00000000; 0x00000000; 0x00000001] 1 0);
  mkJac (mkBig [0x00000000; 0x8f228205; 0x98a60fe3; 0xc582a4e4; 0xe495f299; 0x7b48a1de; 0x965059a9; 0x18c3c50b; 0xb251a29d] 8 0)
    (mkBig [0x00000000; 0x468ab3e5; 0x1fcb4722; 0x9871e7e9; 0x5bf28286; 0xcd448ed3; 0xeb0c78ec; 0xd34eac12; 0x1d285bc2] 8 0)
    (mkBig [0x00000000; 0xc297492c; 0x20cce496; 0x6ae2cd2b; 0x58b75e48; 0xffbd5489; 0x95ef960d; 0x41e274dc; 0x1e5b3ed6] 8 0);
  mkJac (mkBig [0x00000000; 0x0bad26fb; 0xd93b1ab7; 0xe8448e98; 0xe098c19f; 0x90e3156a; 0x94ae76e3; 0x56e8bcaa; 0x5d210197] 8 0)
    (mkBig [0x00000000; 0x4a1d6bbe; 0xdf46a06f; 0x7d761828; 0x7a69fd83; 0x346c8ed1; 0xef774189; 0xb0e36138; 0x55bd8d83] 8 0)
    (mkBig [0x00000000; 0x30939029; 0xdb214543; 0x21313957; 0xaec9c854; 0xa4b23170; 0xb0cee4c4; 0x6f2ec46c; 0xdf0d9342] 8 0);
  mkJac (mkBig [0x00000000; 0xe1aa8f71; 0x41bfe1ed; 0x0ab48559; 0x9b5779eb; 0xec8b9353; 0x3c5bde62; 0x423df00d; 0x2b1cb5f2] 8 0)
    (mkBig [0x00000000; 0xd2f122ef; 0x80385047; 0x8290ab2a; 0x627771ec; 0x4eccef63; 0x34a3d343; 0xc0a9f7e6; 0x56103895] 8 0)
    (mkBig [0x00000000; 0x9182b500; 0x3bc1da72; 0xe3be14e0; 0xfb0c2593; 0x330522bd; 0x83326ee2; 0xe2457d8e; 0x6de1783e] 8 0);
  mkJac (mkBig [0x00000000; 0x6a140c55; 0x70ae60a6; 0x1eab131d; 0xf0a7b995; 0x5ca52eee; 0x3a03b007; 0xa6fc97e6; 0x0ddcd000] 8 0)
    (mkBig [0x00000000; 0x32665be0; 0xdea111a9; 0xf1de8948; 0xb01514c3; 0x6e693bab; 0xf68c4db9; 0xed6307a3; 0xe9ec3df5] 8 0)
    (mkBig [0x00000000; 0xc53bb6c4; 0x0c028674; 0xca4dbb66; 0x216624f8; 0x939409db; 0x2e75d7fa; 0x62d4b5e6; 0xa8870ac3] 8 0);
  mkJac (mkBig [0x00000000; 0xcca15363; 0x506327c1; 0xcb6a22b4; 0x5277e102; 0x279482b5; 0xedc0aff9; 0xa43c31e5; 0xee4c7f21] 8 0)
    (mkBig [0x00000000; 0x5f706301; 0x91f1e4f4; 0xa011b402; 0x20423775; 0xf79c950c; 0x421df6a0; 0x03e867c6; 0x4d00c6a6] 8 0)
    (mkBig [0x00000000; 0xd1c592c6; 0xf4fc29af; 0x17c2bd51; 0xf6c8a5ea; 0x99169413; 0xcc8fbce7; 0x8d146d21; 0x31592204] 8 0);
  mkJac (mkBig [0x00000000; 0xf8af31df; 0x7a189edd; 0xb7a3dec5; 0x822322ab; 0x68811a4a; 0xb165dd62; 0x16e93bed; 0xa6327b8f] 8 0)
    (mkBig [0x00000000; 0x4f09a05f; 0xac180f41; 0x62aa8320; 0xe134a671; 0x366e374f; 0xff2a6698; 0x68ee233e; 0x77bf98d2] 8 0)
    (mkBig [0x00000000; 0xc13ed81b; 0xdf7bdf9f; 0x50f3b993; 0x8aed5397; 0x8b06ec6c; 0x01b7c151; 0x11c42b81; 0x3f40f476] 8 0);
  mkJac (mkBig [0x00000000; 0x3d01d0ab; 0xc5953e53; 0xe5d138e3; 0xd692d41a; 0x616f5757; 0x559bc2d9; 0x2888c2bc; 0xc4e2afba] 8 0)
    (mkBig [0x00000000; 0x193f2d8a; 0x1f2eb204; 0x8247f138; 0x028cf01a; 0x45ce2623; 0x6dd5a56f; 0x70743576; 0x8cdfbfbf] 8 0)
    (mkBig [0x00000000; 0x4a03bfe8; 0x5bdb2daa; 0x2679f907; 0x08a92d0d; 0xd6ca8939; 0x7a68fb2d; 0xf14a32d8; 0x08ed7f2f] 8 0);
  mkJac (mkBig [0x00000000; 0x339d3514; 0x3ab7894b; 0x6d62618d; 0x19a5f8d6; 0xbc4cb6e5; 0x2a11ea88; 0xc6bba46d; 0x0ca352d1] 8 0)
    (mkBig [0x00000000; 0xdc93a482; 0xde79b694; 0x5961a59f; 0xde2670e0; 0x4efacd9f; 0xa462ea51; 0x4b7dc4a3; 0xc108c7bb] 8 0)
    (mkBig [0x00000000; 0xce26909e; 0x040d04a8; 0x1f890e57; 0xc1da3605; 0x6fcc9c5b; 0x6e870e7d; 0xdbefc849; 0xc4167fe7] 8 0);
  mkJac (mkBig [0x00000000; 0xfd00adb9; 0xb97301c9; 0xa9cc2bcc; 0x6007da4f; 0x30ec4dbf; 0x31259407; 0xba732617; 0x928f48bb] 8 0)
    (mkBig [0x00000000; 0x880df759; 0x2b7b4d98; 0xb051aed9; 0x3df1dddc; 0x56c93d8f; 0x17148250; 0x867c1c89; 0xc3bfd08b] 8 0)
    (mkBig [0x00000000; 0xfcae15e2; 0xdc42b476; 0xc8c68143; 0xcfcc9446; 0xa73fea01; 0x45370be0; 0x9e1d98cb; 0xe781fd4b] 8 0);
  mkJac (mkBig [0x00000000; 0xd2015a57; 0xf4f6398f; 0xb1e1d191; 0x4a7841e7; 0x463c9536; 0xc59ce39d; 0x41f55168; 0xe5be91e1] 8 0)
    (mkBig [0x00000000; 0x06b9ac4a; 0x0b8a2038; 0xae8645b7; 0x46732630; 0x83f58c9f; 0xdc2715a4; 0x11cd96d4; 0x6ae3edb0] 8 0)
    (mkBig [0x00000000; 0x2a8b67f7; 0xe0526c09; 0x0cea0b00; 0x2ebf997d; 0x85d2d9d6; 0x76007cca; 0x264536cc; 0x109cee08] 8 0);
  mkJac (mkBig [0x00000000; 0xffcb0a9a; 0x7dfe6606; 0xeecf47ad; 0x4c3c4a4e; 0x39a621a3; 0xc310b661; 0x115a0335; 0x6f55f312] 8 0)
    (mkBig [0x00000000; 0xe572e4df; 0x83286cb4; 0x0ddea98c; 0x8958c6b3; 0xaa0751fa; 0xb23793d8; 0x7f73946e; 0xc5ccf9f8] 8 0)
    (mkBig [0x00000000; 0xef20af4e; 0x7295b11e; 0x8f6d3d02; 0x240a3dac; 0x0349cce0; 0xf30b0638; 0x136b84c0; 0x966e7415] 8 0);
  mkJac (mkBig [0x00000000; 0xc94d5b90; 0xb318d9ea; 0x9dd27189; 0x1ae71799; 0xbf5ce7a4; 0xd629696e; 0xa97d5e61; 0x7021cf29] 8 0)
    (mkBig [0x00000000; 0x56f3c6fe; 0xcafa2a29; 0x0159021d; 0x82bd1799; 0xff6974d1; 0x5e49646b; 0x5dea5f0b; 0x32e88933] 8 0)
    (mkBig [0x00000000; 0x1c135301; 0x5f858c20; 0x4d4352f5; 0xc186b6ca; 0x582f44e2; 0xc250446a; 0x49733d20; 0xaadce543] 8 0);
  mkJac (mkBig [0x00000000; 0xbe6e27b3; 0x2cdf8dba; 0xfc1056e5; 0x9f0a28b2; 0x1b69f4ba; 0x15cd8668; 0x702aa678; 0xa2977270] 8 0)
    (mkBig [0x00000000; 0x7f5b3426; 0x7b6a8b10; 0xfbf97ffd; 0xc6fde4b3; 0x4e959e1d; 0xa067b6e1; 0x869c4fbe; 0x272ab43a] 8 0)
    (mkBig [0x00000000; 0xe3892e89; 0xb6d2b79d; 0xb0e0674d; 0x1287752e; 0x66d42cc6; 0xabe0db83; 0x5de74ac4; 0x9c6d041d] 8 0);
  mkJac (mkBig [0x00000000; 0x24366156; 0xcb659023; 0xf21be5dd; 0xa2b9fe84; 0xb402833f; 0x46a7b876; 0xb9488cde; 0x4727a595] 8 0)
    (mkBig [0x00000000; 0xf0fa6956; 0xd8c7af3e; 0xe73bc2d4; 0xec911c8f; 0x37442d40; 0x7daad19c; 0xa47910e1; 0xa5c5e688] 8 0)
    (mkBig [0x00000000; 0x5884f036; 0xbd33a657; 0x6f1f822e; 0x6fb9caa5; 0xfdd2a20e; 0xc14bde4d; 0xe2d3ef31; 0xaf4554fb] 8 0)].

(** ** Point operations *)
Definition GF_Jacobian_Point_Copy256 (s : ECC_Jacobian_Point256) : ECC_Jacobian_Point256 :=
  mkJac (copyBigHex256 (jx s)) (copyBigHex256 (jy s)) (copyBigHex256 (jz s)).

Definition Is_Infinite256 (p : ECC_Jacobian_Point256) : bool :=
  negb (notEqual256 (jx p) (jx ecc_Jacobian_InfinityPoint256)) &&
  negb (notEqual256 (jy p) (jy ecc_Jacobian_InfinityPoint256)) &&
  negb (notEqual256 (jz p) (jz ecc_Jacobian_InfinityPoint256)).

Definition y_is_zero (Y : bigHex256) : bool :=
  (len Y <=? 1) && (num_at Y HIGHEST_INDEX_BIG_HEX256 =? 0).

Definition GF_Jacobian_Point_Double256 (pPointP : ECC_Jacobian_Point256) : ECC_Jacobian_Point256 :=
  let X1 := jx pPointP in
  let Y1 := jy pPointP in
  let Z1 := jz pPointP in
  if y_is_zero Y1 || Is_Infinite256 pPointP then
    GF_Jacobian_Point_Copy256 ecc_Jacobian_InfinityPoint256
  else
    (* W *)
    let X_plus_Z := AddBigHexModP256 X1 Z1 in
    let X_minus_Z := SubtractBigHexMod256 X1 Z1 uninit in
    let W := MultiplyBigHexByUint32_256 (MultiplyBigHexModP256 X_plus_Z X_minus_Z) 0x03 in
    (* S *)
    let S := MultiplyBigHexModP256 Y1 Z1 in
    (* B = X*Y*S *)
    let B := MultiplyBigHexModP256 X1 (MultiplyBigHexModP256 Y1 S) in
    (* H = W^2 - 8*B *)
    let W_sqr := MultiplyBigHexModP256 W W in
    let Eight_B := MultiplyBigHexByUint32_256 B 8 in
    let H := SubtractBigHexMod256 W_sqr Eight_B uninit in
    (* X = 2*H*S *)
    let X3 := MultiplyBigHexByUint32_256 (MultiplyBigHexModP256 H S) 0x02 in
    (* Y' = W*(4*B - H) - 8*Y^2*S^2 *)
    let Y_sqr := MultiplyBigHexModP256 Y1 Y1 in
    let S_sqr := MultiplyBigHexModP256 S S in
    let int2 := MultiplyBigHexByUint32_256 (MultiplyBigHexModP256 Y_sqr S_sqr) 0x08 in
    let int3 := MultiplyBigHexByUint32_256 B 0x04 in
    let int4 := SubtractBigHexMod256 int3 H uninit in
    let int5 := MultiplyBigHexModP256 W int4 in
    let Y3 := SubtractBigHexMod256 int5 int2 uninit in
    (* Z' = 8*S^3 *)
    let Z3 := MultiplyBigHexByUint32_256 (MultiplyBigHexModP256 S_sqr S) 0x08 in
    mkJac X3 Y3 Z3.

(** The general case of the addition, once the special points are out of the way. *)
Definition point_add_general (X1 Y1 Z1 X2 Y2 Z2 jac_U1 jac_U2 jac_V1 jac_V2 : bigHex256)
    : ECC_Jacobian_Point256 :=
  let jac_U := SubtractBigHexMod256 jac_U1 jac_U2 initBigNumber256 in
  let jac_V := SubtractBigHexMod256 jac_V1 jac_V2 initBigNumber256 in
  let jac_W := MultiplyBigHexModP256 Z1 Z2 in
  (* A = U^2*W - V^3 - 2*V^2*V2 *)
  let V_sqr := MultiplyBigHexModP256 jac_V jac_V in
  let V_cube := MultiplyBigHexModP256 V_sqr jac_V in
  let U_sqr := MultiplyBigHexModP256 jac_U jac_U in
  let V_sqr_mult_by_V2 := MultiplyBigHexModP256 V_sqr jac_V2 in
  let Double_V_sqr_mult_by_V2 := MultiplyBigHexByUint32_256 V_sqr_mult_by_V2 0x02 in
  let int3 := MultiplyBigHexModP256 U_sqr jac_W in
  let int4 := SubtractBigHexMod256 int3 V_cube initBigNumber256 in
  let jac_A := SubtractBigHexMod256 int4 Double_V_sqr_mult_by_V2 initBigNumber256 in
  (* X3 = V*A *)
  let X3 := MultiplyBigHexModP256 jac_V jac_A in
  (* Y3 = U*(V^2*V2 - A) - V^3*U2 *)
  let int1 := SubtractBigHexMod256 V_sqr_mult_by_V2 jac_A initBigNumber256 in
  let int2 := MultiplyBigHexModP256 jac_U int1 in
  let int3' := MultiplyBigHexModP256 V_cube jac_U2 in
  let Y3 := SubtractBigHexMod256 int2 int3' initBigNumber256 in
  (* Z3 = V^3*W *)
  let Z3 := MultiplyBigHexModP256 V_cube jac_W in
  mkJac X3 Y3 Z3.

Definition GF_Jacobian_Point_Addition256 (pPointP pPointQ : ECC_Jacobian_Point256)
    : Z * ECC_Jacobian_Point256 :=
  let X1 := jx pPointP in let Y1 := jy pPointP in let Z1 := jz pPointP in
  let X2 := jx pPointQ in let Y2 := jy pPointQ in let Z2 := jz pPointQ in
  let infinity := GF_Jacobian_Point_Copy256 ecc_Jacobian_InfinityPoint256 in
  if Is_Infinite256 pPointP then
    if Is_Infinite256 pPointQ then (0, infinity)
    else (0, GF_Jacobian_Point_Copy256 pPointQ)
  else if Is_Infinite256 pPointQ then (0, GF_Jacobian_Point_Copy256 pPointP)
  else if negb (notEqual256 X2 X1) && notEqual256 Y2 Y1 then (0, infinity)
  else if negb (notEqual256 X2 X1) && y_is_zero Y2 then (0, infinity)
  else
    let jac_U1 := MultiplyBigHexModP256 Y2 Z1 in
    let jac_U2 := MultiplyBigHexModP256 Y1 Z2 in
    let jac_V1 := MultiplyBigHexModP256 X2 Z1 in
    let jac_V2 := MultiplyBigHexModP256 X1 Z2 in
    if negb (notEqual256 jac_V1 jac_V2) then
      if notEqual256 jac_U1 jac_U2 then (0, infinity)
      else (0, GF_Jacobian_Point_Double256 pPointP)
    else (1, point_add_general X1 Y1 Z1 X2 Y2 Z2 jac_U1 jac_U2 jac_V1 jac_V2).

(** [None] when the inversion runs out of fuel. *)
Definition GF_Point_Jacobian_To_Affine256 (p : ECC_Jacobian_Point256) : option (bigHex256 * bigHex256) :=
  match bigHexInversion256 (jz p) with
  | Some inverted_Z_jacobian =>
      Some (MultiplyBigHexModP256 (jx p) inverted_Z_jacobian,
            MultiplyBigHexModP256 (jy p) inverted_Z_jacobian)
  | None => None
  end.

Definition GF_Point_Copy256 (s : ECC_Point256) : ECC_Point256 :=
  mkPoint (copyBigHex256 (px s)) (copyBigHex256 (py s)).

Definition GF_Affine_To_Jacobian_Point_Copy256 (s : ECC_Point256) : ECC_Jacobian_Point256 :=
  mkJac (copyBigHex256 (px s)) (copyBigHex256 (py s)) (big_small 1 1).

Definition GF_Setup_Jacobian_Infinity_Point256 : ECC_Jacobian_Point256 :=
  mkJac (big_small 0 1) (big_small 1 1) (big_small 0 1).

(** ** Scalar multiplication *)
Definition ECC_PUBLICKEY_GENERATION : Z := 0x01.
Definition ECC_DHKEY_GENERATION : Z := 0x02.
Definition ECC_4BIT_TABLE_GENERATION_PT1 : Z := 0x03.
Definition ECC_4BIT_TABLE_GENERATION_PT2 : Z := 0x04.

(** [win_4_table] is [None] for the null pointer. *)
Record ecc_elt_tag := mkElt {
  Point_Mul_Word256 : Z;
  Jacobian_PointQ256 : ECC_Jacobian_Point256;
  Jacobian_PointR256 : ECC_Jacobian_Point256;
  Pk256 : bigHex256;
  bit_cursor : Z;
  key_type : Z;
  win_4_table : option (list ECC_Jacobian_Point256) }.

Definition set_Q (q : ECC_Jacobian_Point256) (e : ecc_elt_tag) : ecc_elt_tag :=
  mkElt (Point_Mul_Word256 e) q (Jacobian_PointR256 e) (Pk256 e) (bit_cursor e) (key_type e) (win_4_table e).
Definition set_R (r : ECC_Jacobian_Point256) (e : ecc_elt_tag) : ecc_elt_tag :=
  mkElt (Point_Mul_Word256 e) (Jacobian_PointQ256 e) r (Pk256 e) (bit_cursor e) (key_type e) (win_4_table e).
Definition set_cursor (c : Z) (e : ecc_elt_tag) : ecc_elt_tag :=
  mkElt (Point_Mul_Word256 e) (Jacobian_PointQ256 e) (Jacobian_PointR256 e) (Pk256 e) (u32 c) (key_type e) (win_4_table e).
Definition set_key_type (k : Z) (e : ecc_elt_tag) : ecc_elt_tag :=
  mkElt (Point_Mul_Word256 e) (Jacobian_PointQ256 e) (Jacobian_PointR256 e) (Pk256 e) (bit_cursor e) k (win_4_table e).
Definition set_word (w : Z) (e : ecc_elt_tag) : ecc_elt_tag :=
  mkElt w (Jacobian_PointQ256 e) (Jacobian_PointR256 e) (Pk256 e) (bit_cursor e) (key_type e) (win_4_table e).

(** Reading and writing the window table: [None] for a null pointer or an index past it. *)
Definition tbl_get (e : ecc_elt_tag) (i : Z) : option ECC_Jacobian_Point256 :=
  t ← win_4_table e; t !! Z.to_nat i.
Definition tbl_set (e : ecc_elt_tag) (i : Z) (p : ECC_Jacobian_Point256) : option ecc_elt_tag :=
  t ← win_4_table e;
  if (Z.to_nat i <? length t)%nat then
    Some (mkElt (Point_Mul_Word256 e) (Jacobian_PointQ256 e) (Jacobian_PointR256 e) (Pk256 e)
            (bit_cursor e) (key_type e) (Some (<[Z.to_nat i := p]> t)))
  else None.

Definition key_bit (Pk : bigHex256) (top i : Z) : Z :=
  Z.land (Z.shiftr (num_at Pk (Z.to_nat ((top - i) / 32 + 1))) (i mod 32)) 0x01.

Definition comb_index (Pk : bigHex256) (i : Z) : Z :=
  u8 (key_bit Pk 255 i + key_bit Pk 191 i * 0x02 + key_bit Pk 127 i * 0x04 + key_bit Pk 63 i * 0x08).

Definition table_add (e : ecc_elt_tag) (i j k next : Z) : option ecc_elt_tag :=
  p ← tbl_get e i;
  q ← tbl_get e j;
  e' ← tbl_set e k (snd (GF_Jacobian_Point_Addition256 p q));
  Some (set_cursor next e').

Definition ecc_point_multiplication_win_256 (e : ecc_elt_tag) : option ecc_elt_tag :=
  let i := bit_cursor e in
  if (key_type e =? ECC_PUBLICKEY_GENERATION) || (key_type e =? ECC_DHKEY_GENERATION) then
    let table := if key_type e =? ECC_PUBLICKEY_GENERATION
                 then Some ECC_4Win_Look_up_table else win_4_table e in
    let IndexVal := comb_index (Pk256 e) i in
    e1 ← (if negb (IndexVal =? 0) then
            t ← table;
            p ← t !! Z.to_nat (IndexVal - 1);
            Some (set_Q (GF_Jacobian_Point_Copy256
              (snd (GF_Jacobian_Point_Addition256 (GF_Jacobian_Point_Copy256 p) (Jacobian_PointQ256 e)))) e)
          else Some e);
    if negb (bit_cursor e1 =? 0) then
      Some (set_cursor (bit_cursor e1 - 1)
        (set_Q (GF_Jacobian_Point_Copy256 (GF_Jacobian_Point_Double256 (Jacobian_PointQ256 e1))) e1))
    else Some (set_word 0 e1)
  else if key_type e =? ECC_4BIT_TABLE_GENERATION_PT1 then
    let e1 := set_R (GF_Jacobian_Point_Copy256 (GF_Jacobian_Point_Double256 (Jacobian_PointR256 e))) e in
    let e2 := set_cursor (bit_cursor e1 + 1) e1 in
    if bit_cursor e2 =? 64 then tbl_set e2 1 (GF_Jacobian_Point_Copy256 (Jacobian_PointR256 e2))
    else if bit_cursor e2 =? 128 then tbl_set e2 3 (GF_Jacobian_Point_Copy256 (Jacobian_PointR256 e2))
    else if bit_cursor e2 =? 192 then
      e3 ← tbl_set e2 7 (GF_Jacobian_Point_Copy256 (Jacobian_PointR256 e2));
      Some (set_cursor 3 (set_key_type ECC_4BIT_TABLE_GENERATION_PT2 e3))
    else Some e2
  else if key_type e =? ECC_4BIT_TABLE_GENERATION_PT2 then
    let c := bit_cursor e in
    if c =? 3 then table_add e 0 1 2 5
    else if c =? 5 then table_add e 0 3 4 6
    else if c =? 6 then table_add e 1 3 5 7
    else if c =? 7 then table_add e 0 5 6 9
    else if (9 <=? c) && (c <=? 15) then
      e1 ← table_add e 7 (c - 9) (c - 1) c;
      if c =? 15 then Some (set_cursor 63 (set_key_type ECC_DHKEY_GENERATION e1))
      else Some (set_cursor (c + 1) e1)
    else Some e
  else Some e.

(** [while(ecc_elt.Point_Mul_Word256 > 0)]. *)
Fixpoint mult_loop (fuel : nat) (e : ecc_elt_tag) : option ecc_elt_tag :=
  if Point_Mul_Word256 e >? 0 then
    match fuel with
    | O => None
    | S f => e' ← ecc_point_multiplication_win_256 e; mult_loop f e'
    end
  else Some e.

(** One comb step per bit position of a 64-bit column. *)
Definition MULT_FUEL : nat := 64.

Definition ecc_is_valid_point (X_coord Y_coord : bigHex256) : bool :=
  let Y_square := MultiplyBigHexModP256 Y_coord Y_coord in
  let X_square := MultiplyBigHexModP256 X_coord X_coord in
  let X_cube := MultiplyBigHexModP256 X_coord X_square in
  let double_X := AddBigHexModP256 X_coord X_coord in
  let tripple_X := AddBigHexModP256 double_X X_coord in
  let interim_result1 := SubtractBigHexMod256 X_cube tripple_X initBigNumber256 in
  let interim_result2 := AddBigHexModP256 interim_result1 coef_B in
  negb (notEqual_loop (num Y_square) (num interim_result2)).

(** ** Keys: 32 bytes, least significant first *)
Definition byte_at (b : list Z) (i : Z) : Z := nth (Z.to_nat i) b 0.

(** The word built from the bytes [i], [i-1], [i-2], [i-3]. *)
Definition key_word (b : list Z) (i : Z) : Z :=
  u32 (Z.land (Z.shiftl (byte_at b i) 24) 0xFF000000 +
       Z.land (Z.shiftl (byte_at b (i - 1)) 16) 0x00FF0000 +
       Z.land (Z.shiftl (byte_at b (i - 2)) 8) 0x0000FF00 +
       Z.land (byte_at b (i - 3)) 0x000000FF).

Definition key_words (b : list Z) : list Z := map (key_word b) [31; 27; 23; 19; 15; 11; 7; 3].

Definition key_number (b : list Z) : bigHex256 := setBigNumberLength256 (mkBig (0 :: key_words b) 0 0).

(** The four bytes [i-3], [i-2], [i-1], [i] of the output for one word. *)
Definition word_bytes (w : Z) : list Z :=
  [Z.land w 0x000000FF; Z.shiftr (Z.land w 0x0000FF00) 8;
   Z.shiftr (Z.land w 0x00FF0000) 16; Z.shiftr (Z.land w 0xFF000000) 24].

(** Words [num[8]] down to [num[1]] fill the bytes 0 to 31. *)
Definition number_key (A : bigHex256) : list Z :=
  concat (map (fun j => word_bytes (num_at A j)) [8; 7; 6; 5; 4; 3; 2; 1]%nat).

Definition ecc_elt_init (PublicKey : ECC_Point256) (PrivateKey : bigHex256) : ecc_elt_tag :=
  mkElt (Z.of_nat ELEMENTS_BIG_HEX256) GF_Setup_Jacobian_Infinity_Point256
    (GF_Jacobian_Point_Copy256 (GF_Affine_To_Jacobian_Point_Copy256 PublicKey))
    (copyBigHex256 PrivateKey) 63 ECC_PUBLICKEY_GENERATION None.

(** The status and, on success, the bytes written to [output]; [None] when a loop runs out
    of fuel or a pointer is out of range. The argument [kt] is not used by the body. *)
Definition ecc_generate_new_key256 (kt : Z) (secret_key public_key_x public_key_y : list Z)
    : option (bt_status * list Z) :=
  let PrivateKey256 := key_number secret_key in
  let PublicKey256 := mkPoint (key_number public_key_x) (key_number public_key_y) in
  if ecc_is_valid_point (px PublicKey256) (py PublicKey256) then
    e ← mult_loop MULT_FUEL (ecc_elt_init PublicKey256 PrivateKey256);
    '(x, y) ← GF_Point_Jacobian_To_Affine256 (Jacobian_PointQ256 e);
    Some (BT_STS_SUCCESS, number_key x ++ number_key y)
  else Some (BT_STS_INVALID_PARM, []).

Definition ecc_gen_new_public_key_256 (secret_key : list Z) : option (bt_status * list Z) :=
  ecc_generate_new_key256 ECC_PUBLICKEY_GENERATION secret_key BasePoint_x_256 BasePoint_y_256.

(** [isValidSecretKey_256]: the scan for a non-zero byte, then the comparison from the most
    significant byte. *)
Fixpoint last_nonzero (n : nat) (b : list Z) : Z :=
  match n with
  | O => -1
  | S n' => if negb (nth n' b 0 =? 0) then Z.of_nat n' else last_nonzero n' b
  end.

Fixpoint key_le_loop (n : nat) (b m : list Z) : bool :=
  match n with
  | O => true
  | S n' =>
      if nth n' b 0 >? nth n' m 0 then false
      else if nth n' b 0 <? nth n' m 0 then true
      else key_le_loop n' b m
  end.

Definition isValidSecretKey_256 (secretKey : list Z) : bool :=
  if (last_nonzero 32 secretKey =? -1) && (nth 0 secretKey 0 =? 0) then false
  else key_le_loop 32 secretKey maxSecretKey_256.

(** Eight calls of the C library's [rand], stored little-endian. [rand n] is the value of the
    [n]-th call, the counter [n] the generator's state. *)
Section Rand.
Variable rand : nat -> Z.

Definition le_bytes32 (w : Z) : list Z :=
  [u8 w; u8 (Z.shiftr w 8); u8 (Z.shiftr w 16); u8 (Z.shiftr w 24)].

Definition draw_key (n : nat) : list Z :=
  concat (map (fun k => le_bytes32 (u32 (rand (n + k)%nat))) [0; 1; 2; 3; 4; 5; 6; 7]%nat).

(** The [do ... while] loop: the key and the generator's new state. *)
Fixpoint secret_key_loop (fuel n : nat) : option (list Z * nat) :=
  match fuel with
  | O => None
  | S f =>
      let key := draw_key n in
      if isValidSecretKey_256 key then Some (key, (n + 8)%nat) else secret_key_loop f (n + 8)%nat
  end.

Definition ecc_gen_new_secret_key_256 (fuel n : nat) (secret_key256 : list Z) (forced : bool)
    : option (list Z * nat) :=
  if forced then Some (secret_key256, n) else secret_key_loop fuel n.
End Rand.

(** [ecc_get_debug_Keys]: secret key, public x, public y. *)
Definition ecc_get_debug_Keys : list Z * list Z * list Z :=
  (DebugE256SecretKey, DebugE256PublicKey_x, DebugE256PublicKey_y).
