(* ===== verification/CurveLaws.v ===== *)
(** The point operations of ecc_p256.c against the group law of the curve: doubling is the
    tangent construction, addition the chord construction, both keep the curve equation; the
    conversion to affine coordinates; the validity test. *)
From Stdlib Require Import ZArith Znumtheory Lia Bool Zdiv Setoid Morphisms.
From stdpp Require Import base list option.
From S2P Require Import Prelude PrimeP256 BigHex FieldP256 CurveP256.

(** ** Congruence modulo the field prime *)
Definition meq (x y : Z) : Prop := x mod P256 = y mod P256.
Declare Scope field_scope.
#[local] Open Scope field_scope.
#[local] Set Warnings "-deprecated".
Infix "==" := meq (at level 70, no associativity) : field_scope.

#[export] Instance meq_equiv : Equivalence meq.
Proof. unfold meq. split; congruence. Qed.

#[export] Instance add_meq : Proper (meq ==> meq ==> meq) Z.add.
Proof. intros x x' Hx y y' Hy. unfold meq in *. by rewrite Zplus_mod, Hx, Hy, <- Zplus_mod. Qed.

#[export] Instance mul_meq : Proper (meq ==> meq ==> meq) Z.mul.
Proof. intros x x' Hx y y' Hy. unfold meq in *. by rewrite Zmult_mod, Hx, Hy, <- Zmult_mod. Qed.

#[export] Instance sub_meq : Proper (meq ==> meq ==> meq) Z.sub.
Proof. intros x x' Hx y y' Hy. unfold meq in *. by rewrite Zminus_mod, Hx, Hy, <- Zminus_mod. Qed.

Lemma meq_mod x : x mod P256 == x.
Proof. unfold meq. apply Zmod_mod. Qed.

Lemma meq_small x y : 0 <= x < P256 -> 0 <= y < P256 -> x == y -> x = y.
Proof. unfold meq. intros Hx Hy H. rewrite !Z.mod_small in H by assumption. assumption. Qed.

Lemma meq_0_divide x : x == 0 <-> (P256 | x).
Proof.
  unfold meq. rewrite Z.mod_0_l by (pose proof P256_pos; lia).
  apply Z.mod_divide. pose proof P256_pos. lia.
Qed.

Lemma meq_sub_0 x y : x == y <-> x - y == 0.
Proof.
  split; intros H.
  - rewrite H. by rewrite Z.sub_diag.
  - replace x with (x - y + y) by ring. rewrite H. by rewrite Z.add_0_l.
Qed.

Lemma P256_prime : prime P256.
Proof. exact prime_P256. Qed.

Lemma meq_mul_0 x y : x * y == 0 -> x == 0 \/ y == 0.
Proof. rewrite !meq_0_divide. apply prime_mult, P256_prime. Qed.

Lemma meq_cancel c x y : ~ c == 0 -> c * x == c * y -> x == y.
Proof.
  intros Hc H. apply meq_sub_0 in H. rewrite <- Z.mul_sub_distr_l in H.
  apply meq_mul_0 in H as [H | H]; [contradiction|]. by apply meq_sub_0.
Qed.

Lemma unit_gcd x : 0 < x < P256 -> Z.gcd x P256 = 1.
Proof.
  intros Hx. apply Zgcd_1_rel_prime, rel_prime_sym, prime_rel_prime; [apply P256_prime|].
  intros H. apply Z.divide_pos_le in H; lia.
Qed.

(** ** The operations on the numbers the arrays denote

    [fmul] is what [MultiplyBigHexModP256] computes, in and out of its faulty window. *)
Definition fadd (x y : Z) : Z := modP (x + y).
Definition fsub (x y : Z) : Z := modP (x - y).
Definition fscale (x n : Z) : Z := modP (x * n).

Definition zpoint : Type := Z * Z * Z.
Definition zinfinity : zpoint := (0, 1, 0).
Definition zinfinite (p : zpoint) : bool := let '(x, y, z) := p in (x =? 0) && (y =? 1) && (z =? 0).

(** The formulas, for any multiplication: with [fmul] they are the code, with the exact
    multiplication [smul] they are the curve's. *)
Section Formulas.
Variable mul : Z -> Z -> Z.

Definition gdouble (p : zpoint) : zpoint :=
  let '(X1, Y1, Z1) := p in
  if (Y1 =? 0) || zinfinite p then zinfinity else
  let W := fscale (mul (fadd X1 Z1) (fsub X1 Z1)) 3 in
  let S := mul Y1 Z1 in
  let B := mul X1 (mul Y1 S) in
  let H := fsub (mul W W) (fscale B 8) in
  let SS := mul S S in
  (fscale (mul H S) 2,
   fsub (mul W (fsub (fscale B 4) H)) (fscale (mul (mul Y1 Y1) SS) 8),
   fscale (mul SS S) 8).

(** The products it forms. *)
Definition gdouble_products (p : zpoint) : list (Z * Z) :=
  let '(X1, Y1, Z1) := p in
  let W := fscale (mul (fadd X1 Z1) (fsub X1 Z1)) 3 in
  let S := mul Y1 Z1 in
  let B := mul X1 (mul Y1 S) in
  let H := fsub (mul W W) (fscale B 8) in
  let SS := mul S S in
  [(fadd X1 Z1, fsub X1 Z1); (Y1, Z1); (Y1, S); (X1, mul Y1 S); (W, W); (S, S); (H, S);
   (W, fsub (fscale B 4) H); (Y1, Y1); (mul Y1 Y1, SS); (SS, S)].

Definition gadd_general (X1 Y1 Z1 X2 Y2 Z2 U1 U2 V1 V2 : Z) : zpoint :=
  let U := fsub U1 U2 in
  let V := fsub V1 V2 in
  let W := mul Z1 Z2 in
  let VV := mul V V in
  let VVV := mul VV V in
  let VV2 := mul VV V2 in
  let A := fsub (fsub (mul (mul U U) W) VVV) (fscale VV2 2) in
  (mul V A, fsub (mul U (fsub VV2 A)) (mul VVV U2), mul VVV W).

Definition gadd (p q : zpoint) : zpoint :=
  let '(X1, Y1, Z1) := p in
  let '(X2, Y2, Z2) := q in
  if zinfinite p then (if zinfinite q then zinfinity else q)
  else if zinfinite q then p
  else if (X2 =? X1) && negb (Y2 =? Y1) then zinfinity
  else if (X2 =? X1) && (Y2 =? 0) then zinfinity
  else
    let U1 := mul Y2 Z1 in
    let U2 := mul Y1 Z2 in
    let V1 := mul X2 Z1 in
    let V2 := mul X1 Z2 in
    if V1 =? V2 then (if negb (U1 =? U2) then zinfinity else gdouble p)
    else gadd_general X1 Y1 Z1 X2 Y2 Z2 U1 U2 V1 V2.

Definition gadd_products (p q : zpoint) : list (Z * Z) :=
  let '(X1, Y1, Z1) := p in
  let '(X2, Y2, Z2) := q in
  let U1 := mul Y2 Z1 in let U2 := mul Y1 Z2 in
  let V1 := mul X2 Z1 in let V2 := mul X1 Z2 in
  let U := fsub U1 U2 in let V := fsub V1 V2 in
  let W := mul Z1 Z2 in let VV := mul V V in let VVV := mul VV V in let VV2 := mul VV V2 in
  let A := fsub (fsub (mul (mul U U) W) VVV) (fscale VV2 2) in
  [(Y2, Z1); (Y1, Z2); (X2, Z1); (X1, Z2); (Z1, Z2); (V, V); (VV, V); (VV, V2); (U, U);
   (mul U U, W); (V, A); (U, fsub VV2 A); (VVV, U2); (VVV, W)].
End Formulas.

Definition zdouble : zpoint -> zpoint := gdouble fmul.
Definition zadd : zpoint -> zpoint -> zpoint := gadd fmul.
Definition double_products : zpoint -> list (Z * Z) := gdouble_products fmul.
Definition add_products : zpoint -> zpoint -> list (Z * Z) := gadd_products fmul.

(** The exact multiplication. *)
Definition smul (x y : Z) : Z := modP (x * y).

Definition pval (p : ECC_Jacobian_Point256) : zpoint := (value (jx p), value (jy p), value (jz p)).

Record fpoint (p : ECC_Jacobian_Point256) : Prop := {
  fp_x : felem (jx p); fp_y : felem (jy p); fp_z : felem (jz p) }.

(** ** Refinement: the array operations compute the number operations *)
Lemma felem_value_range A : felem A -> 0 <= value A < P256.
Proof. intros H. pose proof (wf_value_bound A (felem_wf A H)). pose proof (felem_lt A H). lia. Qed.

Lemma add_ref A B : felem A -> felem B -> felem (AddBigHexModP256 A B) /\ value (AddBigHexModP256 A B) = fadd (value A) (value B).
Proof. unfold fadd. rewrite modP_spec. apply AddBigHexModP256_value. Qed.

Lemma sub_ref A B R : felem A -> felem B -> sign R = 0 \/ sign R = 1 ->
  felem (SubtractBigHexMod256 A B R) /\ value (SubtractBigHexMod256 A B R) = fsub (value A) (value B).
Proof. unfold fsub. rewrite modP_spec. apply SubtractBigHexMod256_value. Qed.

Lemma mul_ref A B : felem A -> felem B -> felem (MultiplyBigHexModP256 A B) /\ value (MultiplyBigHexModP256 A B) = fmul (value A) (value B).
Proof. intros HA HB. apply MultiplyBigHexModP256_value; by apply felem_big256. Qed.

Lemma mul_value A B : felem A -> felem B -> value (MultiplyBigHexModP256 A B) = fmul (value A) (value B).
Proof. apply mul_ref. Qed.

Lemma scale_ref A n : felem A -> is_u 32 n -> felem (MultiplyBigHexByUint32_256 A n) /\ value (MultiplyBigHexByUint32_256 A n) = fscale (value A) n.
Proof. intros HA. unfold fscale. rewrite modP_spec. apply MultiplyBigHexByUint32_256_value. by apply felem_big256. Qed.

(** A checker for literals. *)
Definition is_felem (A : bigHex256) : bool :=
  (length (num A) =? 9)%nat && forallb (fun x => (0 <=? x) && (x <? 2 ^ 32)) (num A) &&
  (value A <? P256) && (len A =? 9 - first_nonzero (num A)) && (sign A =? 0).

Lemma is_felem_true A : is_felem A = true -> felem A.
Proof.
  unfold is_felem. intros H. repeat (apply andb_true_iff in H as [H ?]).
  apply Nat.eqb_eq in H. zbool. constructor; [constructor | |]; try assumption; [|by left].
  apply List.Forall_forall. intros x Hx.
  match goal with HF : forallb _ _ = true |- _ => rewrite List.forallb_forall in HF; apply HF in Hx end.
  zbool. split; assumption.
Qed.

Definition is_fpoint (p : ECC_Jacobian_Point256) : bool :=
  is_felem (jx p) && is_felem (jy p) && is_felem (jz p).

Lemma is_fpoint_true p : is_fpoint p = true -> fpoint p.
Proof.
  unfold is_fpoint. intros H. zbool. constructor; by apply is_felem_true.
Qed.

Lemma infinity_fpoint : fpoint ecc_Jacobian_InfinityPoint256.
Proof. apply is_fpoint_true. vm_compute. reflexivity. Qed.

Lemma copy_id p : GF_Jacobian_Point_Copy256 p = p.
Proof. destruct p. unfold GF_Jacobian_Point_Copy256. by rewrite !copyBigHex256_id. Qed.

Lemma notEqual_ref A B : felem A -> felem B -> notEqual256 A B = negb (value A =? value B).
Proof. intros [HA _ _] [HB _ _]. by apply notEqual256_spec. Qed.

Lemma is_infinite_ref p : fpoint p -> Is_Infinite256 p = zinfinite (pval p).
Proof.
  intros [HX HY HZ]. destruct infinity_fpoint as [IX IY IZ]. unfold Is_Infinite256, zinfinite, pval.
  rewrite !notEqual_ref, !negb_involutive by assumption. reflexivity.
Qed.

Lemma y_is_zero_ref Y : felem Y -> y_is_zero Y = (value Y =? 0).
Proof.
  intros [HW _ _]. unfold y_is_zero. pose proof (wf_len_range Y HW). pose proof (wf_len Y HW) as HL.
  destruct (Z.leb_spec (len Y) 1) as [Hl | Hl]; simpl andb.
  - unfold value. rewrite <- (eval_drop_zeros (num Y) 8) by
      (change (Z.of_nat ELEMENTS_BIG_HEX256) with 9 in HL; lia).
    pose proof (wf_length Y HW) as H9. change ELEMENTS_BIG_HEX256 with 9%nat in H9.
    rewrite (drop_nth _ _ 0), drop_ge by lia. cbn [eval length].
    change (pw 0) with 1. rewrite Z.mul_1_r, Z.add_0_r. reflexivity.
  - symmetry. apply Z.eqb_neq. intros E. apply (wf_len_zero Y HW) in E. lia.
Qed.

(** An array and the number it denotes: the shape the refinement proofs recurse on. *)
Definition ref (A : bigHex256) (x : Z) : Prop := felem A /\ value A = x.

Create HintDb curve_ref.

Lemma ref_self A : felem A -> ref A (value A).
Proof. done. Qed.

Lemma ref_add A B x y : ref A x -> ref B y -> ref (AddBigHexModP256 A B) (fadd x y).
Proof. intros [HA <-] [HB <-]. by apply add_ref. Qed.

Lemma ref_sub A B R x y :
  ref A x -> ref B y -> sign R = 0 \/ sign R = 1 -> ref (SubtractBigHexMod256 A B R) (fsub x y).
Proof. intros [HA <-] [HB <-]. by apply sub_ref. Qed.

Lemma ref_mul A B x y : ref A x -> ref B y -> ref (MultiplyBigHexModP256 A B) (fmul x y).
Proof. intros [HA <-] [HB <-]. by apply mul_ref. Qed.

Lemma ref_scale A n x : ref A x -> is_u 32 n -> ref (MultiplyBigHexByUint32_256 A n) (fscale x n).
Proof. intros [HA <-]. by apply scale_ref. Qed.

#[export] Hint Resolve ref_self ref_add ref_sub ref_mul ref_scale : curve_ref.

Ltac ref_tree := repeat first
  [ assumption | simple apply ref_mul | simple apply ref_scale | simple apply ref_sub
  | simple apply ref_add | by left | (unfold is_u; split; [discriminate | reflexivity]) ].

Definition pref (p : ECC_Jacobian_Point256) (z : zpoint) : Prop := fpoint p /\ pval p = z.

Lemma pref_mk A B C x y z : ref A x -> ref B y -> ref C z -> pref (mkJac A B C) (x, y, z).
Proof. intros [HA <-] [HB <-] [HC <-]. by split; [constructor|]. Qed.

Lemma pref_infinity : pref ecc_Jacobian_InfinityPoint256 zinfinity.
Proof. split; [apply infinity_fpoint | reflexivity]. Qed.

Lemma double_pref p z : pref p z -> pref (GF_Jacobian_Point_Double256 p) (zdouble z).
Proof.
  intros [HP <-]. pose proof HP as [HX HY HZ]. unfold GF_Jacobian_Point_Double256. cbv zeta.
  rewrite y_is_zero_ref, is_infinite_ref by assumption.
  unfold zdouble, gdouble, pval at 2. fold (pval p). destruct ((value (jy p) =? 0) || zinfinite (pval p)).
  { rewrite copy_id. apply pref_infinity. }
  apply ref_self in HX, HY, HZ. apply pref_mk; ref_tree.
Qed.

Lemma add_general_pref X1 Y1 Z1 X2 Y2 Z2 U1 U2 V1 V2 x1 y1 z1 x2 y2 z2 u1 u2 v1 v2 :
  ref X1 x1 -> ref Y1 y1 -> ref Z1 z1 -> ref X2 x2 -> ref Y2 y2 -> ref Z2 z2 ->
  ref U1 u1 -> ref U2 u2 -> ref V1 v1 -> ref V2 v2 ->
  pref (point_add_general X1 Y1 Z1 X2 Y2 Z2 U1 U2 V1 V2) (gadd_general fmul x1 y1 z1 x2 y2 z2 u1 u2 v1 v2).
Proof. intros. unfold point_add_general, gadd_general. cbv zeta. apply pref_mk; ref_tree. Qed.

Lemma addition_pref p q z w :
  pref p z -> pref q w -> pref (snd (GF_Jacobian_Point_Addition256 p q)) (zadd z w).
Proof.
  intros [HP <-] [HQ <-]. pose proof HP as [HX1 HY1 HZ1]. pose proof HQ as [HX2 HY2 HZ2].
  pose proof pref_infinity as HI. unfold GF_Jacobian_Point_Addition256. cbv zeta. rewrite !copy_id.
  rewrite !is_infinite_ref, y_is_zero_ref, !notEqual_ref, !negb_involutive
    by (assumption || (by apply mul_ref)).
  unfold zadd, gadd, pval. fold (pval p). fold (pval q).
  destruct (zinfinite (pval p)); [destruct (zinfinite (pval q)); [exact HI | by split]|].
  destruct (zinfinite (pval q)); [by split|].
  destruct ((value (jx q) =? value (jx p)) && negb (value (jy q) =? value (jy p))); [exact HI|].
  destruct ((value (jx q) =? value (jx p)) && (value (jy q) =? 0)); [exact HI|]. cbv zeta.
  rewrite !mul_value by assumption.
  destruct (_ =? _); [destruct (negb _); [exact HI | by apply double_pref]|].
  apply ref_self in HX1, HY1, HZ1, HX2, HY2, HZ2. apply add_general_pref; ref_tree.
Qed.

(** ** The group law in affine coordinates *)
Inductive point := Inf | Pt (x y : Z).

(** The sum of two points by the chord and tangent rules, up to congruence. *)
Inductive ec_add : point -> point -> point -> Prop :=
| ec_inf_l Q : ec_add Inf Q Q
| ec_inf_r P : ec_add P Inf P
| ec_chord x1 y1 x2 y2 l :
    ~ x1 == x2 -> l * (x1 - x2) == y1 - y2 ->
    ec_add (Pt x1 y1) (Pt x2 y2) (Pt (l * l - x1 - x2) (l * (x1 - (l * l - x1 - x2)) - y1))
| ec_tangent x1 y1 x2 y2 l :
    x1 == x2 -> y1 == y2 -> ~ y1 == 0 -> l * (2 * y1) == 3 * x1 * x1 - 3 ->
    ec_add (Pt x1 y1) (Pt x2 y2) (Pt (l * l - 2 * x1) (l * (x1 - (l * l - 2 * x1)) - y1))
| ec_opposite x1 y1 x2 y2 :
    x1 == x2 -> ~ y1 == y2 \/ y1 == 0 -> ec_add (Pt x1 y1) (Pt x2 y2) Inf.

(** [y^2 = x^3 - 3x + b]. *)
Definition on_curve (P : point) : Prop :=
  match P with Inf => True | Pt x y => y * y == x * x * x - 3 * x + value coef_B end.

(** A triple of the code stands for a point: [(0, 1, 0)] for infinity, else [(xZ, yZ, Z)]. *)
Definition denotes (p : zpoint) (P : point) : Prop :=
  match P with
  | Inf => p = zinfinity
  | Pt x y => let '(X, Y, Z) := p in
      (0 <= X < P256 /\ 0 <= Y < P256 /\ 0 <= Z < P256) /\ ~ Z == 0 /\ X == x * Z /\ Y == y * Z
  end.

(** The products a computation forms, and that none falls in the window where
    [MultiplyBigHexModP256] is wrong. *)
Definition regular (l : list (Z * Z)) : bool := forallb (fun '(x, y) => negb (mul_window x y)) l.

Lemma fadd_meq x y : fadd x y == x + y.
Proof. unfold fadd. rewrite modP_spec. apply meq_mod. Qed.
Lemma fsub_meq x y : fsub x y == x - y.
Proof. unfold fsub. rewrite modP_spec. apply meq_mod. Qed.
Lemma fscale_meq x n : fscale x n == x * n.
Proof. unfold fscale. rewrite modP_spec. apply meq_mod. Qed.
Lemma smul_meq x y : smul x y == x * y.
Proof. unfold smul. rewrite modP_spec. apply meq_mod. Qed.

(** A multiplication is exact on the products of a computation. *)
Definition exact_on (mul : Z -> Z -> Z) (l : list (Z * Z)) : Prop :=
  forall x y, In (x, y) l -> mul x y = (x * y) mod P256.

Lemma regular_exact l : regular l = true -> exact_on fmul l.
Proof.
  intros Hr x y Hin. unfold regular in Hr. rewrite List.forallb_forall in Hr. apply Hr in Hin.
  apply negb_true_iff in Hin. by apply fmul_regular.
Qed.

Lemma smul_exact l : exact_on smul l.
Proof. intros x y _. apply modP_spec. Qed.

Lemma exact_meq mul l x y : exact_on mul l -> In (x, y) l -> mul x y == x * y.
Proof. intros H Hin. rewrite (H x y Hin). apply meq_mod. Qed.

Lemma meq_pow3_nonzero x : ~ x == 0 -> ~ x * x * x == 0.
Proof. intros H E. apply meq_mul_0 in E as [E | E]; [apply meq_mul_0 in E as [E | E]|]; contradiction. Qed.

Lemma mod_range x : 0 <= x mod P256 < P256.
Proof. apply Z.mod_pos_bound, P256_pos. Qed.

Lemma fmul_range x y : 0 <= fmul x y < P256.
Proof. rewrite fmul_eq. destruct (mul_window x y); apply mod_range. Qed.

Lemma modP_range x : 0 <= modP x < P256.
Proof. rewrite modP_spec. apply mod_range. Qed.
Lemma fadd_range x y : 0 <= fadd x y < P256.
Proof. apply modP_range. Qed.
Lemma fsub_range x y : 0 <= fsub x y < P256.
Proof. apply modP_range. Qed.
Lemma fscale_range x y : 0 <= fscale x y < P256.
Proof. apply modP_range. Qed.

Lemma denotes_not_infinite X Y Z x y : denotes (X, Y, Z) (Pt x y) -> zinfinite (X, Y, Z) = false.
Proof.
  intros (_ & HZ & _). unfold zinfinite. destruct (Z.eqb_spec Z 0) as [-> |]; [|by rewrite !andb_false_r].
  destruct HZ. reflexivity.
Qed.

Lemma denotes_y_zero X Y Z x y : denotes (X, Y, Z) (Pt x y) -> Y = 0 <-> y == 0.
Proof.
  intros ((_ & HY & _) & HZ & _ & Hy). split; intros E.
  - rewrite E in Hy. symmetry in Hy. apply meq_mul_0 in Hy as [|]; [assumption | contradiction].
  - apply meq_small; [assumption | pose proof P256_pos; lia |]. rewrite Hy, E. reflexivity.
Qed.

Lemma eight_nonzero : ~ 8 == 0.
Proof. unfold meq. rewrite P256_eq. vm_compute. discriminate. Qed.

(** Congruences that are polynomial identities. *)
Ltac mring := match goal with |- ?a == ?b => replace a with b by ring; reflexivity end.

Ltac products H := eapply (exact_meq _ _ _ _ H); simpl; tauto.

#[global] Opaque modP fadd fsub fscale.

Section Laws.
Variable mul : Z -> Z -> Z.
Hypothesis mul_range : forall x y, 0 <= mul x y < P256.

Lemma gdouble_tangent X Y Z x y l :
denotes (X, Y, Z) (Pt x y) -> ~ y == 0 -> l * (2 * y) == 3 * x * x - 3 ->
exact_on mul (gdouble_products mul (X, Y, Z)) ->
denotes (gdouble mul (X, Y, Z)) (Pt (l * l - 2 * x) (l * (x - (l * l - 2 * x)) - y)).
Proof.
intros HD Hy Hl Hr. pose proof (denotes_not_infinite _ _ _ _ _ HD) as Hinf.
pose proof (denotes_y_zero _ _ _ _ _ HD) as HY0. destruct HD as (_ & HZ & HX & HY).
unfold gdouble. rewrite Hinf. destruct (Z.eqb_spec Y 0) as [E | _]; [tauto|]. simpl orb. cbv iota zeta.
unfold gdouble_products in Hr. cbv zeta in Hr.
set (S := mul Y Z) in *. set (YS := mul Y S) in *. set (B := mul X YS) in *.
set (D := mul (fadd X Z) (fsub X Z)) in *. set (W := fscale D 3) in *.
set (H := fsub (mul W W) (fscale B 8)) in *. set (SS := mul S S) in *.
set (YY := mul Y Y) in *. set (I := fsub (fscale B 4) H) in *.
assert (ES : S == Y * Z) by products Hr.
assert (EYS : YS == Y * S) by products Hr.
assert (EB : B == X * YS) by products Hr.
assert (ED : D == fadd X Z * fsub X Z) by products Hr.
assert (EWW : mul W W == W * W) by products Hr.
assert (ESS : SS == S * S) by products Hr.
assert (EHS : mul H S == H * S) by products Hr.
assert (EWI : mul W I == W * I) by products Hr.
assert (EYY : YY == Y * Y) by products Hr.
assert (EYS2 : mul YY SS == YY * SS) by products Hr.
assert (ES3 : mul SS S == SS * S) by products Hr.
rewrite fadd_meq, fsub_meq in ED.
assert (EW : W == l * (2 * y) * (Z * Z)).
{ unfold W. rewrite fscale_meq, ED, HX, Hl. mring. }
assert (ES' : S == y * (Z * Z)) by (rewrite ES, HY; mring).
assert (EB' : B == x * y * y * (Z * Z * Z * Z)) by (rewrite EB, EYS, ES', HX, HY; mring).
assert (EH : H == 4 * y * y * (Z * Z * Z * Z) * (l * l - 2 * x)).
{ unfold H. rewrite fsub_meq, fscale_meq, EWW, EW, EB'. mring. }
assert (EI : I == 4 * B - H) by (unfold I; rewrite fsub_meq, fscale_meq; mring).
assert (EZ3 : fscale (mul SS S) 8 == 8 * ((y * (Z * Z)) * (y * (Z * Z)) * (y * (Z * Z)))).
{ rewrite fscale_meq, ES3, ESS, ES'. mring. }
split; [repeat split; (apply fscale_range || apply fsub_range)|]. split; [|split].
- rewrite EZ3. intros E. apply meq_mul_0 in E as [E | E]; [by apply eight_nonzero|].
  apply meq_pow3_nonzero in E; [assumption|]. intros E'.
  apply meq_mul_0 in E' as [E' | E']; [contradiction|]. apply meq_mul_0 in E' as [|]; contradiction.
- rewrite EZ3, fscale_meq, EHS, EH, ES'. mring.
- rewrite EZ3, fsub_meq, fscale_meq, EWI, EYS2, EYY, ESS, EI, EB', EH, EW, ES', HY. mring.
Qed.

Lemma gadd_chord X1 Y1 Z1 X2 Y2 Z2 x1 y1 x2 y2 l :
denotes (X1, Y1, Z1) (Pt x1 y1) -> denotes (X2, Y2, Z2) (Pt x2 y2) ->
~ x1 == x2 -> l * (x1 - x2) == y1 - y2 ->
exact_on mul (gadd_products mul (X1, Y1, Z1) (X2, Y2, Z2)) ->
denotes (gadd_general mul X1 Y1 Z1 X2 Y2 Z2 (mul Y2 Z1) (mul Y1 Z2) (mul X2 Z1) (mul X1 Z2))
  (Pt (l * l - x1 - x2) (l * (x1 - (l * l - x1 - x2)) - y1)).
Proof.
intros (_ & HZ1 & HX1 & HY1) (_ & HZ2 & HX2 & HY2) Hx Hl Hr.
unfold gadd_general. cbv zeta. unfold gadd_products in Hr. cbv zeta in Hr.
set (U1 := mul Y2 Z1) in *. set (U2 := mul Y1 Z2) in *.
set (V1 := mul X2 Z1) in *. set (V2 := mul X1 Z2) in *.
set (U := fsub U1 U2) in *. set (V := fsub V1 V2) in *. set (W := mul Z1 Z2) in *.
set (VV := mul V V) in *. set (VVV := mul VV V) in *. set (VV2 := mul VV V2) in *.
set (UU := mul U U) in *. set (UUW := mul UU W) in *.
set (A := fsub (fsub UUW VVV) (fscale VV2 2)) in *. set (I := fsub VV2 A) in *.
assert (EU1 : U1 == Y2 * Z1) by products Hr.
assert (EU2 : U2 == Y1 * Z2) by products Hr.
assert (EV1 : V1 == X2 * Z1) by products Hr.
assert (EV2 : V2 == X1 * Z2) by products Hr.
assert (EW : W == Z1 * Z2) by products Hr.
assert (EVV : VV == V * V) by products Hr.
assert (EVVV : VVV == VV * V) by products Hr.
assert (EVV2 : VV2 == VV * V2) by products Hr.
assert (EUU : UU == U * U) by products Hr.
assert (EUUW : UUW == UU * W) by products Hr.
assert (EVA : mul V A == V * A) by products Hr.
assert (EUI : mul U I == U * I) by products Hr.
assert (EVU : mul VVV U2 == VVV * U2) by products Hr.
assert (EVW : mul VVV W == VVV * W) by products Hr.
assert (EV : V == (x2 - x1) * W).
{ unfold V. rewrite fsub_meq, EV1, EV2, EW, HX1, HX2. mring. }
assert (EU : U == l * (x2 - x1) * W).
{ unfold U. rewrite fsub_meq, EU1, EU2, EW, HY1, HY2.
  replace (l * (x2 - x1)) with (0 - l * (x1 - x2)) by ring. rewrite Hl. mring. }
assert (EV2' : V2 == x1 * W) by (rewrite EV2, EW, HX1; mring).
assert (EU2' : U2 == y1 * W) by (rewrite EU2, EW, HY1; mring).
assert (EVV' : VV == (x2 - x1) * (x2 - x1) * (W * W)) by (rewrite EVV, EV; mring).
assert (EA : A == (x2 - x1) * (x2 - x1) * (W * W * W) * (l * l - x1 - x2)).
{ unfold A. rewrite !fsub_meq, fscale_meq, EUUW, EUU, EVVV, EVV2, EVV', EU, EV, EV2'. mring. }
assert (EI : I == (x2 - x1) * (x2 - x1) * (W * W * W) * (x1 - (l * l - x1 - x2))).
{ unfold I. rewrite fsub_meq, EVV2, EA, EVV', EV2'. mring. }
assert (EZ3 : mul VVV W == ((x2 - x1) * (x2 - x1) * (x2 - x1)) * (W * W * W) * W).
{ rewrite EVW, EVVV, EVV', EV. mring. }
assert (HW : ~ W == 0) by (rewrite EW; intros E; apply meq_mul_0 in E as [|]; contradiction).
assert (Hd : ~ x2 - x1 == 0) by (intros E; apply meq_sub_0 in E; symmetry in E; contradiction).
split; [repeat split; (apply mul_range || apply fsub_range)|]. split; [|split].
- rewrite EZ3. intros E. apply meq_mul_0 in E as [E | E]; [|contradiction].
  apply meq_mul_0 in E as [E | E]; apply meq_pow3_nonzero in E; assumption.
- rewrite EZ3, EVA, EV, EA. mring.
- rewrite EZ3, fsub_meq, EUI, EVU, EU, EI, EVVV, EVV', EV, EU2'. mring.
Qed.

(** The cross products compared by the addition decide the affine comparison. *)
Lemma cross_eq a1 a2 Z1 Z2 A1 A2 :
~ Z1 == 0 -> ~ Z2 == 0 -> A1 == a1 * Z1 -> A2 == a2 * Z2 ->
mul A2 Z1 = (A2 * Z1) mod P256 -> mul A1 Z2 = (A1 * Z2) mod P256 ->
mul A2 Z1 = mul A1 Z2 <-> a1 == a2.
Proof.
intros HZ1 HZ2 H1 H2 Hw1 Hw2. rewrite Hw1, Hw2.
fold (meq (A2 * Z1) (A1 * Z2)). rewrite H1, H2.
assert (HZ : ~ Z1 * Z2 == 0) by (intros E; apply meq_mul_0 in E as [|]; contradiction).
split; intros H.
- symmetry. apply (meq_cancel (Z1 * Z2)); [assumption|].
  transitivity (a2 * Z2 * Z1); [mring|]. rewrite H. mring.
- rewrite H. mring.
Qed.

(** The code compares the first numbers of the triples as they are; that is a comparison of
  points only when equal first numbers come with equal third ones. *)
Definition same_X_same_Z (p q : zpoint) : Prop :=
let '(X1, _, Z1) := p in let '(X2, _, Z2) := q in X1 = X2 -> Z1 = Z2.

Lemma inverse_exists x : ~ x == 0 -> exists i, i * x == 1.
Proof.
intros Hx. exists (x ^ (P256 - 2)). unfold meq.
rewrite <- (Z.pow_1_r x) at 2. rewrite <- Z.pow_add_r by (try rewrite P256_eq; lia).
replace (P256 - 2 + 1) with (P256 - 1) by lia. rewrite fermat_Z.
- reflexivity.
- apply P256_prime.
- rewrite <- meq_0_divide. assumption.
Qed.

Lemma slope_exists a b : ~ a == 0 -> exists l, l * a == b.
Proof.
intros Ha. destruct (inverse_exists a Ha) as [i Hi]. exists (b * i).
rewrite <- Z.mul_assoc, Hi. mring.
Qed.

(** Doubling is the addition of the curve at two equal points. *)
Lemma gdouble_ec_add X Y Z x y x' y' :
denotes (X, Y, Z) (Pt x y) -> x == x' -> y == y' -> exact_on mul (gdouble_products mul (X, Y, Z)) ->
exists R, ec_add (Pt x y) (Pt x' y') R /\ denotes (gdouble mul (X, Y, Z)) R.
Proof.
intros HD Hx Hy Hr. pose proof (denotes_y_zero _ _ _ _ _ HD) as HY.
destruct (Z.eq_dec Y 0) as [E | E].
- exists Inf. split; [apply ec_opposite; [assumption | right; tauto]|].
  unfold gdouble. rewrite E. reflexivity.
- assert (Hy0 : ~ y == 0) by tauto.
  destruct (slope_exists (2 * y) (3 * x * x - 3)) as [l Hl].
  { intros H. apply meq_mul_0 in H as [H | H]; [|contradiction]. revert H. unfold meq.
    rewrite P256_eq. vm_compute. discriminate. }
  exists (Pt (l * l - 2 * x) (l * (x - (l * l - 2 * x)) - y)). split; [by apply ec_tangent|].
  by apply gdouble_tangent.
Qed.

(** The addition of the code is the addition of the curve. *)
Lemma gadd_ec_add p q P Q :
denotes p P -> denotes q Q -> exact_on mul (gadd_products mul p q) -> exact_on mul (gdouble_products mul p) -> same_X_same_Z p q ->
exists R, ec_add P Q R /\ denotes (gadd mul p q) R.
Proof.
destruct p as [[X1 Y1] Z1], q as [[X2 Y2] Z2]. intros HP HQ Hra Hrd HS.
destruct P as [|x1 y1].
{ unfold denotes in HP. rewrite HP. exists Q. split; [constructor|]. unfold gadd, zinfinity at 1.
  change (zinfinite (0, 1, 0)) with true. cbv iota.
  destruct Q as [|x2 y2]; [unfold denotes in HQ; by rewrite HQ|].
  by rewrite (denotes_not_infinite _ _ _ _ _ HQ). }
destruct Q as [|x2 y2].
{ unfold denotes in HQ. rewrite HQ. exists (Pt x1 y1). split; [constructor|].
  unfold gadd, zinfinity. by rewrite (denotes_not_infinite _ _ _ _ _ HP). }
unfold gadd. rewrite (denotes_not_infinite _ _ _ _ _ HP), (denotes_not_infinite _ _ _ _ _ HQ).
pose proof (denotes_y_zero _ _ _ _ _ HP) as Hy1. pose proof (denotes_y_zero _ _ _ _ _ HQ) as Hy2.
pose proof HP as ((RX1 & RY1 & RZ1) & HZ1 & HX1 & HY1). pose proof HQ as ((RX2 & RY2 & RZ2) & HZ2 & HX2 & HY2).
assert (HV : mul X2 Z1 = mul X1 Z2 <-> x1 == x2)
  by (apply cross_eq; try assumption; apply Hra; simpl; tauto).
assert (HU : mul Y2 Z1 = mul Y1 Z2 <-> y1 == y2)
  by (apply cross_eq; try assumption; apply Hra; simpl; tauto).
cbv zeta. unfold same_X_same_Z in HS.
destruct (Z.eqb_spec X2 X1) as [HXX | HXX]; simpl andb; cbv iota.
- specialize (HS (eq_sym HXX)). subst X2 Z2.
  assert (Hx : x1 == x2).
  { apply (meq_cancel Z1); [assumption|]. rewrite (Z.mul_comm _ x1), (Z.mul_comm _ x2), <- HX1. assumption. }
  destruct (Z.eqb_spec Y2 Y1) as [HYY | HYY]; simpl negb; cbv iota.
  + destruct (Z.eqb_spec Y2 0) as [HY20 | HY20].
    { exists Inf. split; [|reflexivity]. apply ec_opposite; [assumption | right; apply Hy1; congruence]. }
    subst Y2. rewrite !Z.eqb_refl. simpl negb. cbv iota.
    apply gdouble_ec_add; try assumption. by apply HU.
  + exists Inf. split; [|reflexivity]. apply ec_opposite; [assumption|]. left. intros E. apply HYY.
    apply meq_small; [assumption..|]. by rewrite HY1, HY2, E.
- destruct (Z.eqb_spec (mul X2 Z1) (mul X1 Z2)) as [EV | EV].
  + apply HV in EV. destruct (Z.eqb_spec (mul Y2 Z1) (mul Y1 Z2)) as [EU | EU]; simpl negb; cbv iota.
    * apply HU in EU. by apply gdouble_ec_add.
    * exists Inf. split; [|reflexivity]. apply ec_opposite; [assumption | left; tauto].
  + assert (Hx : ~ x1 == x2) by tauto.
    destruct (slope_exists (x1 - x2) (y1 - y2)) as [l Hl].
    { intros E. apply Hx. by apply meq_sub_0. }
    exists (Pt (l * l - x1 - x2) (l * (x1 - (l * l - x1 - x2)) - y1)). split; [by apply ec_chord|].
    by apply (gadd_chord _ _ _ _ _ _ x1 y1 x2 y2).
Qed.

End Laws.

Definition double_ok (p : zpoint) : bool := regular (double_products p).
Definition add_regular (p q : zpoint) : bool := regular (add_products p q) && double_ok p.

Lemma zdouble_ec_add X Y Z x y x' y' :
  denotes (X, Y, Z) (Pt x y) -> x == x' -> y == y' -> double_ok (X, Y, Z) = true ->
  exists R, ec_add (Pt x y) (Pt x' y') R /\ denotes (zdouble (X, Y, Z)) R.
Proof. intros HD Hx Hy Hr. apply gdouble_ec_add; try assumption. by apply regular_exact. Qed.

Lemma zadd_ec_add p q P Q :
  denotes p P -> denotes q Q -> add_regular p q = true -> same_X_same_Z p q ->
  exists R, ec_add P Q R /\ denotes (zadd p q) R.
Proof.
  intros HP HQ Hr HS. unfold add_regular in Hr. zbool.
  apply gadd_ec_add; try assumption; [apply fmul_range | by apply regular_exact | by apply regular_exact].
Qed.

(** ** The sum of two points of the curve is on the curve *)
Definition residue (l x0 y0 x : Z) : Z :=
  x * x * x - 3 * x + value coef_B - (l * (x - x0) + y0) * (l * (x - x0) + y0).

Lemma residue_base l x y : on_curve (Pt x y) -> residue l x y x == 0.
Proof.
  unfold on_curve, residue. intros H. replace (l * (x - x) + y) with y by ring. rewrite H. mring.
Qed.

Lemma residue_zero_on_curve l x0 y0 x : residue l x0 y0 x == 0 -> on_curve (Pt x (l * (x0 - x) - y0)).
Proof.
  unfold on_curve, residue. intros H. apply meq_sub_0 in H. rewrite H. mring.
Qed.

Lemma ec_add_on_curve P Q R : ec_add P Q R -> on_curve P -> on_curve Q -> on_curve R.
Proof.
  intros H HP HQ. destruct H as [ | | x1 y1 x2 y2 l Hx Hl | x1 y1 x2 y2 l Hx Hy Hy0 Hl | ]; try assumption.
  - set (x3 := l * l - x1 - x2). apply residue_zero_on_curve, (meq_cancel (x1 - x2)).
    { intros E. apply Hx. by apply meq_sub_0. }
    transitivity ((x3 - x2) * residue l x1 y1 x1 - (x3 - x1) * residue l x1 y1 x2).
    { unfold residue, x3. mring. }
    assert (E2 : residue l x1 y1 x2 == 0).
    { rewrite <- (residue_base 0 x2 y2 HQ). unfold residue.
      replace (l * (x2 - x1) + y1) with (y1 - l * (x1 - x2)) by ring. rewrite Hl. mring. }
    rewrite E2, (residue_base l x1 y1 HP). mring.
  - set (x3 := l * l - 2 * x1). apply residue_zero_on_curve.
    transitivity (residue l x1 y1 x1 + (3 * x1 * x1 - 3 - l * (2 * y1)) * (x3 - x1)).
    { unfold residue, x3. mring. }
    rewrite Hl, (residue_base l x1 y1 HP). mring.
  - exact I.
Qed.
