(* ===== verification/CurveMult.v ===== *)
(** The four-bit comb multiplication of ecc_p256.c: the digit recoding, termination of the loop,
    its refinement to the numbers, and that the result is the key's multiple of the base point. *)
From Stdlib Require Import ZArith Znumtheory Lia Bool Zdiv Setoid Morphisms.
From stdpp Require Import base list option.
From S2P Require Import Prelude BigHex FieldP256 CurveP256 CurveLaws.
#[local] Open Scope field_scope.

(** ** The comb digit: bit [j] of the digit at [i] is bit [i + 64 j] of the key *)
Lemma nth_value_bit l k r :
  words l -> (k < length l)%nat -> 0 <= r < 32 ->
  Z.testbit (eval l) (32 * Z.of_nat (length l - 1 - k) + r) = Z.testbit (nth k l 0) r.
Proof.
  intros Hw Hk Hr. set (m := (length l - 1 - k)%nat).
  assert (Hl : eval l = (eval (take k l) * base + nth k l 0) * pw m + eval (drop (S k) l)).
  { rewrite <- (take_drop k l) at 1. rewrite (drop_nth _ _ 0), eval_app by lia. cbn [length eval].
    rewrite length_drop. replace (length l - S k)%nat with m by (unfold m; lia). rewrite pw_S. ring. }
  pose proof (eval_bound (drop (S k) l) (words_drop _ _ Hw)) as Hd. rewrite length_drop in Hd.
  replace (length l - S k)%nat with m in Hd by (unfold m; lia).
  apply Z.b2z_inj. rewrite !Z.testbit_spec' by lia. rewrite Z.pow_add_r by lia.
  assert (Epw : 2 ^ (32 * Z.of_nat m) = pw m) by (unfold pw, base; rewrite <- Z.pow_mul_r by lia; done).
  rewrite Epw, <- Z.div_div by (pose proof (pw_pos m); lia || apply Z.pow_pos_nonneg; lia).
  rewrite Hl, Z.div_add_l, (Z.div_small (eval _)), Z.add_0_r by (pose proof (pw_pos m); lia).
  replace (eval (take k l) * base) with (eval (take k l) * 2 ^ (32 - r - 1) * 2 * 2 ^ r).
  - rewrite Z.div_add_l by (apply Z.pow_nonzero; lia). rewrite Z.add_comm. apply Z_mod_plus_full.
  - unfold base. replace 32 with ((32 - r - 1) + 1 + r) at 2 by lia. rewrite !Z.pow_add_r by lia.
    change (2 ^ 1) with 2. ring.
Qed.

Lemma key_bit_index j i :
  0 <= j <= 3 -> 0 <= i < 64 ->
  (Z.to_nat ((255 - 64 * j - i) / 32 + 1) < 9)%nat /\
  32 * Z.of_nat (9 - 1 - Z.to_nat ((255 - 64 * j - i) / 32 + 1)) + i mod 32 = i + 64 * j.
Proof. intros Hj Hi. Z.div_mod_to_equations. lia. Qed.

Lemma key_bit_spec Pk j i :
  wf Pk -> 0 <= j <= 3 -> 0 <= i < 64 ->
  key_bit Pk (255 - 64 * j) i = Z.b2z (Z.testbit (value Pk) (i + 64 * j)).
Proof.
  intros HW Hj Hi. unfold key_bit, num_at. change (Z.land ?a 0x01) with (Z.land a (Z.ones 1)). rewrite Z.land_ones by lia.
  change (2 ^ 1) with 2. rewrite Z.shiftr_div_pow2, <- Z.testbit_spec' by (apply Z.mod_pos_bound; lia).
  f_equal. pose proof (wf_length Pk HW) as HL. change ELEMENTS_BIG_HEX256 with 9%nat in HL.
  destruct (key_bit_index j i Hj Hi) as [Hk He].
  unfold value. rewrite <- nth_value_bit; [| apply HW | rewrite HL; exact Hk | apply Z.mod_pos_bound; lia].
  rewrite HL, He. reflexivity.
Qed.

(** The digit as a number below 16. *)
Definition digit (key i : Z) : Z :=
  Z.b2z (Z.testbit key i) + Z.b2z (Z.testbit key (i + 64)) * 2 +
  Z.b2z (Z.testbit key (i + 128)) * 4 + Z.b2z (Z.testbit key (i + 192)) * 8.

Lemma digit_range key i : 0 <= digit key i < 16.
Proof.
  unfold digit. destruct (Z.testbit key i), (Z.testbit key (i + 64)), (Z.testbit key (i + 128)),
    (Z.testbit key (i + 192)); simpl; lia.
Qed.

Lemma comb_index_spec Pk i : wf Pk -> 0 <= i < 64 -> comb_index Pk i = digit (value Pk) i.
Proof.
  intros HW Hi. unfold comb_index.
  pose proof (key_bit_spec Pk 0 i HW) as K0. pose proof (key_bit_spec Pk 1 i HW) as K1.
  pose proof (key_bit_spec Pk 2 i HW) as K2. pose proof (key_bit_spec Pk 3 i HW) as K3.
  change (255 - 64 * 0) with 255 in K0. change (255 - 64 * 1) with 191 in K1.
  change (255 - 64 * 2) with 127 in K2. change (255 - 64 * 3) with 63 in K3.
  rewrite K0, K1, K2, K3 by lia. pose proof (digit_range (value Pk) i).
  rewrite Z.mul_0_r, Z.add_0_r. apply u8_small. unfold digit in *. simpl (64 * _). lia.
Qed.

(** ** Weights and the Horner invariant *)
Definition weight (d : Z) : Z :=
  Z.b2z (Z.testbit d 0) + Z.b2z (Z.testbit d 1) * 2 ^ 64 + Z.b2z (Z.testbit d 2) * 2 ^ 128 +
  Z.b2z (Z.testbit d 3) * 2 ^ 192.

Lemma weight_digit key i :
  weight (digit key i) =
  Z.b2z (Z.testbit key i) + Z.b2z (Z.testbit key (i + 64)) * 2 ^ 64 +
  Z.b2z (Z.testbit key (i + 128)) * 2 ^ 128 + Z.b2z (Z.testbit key (i + 192)) * 2 ^ 192.
Proof.
  unfold digit. destruct (Z.testbit key i), (Z.testbit key (i + 64)), (Z.testbit key (i + 128)),
    (Z.testbit key (i + 192)); reflexivity.
Qed.

(** The 64-bit column [j] of the key. *)
Definition column (key j : Z) : Z := (key / 2 ^ (64 * j)) mod 2 ^ 64.

(** The part of the key the digits from 63 down to [i] stand for. *)
Definition horner (key i : Z) : Z :=
  column key 0 / 2 ^ i + column key 1 / 2 ^ i * 2 ^ 64 + column key 2 / 2 ^ i * 2 ^ 128 +
  column key 3 / 2 ^ i * 2 ^ 192.

Lemma column_range key j : 0 <= column key j < 2 ^ 64.
Proof. apply Z.mod_pos_bound. lia. Qed.

Lemma horner_top key : horner key 64 = 0.
Proof. unfold horner. rewrite !(Z.div_small (column key _)) by apply column_range. reflexivity. Qed.

Lemma column_step key j i :
  0 <= j -> 0 <= i < 64 ->
  column key j / 2 ^ i = 2 * (column key j / 2 ^ (i + 1)) + Z.b2z (Z.testbit key (i + 64 * j)).
Proof.
  intros Hj Hi. rewrite Z.pow_add_r, <- Z.div_div by (try (apply Z.pow_nonzero; lia); lia).
  change (2 ^ 1) with 2. rewrite (Z.div_mod (column key j / 2 ^ i) 2) at 1 by lia.
  f_equal. rewrite <- Z.testbit_spec' by lia. unfold column. rewrite Z.mod_pow2_bits_low by lia.
  rewrite Z.div_pow2_bits by lia. reflexivity.
Qed.

Lemma horner_step key i :
  0 <= i < 64 -> horner key i = 2 * horner key (i + 1) + weight (digit key i).
Proof.
  intros Hi. unfold horner. rewrite weight_digit.
  rewrite (column_step key 0 i), (column_step key 1 i), (column_step key 2 i), (column_step key 3 i) by lia.
  change (64 * 0) with 0. change (64 * 1) with 64. change (64 * 2) with 128. change (64 * 3) with 192.
  rewrite Z.add_0_r. lia.
Qed.

Lemma base_b_digits b key :
  0 < b -> 0 <= key < b * b * b * b ->
  key mod b + key / b mod b * b + key / (b * b) mod b * (b * b) +
  key / (b * b * b) mod b * (b * b * b) = key.
Proof.
  intros Hb Hk. rewrite <- !Z.div_div by nia. rewrite (Z.mod_small (key / b / b / b)).
  - pose proof (Z.div_mod key b ltac:(lia)) as E0. pose proof (Z.div_mod (key / b) b ltac:(lia)) as E1.
    pose proof (Z.div_mod (key / b / b) b ltac:(lia)) as E2.
    rewrite E0 at 5. rewrite E1 at 4. rewrite E2 at 3. ring.
  - split; [repeat apply Z.div_pos; lia|]. rewrite !Z.div_div by nia. apply Z.div_lt_upper_bound; nia.
Qed.

Lemma horner_bottom key : 0 <= key < 2 ^ 256 -> horner key 0 = key.
Proof.
  intros Hk. etransitivity; [|exact (base_b_digits (2 ^ 64) key ltac:(lia) Hk)].
  unfold horner, column. rewrite !Z.pow_0_r, !Z.div_1_r. reflexivity.
Qed.

(** ** The loop on numbers *)
Definition ztable : list zpoint := Eval vm_compute in map pval ECC_4Win_Look_up_table.

Definition zentry (d : Z) : zpoint := nth (Z.to_nat (d - 1)) ztable zinfinity.

Definition zcomb_add (key i : Z) (q : zpoint) : zpoint :=
  if digit key i =? 0 then q else zadd (zentry (digit key i)) q.

(** The digits [n], [n-1], ..., 0. *)
Fixpoint zcomb (n : nat) (key : Z) (q : zpoint) : zpoint :=
  match n with
  | O => zcomb_add key 0 q
  | S n' => zcomb n' key (zdouble (zcomb_add key (Z.of_nat n) q))
  end.

Lemma table_fpoints : Forall fpoint ECC_4Win_Look_up_table.
Proof.
  apply List.Forall_forall. intros p Hp. apply is_fpoint_true.
  assert (H : forallb is_fpoint ECC_4Win_Look_up_table = true) by (vm_compute; reflexivity).
  rewrite List.forallb_forall in H. by apply H.
Qed.

Lemma table_entry d :
  0 < d < 16 -> exists p, ECC_4Win_Look_up_table !! Z.to_nat (d - 1) = Some p /\ pref p (zentry d).
Proof.
  intros Hd. assert (HL : (Z.to_nat (d - 1) < length ECC_4Win_Look_up_table)%nat) by (simpl length; lia).
  destruct (lookup_lt_is_Some_2 _ _ HL) as [p Hp]. exists p. split; [exact Hp|]. split.
  - apply (Forall_lookup_1 fpoint _ _ _ table_fpoints Hp).
  - unfold zentry. change ztable with (map pval ECC_4Win_Look_up_table).
    rewrite (nth_indep _ _ (pval p)) by (rewrite length_map; exact HL). rewrite map_nth.
    f_equal. symmetry. by apply nth_lookup_Some.
Qed.

(** The state of the multiplication between two calls of the step function. *)
Record mult_state (key : Z) (n : nat) (q : zpoint) (e : ecc_elt_tag) : Prop := {
  ms_word : Point_Mul_Word256 e = 9;
  ms_type : key_type e = ECC_PUBLICKEY_GENERATION;
  ms_pk : wf (Pk256 e);
  ms_key : value (Pk256 e) = key;
  ms_cursor : bit_cursor e = Z.of_nat n;
  ms_q : pref (Jacobian_PointQ256 e) q }.

Lemma comb_add_step key n q e :
  mult_state key n q e -> (n < 64)%nat ->
  exists e1,
    (let IndexVal := comb_index (Pk256 e) (bit_cursor e) in
     if negb (IndexVal =? 0) then
       p ← ECC_4Win_Look_up_table !! Z.to_nat (IndexVal - 1);
       Some (set_Q (GF_Jacobian_Point_Copy256
         (snd (GF_Jacobian_Point_Addition256 (GF_Jacobian_Point_Copy256 p) (Jacobian_PointQ256 e)))) e)
     else Some e) = Some e1 /\ mult_state key n (zcomb_add key (Z.of_nat n) q) e1.
Proof.
  intros HM Hn. pose proof HM as [H1 H2 H3 H4 H5 H6]. cbv zeta. rewrite H5, comb_index_spec, H4 by (assumption || lia).
  unfold zcomb_add. pose proof (digit_range key (Z.of_nat n)) as HD.
  destruct (Z.eqb_spec (digit key (Z.of_nat n)) 0) as [E | E]; simpl negb; cbv iota.
  - exists e. split; [reflexivity | assumption].
  - destruct (table_entry (digit key (Z.of_nat n))) as (p & Hp & HR); [lia|]. rewrite Hp.
    eexists. split; [reflexivity|]. rewrite !copy_id. constructor; try assumption. by apply addition_pref.
Qed.

Lemma mult_step_last key q e :
  mult_state key 0 q e ->
  exists e', ecc_point_multiplication_win_256 e = Some e' /\ Point_Mul_Word256 e' = 0 /\
             pref (Jacobian_PointQ256 e') (zcomb_add key 0 q).
Proof.
  intros HM. destruct (comb_add_step key 0 q e HM ltac:(lia)) as (e1 & E1 & HM1).
  unfold ecc_point_multiplication_win_256. rewrite (ms_type _ _ _ _ HM). rewrite Z.eqb_refl. simpl orb. cbv iota zeta.
  cbv zeta in E1. simpl. simpl in E1. rewrite E1. simpl. rewrite (ms_cursor _ _ _ _ HM1). simpl.
  eexists. split; [reflexivity|]. split; [reflexivity|]. apply HM1.
Qed.

Lemma mult_step_next key n q e :
  mult_state key (S n) q e -> (S n < 64)%nat ->
  exists e', ecc_point_multiplication_win_256 e = Some e' /\
             mult_state key n (zdouble (zcomb_add key (Z.of_nat (S n)) q)) e'.
Proof.
  intros HM Hn. destruct (comb_add_step key (S n) q e HM Hn) as (e1 & E1 & HM1).
  unfold ecc_point_multiplication_win_256. rewrite (ms_type _ _ _ _ HM). rewrite Z.eqb_refl. simpl orb. cbv iota zeta.
  cbv zeta in E1. simpl mbind. simpl in E1. rewrite E1. simpl mbind. pose proof HM1 as [H1 H2 H3 H4 H5 H6].
  rewrite H5. destruct (Z.eqb_spec (Z.of_nat (S n)) 0) as [|_]; [lia|]. simpl negb. cbv iota.
  eexists. split; [reflexivity|]. rewrite copy_id. constructor; simpl; try assumption.
  - rewrite u32_small by lia. lia.
  - by apply double_pref.
Qed.

(** The loop ends after 64 steps, with the comb's value. *)
Lemma mult_loop_zcomb n key q e :
  mult_state key n q e -> (n < 64)%nat ->
  exists e', mult_loop (S n) e = Some e' /\ pref (Jacobian_PointQ256 e') (zcomb n key q).
Proof.
  revert q e. induction n as [|n IH]; intros q e HM Hn.
  - destruct (mult_step_last key q e HM) as (e' & E & HW & HQ). exists e'. split; [|exact HQ].
    change (mult_loop 1 e) with (if Point_Mul_Word256 e >? 0 then e' ← ecc_point_multiplication_win_256 e; mult_loop 0 e' else Some e).
    rewrite (ms_word _ _ _ _ HM). simpl (9 >? 0). cbv iota. rewrite E. simpl mbind.
    simpl. rewrite HW. reflexivity.
  - destruct (mult_step_next key n q e HM Hn) as (e1 & E & HM1).
    destruct (IH _ e1 HM1) as (e' & E' & HQ); [lia|]. exists e'. split; [|exact HQ].
    change (mult_loop (S (S n)) e) with (if Point_Mul_Word256 e >? 0 then e' ← ecc_point_multiplication_win_256 e; mult_loop (S n) e' else Some e).
    rewrite (ms_word _ _ _ _ HM). simpl (9 >? 0). cbv iota. rewrite E. exact E'.
Qed.

(** [GF_Setup_Jacobian_Infinity_Point256] leaves the length 1 on a zero number, which no operation
    does; the first step sees the same numbers as from the normal form of infinity. *)
Definition elt_init_normal (pub : ECC_Point256) (key : bigHex256) : ecc_elt_tag :=
  set_Q ecc_Jacobian_InfinityPoint256 (ecc_elt_init pub key).

Lemma add_setup_infinity p :
  GF_Jacobian_Point_Addition256 p GF_Setup_Jacobian_Infinity_Point256 =
  GF_Jacobian_Point_Addition256 p ecc_Jacobian_InfinityPoint256.
Proof.
  unfold GF_Jacobian_Point_Addition256. cbv zeta.
  change (Is_Infinite256 GF_Setup_Jacobian_Infinity_Point256) with true.
  change (Is_Infinite256 ecc_Jacobian_InfinityPoint256) with true.
  destruct (Is_Infinite256 p); reflexivity.
Qed.

Lemma init_first_step pub key :
  ecc_point_multiplication_win_256 (ecc_elt_init pub key) =
  ecc_point_multiplication_win_256 (elt_init_normal pub key).
Proof.
  unfold ecc_point_multiplication_win_256, elt_init_normal. cbv zeta.
  cbn [key_type ecc_elt_init set_Q bit_cursor Pk256 Jacobian_PointQ256 win_4_table].
  rewrite Z.eqb_refl. cbn [orb]. cbv iota.
  destruct (negb (comb_index (copyBigHex256 key) 63 =? 0)); [|reflexivity].
  cbn [mbind option_bind]. destruct (ECC_4Win_Look_up_table !! _) as [p|]; [|reflexivity].
  cbn [mbind option_bind]. rewrite add_setup_infinity. reflexivity.
Qed.

Lemma init_loop pub key n :
  mult_loop (S n) (ecc_elt_init pub key) = mult_loop (S n) (elt_init_normal pub key).
Proof. cbn [mult_loop]. rewrite init_first_step. reflexivity. Qed.

Lemma elt_init_state pub key : wf key -> mult_state (value key) 63 zinfinity (elt_init_normal pub key).
Proof.
  intros HW. constructor; try reflexivity; [by destruct key | apply pref_infinity].
Qed.

Lemma mult_loop_init pub key :
  wf key ->
  exists e', mult_loop MULT_FUEL (ecc_elt_init pub key) = Some e' /\
             pref (Jacobian_PointQ256 e') (zcomb 63 (value key) zinfinity).
Proof.
  intros HW. unfold MULT_FUEL. rewrite init_loop. apply mult_loop_zcomb; [by apply elt_init_state | lia].
Qed.

(** ** What the value is: a multiple of the base point *)
Inductive Multiple (G : point) : Z -> point -> Prop :=
| mult_zero : Multiple G 0 Inf
| mult_one : Multiple G 1 G
| mult_add a b P Q R : Multiple G a P -> Multiple G b Q -> ec_add P Q R -> Multiple G (a + b) R.

Definition same_X_same_Zb (p q : zpoint) : bool :=
  let '(X1, _, Z1) := p in let '(X2, _, Z2) := q in negb (X1 =? X2) || (Z1 =? Z2).

Lemma same_X_same_Zb_true p q : same_X_same_Zb p q = true -> same_X_same_Z p q.
Proof.
  destruct p as [[X1 Y1] Z1], q as [[X2 Y2] Z2]. unfold same_X_same_Zb, same_X_same_Z.
  intros H E. subst. rewrite Z.eqb_refl in H. simpl in H. by apply Z.eqb_eq.
Qed.

(** The operands of one addition are ones the code adds correctly. *)
Definition add_ok (p q : zpoint) : bool := add_regular p q && same_X_same_Zb p q.

(** Every operation of the comb is. *)
Definition comb_add_ok (key i : Z) (q : zpoint) : bool :=
  (digit key i =? 0) || add_ok (zentry (digit key i)) q.

Fixpoint zcomb_ok (n : nat) (key : Z) (q : zpoint) : bool :=
  match n with
  | O => comb_add_ok key 0 q
  | S n' => comb_add_ok key (Z.of_nat n) q && double_ok (zcomb_add key (Z.of_nat n) q) &&
            zcomb_ok n' key (zdouble (zcomb_add key (Z.of_nat n) q))
  end.

(** [p] is the multiple [k] of [G], as the code represents it. *)
Definition mdenotes (G : point) (k : Z) (p : zpoint) : Prop := exists P, Multiple G k P /\ denotes p P.

Lemma mdenotes_add G a b p q :
  mdenotes G a p -> mdenotes G b q -> add_ok p q = true -> mdenotes G (a + b) (zadd p q).
Proof.
  intros (P & HP & DP) (Q & HQ & DQ) H. apply andb_true_iff in H as [H1 H2].
  destruct (zadd_ec_add p q P Q DP DQ H1 (same_X_same_Zb_true _ _ H2)) as (R & HR & DR).
  exists R. split; [by apply mult_add with P Q | assumption].
Qed.

Lemma mdenotes_double G a p : mdenotes G a p -> double_ok p = true -> mdenotes G (2 * a) (zdouble p).
Proof.
  intros (P & HP & DP) H. replace (2 * a) with (a + a) by lia. destruct P as [|x y].
  - unfold denotes in DP. subst p. exists Inf. split; [|reflexivity].
    apply mult_add with Inf Inf; [assumption..|constructor].
  - destruct p as [[X Y] Z]. destruct (zdouble_ec_add X Y Z x y x y DP) as (R & HR & DR); [reflexivity..|assumption|].
    exists R. split; [by apply mult_add with (Pt x y) (Pt x y) | assumption].
Qed.

(** Two triples in the same ratio stand for the same point. *)
Definition proj_eqb (p q : zpoint) : bool :=
  let '(X1, Y1, Z1) := p in let '(X2, Y2, Z2) := q in
  forallb (fun x => (0 <=? x) && (x <? P256)) [X2; Y2; Z2] &&
  negb (Z1 =? 0) && negb (Z2 =? 0) &&
  ((X1 * Z2 - X2 * Z1) mod P256 =? 0) && ((Y1 * Z2 - Y2 * Z1) mod P256 =? 0).

Lemma ratio_eq x Z1 Z2 A1 A2 :
  ~ Z1 == 0 -> A1 == x * Z1 -> A1 * Z2 - A2 * Z1 == 0 -> A2 == x * Z2.
Proof.
  intros HZ H1 H. apply meq_sub_0 in H. rewrite H1 in H. apply (meq_cancel Z1); [assumption|].
  transitivity (A2 * Z1); [mring|]. rewrite <- H. mring.
Qed.

Lemma mdenotes_proj G k p q : mdenotes G k p -> proj_eqb p q = true -> mdenotes G k q.
Proof.
  intros (P & HP & DP) H. exists P. split; [assumption|].
  destruct p as [[X1 Y1] Z1], q as [[X2 Y2] Z2]. unfold proj_eqb in H.
  apply andb_true_iff in H as [H HY]. apply andb_true_iff in H as [H HX].
  apply andb_true_iff in H as [H HZ2]. apply andb_true_iff in H as [H HZ1].
  simpl forallb in H. apply negb_true_iff, Z.eqb_neq in HZ1, HZ2. apply Z.eqb_eq in HX, HY. zbool.
  destruct P as [|x y]; [unfold denotes, zinfinity in DP; congruence|].
  destruct DP as (_ & HZ & EX & EY). split; [repeat split; assumption|]. split.
  - intros E. apply HZ2. apply meq_small; [lia | pose proof P256_pos; lia | assumption].
  - split; [apply (ratio_eq x Z1 Z2 X1) | apply (ratio_eq y Z1 Z2 Y1)]; assumption.
Qed.

(** The curve's own operations, for the reference values of the table. *)
Definition sdouble : zpoint -> zpoint := gdouble smul.
Definition sadd : zpoint -> zpoint -> zpoint := gadd smul.

Lemma sdouble_mdenotes G a p : mdenotes G a p -> mdenotes G (2 * a) (sdouble p).
Proof.
  intros (P & HP & DP). replace (2 * a) with (a + a) by lia. destruct P as [|x y].
  - unfold denotes in DP. subst p. exists Inf. split; [|reflexivity].
    apply mult_add with Inf Inf; [assumption..|constructor].
  - destruct p as [[X Y] Z].
    destruct (gdouble_ec_add smul X Y Z x y x y DP) as (R & HR & DR); [reflexivity..|apply smul_exact|].
    exists R. split; [by apply mult_add with (Pt x y) (Pt x y) | assumption].
Qed.

Lemma smul_range x y : 0 <= smul x y < P256.
Proof. apply modP_range. Qed.

Lemma sadd_mdenotes G a b p q :
  mdenotes G a p -> mdenotes G b q -> same_X_same_Zb p q = true -> mdenotes G (a + b) (sadd p q).
Proof.
  intros (P & HP & DP) (Q & HQ & DQ) H.
  destruct (gadd_ec_add smul smul_range p q P Q DP DQ (smul_exact _) (smul_exact _)
              (same_X_same_Zb_true _ _ H)) as (R & HR & DR).
  exists R. split; [by apply mult_add with P Q | assumption].
Qed.

Lemma sdoubles_mdenotes G n k p : mdenotes G k p -> mdenotes G (2 ^ Z.of_nat n * k) (Nat.iter n sdouble p).
Proof.
  intros Hp. induction n as [|n IH].
  - change (2 ^ Z.of_nat 0) with 1. by rewrite Z.mul_1_l.
  - replace (2 ^ Z.of_nat (S n) * k) with (2 * (2 ^ Z.of_nat n * k)); [by apply sdouble_mdenotes|].
    rewrite Nat2Z.inj_succ, Z.pow_succ_r by lia. ring.
Qed.

(** A table holds the multiples [weight d] of the point its entry for 1 denotes. *)
Definition combine_add (bit : bool) (p : zpoint) (acc : option zpoint) : option zpoint :=
  a ← acc; if bit then (if same_X_same_Zb p a then Some (sadd p a) else None) else Some a.

Definition zweighted (b0 b1 b2 b3 : zpoint) (d : Z) : option zpoint :=
  combine_add (Z.testbit d 3) b3 (combine_add (Z.testbit d 2) b2
    (combine_add (Z.testbit d 1) b1 (combine_add (Z.testbit d 0) b0 (Some zinfinity)))).

Definition table_check (b0 : zpoint) (entry : Z -> zpoint) : bool :=
  let b1 := Nat.iter 64 sdouble b0 in
  let b2 := Nat.iter 64 sdouble b1 in
  let b3 := Nat.iter 64 sdouble b2 in
  forallb (fun d => match zweighted b0 b1 b2 b3 d with
                    | Some p => proj_eqb p (entry d) | None => false end)
          [1; 2; 3; 4; 5; 6; 7; 8; 9; 10; 11; 12; 13; 14; 15].

Definition acc_denotes (G : point) (k : Z) (acc : option zpoint) : Prop :=
  forall a, acc = Some a -> mdenotes G k a.

Lemma combine_add_spec G bit p acc k j :
  mdenotes G k p -> acc_denotes G j acc -> acc_denotes G (Z.b2z bit * k + j) (combine_add bit p acc).
Proof.
  intros Hp Ha q E. unfold combine_add in E. destruct acc as [a|]; [|discriminate]. simpl in E.
  specialize (Ha a eq_refl). destruct bit.
  - destruct (same_X_same_Zb p a) eqn:Hok; [|discriminate]. injection E as <-.
    change (Z.b2z true) with 1. rewrite Z.mul_1_l. by apply sadd_mdenotes.
  - injection E as <-. exact Ha.
Qed.

Lemma zweighted_spec G b0 b1 b2 b3 d :
  mdenotes G 1 b0 -> mdenotes G (2 ^ 64) b1 -> mdenotes G (2 ^ 128) b2 -> mdenotes G (2 ^ 192) b3 ->
  acc_denotes G (weight d) (zweighted b0 b1 b2 b3 d).
Proof.
  intros H0 H1 H2 H3. unfold zweighted.
  assert (HI : acc_denotes G 0 (Some zinfinity)).
  { intros a Ea. injection Ea as <-. exists Inf. split; [constructor | reflexivity]. }
  replace (weight d) with (Z.b2z (Z.testbit d 3) * 2 ^ 192 + (Z.b2z (Z.testbit d 2) * 2 ^ 128 +
    (Z.b2z (Z.testbit d 1) * 2 ^ 64 + (Z.b2z (Z.testbit d 0) * 1 + 0)))) by (unfold weight; ring).
  by repeat apply combine_add_spec.
Qed.

Lemma table_check_spec G b0 entry :
  mdenotes G 1 b0 -> table_check b0 entry = true ->
  forall d, 0 < d < 16 -> mdenotes G (weight d) (entry d).
Proof.
  intros H0 H d Hd. unfold table_check in H. cbv zeta in H.
  pose proof (sdoubles_mdenotes G 64 1 b0 H0) as E1. set (b1 := Nat.iter 64 sdouble b0) in *.
  pose proof (sdoubles_mdenotes G 64 _ b1 E1) as E2. set (b2 := Nat.iter 64 sdouble b1) in *.
  pose proof (sdoubles_mdenotes G 64 _ b2 E2) as E3. set (b3 := Nat.iter 64 sdouble b2) in *.
  rewrite List.forallb_forall in H. specialize (H d).
  destruct (zweighted b0 b1 b2 b3 d) as [p|] eqn:Ew.
  - apply mdenotes_proj with p; [|apply H; simpl; lia].
    apply (zweighted_spec G b0 b1 b2 b3 d); assumption.
  - assert (false = true) as [=]. apply H. simpl. lia.
Qed.

(** The base point, whose coordinates the byte arrays of the source give. *)
Definition base_x : Z := 0x6b17d1f2e12c4247f8bce6e563a440f277037d812deb33a0f4a13945d898c296.
Definition base_y : Z := 0x4fe342e2fe1a7f9b8ee7eb4a7c0f9e162bce33576b315ececbb6406837bf51f5.
Definition G256 : point := Pt base_x base_y.

Lemma base_mdenotes : mdenotes G256 1 (base_x, base_y, 1).
Proof.
  exists G256. split; [constructor|]. unfold denotes, G256. split.
  - repeat split; try discriminate; reflexivity.
  - split; [unfold meq; vm_compute; discriminate|]. rewrite !Z.mul_1_r. split; reflexivity.
Qed.

Lemma table_checked : table_check (base_x, base_y, 1) zentry = true.
Proof. vm_compute. reflexivity. Qed.

Lemma zentry_multiple d : 0 < d < 16 -> mdenotes G256 (weight d) (zentry d).
Proof. apply table_check_spec with (base_x, base_y, 1); [apply base_mdenotes | apply table_checked]. Qed.

(** ** The comb computes the key's multiple of the base point *)
Lemma zcomb_add_multiple key i k q :
  mdenotes G256 k q -> comb_add_ok key i q = true ->
  mdenotes G256 (k + weight (digit key i)) (zcomb_add key i q).
Proof.
  intros Hq Hok. unfold zcomb_add, comb_add_ok in *. pose proof (digit_range key i).
  destruct (Z.eqb_spec (digit key i) 0) as [E | E].
  - rewrite E. change (weight 0) with 0. by rewrite Z.add_0_r.
  - rewrite Z.add_comm. apply mdenotes_add; [apply zentry_multiple; lia | assumption..].
Qed.

Lemma zcomb_multiple n key q :
  (n < 64)%nat -> mdenotes G256 (2 * horner key (Z.of_nat n + 1)) q -> zcomb_ok n key q = true ->
  mdenotes G256 (horner key 0) (zcomb n key q).
Proof.
  revert q. induction n as [|n IH]; intros q Hn Hq Hok.
  - rewrite (horner_step key 0) by lia. by apply zcomb_add_multiple.
  - cbn [zcomb_ok] in Hok. apply andb_true_iff in Hok as [Hok H3]. apply andb_true_iff in Hok as [H1 H2].
    cbn [zcomb]. apply IH; [lia | | exact H3]. apply mdenotes_double; [|exact H2].
    replace (Z.of_nat n + 1) with (Z.of_nat (S n)) by lia. rewrite (horner_step key) by lia.
    by apply zcomb_add_multiple.
Qed.

(** A key is good when no product of its multiplication meets the faulty cases. *)
Definition key_ok (key : Z) : bool := zcomb_ok 63 key zinfinity.

Lemma mult_multiple pub key :
  wf key -> value key < 2 ^ 256 -> key_ok (value key) = true ->
  exists e', mult_loop MULT_FUEL (ecc_elt_init pub key) = Some e' /\
             mdenotes G256 (value key) (pval (Jacobian_PointQ256 e')).
Proof.
  intros HW Hlt Hok. destruct (mult_loop_init pub key HW) as (e' & E & [_ HQ]).
  exists e'. split; [exact E|]. rewrite HQ.
  rewrite <- (horner_bottom (value key)) at 1 by (pose proof (wf_value_bound key HW); lia).
  apply zcomb_multiple; [lia | | exact Hok].
  change (Z.of_nat 63 + 1) with 64. rewrite horner_top. exists Inf. split; [constructor | reflexivity].
Qed.

(** ** Points on the curve *)
Lemma base_on_curve : on_curve G256.
Proof. unfold on_curve, G256, meq. vm_compute. reflexivity. Qed.

Lemma Multiple_on_curve G k P : on_curve G -> Multiple G k P -> on_curve P.
Proof.
  intros HG. induction 1 as [| |a b P Q R _ HP _ HQ HR]; [exact I | exact HG |].
  by apply (ec_add_on_curve P Q).
Qed.

(** ** Back to affine coordinates *)
Lemma inverse_of_z p x y :
  fpoint p -> denotes (pval p) (Pt x y) ->
  exists c R, inv_cofactor (jz p) = Some c /\ bigHexInversion256 (jz p) = Some R /\
    (cofactor_ok c = true -> felem R /\ value R * value (jz p) == 1).
Proof.
  intros [_ _ HZ] (_ & Hne & _). pose proof (felem_value_range _ HZ) as HR.
  assert (0 < value (jz p)).
  { destruct (Z.eq_dec (value (jz p)) 0) as [E | E]; [|lia]. rewrite E in Hne. by destruct Hne. }
  destruct (bigHexInversion256_value (jz p)) as (c & R & H1 & H2 & _ & H4 & _);
    [apply HZ | lia | apply unit_gcd; lia |].
  exists c, R. split; [exact H1|]. split; [exact H2|]. intros Hc. destruct (H4 Hc) as (HF & _ & HV).
  split; [exact HF|]. unfold meq. rewrite HV. symmetry. apply Z.mod_small. pose proof P256_pos.
  rewrite P256_eq. lia.
Qed.

(** The two products of the conversion are outside the faulty window. *)
Definition affine_ok (p : ECC_Jacobian_Point256) : bool :=
  match bigHexInversion256 (jz p), inv_cofactor (jz p) with
  | Some R, Some c => cofactor_ok c &&
      regular [(value (jx p), value R); (value (jy p), value R)]
  | _, _ => false
  end.

Lemma to_affine_coordinates p x y :
  fpoint p -> denotes (pval p) (Pt x y) -> affine_ok p = true ->
  exists X Y, GF_Point_Jacobian_To_Affine256 p = Some (X, Y) /\ felem X /\ felem Y /\
              value X = x mod P256 /\ value Y = y mod P256.
Proof.
  intros HP HD Hok. destruct (inverse_of_z p x y HP HD) as (c & R & Hc & HR & HV).
  unfold affine_ok in Hok. rewrite Hc, HR in Hok. apply andb_true_iff in Hok as [Hlo Hreg]. zbool.
  destruct (HV Hlo) as [HF HI]. destruct HP as [HX HY HZ]. destruct HD as (_ & Hne & EX & EY).
  pose proof (mul_ref _ _ HX HF) as [FX VX]. pose proof (mul_ref _ _ HY HF) as [FY VY].
  unfold GF_Point_Jacobian_To_Affine256. rewrite HR. do 2 eexists. split; [reflexivity|].
  split; [exact FX|]. split; [exact FY|]. pose proof (regular_exact _ Hreg) as HE.
  assert (HC : forall A a, A == a * value (jz p) -> (A * value R) mod P256 = a mod P256).
  { intros A a EA. fold (meq (A * value R) a). rewrite EA.
    transitivity (a * (value R * value (jz p))); [mring|]. rewrite HI. mring. }
  rewrite VX, VY, (HE _ (value R)), (HE _ (value R)) by (simpl; tauto). split; apply HC; assumption.
Qed.
