(* ===== verification/CurveKeys.v ===== *)
(** Keys of ecc_p256.c: the byte order of keys, validation of secret keys and of public points,
    and the generation of public keys from end to end. *)
From Stdlib Require Import ZArith Znumtheory Lia Bool Zdiv Setoid Morphisms.
From stdpp Require Import base list option.
From S2P Require Import Prelude BigHex FieldP256 CurveP256 CurveLaws CurveMult.
#[local] Open Scope field_scope.

(** ** Byte strings, least significant byte first *)
Definition bytes (b : list Z) : Prop := Forall (is_u 8) b.

Fixpoint le_value (b : list Z) : Z :=
  match b with [] => 0 | x :: b' => x + 256 * le_value b' end.

Lemma le_value_bound b : bytes b -> 0 <= le_value b < 256 ^ Z.of_nat (length b).
Proof.
  induction 1 as [|x b Hx _ IH]; [simpl; lia|]. simpl length. rewrite Nat2Z.inj_succ, Z.pow_succ_r by lia.
  simpl le_value. unfold is_u in Hx. change (2 ^ 8) with 256 in Hx. lia.
Qed.

Lemma le_value_app b c : le_value (b ++ c) = le_value b + 256 ^ Z.of_nat (length b) * le_value c.
Proof.
  induction b as [|x b IH]; [simpl; lia|]. simpl app. simpl le_value. simpl length.
  rewrite Nat2Z.inj_succ, Z.pow_succ_r, IH by lia. ring.
Qed.

Lemma le_value_inj b c : bytes b -> bytes c -> length b = length c -> le_value b = le_value c -> b = c.
Proof.
  unfold bytes. intros Hb. revert c. induction Hb as [|x b Hx _ IH]; intros [|y c] Hc Hl He; try done.
  apply list.Forall_cons in Hc as [Hy Hc]. simpl in He. unfold is_u in *. change (2 ^ 8) with 256 in *.
  assert (x = y /\ le_value b = le_value c) as [-> E] by lia.
  f_equal. apply IH; [exact Hc | by injection Hl | exact E].
Qed.

Lemma byte_at_range b i : bytes b -> 0 <= byte_at b i < 256.
Proof.
  intros Hb. unfold byte_at. destruct (nth_in_or_default (Z.to_nat i) b 0) as [H | H]; [|rewrite H; lia].
  unfold bytes in Hb. rewrite List.Forall_forall in Hb. apply Hb in H. exact H.
Qed.

Lemma land_shifted_byte x k :
  0 <= k -> 0 <= x < 256 -> Z.land (Z.shiftl x k) (Z.shiftl 255 k) = x * 2 ^ k.
Proof.
  intros Hk Hx. rewrite <- Z.shiftl_land. change 255 with (Z.ones 8). rewrite Z.land_ones by lia.
  rewrite Z.mod_small by lia. apply Z.shiftl_mul_pow2. lia.
Qed.

Lemma key_word_value b i :
  bytes b -> key_word b i = byte_at b (i - 3) + 256 * (byte_at b (i - 2) + 256 * (byte_at b (i - 1) + 256 * byte_at b i)).
Proof.
  intros Hb. unfold key_word. pose proof (byte_at_range b i Hb). pose proof (byte_at_range b (i - 1) Hb).
  pose proof (byte_at_range b (i - 2) Hb). pose proof (byte_at_range b (i - 3) Hb).
  change 0xFF000000 with (Z.shiftl 255 24). change 0x00FF0000 with (Z.shiftl 255 16).
  change 0x0000FF00 with (Z.shiftl 255 8). rewrite !land_shifted_byte by lia.
  change 0x000000FF with (Z.ones 8). rewrite Z.land_ones, (Z.mod_small (byte_at b (i - 3))) by lia.
  rewrite u32_small; lia.
Qed.

(** A list of 32 elements, spelled out. *)
Lemma length_32 (b : list Z) :
  length b = 32%nat -> exists b0 b1 b2 b3 b4 b5 b6 b7 b8 b9 b10 b11 b12 b13 b14 b15 b16 b17 b18 b19 b20 b21 b22 b23
    b24 b25 b26 b27 b28 b29 b30 b31,
    b = [b0; b1; b2; b3; b4; b5; b6; b7; b8; b9; b10; b11; b12; b13; b14; b15; b16; b17; b18; b19; b20; b21; b22;
         b23; b24; b25; b26; b27; b28; b29; b30; b31].
Proof. intros H. do 32 (destruct b as [|? b]; [discriminate H|]). destruct b; [|discriminate H]. by repeat eexists. Qed.

Lemma key_words_spec b :
  bytes b -> length b = 32%nat -> words (key_words b) /\ eval (key_words b) = le_value b.
Proof.
  intros Hb Hl. split.
  - unfold key_words, words. apply List.Forall_forall. intros w Hw. apply in_map_iff in Hw as (i & <- & _).
    apply wrap_range. lia.
  - unfold key_words. cbn [map eval length]. rewrite !key_word_value by assumption.
    destruct (length_32 b Hl) as (b0 & b1 & b2 & b3 & b4 & b5 & b6 & b7 & b8 & b9 & b10 & b11 & b12 & b13 & b14 & b15
      & b16 & b17 & b18 & b19 & b20 & b21 & b22 & b23 & b24 & b25 & b26 & b27 & b28 & b29 & b30 & b31 & ->).
    unfold byte_at.
    repeat match goal with |- context [Z.to_nat ?n] => let v := eval vm_compute in (Z.to_nat n) in change (Z.to_nat n) with v end.
    cbn [nth le_value].
    repeat match goal with |- context [pw ?n] => let v := eval vm_compute in (pw n) in change (pw n) with v end.
    ring.
Qed.

Lemma key_number_spec b :
  bytes b -> length b = 32%nat ->
  wf (key_number b) /\ value (key_number b) = le_value b /\ sign (key_number b) = 0.
Proof.
  intros Hb Hl. destruct (key_words_spec b Hb Hl) as [Hw He]. split; [|split; [|reflexivity]].
  - apply setBigNumberLength256_wf; [reflexivity | | by left].
    apply words_cons. split; [unfold is_u; lia | exact Hw].
  - unfold key_number, value, setBigNumberLength256. cbn [num eval]. rewrite He. lia.
Qed.

(** ** From numbers back to bytes *)
Lemma shifted_byte w k : 0 <= k -> Z.shiftr (Z.land w (Z.shiftl 255 k)) k = (w / 2 ^ k) mod 256.
Proof.
  intros Hk. rewrite Z.shiftr_land, Z.shiftr_shiftl_l, Z.sub_diag by lia. change (Z.shiftl 255 0) with (Z.ones 8).
  rewrite Z.land_ones, Z.shiftr_div_pow2 by lia. reflexivity.
Qed.

Lemma word_bytes_spec w :
  is_u 32 w -> bytes (word_bytes w) /\ length (word_bytes w) = 4%nat /\ le_value (word_bytes w) = w.
Proof.
  intros Hw. assert (E : word_bytes w = [w mod 256; (w / 2 ^ 8) mod 256; (w / 2 ^ 16) mod 256; (w / 2 ^ 24) mod 256]).
  { unfold word_bytes. change 0x0000FF00 with (Z.shiftl 255 8). change 0x00FF0000 with (Z.shiftl 255 16).
    change 0xFF000000 with (Z.shiftl 255 24). change 0x000000FF with (Z.ones 8).
    rewrite !shifted_byte, Z.land_ones by lia. reflexivity. }
  rewrite E. split; [|split; [reflexivity|]].
  - repeat constructor; unfold is_u; change (2 ^ 8) with 256; apply Z.mod_pos_bound; lia.
  - cbn [le_value]. change (2 ^ 16) with (256 * 256). change (2 ^ 24) with (256 * 256 * 256). change (2 ^ 8) with 256.
    rewrite <- !Z.div_div by lia. unfold is_u in Hw. change (2 ^ 32) with (256 * 256 * 256 * 256) in Hw.
    rewrite (Z.mod_small (w / 256 / 256 / 256)) by (rewrite !Z.div_div by lia; split; [apply Z.div_pos; lia | apply Z.div_lt_upper_bound; lia]).
    pose proof (Z.div_mod w 256). pose proof (Z.div_mod (w / 256) 256). pose proof (Z.div_mod (w / 256 / 256) 256). lia.
Qed.

Lemma concat_word_bytes ws :
  words ws ->
  bytes (concat (map word_bytes ws)) /\ length (concat (map word_bytes ws)) = (4 * length ws)%nat /\
  le_value (concat (map word_bytes ws)) = eval (reverse ws).
Proof.
  induction 1 as [|w ws Hw _ IH]; [by repeat split; constructor|]. cbn [map concat].
  destruct IH as (IHb & IHl & IHv). destruct (word_bytes_spec w Hw) as (Hb & Hl & Hv).
  split; [by apply Forall_app|]. split; [rewrite length_app, Hl, IHl; simpl length; lia|].
  rewrite le_value_app, Hv, Hl, IHv, reverse_cons, eval_app. cbn [eval length].
  change (pw 0) with 1. change (pw 1) with base. change (256 ^ Z.of_nat 4) with base. ring.
Qed.

Lemma num_nine A : wf A -> exists n0 n1 n2 n3 n4 n5 n6 n7 n8, num A = [n0; n1; n2; n3; n4; n5; n6; n7; n8].
Proof.
  intros [Hl _ _ _]. destruct (num A) as [|n0 [|n1 [|n2 [|n3 [|n4 [|n5 [|n6 [|n7 [|n8 [|]]]]]]]]]]; try discriminate Hl.
  by repeat eexists.
Qed.

Lemma number_key_spec A :
  wf A -> value A < 2 ^ 256 ->
  bytes (number_key A) /\ length (number_key A) = 32%nat /\ le_value (number_key A) = value A.
Proof.
  intros HW Hlt. destruct (num_nine A HW) as (n0 & n1 & n2 & n3 & n4 & n5 & n6 & n7 & n8 & En).
  pose proof (wf_words A HW) as Hw. unfold value in *. rewrite En in Hw, Hlt.
  apply words_cons in Hw as [H0 Hw].
  assert (E : number_key A = concat (map word_bytes (reverse [n1; n2; n3; n4; n5; n6; n7; n8]))).
  { unfold number_key, num_at. rewrite En. reflexivity. }
  assert (Hr : words (reverse [n1; n2; n3; n4; n5; n6; n7; n8])).
  { apply List.Forall_forall. intros x Hx. unfold words in Hw. rewrite List.Forall_forall in Hw. apply Hw.
    apply list_elem_of_In. apply list_elem_of_In in Hx. by apply elem_of_reverse in Hx. }
  destruct (concat_word_bytes _ Hr) as (Hb & Hl & Hv). rewrite <- E in *.
  split; [exact Hb|]. split; [rewrite Hl; reflexivity|]. rewrite Hv, reverse_involutive, En.
  change (eval (n0 :: ?l)) with (n0 * pw (length l) + eval l) in *. cbn [length] in *.
  pose proof (eval_bound _ Hw) as HB. cbn [length] in HB. rewrite pw8_value in *. unfold is_u in H0.
  assert (n0 = 0) by lia. lia.
Qed.

Lemma key_number_below b : bytes b -> length b = 32%nat -> value (key_number b) < 2 ^ 256.
Proof.
  intros Hb Hl. destruct (key_number_spec b Hb Hl) as (_ & -> & _). pose proof (le_value_bound b Hb) as H.
  rewrite Hl in H. change (256 ^ Z.of_nat 32) with (2 ^ 256) in H. lia.
Qed.

Lemma key_bytes_roundtrip b : bytes b -> length b = 32%nat -> number_key (key_number b) = b.
Proof.
  intros Hb Hl. destruct (key_number_spec b Hb Hl) as (HW & HV & _).
  destruct (number_key_spec _ HW (key_number_below b Hb Hl)) as (Hb' & Hl' & Hv).
  apply le_value_inj; [assumption..| congruence | congruence].
Qed.

Lemma number_bytes_roundtrip A :
  wf A -> value A < 2 ^ 256 -> value (key_number (number_key A)) = value A.
Proof.
  intros HW Hlt. destruct (number_key_spec A HW Hlt) as (Hb & Hl & Hv).
  destruct (key_number_spec _ Hb Hl) as (_ & -> & _). exact Hv.
Qed.

(** ** The range test on secret keys *)
Lemma le_value_take_S n b : (n < length b)%nat -> le_value (take (S n) b) = le_value (take n b) + 256 ^ Z.of_nat n * nth n b 0.
Proof.
  intros Hn. rewrite (take_S_r b n (nth n b 0)) by (by apply lookup_nth).
  rewrite le_value_app, length_take, Nat.min_l by lia. simpl le_value. lia.
Qed.

Lemma last_nonzero_zero n b :
  bytes b -> (n <= length b)%nat -> last_nonzero n b = -1 <-> le_value (take n b) = 0.
Proof.
  intros Hb. induction n as [|n IH]; intros Hn; [done|]. rewrite le_value_take_S by lia.
  pose proof (byte_at_range b (Z.of_nat n) Hb) as HR. unfold byte_at in HR. rewrite Nat2Z.id in HR.
  pose proof (le_value_bound (take n b)) as HT. specialize (IH ltac:(lia)).
  assert (HB : bytes (take n b)) by (by apply Forall_take). specialize (HT HB).
  assert (0 < 256 ^ Z.of_nat n) by (apply Z.pow_pos_nonneg; lia). cbn [last_nonzero].
  destruct (Z.eqb_spec (nth n b 0) 0) as [E | E]; simpl negb; cbv iota.
  - rewrite E, IH. lia.
  - split; [lia|]. intros HH. nia.
Qed.

Lemma key_le_loop_spec n b m :
  bytes b -> bytes m -> (n <= length b)%nat -> (n <= length m)%nat ->
  key_le_loop n b m = (le_value (take n b) <=? le_value (take n m)).
Proof.
  intros Hb Hm. induction n as [|n IH]; intros Hn Hn'; [done|]. cbn [key_le_loop].
  rewrite !le_value_take_S, Z.gtb_ltb, IH by lia.
  pose proof (le_value_bound (take n b) ltac:(by apply Forall_take)) as HB.
  pose proof (le_value_bound (take n m) ltac:(by apply Forall_take)) as HM.
  rewrite length_take, Nat.min_l in HB, HM by lia. set (p := 256 ^ Z.of_nat n) in *.
  destruct (Z.ltb_spec (nth n m 0) (nth n b 0)); [symmetry; apply Z.leb_gt; nia|].
  destruct (Z.ltb_spec (nth n b 0) (nth n m 0)); [symmetry; apply Z.leb_le; nia|].
  replace (nth n b 0) with (nth n m 0) by lia.
  destruct (Z.leb_spec (le_value (take n b)) (le_value (take n m)));
    destruct (Z.leb_spec (le_value (take n b) + p * nth n m 0) (le_value (take n m) + p * nth n m 0)); lia.
Qed.

Lemma isValidSecretKey_spec b :
  bytes b -> length b = 32%nat ->
  isValidSecretKey_256 b = (0 <? le_value b) && (le_value b <=? le_value maxSecretKey_256).
Proof.
  intros Hb Hl. unfold isValidSecretKey_256.
  assert (Hm : bytes maxSecretKey_256) by (unfold bytes; repeat constructor; unfold is_u; lia).
  rewrite key_le_loop_spec by (assumption || (simpl length; lia)).
  rewrite (take_ge b), (take_ge maxSecretKey_256) by (simpl length; lia).
  pose proof (last_nonzero_zero 32 b Hb ltac:(lia)) as HZ. rewrite (take_ge b) in HZ by lia.
  pose proof (le_value_bound b Hb).
  destruct (Z.eqb_spec (last_nonzero 32 b) (-1)) as [E | E]; simpl andb.
  - apply HZ in E as E'. rewrite E'. simpl Z.ltb. cbv iota.
    destruct (Z.eqb_spec (nth 0 b 0) 0) as [|Hne]; [reflexivity|]. exfalso. apply Hne.
    destruct b as [|b0 b]; [reflexivity|]. simpl in E' |- *.
    apply list.Forall_cons in Hb as [H0 Hb]. pose proof (le_value_bound b Hb). unfold is_u in H0. lia.
  - destruct (Z.ltb_spec 0 (le_value b)); [reflexivity|]. exfalso. apply E, HZ. lia.
Qed.

(** ** Drawing a secret key *)
Lemma le_bytes32_bytes w : bytes (le_bytes32 w) /\ length (le_bytes32 w) = 4%nat.
Proof. split; [|reflexivity]. unfold le_bytes32, bytes. repeat constructor; apply wrap_range; lia. Qed.

Lemma draw_key_bytes rand n : bytes (draw_key rand n) /\ length (draw_key rand n) = 32%nat.
Proof.
  split; [|reflexivity]. unfold draw_key. cbn [map concat].
  repeat (apply Forall_app; split); try apply le_bytes32_bytes. constructor.
Qed.

(** A drawn key is the first of the generator's blocks that passes the test. *)
Lemma secret_key_loop_spec rand f n key n' :
  secret_key_loop rand f n = Some (key, n') ->
  isValidSecretKey_256 key = true /\
  exists k, n' = (n + 8 * S k)%nat /\ key = draw_key rand (n + 8 * k) /\
            forall j, (j < k)%nat -> isValidSecretKey_256 (draw_key rand (n + 8 * j)) = false.
Proof.
  revert n. induction f as [|f IH]; intros n E; [discriminate|]. cbn [secret_key_loop] in E. cbv zeta in E.
  destruct (isValidSecretKey_256 (draw_key rand n)) eqn:Ev.
  - injection E as <- <-. split; [exact Ev|]. exists 0%nat. rewrite Nat.mul_0_r, Nat.add_0_r.
    split; [lia|]. split; [reflexivity|]. intros j Hj. lia.
  - destruct (IH _ E) as (Hv & k & Hn & Hk & Hj). split; [exact Hv|]. exists (S k). split; [lia|].
    replace (n + 8 * S k)%nat with (n + 8 + 8 * k)%nat by lia. split; [exact Hk|].
    intros [|j] Hlt; [by rewrite Nat.mul_0_r, Nat.add_0_r|].
    replace (n + 8 * S j)%nat with (n + 8 + 8 * j)%nat by lia. apply Hj. lia.
Qed.

(** It ends as soon as the generator yields a good block. *)
Lemma secret_key_loop_total rand f n k :
  (k < f)%nat -> isValidSecretKey_256 (draw_key rand (n + 8 * k)) = true ->
  exists r, secret_key_loop rand f n = Some r.
Proof.
  revert n k. induction f as [|f IH]; intros n k Hk Hv; [lia|]. cbn [secret_key_loop]. cbv zeta.
  destruct (isValidSecretKey_256 (draw_key rand n)) eqn:Ev; [by eexists|].
  destruct k as [|k]; [rewrite Nat.mul_0_r, Nat.add_0_r in Hv; congruence|].
  apply (IH _ k); [lia|]. by replace (n + 8 + 8 * k)%nat with (n + 8 * S k)%nat by lia.
Qed.

(** ** The curve equation test *)
Definition zvalid (x y : Z) : bool :=
  fmul y y =? fadd (fsub (fmul x (fmul x x)) (fadd (fadd x x) x)) (value coef_B).

Lemma coef_B_felem : felem coef_B.
Proof. apply is_felem_true. vm_compute. reflexivity. Qed.

Lemma loop_notEqual A B : notEqual_loop (num A) (num B) = notEqual256 A B.
Proof. reflexivity. Qed.

Lemma valid_point_ref X Y : felem X -> big256 Y -> ecc_is_valid_point X Y = zvalid (value X) (value Y).
Proof.
  intros HX HY. unfold ecc_is_valid_point, zvalid. cbv zeta.
  destruct (MultiplyBigHexModP256_value Y Y HY HY) as [FY VY].
  assert (HR : ref (AddBigHexModP256 (SubtractBigHexMod256 (MultiplyBigHexModP256 X (MultiplyBigHexModP256 X X))
      (AddBigHexModP256 (AddBigHexModP256 X X) X) initBigNumber256) coef_B)
      (fadd (fsub (fmul (value X) (fmul (value X) (value X))) (fadd (fadd (value X) (value X)) (value X))) (value coef_B))).
  { pose proof coef_B_felem as HB. apply ref_self in HX, HB. ref_tree. }
  destruct HR as [HF HV].
  rewrite loop_notEqual.
  rewrite notEqual_ref, negb_involutive, VY, HV by assumption. reflexivity.
Qed.

Lemma zvalid_on_curve x y :
  0 <= x < P256 -> regular [(y, y); (x, x); (x, fmul x x)] = true ->
  zvalid x y = true <-> on_curve (Pt x y).
Proof.
  intros Hx Hr. apply regular_exact in Hr. unfold zvalid, on_curve. rewrite Z.eqb_eq.
  assert (Ey : fmul y y == y * y) by (eapply exact_meq; [exact Hr | simpl; tauto]).
  assert (Exx : fmul x x == x * x) by (eapply exact_meq; [exact Hr | simpl; tauto]).
  assert (Exxx : fmul x (fmul x x) == x * fmul x x) by (eapply exact_meq; [exact Hr | simpl; tauto]).
  assert (E : fadd (fsub (fmul x (fmul x x)) (fadd (fadd x x) x)) (value coef_B) == x * x * x - 3 * x + value coef_B).
  { rewrite !fadd_meq, fsub_meq, !fadd_meq, Exxx, Exx. mring. }
  rewrite <- E, <- Ey. split; [by intros -> |]. apply meq_small; [apply fmul_range | apply fadd_range].
Qed.

(** ** Public key generation, end to end *)
Lemma base_point_bytes :
  bytes BasePoint_x_256 /\ length BasePoint_x_256 = 32%nat /\ bytes BasePoint_y_256 /\ length BasePoint_y_256 = 32%nat.
Proof. unfold bytes. repeat split; repeat constructor; unfold is_u; lia. Qed.

Lemma base_point_valid :
  ecc_is_valid_point (key_number BasePoint_x_256) (key_number BasePoint_y_256) = true.
Proof. vm_compute. reflexivity. Qed.

Definition base_public : ECC_Point256 := mkPoint (key_number BasePoint_x_256) (key_number BasePoint_y_256).

(** What the conversion of the result has to meet: not infinity, the inverse's cofactor in range,
    the two products regular. *)
Definition elt_ok (e : ecc_elt_tag) : bool :=
  negb (zinfinite (pval (Jacobian_PointQ256 e))) && affine_ok (Jacobian_PointQ256 e).

Definition result_ok (sk : list Z) : Prop :=
  forall e, mult_loop MULT_FUEL (ecc_elt_init base_public (key_number sk)) = Some e -> elt_ok e = true.

Lemma some_elt_ok (o : option ecc_elt_tag) :
  from_option elt_ok false o = true -> forall e, o = Some e -> elt_ok e = true.
Proof. intros H e ->. exact H. Qed.

Lemma generate_valid kt sk bx by' e X Y :
  ecc_is_valid_point (key_number bx) (key_number by') = true ->
  mult_loop MULT_FUEL (ecc_elt_init (mkPoint (key_number bx) (key_number by')) (key_number sk)) = Some e ->
  GF_Point_Jacobian_To_Affine256 (Jacobian_PointQ256 e) = Some (X, Y) ->
  ecc_generate_new_key256 kt sk bx by' = Some (BT_STS_SUCCESS, number_key X ++ number_key Y).
Proof.
  intros HV HE HA. unfold ecc_generate_new_key256. cbv zeta. cbn [px py]. rewrite HV, HE.
  cbn [mbind option_bind]. rewrite HA. reflexivity.
Qed.

Lemma generate_invalid kt sk bx by' :
  ecc_is_valid_point (key_number bx) (key_number by') = false ->
  ecc_generate_new_key256 kt sk bx by' = Some (BT_STS_INVALID_PARM, []).
Proof. intros HV. unfold ecc_generate_new_key256. cbv zeta. cbn [px py]. rewrite HV. reflexivity. Qed.

Lemma public_key_correct sk :
  bytes sk -> length sk = 32%nat -> key_ok (le_value sk) = true -> result_ok sk ->
  exists x y out, Multiple G256 (le_value sk) (Pt x y) /\ on_curve (Pt x y) /\
    ecc_gen_new_public_key_256 sk = Some (BT_STS_SUCCESS, out) /\ length out = 64%nat /\
    le_value (take 32 out) = x mod P256 /\ le_value (drop 32 out) = y mod P256.
Proof.
  intros Hb Hl Hok Hres. destruct (key_number_spec sk Hb Hl) as (HW & HV & _).
  pose proof (key_number_below sk Hb Hl) as Hlt. rewrite <- HV in Hok.
  destruct (mult_multiple base_public (key_number sk) HW Hlt Hok) as (e & E & P & HM & HD).
  destruct (mult_loop_init base_public (key_number sk) HW) as (e2 & E2 & [HF _]).
  rewrite E in E2. injection E2 as <-. specialize (Hres e E). unfold elt_ok in Hres.
  apply andb_true_iff in Hres as [Hinf Haff]. rewrite HV in HM.
  destruct P as [|x y]; [unfold denotes in HD; rewrite HD in Hinf; discriminate Hinf|].
  destruct (to_affine_coordinates _ x y HF HD Haff) as (X & Y & EA & FX & FY & VX & VY).
  destruct (number_key_spec X) as (_ & LX & EX); [apply FX | pose proof (felem_lt X FX) as H; rewrite P256_eq in H; lia |].
  destruct (number_key_spec Y) as (_ & LY & EY); [apply FY | pose proof (felem_lt Y FY) as H; rewrite P256_eq in H; lia |].
  exists x, y, (number_key X ++ number_key Y). split; [exact HM|].
  split; [apply (Multiple_on_curve G256 (le_value sk)); [apply base_on_curve | exact HM]|].
  split; [|split; [rewrite length_app, LX, LY; reflexivity|]].
  - unfold ecc_gen_new_public_key_256. exact (generate_valid _ _ _ _ e X Y base_point_valid E EA).
  - rewrite take_app_length', drop_app_length' by (symmetry; exact LX). split; congruence.
Qed.
