(* ===== verification/EccProps.v ===== *)
(** What the P256 component of ecc_p256.c promises, stated on its functions: exact arithmetic on
    nine-word numbers, the field operations and where the multiplication is wrong, inversion, the
    group law of the curve, the comb multiplication, keys and key generation. *)
From Stdlib Require Import ZArith Znumtheory Lia Bool Zdiv Setoid Morphisms.
From stdpp Require Import base list option.
From S2P Require Import Prelude BigHex FieldP256 CurveP256 CurveLaws CurveMult CurveKeys.
#[local] Open Scope field_scope.

(** ** Concrete field elements and points for the witnesses *)
Definition big_of (l : list Z) : bigHex256 := setBigNumberLength256 (mkBig l 0 0).
Definition two : bigHex256 := Eval vm_compute in big_of [0; 0; 0; 0; 0; 0; 0; 0; 2].
Definition three : bigHex256 := Eval vm_compute in big_of [0; 0; 0; 0; 0; 0; 0; 0; 3].
Definition half_minus_1 : bigHex256 := Eval vm_compute in
  big_of [0; 0x7fffffff; 0xffffffff; 0xffffffff; 0xffffffff; 0xffffffff; 0xffffffff; 0xffffffff; 0xffffffff].
Definition all_ones : bigHex256 := Eval vm_compute in big_of (replicate 9 0xffffffff).

Lemma two_felem : felem two.
Proof. apply is_felem_true. vm_compute. reflexivity. Qed.
Lemma three_felem : felem three.
Proof. apply is_felem_true. vm_compute. reflexivity. Qed.
Lemma half_felem : felem half_minus_1.
Proof. apply is_felem_true. vm_compute. reflexivity. Qed.
Lemma all_ones_wf : wf all_ones.
Proof.
  assert (H : wf (setBigNumberLength256 (mkBig (replicate 9 0xffffffff) 0 0)))
    by (apply setBigNumberLength256_wf; [reflexivity | repeat constructor; easy | by left]).
  exact H.
Qed.

(** The base point, twice the base point, and the latter scaled to the first coordinate of the base point. *)
Definition base_point : ECC_Jacobian_Point256 := Eval vm_compute in
  nth 0 ECC_4Win_Look_up_table ecc_Jacobian_InfinityPoint256.
Definition x_2G : Z := 0x7cf27b188d034f7e8a52380304b51ac3c08969e277f21b35a60b48fc47669978.
Definition y_2G : Z := 0x07775510db8ed040293d9ac69f7430dbba7dade63ce982299e04b79d227873d1.
Definition scaled_2G : ECC_Jacobian_Point256 := mkJac (jx base_point)
  (mkBig [0; 0xc72afb42; 0xf5f8b27a; 0x33d727f0; 0x3e4081ef; 0x3848b680; 0x2e50771f; 0x57ee1350; 0xef31202d] 8 0)
  (mkBig [0; 0xe4cb90e2; 0xe24b72da; 0x3252310d; 0x94a41ccd; 0x36af4cd5; 0x28133972; 0x6f5a928b; 0x28671415] 8 0).

Lemma base_point_fpoint : fpoint base_point.
Proof. apply is_fpoint_true. vm_compute. reflexivity. Qed.
Lemma scaled_2G_fpoint : fpoint scaled_2G.
Proof. apply is_fpoint_true. vm_compute. reflexivity. Qed.

(** [denotes] by computation, for integer coordinates. *)
Definition denotes_check (p : zpoint) (x y : Z) : bool :=
  let '(X, Y, Z) := p in
  forallb (fun a => (0 <=? a) && (a <? P256)) [X; Y; Z] && negb (Z =? 0) &&
  ((X - x * Z) mod P256 =? 0) && ((Y - y * Z) mod P256 =? 0).

Lemma denotes_by_check p x y : denotes_check p x y = true -> denotes p (Pt x y).
Proof.
  destruct p as [[X Y] Z]. unfold denotes_check. simpl forallb. rewrite !andb_true_r.
  intros H. zbool. repeat match goal with H : _ && _ = true |- _ => apply andb_true_iff in H as [? ?] end. zbool.
  simpl. split; [lia|]. split; [|split].
  - intros Hz. apply meq_small in Hz; lia.
  - apply meq_sub_0. unfold meq. rewrite Z.mod_0_l by (pose proof P256_pos; lia). done.
  - apply meq_sub_0. unfold meq. rewrite Z.mod_0_l by (pose proof P256_pos; lia). done.
Qed.

Lemma on_curve_by_check x y : ((y * y - (x * x * x - 3 * x + value coef_B)) mod P256 =? 0) = true -> on_curve (Pt x y).
Proof.
  intros H%Z.eqb_eq. simpl. apply meq_sub_0. unfold meq. rewrite Z.mod_0_l by (pose proof P256_pos; lia). done.
Qed.

Lemma off_curve_by_check x y : ((y * y - (x * x * x - 3 * x + value coef_B)) mod P256 =? 0) = false -> ~ on_curve (Pt x y).
Proof.
  intros H%Z.eqb_neq Hc. apply H. simpl in Hc. apply meq_sub_0 in Hc. unfold meq in Hc. rewrite Hc. apply Z.mod_0_l. pose proof P256_pos. lia.
Qed.

(** ** The accumulator does not depend on the point given *)
Lemma felem_value_inj A B : felem A -> felem B -> value A = value B -> A = B.
Proof.
  intros HA HB Hv. pose proof (wf_value_num A B (felem_wf _ HA) (felem_wf _ HB) Hv) as Hn.
  pose proof (wf_len A (felem_wf _ HA)) as L1. pose proof (wf_len B (felem_wf _ HB)) as L2.
  pose proof (felem_sign _ HA) as S1. pose proof (felem_sign _ HB) as S2.
  destruct A as [n l s], B as [n' l' s']; cbn in *. congruence.
Qed.

Lemma pref_inj p q z : pref p z -> pref q z -> p = q.
Proof.
  intros [Hp Hv] [Hq Hw]. destruct p as [X Y Z], q as [X' Y' Z'], Hp as [P1 P2 P3], Hq as [Q1 Q2 Q3].
  rewrite <- Hw in Hv. unfold pval in Hv. cbn in *. injection Hv as V1 V2 V3. f_equal; by apply felem_value_inj.
Qed.

Lemma generate_same_accumulator kt kt' sk bx by' cx cy : wf (key_number sk) ->
  ecc_is_valid_point (key_number bx) (key_number by') = true ->
  ecc_is_valid_point (key_number cx) (key_number cy) = true ->
  ecc_generate_new_key256 kt sk bx by' = ecc_generate_new_key256 kt' sk cx cy.
Proof.
  intros Hw H1 H2. unfold ecc_generate_new_key256. cbn [px py]. rewrite H1, H2.
  destruct (mult_loop_init (mkPoint (key_number bx) (key_number by')) _ Hw) as (e & -> & Q1).
  destruct (mult_loop_init (mkPoint (key_number cx) (key_number cy)) _ Hw) as (e' & -> & Q2).
  simpl. by rewrite (pref_inj _ _ _ Q1 Q2).
Qed.

(** * Properties *)

(** C1: Key generation is correct end to end, under two conditions that are decided by computation for a
    key. [key_ok]: on the key's path through the comb no product falls in the window where the
    multiplication is wrong, and no addition meets two points of the same stored first coordinate over
    different denominators. [result_ok]: the result is not infinity, the reduction of the cofactor that
    the inversion leaves is one of those it gets right ([cofactor_ok]), and the two products of the
    conversion are outside the window. Then, for a 32-byte secret key, [ecc_gen_new_public_key_256]
    ends with success and writes 64 bytes, the affine coordinates, least significant byte first, of the
    multiple of the base point by the secret key; the point is on the curve. *)
Theorem ecc_public_key sk : bytes sk -> length sk = 32%nat -> key_ok (le_value sk) = true -> result_ok sk ->
  exists x y out, Multiple G256 (le_value sk) (Pt x y) /\ on_curve (Pt x y) /\
    ecc_gen_new_public_key_256 sk = Some (BT_STS_SUCCESS, out) /\ length out = 64%nat /\
    le_value (take 32 out) = x mod P256 /\ le_value (drop 32 out) = y mod P256.
Proof. apply public_key_correct. Qed.

(** The key 2624, whose inversion leaves a cofactor below minus the prime. *)
Lemma ecc_public_key_witness : exists x y out, Multiple G256 2624 (Pt x y) /\
  ecc_gen_new_public_key_256 (0x40 :: 0x0a :: replicate 30 0) = Some (BT_STS_SUCCESS, out) /\ le_value (take 32 out) = x mod P256.
Proof.
  destruct (ecc_public_key (0x40 :: 0x0a :: replicate 30 0)) as (x & y & out & H1 & _ & H2 & _ & H3 & _).
  - repeat constructor; easy.
  - reflexivity.
  - vm_compute. reflexivity.
  - intros e. apply some_elt_ok. vm_compute. reflexivity.
  - exists x, y, out. split; [exact H1|]. split; [exact H2 | exact H3].
Defined.

(** The comb loop ends for every key: from the cursor 63 its 64 steps suffice, whatever the point
    and the key, and the result is three reduced field elements, those the same algorithm computes on
    integers with the multiplication of the code. *)
Theorem ecc_comb_terminates pub key : wf key ->
  exists e, mult_loop MULT_FUEL (ecc_elt_init pub key) = Some e /\ fpoint (Jacobian_PointQ256 e) /\
    pval (Jacobian_PointQ256 e) = zcomb 63 (value key) zinfinity.
Proof. intros H. destruct (mult_loop_init pub key H) as (e & He & Hf & Hv). by exists e. Qed.

Lemma ecc_comb_terminates_witness : wf all_ones /\ exists e,
  mult_loop MULT_FUEL (ecc_elt_init base_public all_ones) = Some e /\ fpoint (Jacobian_PointQ256 e).
Proof.
  split; [exact all_ones_wf|].
  destruct (ecc_comb_terminates base_public all_ones all_ones_wf) as (e & H1 & H2 & _). exists e. split; [exact H1 | exact H2].
Defined.

(** The comb loop multiplies: with a regular key of 256 bits the accumulator ends on the multiple
    of the base point by the key, in the code's projective representation. *)
Theorem ecc_comb_multiple pub key : wf key -> value key < 2 ^ 256 -> key_ok (value key) = true ->
  exists e P, mult_loop MULT_FUEL (ecc_elt_init pub key) = Some e /\ Multiple G256 (value key) P /\
    denotes (pval (Jacobian_PointQ256 e)) P /\ on_curve P.
Proof.
  intros Hw Hl Hk. destruct (mult_multiple pub key Hw Hl Hk) as (e & He & P & HP & Hd).
  exists e, P. split; [done|]. split; [done|]. split; [done|]. exact (Multiple_on_curve G256 _ P base_on_curve HP).
Qed.

Lemma ecc_comb_multiple_witness : exists e P, mult_loop MULT_FUEL (ecc_elt_init base_public two) = Some e /\ Multiple G256 2 P.
Proof.
  destruct (ecc_comb_multiple base_public two) as (e & P & H1 & H2 & _).
  - exact (felem_wf _ two_felem).
  - vm_compute. reflexivity.
  - vm_compute. reflexivity.
  - exists e, P. split; [exact H1 | exact H2].
Defined.

(** The precomputed table is right: its entry [d - 1] represents, on the curve, the multiple of the
    base point by the sum of 2^0, 2^64, 2^128 and 2^192 over the bits of [d]. *)
Theorem ecc_table_entries d : 0 < d < 16 ->
  exists p P, ECC_4Win_Look_up_table !! Z.to_nat (d - 1) = Some p /\ fpoint p /\
    Multiple G256 (weight d) P /\ denotes (pval p) P /\ on_curve P.
Proof.
  intros Hd. destruct (table_entry d Hd) as (p & Hp & Hf & Hv). destruct (zentry_multiple d Hd) as (P & HP & HdP).
  exists p, P. split; [done|]. split; [done|]. split; [done|]. split; [by rewrite Hv|].
  exact (Multiple_on_curve G256 _ P base_on_curve HP).
Qed.

Lemma ecc_table_entries_witness : 0 < 5 < 16 /\ exists p P, ECC_4Win_Look_up_table !! 4%nat = Some p /\
  Multiple G256 (1 + 2 ^ 128) P /\ denotes (pval p) P.
Proof.
  split; [lia|]. destruct (ecc_table_entries 5) as (p & P & H1 & _ & H2 & H3 & _); [lia|].
  exists p, P. split; [exact H1|]. split; [exact H2 | exact H3].
Defined.

(** C15: Point addition is the curve's group law under two conditions that can be evaluated: the products
    of the computation are regular (none falls in the window where the multiplication is wrong), and
    the denominators are equal when the stored first coordinates agree. Two represented points then give a representation of their sum by the
    chord and tangent rules, infinity and doubling included, and the sum of points of the curve is on it. *)
Theorem ecc_addition p q P Q : fpoint p -> fpoint q -> denotes (pval p) P -> denotes (pval q) Q ->
  add_regular (pval p) (pval q) = true -> same_X_same_Z (pval p) (pval q) ->
  let r := snd (GF_Jacobian_Point_Addition256 p q) in
  exists R, ec_add P Q R /\ fpoint r /\ denotes (pval r) R /\ (on_curve P -> on_curve Q -> on_curve R).
Proof.
  intros Hp Hq HP HQ Hr Hx r. destruct (zadd_ec_add _ _ P Q HP HQ Hr Hx) as (R & HR & Hd).
  destruct (addition_pref p q _ _ (conj Hp eq_refl) (conj Hq eq_refl)) as [Hf Hv].
  exists R. split; [done|]. split; [done|]. split; [unfold r; by rewrite Hv|]. by apply ec_add_on_curve.
Qed.

Lemma ecc_addition_witness : exists p R, ECC_4Win_Look_up_table !! 1%nat = Some p /\
  (exists Q, ec_add G256 Q R) /\ denotes (pval (snd (GF_Jacobian_Point_Addition256 base_point p))) R.
Proof.
  destruct (zentry_multiple 2) as (Q & _ & HQ); [lia|].
  destruct (ecc_addition base_point (nth 1 ECC_4Win_Look_up_table ecc_Jacobian_InfinityPoint256) G256 Q) as (R & H1 & _ & H2 & _).
  - exact base_point_fpoint.
  - apply is_fpoint_true. vm_compute. reflexivity.
  - apply denotes_by_check. vm_compute. reflexivity.
  - exact HQ.
  - vm_compute. reflexivity.
  - apply same_X_same_Zb_true. vm_compute. reflexivity.
  - eexists _, R. split; [reflexivity|]. split; [exists Q; exact H1 | exact H2].
Defined.

(** Point doubling is the tangent rule: a represented point with regular products gives a
    representation of the sum of the point with itself, infinity for a zero second coordinate. *)
Theorem ecc_doubling p x y : fpoint p -> denotes (pval p) (Pt x y) -> double_ok (pval p) = true ->
  let r := GF_Jacobian_Point_Double256 p in
  exists R, ec_add (Pt x y) (Pt x y) R /\ fpoint r /\ denotes (pval r) R /\ (on_curve (Pt x y) -> on_curve R).
Proof.
  intros Hp HP Hr r. destruct (double_pref p _ (conj Hp eq_refl)) as [Hf Hv].
  destruct (zdouble_ec_add (value (jx p)) (value (jy p)) (value (jz p)) x y x y HP) as (R & HR & Hd); [done|done|exact Hr|].
  exists R. split; [done|]. split; [done|]. split; [unfold r; by rewrite Hv|]. intros Hc. by apply (ec_add_on_curve _ _ _ HR).
Qed.

Lemma ecc_doubling_witness : exists R, ec_add G256 G256 R /\ denotes (pval (GF_Jacobian_Point_Double256 base_point)) R.
Proof.
  destruct (ecc_doubling base_point base_x base_y) as (R & H1 & _ & H2 & _).
  - exact base_point_fpoint.
  - apply denotes_by_check. vm_compute. reflexivity.
  - vm_compute. reflexivity.
  - exists R. split; [exact H1 | exact H2].
Defined.

(** The condition on the first coordinates is needed: the addition compares the stored coordinates
    without their denominators, and for the base point and twice the base point written with the same
    stored first coordinate it answers infinity, which is not their sum. *)
Theorem ecc_addition_compares_projective :
  fpoint base_point /\ fpoint scaled_2G /\
  denotes (pval base_point) G256 /\ denotes (pval scaled_2G) (Pt x_2G y_2G) /\
  on_curve G256 /\ on_curve (Pt x_2G y_2G) /\
  pval (snd (GF_Jacobian_Point_Addition256 base_point scaled_2G)) = zinfinity /\
  ~ ec_add G256 (Pt x_2G y_2G) Inf.
Proof.
  split; [exact base_point_fpoint|]. split; [exact scaled_2G_fpoint|].
  split; [apply denotes_by_check; vm_compute; reflexivity|].
  split; [apply denotes_by_check; vm_compute; reflexivity|].
  split; [exact base_on_curve|]. split; [apply on_curve_by_check; vm_compute; reflexivity|].
  split; [vm_compute; reflexivity|]. intros H. inversion H as [| | | |x1 y1 x2 y2 Hx]; subst.
  assert (Hne : (base_x - x_2G) mod P256 <> 0) by (vm_compute; discriminate).
  apply Hne. apply meq_sub_0 in Hx. unfold meq in Hx. rewrite Hx. reflexivity.
Qed.

(** The point operations on arrays compute, word by word, the projective formulas on integers: for
    any reduced coordinates, regular or not, doubling and addition give reduced coordinates whose values
    are those of the same formulas over the field operations, [fmul] standing for the code's multiplication. *)
Theorem ecc_point_refinement p q : fpoint p -> fpoint q ->
  (fpoint (GF_Jacobian_Point_Double256 p) /\ pval (GF_Jacobian_Point_Double256 p) = gdouble fmul (pval p)) /\
  (fpoint (snd (GF_Jacobian_Point_Addition256 p q)) /\
   pval (snd (GF_Jacobian_Point_Addition256 p q)) = gadd fmul (pval p) (pval q)).
Proof.
  intros Hp Hq. split; [exact (double_pref p _ (conj Hp eq_refl)) | exact (addition_pref p q _ _ (conj Hp eq_refl) (conj Hq eq_refl))].
Qed.

Lemma ecc_point_refinement_witness : fpoint base_point /\ fpoint scaled_2G /\
  pval (snd (GF_Jacobian_Point_Addition256 base_point scaled_2G)) = gadd fmul (pval base_point) (pval scaled_2G).
Proof.
  split; [exact base_point_fpoint|]. split; [exact scaled_2G_fpoint|].
  exact (proj2 (proj2 (ecc_point_refinement base_point scaled_2G base_point_fpoint scaled_2G_fpoint))).
Defined.

(** C13: Field multiplication, characterised on every input of at most 256 bits: the result is reduced,
    and it is the product modulo the prime except when the product lies between the prime and 2^256, where
    the code shifts a word too far and gives the value of the array's following length field with it. *)
Theorem ecc_multiplication A B : big256 A -> big256 B ->
  felem (MultiplyBigHexModP256 A B) /\
  value (MultiplyBigHexModP256 A B) =
    if (P256 <=? value A * value B) && (value A * value B <? 2 ^ 256)
    then (value A * value B * 2 ^ 32 + 8) mod P256 else (value A * value B) mod P256.
Proof.
  intros HA HB. destruct (MultiplyBigHexModP256_value A B HA HB) as [Hf Hv]. split; [done|].
  rewrite Hv, fmul_eq. unfold mul_window. replace POW256 with (2 ^ 256) by reflexivity. reflexivity.
Qed.

Lemma ecc_multiplication_witness : big256 two /\ big256 three /\ value (MultiplyBigHexModP256 two three) = 6.
Proof.
  split; [exact (felem_big256 _ two_felem)|]. split; [exact (felem_big256 _ three_felem)|].
  rewrite (proj2 (ecc_multiplication two three (felem_big256 _ two_felem) (felem_big256 _ three_felem))).
  vm_compute. reflexivity.
Defined.

(** That window is met by reduced field elements: 2 times 2^255 - 1 is not what the code answers. *)
Theorem ecc_multiplication_window :
  felem two /\ felem half_minus_1 /\
  value (MultiplyBigHexModP256 two half_minus_1) <> (value two * value half_minus_1) mod P256.
Proof. split; [exact two_felem|]. split; [exact half_felem|]. vm_compute. discriminate. Qed.

(** Addition and subtraction of field elements are those of the integers modulo the prime, with
    reduced results, whatever the sign field the result had. *)
Theorem ecc_add_sub_mod A B R : felem A -> felem B -> sign R = 0 \/ sign R = 1 ->
  (felem (AddBigHexModP256 A B) /\ value (AddBigHexModP256 A B) = (value A + value B) mod P256) /\
  (felem (SubtractBigHexMod256 A B R) /\ value (SubtractBigHexMod256 A B R) = (value A - value B) mod P256).
Proof.
  intros HA HB HR. split; [by apply AddBigHexModP256_value | by apply SubtractBigHexMod256_value].
Qed.

Lemma ecc_add_sub_mod_witness : felem two /\ felem three /\ value (SubtractBigHexMod256 two three initBigNumber256) = P256 - 1.
Proof.
  split; [exact two_felem|]. split; [exact three_felem|].
  rewrite (proj2 (proj2 (ecc_add_sub_mod two three initBigNumber256 two_felem three_felem (or_introl eq_refl)))).
  vm_compute. reflexivity.
Defined.

(** Reduction is complete in one call: [specialModP256] takes any positive nine-word number to its
    remainder modulo the prime, and the multiplication by a word reduces its product the same way. *)
Theorem ecc_reduction A n : wf A -> sign A = 0 -> is_u 32 n ->
  (felem (specialModP256 A) /\ value (specialModP256 A) = value A mod P256) /\
  (value A < pw 8 -> felem (MultiplyBigHexByUint32_256 A n) /\
   value (MultiplyBigHexByUint32_256 A n) = (value A * n) mod P256).
Proof.
  intros HA Hs Hn. split; [by apply specialModP256_value|]. intros Hl. by apply MultiplyBigHexByUint32_256_value.
Qed.

Lemma ecc_reduction_witness : wf all_ones /\ value (specialModP256 all_ones) = (2 ^ 288 - 1) mod P256.
Proof.
  split; [exact all_ones_wf|].
  rewrite (proj2 (proj1 (ecc_reduction all_ones 1 all_ones_wf eq_refl ltac:(split; easy)))). vm_compute. reflexivity.
Defined.

(** C14: Inversion ends, and inverts exactly when the last reduction is right: for every non-zero field
    element the two nested loops end within the fuel and the number they leave in [C], which may be
    negative, is an inverse modulo the prime. When it is not negative, or what is left of its size after
    the multiple of the prime by its top word is taken out is not above the prime ([cofactor_ok]; so
    whenever it is above minus the prime), the value returned is its remainder and the inverse of the
    argument; otherwise the value returned is not an inverse. *)
Theorem ecc_inversion A : felem A -> value A <> 0 ->
  exists c R, inv_cofactor A = Some c /\ bigHexInversion256 A = Some R /\ (c * value A) mod P256 = 1 /\
    (- P256 < c -> cofactor_ok c = true) /\
    (cofactor_ok c = true -> felem R /\ value R = c mod P256) /\
    (cofactor_ok c = true <-> (value R * value A) mod P256 = 1).
Proof.
  intros [Hw Hl Hs] Hn. pose proof (wf_value_bound A Hw).
  destruct (bigHexInversion256_value A) as (c & R & H1 & H2 & H3 & H4 & H5); [done | lia | apply unit_gcd; lia|].
  exists c, R. split; [exact H1|]. split; [exact H2|]. split; [exact H3|]. split; [exact (cofactor_above c)|]. split.
  - intros Hok. destruct (H4 Hok) as (F & V & _). by split.
  - split; [intros Hok; exact (proj2 (proj2 (H4 Hok)))|]. intros E. destruct (cofactor_ok c); [done|]. by destruct (H5 eq_refl).
Qed.

Lemma two_cofactor_ok : from_option cofactor_ok false (inv_cofactor two) = true.
Proof. vm_compute. reflexivity. Qed.

Lemma ecc_inversion_witness : felem two /\ exists R, bigHexInversion256 two = Some R /\ (value R * 2) mod P256 = 1.
Proof.
  split; [exact two_felem|]. destruct (ecc_inversion two) as (c & R & Hc & HR & _ & _ & _ & H).
  - exact two_felem.
  - vm_compute. discriminate.
  - exists R. split; [exact HR|]. pose proof two_cofactor_ok as E. rewrite Hc in E. cbn [from_option] in E. apply H. exact E.
Defined.

(** C40: The arithmetic under the field is exact: on nine-word numbers with a correct length field,
    addition below 2^288 and subtraction of the smaller number give the sum and the difference with a
    correct length field again, halving divides by two, and the comparisons decide the order. *)
Theorem ecc_big_arithmetic A B : wf A -> wf B ->
  (value A + value B < 2 ^ 288 -> wf (AddBigHex256 A B) /\ value (AddBigHex256 A B) = value A + value B) /\
  (value B <= value A -> forall R, sign R = 0 \/ sign R = 1 ->
     wf (SubtractBigHex256 A B R) /\ value (SubtractBigHex256 A B R) = value A - value B) /\
  (wf (divideByTwo256 A) /\ value (divideByTwo256 A) = value A / 2) /\
  isGreaterThanOrEqual256 A B = (value B <=? value A) /\ isGreaterThan256 A B = (value B <? value A) /\
  notEqual256 A B = negb (value A =? value B) /\ (len A = 0 <-> value A = 0).
Proof.
  intros HA HB. split; [intros H; destruct (AddBigHex256_spec A B HA HB) as (? & ? & _); [rewrite CAP_value; exact H | done]|].
  split; [intros H R HR; destruct (SubtractBigHex256_spec A B R HA HB HR H) as (? & ? & _); done|].
  split; [destruct (divideByTwo256_spec A HA) as (? & ? & _); done|].
  split; [by apply isGreaterThanOrEqual256_spec|]. split; [by apply isGreaterThan256_spec|].
  split; [by apply notEqual256_spec | by apply wf_len_zero].
Qed.

Lemma ecc_big_arithmetic_witness : wf three /\ wf two /\ value (AddBigHex256 three two) = 5 /\ isGreaterThan256 three two = true.
Proof.
  destruct (ecc_big_arithmetic three two (felem_wf _ three_felem) (felem_wf _ two_felem)) as (H1 & _ & _ & _ & H2 & _).
  split; [exact (felem_wf _ three_felem)|]. split; [exact (felem_wf _ two_felem)|]. split.
  - refine (eq_trans (proj2 (H1 _)) _); vm_compute; reflexivity.
  - rewrite H2. vm_compute. reflexivity.
Defined.

(** Keys cross the byte boundary without loss: 32 bytes, least significant first, become a
    normalised number of that value, and writing it back gives the same bytes; a number below 2^256
    survives the opposite trip. *)
Theorem ecc_key_bytes b A : bytes b -> length b = 32%nat -> wf A -> value A < 2 ^ 256 ->
  wf (key_number b) /\ value (key_number b) = le_value b /\ number_key (key_number b) = b /\
  length (number_key A) = 32%nat /\ value (key_number (number_key A)) = value A.
Proof.
  intros Hb Hl HA Hv. destruct (key_number_spec b Hb Hl) as (H1 & H2 & _). destruct (number_key_spec A HA Hv) as (_ & H3 & _).
  split; [done|]. split; [done|]. split; [by apply key_bytes_roundtrip|]. split; [done|]. by apply number_bytes_roundtrip.
Qed.

Lemma ecc_key_bytes_witness : number_key (key_number DebugE256SecretKey) = DebugE256SecretKey.
Proof.
  refine (proj1 (proj2 (proj2 (ecc_key_bytes DebugE256SecretKey two _ eq_refl (felem_wf _ two_felem) _)))).
  - repeat constructor; easy.
  - vm_compute. reflexivity.
Defined.

(** A secret key is accepted exactly when its value is from 1 to the maximum of the table; the
    generation loop returns a key it accepts, the first such among the successive draws of 32 random
    bytes, and returns one whenever some draw within the fuel is acceptable. *)
Theorem ecc_secret_key rand fuel n b k0 : bytes b -> length b = 32%nat ->
  isValidSecretKey_256 b = (0 <? le_value b) && (le_value b <=? le_value maxSecretKey_256) /\
  (forall key n', secret_key_loop rand fuel n = Some (key, n') ->
    0 < le_value key <= le_value maxSecretKey_256 /\
    exists k, n' = (n + 8 * S k)%nat /\ key = draw_key rand (n + 8 * k) /\
      forall j, (j < k)%nat -> isValidSecretKey_256 (draw_key rand (n + 8 * j)) = false) /\
  ((k0 < fuel)%nat -> isValidSecretKey_256 (draw_key rand (n + 8 * k0)) = true ->
    exists r, secret_key_loop rand fuel n = Some r).
Proof.
  intros Hb Hl. split; [by apply isValidSecretKey_spec|]. split; [|by apply secret_key_loop_total].
  intros key n' H. destruct (secret_key_loop_spec _ _ _ _ _ H) as (Hv & k & Hn & Hk & Hj). split; [|by exists k].
  destruct (draw_key_bytes rand (n + 8 * k)) as [H1 H2]. rewrite Hk in *.
  rewrite isValidSecretKey_spec in Hv by done. apply andb_true_iff in Hv as [Hv1 Hv2]. zbool. lia.
Qed.

Lemma ecc_secret_key_witness : isValidSecretKey_256 (replicate 32 0) = false /\
  exists r, secret_key_loop (fun n => if (n <? 8)%nat then 0 else 5) 2 0 = Some r.
Proof.
  assert (Hb : bytes (replicate 32 0)) by (repeat constructor; easy).
  destruct (ecc_secret_key (fun n => if (n <? 8)%nat then 0 else 5) 2 0 (replicate 32 0) 1 Hb eq_refl) as (H1 & _ & H3).
  split; [rewrite H1; reflexivity|]. apply H3; [lia | vm_compute; reflexivity].
Defined.

(** A public point is accepted exactly when it satisfies the curve's equation: for a reduced first
    coordinate and a 256-bit second one, with the three products of the test outside the window. *)
Theorem ecc_valid_point X Y : felem X -> big256 Y ->
  regular [(value Y, value Y); (value X, value X); (value X, fmul (value X) (value X))] = true ->
  ecc_is_valid_point X Y = true <-> on_curve (Pt (value X) (value Y)).
Proof.
  intros HX HY Hr. rewrite valid_point_ref by done. apply zvalid_on_curve; [by apply felem_value_range | done].
Qed.

Lemma ecc_valid_point_witness : on_curve (Pt (value (key_number DebugE256PublicKey_x)) (value (key_number DebugE256PublicKey_y))).
Proof.
  apply ecc_valid_point.
  - apply is_felem_true. vm_compute. reflexivity.
  - apply felem_big256, is_felem_true. vm_compute. reflexivity.
  - vm_compute. reflexivity.
  - vm_compute. reflexivity.
Defined.

(** C38: A peer's point is checked, then not used: for a reduced first and a 256-bit second coordinate,
    with the three products of the check outside the window, a point off the curve is refused and
    nothing is written, and for an accepted point, whatever the key type asked, the answer is the
    caller's own public key, so no DH key depends on the peer. [ecc_peer_point_window] shows that the
    condition on the products is needed. *)
Theorem ecc_peer_point kt sk bx by' : bytes sk -> length sk = 32%nat -> felem (key_number bx) -> big256 (key_number by') ->
  let x := value (key_number bx) in let y := value (key_number by') in
  regular [(y, y); (x, x); (x, fmul x x)] = true ->
  (~ on_curve (Pt x y) -> ecc_generate_new_key256 kt sk bx by' = Some (BT_STS_INVALID_PARM, [])) /\
  (on_curve (Pt x y) -> ecc_generate_new_key256 kt sk bx by' = ecc_gen_new_public_key_256 sk).
Proof.
  intros Hb Hl Hx Hy x y Hr.
  assert (Hv : ecc_is_valid_point (key_number bx) (key_number by') = true <-> on_curve (Pt x y)).
  { rewrite valid_point_ref by done. apply zvalid_on_curve; [by apply felem_value_range | done]. }
  split; intros Hc.
  - apply generate_invalid. destruct (ecc_is_valid_point _ _); [|done]. contradict Hc. by apply Hv.
  - apply Hv in Hc. destruct (key_number_spec sk Hb Hl) as (Hw & _).
    exact (generate_same_accumulator kt ECC_PUBLICKEY_GENERATION sk bx by' BasePoint_x_256 BasePoint_y_256 Hw Hc base_point_valid).
Qed.

Lemma ecc_peer_point_witness :
  ecc_generate_new_key256 ECC_DHKEY_GENERATION DebugE256SecretKey DebugE256PublicKey_x DebugE256PublicKey_y =
  ecc_gen_new_public_key_256 DebugE256SecretKey.
Proof.
  refine (proj2 (ecc_peer_point ECC_DHKEY_GENERATION DebugE256SecretKey DebugE256PublicKey_x DebugE256PublicKey_y _ eq_refl _ _ _) _).
  - repeat constructor; easy.
  - apply is_felem_true. vm_compute. reflexivity.
  - apply felem_big256, is_felem_true. vm_compute. reflexivity.
  - vm_compute. reflexivity.
  - apply on_curve_by_check. vm_compute. reflexivity.
Defined.

(** The check is made with the multiplication that is wrong in its window: a point off the curve whose
    second coordinate has its square there is accepted. *)
Definition window_x : list Z := number_key (big_of [0; 0x4646bf8b; 0x9484e66a; 0x52dd2f25; 0x4dd9ed4f; 0xa5e4c441; 0xbcd9de79; 0x14785715; 0x002154ee]).
Definition window_y : list Z := number_key (big_of [0; 0; 0; 0; 0; 0xffffffff; 0xffffffff; 0xffffffff; 0xffffffff]).

Theorem ecc_peer_point_window kt sk : bytes sk -> length sk = 32%nat ->
  felem (key_number window_x) /\ felem (key_number window_y) /\ ~ on_curve (Pt (value (key_number window_x)) (value (key_number window_y))) /\
  ecc_generate_new_key256 kt sk window_x window_y = ecc_gen_new_public_key_256 sk.
Proof.
  intros Hb Hl. split; [apply is_felem_true; vm_compute; reflexivity|]. split; [apply is_felem_true; vm_compute; reflexivity|]. split.
  - apply off_curve_by_check. vm_compute. reflexivity.
  - destruct (key_number_spec sk Hb Hl) as (Hw & _).
    apply (generate_same_accumulator kt ECC_PUBLICKEY_GENERATION sk window_x window_y BasePoint_x_256 BasePoint_y_256 Hw); [vm_compute; reflexivity | exact base_point_valid].
Qed.

Lemma ecc_peer_point_window_witness : ecc_generate_new_key256 ECC_DHKEY_GENERATION DebugE256SecretKey window_x window_y = ecc_gen_new_public_key_256 DebugE256SecretKey.
Proof. apply (ecc_peer_point_window ECC_DHKEY_GENERATION DebugE256SecretKey); [repeat constructor; easy | reflexivity]. Defined.
