(* ===== verification/Transq.v ===== *)
(** The transfer queue between two cores, platform/hal/hal_transq.c: two rings of message slots
    per channel, one per priority, with the transmit side, the receive side, the interrupt
    handlers and the configuration. *)
From Stdlib Require Import ZArith Lia Bool.
From stdpp Require Import base list option.
From S2P Require Import Prelude.

(** ** Data *)
Definition TRANSQ_SLOT_NUM : Z := 32.

Inductive HAL_TRANSQ_PRI_T := HAL_TRANSQ_PRI_NORMAL | HAL_TRANSQ_PRI_HIGH.

#[export] Instance pri_eq_dec : EqDecision HAL_TRANSQ_PRI_T.
Proof. solve_decision. Defined.

(** The argument of the interface is an integer: 2 and above is [HAL_TRANSQ_PRI_QTY]. *)
Definition pri_of (p : Z) : option HAL_TRANSQ_PRI_T :=
  if p =? 0 then Some HAL_TRANSQ_PRI_NORMAL else if p =? 1 then Some HAL_TRANSQ_PRI_HIGH else None.

Inductive HAL_TRANSQ_RET_T :=
| RET_OK | RET_BAD_ID | RET_BAD_PRI | RET_BAD_CFG | RET_BAD_SLOT | RET_BAD_TX_NUM
| RET_BAD_RX_NUM | RET_BAD_MODE | RET_RX_EMPTY | RET_TX_FULL.

(** [HAL_TRANSQ_SLOT_NUM_T]. *)
Record slot_num := mkNum { num_tx_normal : Z; num_tx_high : Z; num_rx_normal : Z; num_rx_high : Z }.

(** The per-priority entries of the driver's arrays. *)
Record prio := mkPrio {
  tx_num : Z; rx_num : Z;
  next_tx_slot : Z; active_tx_slot : Z; tx_slot_full : bool;
  next_rx_slot : Z; rx_irq_mask : Z; tx_irq_mask : Z }.

(** Writes to write-only registers and calls to other drivers, in order. *)
Inductive effect :=
| RMT_INTSET (v : Z) | LDONE_INTCLR (v : Z) | LERR_INTCLR (v : Z) | RMT_INTCLR (v : Z)
| PEER_RMT_INTCLR (v : Z)
| Cmu_enable | Cmu_disable | Nvic_remote_on | Nvic_local_on | Nvic_remote_off | Nvic_local_off
| Call_rx_handler (p : HAL_TRANSQ_PRI_T) | Call_tx_handler (p : HAL_TRANSQ_PRI_T) (addr len : Z).

(** One channel: configuration, both priorities, the slots and the readable registers. The
    handlers are function pointers, of which the driver tests only that they are not null. *)
Record chan := mkChan {
  normal : prio; high : prio;
  rx_handler : bool; tx_handler : bool;
  WSLOT : list (Z * Z);
  CTRL : Z; RMT_INTMASK : Z; LERR_INTMASK : Z; LDONE_INTMASK : Z;
  PEER_RMT_INTMASK : Z;
  log : list effect }.

Definition pr (c : chan) (p : HAL_TRANSQ_PRI_T) : prio :=
  match p with HAL_TRANSQ_PRI_NORMAL => normal c | HAL_TRANSQ_PRI_HIGH => high c end.

Definition set_pr (p : HAL_TRANSQ_PRI_T) (x : prio) (c : chan) : chan :=
  match p with
  | HAL_TRANSQ_PRI_NORMAL => mkChan x (high c) (rx_handler c) (tx_handler c) (WSLOT c) (CTRL c) (RMT_INTMASK c)
      (LERR_INTMASK c) (LDONE_INTMASK c) (PEER_RMT_INTMASK c) (log c)
  | HAL_TRANSQ_PRI_HIGH => mkChan (normal c) x (rx_handler c) (tx_handler c) (WSLOT c) (CTRL c) (RMT_INTMASK c)
      (LERR_INTMASK c) (LDONE_INTMASK c) (PEER_RMT_INTMASK c) (log c)
  end.

Definition set_wslot (w : list (Z * Z)) (c : chan) : chan :=
  mkChan (normal c) (high c) (rx_handler c) (tx_handler c) w (CTRL c) (RMT_INTMASK c)
    (LERR_INTMASK c) (LDONE_INTMASK c) (PEER_RMT_INTMASK c) (log c).
Definition set_masks (rmt lerr ldone : Z) (c : chan) : chan :=
  mkChan (normal c) (high c) (rx_handler c) (tx_handler c) (WSLOT c) (CTRL c) rmt lerr ldone (PEER_RMT_INTMASK c) (log c).
Definition set_peer_mask (m : Z) (c : chan) : chan :=
  mkChan (normal c) (high c) (rx_handler c) (tx_handler c) (WSLOT c) (CTRL c) (RMT_INTMASK c)
    (LERR_INTMASK c) (LDONE_INTMASK c) m (log c).
Definition set_ctrl (v : Z) (c : chan) : chan :=
  mkChan (normal c) (high c) (rx_handler c) (tx_handler c) (WSLOT c) v (RMT_INTMASK c)
    (LERR_INTMASK c) (LDONE_INTMASK c) (PEER_RMT_INTMASK c) (log c).
Definition set_handlers (rx tx : bool) (c : chan) : chan :=
  mkChan (normal c) (high c) rx tx (WSLOT c) (CTRL c) (RMT_INTMASK c)
    (LERR_INTMASK c) (LDONE_INTMASK c) (PEER_RMT_INTMASK c) (log c).
Definition emit (e : effect) (c : chan) : chan :=
  mkChan (normal c) (high c) (rx_handler c) (tx_handler c) (WSLOT c) (CTRL c) (RMT_INTMASK c)
    (LERR_INTMASK c) (LDONE_INTMASK c) (PEER_RMT_INTMASK c) (log c ++ [e]).

Definition set_tx (next active : Z) (full : bool) (x : prio) : prio :=
  mkPrio (tx_num x) (rx_num x) (u8 next) (u8 active) full (next_rx_slot x) (rx_irq_mask x) (tx_irq_mask x).
Definition set_rx (next : Z) (x : prio) : prio :=
  mkPrio (tx_num x) (rx_num x) (next_tx_slot x) (active_tx_slot x) (tx_slot_full x) (u8 next) (rx_irq_mask x) (tx_irq_mask x).
Definition set_num (tx rx txm rxm : Z) (x : prio) : prio :=
  mkPrio tx rx (next_tx_slot x) (active_tx_slot x) (tx_slot_full x) (next_rx_slot x) rxm txm.

(** [1 << slot] on 32 bits; a shift by 32 gives 0, as a shift by register does on the target. *)
Definition shl1 (slot : Z) : Z := u32 (Z.shiftl 1 slot).

Definition bit_set (reg slot : Z) : bool := negb (Z.land reg (shl1 slot) =? 0).

(** ** Slot arithmetic *)
Fixpoint mask_loop (n : nat) (i result : Z) : Z :=
  match n with O => result | S n' => mask_loop n' (i + 1) (Z.lor result (shl1 i)) end.

Definition construct_mask (lsb width : Z) : Z :=
  if (lsb >=? 32) || (width =? 0) then 0 else mask_loop (Z.to_nat width) lsb 0.

Definition next_slot (n : Z) (p : HAL_TRANSQ_PRI_T) (slot : Z) : Z :=
  let slot := u32 (slot + 1) in
  match p with
  | HAL_TRANSQ_PRI_HIGH => if slot >=? TRANSQ_SLOT_NUM then u32 (TRANSQ_SLOT_NUM - n) else slot
  | HAL_TRANSQ_PRI_NORMAL => if slot >=? n then 0 else slot
  end.

Definition get_next_rx_slot (c : chan) (p : HAL_TRANSQ_PRI_T) (slot : Z) : Z := next_slot (rx_num (pr c p)) p slot.
Definition get_next_tx_slot (c : chan) (p : HAL_TRANSQ_PRI_T) (slot : Z) : Z := next_slot (tx_num (pr c p)) p slot.

Definition hal_transq_active_tx_valid (c : chan) (p : HAL_TRANSQ_PRI_T) : bool :=
  (active_tx_slot (pr c p) >=? TRANSQ_SLOT_NUM) ||
  negb (active_tx_slot (pr c p) =? next_tx_slot (pr c p)) || tx_slot_full (pr c p).

(** ** Transmitting

    The operations return [None] where the code stops at an ASSERT or would index the slots out
    of range; registers the hardware changes are arguments, as the values read. *)
Definition hal_transq_tx (c : chan) (pri : Z) (data len : Z) : option (HAL_TRANSQ_RET_T * chan) :=
  match pri_of pri with
  | None => Some (RET_BAD_PRI, c)
  | Some p =>
      if tx_num (pr c p) =? 0 then Some (RET_BAD_TX_NUM, c)
      else if tx_slot_full (pr c p) then Some (RET_TX_FULL, c)
      else
        let slot := next_tx_slot (pr c p) in
        if negb (slot <? TRANSQ_SLOT_NUM) then None else
        let c1 := emit (RMT_INTSET (shl1 slot)) (set_wslot (<[Z.to_nat slot := (u32 data, len)]> (WSLOT c)) c) in
        let active := if active_tx_slot (pr c p) >=? TRANSQ_SLOT_NUM then slot else active_tx_slot (pr c p) in
        let next := get_next_tx_slot c p slot in
        let full := if u8 next =? u8 active then true else tx_slot_full (pr c p) in
        Some (RET_OK, set_pr p (set_tx next active full (pr c1 p)) c1)
  end.

(** The common part of [hal_transq_get_tx_status] and of the local interrupt handler: the active
    slot [slot] is done. *)
Definition tx_done (p : HAL_TRANSQ_PRI_T) (slot : Z) (c0 : chan) : chan :=
  let c := emit (LDONE_INTCLR (shl1 slot)) c0 in
  let x := pr c p in
  let next := get_next_tx_slot c p slot in
  if negb (tx_slot_full x) && (next =? next_tx_slot x) then
    set_pr p (set_tx (next_tx_slot x) TRANSQ_SLOT_NUM (tx_slot_full x) x) c
  else if tx_num x =? 1 then set_pr p (set_tx (next_tx_slot x) TRANSQ_SLOT_NUM false x) c
  else set_pr p (set_tx (next_tx_slot x) next false x) c.

(** [ldone_ris] is the value read from LDONE_RIS. The result carries [*done]. *)
Definition hal_transq_get_tx_status (c : chan) (pri ldone_ris : Z)
    : option (HAL_TRANSQ_RET_T * option bool * chan) :=
  match pri_of pri with
  | None => Some (RET_BAD_PRI, None, c)
  | Some p =>
      if tx_num (pr c p) =? 0 then Some (RET_BAD_TX_NUM, None, c)
      else if tx_handler c then Some (RET_BAD_MODE, None, c)
      else
        let slot := active_tx_slot (pr c p) in
        if negb (hal_transq_active_tx_valid c p) then None
        else if bit_set ldone_ris slot then Some (RET_OK, Some true, tx_done p slot c)
        else Some (RET_OK, Some false, c)
  end.

(** One turn of the LDONE loop for a status different from 0. *)
Definition local_done_step (c : chan) (status : Z) : option chan :=
  if tx_handler c then
    if negb (hal_transq_active_tx_valid c HAL_TRANSQ_PRI_HIGH) then None
    else if negb (hal_transq_active_tx_valid c HAL_TRANSQ_PRI_NORMAL) then None
    else
      p ← (if negb (Z.land status (tx_irq_mask (high c)) =? 0) then Some HAL_TRANSQ_PRI_HIGH
           else if negb (Z.land status (tx_irq_mask (normal c)) =? 0) then Some HAL_TRANSQ_PRI_NORMAL
           else None);
      let slot := active_tx_slot (pr c p) in
      if negb ((slot <? TRANSQ_SLOT_NUM) && bit_set status slot) then None else
      let c1 := tx_done p slot c in
      '(addr, len) ← WSLOT c1 !! Z.to_nat slot;
      Some (emit (Call_tx_handler p addr len) c1)
  else Some (set_masks (RMT_INTMASK c) (LERR_INTMASK c) 0 c).

Fixpoint local_done_loop (c : chan) (ldone_mis : list Z) : option chan :=
  match ldone_mis with
  | [] => Some c
  | status :: rest =>
      if status =? 0 then Some c else c1 ← local_done_step c status; local_done_loop c1 rest
  end.

(** [lerr_mis] is the first value of LERR_MIS, [ldone_mis] the values LDONE_MIS reads in turn. *)
Definition hal_transq_local_irq_handler (c : chan) (lerr_mis : Z) (ldone_mis : list Z) : option chan :=
  if negb (lerr_mis =? 0) then None else local_done_loop c ldone_mis.

(** ** Receiving

    [ris] reads the register RMT_RIS of the peer, [rslot] its slots. *)
Definition hal_transq_get_rx_status (c : chan) (pri ris : Z) : HAL_TRANSQ_RET_T * option bool :=
  match pri_of pri with
  | None => (RET_BAD_PRI, None)
  | Some p =>
      if rx_num (pr c p) =? 0 then (RET_BAD_RX_NUM, None)
      else if rx_handler c then (RET_BAD_MODE, None)
      else
        let slot := next_rx_slot (pr c p) in
        (RET_OK, Some ((slot <? TRANSQ_SLOT_NUM) && bit_set ris slot))
  end.

Definition rx_unmask (p : HAL_TRANSQ_PRI_T) (c : chan) : chan :=
  set_peer_mask (Z.lor (PEER_RMT_INTMASK c) (rx_irq_mask (pr c p))) c.

Definition hal_transq_rx_first (c : chan) (pri ris : Z) (rslot : Z -> Z * Z)
    : HAL_TRANSQ_RET_T * option (Z * Z) * chan :=
  match pri_of pri with
  | None => (RET_BAD_PRI, None, c)
  | Some p =>
      if rx_num (pr c p) =? 0 then (RET_BAD_RX_NUM, None, c)
      else
        let slot := next_rx_slot (pr c p) in
        if (slot <? TRANSQ_SLOT_NUM) && bit_set ris slot then (RET_OK, Some (rslot slot), c)
        else (RET_RX_EMPTY, Some (0, 0), rx_unmask p c)
  end.

(** The register is read twice: [ris] before the clear, [ris'] after. *)
Definition hal_transq_rx_next (c : chan) (pri ris ris' : Z) (rslot : Z -> Z * Z)
    : HAL_TRANSQ_RET_T * option (Z * Z) * chan :=
  match pri_of pri with
  | None => (RET_BAD_PRI, None, c)
  | Some p =>
      if rx_num (pr c p) =? 0 then (RET_BAD_RX_NUM, None, c)
      else
        let slot := next_rx_slot (pr c p) in
        if (slot <? TRANSQ_SLOT_NUM) && bit_set ris slot then
          let c1 := emit (PEER_RMT_INTCLR (shl1 slot)) c in
          let slot' := get_next_rx_slot c1 p slot in
          let c2 := set_pr p (set_rx slot' (pr c1 p)) c1 in
          if (slot' <? TRANSQ_SLOT_NUM) && bit_set ris' slot' then (RET_OK, Some (rslot slot'), c2)
          else (RET_RX_EMPTY, Some (0, 0), rx_unmask p c2)
        else (RET_RX_EMPTY, Some (0, 0), rx_unmask p c)
  end.

(** One turn of the receive interrupt; [handler] is what the client's callback does. *)
Definition remote_irq_step (handler : HAL_TRANSQ_PRI_T -> chan -> chan) (c : chan) (status : Z) : option chan :=
  p ← (if negb (Z.land status (rx_irq_mask (high c)) =? 0) then Some HAL_TRANSQ_PRI_HIGH
       else if negb (Z.land status (rx_irq_mask (normal c)) =? 0) then Some HAL_TRANSQ_PRI_NORMAL
       else None);
  let slot := next_rx_slot (pr c p) in
  if negb ((slot <? TRANSQ_SLOT_NUM) && bit_set status slot) then None else
  let c1 := set_peer_mask (Z.land (PEER_RMT_INTMASK c) (Z.lxor (rx_irq_mask (pr c p)) 0xFFFFFFFF)) c in
  Some (if rx_handler c1 then handler p (emit (Call_rx_handler p) c1) else c1).

Fixpoint hal_transq_remote_irq_handler (handler : HAL_TRANSQ_PRI_T -> chan -> chan) (c : chan)
    (rmt_mis : list Z) : option chan :=
  match rmt_mis with
  | [] => Some c
  | status :: rest =>
      if status =? 0 then Some c
      else c1 ← remote_irq_step handler c status; hal_transq_remote_irq_handler handler c1 rest
  end.

(** ** Configuration *)
Definition hal_transq_update_num (c : chan) (slot : option slot_num) : HAL_TRANSQ_RET_T * chan :=
  match slot with
  | None => (RET_BAD_SLOT, c)
  | Some s =>
      if num_tx_normal s + num_tx_high s >? TRANSQ_SLOT_NUM then (RET_BAD_TX_NUM, c)
      else if num_rx_normal s + num_rx_high s >? TRANSQ_SLOT_NUM then (RET_BAD_RX_NUM, c)
      else
        let n := set_num (num_tx_normal s) (num_rx_normal s)
                   (construct_mask 0 (num_tx_normal s)) (construct_mask 0 (num_rx_normal s)) (normal c) in
        let h := set_num (num_tx_high s) (num_rx_high s)
                   (construct_mask (TRANSQ_SLOT_NUM - num_tx_high s) (num_tx_high s))
                   (construct_mask (TRANSQ_SLOT_NUM - num_rx_high s) (num_rx_high s)) (high c) in
        let c1 := set_pr HAL_TRANSQ_PRI_HIGH h (set_pr HAL_TRANSQ_PRI_NORMAL n c) in
        let tx_mask := Z.lor (tx_irq_mask n) (tx_irq_mask h) in
        (RET_OK, set_masks tx_mask tx_mask (if tx_handler c1 then tx_mask else 0) c1)
  end.

Record cfg := mkCfg { cfg_slot : slot_num; cfg_rx_handler : bool; cfg_tx_handler : bool }.

Definition CTRL_REMOTE_IRQ_EN : Z := 1.
Definition CTRL_LOCAL_DONE_IRQ_EN : Z := 2.
Definition CTRL_LOCAL_ERR_IRQ_EN : Z := 4.

(** [transq_cfg[id] = *cfg] comes before the numbers are checked. *)
Definition store_cfg (g : cfg) (c : chan) : chan :=
  let s := cfg_slot g in
  set_handlers (cfg_rx_handler g) (cfg_tx_handler g)
    (set_pr HAL_TRANSQ_PRI_HIGH (set_num (num_tx_high s) (num_rx_high s) (tx_irq_mask (high c)) (rx_irq_mask (high c)) (high c))
    (set_pr HAL_TRANSQ_PRI_NORMAL (set_num (num_tx_normal s) (num_rx_normal s) (tx_irq_mask (normal c)) (rx_irq_mask (normal c)) (normal c)) c)).

Definition reset_slots (p : HAL_TRANSQ_PRI_T) (tx rx : Z) (c : chan) : chan :=
  let first n := if n =? 0 then TRANSQ_SLOT_NUM
                 else match p with HAL_TRANSQ_PRI_NORMAL => 0 | HAL_TRANSQ_PRI_HIGH => TRANSQ_SLOT_NUM - n end in
  set_pr p (set_rx (first rx) (set_tx (first tx) TRANSQ_SLOT_NUM false (pr c p))) c.

Definition hal_transq_open (c : chan) (g : option cfg) : HAL_TRANSQ_RET_T * chan :=
  match g with
  | None => (RET_BAD_CFG, c)
  | Some g =>
      let c1 := store_cfg g (emit Cmu_enable c) in
      match hal_transq_update_num c1 (Some (cfg_slot g)) with
      | (RET_OK, c2) =>
          let s := cfg_slot g in
          let c3 := reset_slots HAL_TRANSQ_PRI_HIGH (num_tx_high s) (num_rx_high s)
                      (reset_slots HAL_TRANSQ_PRI_NORMAL (num_tx_normal s) (num_rx_normal s) c2) in
          let c4 := emit (LERR_INTCLR 0xFFFFFFFF) (emit (LDONE_INTCLR 0xFFFFFFFF) (emit (RMT_INTCLR 0xFFFFFFFF) c3)) in
          let ctrl := Z.lor CTRL_REMOTE_IRQ_EN CTRL_LOCAL_ERR_IRQ_EN in
          let ctrl := if cfg_tx_handler g then Z.lor ctrl CTRL_LOCAL_DONE_IRQ_EN else ctrl in
          let c5 := set_ctrl ctrl c4 in
          let c6 := if cfg_rx_handler g then emit Nvic_remote_on c5 else c5 in
          (RET_OK, emit Nvic_local_on c6)
      | (r, c2) => (r, c2)
      end
  end.

Definition hal_transq_close (c : chan) : HAL_TRANSQ_RET_T * chan :=
  (RET_OK, emit Cmu_disable (set_ctrl 0 (emit Nvic_local_off (emit Nvic_remote_off c)))).

(** ** The channels of the driver *)
Definition with_id {R} (s : list chan) (id : Z) (bad : R) (f : chan -> option (R * chan)) : option (R * list chan) :=
  if id >=? Z.of_nat (length s) then Some (bad, s)
  else c ← s !! Z.to_nat id; '(r, c') ← f c; Some (r, <[Z.to_nat id := c']> s).

(** ** The abstract queue of one priority and the ring that represents it *)
Definition base (p : HAL_TRANSQ_PRI_T) (n : Z) : Z :=
  match p with HAL_TRANSQ_PRI_NORMAL => 0 | HAL_TRANSQ_PRI_HIGH => TRANSQ_SLOT_NUM - n end.

(** The [k]-th slot of the ring. *)
Definition ring (p : HAL_TRANSQ_PRI_T) (n k : Z) : Z := base p n + k mod n.

(** The messages [q] are in flight, the oldest in the slot [ring h]. *)
Record tx_ring (p : HAL_TRANSQ_PRI_T) (c : chan) (h : Z) (q : list (Z * Z)) : Prop := {
  tr_num : 0 < tx_num (pr c p) <= 32;
  tr_slots : length (WSLOT c) = 32%nat;
  tr_head : 0 <= h < tx_num (pr c p);
  tr_count : Z.of_nat (length q) <= tx_num (pr c p);
  tr_next : next_tx_slot (pr c p) = ring p (tx_num (pr c p)) (h + Z.of_nat (length q));
  tr_active : active_tx_slot (pr c p) = if (length q =? 0)%nat then TRANSQ_SLOT_NUM else ring p (tx_num (pr c p)) h;
  tr_full : tx_slot_full (pr c p) = (Z.of_nat (length q) =? tx_num (pr c p));
  tr_data : forall k m, q !! k = Some m -> WSLOT c !! Z.to_nat (ring p (tx_num (pr c p)) (h + Z.of_nat k)) = Some m }.

Definition tx_idle (p : HAL_TRANSQ_PRI_T) (c : chan) : Prop :=
  tx_num (pr c p) = 0 /\ next_tx_slot (pr c p) = TRANSQ_SLOT_NUM /\
  active_tx_slot (pr c p) = TRANSQ_SLOT_NUM /\ tx_slot_full (pr c p) = false.

(** The channel represents the queue [q] at priority [p]. *)
Definition queue (p : HAL_TRANSQ_PRI_T) (c : chan) (q : list (Z * Z)) : Prop :=
  (tx_idle p c /\ q = []) \/ exists h, tx_ring p c h q.

(** The abstract state of a channel: a queue of messages (address and length) per priority. *)
Definition spec : Type := HAL_TRANSQ_PRI_T -> list (Z * Z).
Definition upd (s : spec) (p : HAL_TRANSQ_PRI_T) (q : list (Z * Z)) : spec :=
  fun p' => if decide (p' = p) then q else s p'.

(** The invariant of a channel: both queues, in slots that do not overlap. *)
Record queues (c : chan) (s : spec) : Prop := {
  qs_queue : forall p, queue p c (s p);
  qs_fit : tx_num (normal c) + tx_num (high c) <= 32 }.

(** *** Ring arithmetic *)
Lemma ring_range p n k : 0 < n <= 32 -> base p n <= ring p n k < base p n + n.
Proof. intros Hn. unfold ring. pose proof (Z.mod_pos_bound k n). lia. Qed.

Lemma base_range p n : 0 < n <= 32 -> 0 <= base p n /\ base p n + n <= 32.
Proof. destruct p; unfold base, TRANSQ_SLOT_NUM; lia. Qed.

Lemma ring_bound p n k : 0 < n <= 32 -> 0 <= ring p n k < 32.
Proof. intros Hn. pose proof (ring_range p n k Hn). pose proof (base_range p n Hn). lia. Qed.

Lemma ring_mod p n k j : k mod n = j mod n -> ring p n k = ring p n j.
Proof. unfold ring. congruence. Qed.

Lemma ring_inj p n k j : 0 < n -> ring p n k = ring p n j -> Z.abs (k - j) < n -> k = j.
Proof.
  unfold ring. intros Hn H Hd. assert (E : (k - j) mod n = 0).
  { rewrite Zminus_mod. replace (k mod n) with (j mod n) by lia. rewrite Z.sub_diag. apply Z.mod_0_l. lia. }
  apply Z.mod_divide in E as [q Hq]; [|lia]. assert (q = 0) by nia. subst. lia.
Qed.

Lemma next_slot_ring p n k : 0 < n <= 32 -> next_slot n p (ring p n k) = ring p n (k + 1).
Proof.
  intros Hn. pose proof (ring_bound p n k Hn). unfold next_slot. cbv zeta.
  rewrite (u32_small (ring p n k + 1)) by lia. unfold ring.
  assert (Hm : (k + 1) mod n = if k mod n + 1 =? n then 0 else k mod n + 1).
  { rewrite <- Z.add_mod_idemp_l by lia. pose proof (Z.mod_pos_bound k n ltac:(lia)).
    destruct (Z.eqb_spec (k mod n + 1) n) as [-> | Hne]; [apply Z.mod_same; lia | apply Z.mod_small; lia]. }
  rewrite Hm. pose proof (Z.mod_pos_bound k n ltac:(lia)). destruct p; unfold base, TRANSQ_SLOT_NUM in *.
  - rewrite Z.geb_leb. destruct (Z.leb_spec n (0 + k mod n + 1)); destruct (Z.eqb_spec (k mod n + 1) n); lia.
  - rewrite Z.geb_leb. destruct (Z.leb_spec 32 (32 - n + k mod n + 1)); destruct (Z.eqb_spec (k mod n + 1) n); try lia.
    rewrite u32_small; lia.
Qed.

(** The slots of the two priorities are different. *)
Lemma rings_disjoint n m k j : 0 < n <= 32 -> 0 < m <= 32 -> n + m <= 32 ->
  ring HAL_TRANSQ_PRI_NORMAL n k <> ring HAL_TRANSQ_PRI_HIGH m j.
Proof.
  intros Hn Hm H. pose proof (ring_range HAL_TRANSQ_PRI_NORMAL n k Hn).
  pose proof (ring_range HAL_TRANSQ_PRI_HIGH m j Hm). unfold base, TRANSQ_SLOT_NUM in *. lia.
Qed.

(** *** The other priority is not touched *)
Definition other (p : HAL_TRANSQ_PRI_T) : HAL_TRANSQ_PRI_T :=
  match p with HAL_TRANSQ_PRI_NORMAL => HAL_TRANSQ_PRI_HIGH | HAL_TRANSQ_PRI_HIGH => HAL_TRANSQ_PRI_NORMAL end.

Lemma pr_set_same p x c : pr (set_pr p x c) p = x.
Proof. by destruct p. Qed.

Lemma pr_set_other p x c : pr (set_pr p x c) (other p) = pr c (other p).
Proof. by destruct p. Qed.

Lemma wslot_set_pr p x c : WSLOT (set_pr p x c) = WSLOT c.
Proof. by destruct p. Qed.

Lemma pr_emit p e c : pr (emit e c) p = pr c p.
Proof. by destruct p. Qed.

Lemma pr_wslot p w c : pr (set_wslot w c) p = pr c p.
Proof. by destruct p. Qed.

(** A representation depends on the priority's own entry and on its own slots only. *)
Lemma queue_frame p c c' q :
  queue p c q -> pr c' p = pr c p -> length (WSLOT c') = length (WSLOT c) ->
  (forall k, 0 < tx_num (pr c p) <= 32 ->
     WSLOT c' !! Z.to_nat (ring p (tx_num (pr c p)) k) = WSLOT c !! Z.to_nat (ring p (tx_num (pr c p)) k)) ->
  queue p c' q.
Proof.
  intros [[HI Hq] | [h [H1 H2 H3 H4 H5 H6 H7 H8]]] Hp Hl Hw.
  - left. unfold tx_idle in *. rewrite Hp. auto.
  - right. exists h. constructor; rewrite ?Hp; try assumption; [congruence|].
    intros k m Hk. rewrite Hw by assumption. by apply H8.
Qed.

Lemma write_other_slot p c v x k :
  0 < tx_num (pr c p) <= 32 -> 0 < tx_num (pr c (other p)) <= 32 ->
  tx_num (normal c) + tx_num (high c) <= 32 ->
  <[Z.to_nat (ring p (tx_num (pr c p)) k) := v]> (WSLOT c)
    !! Z.to_nat (ring (other p) (tx_num (pr c (other p))) x) =
  WSLOT c !! Z.to_nat (ring (other p) (tx_num (pr c (other p))) x).
Proof.
  intros Hn Hm Hfit. apply list_lookup_insert_ne. intros E.
  pose proof (ring_bound p _ k Hn). pose proof (ring_bound (other p) _ x Hm).
  assert (E' : ring p (tx_num (pr c p)) k = ring (other p) (tx_num (pr c (other p))) x) by lia.
  destruct p; simpl in *; [|symmetry in E']; revert E'; apply rings_disjoint; lia.
Qed.

(** *** Transmission *)
Lemma full_queue p c q :
  queue p c q -> tx_num (pr c p) <> 0 -> tx_slot_full (pr c p) = (Z.of_nat (length q) =? tx_num (pr c p)).
Proof. intros [[[H _] _] | [h H]] Hn; [contradiction | apply H]. Qed.

Lemma pri_of_spec pri p : pri_of pri = Some p -> pri = match p with HAL_TRANSQ_PRI_NORMAL => 0 | HAL_TRANSQ_PRI_HIGH => 1 end.
Proof.
  unfold pri_of. destruct (Z.eqb_spec pri 0); [intros [= <-]; done|].
  destruct (Z.eqb_spec pri 1); [intros [= <-]; done | discriminate].
Qed.

(** The state after a successful transmission. *)
Definition tx_result (p : HAL_TRANSQ_PRI_T) (c : chan) (data len : Z) : chan :=
  let slot := next_tx_slot (pr c p) in
  let c1 := emit (RMT_INTSET (shl1 slot)) (set_wslot (<[Z.to_nat slot := (u32 data, len)]> (WSLOT c)) c) in
  let active := if active_tx_slot (pr c p) >=? TRANSQ_SLOT_NUM then slot else active_tx_slot (pr c p) in
  let next := get_next_tx_slot c p slot in
  set_pr p (set_tx next active (if u8 next =? u8 active then true else tx_slot_full (pr c p)) (pr c1 p)) c1.

Lemma tx_ring_push p c h q data len :
  tx_ring p c h q -> Z.of_nat (length q) < tx_num (pr c p) ->
  tx_ring p (tx_result p c data len) h (q ++ [(u32 data, len)]).
Proof.
  intros [Hn Hs Hh Hc Hnext Hact Hfull Hdata] Hlt. set (n := tx_num (pr c p)) in *.
  pose proof (ring_bound p n (h + Z.of_nat (length q)) Hn) as HB.
  pose proof (ring_bound p n (h + Z.of_nat (length q) + 1) Hn) as HB1. pose proof (ring_bound p n h Hn) as HB0.
  unfold tx_result. cbv zeta. unfold get_next_tx_slot. fold n. rewrite Hnext, next_slot_ring by assumption.
  rewrite (u8_small (ring p n _)), Hact, Hfull by lia.
  assert (Hactive : (if (if (length q =? 0)%nat then TRANSQ_SLOT_NUM else ring p n h) >=? TRANSQ_SLOT_NUM
                     then ring p n (h + Z.of_nat (length q)) else if (length q =? 0)%nat then TRANSQ_SLOT_NUM else ring p n h) = ring p n h).
  { unfold TRANSQ_SLOT_NUM. destruct (Nat.eqb_spec (length q) 0) as [E | E].
    - rewrite E. change (32 >=? 32) with true. cbv iota. f_equal. lia.
    - rewrite Z.geb_leb. destruct (Z.leb_spec 32 (ring p n h)); [lia | reflexivity]. }
  rewrite Hactive, (u8_small (ring p n h)) by lia.
  assert (Hnf : (Z.of_nat (length q) =? n) = false) by (apply Z.eqb_neq; lia). rewrite Hnf.
  assert (Hfull' : (if ring p n (h + Z.of_nat (length q) + 1) =? ring p n h then true else false)
                   = (Z.of_nat (length q) + 1 =? n)).
  { destruct (Z.eqb_spec (Z.of_nat (length q) + 1) n) as [E | E].
    - replace (ring p n (h + Z.of_nat (length q) + 1)) with (ring p n h); [by rewrite Z.eqb_refl|].
      apply ring_mod. replace (h + Z.of_nat (length q) + 1) with (h + 1 * n) by lia. symmetry. apply Z_mod_plus_full.
    - destruct (Z.eqb_spec (ring p n (h + Z.of_nat (length q) + 1)) (ring p n h)) as [E' |]; [|reflexivity].
      apply ring_inj in E'; lia. }
  constructor; rewrite ?pr_set_same, ?wslot_set_pr, ?pr_emit, ?pr_wslot; cbn [tx_num set_tx next_tx_slot active_tx_slot tx_slot_full];
    fold n; rewrite ?length_app; simpl length; try assumption.
  - rewrite length_insert. exact Hs.
  - lia.
  - rewrite u8_small by lia. f_equal. lia.
  - destruct (Nat.eqb_spec (length q + 1) 0) as [E | E]; [lia|]. apply u8_small. lia.
  - rewrite Hfull'. f_equal. lia.
  - intros k m Hk. cbn [WSLOT emit set_wslot]. apply lookup_snoc_Some in Hk as [[Hlk Hk] | [-> <-]].
    + rewrite list_lookup_insert_ne; [by apply Hdata|]. intros E.
      pose proof (ring_bound p n (h + Z.of_nat k) Hn).
      assert (E' : ring p n (h + Z.of_nat (length q)) = ring p n (h + Z.of_nat k)) by lia.
      apply ring_inj in E'; lia.
    + rewrite list_lookup_insert_eq; [reflexivity | rewrite Hs; lia].
Qed.

Lemma upd_same s p q : upd s p q p = q.
Proof. unfold upd. by rewrite decide_True. Qed.

Lemma upd_other s p q : upd s p q (other p) = s (other p).
Proof. unfold upd. rewrite decide_False; [done | by destruct p]. Qed.

Lemma other_cases p p' : p' = p \/ p' = other p.
Proof. destruct p, p'; auto. Qed.

Lemma queue_num_range p c q : queue p c q -> tx_num (pr c p) = 0 \/ 0 < tx_num (pr c p) <= 32.
Proof. intros [[[H _] _] | [h H]]; [by left | right; apply H]. Qed.

(** An operation on one priority keeps the invariant when it keeps that priority's queue, its own
    number of slots and the slots of the other. *)
Lemma queues_step p c c' s q :
  queues c s -> queue p c' q -> tx_num (pr c' p) = tx_num (pr c p) -> pr c' (other p) = pr c (other p) ->
  length (WSLOT c') = length (WSLOT c) ->
  (forall k, 0 < tx_num (pr c (other p)) <= 32 ->
     WSLOT c' !! Z.to_nat (ring (other p) (tx_num (pr c (other p))) k) =
     WSLOT c !! Z.to_nat (ring (other p) (tx_num (pr c (other p))) k)) ->
  queues c' (upd s p q).
Proof.
  intros [HQ HF] Hq Hn Ho Hl Hw. split.
  - intros p'. destruct (other_cases p p') as [-> | ->]; [by rewrite upd_same|].
    rewrite upd_other. by apply queue_frame with c.
  - destruct p; simpl in *; rewrite ?Hn, ?Ho; lia.
Qed.

Lemma tx_result_other p c data len : pr (tx_result p c data len) (other p) = pr c (other p).
Proof. unfold tx_result. cbv zeta. rewrite pr_set_other. by destruct p. Qed.

Lemma tx_result_wslot p c data len :
  WSLOT (tx_result p c data len) = <[Z.to_nat (next_tx_slot (pr c p)) := (u32 data, len)]> (WSLOT c).
Proof. unfold tx_result. cbv zeta. by rewrite wslot_set_pr. Qed.

Lemma tx_result_num p c data len : tx_num (pr (tx_result p c data len) p) = tx_num (pr c p).
Proof. unfold tx_result. cbv zeta. rewrite pr_set_same. by destruct p. Qed.

Lemma tx_full pri p c s data len :
  pri_of pri = Some p -> queues c s -> tx_num (pr c p) <> 0 -> Z.of_nat (length (s p)) = tx_num (pr c p) ->
  hal_transq_tx c pri data len = Some (RET_TX_FULL, c).
Proof.
  intros Hp [HQ _] Hn Hl. unfold hal_transq_tx. rewrite Hp. apply Z.eqb_neq in Hn as Hn'. rewrite Hn'.
  rewrite (full_queue p c (s p) (HQ p) Hn), Hl, Z.eqb_refl. reflexivity.
Qed.

Lemma tx_push pri p c s data len :
  pri_of pri = Some p -> queues c s -> tx_num (pr c p) <> 0 -> Z.of_nat (length (s p)) < tx_num (pr c p) ->
  exists c', hal_transq_tx c pri data len = Some (RET_OK, c') /\
    queues c' (upd s p (s p ++ [(u32 data, len)])) /\
    log c' = log c ++ [RMT_INTSET (shl1 (next_tx_slot (pr c p)))].
Proof.
  intros Hp HQS Hn Hl. pose proof (qs_queue _ _ HQS p) as HQ. exists (tx_result p c data len).
  destruct HQ as [[[H0 _] _] | [h HR]]; [contradiction|].
  pose proof (tr_num _ _ _ _ HR) as HN. pose proof (tr_next _ _ _ _ HR) as Hnext.
  pose proof (ring_bound p _ (h + Z.of_nat (length (s p))) HN) as HB. split; [|split].
  - unfold hal_transq_tx. rewrite Hp. apply Z.eqb_neq in Hn as Hn'. rewrite Hn'.
    assert (Hf : tx_slot_full (pr c p) = false) by (rewrite (tr_full _ _ _ _ HR); apply Z.eqb_neq; lia).
    unfold tx_result. rewrite Hf. cbv zeta.
    destruct (Z.ltb_spec (next_tx_slot (pr c p)) TRANSQ_SLOT_NUM) as [_ | HX];
      [reflexivity | unfold TRANSQ_SLOT_NUM in HX; lia].
  - apply queues_step with c; try assumption.
    + right. exists h. by apply tx_ring_push.
    + apply tx_result_num.
    + apply tx_result_other.
    + rewrite tx_result_wslot. apply length_insert.
    + intros k Hk. rewrite tx_result_wslot, Hnext. apply write_other_slot; try assumption. apply HQS.
  - unfold tx_result. cbv zeta. by destruct p.
Qed.

(** *** Completion: the oldest message leaves *)
Definition done_result (p : HAL_TRANSQ_PRI_T) (c : chan) (next active : Z) : chan :=
  let c1 := emit (LDONE_INTCLR (shl1 (active_tx_slot (pr c p)))) c in
  set_pr p (set_tx next active false (pr c1 p)) c1.

(** The three branches of the code leave the same kind of state. *)
Lemma tx_done_result p c h m q :
  tx_ring p c h (m :: q) ->
  tx_done p (active_tx_slot (pr c p)) c =
  done_result p c (next_tx_slot (pr c p))
    (if (length q =? 0)%nat then TRANSQ_SLOT_NUM else ring p (tx_num (pr c p)) (h + 1)).
Proof.
  intros [Hn Hs Hh Hc Hnext Hact Hfull _]. set (n := tx_num (pr c p)) in *.
  simpl length in Hc, Hnext, Hfull. simpl in Hact.
  unfold tx_done, done_result, get_next_tx_slot. cbv zeta. rewrite !pr_emit. fold n.
  rewrite Hact, next_slot_ring, Hnext, Hfull by assumption.
  assert (Hempty : (ring p n (h + 1) =? ring p n (h + Z.of_nat (S (length q)))) = (length q =? 0)%nat).
  { destruct (Nat.eqb_spec (length q) 0) as [E | E].
    - rewrite E. apply Z.eqb_eq. f_equal.
    - apply Z.eqb_neq. intros H. apply ring_inj in H; lia. }
  rewrite Hempty. destruct (Z.eqb_spec (Z.of_nat (S (length q))) n) as [EF | EF]; simpl negb; cbn [andb].
  - destruct (Z.eqb_spec n 1) as [E1 | E1]; destruct (Nat.eqb_spec (length q) 0); try lia; reflexivity.
  - destruct (Nat.eqb_spec (length q) 0) as [E0 | E0]; [reflexivity|].
    destruct (Z.eqb_spec n 1) as [E1 | E1]; [lia | reflexivity].
Qed.

Lemma tx_ring_pop p c h m q :
  tx_ring p c h (m :: q) ->
  tx_ring p (tx_done p (active_tx_slot (pr c p)) c) ((h + 1) mod tx_num (pr c p)) q.
Proof.
  intros HR. rewrite (tx_done_result p c h m q HR). destruct HR as [Hn Hs Hh Hc Hnext Hact Hfull Hdata].
  set (n := tx_num (pr c p)) in *. simpl length in Hc, Hnext, Hfull.
  assert (Hshift : forall k, ring p n ((h + 1) mod n + k) = ring p n (h + 1 + k))
    by (intros k; apply ring_mod; apply Z.add_mod_idemp_l; lia).
  pose proof (ring_bound p n (h + 1) Hn) as HB1.
  pose proof (ring_bound p n (h + Z.of_nat (S (length q))) Hn) as HBn.
  unfold done_result. cbv zeta. constructor; rewrite ?pr_set_same, ?wslot_set_pr, ?pr_emit;
    cbn [tx_num set_tx next_tx_slot active_tx_slot tx_slot_full]; fold n; try assumption.
  - apply Z.mod_pos_bound. lia.
  - lia.
  - rewrite Hnext, u8_small, Hshift by lia. f_equal. lia.
  - destruct (length q =? 0)%nat; [reflexivity|]. rewrite u8_small by lia.
    rewrite <- (Z.add_0_r ((h + 1) mod n)), Hshift. f_equal. lia.
  - symmetry. apply Z.eqb_neq. lia.
  - intros k x Hk. rewrite Hshift. replace (h + 1 + Z.of_nat k) with (h + Z.of_nat (S k)) by lia. by apply Hdata.
Qed.

Lemma tx_done_frame p slot c :
  pr (tx_done p slot c) (other p) = pr c (other p) /\ WSLOT (tx_done p slot c) = WSLOT c /\
  tx_num (pr (tx_done p slot c) p) = tx_num (pr c p).
Proof.
  unfold tx_done. cbv zeta. destruct p; simpl; repeat (destruct (_ && _) || destruct (_ =? 1)); simpl; auto.
Qed.

(** Completing the active slot removes the head, and the slot held the head's data. *)
Lemma tx_done_queues p c s m q :
  queues c s -> s p = m :: q ->
  queues (tx_done p (active_tx_slot (pr c p)) c) (upd s p q) /\
  0 <= active_tx_slot (pr c p) < 32 /\ WSLOT c !! Z.to_nat (active_tx_slot (pr c p)) = Some m.
Proof.
  intros HQS Hs. pose proof (qs_queue _ _ HQS p) as HQ. rewrite Hs in HQ.
  destruct HQ as [[_ [=]] | [h HR]]. destruct (tx_done_frame p (active_tx_slot (pr c p)) c) as (Ho & Hw & Hn).
  pose proof (tr_active _ _ _ _ HR) as Ha. simpl in Ha. pose proof (tr_num _ _ _ _ HR) as HN.
  split; [|split].
  - apply queues_step with c; try assumption; [|by rewrite Hw|intros; by rewrite Hw].
    right. eexists. apply (tx_ring_pop p c h m q HR).
  - rewrite Ha. by apply ring_bound.
  - rewrite Ha. replace h with (h + Z.of_nat 0) by lia. by apply (tr_data _ _ _ _ HR).
Qed.

(** The consistency test the handlers assert always holds. *)
Lemma active_tx_valid p c s : queues c s -> hal_transq_active_tx_valid c p = true.
Proof.
  intros HQS. unfold hal_transq_active_tx_valid. destruct (qs_queue _ _ HQS p) as [[(H1 & H2 & H3 & H4) _] | [h HR]].
  - rewrite H3. reflexivity.
  - destruct HR as [Hn Hs Hh Hc Hnext Hact Hfull _]. destruct (s p) as [|m q] eqn:Eq; simpl in Hact.
    + rewrite Hact. reflexivity.
    + rewrite Hact, Hnext, Hfull. set (n := tx_num (pr c p)) in *.
      destruct (Z.eqb_spec (Z.of_nat (length (m :: q))) n) as [E | E]; [by rewrite !orb_true_r|].
      destruct (Z.eqb_spec (ring p n h) (ring p n (h + Z.of_nat (length (m :: q))))) as [E' | _]; [|by rewrite orb_true_r].
      apply ring_inj in E'; simpl length in *; lia.
Qed.

(** *** Masks *)
Lemma shl1_testbit slot i : 0 <= slot -> 0 <= i -> Z.testbit (shl1 slot) i = (i =? slot) && (i <? 32).
Proof.
  intros Hs Hi. unfold shl1. rewrite u32_mod, Z.shiftl_mul_pow2, Z.mul_1_l by lia.
  destruct (Z.ltb_spec i 32) as [H | H].
  - rewrite Z.mod_pow2_bits_low by lia. rewrite andb_true_r. destruct (Z.eqb_spec i slot) as [-> | Hne];
      [apply Z.pow2_bits_true; lia | apply Z.pow2_bits_false; lia].
  - rewrite Z.mod_pow2_bits_high, andb_false_r by lia. reflexivity.
Qed.

Lemma shl1_pow slot : 0 <= slot < 32 -> shl1 slot = 2 ^ slot.
Proof.
  intros H. unfold shl1. rewrite Z.shiftl_mul_pow2, Z.mul_1_l by lia. apply u32_small.
  split; [apply Z.pow_nonneg; lia | apply Z.pow_lt_mono_r; lia].
Qed.

Lemma bit_set_spec reg slot : 0 <= slot -> bit_set reg slot = Z.testbit reg slot && (slot <? 32).
Proof.
  intros Hs. unfold bit_set. destruct (Z.ltb_spec slot 32) as [H | H].
  - rewrite shl1_pow, land_pow2_eqb, negb_involutive, andb_true_r by lia. reflexivity.
  - assert (E : shl1 slot = 0).
    { apply Z.bits_inj'. intros i Hi. rewrite shl1_testbit, Z.bits_0 by lia.
      destruct (Z.eqb_spec i slot); [|reflexivity]. destruct (Z.ltb_spec i 32); [lia | reflexivity]. }
    rewrite E, Z.land_0_r, andb_false_r. reflexivity.
Qed.

Lemma mask_loop_testbit n i r k :
  0 <= i -> i + Z.of_nat n <= 32 -> 0 <= k ->
  Z.testbit (mask_loop n i r) k = Z.testbit r k || ((i <=? k) && (k <? i + Z.of_nat n)).
Proof.
  revert i r. induction n as [|n IH]; intros i r Hi Hn Hk; cbn [mask_loop].
  - replace ((i <=? k) && (k <? i + Z.of_nat 0)) with false; [by rewrite orb_false_r|].
    symmetry. apply andb_false_iff. destruct (Z.leb_spec i k); [right; apply Z.ltb_ge; lia | by left].
  - rewrite IH, Z.lor_spec, shl1_testbit, <- orb_assoc by lia. f_equal.
    destruct (Z.eqb_spec k i); destruct (Z.ltb_spec k 32); destruct (Z.leb_spec (i + 1) k);
      destruct (Z.ltb_spec k (i + 1 + Z.of_nat n)); destruct (Z.leb_spec i k);
      destruct (Z.ltb_spec k (i + Z.of_nat (S n))); simpl; lia || reflexivity.
Qed.

Lemma construct_mask_testbit lsb width k :
  0 <= lsb -> 0 <= width -> lsb + width <= 32 -> 0 <= k ->
  Z.testbit (construct_mask lsb width) k = (lsb <=? k) && (k <? lsb + width).
Proof.
  intros Hl Hw Hs Hk. unfold construct_mask. rewrite Z.geb_leb.
  destruct (Z.leb_spec 32 lsb) as [H | H]; simpl orb; cbv iota.
  - rewrite Z.bits_0. symmetry. apply andb_false_iff. destruct (Z.leb_spec lsb k); [right; apply Z.ltb_ge; lia | by left].
  - destruct (Z.eqb_spec width 0) as [-> | Hne].
    + rewrite Z.bits_0. symmetry. apply andb_false_iff. destruct (Z.leb_spec lsb k); [right; apply Z.ltb_ge; lia | by left].
    + rewrite mask_loop_testbit, Z.bits_0, Z2Nat.id by lia. reflexivity.
Qed.

(** The transmit masks select the slots of the ring. *)
Definition masks_ok (c : chan) : Prop :=
  forall p k, 0 <= k -> Z.testbit (tx_irq_mask (pr c p)) k =
    (base p (tx_num (pr c p)) <=? k) && (k <? base p (tx_num (pr c p)) + tx_num (pr c p)).

Lemma land_shl1_mask m slot : 0 <= slot < 32 -> (Z.land (shl1 slot) m =? 0) = negb (Z.testbit m slot).
Proof. intros H. rewrite Z.land_comm, shl1_pow by lia. apply land_pow2_eqb. lia. Qed.

(** *** Polling for completion *)
Lemma get_tx_status_empty pri p c s ris :
  pri_of pri = Some p -> queues c s -> tx_num (pr c p) <> 0 -> tx_handler c = false -> s p = [] ->
  hal_transq_get_tx_status c pri ris = Some (RET_OK, Some false, c).
Proof.
  intros Hp HQS Hn Hh Hs. unfold hal_transq_get_tx_status. rewrite Hp, Hh. apply Z.eqb_neq in Hn as ->.
  cbv zeta. rewrite (active_tx_valid p c s HQS). simpl negb. cbv iota.
  assert (Ha : active_tx_slot (pr c p) = 32).
  { destruct (qs_queue _ _ HQS p) as [[(_ & _ & H & _) _] | [h HR]]; [exact H|].
    rewrite (tr_active _ _ _ _ HR), Hs. reflexivity. }
  rewrite Ha, bit_set_spec by lia. simpl (32 <? 32). by rewrite andb_false_r.
Qed.

Lemma get_tx_status_head pri p c s m q ris :
  pri_of pri = Some p -> queues c s -> tx_handler c = false -> s p = m :: q ->
  exists c', hal_transq_get_tx_status c pri ris =
               Some (RET_OK, Some (Z.testbit ris (active_tx_slot (pr c p))), c') /\
    queues c' (if Z.testbit ris (active_tx_slot (pr c p)) then upd s p q else s).
Proof.
  intros Hp HQS Hh Hs. destruct (tx_done_queues p c s m q HQS Hs) as (HQ' & HA & _).
  assert (Hn : (tx_num (pr c p) =? 0) = false).
  { apply Z.eqb_neq. pose proof (qs_queue _ _ HQS p) as H. rewrite Hs in H.
    destruct H as [[_ [=]] | [h HR]]. pose proof (tr_num _ _ _ _ HR). lia. }
  unfold hal_transq_get_tx_status. rewrite Hp, Hh, Hn. cbv zeta. rewrite (active_tx_valid p c s HQS). simpl negb. cbv iota.
  rewrite bit_set_spec by lia. destruct (Z.ltb_spec (active_tx_slot (pr c p)) 32) as [_ |]; [|lia]. rewrite andb_true_r.
  destruct (Z.testbit ris (active_tx_slot (pr c p))); eexists; split; try reflexivity; assumption.
Qed.

(** *** Completion by interrupt: the handler gets the oldest message *)
Lemma local_done_head p c s m q :
  queues c s -> masks_ok c -> tx_handler c = true -> s p = m :: q ->
  exists c', local_done_step c (shl1 (active_tx_slot (pr c p))) = Some c' /\
    queues c' (upd s p q) /\
    log c' = log c ++ [LDONE_INTCLR (shl1 (active_tx_slot (pr c p))); Call_tx_handler p (fst m) (snd m)].
Proof.
  intros HQS HM Hh Hs. destruct (tx_done_queues p c s m q HQS Hs) as (HQ' & HA & HW).
  destruct (tx_done_frame p (active_tx_slot (pr c p)) c) as (_ & Hwd & _).
  pose proof (qs_queue _ _ HQS p) as Hq. rewrite Hs in Hq. destruct Hq as [[_ [=]] | [h HR]].
  pose proof (tr_num _ _ _ _ HR) as HN. pose proof (tr_active _ _ _ _ HR) as Ha. simpl in Ha.
  pose proof (ring_range p _ h HN) as HRg. rewrite <- Ha in HRg.
  assert (Hpick : (if negb (Z.land (shl1 (active_tx_slot (pr c p))) (tx_irq_mask (high c)) =? 0) then Some HAL_TRANSQ_PRI_HIGH
           else if negb (Z.land (shl1 (active_tx_slot (pr c p))) (tx_irq_mask (normal c)) =? 0) then Some HAL_TRANSQ_PRI_NORMAL
           else None) = Some p).
  { rewrite !land_shl1_mask, !negb_involutive by lia.
    pose proof (HM HAL_TRANSQ_PRI_HIGH (active_tx_slot (pr c p)) ltac:(lia)) as EH.
    pose proof (HM HAL_TRANSQ_PRI_NORMAL (active_tx_slot (pr c p)) ltac:(lia)) as EN.
    pose proof (qs_fit _ _ HQS). simpl in EH, EN. rewrite EH, EN. unfold base, TRANSQ_SLOT_NUM in *.
    destruct p; simpl in *; repeat match goal with |- context [?a <=? ?b] => destruct (Z.leb_spec a b) end;
      repeat match goal with |- context [?a <? ?b] => destruct (Z.ltb_spec a b) end; simpl; try reflexivity; lia. }
  unfold local_done_step. rewrite Hh, !(active_tx_valid _ c s HQS). simpl negb. cbv iota. rewrite Hpick.
  cbn [mbind option_bind]. cbv zeta.
  rewrite bit_set_spec, shl1_testbit, Z.eqb_refl by lia.
  unfold TRANSQ_SLOT_NUM. destruct (Z.ltb_spec (active_tx_slot (pr c p)) 32) as [_ |]; [|lia].
  simpl negb. cbv iota. rewrite Hwd, HW. destruct m as [addr len]. cbn [mbind option_bind].
  eexists. split; [reflexivity|]. split.
  - destruct HQ' as [HQ1 HQ2]. split; [|exact HQ2]. intros p'. apply queue_frame with (tx_done p (active_tx_slot (pr c p)) c);
      [apply HQ1 | by apply pr_emit | reflexivity | reflexivity].
  - cbn [log emit fst snd]. unfold tx_done. cbv zeta.
    destruct p; simpl; repeat (destruct (_ && _) || destruct (_ =? 1)); simpl; by rewrite <- app_assoc.
Qed.

(** *** Opening a channel *)
Definition num_ok (s : slot_num) : Prop :=
  (0 <= num_tx_normal s /\ 0 <= num_tx_high s /\ 0 <= num_rx_normal s /\ 0 <= num_rx_high s) /\
  num_tx_normal s + num_tx_high s <= 32 /\ num_rx_normal s + num_rx_high s <= 32.

(** The receive side waits for the [k]-th message. *)
Definition rx_at (p : HAL_TRANSQ_PRI_T) (c : chan) (k : Z) : Prop :=
  (rx_num (pr c p) = 0 /\ next_rx_slot (pr c p) = TRANSQ_SLOT_NUM) \/
  (0 < rx_num (pr c p) <= 32 /\ next_rx_slot (pr c p) = ring p (rx_num (pr c p)) k).

(** The transmit side puts its [k]-th message in the slot [ring k]. *)
Definition tx_at (p : HAL_TRANSQ_PRI_T) (c : chan) (k : Z) : Prop :=
  tx_num (pr c p) = 0 \/ next_tx_slot (pr c p) = ring p (tx_num (pr c p)) k.

Lemma first_slot p n : 0 <= n <= 32 ->
  u8 (if n =? 0 then TRANSQ_SLOT_NUM
      else match p with HAL_TRANSQ_PRI_NORMAL => 0 | HAL_TRANSQ_PRI_HIGH => TRANSQ_SLOT_NUM - n end) =
  (if n =? 0 then TRANSQ_SLOT_NUM else ring p n 0).
Proof.
  intros Hn. unfold ring, base, TRANSQ_SLOT_NUM. destruct (Z.eqb_spec n 0) as [-> | Hne]; [reflexivity|].
  rewrite Z.mod_0_l, Z.add_0_r by lia. destruct p; apply u8_small; lia.
Qed.

(** The entry of one priority after [hal_transq_open]. *)
Definition open_prio (p : HAL_TRANSQ_PRI_T) (tx rx txm rxm : Z) : prio :=
  mkPrio tx rx (if tx =? 0 then TRANSQ_SLOT_NUM else ring p tx 0) TRANSQ_SLOT_NUM false
    (if rx =? 0 then TRANSQ_SLOT_NUM else ring p rx 0) rxm txm.

Lemma open_state c g :
  num_ok (cfg_slot g) ->
  exists c', hal_transq_open c (Some g) = (RET_OK, c') /\
    normal c' = open_prio HAL_TRANSQ_PRI_NORMAL (num_tx_normal (cfg_slot g)) (num_rx_normal (cfg_slot g))
      (construct_mask 0 (num_tx_normal (cfg_slot g))) (construct_mask 0 (num_rx_normal (cfg_slot g))) /\
    high c' = open_prio HAL_TRANSQ_PRI_HIGH (num_tx_high (cfg_slot g)) (num_rx_high (cfg_slot g))
      (construct_mask (32 - num_tx_high (cfg_slot g)) (num_tx_high (cfg_slot g)))
      (construct_mask (32 - num_rx_high (cfg_slot g)) (num_rx_high (cfg_slot g))) /\
    WSLOT c' = WSLOT c /\ rx_handler c' = cfg_rx_handler g /\ tx_handler c' = cfg_tx_handler g.
Proof.
  intros [(H1 & H2 & H3 & H4) [H5 H6]]. unfold hal_transq_open, hal_transq_update_num. cbv zeta.
  rewrite !Z.gtb_ltb. unfold TRANSQ_SLOT_NUM at 1 2.
  destruct (Z.ltb_spec 32 (num_tx_normal (cfg_slot g) + num_tx_high (cfg_slot g))); [lia|].
  destruct (Z.ltb_spec 32 (num_rx_normal (cfg_slot g) + num_rx_high (cfg_slot g))); [lia|].
  eexists. split; [reflexivity|].
  unfold open_prio. rewrite <- !first_slot by lia.
  destruct g as [sn [|] [|]]; repeat split; reflexivity.
Qed.

Lemma open_prio_queue p c tx rx txm rxm :
  0 <= tx <= 32 -> length (WSLOT c) = 32%nat -> pr c p = open_prio p tx rx txm rxm -> queue p c [].
Proof.
  intros Ht Hl Hp. destruct (Z.eq_dec tx 0) as [-> | Hne].
  - left. unfold tx_idle. rewrite Hp. repeat split.
  - right. exists 0. constructor; rewrite ?Hp; unfold open_prio; cbn [tx_num next_tx_slot active_tx_slot tx_slot_full];
      try (simpl; lia); try done.
    + destruct (Z.eqb_spec tx 0); [lia|]. f_equal.
    + symmetry. apply Z.eqb_neq. simpl. lia.
Qed.

(** A channel opened with valid numbers represents two empty queues, and both sides start at the
    message 0. *)
Lemma open_queues c g :
  num_ok (cfg_slot g) -> length (WSLOT c) = 32%nat ->
  exists c', hal_transq_open c (Some g) = (RET_OK, c') /\
    queues c' (fun _ => []) /\ masks_ok c' /\ (forall p, tx_at p c' 0 /\ rx_at p c' 0).
Proof.
  intros HN HL. destruct (open_state c g HN) as (c' & E & EN & EH & EW & _). exists c'. split; [exact E|].
  destruct HN as [(H1 & H2 & H3 & H4) [H5 H6]]. split; [|split].
  - split; [|rewrite EN, EH; simpl; lia].
    rewrite <- EW in HL. intros [|]; eapply open_prio_queue; [| exact HL | exact EN | | exact HL | exact EH]; lia.
  - intros p k Hk. destruct p; cbn [pr]; [rewrite EN | rewrite EH]; unfold open_prio; cbn [tx_irq_mask tx_num];
      apply construct_mask_testbit; unfold base, TRANSQ_SLOT_NUM; lia.
  - intros p. unfold tx_at, rx_at. destruct p; cbn [pr]; [rewrite EN | rewrite EH]; unfold open_prio;
      cbn [tx_num rx_num next_tx_slot next_rx_slot].
    + split; [destruct (Z.eqb_spec (num_tx_normal (cfg_slot g)) 0); auto|].
      destruct (Z.eqb_spec (num_rx_normal (cfg_slot g)) 0); [left; auto | right; split; [lia | reflexivity]].
    + split; [destruct (Z.eqb_spec (num_tx_high (cfg_slot g)) 0); auto|].
      destruct (Z.eqb_spec (num_rx_high (cfg_slot g)) 0); [left; auto | right; split; [lia | reflexivity]].
Qed.

(** *** Message numbers on both sides *)
Lemma tx_at_push pri p c s k data len c' :
  pri_of pri = Some p -> queues c s -> tx_at p c k ->
  hal_transq_tx c pri data len = Some (RET_OK, c') ->
  log c' = log c ++ [RMT_INTSET (shl1 (ring p (tx_num (pr c p)) k))] /\ tx_at p c' (k + 1).
Proof.
  intros Hp HQS Hk E. unfold hal_transq_tx in E. rewrite Hp in E.
  destruct (Z.eqb_spec (tx_num (pr c p)) 0) as [|Hn]; [discriminate|].
  destruct (tx_slot_full (pr c p)) eqn:Ef; [discriminate|]. cbv zeta in E.
  destruct Hk as [|Hk]; [contradiction|].
  destruct (queue_num_range p c _ (qs_queue _ _ HQS p)) as [|HN]; [contradiction|].
  destruct (negb (next_tx_slot (pr c p) <? TRANSQ_SLOT_NUM)); [discriminate|]. injection E as <-.
  pose proof (ring_bound p _ (k + 1) HN). split.
  - rewrite <- Hk. by destruct p.
  - right. rewrite pr_set_same, pr_emit, pr_wslot. cbn [tx_num set_tx next_tx_slot].
    unfold get_next_tx_slot. rewrite Hk, next_slot_ring, u8_small by lia. reflexivity.
Qed.

(** Consuming a message moves the receive side to the next number; what it shows is the slot of
    that number. *)
Lemma rx_next_at pri p c k ris ris' rslot :
  pri_of pri = Some p -> rx_at p c k -> rx_num (pr c p) <> 0 ->
  Z.testbit ris (ring p (rx_num (pr c p)) k) = true ->
  exists c', hal_transq_rx_next c pri ris ris' rslot =
    (if Z.testbit ris' (ring p (rx_num (pr c p)) (k + 1))
     then (RET_OK, Some (rslot (ring p (rx_num (pr c p)) (k + 1))), c')
     else (RET_RX_EMPTY, Some (0, 0), c')) /\ rx_at p c' (k + 1) /\ rx_num (pr c' p) = rx_num (pr c p).
Proof.
  intros Hp [[H0 _] | [HN Hk]] Hne Hbit; [contradiction|].
  pose proof (ring_bound p _ k HN) as HB. pose proof (ring_bound p _ (k + 1) HN) as HB1.
  unfold hal_transq_rx_next. rewrite Hp. apply Z.eqb_neq in Hne as ->. cbv zeta.
  rewrite Hk, bit_set_spec, Hbit by lia. unfold TRANSQ_SLOT_NUM.
  destruct (Z.ltb_spec (ring p (rx_num (pr c p)) k) 32) as [_ |]; [|lia]. simpl andb. cbv iota.
  unfold get_next_rx_slot. rewrite pr_emit, next_slot_ring, bit_set_spec by lia.
  destruct (Z.ltb_spec (ring p (rx_num (pr c p)) (k + 1)) 32) as [_ |]; [|lia]. rewrite andb_true_r. simpl andb.
  set (c2 := set_pr p (set_rx (ring p (rx_num (pr c p)) (k + 1)) (pr c p)) _).
  assert (H2 : rx_at p c2 (k + 1) /\ rx_num (pr c2 p) = rx_num (pr c p)).
  { unfold c2. rewrite pr_set_same. split; [|reflexivity]. right. rewrite pr_set_same. cbn [rx_num set_rx next_rx_slot].
    split; [exact HN|]. rewrite u8_small by lia. reflexivity. }
  destruct (Z.testbit ris' (ring p (rx_num (pr c p)) (k + 1))).
  - exists c2. split; [reflexivity | exact H2].
  - exists (rx_unmask p c2). split; [reflexivity|]. destruct H2 as [H2 H3].
    unfold rx_at in *. replace (pr (rx_unmask p c2) p) with (pr c2 p) by (by destruct p). split; assumption.
Qed.

(** *** Any completion interrupt that passes the assertions *)
Lemma tx_done_log p slot c : log (tx_done p slot c) = log c ++ [LDONE_INTCLR (shl1 slot)].
Proof. unfold tx_done. cbv zeta. destruct p; simpl; repeat (destruct (_ && _) || destruct (_ =? 1)); reflexivity. Qed.

Lemma tx_done_handler p slot c : tx_handler (tx_done p slot c) = tx_handler c.
Proof. unfold tx_done. cbv zeta. destruct p; simpl; repeat (destruct (_ && _) || destruct (_ =? 1)); reflexivity. Qed.

Lemma queues_emit e c s : queues c s -> queues (emit e c) s.
Proof.
  intros [HQ HF]. split; [|exact HF]. intros p. apply queue_frame with c; [apply HQ | by destruct p | reflexivity | reflexivity].
Qed.

Lemma queue_nonempty p c s : queues c s -> active_tx_slot (pr c p) < TRANSQ_SLOT_NUM -> exists m q, s p = m :: q.
Proof.
  intros HQS Ha. destruct (qs_queue _ _ HQS p) as [[(_ & _ & H & _) _] | [h HR]]; [unfold TRANSQ_SLOT_NUM in *; lia|].
  pose proof (tr_active _ _ _ _ HR) as E. destruct (s p) as [|m q]; [simpl in E; unfold TRANSQ_SLOT_NUM in *; lia|].
  by exists m, q.
Qed.

Lemma local_done_any c s status c' :
  queues c s -> tx_handler c = true -> local_done_step c status = Some c' ->
  exists p m q, s p = m :: q /\ queues c' (upd s p q) /\ tx_handler c' = true /\
    log c' = log c ++ [LDONE_INTCLR (shl1 (active_tx_slot (pr c p))); Call_tx_handler p (fst m) (snd m)].
Proof.
  intros HQS Hh E. unfold local_done_step in E. rewrite Hh, !(active_tx_valid _ c s HQS) in E. simpl negb in E. cbv iota in E.
  destruct (if negb (Z.land status (tx_irq_mask (high c)) =? 0) then _ else _) as [p|]; [|discriminate].
  cbn [mbind option_bind] in E. cbv zeta in E.
  destruct (Z.ltb_spec (active_tx_slot (pr c p)) TRANSQ_SLOT_NUM) as [Ha | Ha]; [|discriminate]. simpl andb in E.
  destruct (bit_set status (active_tx_slot (pr c p))); [|discriminate]. simpl negb in E. cbv iota in E.
  destruct (queue_nonempty p c s HQS Ha) as (m & q & Hs). exists p, m, q. split; [exact Hs|].
  destruct (tx_done_queues p c s m q HQS Hs) as (HQ' & _ & HW).
  destruct (tx_done_frame p (active_tx_slot (pr c p)) c) as (_ & Hwd & _). rewrite Hwd, HW in E.
  destruct m as [addr len]. cbn [mbind option_bind] in E. injection E as <-.
  split; [by apply queues_emit|]. split; [cbn [tx_handler emit]; by rewrite tx_done_handler|].
  cbn [log emit fst snd]. by rewrite tx_done_log, <- app_assoc.
Qed.

(** *** Runs of an interrupt-driven sender

    [sent] and [delivered] are the messages accepted by [hal_transq_tx] and those the completion
    handler was called with, per priority. *)
Inductive run : chan -> spec -> spec -> Prop :=
| run_open c g c' :
    num_ok (cfg_slot g) -> length (WSLOT c) = 32%nat -> cfg_tx_handler g = true ->
    hal_transq_open c (Some g) = (RET_OK, c') -> run c' (fun _ => []) (fun _ => [])
| run_tx c sent delivered pri p data len c' :
    run c sent delivered -> pri_of pri = Some p -> hal_transq_tx c pri data len = Some (RET_OK, c') ->
    run c' (upd sent p (sent p ++ [(u32 data, len)])) delivered
| run_refused c sent delivered pri data len r c' :
    run c sent delivered -> hal_transq_tx c pri data len = Some (r, c') -> r <> RET_OK ->
    run c' sent delivered
| run_done c sent delivered status c' p clr addr len :
    run c sent delivered -> local_done_step c status = Some c' ->
    log c' = log c ++ [clr; Call_tx_handler p addr len] ->
    run c' sent (upd delivered p (delivered p ++ [(addr, len)])).

Lemma tx_refused c pri data len r c' :
  hal_transq_tx c pri data len = Some (r, c') -> r <> RET_OK -> c' = c.
Proof.
  unfold hal_transq_tx. destruct (pri_of pri) as [p|]; [|by intros [= <- <-]].
  destruct (_ =? 0); [by intros [= <- <-]|]. destruct (tx_slot_full _); [by intros [= <- <-]|]. cbv zeta.
  destruct (negb _); [discriminate|]. by intros [= <- <-].
Qed.

Lemma tx_handler_tx c pri data len r c' :
  hal_transq_tx c pri data len = Some (r, c') -> tx_handler c' = tx_handler c.
Proof.
  unfold hal_transq_tx. destruct (pri_of pri) as [p|]; [|by intros [= <- <-]].
  destruct (_ =? 0); [by intros [= <- <-]|]. destruct (tx_slot_full _); [by intros [= <- <-]|]. cbv zeta.
  destruct (negb _); [discriminate|]. intros [= <- <-]. by destruct p.
Qed.

Lemma tx_ok_num c pri p data len c' :
  pri_of pri = Some p -> hal_transq_tx c pri data len = Some (RET_OK, c') ->
  tx_num (pr c p) <> 0 /\ tx_slot_full (pr c p) = false.
Proof.
  intros Hp. unfold hal_transq_tx. rewrite Hp. destruct (Z.eqb_spec (tx_num (pr c p)) 0); [discriminate|].
  destruct (tx_slot_full (pr c p)); [discriminate | auto].
Qed.

Lemma tx_ok_push pri p c s data len c' :
  pri_of pri = Some p -> queues c s -> hal_transq_tx c pri data len = Some (RET_OK, c') ->
  queues c' (upd s p (s p ++ [(u32 data, len)])).
Proof.
  intros Hp HQS E. destruct (tx_ok_num _ _ _ _ _ _ Hp E) as [Hn Hf].
  pose proof (full_queue p c _ (qs_queue _ _ HQS p) Hn) as HF. rewrite Hf in HF. symmetry in HF. apply Z.eqb_neq in HF.
  assert (Hlt : Z.of_nat (length (s p)) < tx_num (pr c p)).
  { destruct (qs_queue _ _ HQS p) as [[[H0 _] _] | [h HR]]; [contradiction|]. pose proof (tr_count _ _ _ _ HR). lia. }
  destruct (tx_push pri p c s data len Hp HQS Hn Hlt) as (c2 & E2 & HQ & _). congruence.
Qed.

Lemma run_queues c sent delivered :
  run c sent delivered ->
  exists s, queues c s /\ tx_handler c = true /\ forall p, sent p = delivered p ++ s p.
Proof.
  induction 1 as [c g c' HN HL HT E | c sent del pri p data len c' _ (s & HQ & HT & HS) Hp E
    | c sent del pri data len r c' _ (s & HQ & HT & HS) E Hr | c sent del status c' p clr addr len _ (s & HQ & HT & HS) E HLog].
  - destruct (open_queues c g HN HL) as (c2 & E2 & HQ & _). rewrite E in E2. injection E2 as <-.
    destruct (open_state c g HN) as (c2 & E2 & _ & _ & _ & _ & HT'). rewrite E in E2. injection E2 as <-.
    exists (fun _ => []). split; [exact HQ|]. split; [by rewrite HT'|]. done.
  - exists (upd s p (s p ++ [(u32 data, len)])). split; [by apply tx_ok_push with pri c|].
    split; [by rewrite (tx_handler_tx _ _ _ _ _ _ E)|]. intros p'. destruct (other_cases p p') as [-> | ->].
    + rewrite !upd_same, HS. by rewrite app_assoc.
    + by rewrite !upd_other.
  - apply tx_refused in E as E'; [|exact Hr]. subst c'. by exists s.
  - destruct (local_done_any c s status c' HQ HT E) as (p2 & m & q & Hs & HQ' & HT' & HLog').
    rewrite HLog in HLog'. apply app_inv_head in HLog'. injection HLog' as -> <- -> ->.
    exists (upd s p q). split; [exact HQ'|]. split; [exact HT'|]. intros p'.
    destruct (other_cases p p') as [-> | ->].
    + rewrite !upd_same, HS, Hs. destruct m. by rewrite <- app_assoc.
    + by rewrite !upd_other.
Qed.

(** * Properties *)

(** A channel before it is opened, for the examples. *)
Definition prio0 : prio := mkPrio 0 0 0 0 false 0 0 0.
Definition chan0 : chan := mkChan prio0 prio0 false false (replicate 32 (0, 0)) 0 0 0 0 0 [].
Definition cfg_2_3 : cfg := mkCfg (mkNum 2 3 2 3) false true.
Definition chan_2_3 : chan := Eval vm_compute in snd (hal_transq_open chan0 (Some cfg_2_3)).

Lemma chan_2_3_open : hal_transq_open chan0 (Some cfg_2_3) = (RET_OK, chan_2_3).
Proof. vm_compute. reflexivity. Qed.

Lemma cfg_2_3_ok : num_ok (cfg_slot cfg_2_3).
Proof. unfold num_ok. simpl. lia. Qed.

Lemma chan_2_3_queues : queues chan_2_3 (fun _ => []).
Proof. destruct (open_queues chan0 cfg_2_3 cfg_2_3_ok eq_refl) as (c' & E & H & _). rewrite chan_2_3_open in E. by injection E as ->. Qed.

Lemma chan_2_3_masks : masks_ok chan_2_3.
Proof. destruct (open_queues chan0 cfg_2_3 cfg_2_3_ok eq_refl) as (c' & E & _ & H & _). rewrite chan_2_3_open in E. by injection E as ->. Qed.

(** C19: transmission refines the bounded queue: with [tx_num] messages in flight [hal_transq_tx]
    answers TX_FULL and changes nothing, otherwise it answers OK, the message joins the tail of
    the priority's queue, the other priority's queue is unchanged and the slot of the new message
    is announced to the peer. It never stops at a failed access. *)
Theorem transq_tx_refines pri p c s data len :
  pri_of pri = Some p -> queues c s -> tx_num (pr c p) <> 0 ->
  if Z.of_nat (length (s p)) =? tx_num (pr c p)
  then hal_transq_tx c pri data len = Some (RET_TX_FULL, c)
  else exists c', hal_transq_tx c pri data len = Some (RET_OK, c') /\
         queues c' (upd s p (s p ++ [(u32 data, len)])) /\
         log c' = log c ++ [RMT_INTSET (shl1 (next_tx_slot (pr c p)))].
Proof.
  intros Hp HQ Hn. destruct (Z.eqb_spec (Z.of_nat (length (s p))) (tx_num (pr c p))) as [E | E].
  - by apply tx_full with p s.
  - apply tx_push; try assumption. destruct (qs_queue _ _ HQ p) as [[[H0 _] _] | [h HR]]; [contradiction|].
    pose proof (tr_count _ _ _ _ HR). lia.
Qed.

Lemma transq_tx_refines_witness :
  exists c', hal_transq_tx chan_2_3 1 0x1000 8 = Some (RET_OK, c') /\
    queues c' (upd (fun _ => []) HAL_TRANSQ_PRI_HIGH [(0x1000, 8)]) /\
    log c' = log chan_2_3 ++ [RMT_INTSET (shl1 29)].
Proof.
  exact (transq_tx_refines 1 HAL_TRANSQ_PRI_HIGH chan_2_3 (fun _ => []) 0x1000 8 eq_refl chan_2_3_queues ltac:(discriminate)).
Defined.

(** C4: in every run of an interrupt-driven sender, the messages the completion handler has been
    given are, for each priority, a prefix of those accepted, in the order of acceptance; the rest
    is in flight and never more than [tx_num]. *)
Theorem transq_run_fifo c sent delivered :
  run c sent delivered ->
  forall p, exists in_flight, sent p = delivered p ++ in_flight /\
    Z.of_nat (length in_flight) <= tx_num (pr c p).
Proof.
  intros HR p. destruct (run_queues c sent delivered HR) as (s & HQ & _ & HS). exists (s p). split; [apply HS|].
  destruct (qs_queue _ _ HQ p) as [[(-> & _) ->] | [h Hr]]; [simpl; lia | apply Hr].
Qed.

Lemma transq_run_fifo_witness :
  exists c', run c' (upd (fun _ => []) HAL_TRANSQ_PRI_NORMAL [(16, 4)]) (fun _ => []) /\
    exists in_flight, [(16, 4)] = [] ++ in_flight /\ Z.of_nat (length in_flight) <= tx_num (pr c' HAL_TRANSQ_PRI_NORMAL).
Proof.
  assert (H : exists c', hal_transq_tx chan_2_3 0 16 4 = Some (RET_OK, c')) by (eexists; vm_compute; reflexivity).
  destruct H as [c' E]. exists c'.
  assert (HR : run c' (upd (fun _ => []) HAL_TRANSQ_PRI_NORMAL ([] ++ [(u32 16, 4)])) (fun _ => [])).
  { apply (run_tx chan_2_3 (fun _ => []) (fun _ => []) 0); [|reflexivity|exact E].
    apply (run_open chan0 cfg_2_3); [apply cfg_2_3_ok | reflexivity | reflexivity | apply chan_2_3_open]. }
  split; [exact HR|]. exact (transq_run_fifo c' _ _ HR HAL_TRANSQ_PRI_NORMAL).
Defined.

(** The completion interrupt of the active slot of a priority passes every assertion, calls the
    handler with the address and length of the oldest message in flight and removes exactly that
    message. *)
Theorem transq_irq_delivers_oldest p c s m q :
  queues c s -> masks_ok c -> tx_handler c = true -> s p = m :: q ->
  exists c', local_done_step c (shl1 (active_tx_slot (pr c p))) = Some c' /\
    queues c' (upd s p q) /\
    log c' = log c ++ [LDONE_INTCLR (shl1 (active_tx_slot (pr c p))); Call_tx_handler p (fst m) (snd m)].
Proof. apply local_done_head. Qed.

(** A channel with one message in flight at high priority. *)
Definition chan_one : chan := Eval vm_compute in tx_result HAL_TRANSQ_PRI_HIGH chan_2_3 0x1000 8.

Lemma chan_one_queues : queues chan_one (upd (fun _ => []) HAL_TRANSQ_PRI_HIGH [(0x1000, 8)]).
Proof.
  destruct (tx_push 1 HAL_TRANSQ_PRI_HIGH chan_2_3 (fun _ => []) 0x1000 8 eq_refl chan_2_3_queues) as (c' & E & H & _);
    [discriminate | simpl; reflexivity |].
  assert (E2 : hal_transq_tx chan_2_3 1 0x1000 8 = Some (RET_OK, chan_one)) by (vm_compute; reflexivity).
  rewrite E2 in E. injection E as <-. exact H.
Qed.

Lemma chan_one_masks : masks_ok chan_one.
Proof. intros p k Hk. pose proof (chan_2_3_masks p k Hk) as H. by destruct p. Qed.

Lemma transq_irq_delivers_oldest_witness :
  exists c', local_done_step chan_one (shl1 29) = Some c' /\
    queues c' (upd (upd (fun _ => []) HAL_TRANSQ_PRI_HIGH [(0x1000, 8)]) HAL_TRANSQ_PRI_HIGH []) /\
    log c' = log chan_one ++ [LDONE_INTCLR (shl1 29); Call_tx_handler HAL_TRANSQ_PRI_HIGH 0x1000 8].
Proof.
  exact (transq_irq_delivers_oldest HAL_TRANSQ_PRI_HIGH chan_one _ (0x1000, 8) [] chan_one_queues chan_one_masks
           eq_refl eq_refl).
Defined.

(** A polled completion removes the oldest message exactly when the register shows the active
    slot done; with nothing in flight it reports not done whatever the register shows. *)
Theorem transq_poll_fifo pri p c s ris :
  pri_of pri = Some p -> queues c s -> tx_num (pr c p) <> 0 -> tx_handler c = false ->
  match s p with
  | [] => hal_transq_get_tx_status c pri ris = Some (RET_OK, Some false, c)
  | m :: q =>
      let d := Z.testbit ris (active_tx_slot (pr c p)) in
      exists c', hal_transq_get_tx_status c pri ris = Some (RET_OK, Some d, c') /\
                 queues c' (if d then upd s p q else s)
  end.
Proof.
  intros Hp HQ Hn Hh. destruct (s p) as [|m q] eqn:Hs.
  - by apply get_tx_status_empty with p s.
  - by apply get_tx_status_head with m.
Qed.

Lemma transq_poll_fifo_witness :
  hal_transq_get_tx_status (set_handlers false false chan_2_3) 0 3 = Some (RET_OK, Some false, set_handlers false false chan_2_3).
Proof.
  apply (transq_poll_fifo 0 HAL_TRANSQ_PRI_NORMAL (set_handlers false false chan_2_3) (fun _ => []) 3 eq_refl); [|discriminate|reflexivity].
  destruct chan_2_3_queues as [HQ HF]. split; [|exact HF]. intros p. apply queue_frame with chan_2_3;
    [apply HQ | by destruct p | reflexivity | reflexivity].
Defined.

(** A channel opened with slot numbers that fit represents two empty queues, its masks select
    each priority's slots, and both directions start at message 0. *)
Theorem transq_open_empty c g :
  num_ok (cfg_slot g) -> length (WSLOT c) = 32%nat ->
  exists c', hal_transq_open c (Some g) = (RET_OK, c') /\
    queues c' (fun _ => []) /\ masks_ok c' /\ (forall p, tx_at p c' 0 /\ rx_at p c' 0).
Proof. apply open_queues. Qed.

Lemma transq_open_empty_witness :
  exists c', hal_transq_open chan0 (Some cfg_2_3) = (RET_OK, c') /\
    queues c' (fun _ => []) /\ masks_ok c' /\ (forall p, tx_at p c' 0 /\ rx_at p c' 0).
Proof. exact (transq_open_empty chan0 cfg_2_3 cfg_2_3_ok eq_refl). Defined.

(** The two ends agree on the slots: the [k]-th accepted message is announced in the slot
    [ring k] of the sender, and a receiver that has consumed [k] messages and consumes the next one
    moves to the slot [ring (k + 1)] and returns what that slot holds when it is pending. *)
Theorem transq_ends_agree pri p c d s k data len c' ris ris' rslot :
  pri_of pri = Some p -> queues c s -> tx_at p c k -> hal_transq_tx c pri data len = Some (RET_OK, c') ->
  rx_at p d k -> rx_num (pr d p) = tx_num (pr c p) -> Z.testbit ris (ring p (tx_num (pr c p)) k) = true ->
  (log c' = log c ++ [RMT_INTSET (shl1 (ring p (tx_num (pr c p)) k))] /\ tx_at p c' (k + 1)) /\
  exists d', hal_transq_rx_next d pri ris ris' rslot =
    (if Z.testbit ris' (ring p (tx_num (pr c p)) (k + 1))
     then (RET_OK, Some (rslot (ring p (tx_num (pr c p)) (k + 1))), d')
     else (RET_RX_EMPTY, Some (0, 0), d')) /\ rx_at p d' (k + 1).
Proof.
  intros Hp HQ Hk E Hr Hn Hb. split; [by apply tx_at_push with pri s data len|].
  destruct (tx_ok_num _ _ _ _ _ _ Hp E) as [Hne _]. rewrite <- Hn in Hb |- *.
  destruct (rx_next_at pri p d k ris ris' rslot Hp Hr) as (d' & E' & Hd & _); [congruence | exact Hb|].
  by exists d'.
Qed.

Lemma transq_ends_agree_witness :
  exists d', hal_transq_rx_next chan_2_3 1 (shl1 29) 0 (fun _ => (0, 0)) = (RET_RX_EMPTY, Some (0, 0), d') /\
             rx_at HAL_TRANSQ_PRI_HIGH d' 1.
Proof.
  destruct (open_queues chan0 cfg_2_3 cfg_2_3_ok eq_refl) as (c2 & E2 & _ & _ & HA).
  assert (EC : chan_2_3 = c2) by (rewrite chan_2_3_open in E2; by injection E2). rewrite <- EC in HA.
  assert (E : hal_transq_tx chan_2_3 1 0x1000 8 = Some (RET_OK, chan_one)) by (vm_compute; reflexivity).
  exact (proj2 (transq_ends_agree 1 HAL_TRANSQ_PRI_HIGH chan_2_3 chan_2_3 _ 0 0x1000 8 chan_one (shl1 29) 0 (fun _ => (0, 0))
           eq_refl chan_2_3_queues (proj1 (HA _)) E (proj2 (HA _)) eq_refl eq_refl)).
Defined.

(** [hal_transq_update_num] does not move the slot cursors: a channel opened without normal
    transmit slots and then given four of them accepts a message into slot 32, past the array. *)
Theorem transq_update_num_stale :
  exists c1 c2, hal_transq_open chan0 (Some (mkCfg (mkNum 0 4 4 4) false false)) = (RET_OK, c1) /\
    hal_transq_update_num c1 (Some (mkNum 4 4 4 4)) = (RET_OK, c2) /\
    next_tx_slot (normal c2) = TRANSQ_SLOT_NUM /\ hal_transq_tx c2 0 0x1000 8 = None.
Proof.
  eexists _, _. split; [reflexivity|]. split; [reflexivity|]. split; vm_compute; reflexivity.
Qed.
