(* ===== verification/RmtIpc.v ===== *)
(** Messages between two cores: platform/hal/hal_rmt_ipc.c, with the wake lock of hal_sleep.c that keeps
    a core awake while a message is under way. Each core has an array of channels; a message stays in a
    record of its sender, whose list the receiver reads in place; two interrupts, through the mailbox
    registers, tell that a list is there and that it has been read. *)
From Stdlib Require Import ZArith Lia Bool.
From stdpp Require Import base list option.
From S2P Require Import Prelude.

(** ** The mailbox *)
Inductive side := MCU | SENS.
Definition peer (s : side) : side := match s with MCU => SENS | SENS => MCU end.
#[export] Instance side_eq_dec : EqDecision side.
Proof. solve_decision. Defined.

Inductive HAL_RMT_IPC_IRQ_TYPE_T := HAL_RMT_IPC_IRQ_SEND_IND | HAL_RMT_IPC_IRQ_RECV_DONE.

(** The functions of [HAL_RMT_IPC_CFG_T], on the registers of one channel, called on one of its sides. *)
Class RmtIpcCfg (H : Type) := {
  irq_init : side -> H -> H;
  peer_tx_irq_set : side -> H -> H;
  local_tx_irq_clear : side -> H -> H;
  rx_irq_suspend : side -> H -> H;
  rx_irq_resume : side -> H -> H;
  rx_done : side -> H -> H;
  irq_active : side -> HAL_RMT_IPC_IRQ_TYPE_T -> H -> bool }.

(** ** State *)
Record HAL_RMT_IPC_MSG_T := mkMsg { next : option nat; len : Z; data : Z }.
Record HAL_RMT_IPC_SEND_RECORD_T := mkRec { msg : HAL_RMT_IPC_MSG_T; in_use : bool }.

Definition HAL_RMT_IPC_MAX_SEND_REC_CNT : nat := 3.

(** A pointer to a record of the channel is its index; a handler is whether it is there; the pointer to
    the peer's list is whether it has been fetched. *)
Record HAL_RMT_IPC_CH_CFG_T := mkCh {
  send_msg_list_p : option nat; send_pending_list_p : option nat; send_msgs : list HAL_RMT_IPC_SEND_RECORD_T;
  recv_msg_list_pp : bool; recv_pending_head : HAL_RMT_IPC_MSG_T;
  rx_irq_handler : bool; tx_irq_handler : bool; need_flow_ctrl : bool; chan_busy : bool; chan_opened : bool }.

Definition set_lists (l p : option nat) (c : HAL_RMT_IPC_CH_CFG_T) : HAL_RMT_IPC_CH_CFG_T :=
  mkCh l p (send_msgs c) (recv_msg_list_pp c) (recv_pending_head c) (rx_irq_handler c) (tx_irq_handler c) (need_flow_ctrl c) (chan_busy c) (chan_opened c).
Definition set_msgs (m : list HAL_RMT_IPC_SEND_RECORD_T) (c : HAL_RMT_IPC_CH_CFG_T) : HAL_RMT_IPC_CH_CFG_T :=
  mkCh (send_msg_list_p c) (send_pending_list_p c) m (recv_msg_list_pp c) (recv_pending_head c) (rx_irq_handler c) (tx_irq_handler c) (need_flow_ctrl c) (chan_busy c) (chan_opened c).
Definition set_recv (g : bool) (h : HAL_RMT_IPC_MSG_T) (c : HAL_RMT_IPC_CH_CFG_T) : HAL_RMT_IPC_CH_CFG_T :=
  mkCh (send_msg_list_p c) (send_pending_list_p c) (send_msgs c) g h (rx_irq_handler c) (tx_irq_handler c) (need_flow_ctrl c) (chan_busy c) (chan_opened c).
Definition set_busy (b : bool) (c : HAL_RMT_IPC_CH_CFG_T) : HAL_RMT_IPC_CH_CFG_T :=
  mkCh (send_msg_list_p c) (send_pending_list_p c) (send_msgs c) (recv_msg_list_pp c) (recv_pending_head c) (rx_irq_handler c) (tx_irq_handler c) (need_flow_ctrl c) b (chan_opened c).
Definition set_opened (b : bool) (c : HAL_RMT_IPC_CH_CFG_T) : HAL_RMT_IPC_CH_CFG_T :=
  mkCh (send_msg_list_p c) (send_pending_list_p c) (send_msgs c) (recv_msg_list_pp c) (recv_pending_head c) (rx_irq_handler c) (tx_irq_handler c) (need_flow_ctrl c) (chan_busy c) b.

(** A core: its channels, [*busy_p], the wake locks of hal_sleep.c, whether its configuration is
    published ([*local_cfg_pp]), and the interrupts enabled at its controller. *)
Record core := mkCore {
  chan_cfg : list HAL_RMT_IPC_CH_CFG_T; busy_p : bool; sys_wake_lock_map : Z; local_cfg_p : bool;
  rx_enabled : list bool; tx_enabled : list bool }.

Definition set_chan (id : nat) (ch : HAL_RMT_IPC_CH_CFG_T) (c : core) : core :=
  mkCore (<[id := ch]> (chan_cfg c)) (busy_p c) (sys_wake_lock_map c) (local_cfg_p c) (rx_enabled c) (tx_enabled c).
Definition set_lock (b : bool) (m : Z) (c : core) : core :=
  mkCore (chan_cfg c) b m (local_cfg_p c) (rx_enabled c) (tx_enabled c).
Definition set_nvic (r t : list bool) (c : core) : core :=
  mkCore (chan_cfg c) (busy_p c) (sys_wake_lock_map c) (local_cfg_p c) r t.
Definition publish (c : core) : core :=
  mkCore (chan_cfg c) (busy_p c) (sys_wake_lock_map c) true (rx_enabled c) (tx_enabled c).

(** What the calls tell their users: a message accepted, bytes handed to the receiver's handler with
    the number it took, a record given back (after the sender's handler has been told). *)
Inductive out :=
  | Accepted (s : side) (id : nat) (d n : Z)
  | Handed (s : side) (id : nat) (d n p : Z)
  | Freed (s : side) (id : nat) (d n : Z).

Definition handed (s : side) (id : nat) (x : Z * Z * Z) : out := let '(d, n, p) := x in Handed s id d n p.

(** ** hal_sleep.c: the system wake lock *)
Definition HAL_SYS_WAKE_LOCK_USER_QTY : Z := 32.

Definition hal_sys_wake_lock (user map : Z) : Z * Z :=
  if user >=? HAL_SYS_WAKE_LOCK_USER_QTY then (1, map) else (0, Z.lor map (Z.shiftl 1 user)).

Definition hal_sys_wake_unlock (user map : Z) : Z * Z :=
  if user >=? HAL_SYS_WAKE_LOCK_USER_QTY then (1, map) else (0, Z.ldiff map (Z.shiftl 1 user)).

Section Operations.
Context {H : Type} `{RmtIpcCfg H}.
(** [cfg->sys_wake_lock]. *)
Variable sys_wake_lock : Z.

(** ** Busy *)
Definition hal_rmt_ipc_busy (id : nat) (busy : bool) (c : core) : option core :=
  ch ← chan_cfg c !! id;
  if eqb (chan_busy ch) busy then Some c
  else
    let c1 := set_chan id (set_busy busy ch) c in
    if eqb (busy_p c1) busy then Some c1
    else if busy then Some (set_lock true (snd (hal_sys_wake_lock sys_wake_lock (sys_wake_lock_map c1))) c1)
    else if existsb chan_busy (chan_cfg c1) then Some c1
    else Some (set_lock false (snd (hal_sys_wake_unlock sys_wake_lock (sys_wake_lock_map c1))) c1).

(** ** Sending *)
Fixpoint free_record (ms : list HAL_RMT_IPC_SEND_RECORD_T) : option nat :=
  match ms with
  | [] => None
  | r :: ms' => if in_use r then S <$> free_record ms' else Some O
  end.

(** [while (next->next)]; a list that does not end uses up the fuel. *)
Fixpoint last_record (fuel i : nat) (ms : list HAL_RMT_IPC_SEND_RECORD_T) : option nat :=
  match fuel with
  | O => None
  | S f => r ← ms !! i; match next (msg r) with None => Some i | Some j => last_record f j ms end
  end.

Definition set_next (i : nat) (n : option nat) (ms : list HAL_RMT_IPC_SEND_RECORD_T) : option (list HAL_RMT_IPC_SEND_RECORD_T) :=
  r ← ms !! i; Some (<[i := mkRec (mkMsg n (len (msg r)) (data (msg r))) (in_use r)]> ms).

(** The record is linked at the end of what waits, or becomes the list; [true] when the peer is told. *)
Definition link (i : nat) (ms : list HAL_RMT_IPC_SEND_RECORD_T) (ch : HAL_RMT_IPC_CH_CFG_T) : option (bool * HAL_RMT_IPC_CH_CFG_T) :=
  match send_msg_list_p ch with
  | None => Some (true, set_lists (Some i) (send_pending_list_p ch) (set_msgs ms ch))
  | Some _ =>
      match send_pending_list_p ch with
      | None => Some (false, set_lists (send_msg_list_p ch) (Some i) (set_msgs ms ch))
      | Some q => j ← last_record (S (length ms)) q ms; ms' ← set_next j (Some i) ms; Some (false, set_msgs ms' ch)
      end
  end.

(** The answer, [*seq], the core, the mailboxes. *)
Definition hal_rmt_ipc_send_seq (s : side) (id : nat) (d n : Z) (c : core) (hs : list H) : option (Z * option nat * core * list H) :=
  match chan_cfg c !! id with
  | None => Some (1, None, c, hs)
  | Some ch =>
      if negb (chan_opened ch) then Some (2, None, c, hs)
      else
        match free_record (send_msgs ch) with
        | None => Some (-1, None, c, hs)
        | Some i =>
            '(told, ch') ← link i (<[i := mkRec (mkMsg None n d) true]> (send_msgs ch)) ch;
            c' ← hal_rmt_ipc_busy id true (set_chan id ch' c);
            Some (0, Some i, c', if told : bool then alter (peer_tx_irq_set s) id hs else hs)
        end
  end.

Definition hal_rmt_ipc_send (s : side) (id : nat) (d n : Z) (c : core) (hs : list H) : option (Z * core * list H) :=
  '(r, _, c', hs') ← hal_rmt_ipc_send_seq s id d n c hs; Some (r, c', hs').

(** ** Receiving *)
(** The loop over a list from the message [m]; [h k d n] is what the handler answers at its call [k].
    The calls, and the rest of the message at which the handler stopped. [None] for a missing handler
    (the assertion), a wild pointer or a list that does not end. *)
Fixpoint rx_loop (fuel k : nat) (handler : bool) (h : nat -> Z -> Z -> Z) (ms : list HAL_RMT_IPC_SEND_RECORD_T) (m : HAL_RMT_IPC_MSG_T)
    : option (list (Z * Z * Z) * option HAL_RMT_IPC_MSG_T) :=
  match fuel with
  | O => None
  | S f =>
      if handler then
        let processed := u32 (h k (data m) (len m)) in
        if processed <? len m
        then Some ([(data m, len m, processed)], Some (mkMsg (next m) (len m - processed) (u32 (data m + processed))))
        else
          '(l, rest) ← match next m with
                       | None => Some ([], None)
                       | Some i => r ← ms !! i; rx_loop f (S k) handler h ms (msg r)
                       end;
          Some ((data m, len m, processed) :: l, rest)
      else None
  end.

(** Where reading starts: the rest of an earlier message, or the peer's list; [None] inside for no
    message, outside for a peer that has published nothing. *)
Definition rx_start (id : nat) (pc : core) (ch : HAL_RMT_IPC_CH_CFG_T) : option (option HAL_RMT_IPC_MSG_T * HAL_RMT_IPC_CH_CFG_T) :=
  if negb (data (recv_pending_head ch) =? 0) then Some (Some (recv_pending_head ch), ch)
  else
    if recv_msg_list_pp ch || local_cfg_p pc then
      pch ← chan_cfg pc !! id;
      let ch' := set_recv true (recv_pending_head ch) ch in
      match send_msg_list_p pch with
      | None => Some (None, ch')
      | Some i => r ← send_msgs pch !! i; Some (Some (msg r), ch')
      end
    else None.

(** The loop from there, over the records [ms] of the peer. *)
Definition rx_read (handler : bool) (h : nat -> Z -> Z -> Z) (ms : list HAL_RMT_IPC_SEND_RECORD_T) (start : option HAL_RMT_IPC_MSG_T)
    : option (list (Z * Z * Z) * option HAL_RMT_IPC_MSG_T) :=
  match start with
  | None => Some ([], None)
  | Some m => rx_loop (S (S (length ms))) 0 handler h ms m
  end.

(** One channel of [hal_rmt_ipc_rx_irq_handler]; [pc] is the peer. *)
Definition rx_irq (s : side) (id : nat) (h : nat -> Z -> Z -> Z) (pc : core) (c : core) (hs : list H) : option (list out * core * list H) :=
  match chan_cfg c !! id, rx_enabled c !! id, hs !! id, chan_cfg pc !! id with
  | Some ch, Some en, Some hw, Some pch =>
      if negb (en && irq_active s HAL_RMT_IPC_IRQ_SEND_IND hw) then Some ([], c, hs)
      else
        let hw1 := rx_irq_suspend s hw in
        '(start, ch1) ← rx_start id pc ch;
        '(l, rest) ← rx_read (rx_irq_handler ch) h (send_msgs pch) start;
        match rest with
        | Some m => Some (map (handed s id) l, set_chan id (set_recv (recv_msg_list_pp ch1) m ch1) c, <[id := hw1]> hs)
        | None =>
            let old := recv_pending_head ch1 in
            let ch2 := set_recv (recv_msg_list_pp ch1) (mkMsg (next old) (len old) 0) ch1 in
            Some (map (handed s id) l, set_chan id ch2 c, <[id := if need_flow_ctrl ch then hw1 else rx_done s hw1]> hs)
        end
  | _, _, _, _ => None
  end.

Definition over_channels (f : nat -> core -> list H -> option (list out * core * list H)) : nat -> nat -> core -> list H -> option (list out * core * list H) :=
  fix loop n id c hs :=
    match n with
    | O => Some ([], c, hs)
    | S n' => '(o1, c1, h1) ← f id c hs; '(o2, c2, h2) ← loop n' (S id) c1 h1; Some (o1 ++ o2, c2, h2)
    end.

Definition hal_rmt_ipc_rx_irq_handler (s : side) (h : nat -> nat -> Z -> Z -> Z) (pc : core) (c : core) (hs : list H) : option (list out * core * list H) :=
  over_channels (fun id => rx_irq s id (h id) pc) (length (chan_cfg c)) 0 c hs.

Definition hal_rmt_ipc_rx_done (s : side) (id : nat) (c : core) (hs : list H) : Z * list H :=
  if (length (chan_cfg c) <=? id)%nat then (1, hs) else (0, alter (rx_done s) id hs).

Definition hal_rmt_ipc_start_recv (s : side) (id : nat) (c : core) (hs : list H) : Z * core * list H :=
  match chan_cfg c !! id with
  | None => (1, c, hs)
  | Some ch =>
      (0, set_nvic (<[id := true]> (rx_enabled c)) (tx_enabled c) c,
       if negb (data (recv_pending_head ch) =? 0) then alter (rx_irq_resume s) id hs else hs)
  end.

Definition hal_rmt_ipc_stop_recv (id : nat) (c : core) : Z * core :=
  if (length (chan_cfg c) <=? id)%nat then (1, c) else (0, set_nvic (<[id := false]> (rx_enabled c)) (tx_enabled c) c).

(** ** Completions *)
(** What the sender's handler sends in turn; a refusal is dropped. *)
Fixpoint send_all (s : side) (id : nat) (l : list (Z * Z)) (c : core) (hs : list H) : option (list out * core * list H) :=
  match l with
  | [] => Some ([], c, hs)
  | (d, n) :: l' =>
      '(r, c1, h1) ← hal_rmt_ipc_send s id d n c hs;
      '(o, c2, h2) ← send_all s id l' c1 h1;
      Some ((if r =? 0 then [Accepted s id d n] else []) ++ o, c2, h2)
  end.

Definition release (i : nat) (ms : list HAL_RMT_IPC_SEND_RECORD_T) : option (list HAL_RMT_IPC_SEND_RECORD_T) :=
  r ← ms !! i; Some (<[i := mkRec (msg r) false]> ms).

(** The loop over the list from the record [cur]; [cb d n] is what the handler sends when told of a
    message. The next record is read after the handler has run. *)
Fixpoint tx_loop (fuel : nat) (s : side) (id : nat) (cb : Z -> Z -> list (Z * Z)) (cur : option nat) (c : core) (hs : list H)
    : option (list out * core * list H) :=
  match cur with
  | None => Some ([], c, hs)
  | Some i =>
      match fuel with
      | O => None
      | S f =>
          ch ← chan_cfg c !! id;
          r ← send_msgs ch !! i;
          '(o1, c1, h1) ← send_all s id (if tx_irq_handler ch then cb (data (msg r)) (len (msg r)) else []) c hs;
          ch1 ← chan_cfg c1 !! id;
          ms ← release i (send_msgs ch1);
          r1 ← ms !! i;
          '(o2, c2, h2) ← tx_loop f s id cb (next (msg r1)) (set_chan id (set_msgs ms ch1) c1) h1;
          Some (o1 ++ Freed s id (data (msg r)) (len (msg r)) :: o2, c2, h2)
      end
  end.

Definition hal_rmt_ipc_tx_irq_handler_by_id (s : side) (id : nat) (cb : Z -> Z -> list (Z * Z)) (c : core) (hs : list H) : option (list out * core * list H) :=
  match chan_cfg c !! id, tx_enabled c !! id, hs !! id with
  | Some ch, Some en, Some hw =>
      if negb (en && irq_active s HAL_RMT_IPC_IRQ_RECV_DONE hw) then Some ([], c, hs)
      else
        '(o, c1, h1) ← tx_loop (S (length (send_msgs ch))) s id cb (send_msg_list_p ch) c (<[id := local_tx_irq_clear s hw]> hs);
        ch1 ← chan_cfg c1 !! id;
        match send_pending_list_p ch1 with
        | Some q => Some (o, set_chan id (set_lists (Some q) None ch1) c1, alter (peer_tx_irq_set s) id h1)
        | None => c2 ← hal_rmt_ipc_busy id false (set_chan id (set_lists None None ch1) c1); Some (o, c2, h1)
        end
  | _, _, _ => None
  end.

Definition hal_rmt_ipc_tx_irq_handler (s : side) (cb : nat -> Z -> Z -> list (Z * Z)) (c : core) (hs : list H) : option (list out * core * list H) :=
  over_channels (fun id => hal_rmt_ipc_tx_irq_handler_by_id s id (cb id)) (length (chan_cfg c)) 0 c hs.

Definition hal_rmt_ipc_tx_irq_run (s : side) (id : nat) (cb : Z -> Z -> list (Z * Z)) (c : core) (hs : list H) : option (Z * list out * core * list H) :=
  if (length (chan_cfg c) <=? id)%nat then Some (1, [], c, hs)
  else '(o, c', hs') ← hal_rmt_ipc_tx_irq_handler_by_id s id cb c hs; Some (0, o, c', hs').

Definition HAL_RMT_IPC_ALL_SEND_SEQ : Z := 2 ^ 32 - 1.

Definition hal_rmt_ipc_tx_active (id : nat) (seq : Z) (c : core) : bool :=
  match chan_cfg c !! id with
  | None => false
  | Some ch =>
      if seq <? Z.of_nat (length (send_msgs ch)) then match send_msgs ch !! Z.to_nat seq with Some r => in_use r | None => false end
      else (seq =? HAL_RMT_IPC_ALL_SEND_SEQ) && existsb in_use (send_msgs ch)
  end.

(** ** Opening and closing *)
Definition zero_msg : HAL_RMT_IPC_MSG_T := mkMsg None 0 0.
Definition zero_chan : HAL_RMT_IPC_CH_CFG_T :=
  mkCh None None (replicate HAL_RMT_IPC_MAX_SEND_REC_CNT (mkRec zero_msg false)) false zero_msg false false false false false.

(** A configuration that passes [hal_rmt_ipc_check_config]; [None] is the assertion on a channel
    opened with another flow control. *)
Definition hal_rmt_ipc_open (s : side) (id : nat) (rxhandler txhandler rx_flowctrl : bool) (c : core) (hs : list H) : option (Z * core * list H) :=
  match chan_cfg c !! id with
  | None => Some (1, c, hs)
  | Some ch =>
      if chan_opened ch then if eqb (need_flow_ctrl ch) rx_flowctrl then Some (3, c, hs) else None
      else
        let ch1 := mkCh None None (send_msgs zero_chan) false zero_msg rxhandler txhandler rx_flowctrl false true in
        let c1 := set_chan id ch1 (publish c) in
        Some (0, set_nvic (<[id := false]> (rx_enabled c)) (<[id := true]> (tx_enabled c)) c1, alter (irq_init s) id hs)
  end.

Definition hal_rmt_ipc_close (s : side) (id : nat) (c : core) (hs : list H) : option (Z * core * list H) :=
  match chan_cfg c !! id with
  | None => Some (1, c, hs)
  | Some _ =>
      let c1 := set_nvic (<[id := false]> (rx_enabled c)) (<[id := false]> (tx_enabled c)) c in
      c2 ← hal_rmt_ipc_busy id false c1;
      Some (0, set_chan id zero_chan c2, alter (irq_init s) id hs)
  end.

Definition hal_rmt_ipc_opened (id : nat) (c : core) : bool := match chan_cfg c !! id with Some ch => chan_opened ch | None => false end.

Definition hal_rmt_ipc_set_chan_state (id : nat) (opened : bool) (c : core) : Z * core :=
  match chan_cfg c !! id with None => (1, c) | Some ch => (0, set_chan id (set_opened opened ch) c) end.

(** At a wake-up from power down ([HAL_PM_STATE_POWER_DOWN_WAKEUP]). *)
Definition hal_rmt_ipc_pm_notif_handler (s : side) (wakeup : bool) (c : core) (hs : list H) : list H :=
  if wakeup then imap (fun id hw => if hal_rmt_ipc_opened id c then irq_init s hw else hw) hs else hs.
End Operations.

(** ** Two cores and the mailboxes between them *)
Record world (H : Type) := mkWorld { core_mcu : core; core_sens : core; mailboxes : list H }.
Arguments mkWorld {H} _ _ _.
Arguments core_mcu {H} _.
Arguments core_sens {H} _.
Arguments mailboxes {H} _.

Definition core_of {H} (s : side) (w : world H) : core := match s with MCU => core_mcu w | SENS => core_sens w end.
Definition put_core {H} (s : side) (c : core) (hs : list H) (w : world H) : world H :=
  match s with MCU => mkWorld c (core_sens w) hs | SENS => mkWorld (core_mcu w) c hs end.

(** The calls and the interrupts of a run. The handlers' answers are part of an interrupt. *)
Inductive ipc_event :=
  | Send (s : side) (id : nat) (d n : Z)
  | RxIrq (s : side) (h : nat -> nat -> Z -> Z -> Z)
  | TxIrq (s : side) (cb : nat -> Z -> Z -> list (Z * Z))
  | TxRun (s : side) (id : nat) (cb : Z -> Z -> list (Z * Z))
  | StartRecv (s : side) (id : nat)
  | StopRecv (s : side) (id : nat)
  | RxDone (s : side) (id : nat).

Section Runs.
Context {H : Type} `{RmtIpcCfg H}.
Variable sys_wake_lock : Z.

Definition ipc_step (e : ipc_event) (w : world H) : option (list out * world H) :=
  match e with
  | Send s id d n =>
      '(r, c, hs) ← hal_rmt_ipc_send sys_wake_lock s id d n (core_of s w) (mailboxes w);
      Some (if r =? 0 then [Accepted s id d n] else [], put_core s c hs w)
  | RxIrq s h =>
      '(o, c, hs) ← hal_rmt_ipc_rx_irq_handler s h (core_of (peer s) w) (core_of s w) (mailboxes w);
      Some (o, put_core s c hs w)
  | TxIrq s cb =>
      '(o, c, hs) ← hal_rmt_ipc_tx_irq_handler sys_wake_lock s cb (core_of s w) (mailboxes w);
      Some (o, put_core s c hs w)
  | TxRun s id cb =>
      '(_, o, c, hs) ← hal_rmt_ipc_tx_irq_run sys_wake_lock s id cb (core_of s w) (mailboxes w);
      Some (o, put_core s c hs w)
  | StartRecv s id => let '(_, c, hs) := hal_rmt_ipc_start_recv s id (core_of s w) (mailboxes w) in Some ([], put_core s c hs w)
  | StopRecv s id => let '(_, c) := hal_rmt_ipc_stop_recv id (core_of s w) in Some ([], put_core s c (mailboxes w) w)
  | RxDone s id => let '(_, hs) := hal_rmt_ipc_rx_done s id (core_of s w) (mailboxes w) in Some ([], put_core s (core_of s w) hs w)
  end.

Fixpoint ipc_run (l : list ipc_event) (w : world H) : option (list out * world H) :=
  match l with
  | [] => Some ([], w)
  | e :: l' => '(o1, w1) ← ipc_step e w; '(o2, w2) ← ipc_run l' w1; Some (o1 ++ o2, w2)
  end.

(** Every channel opened from reset, on one side. *)
Fixpoint open_all (s : side) (id : nat) (l : list (bool * bool)) (c : core) (hs : list H) : option (core * list H) :=
  match l with
  | [] => Some (c, hs)
  | (tx, flow) :: l' => '(_, c1, h1) ← hal_rmt_ipc_open s id true tx flow c hs; open_all s (S id) l' c1 h1
  end.

Definition reset_core (n : nat) (m : Z) : core := mkCore (replicate n zero_chan) false m false (replicate n false) (replicate n false).
End Runs.
