(* ===== verification/RmtIpcLaws.v ===== *)
(** Lemmas on hal_rmt_ipc.c: what the mailbox does, the two lists of a sender, the reader's loop, the
    busy flag and the wake lock. *)
From Stdlib Require Import ZArith Lia Bool.
From stdpp Require Import base option list.
From S2P Require Import Prelude RmtIpc.

(** ** What the mailbox does *)
(** The messages of one side: whether their indication is raised, whether their completion is, and
    whether the receiver lets the indication through. *)
Record line := mkLine { raised : bool; completed : bool; unmasked : bool }.

Class RmtIpcCfgSpec (H : Type) `{RmtIpcCfg H} := {
  dir : side -> H -> line;
  peer_tx_irq_set_dir s h : dir s (peer_tx_irq_set s h) = mkLine true (completed (dir s h)) (unmasked (dir s h));
  peer_tx_irq_set_other s h : dir (peer s) (peer_tx_irq_set s h) = dir (peer s) h;
  local_tx_irq_clear_dir s h : dir s (local_tx_irq_clear s h) = mkLine (raised (dir s h)) false (unmasked (dir s h));
  local_tx_irq_clear_other s h : dir (peer s) (local_tx_irq_clear s h) = dir (peer s) h;
  rx_irq_suspend_dir s h : dir (peer s) (rx_irq_suspend s h) = mkLine (raised (dir (peer s) h)) (completed (dir (peer s) h)) false;
  rx_irq_suspend_other s h : dir s (rx_irq_suspend s h) = dir s h;
  rx_irq_resume_dir s h : dir (peer s) (rx_irq_resume s h) = mkLine (raised (dir (peer s) h)) (completed (dir (peer s) h)) true;
  rx_irq_resume_other s h : dir s (rx_irq_resume s h) = dir s h;
  (** Clearing an indication that is raised tells its sender. *)
  rx_done_dir s h : raised (dir (peer s) h) = true -> dir (peer s) (rx_done s h) = mkLine false true true;
  rx_done_other s h : dir s (rx_done s h) = dir s h;
  irq_active_send s h : irq_active s HAL_RMT_IPC_IRQ_SEND_IND h = raised (dir (peer s) h) && unmasked (dir (peer s) h);
  irq_active_done s h : irq_active s HAL_RMT_IPC_IRQ_RECV_DONE h = completed (dir s h);
  irq_init_dir s h : dir s (irq_init s h) = mkLine false false (unmasked (dir s h));
  irq_init_peer s h : dir (peer s) (irq_init s h) = mkLine (raised (dir (peer s) h)) (completed (dir (peer s) h)) true }.

(** *** A mailbox that does just that *)
Record lines := mkLines { line_mcu : line; line_sens : line }.
Definition get_line (s : side) (h : lines) : line := match s with MCU => line_mcu h | SENS => line_sens h end.
Definition put_line (s : side) (l : line) (h : lines) : lines := match s with MCU => mkLines l (line_sens h) | SENS => mkLines (line_mcu h) l end.
Definition on_line (s : side) (f : line -> line) (h : lines) : lines := put_line s (f (get_line s h)) h.

#[export] Instance lines_cfg : RmtIpcCfg lines := {
  irq_init s h := on_line (peer s) (fun l => mkLine (raised l) (completed l) true) (on_line s (fun l => mkLine false false (unmasked l)) h);
  peer_tx_irq_set s := on_line s (fun l => mkLine true (completed l) (unmasked l));
  local_tx_irq_clear s := on_line s (fun l => mkLine (raised l) false (unmasked l));
  rx_irq_suspend s := on_line (peer s) (fun l => mkLine (raised l) (completed l) false);
  rx_irq_resume s := on_line (peer s) (fun l => mkLine (raised l) (completed l) true);
  rx_done s := on_line (peer s) (fun l => mkLine false (raised l || completed l) true);
  irq_active s t h := match t with
    | HAL_RMT_IPC_IRQ_SEND_IND => raised (get_line (peer s) h) && unmasked (get_line (peer s) h)
    | HAL_RMT_IPC_IRQ_RECV_DONE => completed (get_line s h)
    end }.

#[export] Instance lines_spec : RmtIpcCfgSpec lines.
Proof. refine {| dir := get_line |}; intros [] [[] []]; cbn; try done; by intros ->. Defined.

Lemma peer_peer s : peer (peer s) = s.
Proof. by destruct s. Qed.

Lemma peer_ne s : peer s <> s.
Proof. by destruct s. Qed.

(** ** Messages and their bytes *)
Definition message (r : HAL_RMT_IPC_SEND_RECORD_T) : Z * Z := (data (msg r), len (msg r)).

(** A message in memory, not at the null pointer. *)
Definition fits (x : Z * Z) : Prop := 0 < fst x /\ 0 <= snd x /\ fst x + snd x <= 2 ^ 32.

Definition span (d n : Z) : list Z := map (fun k => d + Z.of_nat k) (seq 0 (Z.to_nat n)).
Definition bytes (l : list (Z * Z)) : list Z := concat (map (fun x => span (fst x) (snd x)) l).

Lemma bytes_app l k : bytes (l ++ k) = bytes l ++ bytes k.
Proof. unfold bytes. by rewrite map_app, concat_app. Qed.

Lemma bytes_cons d n l : bytes ((d, n) :: l) = span d n ++ bytes l.
Proof. done. Qed.

Lemma span_split d n p : 0 <= p <= n -> span d n = span d p ++ span (d + p) (n - p).
Proof.
  intros Hp. unfold span. replace (Z.to_nat n) with (Z.to_nat p + Z.to_nat (n - p))%nat by lia.
  assert (E : seq (Z.to_nat p) (Z.to_nat (n - p)) = map (Nat.add (Z.to_nat p)) (seq 0 (Z.to_nat (n - p)))) by (rewrite <- (Nat.add_0_r (Z.to_nat p)) at 1; symmetry; apply fmap_add_seq).
  rewrite seq_app, map_app, Nat.add_0_l, E, map_map. f_equal. apply map_ext. intros k. lia.
Qed.

(** ** Chains of records *)
Fixpoint linked (ms : list HAL_RMT_IPC_SEND_RECORD_T) (p : option nat) (l : list nat) : Prop :=
  match l with
  | [] => p = None
  | i :: l' => p = Some i /\ exists r, ms !! i = Some r /\ linked ms (next (msg r)) l'
  end.

Definition messages (ms : list HAL_RMT_IPC_SEND_RECORD_T) (l : list nat) : list (Z * Z) :=
  omap (fun i => message <$> ms !! i) l.

Lemma messages_app ms l k : messages ms (l ++ k) = messages ms l ++ messages ms k.
Proof. unfold messages. by rewrite omap_app. Qed.

Lemma linked_frame ms ms' p l : (forall i, i ∈ l -> msg <$> ms' !! i = msg <$> ms !! i) -> linked ms p l -> linked ms' p l.
Proof.
  revert p. induction l as [|i l IH]; intros p Hf; [done|]. intros [-> (r & Hr & Hl)]. split; [done|].
  pose proof (Hf i ltac:(left)) as E. rewrite Hr in E. destruct (ms' !! i) as [r'|]; [|done]. injection E as E.
  exists r'. split; [done|]. rewrite E. apply IH; [|done]. intros j Hj. apply Hf. by right.
Qed.

Lemma messages_step ms i l :
  messages ms (i :: l) = match ms !! i with Some r => message r :: messages ms l | None => messages ms l end.
Proof. unfold messages. simpl. by destruct (ms !! i). Qed.

Lemma messages_frame ms ms' l : (forall i, i ∈ l -> msg <$> ms' !! i = msg <$> ms !! i) -> messages ms' l = messages ms l.
Proof.
  induction l as [|i l IH]; intros Hf; [done|]. rewrite !messages_step.
  pose proof (Hf i ltac:(left)) as E. rewrite IH by (intros j Hj; apply Hf; by right).
  destruct (ms !! i) as [r|], (ms' !! i) as [r'|]; try done. injection E as E. unfold message. by rewrite E.
Qed.

Lemma linked_lookup ms p l i : linked ms p l -> i ∈ l -> is_Some (ms !! i).
Proof.
  revert p. induction l as [|j l IH]; intros p Hl Hi; [by apply elem_of_nil in Hi|]. destruct Hl as [_ (r & Hr & Hl)].
  apply elem_of_cons in Hi as [-> | Hi]; [by exists r | by eapply IH].
Qed.

Lemma linked_nil ms p l : linked ms p l -> p = None <-> l = [].
Proof. destruct l; [by intros ->|]. intros [-> _]. by split. Qed.

Lemma linked_unique ms p l k : linked ms p l -> linked ms p k -> l = k.
Proof.
  revert p k. induction l as [|i l IH]; intros p [|j k] Hl Hk; [done | by rewrite Hl in Hk; destruct Hk | by rewrite Hk in Hl; destruct Hl |].
  destruct Hl as [-> (r & Hr & Hl)], Hk as [[= <-] (r' & Hr' & Hk)]. rewrite Hr in Hr'. injection Hr' as <-. f_equal. by eapply IH.
Qed.

Lemma messages_cons ms i l r : ms !! i = Some r -> messages ms (i :: l) = message r :: messages ms l.
Proof. intros Hr. by rewrite messages_step, Hr. Qed.

#[global] Arguments messages : simpl never.
#[global] Arguments bytes : simpl never.

(** The walk to the end, and a record linked there. *)
Lemma last_record_spec ms l : forall p fuel, linked ms (Some p) l -> (length l <= fuel)%nat ->
  exists k j, l = k ++ [j] /\ last_record fuel p ms = Some j.
Proof.
  induction l as [|i l IH]; intros p fuel Hl Hf; [done|]. destruct Hl as [[= ->] (r & Hr & Hl)]. destruct fuel as [|fuel]; [cbn in Hf; lia|].
  cbn [last_record]. rewrite Hr. cbn. destruct (next (msg r)) as [q|].
  - destruct (IH q fuel Hl) as (k & j & -> & E); [cbn in Hf; lia|]. exists (i :: k), j. by split.
  - destruct l; [|by destruct Hl]. exists [], i. by split.
Qed.

Lemma set_next_spec j n ms ms' : set_next j n ms = Some ms' ->
  length ms' = length ms /\ (forall x, x <> j -> ms' !! x = ms !! x) /\
  (forall x, message <$> ms' !! x = message <$> ms !! x) /\ (forall x, in_use <$> ms' !! x = in_use <$> ms !! x) /\
  exists r, ms' !! j = Some r /\ next (msg r) = n.
Proof.
  unfold set_next. destruct (ms !! j) as [r|] eqn:E; [|done]. intros [= <-]. pose proof (lookup_lt_Some _ _ _ E) as Hlt.
  assert (Hne : forall x (y : HAL_RMT_IPC_SEND_RECORD_T), x <> j -> <[j := y]> ms !! x = ms !! x) by (intros x y Hx; by apply list_lookup_insert_ne).
  assert (Hx : forall {B} (f : HAL_RMT_IPC_SEND_RECORD_T -> B) x y, f y = f r -> f <$> <[j := y]> ms !! x = f <$> ms !! x).
  { intros B f x y Hf. destruct (decide (x = j)) as [-> |]; [|by rewrite Hne]. rewrite list_lookup_insert_eq by done. rewrite E. cbn. by rewrite Hf. }
  split; [apply length_insert|]. split; [intros x; by apply Hne|]. split; [intros x; by apply Hx|]. split; [intros x; by apply Hx|].
  eexists. split; [by apply list_lookup_insert_eq | done].
Qed.

Lemma messages_ext ms ms' l : (forall x, message <$> ms' !! x = message <$> ms !! x) -> messages ms' l = messages ms l.
Proof. intros Hx. induction l as [|x l IH]; [done|]. rewrite !messages_step, IH. specialize (Hx x). destruct (ms !! x) as [r|], (ms' !! x) as [r'|]; cbn in Hx; try done. assert (E : message r' = message r) by congruence. by rewrite E. Qed.

Lemma linked_snoc ms ms' p k j i r : linked ms p (k ++ [j]) -> NoDup (k ++ [j]) -> i ∉ k ++ [j] ->
  ms !! i = Some r -> next (msg r) = None -> set_next j (Some i) ms = Some ms' -> linked ms' p ((k ++ [j]) ++ [i]).
Proof.
  intros Hl Hn Hi Hr Hnone Hs. destruct (set_next_spec _ _ _ _ Hs) as (_ & Hne & _ & _ & (rj & Hj & Ej)).
  assert (Hji : i <> j) by (intros ->; apply Hi, elem_of_app; right; left). clear Hi Hs. rewrite <- app_assoc. revert p Hl Hn.
  induction k as [|x k IH]; intros p Hl Hn.
  - destruct Hl as [-> _]. split; [done|]. exists rj. split; [done|]. rewrite Ej. split; [done|]. exists r. by rewrite Hne.
  - destruct Hl as [-> (rx & Hx & Hl)]. cbn in Hn. apply NoDup_cons in Hn as [Hnx Hn]. split; [done|].
    exists rx. split; [rewrite Hne; [done|]; intros ->; apply Hnx, elem_of_app; right; left|]. by apply IH.
Qed.

(** ** The records of a sender *)
(** The list being read from [cur], the list that waits, and the records neither holds, which are free. *)
Record queue (ms : list HAL_RMT_IPC_SEND_RECORD_T) (cur pend : option nat) (a p : list nat) : Prop := {
  q_cur : linked ms cur a;
  q_pend : linked ms pend p;
  q_nodup : NoDup (a ++ p);
  q_use : forall i r, ms !! i = Some r -> in_use r = true <-> i ∈ a ++ p;
  q_fits : Forall fits (messages ms (a ++ p));
  q_len : length ms = HAL_RMT_IPC_MAX_SEND_REC_CNT }.

Lemma queue_in_range ms cur pend a p i : queue ms cur pend a p -> i ∈ a ++ p -> is_Some (ms !! i).
Proof.
  intros Hq Hi. apply elem_of_app in Hi as [Hi | Hi]; eapply linked_lookup; try exact Hi; apply Hq.
Qed.

Lemma free_record_spec ms : match free_record ms with
  | Some i => exists r, ms !! i = Some r /\ in_use r = false
  | None => forall i r, ms !! i = Some r -> in_use r = true
  end.
Proof.
  induction ms as [|r ms IH]; [done|]. cbn. destruct (in_use r) eqn:E; [|by exists r].
  destruct (free_record ms) as [i|]; cbn; [exact IH|]. intros [|i] r' Hi; [by injection Hi as <- | by eapply IH].
Qed.

Lemma queue_full ms cur pend a p : queue ms cur pend a p ->
  (free_record ms = None <-> length (a ++ p) = HAL_RMT_IPC_MAX_SEND_REC_CNT) /\ (length (a ++ p) <= HAL_RMT_IPC_MAX_SEND_REC_CNT)%nat.
Proof.
  intros Hq. pose proof (q_len _ _ _ _ _ Hq) as Hl. pose proof (q_nodup _ _ _ _ _ Hq) as Hn.
  assert (Hsub : forall i, i ∈ a ++ p -> i ∈ seq 0 (length ms)).
  { intros i Hi. destruct (queue_in_range _ _ _ _ _ _ Hq Hi) as [r Hr]. apply elem_of_seq. apply lookup_lt_Some in Hr. lia. }
  assert (Hle : (length (a ++ p) <= length ms)%nat).
  { rewrite <- (length_seq (length ms) 0). apply submseteq_length, NoDup_submseteq; done. }
  split; [|lia]. pose proof (free_record_spec ms) as Hf. destruct (free_record ms) as [i|].
  - split; [done|]. intros Hlen. exfalso. destruct Hf as (r & Hr & Hu).
    assert (Hi : i ∉ a ++ p) by (intros Hi; apply (q_use _ _ _ _ _ Hq _ _ Hr) in Hi; congruence).
    assert (Hs : (length (i :: a ++ p) <= length (seq 0 (length ms)))%nat).
    { apply submseteq_length, NoDup_submseteq; [by apply NoDup_cons|]. intros x Hx. apply elem_of_cons in Hx as [-> | Hx]; [|by apply Hsub].
      apply elem_of_seq. apply lookup_lt_Some in Hr. lia. }
    rewrite length_seq in Hs. cbn in Hs. lia.
  - split; [|done]. intros _. assert (Hs : (length (seq 0 (length ms)) <= length (a ++ p))%nat).
    { apply submseteq_length, NoDup_submseteq; [apply NoDup_seq|]. intros x Hx. apply elem_of_seq in Hx.
      destruct (lookup_lt_is_Some_2 ms x) as [r Hr]; [lia|]. by apply (q_use _ _ _ _ _ Hq x r Hr), Hf with x. }
    rewrite length_seq in Hs. lia.
Qed.

(** A record taken: the lists are as before. *)
Lemma queue_take ms cur pend a p i d n : queue ms cur pend a p -> free_record ms = Some i ->
  (i ∉ a ++ p) /\ (i < length ms)%nat /\
  (forall x, x ∈ a ++ p -> msg <$> (<[i := mkRec (mkMsg None n d) true]> ms !! x) = msg <$> ms !! x).
Proof.
  intros Hq Hf. pose proof (free_record_spec ms) as H. rewrite Hf in H. destruct H as (r & Hr & Hu).
  assert (Hi : i ∉ a ++ p) by (intros Hi; apply (q_use _ _ _ _ _ Hq _ _ Hr) in Hi; congruence).
  split; [done|]. split; [by apply lookup_lt_Some in Hr|]. intros x Hx. rewrite list_lookup_insert_ne; [done|]. by intros ->.
Qed.

(** It is linked at the end of what waits, to which nothing is linked yet ... *)
Lemma queue_link_first ms cur pend a i d n : queue ms cur pend a [] -> free_record ms = Some i -> fits (d, n) ->
  let ms1 := <[i := mkRec (mkMsg None n d) true]> ms in
  queue ms1 cur (Some i) a [i] /\ (forall x, x ∈ a -> ms1 !! x = ms !! x) /\ messages ms1 [i] = [(d, n)].
Proof.
  intros Hq Hf Hfit ms1. destruct (queue_take _ _ _ _ _ _ d n Hq Hf) as (Hi & Hlt & Hx). fold ms1 in Hx. rewrite app_nil_r in *.
  assert (Hnew : ms1 !! i = Some (mkRec (mkMsg None n d) true)) by (by apply list_lookup_insert_eq).
  assert (Ha : messages ms1 a = messages ms a) by (by apply messages_frame).
  assert (Hm : messages ms1 [i] = [(d, n)]) by (by rewrite (messages_cons _ _ _ _ Hnew)).
  split; [|split; [intros x Hxa; apply list_lookup_insert_ne; by intros ->|done]]. split.
  - apply (linked_frame ms); [done | apply Hq].
  - split; [done|]. by exists (mkRec (mkMsg None n d) true).
  - apply NoDup_app. split; [pose proof (q_nodup _ _ _ _ _ Hq) as N; by rewrite app_nil_r in N|]. split; [|apply NoDup_singleton].
    intros x Hxa Hxi. apply list_elem_of_singleton in Hxi as ->. done.
  - intros x r Hr. rewrite elem_of_app, list_elem_of_singleton. destruct (decide (x = i)) as [-> | Hne].
    + rewrite Hnew in Hr. injection Hr as <-. cbn. tauto.
    + unfold ms1 in Hr. rewrite list_lookup_insert_ne in Hr by done. rewrite (q_use _ _ _ _ _ Hq x r Hr), app_nil_r. tauto.
  - rewrite messages_app, Ha, Hm. apply Forall_app. split; [|by apply List.Forall_cons].
    pose proof (q_fits _ _ _ _ _ Hq) as F. by rewrite app_nil_r in F.
  - unfold ms1. rewrite length_insert. apply Hq.
Qed.

(** ... or after the last record that waits. *)
Lemma queue_link_last ms cur q a p i d n : queue ms cur (Some q) a p -> free_record ms = Some i -> fits (d, n) ->
  let ms1 := <[i := mkRec (mkMsg None n d) true]> ms in
  exists j ms2, last_record (S (length ms1)) q ms1 = Some j /\ set_next j (Some i) ms1 = Some ms2 /\
    queue ms2 cur (Some q) a (p ++ [i]) /\ (forall x, x ∈ a -> ms2 !! x = ms !! x) /\ messages ms2 (p ++ [i]) = messages ms p ++ [(d, n)].
Proof.
  intros Hq Hf Hfit ms1. destruct (queue_take _ _ _ _ _ _ d n Hq Hf) as (Hi & Hlt & Hx). fold ms1 in Hx.
  assert (Hnew : ms1 !! i = Some (mkRec (mkMsg None n d) true)) by (by apply list_lookup_insert_eq).
  assert (Hp1 : linked ms1 (Some q) p) by (apply (linked_frame ms); [intros x Hxp; apply Hx, elem_of_app; by right | apply Hq]).
  pose proof (queue_full _ _ _ _ _ Hq) as [_ Hlen]. rewrite length_app in Hlen.
  destruct (last_record_spec ms1 p q (S (length ms1)) Hp1) as (k & j & -> & Hj); [unfold ms1; rewrite length_insert, (q_len _ _ _ _ _ Hq); lia|].
  pose proof (q_nodup _ _ _ _ _ Hq) as Hn. apply NoDup_app in Hn as (Hna & Hdis & Hnp). rewrite elem_of_app in Hi.
  assert (Hjs : is_Some (ms1 !! j)) by (eapply linked_lookup; [exact Hp1 | apply elem_of_app; right; left]). destruct Hjs as [y Hy].
  assert (Hs : exists ms2, set_next j (Some i) ms1 = Some ms2) by (unfold set_next; rewrite Hy; by eexists). destruct Hs as [ms2 Hs].
  destruct (set_next_spec _ _ _ _ Hs) as (Hl2 & Hne & Hmsg & Huse & _).
  exists j, ms2. split; [done|]. split; [done|].
  assert (Hja : j ∉ a) by (intros Ha; apply (Hdis _ Ha), elem_of_app; right; left).
  assert (Ha : messages ms2 a = messages ms a) by (rewrite (messages_ext _ _ _ Hmsg); apply messages_frame; intros x Hxa; apply Hx, elem_of_app; by left).
  assert (Hp : messages ms2 ((k ++ [j]) ++ [i]) = messages ms (k ++ [j]) ++ [(d, n)]).
  { rewrite (messages_ext _ _ _ Hmsg), messages_app, (messages_cons _ _ _ _ Hnew). f_equal. apply messages_frame. intros x Hxp. apply Hx, elem_of_app. by right. }
  split; [|split; [intros x Hxa; rewrite Hne by (by intros ->); apply list_lookup_insert_ne; intros ->; tauto|done]]. split.
  - apply (linked_frame ms1); [intros x Hxa; rewrite Hne; [done|]; by intros -> |].
    apply (linked_frame ms); [intros x Hxa; apply Hx, elem_of_app; by left | apply Hq].
  - eapply linked_snoc; try eassumption; [tauto | done].
  - rewrite app_assoc. apply NoDup_app. split; [apply Hq|]. split; [|apply NoDup_singleton].
    intros x Hxp Hxi. apply list_elem_of_singleton in Hxi as ->. rewrite elem_of_app in Hxp. tauto.
  - intros x r Hr. rewrite app_assoc, elem_of_app, list_elem_of_singleton. pose proof (Huse x) as E. rewrite Hr in E.
    destruct (decide (x = i)) as [-> | Hxi]; [rewrite Hnew in E; injection E as ->; tauto|].
    unfold ms1 in E. rewrite list_lookup_insert_ne in E by done. destruct (ms !! x) as [r'|] eqn:Er; [|done]. injection E as ->.
    rewrite (q_use _ _ _ _ _ Hq x r' Er). tauto.
  - rewrite messages_app, Ha, Hp, app_assoc, <- messages_app. apply Forall_app. split; [apply Hq | by apply List.Forall_cons].
  - rewrite Hl2. unfold ms1. rewrite length_insert. apply Hq.
Qed.

(** ** The reader's loop *)
(** The bytes a handler took. *)
Definition bytes_taken (l : list (Z * Z * Z)) : list Z := concat (map (fun '(d, n, p) => span d (Z.min p n)) l).

(** What is left after a stop: the rest of a message, and the messages after it. *)
Definition left_after (ms : list HAL_RMT_IPC_SEND_RECORD_T) (rest : option HAL_RMT_IPC_MSG_T) (l : list nat) : list (Z * Z) :=
  match rest with None => [] | Some m => (data m, len m) :: messages ms l end.

(** A handler that takes whatever it is given. *)
Definition takes_all (h : nat -> Z -> Z -> Z) : Prop := forall k d x, 0 <= x < 2 ^ 32 -> x <= u32 (h k d x).

Lemma rx_loop_spec ms h l : forall fuel k m, linked ms (next m) l -> (length l < fuel)%nat ->
  fits (data m, len m) -> Forall fits (messages ms l) ->
  exists calls rest l2, rx_loop fuel k true h ms m = Some (calls, rest) /\ l2 `suffix_of` l /\
    bytes_taken calls ++ bytes (left_after ms rest l2) = bytes ((data m, len m) :: messages ms l) /\
    match rest with None => True | Some m' => linked ms (next m') l2 /\ fits (data m', len m') /\ ~ takes_all h end.
Proof.
  induction l as [|i l IH]; intros [|fuel] k m Hl Hf Hm Hms; try (cbn in Hf; lia);
    cbn [rx_loop]; set (q := u32 (h k (data m) (len m))); assert (Hq : 0 <= q) by (apply Z.mod_pos_bound; lia);
    destruct Hm as (Hd & Hn & Hr); cbn [fst snd] in *; (destruct (Z.ltb_spec q (len m)) as [Hlt | Hge]).
  1, 3: eexists _, _, _; split; [reflexivity|]; split; [reflexivity|]; cbn [left_after next len data]; rewrite u32_small by lia;
    split; [|split; [exact Hl | split; [unfold fits; cbn; lia | intros Ht; specialize (Ht k (data m) (len m) ltac:(lia)); lia]]]; rewrite !bytes_cons; unfold bytes_taken; cbn [map concat];
    rewrite Z.min_l, app_nil_r, app_assoc, <- span_split by lia; reflexivity.
  - cbn in Hl. rewrite Hl. cbn. eexists _, _, []. split; [reflexivity|]. split; [reflexivity|]. split; [|done].
    rewrite bytes_cons. unfold bytes_taken. cbn [map concat left_after]. rewrite Z.min_r by lia.
    change (bytes (messages ms [])) with (@nil Z). change (bytes []) with (@nil Z). by rewrite !app_nil_r.
  - destruct Hl as [Hi (r & Hr' & Hl)]. rewrite Hi. cbn [mbind option_bind]. rewrite Hr'. cbn [mbind option_bind]. rewrite (messages_cons _ _ _ _ Hr') in Hms |- *.
    apply Forall_cons_1 in Hms as [Hmr Hms]. destruct (IH fuel (S k) (msg r) Hl ltac:(cbn in Hf; lia) Hmr Hms) as (calls & rest & l2 & -> & Hs & Hb & Hrest).
    eexists _, _, l2. split; [reflexivity|]. split; [by apply suffix_cons_r|]. split; [|done].
    change (bytes_taken ((data m, len m, q) :: calls)) with (span (data m) (Z.min q (len m)) ++ bytes_taken calls).
    rewrite Z.min_r by lia. rewrite <- app_assoc, Hb. done.
Qed.

(** ** One direction of one channel *)
(** How far the receiver is: the mailbox, and the messages it has still to take. *)
Inductive reading (ms : list HAL_RMT_IPC_SEND_RECORD_T) (a : list nat) (flow : bool) (head : HAL_RMT_IPC_MSG_T) : line -> list (Z * Z) -> Prop :=
  | Reading_idle : a = [] -> data head = 0 -> reading ms a flow head (mkLine false false true) []
  | Reading_announced : a <> [] -> data head = 0 -> reading ms a flow head (mkLine true false true) (messages ms a)
  | Reading_stopped l u : a <> [] -> l `suffix_of` a -> linked ms (next head) l -> fits (data head, len head) ->
      (length (bytes ((data head, len head) :: messages ms l)) <= length (bytes (messages ms a)))%nat ->
      reading ms a flow head (mkLine true false u) ((data head, len head) :: messages ms l)
  | Reading_read : a <> [] -> flow = true -> data head = 0 -> reading ms a flow head (mkLine true false false) []
  | Reading_done : a <> [] -> data head = 0 -> reading ms a flow head (mkLine false true true) [].

(** The messages accepted, the bytes taken and the messages given back so far, against the lists. *)
Record direction (sc rc : HAL_RMT_IPC_CH_CFG_T) (l : line) (acc : list (Z * Z)) (took : list Z) (freed : list (Z * Z))
    (a p : list nat) (rest : list (Z * Z)) : Prop := {
  d_queue : queue (send_msgs sc) (send_msg_list_p sc) (send_pending_list_p sc) a p;
  d_idle : a = [] -> p = [];
  d_busy : chan_busy sc = negb (bool_decide (a = []));
  d_opened : chan_opened sc = true;
  d_handler : rx_irq_handler rc = true;
  d_reading : reading (send_msgs sc) a (need_flow_ctrl rc) (recv_pending_head rc) l rest;
  d_acc : acc = freed ++ messages (send_msgs sc) (a ++ p);
  d_took : took ++ bytes rest = bytes (freed ++ messages (send_msgs sc) a) }.

(** A direction in a state, and in any state. *)
Definition dir_state : Type := list nat -> list nat -> line -> Prop.
Definition any : dir_state := fun _ _ _ => True.

(** What the mailbox says of the lists. *)
Definition consistent (a p : list nat) (l : line) : Prop :=
  (a = [] -> p = []) /\ (raised l = false -> completed l = false -> a = []) /\ (completed l = true -> raised l = false).

Lemma direction_consistent sc rc l acc took freed a p rest : direction sc rc l acc took freed a p rest -> consistent a p l.
Proof. intros [D1 D2 D3 D4 D5 D6 D7 D8]. split; [done|]. by inversion D6. Qed.

Definition dir_in (R : dir_state) (sc rc : HAL_RMT_IPC_CH_CFG_T) (l : line) (acc : list (Z * Z)) (took : list Z) (freed : list (Z * Z)) : Prop :=
  exists a p rest, direction sc rc l acc took freed a p rest /\ R a p l.

(** The same while the completion handler walks the list from [cur]. *)
Record walking (cur : option nat) (sc rc : HAL_RMT_IPC_CH_CFG_T) (l : line) (acc : list (Z * Z)) (took : list Z) (freed : list (Z * Z))
    (a p : list nat) : Prop := {
  w_queue : queue (send_msgs sc) cur (send_pending_list_p sc) a p;
  w_list : send_msg_list_p sc <> None;
  w_busy : chan_busy sc = true;
  w_opened : chan_opened sc = true;
  w_handler : rx_irq_handler rc = true;
  w_line : l = mkLine false false true;
  w_head : data (recv_pending_head rc) = 0;
  w_acc : acc = freed ++ messages (send_msgs sc) (a ++ p);
  w_took : took = bytes (freed ++ messages (send_msgs sc) a) }.

(** What a direction depends on, of the sender's channel and of the receiver's. *)
Definition send_part (c : HAL_RMT_IPC_CH_CFG_T) := (send_msg_list_p c, send_pending_list_p c, send_msgs c, chan_busy c, chan_opened c).
Definition recv_part (c : HAL_RMT_IPC_CH_CFG_T) := (recv_pending_head c, rx_irq_handler c, need_flow_ctrl c).

Lemma dir_in_ext R sc sc' rc rc' l acc took freed : send_part sc' = send_part sc -> recv_part rc' = recv_part rc ->
  dir_in R sc rc l acc took freed -> dir_in R sc' rc' l acc took freed.
Proof.
  intros [= E1 E2 E3 E4 E5] [= F1 F2 F3] (a & p & rest & [D1 D2 D3 D4 D5 D6 D7 D8] & Hr). exists a, p, rest.
  split; [|done]. split; by rewrite ?E1, ?E2, ?E3, ?E4, ?E5, ?F1, ?F2, ?F3.
Qed.

(** ** Sending, on a channel *)
(** A new record linked: as the list when there is none, otherwise behind all that waits. *)
Lemma link_spec ch cur a p i d n : queue (send_msgs ch) cur (send_pending_list_p ch) a p ->
  (send_msg_list_p ch = None -> a = [] /\ p = []) -> free_record (send_msgs ch) = Some i -> fits (d, n) ->
  exists ch', link i (<[i := mkRec (mkMsg None n d) true]> (send_msgs ch)) ch = Some (negb (bool_decide (send_msg_list_p ch <> None)), ch') /\
    recv_part ch' = recv_part ch /\ chan_opened ch' = chan_opened ch /\ chan_busy ch' = chan_busy ch /\
    if bool_decide (send_msg_list_p ch <> None)
    then send_msg_list_p ch' = send_msg_list_p ch /\ queue (send_msgs ch') cur (send_pending_list_p ch') a (p ++ [i]) /\
         (forall x, x ∈ a -> send_msgs ch' !! x = send_msgs ch !! x) /\
         messages (send_msgs ch') (p ++ [i]) = messages (send_msgs ch) p ++ [(d, n)]
    else queue (send_msgs ch') (send_msg_list_p ch') (send_pending_list_p ch') [i] [] /\ messages (send_msgs ch') [i] = [(d, n)].
Proof.
  intros Hq Hnone Hf Hfit. unfold link. destruct (send_msg_list_p ch) as [x|] eqn:El.
  - rewrite bool_decide_true by done. destruct (send_pending_list_p ch) as [q|] eqn:Ep.
    + destruct (queue_link_last _ _ _ _ _ _ d n Hq Hf Hfit) as (j & ms2 & -> & Hs & Hq2 & Ha & Hp). cbn. rewrite Hs. cbn.
      eexists. split; [reflexivity|]. split; [done|]. split; [done|]. split; [done|]. cbn. by rewrite Ep.
    + assert (Hp : p = []) by (by apply (linked_nil _ _ _ (q_pend _ _ _ _ _ Hq))). subst p.
      destruct (queue_link_first _ _ _ _ _ d n Hq Hf Hfit) as (Hq2 & Ha & Hp). eexists. split; [reflexivity|]. by cbn.
  - destruct (Hnone eq_refl) as [-> ->]. rewrite bool_decide_false by (by intros []).
    assert (Hcur : cur = None) by exact (q_cur _ _ _ _ _ Hq). assert (Hp : send_pending_list_p ch = None) by exact (q_pend _ _ _ _ _ Hq).
    rewrite Hcur, Hp in Hq. destruct (queue_link_first _ _ _ _ _ d n Hq Hf Hfit) as (Hq2 & _ & Hm).
    eexists. split; [reflexivity|]. split; [done|]. split; [done|]. split; [done|]. cbn. rewrite Hp. split; [|exact Hm].
    destruct Hq2 as [Q1 Q2 Q3 Q4 Q5 Q6]. by split.
Qed.

(** The record linked is in use. *)
Lemma link_in_use i x ms ch told ch' : (i < length ms)%nat -> link i (<[i := mkRec x true]> ms) ch = Some (told, ch') ->
  exists r, send_msgs ch' !! i = Some r /\ in_use r = true.
Proof.
  intros Hi Hl. assert (Hnew : <[i := mkRec x true]> ms !! i = Some (mkRec x true)) by (by apply list_lookup_insert_eq). unfold link in Hl.
  destruct (send_msg_list_p ch); [destruct (send_pending_list_p ch) as [q|]|]; try (injection Hl as _ <-; by exists (mkRec x true)).
  destruct (last_record _ q _) as [j|]; [|done]. cbn in Hl. destruct (set_next j _ _) as [ms'|] eqn:Es; [|done]. injection Hl as _ <-.
  destruct (set_next_spec _ _ _ _ Es) as (_ & _ & _ & Hu & _). specialize (Hu i). rewrite Hnew in Hu. cbn.
  destruct (ms' !! i) as [r|]; [|done]. exists r. split; [done | by injection Hu].
Qed.

(** ** Cores *)
Section Cores.
Context (user : Z) (Huser : 0 <= user < HAL_SYS_WAKE_LOCK_USER_QTY).

(** [n] channels, published, with their completion interrupts enabled; the busy flag is whether a channel is busy, and the wake lock is held
    then; the other users' locks are as in [m0]. *)
Record core_ok (n : nat) (m0 : Z) (fl : list bool) (c : core) : Prop := {
  c_chans : length (chan_cfg c) = n;
  c_rx : length (rx_enabled c) = n;
  c_tx : tx_enabled c = replicate n true;
  c_cfg : local_cfg_p c = true;
  c_flow : map need_flow_ctrl (chan_cfg c) = fl;
  c_busy : busy_p c = existsb chan_busy (chan_cfg c);
  c_lock : Z.testbit (sys_wake_lock_map c) user = busy_p c;
  c_others : forall u, 0 <= u -> u <> user -> Z.testbit (sys_wake_lock_map c) u = Z.testbit m0 u }.

Lemma existsb_insert l id (ch ch' : HAL_RMT_IPC_CH_CFG_T) : l !! id = Some ch -> chan_busy ch' = chan_busy ch ->
  existsb chan_busy (<[id := ch']> l) = existsb chan_busy l.
Proof.
  revert id. induction l as [|x l IH]; intros [|id] Hl Hb; try done; simpl in *; [injection Hl as ->; by rewrite Hb | by rewrite (IH _ Hl Hb)].
Qed.

Lemma flow_insert l id (ch ch' : HAL_RMT_IPC_CH_CFG_T) : l !! id = Some ch -> need_flow_ctrl ch' = need_flow_ctrl ch ->
  map need_flow_ctrl (<[id := ch']> l) = map need_flow_ctrl l.
Proof. intros Hl Hf. change (map need_flow_ctrl) with (fmap (M := list) need_flow_ctrl). rewrite list_fmap_insert, Hf. apply list_insert_id. by rewrite list_lookup_fmap, Hl. Qed.

Lemma core_set n m0 fl c id ch ch' : core_ok n m0 fl c -> chan_cfg c !! id = Some ch -> chan_busy ch' = chan_busy ch -> need_flow_ctrl ch' = need_flow_ctrl ch -> core_ok n m0 fl (set_chan id ch' c).
Proof.
  intros [C1 C2 C3 C4 C8 C5 C6 C7] Hl Hb Hf. split; cbn; try done; [by rewrite length_insert | by rewrite (flow_insert _ _ _ _ Hl Hf) | by rewrite (existsb_insert _ _ _ _ Hl Hb)].
Qed.

Lemma core_enable n m0 fl c r : core_ok n m0 fl c -> length r = n -> core_ok n m0 fl (set_nvic r (tx_enabled c) c).
Proof. intros [C1 C2 C3 C4 C8 C5 C6 C7] Hr. by split. Qed.

Lemma lock_bits map u : 0 <= u -> Z.testbit (Z.lor map (Z.shiftl 1 user)) u = (Z.testbit map u || (u =? user))%bool.
Proof. intros Hu. rewrite Z.lor_spec, Z.shiftl_1_l, Z.pow2_bits_eqb by lia. f_equal. apply Z.eqb_sym. Qed.

Lemma unlock_bits map u : 0 <= u -> Z.testbit (Z.ldiff map (Z.shiftl 1 user)) u = (Z.testbit map u && negb (u =? user))%bool.
Proof. intros Hu. rewrite Z.ldiff_spec, Z.shiftl_1_l, Z.pow2_bits_eqb by lia. by rewrite (Z.eqb_sym user). Qed.

Lemma existsb_true l id (ch : HAL_RMT_IPC_CH_CFG_T) : l !! id = Some ch -> chan_busy ch = true -> existsb chan_busy l = true.
Proof. intros Hl Hb. apply existsb_exists. exists ch. split; [apply list_elem_of_In; by eapply list_elem_of_lookup_2 | done]. Qed.

(** The busy flag of a channel, with the core's and the lock. *)
Lemma core_busy_spec n m0 fl c id b ch : core_ok n m0 fl c -> chan_cfg c !! id = Some ch ->
  exists c', hal_rmt_ipc_busy user id b c = Some c' /\ core_ok n m0 fl c' /\ chan_cfg c' = <[id := set_busy b ch]> (chan_cfg c) /\
    rx_enabled c' = rx_enabled c /\ tx_enabled c' = tx_enabled c.
Proof.
  intros [C1 C2 C3 C4 C8 C5 C6 C7] Hl. pose proof (lookup_lt_Some _ _ _ Hl) as Hlt. unfold hal_rmt_ipc_busy. rewrite Hl. cbn [mbind option_bind].
  unfold hal_sys_wake_lock, hal_sys_wake_unlock. destruct (Z.geb_spec user HAL_SYS_WAKE_LOCK_USER_QTY) as [|_]; [lia|]. cbn [snd].
  destruct (eqb (chan_busy ch) b) eqn:Eb.
  { apply eqb_prop in Eb. exists c. split; [done|]. split; [by split|]. split; [|done]. rewrite list_insert_id; [done|]. rewrite Hl. f_equal. rewrite <- Eb. by destruct ch. }
  set (l' := <[id := set_busy b ch]> (chan_cfg c)). assert (Hl' : l' !! id = Some (set_busy b ch)) by (by apply list_lookup_insert_eq).
  assert (Hlen : length l' = n) by (unfold l'; by rewrite length_insert). assert (Hfl : map need_flow_ctrl l' = fl) by (rewrite <- C8; by apply flow_insert with ch).
  assert (Hon : chan_busy ch = true -> busy_p c = true) by (intros E; rewrite C5; by eapply existsb_true).
  cbn [busy_p set_chan chan_cfg sys_wake_lock_map]. fold l'. destruct (eqb (busy_p c) b) eqn:Ep.
  - apply eqb_prop in Ep. eexists. split; [reflexivity|]. split; [|done]. split; cbn; try done. fold l'. destruct b; [by rewrite (existsb_true _ _ _ Hl' eq_refl)|].
    exfalso. destruct (chan_busy ch); [by rewrite Hon in Ep | done].
  - destruct b.
    + eexists. split; [reflexivity|]. split; [|done]. split; cbn; try done; fold l'.
      * by rewrite (existsb_true _ _ _ Hl' eq_refl).
      * rewrite lock_bits, Z.eqb_refl by lia. by rewrite orb_true_r.
      * intros u Hu Hne. rewrite lock_bits by lia. destruct (Z.eqb_spec u user); [done|]. rewrite orb_false_r. by apply C7.
    + destruct (existsb chan_busy l') eqn:Ex.
      * eexists. split; [reflexivity|]. split; [|done]. split; cbn; try done. fold l'. rewrite Ex. by destruct (busy_p c).
      * eexists. split; [reflexivity|]. split; [|done]. split; cbn; try done; fold l'.
        -- rewrite unlock_bits, Z.eqb_refl by lia. by rewrite andb_false_r.
        -- intros u Hu Hne. rewrite unlock_bits by lia. destruct (Z.eqb_spec u user); [done|]. rewrite andb_true_r. by apply C7.
Qed.
End Cores.
