(* ===== verification/RmtIpcRuns.v ===== *)
(** Runs of hal_rmt_ipc.c: the invariant of the two cores, and that every call and every interrupt
    keeps it. *)
From Stdlib Require Import ZArith Lia Bool.
From stdpp Require Import base option list.
From S2P Require Import Prelude RmtIpc RmtIpcLaws.

(** ** What a run has done in a direction *)
Definition accepted (s : side) (id : nat) (log : list out) : list (Z * Z) :=
  omap (fun o => match o with Accepted s' id' d n => if decide (s' = s /\ id' = id) then Some (d, n) else None | _ => None end) log.
Definition freed (s : side) (id : nat) (log : list out) : list (Z * Z) :=
  omap (fun o => match o with Freed s' id' d n => if decide (s' = s /\ id' = id) then Some (d, n) else None | _ => None end) log.

(** The bytes that the receiver, on the other side, took. *)
Definition took (s : side) (id : nat) (log : list out) : list Z :=
  bytes_taken (omap (fun o => match o with Handed s' id' d n p => if decide (s' = peer s /\ id' = id) then Some (d, n, p) else None | _ => None end) log).

Definition about (s : side) (id : nat) (o : out) : Prop :=
  match o with Accepted s' id' _ _ | Freed s' id' _ _ => s' = s /\ id' = id | Handed s' id' _ _ _ => s' = peer s /\ id' = id end.

Lemma bytes_taken_app l k : bytes_taken (l ++ k) = bytes_taken l ++ bytes_taken k.
Proof. unfold bytes_taken. by rewrite map_app, concat_app. Qed.

Lemma accepted_app s id l k : accepted s id (l ++ k) = accepted s id l ++ accepted s id k.
Proof. apply omap_app. Qed.
Lemma freed_app s id l k : freed s id (l ++ k) = freed s id l ++ freed s id k.
Proof. apply omap_app. Qed.
Lemma took_app s id l k : took s id (l ++ k) = took s id l ++ took s id k.
Proof. unfold took. by rewrite omap_app, bytes_taken_app. Qed.

(** Other directions do not see it. *)
Lemma about_other s0 id0 s id l : Forall (about s0 id0) l -> (s, id) <> (s0, id0) ->
  accepted s id l = [] /\ freed s id l = [] /\ took s id l = [].
Proof.
  intros Hl Hne. induction Hl as [|o l Ho Hl (IH1 & IH2 & IH3)]; [done|]. unfold accepted, freed, took in *. simpl.
  assert (Hd : ~ (s0 = s /\ id0 = id)) by (intros [<- <-]; done). assert (Hp : ~ (peer s0 = peer s /\ id0 = id)) by (intros [E <-]; apply Hd; split; [by destruct s0, s | done]).
  destruct o as [s' id' d n | s' id' d n p | s' id' d n]; destruct Ho as [-> ->]; cbn;
    rewrite ?(decide_False (P := s0 = s /\ id0 = id)), ?(decide_False (P := peer s0 = peer s /\ id0 = id)) by done; by split_and!.
Qed.

Lemma core_of_put {H} s c hs (w : world H) : core_of s (put_core s c hs w) = c.
Proof. by destruct s. Qed.
Lemma core_of_put_peer {H} s c hs (w : world H) : core_of (peer s) (put_core s c hs w) = core_of (peer s) w.
Proof. by destruct s. Qed.
Lemma mailboxes_put {H} s c hs (w : world H) : mailboxes (put_core s c hs w) = hs.
Proof. by destruct s. Qed.
Lemma put_same {H} s (w : world H) : put_core s (core_of s w) (mailboxes w) w = w.
Proof. by destruct s, w. Qed.
Lemma put_core_put {H} s c1 h1 c2 h2 (w : world H) : put_core s c2 h2 (put_core s c1 h1 w) = put_core s c2 h2 w.
Proof. by destruct s. Qed.

Section Runs.
Context {H : Type} {Cfg : RmtIpcCfg H} {Spec : RmtIpcCfgSpec H}.
Context (user : Z) (Huser : 0 <= user < HAL_SYS_WAKE_LOCK_USER_QTY).
Context (n : nat) (m0 : side -> Z) (fl : side -> list bool).

(** ** The invariant *)
(** Of every direction but one, for which another property may hold. *)
Definition dir_prop : Type := HAL_RMT_IPC_CH_CFG_T -> HAL_RMT_IPC_CH_CFG_T -> line -> list (Z * Z) -> list Z -> list (Z * Z) -> Prop.

Definition dir_at (P : dir_prop) (s : side) (id : nat) (w : world H) (log : list out) : Prop :=
  forall sc rc h, chan_cfg (core_of s w) !! id = Some sc -> chan_cfg (core_of (peer s) w) !! id = Some rc -> mailboxes w !! id = Some h ->
    P sc rc (dir s h) (accepted s id log) (took s id log) (freed s id log).

Record inv_but (G : side -> nat -> dir_state) (s0 : side) (id0 : nat) (Q : dir_prop) (w : world H) (log : list out) : Prop := {
  i_core : forall s, core_ok user n (m0 s) (fl s) (core_of s w);
  i_boxes : length (mailboxes w) = n;
  i_dir : forall s id, (s, id) <> (s0, id0) -> dir_at (dir_in (G s id)) s id w log;
  i_but : dir_at Q s0 id0 w log }.

(** Every direction in the state [G] gives it. *)
Definition inv (G : side -> nat -> dir_state) (w : world H) (log : list out) : Prop :=
  (forall s, core_ok user n (m0 s) (fl s) (core_of s w)) /\ length (mailboxes w) = n /\ forall s id, dir_at (dir_in (G s id)) s id w log.

Definition change (G : side -> nat -> dir_state) (s : side) (id : nat) (R : dir_state) : side -> nat -> dir_state :=
  fun s' id' => if decide ((s', id') = (s, id)) then R else G s' id'.

Lemma inv_to_but G s id w log : inv G w log -> inv_but G s id (dir_in (G s id)) w log.
Proof. intros (I1 & I2 & I3). by split. Qed.

Lemma but_to_inv G s id R w log : inv_but G s id (dir_in R) w log -> inv (change G s id R) w log.
Proof.
  intros [I1 I2 I3 I4]. split; [done|]. split; [done|]. intros s' id'. unfold change.
  destruct (decide ((s', id') = (s, id))) as [[= -> ->] | Hne]; [done | by apply I3].
Qed.

Lemma inv_weaken G G' w log : (forall s id a p l, G s id a p l -> G' s id a p l) -> inv G w log -> inv G' w log.
Proof.
  intros HG (I1 & I2 & I3). split; [done|]. split; [done|]. intros s id sc rc h H1 H2 H3.
  destruct (I3 s id sc rc h H1 H2 H3) as (a & p & rest & D & Hr). exists a, p, rest. split; [done | by apply HG].
Qed.

(** The channels after a change of one. *)
Lemma chan_after s id0 id t ch ch' c' hs (w : world H) x : chan_cfg (core_of s w) !! id0 = Some ch -> chan_cfg c' = <[id0 := ch']> (chan_cfg (core_of s w)) ->
  chan_cfg (core_of t (put_core s c' hs w)) !! id = Some x ->
  exists y, chan_cfg (core_of t w) !! id = Some y /\ (x = y \/ t = s /\ id = id0 /\ x = ch' /\ y = ch).
Proof.
  intros Hch Hcfg Hx. destruct (decide (t = s)) as [-> | Ht].
  - rewrite core_of_put, Hcfg in Hx. destruct (decide (id = id0)) as [-> | Hid].
    + rewrite list_lookup_insert_eq in Hx by (by apply lookup_lt_Some in Hch). injection Hx as <-. exists ch. split; [done|]. by right.
    + rewrite list_lookup_insert_ne in Hx by done. exists x. by auto.
  - replace t with (peer s) in * by (by destruct s, t). rewrite core_of_put_peer in Hx. exists x. by auto.
Qed.

(** A change of one channel of one side and of its mailbox, that concerns one direction. *)
Lemma inv_update G s0 id0 (Q Q' : dir_prop) w log s ch ch' h h' c' outs : inv_but G s0 id0 Q w log ->
  chan_cfg (core_of s w) !! id0 = Some ch -> mailboxes w !! id0 = Some h ->
  (s = s0 /\ recv_part ch' = recv_part ch \/ s = peer s0 /\ send_part ch' = send_part ch) ->
  core_ok user n (m0 s) (fl s) c' -> chan_cfg c' = <[id0 := ch']> (chan_cfg (core_of s w)) ->
  dir (peer s0) h' = dir (peer s0) h -> Forall (about s0 id0) outs ->
  (forall o, chan_cfg (core_of (peer s) w) !! id0 = Some o ->
     let sc b := if decide (s = s0) then b else o in let rc b := if decide (s = s0) then o else b in
     Q (sc ch) (rc ch) (dir s0 h) (accepted s0 id0 log) (took s0 id0 log) (freed s0 id0 log) ->
     Q' (sc ch') (rc ch') (dir s0 h') (accepted s0 id0 (log ++ outs)) (took s0 id0 (log ++ outs)) (freed s0 id0 (log ++ outs))) ->
  inv_but G s0 id0 Q' (put_core s c' (<[id0 := h']> (mailboxes w)) w) (log ++ outs).
Proof.
  intros [I1 I2 I3 I4] Hch Hh Hs Hc Hcfg Hdir Hout HQ.
  assert (Hlt : (id0 < length (chan_cfg (core_of s w)))%nat) by (by apply lookup_lt_Some in Hch).
  assert (Hlh : (id0 < length (mailboxes w))%nat) by (by apply lookup_lt_Some in Hh).
  split.
  - intros s'. destruct (decide (s' = s)) as [-> | Hne]; [by rewrite core_of_put|].
    replace s' with (peer s) by (by destruct s, s'). rewrite core_of_put_peer. apply I1.
  - by rewrite mailboxes_put, length_insert.
  - intros s' id' Hne sc rc hh H1 H2 H3. rewrite mailboxes_put in H3. destruct (about_other s0 id0 s' id' outs Hout Hne) as (A1 & A2 & A3).
    rewrite accepted_app, took_app, freed_app, A1, A2, A3, !app_nil_r.
    destruct (chan_after s id0 id' s' ch ch' c' _ w sc Hch Hcfg H1) as (sc0 & S1 & S2). destruct (chan_after s id0 id' (peer s') ch ch' c' _ w rc Hch Hcfg H2) as (rc0 & R1 & R2).
    assert (Hbox : exists h0, mailboxes w !! id' = Some h0 /\ dir s' hh = dir s' h0).
    { destruct (decide (id' = id0)) as [-> | Hid].
      - rewrite list_lookup_insert_eq in H3 by done. injection H3 as <-. exists h. split; [done|].
        replace s' with (peer s0); [done|]. destruct s', s0; done.
      - rewrite list_lookup_insert_ne in H3 by done. by exists hh. }
    destruct Hbox as (h0 & B1 & ->). apply (dir_in_ext _ sc0 _ rc0); [| |by apply I3].
    + destruct S2 as [-> | (-> & -> & -> & ->)]; [done|]. destruct Hs as [[-> _] | [_ E]]; [done | exact E].
    + destruct R2 as [-> | (E & -> & -> & ->)]; [done|]. destruct Hs as [[_ E'] | [-> _]]; [exact E'|]. destruct s', s0; done.
  - intros sc rc hh H1 H2 H3. rewrite mailboxes_put, list_lookup_insert_eq in H3 by done. injection H3 as <-.
    destruct Hs as [[-> _] | [-> _]].
    + rewrite core_of_put, Hcfg, list_lookup_insert_eq in H1 by done. injection H1 as <-. rewrite core_of_put_peer in H2.
      specialize (HQ rc H2). cbv beta zeta in HQ. rewrite !decide_True in HQ by done. apply HQ. by apply I4.
    + rewrite core_of_put, Hcfg, list_lookup_insert_eq in H2 by done. injection H2 as <-. rewrite <- (peer_peer s0), core_of_put_peer, peer_peer in H1 at 1.
      rewrite peer_peer in HQ. specialize (HQ sc H1). cbv beta zeta in HQ. rewrite !decide_False in HQ by (by destruct s0). apply HQ. by apply I4.
Qed.

(** Of the sending side, and of the receiving side. *)
Lemma inv_tx G s id (Q Q' : dir_prop) w log sc sc' h h' c' outs : inv_but G s id Q w log ->
  chan_cfg (core_of s w) !! id = Some sc -> mailboxes w !! id = Some h -> recv_part sc' = recv_part sc ->
  core_ok user n (m0 s) (fl s) c' -> chan_cfg c' = <[id := sc']> (chan_cfg (core_of s w)) ->
  dir (peer s) h' = dir (peer s) h -> Forall (about s id) outs ->
  (forall rc, Q sc rc (dir s h) (accepted s id log) (took s id log) (freed s id log) ->
     Q' sc' rc (dir s h') (accepted s id (log ++ outs)) (took s id (log ++ outs)) (freed s id (log ++ outs))) ->
  inv_but G s id Q' (put_core s c' (<[id := h']> (mailboxes w)) w) (log ++ outs).
Proof.
  intros Hi Hch Hh Hr Hc Hcfg Hd Ho HQ. eapply (inv_update G s id Q Q'); try eassumption; [by left|].
  intros o _. cbv beta zeta. rewrite !decide_True by done. apply HQ.
Qed.

Lemma inv_rx G s id (Q Q' : dir_prop) w log rc rc' h h' c' outs : inv_but G (peer s) id Q w log ->
  chan_cfg (core_of s w) !! id = Some rc -> mailboxes w !! id = Some h -> send_part rc' = send_part rc ->
  core_ok user n (m0 s) (fl s) c' -> chan_cfg c' = <[id := rc']> (chan_cfg (core_of s w)) ->
  dir s h' = dir s h -> Forall (about (peer s) id) outs ->
  (forall sc, chan_cfg (core_of (peer s) w) !! id = Some sc ->
     Q sc rc (dir (peer s) h) (accepted (peer s) id log) (took (peer s) id log) (freed (peer s) id log) ->
     Q' sc rc' (dir (peer s) h') (accepted (peer s) id (log ++ outs)) (took (peer s) id (log ++ outs)) (freed (peer s) id (log ++ outs))) ->
  inv_but G (peer s) id Q' (put_core s c' (<[id := h']> (mailboxes w)) w) (log ++ outs).
Proof.
  intros Hi Hch Hh Hr Hc Hcfg Hd Ho HQ. eapply (inv_update G (peer s) id Q Q'); try eassumption; [right; by rewrite peer_peer | by rewrite peer_peer|].
  intros o Hl. cbv beta zeta. rewrite !decide_False by (by destruct s). by apply HQ.
Qed.

Lemma alter_at (hs : list H) id h (f : H -> H) : hs !! id = Some h -> alter f id hs = <[id := f h]> hs.
Proof.
  intros Hh. apply list_eq. intros i. destruct (decide (i = id)) as [-> | Hne].
  - rewrite list_lookup_alter_eq, list_lookup_insert_eq, Hh; [done | by apply lookup_lt_Some in Hh].
  - by rewrite list_lookup_alter_ne, list_lookup_insert_ne.
Qed.

Lemma lookups G s id Q w log s0 id0 : inv_but G s0 id0 Q w log -> (id < n)%nat ->
  exists ch h, chan_cfg (core_of s w) !! id = Some ch /\ mailboxes w !! id = Some h.
Proof.
  intros [I1 I2 _ _] Hid. destruct (lookup_lt_is_Some_2 (chan_cfg (core_of s w)) id) as [ch Hch]; [by rewrite (c_chans _ _ _ _ _ (I1 s))|].
  destruct (lookup_lt_is_Some_2 (mailboxes w) id) as [h Hh]; [by rewrite I2|]. by exists ch, h.
Qed.

(** ** Sending *)
(** A property of a direction that a message sent keeps. *)
Definition sendable (Q : dir_prop) : Prop := forall sc rc l acc tk fr, Q sc rc l acc tk fr ->
  chan_opened sc = true /\ forall i d k, free_record (send_msgs sc) = Some i -> fits (d, k) ->
  exists told sc', link i (<[i := mkRec (mkMsg None k d) true]> (send_msgs sc)) sc = Some (told, sc') /\
    recv_part sc' = recv_part sc /\ chan_busy sc' = chan_busy sc /\
    Q (set_busy true sc') rc (if told : bool then mkLine true (completed l) (unmasked l) else l) (acc ++ [(d, k)]) tk fr.

Lemma sendable_dir : sendable (dir_in any).
Proof.
  intros sc rc l acc tk fr (a & p & rest & D & _). split; [exact (d_opened _ _ _ _ _ _ _ _ _ D)|]. intros i d k Hf Hfit.
  destruct D as [D1 D2 D3 D4 D5 D6 D7 D8]. pose proof (linked_nil _ _ _ (q_cur _ _ _ _ _ D1)) as Hnil.
  destruct (link_spec sc _ _ _ i d k D1 ltac:(intros E; apply Hnil in E; auto) Hf Hfit) as (sc' & Hl & Hr & Ho & Hb & Hq).
  exists (negb (bool_decide (send_msg_list_p sc <> None))), sc'. split; [done|]. split; [done|]. split; [done|].
  destruct (decide (send_msg_list_p sc = None)) as [E | E].
  - rewrite bool_decide_false in Hq |- * by (by intros []). cbn [negb]. apply Hnil in E as ->. rewrite (D2 eq_refl) in *. destruct Hq as (Hq & Hm).
    inversion D6; subst; try done. exists [i], [], [(d, k)]. split; [|done]. split; cbn; try done.
    + by rewrite Ho.
    + rewrite <- Hm. by apply Reading_announced.
    + by rewrite Hm, app_nil_r.
    + change (messages (send_msgs sc) []) with (@nil (Z * Z)) in D8. change (bytes []) with (@nil Z) in D8.
      rewrite !app_nil_r in D8. by rewrite Hm, bytes_app, D8.
  - rewrite bool_decide_true in Hq |- * by done. cbn [negb]. destruct Hq as (El & Hq & Ha & Hp).
    assert (Hne : a <> []) by (intros ->; by apply E, Hnil). assert (Hma : messages (send_msgs sc') a = messages (send_msgs sc) a) by (apply messages_frame; intros x Hx; by rewrite Ha).
    exists a, (p ++ [i]), rest. split; [|done]. split; cbn; try done; [by rewrite El | by rewrite bool_decide_false | by rewrite Ho | | |by rewrite Hma].
    + inversion D6; subst; try (constructor; done); [rewrite <- Hma; by constructor|].
      match goal with Hs : ?x `suffix_of` a |- _ => assert (Hx : forall y, y ∈ x -> send_msgs sc' !! y = send_msgs sc !! y)
        by (intros y Hy; apply Ha; destruct Hs as [b ->]; apply elem_of_app; by right);
        rewrite <- (messages_frame (send_msgs sc) (send_msgs sc') x) by (intros y Hy; by rewrite Hx) end.
      constructor; try done; [eapply linked_frame; [|eassumption]; intros y Hy; by rewrite Hx|]. rewrite Hma, (messages_frame (send_msgs sc)) by (intros y Hy; by rewrite Hx). done.
    + by rewrite messages_app, Hma, Hp, D7, messages_app, !app_assoc.
Qed.

(** While the completion handler walks, with the messages still to walk over. *)
Definition walk_at (B : list nat -> Prop) (cur : option nat) (a : list nat) (xs : list (Z * Z)) : dir_prop := fun sc rc l acc tk fr =>
  messages (send_msgs sc) a = xs /\ exists p, walking cur sc rc l acc tk fr a p /\ B p.

Definition grows (B : list nat -> Prop) : Prop := forall p i, B p -> B (p ++ [i]).

Lemma sendable_walk B cur a xs : grows B -> sendable (walk_at B cur a xs).
Proof.
  intros HB sc rc l acc tk fr (Hxs & p & [D1 D2 D3 D4 D5 D6 D7 D8 D9] & Hp). split; [exact D4|]. intros i d k Hf Hfit.
  destruct (link_spec sc _ _ _ i d k D1 ltac:(done) Hf Hfit) as (sc' & Hl & Hr & Ho & Hb & Hq).
  rewrite bool_decide_true in * by done. destruct Hq as (El & Hq & Ha & Hmp).
  assert (Hma : messages (send_msgs sc') a = messages (send_msgs sc) a) by (apply messages_frame; intros x Hx; by rewrite Ha).
  eexists _, sc'. split; [exact Hl|]. split; [done|]. split; [done|]. cbn [negb]. split; [by rewrite <- Hxs|].
  exists (p ++ [i]). split; [|by apply HB]. split; cbn; try done; [by rewrite El | by rewrite Ho | | by rewrite Hma].
  by rewrite messages_app, Hma, Hmp, D8, messages_app, !app_assoc.
Qed.

Lemma log_accepted s id d k log : accepted s id (log ++ [Accepted s id d k]) = accepted s id log ++ [(d, k)] /\
  took s id (log ++ [Accepted s id d k]) = took s id log /\ freed s id (log ++ [Accepted s id d k]) = freed s id log.
Proof.
  rewrite accepted_app, took_app, freed_app. unfold accepted, took, freed. simpl. rewrite decide_True by done. by rewrite !app_nil_r.
Qed.

(** A call of send: refused when every record is in use, otherwise kept. *)
Lemma send_keeps G (Q : dir_prop) s id d k w log : sendable Q -> inv_but G s id Q w log -> (id < n)%nat -> fits (d, k) ->
  exists r q c' hs', hal_rmt_ipc_send_seq user s id d k (core_of s w) (mailboxes w) = Some (r, q, c', hs') /\
    inv_but G s id Q (put_core s c' hs' w) (log ++ if r =? 0 then [Accepted s id d k] else []) /\
    forall sc, chan_cfg (core_of s w) !! id = Some sc ->
      match free_record (send_msgs sc) with
      | Some i => r = 0 /\ q = Some i /\ exists sc' x, chan_cfg c' !! id = Some sc' /\ send_msgs sc' !! i = Some x /\ in_use x = true
      | None => r = -1 /\ q = None /\ c' = core_of s w /\ hs' = mailboxes w
      end.
Proof.
  intros HQ Hi Hid Hfit. destruct (lookups _ s id _ _ _ _ _ Hi Hid) as (sc & h & Hsc & Hh).
  destruct (lookups _ (peer s) id _ _ _ _ _ Hi Hid) as (rc & _ & Hrc & _).
  destruct (HQ _ _ _ _ _ _ (i_but _ _ _ _ _ _ Hi sc rc h Hsc Hrc Hh)) as [Ho Hlink].
  unfold hal_rmt_ipc_send_seq. rewrite Hsc, Ho. cbn [negb]. destruct (free_record (send_msgs sc)) as [i|] eqn:Ef.
  - destruct (Hlink i d k eq_refl Hfit) as (told & sc' & El & Hr & Hb & _). rewrite El. cbn [mbind option_bind].
    pose proof (core_set user n (m0 s) (fl s) _ _ _ _ (i_core _ _ _ _ _ _ Hi s) Hsc Hb ltac:(by injection Hr)) as Hc1. pose proof (lookup_lt_Some _ _ _ Hsc) as Hlt.
    destruct (core_busy_spec user Huser n (m0 s) (fl s) _ id true sc' Hc1 ltac:(by apply list_lookup_insert_eq)) as (c' & -> & Hc' & Hcfg & _).
    cbn [mbind option_bind]. eexists _, _, _, _. split; [reflexivity|]. split.
    2: { intros x [= <-]. rewrite Ef. split; [done|]. split; [done|]. pose proof (free_record_spec (send_msgs sc)) as F. rewrite Ef in F. destruct F as (r & F & _).
         destruct (link_in_use i _ _ _ _ _ ltac:(by apply lookup_lt_Some in F) El) as (y & Hy & Hu). exists (set_busy true sc'), y.
         split; [|done]. cbn in Hcfg. rewrite Hcfg, list_insert_insert_eq. by apply list_lookup_insert_eq. }
    replace (if told then alter (peer_tx_irq_set s) id (mailboxes w) else mailboxes w) with (<[id := if told then peer_tx_irq_set s h else h]> (mailboxes w))
      by (destruct told; [by rewrite (alter_at _ _ _ _ Hh) | by apply list_insert_id]).
    eapply (inv_tx G s id Q Q _ _ sc (set_busy true sc')); try eassumption.
    + cbn in Hcfg. rewrite Hcfg. by rewrite list_insert_insert_eq.
    + destruct told; [apply peer_tx_irq_set_other | done].
    + by apply List.Forall_cons.
    + intros rc' Hq. destruct (HQ _ _ _ _ _ _ Hq) as [_ Hl']. destruct (Hl' i d k Ef Hfit) as (told' & sc2 & El' & _ & _ & Hq').
      rewrite El in El'. injection El' as <- <-. cbn [Z.eqb]. destruct (log_accepted s id d k log) as (-> & -> & ->).
      destruct told; [by rewrite peer_tx_irq_set_dir | exact Hq'].
  - eexists _, _, _, _. split; [reflexivity|]. change (-1 =? 0) with false. rewrite app_nil_r, put_same. split; [done|]. intros x [= <-]. by rewrite Ef.
Qed.

(** What the completion handler sends. *)
Lemma send_all_keeps G (Q : dir_prop) s id l : sendable Q \/ l = [] -> (id < n)%nat -> Forall fits l -> forall w log, inv_but G s id Q w log ->
  exists o c' hs', send_all user s id l (core_of s w) (mailboxes w) = Some (o, c', hs') /\ inv_but G s id Q (put_core s c' hs' w) (log ++ o).
Proof.
  intros HQ Hid Hl. induction Hl as [|[d k] l Hf Hl IH]; intros w log Hi.
  - exists [], (core_of s w), (mailboxes w). split; [done|]. by rewrite app_nil_r, put_same.
  - destruct HQ as [HQ|]; [|done]. destruct (send_keeps G Q s id d k w log HQ Hi Hid Hf) as (r & q & c1 & h1 & E & Hi1 & _).
    destruct (IH ltac:(by left) _ _ Hi1) as (o & c2 & h2 & E2 & Hi2). rewrite core_of_put, mailboxes_put in E2. rewrite put_core_put, <- app_assoc in Hi2.
    cbn [send_all]. unfold hal_rmt_ipc_send. rewrite E. cbn [mbind option_bind]. rewrite E2. cbn [mbind option_bind].
    eexists _, c2, h2. by split.
Qed.

(** ** Completions *)
(** A record given back: the list goes on from the next one. *)
Lemma queue_release ms cur pend i a p : queue ms cur pend (i :: a) p ->
  exists r ms', cur = Some i /\ ms !! i = Some r /\ release i ms = Some ms' /\ ms' !! i = Some (mkRec (msg r) false) /\
    queue ms' (next (msg r)) pend a p /\ (forall l, messages ms' l = messages ms l).
Proof.
  intros Hq. destruct (q_cur _ _ _ _ _ Hq) as [-> (r & Hr & Hl)]. pose proof (lookup_lt_Some _ _ _ Hr) as Hlt.
  exists r, (<[i := mkRec (msg r) false]> ms). split; [done|]. split; [done|]. split; [unfold release; by rewrite Hr|].
  assert (Hi : <[i:=mkRec (msg r) false]> ms !! i = Some (mkRec (msg r) false)) by (by apply list_lookup_insert_eq).
  assert (Hm : forall x, msg <$> (<[i := mkRec (msg r) false]> ms !! x) = msg <$> ms !! x).
  { intros x. destruct (decide (x = i)) as [-> |]; [by rewrite Hi, Hr | by rewrite list_lookup_insert_ne]. }
  assert (Hms : forall l, messages (<[i := mkRec (msg r) false]> ms) l = messages ms l) by (intros l; by apply messages_frame).
  split; [done|]. split; [|done]. pose proof (q_nodup _ _ _ _ _ Hq) as Hn. cbn in Hn. apply NoDup_cons in Hn as [Hni Hn]. split.
  - by apply (linked_frame ms).
  - apply (linked_frame ms); [done | apply Hq].
  - done.
  - intros x rx Hx. destruct (decide (x = i)) as [-> | Hne].
    + rewrite Hi in Hx. injection Hx as <-. by split.
    + rewrite list_lookup_insert_ne in Hx by done. rewrite (q_use _ _ _ _ _ Hq x rx Hx). cbn. rewrite elem_of_cons. tauto.
  - rewrite Hms. pose proof (q_fits _ _ _ _ _ Hq) as F. cbn in F. rewrite (messages_cons _ _ _ _ Hr) in F. by apply Forall_cons_1 in F as [_ F].
  - rewrite length_insert. apply Hq.
Qed.

Lemma log_freed s id d k log : accepted s id (log ++ [Freed s id d k]) = accepted s id log /\
  took s id (log ++ [Freed s id d k]) = took s id log /\ freed s id (log ++ [Freed s id d k]) = freed s id log ++ [(d, k)].
Proof.
  rewrite accepted_app, took_app, freed_app. unfold accepted, took, freed. simpl. rewrite decide_True by done. by rewrite !app_nil_r.
Qed.

(** One message given back, after its handler. *)
Lemma walk_release G B s id cur i a x xs w log sc h : inv_but G s id (walk_at B cur (i :: a) (x :: xs)) w log ->
  chan_cfg (core_of s w) !! id = Some sc -> mailboxes w !! id = Some h ->
  exists r ms, release i (send_msgs sc) = Some ms /\ ms !! i = Some r /\
    inv_but G s id (walk_at B (next (msg r)) a xs) (put_core s (set_chan id (set_msgs ms sc) (core_of s w)) (mailboxes w) w)
      (log ++ [Freed s id (fst x) (snd x)]).
Proof.
  intros Hi Hsc Hh. destruct (lookups _ (peer s) id _ _ _ _ _ Hi) as (rc & _ & Hrc & _).
  { rewrite <- (i_boxes _ _ _ _ _ _ Hi). by apply lookup_lt_Some in Hh. }
  destruct (i_but _ _ _ _ _ _ Hi sc rc h Hsc Hrc Hh) as (Hxs & p & W & _).
  destruct (queue_release _ _ _ _ _ _ (w_queue _ _ _ _ _ _ _ _ _ W)) as (r & ms & _ & Hr & Hrel & Hget & _ & _).
  exists (mkRec (msg r) false), ms. split; [done|]. split; [done|].
  rewrite <- (list_insert_id (mailboxes w) id h Hh).
  eapply (inv_tx G s id (walk_at B cur (i :: a) (x :: xs)) _ _ _ sc (set_msgs ms sc)); try eassumption; try done.
  - by apply (core_set _ _ _ _ _ _ sc); [apply Hi|..].
  - by apply List.Forall_cons.
  - intros rc' (Hxs' & p' & [D1 D2 D3 D4 D5 D6 D7 D8 D9] & HB). destruct (log_freed s id (fst x) (snd x) log) as (-> & -> & ->).
    destruct (queue_release _ _ _ _ _ _ D1) as (r' & ms' & _ & Hr' & Hrel' & Hget' & Hq & Hm).
    rewrite Hrel in Hrel'. injection Hrel' as <-. rewrite Hr in Hr'. injection Hr' as <-.
    rewrite (messages_cons _ _ _ _ Hr) in Hxs'. injection Hxs' as Hx Hxs'. rewrite <- (surjective_pairing x), <- Hx.
    split; [cbn; by rewrite Hm|]. exists p'. split; [|done]. split; cbn; try done; rewrite Hm, <- app_assoc; cbn [app]; rewrite <- (messages_cons _ _ _ _ Hr); done.
Qed.

Lemma tx_loop_keeps G B s id cb : (id < n)%nat -> (forall d k, Forall fits (cb d k) /\ (grows B \/ cb d k = [])) -> forall a xs fuel cur w log, (length a <= fuel)%nat ->
  inv_but G s id (walk_at B cur a xs) w log ->
  exists o c' hs', tx_loop user fuel s id cb cur (core_of s w) (mailboxes w) = Some (o, c', hs') /\
    inv_but G s id (walk_at B None [] []) (put_core s c' hs' w) (log ++ o).
Proof.
  intros Hid Hcb a. induction a as [|i a IH]; intros xs fuel cur w log Hf Hi;
    destruct (lookups _ s id _ _ _ _ _ Hi Hid) as (sc & h & Hsc & Hh); destruct (lookups _ (peer s) id _ _ _ _ _ Hi Hid) as (rc & _ & Hrc & _);
    destruct (i_but _ _ _ _ _ _ Hi sc rc h Hsc Hrc Hh) as (Hxs & p & W & _).
  - assert (cur = None) as -> by exact (q_cur _ _ _ _ _ (w_queue _ _ _ _ _ _ _ _ _ W)). assert (xs = []) as -> by (by rewrite <- Hxs).
    exists [], (core_of s w), (mailboxes w). split; [by destruct fuel|]. by rewrite app_nil_r, put_same.
  - destruct (queue_release _ _ _ _ _ _ (w_queue _ _ _ _ _ _ _ _ _ W)) as (r & ms & -> & Hr & _).
    rewrite (messages_cons _ _ _ _ Hr) in Hxs. subst xs. destruct fuel as [|fuel]; [cbn in Hf; lia|].
    cbn [tx_loop]. rewrite Hsc. cbn [mbind option_bind]. rewrite Hr. cbn [mbind option_bind].
    set (l := if tx_irq_handler sc then cb (data (msg r)) (len (msg r)) else []).
    assert (Hl : Forall fits l) by (unfold l; destruct (tx_irq_handler sc); [apply Hcb | constructor]).
    assert (HB : sendable (walk_at B (Some i) (i :: a) (message r :: messages (send_msgs sc) a)) \/ l = []).
    { destruct (Hcb (data (msg r)) (len (msg r))) as [_ [HB | E]]; [left; by apply sendable_walk | right; unfold l; by destruct (tx_irq_handler sc)]. }
    destruct (send_all_keeps G _ s id l HB Hid Hl w log Hi) as (o1 & c1 & h1 & -> & Hi1). cbn [mbind option_bind].
    destruct (lookups _ s id _ _ _ _ _ Hi1 Hid) as (sc1 & hh1 & Hsc1 & Hh1).
    destruct (walk_release G B s id _ i a _ _ _ _ sc1 hh1 Hi1 Hsc1 Hh1) as (r1 & ms1 & Hrel & Hr1 & Hi2).
    rewrite core_of_put in Hsc1. rewrite Hsc1. cbn [mbind option_bind]. rewrite Hrel. cbn [mbind option_bind]. rewrite Hr1. cbn [mbind option_bind].
    destruct (IH _ fuel _ _ _ ltac:(cbn in Hf; lia) Hi2) as (o2 & c2 & h2 & E2 & Hi3).
    rewrite !core_of_put, !mailboxes_put in E2. rewrite E2. cbn [mbind option_bind].
    eexists _, c2, h2. split; [reflexivity|]. rewrite !put_core_put in Hi3. by rewrite <- !app_assoc in Hi3.
Qed.

(** Before the walk: the completion taken, the list read. *)
Lemma walk_start G B s id w log sc h : inv G w log -> chan_cfg (core_of s w) !! id = Some sc -> mailboxes w !! id = Some h ->
  completed (dir s h) = true -> (forall a p, G s id a p (dir s h) -> consistent a p (dir s h) -> B p) ->
  exists a xs, (length a <= length (send_msgs sc))%nat /\
    inv_but G s id (walk_at B (send_msg_list_p sc) a xs) (put_core s (core_of s w) (<[id := local_tx_irq_clear s h]> (mailboxes w)) w) log.
Proof.
  intros Hi Hsc Hh Hdone HB. apply (inv_to_but G s id) in Hi. destruct (lookups _ (peer s) id _ _ _ _ _ Hi) as (rc & _ & Hrc & _).
  { rewrite <- (i_boxes _ _ _ _ _ _ Hi). by apply lookup_lt_Some in Hh. }
  destruct (i_but _ _ _ _ _ _ Hi sc rc h Hsc Hrc Hh) as (a & p & rest & D & _).
  exists a, (messages (send_msgs sc) a). split.
  { pose proof (queue_full _ _ _ _ _ (d_queue _ _ _ _ _ _ _ _ _ D)) as [_ Hlen]. rewrite length_app in Hlen. rewrite (q_len _ _ _ _ _ (d_queue _ _ _ _ _ _ _ _ _ D)). lia. }
  rewrite <- (app_nil_r log). eapply (inv_tx G s id _ _ _ _ sc sc); try eassumption; try done.
  - apply Hi.
  - by rewrite list_insert_id.
  - apply local_tx_irq_clear_other.
  - intros rc' (a' & p' & rest' & D' & HR). rewrite app_nil_r. pose proof (q_cur _ _ _ _ _ (d_queue _ _ _ _ _ _ _ _ _ D')) as Hc'.
    rewrite (linked_unique _ _ _ _ (q_cur _ _ _ _ _ (d_queue _ _ _ _ _ _ _ _ _ D)) Hc'). split; [done|]. exists p'. split; [|eapply HB; [done | by eapply direction_consistent]].
    destruct D' as [D1 D2 D3 D4 D5 D6 D7 D8]. rewrite local_tx_irq_clear_dir. inversion D6 as [ | | | | Hne Hhead E Er]; subst rest'; try (rewrite <- E in Hdone; discriminate Hdone);
      match goal with E : _ = dir s h |- _ => rewrite <- E in * end; try discriminate Hdone.
    split; cbn; try done; [by intros E'; apply Hne, (linked_nil _ _ _ Hc') | by rewrite D3, bool_decide_false | by rewrite <- D8, app_nil_r].
Qed.

(** After the walk: what waited becomes the list, or the channel is idle. *)
Lemma walk_end G B R s id w log : inv_but G s id (walk_at B None [] []) w log -> (id < n)%nat ->
  (forall q l, B q -> raised l = negb (bool_decide (q = [])) -> completed l = false -> unmasked l = true -> R q [] l) ->
  exists sc c' hs', chan_cfg (core_of s w) !! id = Some sc /\
    match send_pending_list_p sc with
    | Some q => Some (set_chan id (set_lists (Some q) None sc) (core_of s w), alter (peer_tx_irq_set s) id (mailboxes w))
    | None => c2 ← hal_rmt_ipc_busy user id false (set_chan id (set_lists None None sc) (core_of s w)); Some (c2, mailboxes w)
    end = Some (c', hs') /\ inv (change G s id R) (put_core s c' hs' w) log.
Proof.
  intros Hi Hid HR. destruct (lookups _ s id _ _ _ _ _ Hi Hid) as (sc & h & Hsc & Hh). pose proof (lookup_lt_Some _ _ _ Hsc) as Hlt. exists sc.
  assert (Hc : forall l p, core_ok user n (m0 s) (fl s) (set_chan id (set_lists l p sc) (core_of s w))) by (intros l p; apply (core_set _ _ _ _ _ _ sc); [apply Hi | done..]).
  destruct (send_pending_list_p sc) as [q|] eqn:Ep.
  - eexists _, _. split; [done|]. split; [reflexivity|]. apply but_to_inv. rewrite (alter_at _ _ _ _ Hh), <- (app_nil_r log).
    eapply (inv_tx G s id _ _ _ _ sc (set_lists (Some q) None sc)); try eassumption; try done; [apply peer_tx_irq_set_other|].
    intros rc (_ & p & [D1 D2 D3 D4 D5 D6 D7 D8 D9] & Hp). destruct D1 as [Q1 Q2 Q3 Q4 Q5 Q6]. rewrite app_nil_r, peer_tx_irq_set_dir, D6.
    change (messages (send_msgs sc) []) with (@nil (Z * Z)) in D9. rewrite app_nil_r in D9.
    assert (Hne : p <> []) by (intros ->; cbn in Q2; congruence). exists p, [], (messages (send_msgs sc) p). split; [|apply HR; [done | by rewrite bool_decide_false | done | done]].
    split; cbn; try done; [| by rewrite bool_decide_false | by apply Reading_announced | by rewrite app_nil_r | by rewrite D9, bytes_app].
    split; rewrite ?app_nil_r; try done. by rewrite <- Ep.
  - destruct (core_busy_spec user Huser n (m0 s) (fl s) _ id false _ (Hc None None) ltac:(by apply list_lookup_insert_eq)) as (c' & -> & Hc' & Hcfg & _).
    cbn [mbind option_bind]. eexists _, _. split; [done|]. split; [reflexivity|]. apply but_to_inv. rewrite <- (list_insert_id _ _ _ Hh), <- (app_nil_r log).
    eapply (inv_tx G s id _ _ _ _ sc (set_busy false (set_lists None None sc))); try eassumption; try done; [cbn in Hcfg; by rewrite Hcfg, list_insert_insert_eq|].
    intros rc (_ & p & [D1 D2 D3 D4 D5 D6 D7 D8 D9] & Hp). destruct D1 as [Q1 Q2 Q3 Q4 Q5 Q6]. rewrite app_nil_r, D6.
    assert (p = []) as -> by (by apply (linked_nil _ _ _ Q2)). exists [], [], []. split; [|by apply HR].
    split; cbn; try done; [by constructor | by rewrite D9, app_nil_r].
Qed.

(** The completion handler, on a channel: the list that was read is given back and what waited becomes
    the list. [R] holds after it, whether or not there was a completion. *)
Lemma tx_by_id_keeps G B (R : dir_state) s id cb w log : inv G w log -> (id < n)%nat ->
  (forall d k, Forall fits (cb d k) /\ (grows B \/ cb d k = [])) ->
  (forall a p l, G s id a p l -> consistent a p l -> if completed l then B p else R a p l) ->
  (forall q l, B q -> raised l = negb (bool_decide (q = [])) -> completed l = false -> unmasked l = true -> R q [] l) ->
  exists o c' hs', hal_rmt_ipc_tx_irq_handler_by_id user s id cb (core_of s w) (mailboxes w) = Some (o, c', hs') /\
    inv (change G s id R) (put_core s c' hs' w) (log ++ o).
Proof.
  intros Hi Hid Hcb HG HR. pose proof (inv_to_but G s id _ _ Hi) as Hb. destruct (lookups _ s id _ _ _ _ _ Hb Hid) as (sc & h & Hsc & Hh).
  unfold hal_rmt_ipc_tx_irq_handler_by_id. rewrite Hsc, Hh, (c_tx _ _ _ _ _ (i_core _ _ _ _ _ _ Hb s)), lookup_replicate_2 by done.
  rewrite irq_active_done. cbn [andb]. destruct (completed (dir s h)) eqn:Ec; cbn [negb].
  - destruct (walk_start G B s id w log sc h Hi Hsc Hh Ec) as (a & xs & Hlen & Hw); [intros a p Ha Hco; specialize (HG a p _ Ha Hco); by rewrite Ec in HG|].
    destruct (tx_loop_keeps G B s id cb Hid Hcb a xs (S (length (send_msgs sc))) _ _ _ ltac:(lia) Hw) as (o & c1 & h1 & E1 & Hi1).
    rewrite core_of_put, mailboxes_put in E1. rewrite E1. cbn [mbind option_bind]. rewrite put_core_put in Hi1.
    destruct (walk_end G B R s id _ _ Hi1 Hid HR) as (sc1 & c2 & h2 & Hsc1 & E2 & Hi2). rewrite core_of_put, mailboxes_put in *. rewrite Hsc1. cbn [mbind option_bind].
    rewrite put_core_put in Hi2. exists o, c2, h2. split; [|done]. destruct (send_pending_list_p sc1); [by injection E2 as -> ->|].
    destruct (hal_rmt_ipc_busy _ _ _ _); [|done]. by injection E2 as -> ->.
  - exists [], (core_of s w), (mailboxes w). split; [done|]. rewrite app_nil_r, put_same. apply but_to_inv. destruct Hb as [I1 I2 I3 I4]. split; [done..|].
    intros sc' rc' h' K1 K2 K3. destruct (I4 sc' rc' h' K1 K2 K3) as (a & p & rest & D & Ha). exists a, p, rest. split; [done|].
    rewrite Hh in K3. injection K3 as <-. specialize (HG a p _ Ha (direction_consistent _ _ _ _ _ _ _ _ _ D)). by rewrite Ec in HG.
Qed.

(** ** Receiving *)
(** The bytes an interrupt of the receiver [s] hands over. *)
Lemma log_handed s id l log : accepted (peer s) id (log ++ map (handed s id) l) = accepted (peer s) id log /\
  took (peer s) id (log ++ map (handed s id) l) = took (peer s) id log ++ bytes_taken l /\
  freed (peer s) id (log ++ map (handed s id) l) = freed (peer s) id log.
Proof.
  rewrite accepted_app, took_app, freed_app.
  assert (E : accepted (peer s) id (map (handed s id) l) = [] /\ freed (peer s) id (map (handed s id) l) = [] /\
    took (peer s) id (map (handed s id) l) = bytes_taken l).
  { induction l as [|[[d k] q] l (IH1 & IH2 & IH3)]; [done|]. unfold accepted, freed, took in *. simpl. rewrite peer_peer, decide_True by done.
    split_and!; [exact IH1 | exact IH2|]. rewrite peer_peer in IH3. unfold bytes_taken in *. simpl. f_equal. exact IH3. }
  destruct E as (-> & -> & ->). by rewrite !app_nil_r.
Qed.

(** Where reading starts, and what is then left to take. *)
Lemma rx_start_spec id pc sc rc l acc tk fr a p rest : local_cfg_p pc = true -> chan_cfg pc !! id = Some sc ->
  direction sc rc l acc tk fr a p rest -> raised l = true -> unmasked l = true ->
  exists m rc1 k, rx_start id pc rc = Some (Some m, rc1) /\ rc1 = set_recv (recv_msg_list_pp rc1) (recv_pending_head rc) rc /\
    a <> [] /\ k `suffix_of` a /\ linked (send_msgs sc) (next m) k /\ fits (data m, len m) /\ rest = (data m, len m) :: messages (send_msgs sc) k /\
    (length (bytes rest) <= length (bytes (messages (send_msgs sc) a)))%nat.
Proof.
  intros Hp Hsc [D1 D2 D3 D4 D5 D6 D7 D8] Hr Hu. unfold rx_start. inversion D6 as [ | Hne Hd E1 E2 | k u Hne Hs Hl Hf Hb E1 E2 | |]; subst l rest; try discriminate.
  - rewrite Hd, Hp, orb_true_r, Hsc. cbn [Z.eqb negb mbind option_bind]. destruct a as [|i a]; [done|].
    destruct (q_cur _ _ _ _ _ D1) as [-> (r & Hi & Hl)]. rewrite Hi. cbn [mbind option_bind]. eexists (msg r), _, a.
    split; [reflexivity|]. split; [done|]. split; [done|]. split; [by apply suffix_cons_r|]. split; [done|].
    rewrite (messages_cons _ _ _ _ Hi). pose proof (q_fits _ _ _ _ _ D1) as F. cbn in F. rewrite (messages_cons _ _ _ _ Hi) in F.
    split; [by apply Forall_cons_1 in F as [F _] | by split].
  - destruct Hf as (Hf1 & Hf2). cbn in Hf1. destruct (Z.eqb_spec (data (recv_pending_head rc)) 0); [lia|]. cbn [negb].
    eexists _, rc, k. split; [reflexivity|]. split; [by destruct rc|]. by split_and!.
Qed.

(** The focused direction, as it stands. *)
Definition exactly (sc rc : HAL_RMT_IPC_CH_CFG_T) (l : line) (acc : list (Z * Z)) (tk : list Z) (fr : list (Z * Z)) : dir_prop :=
  fun sc' rc' l' acc' tk' fr' => sc' = sc /\ rc' = rc /\ l' = l /\ acc' = acc /\ tk' = tk /\ fr' = fr.

Lemma inv_exactly G s id Q w log sc rc h : inv_but G s id Q w log ->
  chan_cfg (core_of s w) !! id = Some sc -> chan_cfg (core_of (peer s) w) !! id = Some rc -> mailboxes w !! id = Some h ->
  inv_but G s id (exactly sc rc (dir s h) (accepted s id log) (took s id log) (freed s id log)) w log.
Proof.
  intros [I1 I2 I3 I4] Hsc Hrc Hh. split; [done..|]. intros sc' rc' h' K1 K2 K3. unfold exactly. simplify_eq. done.
Qed.

(** The focused direction changes its state, nothing else. *)
Lemma dirs_same G s id Q R w log : inv_but G s id Q w log ->
  (forall sc rc l acc tk fr, Q sc rc l acc tk fr -> dir_in R sc rc l acc tk fr) -> inv (change G s id R) w log.
Proof.
  intros [I1 I2 I3 I4] HQ. apply but_to_inv. split; [done..|]. intros sc rc h K1 K2 K3. apply HQ. by apply I4.
Qed.

(** What the receiver's interrupt leaves of a direction whose list it has read from [m] on. *)
Lemma read_direction sc rc rc' l acc tk fr a p k m calls rest l2 :
  direction sc rc l acc tk fr a p ((data m, len m) :: messages (send_msgs sc) k) -> a <> [] -> k `suffix_of` a -> l2 `suffix_of` k ->
  (length (bytes ((data m, len m) :: messages (send_msgs sc) k)) <= length (bytes (messages (send_msgs sc) a)))%nat ->
  rx_irq_handler rc' = rx_irq_handler rc -> need_flow_ctrl rc' = need_flow_ctrl rc ->
  bytes_taken calls ++ bytes (left_after (send_msgs sc) rest l2) = bytes ((data m, len m) :: messages (send_msgs sc) k) ->
  (match rest with
   | None => data (recv_pending_head rc') = 0
   | Some m' => recv_pending_head rc' = m' /\ linked (send_msgs sc) (next m') l2 /\ fits (data m', len m')
   end) ->
  forall l', l' = match rest with None => if need_flow_ctrl rc then mkLine true false false else mkLine false true true | Some _ => mkLine true false false end ->
  direction sc rc' l' acc (tk ++ bytes_taken calls) fr a p (left_after (send_msgs sc) rest l2).
Proof.
  intros [D1 D2 D3 D4 D5 D6 D7 D8] Hne Hk Hl2 Hlb Hh Hflow Hb Hrest l' ->. split; try done.
  - by rewrite Hh.
  - rewrite Hflow. destruct rest as [m'|]; cbn [left_after].
    + destruct Hrest as (-> & Hlink & Hfit). constructor; try done; [by etrans|]. apply (f_equal length) in Hb. rewrite length_app in Hb. cbn [left_after] in Hb. lia.
    + destruct (need_flow_ctrl rc) eqn:E; by constructor.
  - by rewrite <- app_assoc, Hb.
Qed.

(** The receiver's interrupt on a channel; [R] holds after it, whether or not there was something. *)
Lemma rx_irq_keeps G (R : dir_state) s id h w log en : inv G w log -> (id < n)%nat -> rx_enabled (core_of s w) !! id = Some en ->
  (forall a p l, G (peer s) id a p l -> if en && (raised l && unmasked l)
     then R a p (mkLine false true true) /\ (takes_all h /\ fl s !! id = Some false \/ R a p (mkLine true false false)) else R a p l) ->
  exists o c' hs', rx_irq s id h (core_of (peer s) w) (core_of s w) (mailboxes w) = Some (o, c', hs') /\
    inv (change G (peer s) id R) (put_core s c' hs' w) (log ++ o) /\ rx_enabled c' = rx_enabled (core_of s w).
Proof.
  intros Hi Hid Hen HR. pose proof (inv_to_but G (peer s) id _ _ Hi) as Hb.
  destruct (lookups _ s id _ _ _ _ _ Hb Hid) as (rc & hh & Hrc & Hh). destruct (lookups _ (peer s) id _ _ _ _ _ Hb Hid) as (sc & _ & Hsc & _).
  assert (Hrc' : chan_cfg (core_of (peer (peer s)) w) !! id = Some rc) by (by rewrite peer_peer).
  destruct (i_but _ _ _ _ _ _ Hb sc rc hh Hsc Hrc' Hh) as (a & p & rest & D & HG). specialize (HR a p _ HG).
  unfold rx_irq. rewrite Hrc, Hen, Hh, Hsc, irq_active_send. destruct (en && (raised (dir (peer s) hh) && unmasked (dir (peer s) hh))) eqn:Ea; cbn [negb].
  2: { exists [], (core_of s w), (mailboxes w). split; [done|]. rewrite app_nil_r, put_same. split; [|done].
       apply (dirs_same _ _ _ _ _ _ _ (inv_exactly _ _ _ _ _ _ _ _ _ Hb Hsc Hrc' Hh)). intros ? ? ? ? ? ? (-> & -> & -> & -> & -> & ->). by exists a, p, rest. }
  apply andb_true_iff in Ea as [_ Ea]. apply andb_true_iff in Ea as [Er Eu]. destruct HR as [HR1 HR2].
  destruct (rx_start_spec id _ sc rc _ _ _ _ _ _ _ (c_cfg _ _ _ _ _ (i_core _ _ _ _ _ _ Hb (peer s))) Hsc D Er Eu) as (m & rc1 & k & -> & Erc & Hne & Hk & Hl & Hfm & Hrest & Hlb).
  pose proof (d_queue _ _ _ _ _ _ _ _ _ D) as Hq. pose proof (queue_full _ _ _ _ _ Hq) as [_ Hlen]. rewrite length_app in Hlen.
  assert (Hfk : Forall fits (messages (send_msgs sc) k)).
  { pose proof (q_fits _ _ _ _ _ Hq) as F. destruct Hk as [b Eb]. rewrite Eb, !messages_app in F. apply Forall_app in F as [F _]. by apply Forall_app in F as [_ F]. }
  assert (Hlk : (length k < S (S (length (send_msgs sc))))%nat).
  { rewrite (q_len _ _ _ _ _ Hq). apply suffix_length in Hk. lia. }
  destruct (rx_loop_spec (send_msgs sc) h k _ 0 m Hl Hlk Hfm Hfk) as (calls & res & l2 & Hloop & Hl2 & Hbytes & Hres).
  cbn [mbind option_bind]. unfold rx_read. rewrite (d_handler _ _ _ _ _ _ _ _ _ D), Hloop. cbn [mbind option_bind].
  assert (Hflow : fl s !! id = Some (need_flow_ctrl rc)) by (rewrite <- (c_flow _ _ _ _ _ (i_core _ _ _ _ _ _ Hb s)); change (map need_flow_ctrl) with (fmap (M := list) need_flow_ctrl); by rewrite list_lookup_fmap, Hrc).
  set (rc2 := set_recv (recv_msg_list_pp rc1) (match res with Some m' => m' | None => mkMsg (next (recv_pending_head rc1)) (len (recv_pending_head rc1)) 0 end) rc1).
  set (h2 := match res with Some _ => rx_irq_suspend s hh | None => if need_flow_ctrl rc then rx_irq_suspend s hh else rx_done s (rx_irq_suspend s hh) end).
  exists (map (handed s id) calls), (set_chan id rc2 (core_of s w)), (<[id := h2]> (mailboxes w)).
  split; [unfold rc2, h2; by destruct res|]. split; [|done].
  assert (E2 : send_part rc2 = send_part rc /\ rx_irq_handler rc2 = rx_irq_handler rc /\ need_flow_ctrl rc2 = need_flow_ctrl rc /\ chan_busy rc2 = chan_busy rc)
    by (unfold rc2; rewrite Erc; done).
  destruct E2 as (E2 & E3 & E4 & E5). apply but_to_inv.
  eapply (inv_rx G s id _ _ _ _ rc rc2 hh h2); [exact (inv_exactly _ _ _ _ _ _ _ _ _ Hb Hsc Hrc' Hh) | done | done | done | by apply (core_set _ _ _ _ _ _ rc); [apply Hb|..] | done | | |].
  - unfold h2. destruct res; [by rewrite rx_irq_suspend_other|]. destruct (need_flow_ctrl rc); rewrite ?rx_done_other, rx_irq_suspend_other; done.
  - apply List.Forall_forall. intros o Ho. apply in_map_iff in Ho as ([[d x] q] & <- & _). cbn. by rewrite peer_peer.
  - intros sc' _ (-> & _). destruct (log_handed s id calls log) as (-> & -> & ->).
    assert (Hdir : dir (peer s) h2 = match res with None => if need_flow_ctrl rc then mkLine true false false else mkLine false true true | Some _ => mkLine true false false end).
    { pose proof (rx_irq_suspend_dir s hh) as Ed. rewrite Er in Ed.
      assert (Ec : completed (dir (peer s) hh) = false) by (destruct D as [_ _ _ _ _ D6 _ _]; inversion D6 as [? ? E | ? ? E | ? ? ? ? ? ? ? E | ? ? ? E | ? ? E]; rewrite <- E in Er; try done; by rewrite <- E).
      rewrite Ec in Ed. unfold h2. destruct res; [done|]. destruct (need_flow_ctrl rc); [done|]. apply rx_done_dir. by rewrite Ed. }
    rewrite Hrest in D, Hlb. exists a, p, (left_after (send_msgs sc) res l2). split.
    + eapply (read_direction _ _ rc2); try eassumption. unfold rc2. destruct res as [m'|]; [|done]. split; [done|]. by destruct Hres as (? & ? & _).
    + rewrite Hdir. destruct res as [m'|].
      * destruct HR2 as [[Ht _] | HR2]; [|done]. by destruct Hres as (_ & _ & []).
      * destruct (need_flow_ctrl rc); [|done]. by destruct HR2 as [[_ E] | HR2]; [rewrite Hflow in E|].
Qed.

(** ** The other calls *)
Lemma dirs_core G s c w log : inv G w log -> core_ok user n (m0 s) (fl s) c -> chan_cfg c = chan_cfg (core_of s w) ->
  inv G (put_core s c (mailboxes w) w) log.
Proof.
  intros (I1 & I2 & I3) Hc Hcfg. assert (E : forall t, chan_cfg (core_of t (put_core s c (mailboxes w) w)) = chan_cfg (core_of t w)).
  { intros t. destruct (decide (t = s)) as [-> |]; [by rewrite core_of_put|]. replace t with (peer s) by (by destruct s, t). by rewrite core_of_put_peer. }
  split; [|rewrite mailboxes_put; split; [done|]].
  - intros t. destruct (decide (t = s)) as [-> |]; [by rewrite core_of_put|]. replace t with (peer s) by (by destruct s, t). rewrite core_of_put_peer. apply I1.
  - intros t id sc rc h. rewrite !E, mailboxes_put. apply I3.
Qed.

(** Reception started: without flow control, an indication raised gets through. *)
Definition let_through (s : side) (id : nat) : dir_state := fun _ _ l => fl s !! id = Some false -> raised l = true -> unmasked l = true.

Lemma start_keeps G s id w log : inv G w log -> (id < n)%nat ->
  exists c' hs', hal_rmt_ipc_start_recv s id (core_of s w) (mailboxes w) = (0, c', hs') /\
    inv (change G (peer s) id (let_through s id)) (put_core s c' hs' w) log /\ rx_enabled c' = <[id := true]> (rx_enabled (core_of s w)).
Proof.
  intros Hi Hid. pose proof (inv_to_but G (peer s) id _ _ Hi) as Hb.
  destruct (lookups _ s id _ _ _ _ _ Hb Hid) as (rc & h & Hrc & Hh). pose proof (i_core _ _ _ _ _ _ Hb s) as Hc. unfold hal_rmt_ipc_start_recv. rewrite Hrc.
  set (c' := set_nvic (<[id := true]> (rx_enabled (core_of s w))) (tx_enabled (core_of s w)) (core_of s w)).
  assert (Hflow : fl s !! id = Some (need_flow_ctrl rc)) by (rewrite <- (c_flow _ _ _ _ _ Hc); change (map need_flow_ctrl) with (fmap (M := list) need_flow_ctrl); by rewrite list_lookup_fmap, Hrc).
  set (h' := if negb (data (recv_pending_head rc) =? 0) then rx_irq_resume s h else h). exists c', (<[id := h']> (mailboxes w)).
  split; [unfold h'; destruct (negb _); [by rewrite (alter_at _ _ _ _ Hh) | by rewrite list_insert_id]|]. split; [|done].
  apply but_to_inv. rewrite <- (app_nil_r log). eapply (inv_rx G s id _ _ _ _ rc rc h h'); try eassumption; try done.
  - apply core_enable; [done|]. rewrite length_insert. apply Hc.
  - by rewrite list_insert_id.
  - unfold h'. destruct (negb _); [apply rx_irq_resume_other | done].
  - intros sc _ (a & p & rest & [D1 D2 D3 D4 D5 D6 D7 D8] & _). rewrite app_nil_r. exists a, p, rest.
    subst h'. destruct (Z.eqb_spec (data (recv_pending_head rc)) 0) as [Hd | Hd]; cbn [negb].
    + split; [by split|]. intros Hfl Hr. rewrite Hfl in Hflow. injection Hflow as Hflow.
      inversion D6 as [? ? E | ? ? E | ? ? ? ? ? Hf ? E | ? ? ? E | ? ? E]; rewrite <- E in Hr; try done; [destruct Hf as [Hf _]; cbn in Hf; lia | congruence].
    + rewrite rx_irq_resume_dir. split; [|by cbn]. split; try done.
      inversion D6 as [? ? E | ? ? E | ? ? ? ? ? Hf ? E | ? ? ? E | ? ? E]; try done. cbn. by constructor.
Qed.

(** All the bytes taken from a list under flow control, which is not yet given back. *)
Definition batch_read (s : side) (id : nat) (w : world H) : Prop :=
  forall rc h, chan_cfg (core_of s w) !! id = Some rc -> mailboxes w !! id = Some h ->
    data (recv_pending_head rc) = 0 /\ raised (dir (peer s) h) = true /\ unmasked (dir (peer s) h) = false.

Lemma done_keeps G s id w log : inv G w log -> batch_read s id w ->
  inv (change G (peer s) id any) (put_core s (core_of s w) (snd (hal_rmt_ipc_rx_done s id (core_of s w) (mailboxes w))) w) log.
Proof.
  intros Hi Hb. unfold hal_rmt_ipc_rx_done. pose proof (inv_to_but G (peer s) id _ _ Hi) as Hbut. pose proof (i_core _ _ _ _ _ _ Hbut s) as Hc.
  rewrite (c_chans _ _ _ _ _ Hc). destruct (Nat.leb_spec n id) as [Hge | Hid]; cbn [snd].
  { rewrite put_same. by apply (dirs_same _ _ _ _ _ _ _ Hbut); intros ? ? ? ? ? ? (a & p & rest & D & _); exists a, p, rest. }
  destruct (lookups _ s id _ _ _ _ _ Hbut Hid) as (rc & h & Hrc & Hh). destruct (Hb rc h Hrc Hh) as (Hd & Hr & Hu).
  rewrite (alter_at _ _ _ _ Hh). apply but_to_inv. rewrite <- (app_nil_r log). eapply (inv_rx G s id _ _ _ _ rc rc h); try eassumption; try done.
  - by rewrite list_insert_id.
  - apply rx_done_other.
  - intros sc _ (a & p & rest & [D1 D2 D3 D4 D5 D6 D7 D8] & _). rewrite app_nil_r, rx_done_dir by done.
    inversion D6 as [? ? E | ? ? E | ? ? ? ? ? Hf ? E | Hne ? ? E E' | ? ? E]; rewrite <- E in Hr, Hu; try done; [destruct Hf as [Hf _]; cbn in Hf; lia|].
    exists a, p, []. split; [|done]. rewrite <- E' in D8. split; try done. by constructor.
Qed.

(** ** The interrupts over all channels *)
Lemma over_keeps s f (J : nat -> world H -> list out -> Prop) :
  (forall i w log, (i < n)%nat -> J i w log -> exists o c' hs', f i (core_of s w) (mailboxes w) = Some (o, c', hs') /\ J (S i) (put_core s c' hs' w) (log ++ o)) ->
  forall k i w log, (i + k = n)%nat -> J i w log ->
  exists o c' hs', over_channels f k i (core_of s w) (mailboxes w) = Some (o, c', hs') /\ J n (put_core s c' hs' w) (log ++ o).
Proof.
  intros Hf k. induction k as [|k IH]; intros i w log Hk HJ; cbn [over_channels].
  - exists [], (core_of s w), (mailboxes w). split; [done|]. rewrite app_nil_r, put_same. by replace n with i by lia.
  - destruct (Hf i w log ltac:(lia) HJ) as (o1 & c1 & h1 & -> & HJ1). cbn [mbind option_bind].
    destruct (IH (S i) _ _ ltac:(lia) HJ1) as (o2 & c2 & h2 & E2 & HJ2). rewrite core_of_put, mailboxes_put in E2. rewrite E2. cbn [mbind option_bind].
    eexists _, c2, h2. split; [reflexivity|]. by rewrite put_core_put, <- app_assoc in HJ2.
Qed.

Definition inv_any : world H -> list out -> Prop := inv (fun _ _ => any).

Lemma inv_forget G w log : inv G w log -> inv_any w log.
Proof. by apply inv_weaken. Qed.

(** What the events of a run keep to: messages in memory, and a batch under flow control given back when
    it has been read. *)
Definition event_ok (e : ipc_event) (w : world H) : Prop :=
  match e with
  | Send _ _ d k => fits (d, k)
  | TxIrq _ cb => forall id d k, Forall fits (cb id d k)
  | TxRun _ _ cb => forall d k, Forall fits (cb d k)
  | RxDone s id => batch_read s id w
  | RxIrq _ _ | StartRecv _ _ | StopRecv _ _ => True
  end.

Lemma tx_any s id cb w log : (forall d k, Forall fits (cb d k)) -> inv_any w log -> (id < n)%nat ->
  exists o c' hs', hal_rmt_ipc_tx_irq_handler_by_id user s id cb (core_of s w) (mailboxes w) = Some (o, c', hs') /\ inv_any (put_core s c' hs' w) (log ++ o).
Proof.
  intros Hcb Hi Hid. destruct (tx_by_id_keeps (fun _ _ => any) (fun _ => True) any s id cb w log Hi Hid) as (o & c' & hs' & E & Hi').
  - intros d k. split; [apply Hcb | by left].
  - intros a p l _ _. by destruct (completed l).
  - done.
  - exists o, c', hs'. split; [done | by eapply inv_forget].
Qed.

Lemma rx_all s h w log : inv_any w log ->
  exists o c' hs', hal_rmt_ipc_rx_irq_handler s h (core_of (peer s) w) (core_of s w) (mailboxes w) = Some (o, c', hs') /\ inv_any (put_core s c' hs' w) (log ++ o).
Proof.
  intros Hi. unfold hal_rmt_ipc_rx_irq_handler. rewrite (c_chans _ _ _ _ _ (proj1 Hi s)).
  destruct (over_keeps s (fun id => rx_irq s id (h id) (core_of (peer s) w)) (fun _ w' log' => inv_any w' log' /\ core_of (peer s) w' = core_of (peer s) w))
    with (k := n) (i := 0%nat) (w := w) (log := log) as (o & c' & hs' & E & Hi' & _); [|done|done|by exists o, c', hs'].
  intros i w' log' Hlt (Hi' & Hp). destruct (lookup_lt_is_Some_2 (rx_enabled (core_of s w')) i) as [en Hen]; [by rewrite (c_rx _ _ _ _ _ (proj1 Hi' s))|].
  destruct (rx_irq_keeps (fun _ _ => any) any s i (h i) w' log' en Hi' Hlt Hen) as (o & c' & hs' & E & Hi2 & _).
  { intros a p l _. destruct (en && _); [|done]. by split; [|right]. }
  rewrite Hp in E. exists o, c', hs'. split; [done|]. split; [by eapply inv_forget | by rewrite core_of_put_peer].
Qed.

Lemma tx_all s cb w log : (forall id d k, Forall fits (cb id d k)) -> inv_any w log ->
  exists o c' hs', hal_rmt_ipc_tx_irq_handler user s cb (core_of s w) (mailboxes w) = Some (o, c', hs') /\ inv_any (put_core s c' hs' w) (log ++ o).
Proof.
  intros Hcb Hi. unfold hal_rmt_ipc_tx_irq_handler. rewrite (c_chans _ _ _ _ _ (proj1 Hi s)).
  apply (over_keeps s _ (fun _ => inv_any)); [|done|done]. intros i w' log' Hlt Hi'. by apply tx_any.
Qed.

(** Every step of a run ends, and keeps the invariant. *)
Lemma step_keeps e w log : inv_any w log -> event_ok e w -> exists o w', ipc_step user e w = Some (o, w') /\ inv_any w' (log ++ o).
Proof.
  intros Hi He. pose proof (fun s => c_chans _ _ _ _ _ (proj1 Hi s)) as Hn. destruct e as [s id d k | s h | s cb | s id cb | s id | s id | s id]; cbn [ipc_step event_ok] in *.
  - unfold hal_rmt_ipc_send. destruct (decide (id < n)%nat) as [Hid | Hid].
    + destruct (send_keeps (fun _ _ => any) (dir_in any) s id d k w log sendable_dir (inv_to_but _ s id _ _ Hi) Hid He) as (r & q & c' & hs' & -> & Hi' & _).
      cbn. eexists _, _. split; [reflexivity|]. eapply inv_forget, but_to_inv, Hi'.
    + unfold hal_rmt_ipc_send_seq. rewrite lookup_ge_None_2 by (rewrite Hn; lia). cbn. eexists _, _. split; [reflexivity|]. by rewrite app_nil_r, put_same.
  - destruct (rx_all s h w log Hi) as (o & c' & hs' & -> & Hi'). cbn. by eexists _, _.
  - destruct (tx_all s cb w log He Hi) as (o & c' & hs' & -> & Hi'). cbn. by eexists _, _.
  - unfold hal_rmt_ipc_tx_irq_run. rewrite Hn. destruct (Nat.leb_spec n id) as [Hge | Hid].
    + cbn. eexists _, _. split; [reflexivity|]. by rewrite app_nil_r, put_same.
    + destruct (tx_any s id cb w log He Hi Hid) as (o & c' & hs' & -> & Hi'). cbn. by eexists _, _.
  - destruct (decide (id < n)%nat) as [Hid | Hid].
    + destruct (start_keeps _ s id w log Hi Hid) as (c' & hs' & -> & Hi' & _). eexists _, _. split; [reflexivity|]. rewrite app_nil_r. by eapply inv_forget.
    + unfold hal_rmt_ipc_start_recv. rewrite lookup_ge_None_2 by (rewrite Hn; lia). eexists _, _. split; [reflexivity|]. by rewrite app_nil_r, put_same.
  - unfold hal_rmt_ipc_stop_recv. rewrite Hn. destruct (Nat.leb_spec n id) as [Hge | Hid]; (eexists _, _; split; [reflexivity|]); rewrite app_nil_r; [by rewrite put_same|].
    apply dirs_core; [done | | done]. apply core_enable; [apply Hi|]. rewrite length_insert. apply (proj1 Hi s).
  - pose proof (done_keeps _ s id w log Hi He) as Hd. destruct (hal_rmt_ipc_rx_done _ _ _ _) as [r hs']. eexists _, _. split; [reflexivity|].
    rewrite app_nil_r. by eapply inv_forget.
Qed.

(** A run whose events keep to that, as far as it gets. *)
Fixpoint run_ok (l : list ipc_event) (w : world H) : Prop :=
  match l with
  | [] => True
  | e :: l' => event_ok e w /\ match ipc_step user e w with Some (_, w') => run_ok l' w' | None => True end
  end.

Lemma run_ok_cons e l w o w' : event_ok e w -> ipc_step user e w = Some (o, w') -> run_ok l w' -> run_ok (e :: l) w.
Proof. intros He E Hl. cbn [run_ok]. by rewrite E. Qed.

Lemma run_keeps l : forall w log, inv_any w log -> run_ok l w -> exists o w', ipc_run user l w = Some (o, w') /\ inv_any w' (log ++ o).
Proof.
  induction l as [|e l IH]; intros w log Hi Hok; [exists [], w; by rewrite app_nil_r|]. destruct Hok as [He Hok].
  destruct (step_keeps e w log Hi He) as (o1 & w1 & E1 & Hi1). cbn [ipc_run]. rewrite E1 in *. cbn [mbind option_bind].
  destruct (IH w1 _ Hi1 Hok) as (o2 & w2 & -> & Hi2). cbn. eexists _, _. split; [reflexivity|]. by rewrite app_assoc.
Qed.

Lemma run_app l1 l2 w o1 w1 o2 w2 : ipc_run user l1 w = Some (o1, w1) -> ipc_run user l2 w1 = Some (o2, w2) ->
  ipc_run user (l1 ++ l2) w = Some (o1 ++ o2, w2).
Proof.
  revert w o1. induction l1 as [|e l1 IH]; intros w o1 E1 E2; [injection E1 as <- <-; exact E2|]. cbn [ipc_run app] in *.
  destruct (ipc_step user e w) as [[oe we]|]; [|done]. cbn [mbind option_bind] in *. destruct (ipc_run user l1 we) as [[o1' w1']|] eqn:El; [|done].
  cbn [mbind option_bind] in E1. injection E1 as <- <-. rewrite (IH we o1' El E2). cbn. by rewrite app_assoc.
Qed.
End Runs.
