(* ===== verification/RmtIpcProps.v ===== *)
(** The properties of hal_rmt_ipc.c: messages arrive in order, once each, and the wake lock follows
    them; what a send answers; that a message gets through; and what reopening a channel forgets. *)
From Stdlib Require Import ZArith Lia Bool.
From stdpp Require Import base option list.
From S2P Require Import Prelude RmtIpc RmtIpcLaws RmtIpcRuns.

(** ** Opening *)
Section Opening.
Context {H : Type} {Cfg : RmtIpcCfg H} {Spec : RmtIpcCfgSpec H}.

Definition opened_chan (x : bool * bool) : HAL_RMT_IPC_CH_CFG_T :=
  mkCh None None (send_msgs zero_chan) false zero_msg true (fst x) (snd x) false true.

(** Channels opened one after the other, from [id] on. *)
Lemma open_all_spec s l : forall id c (hs : list H), (id + length l <= length (chan_cfg c))%nat ->
  (forall i, (id <= i)%nat -> (i < length (chan_cfg c))%nat -> chan_cfg c !! i = Some zero_chan) ->
  exists c' hs', open_all s id l c hs = Some (c', hs') /\
    chan_cfg c' = list_inserts id (map opened_chan l) (chan_cfg c) /\ length (rx_enabled c') = length (rx_enabled c) /\
    tx_enabled c' = list_inserts id (replicate (length l) true) (tx_enabled c) /\
    local_cfg_p c' = (local_cfg_p c || negb (bool_decide (l = [])))%bool /\ busy_p c' = busy_p c /\ sys_wake_lock_map c' = sys_wake_lock_map c /\
    length hs' = length hs /\
    (forall i h, hs !! i = Some h -> hs' !! i = Some (if decide (id <= i < id + length l)%nat then irq_init s h else h)).
Proof.
  induction l as [|[tx flow] l IH]; intros id c hs Hlen Hz; cbn [open_all length] in *.
  - exists c, hs. split; [done|]. split; [done|]. split; [done|]. split; [done|]. split; [by rewrite orb_false_r|].
    split; [done|]. split; [done|]. split; [done|]. intros i h Hi. by rewrite decide_False by lia.
  - unfold hal_rmt_ipc_open. rewrite Hz by lia. cbn [chan_opened zero_chan mbind option_bind].
    set (c1 := set_nvic (<[id := false]> (rx_enabled c)) (<[id := true]> (tx_enabled c)) (set_chan id (opened_chan (tx, flow)) (publish c))).
    change (mkCh None None (send_msgs zero_chan) false zero_msg true tx flow false true) with (opened_chan (tx, flow)). fold c1.
    destruct (IH (S id) c1 (alter (irq_init s) id hs)) as (c' & hs' & -> & E1 & E2 & E3 & E4 & E5 & E6 & E7 & E8).
    + cbn. rewrite length_insert. lia.
    + cbn. rewrite length_insert. intros i Hi Hlt. rewrite list_lookup_insert_ne by lia. apply Hz; lia.
    + exists c', hs'. split; [done|]. cbn in *. rewrite E1, E2, E3, E4, E5, E6, E7. rewrite length_insert, length_alter.
      split; [by rewrite list_insert_inserts_lt by lia|]. split; [done|]. split; [by rewrite list_insert_inserts_lt by lia|].
      split; [by rewrite orb_true_r|]. split; [done|]. split; [done|]. split; [done|].
      intros i h Hi. destruct (decide (i = id)) as [-> | Hne].
      * rewrite (E8 id (irq_init s h)); [|by rewrite list_lookup_alter_eq, Hi]. rewrite decide_False, decide_True by lia. done.
      * rewrite (E8 i h); [|by rewrite list_lookup_alter_ne]. repeat case_decide; try done; lia.
Qed.

(** Both sides opened from reset; a channel's options are whether its sender has a handler and whether
    its receiver controls the flow. *)
Definition options (lm ls : list (bool * bool)) (s : side) : list (bool * bool) := match s with MCU => lm | SENS => ls end.
Definition ipc_setup (lm ls : list (bool * bool)) (m : side -> Z) (hs : list H) : option (world H) :=
  '(cm, h1) ← open_all MCU 0 lm (reset_core (length lm) (m MCU)) hs;
  '(cs, h2) ← open_all SENS 0 ls (reset_core (length ls) (m SENS)) h1;
  Some (mkWorld cm cs h2).

Lemma opened_core user n m l s hs : length l = n -> (0 < n)%nat -> Z.testbit m user = false -> length hs = n ->
  exists c' hs', open_all s 0 l (reset_core n m) hs = Some (c', hs') /\ core_ok user n m (map snd l) c' /\ chan_cfg c' = map opened_chan l /\
    length hs' = n /\ forall i h, hs !! i = Some h -> hs' !! i = Some (irq_init s h).
Proof.
  intros Hl Hn Hm Hhs. assert (Hc : length (chan_cfg (reset_core n m)) = n) by apply length_replicate.
  destruct (open_all_spec s l 0 (reset_core n m) hs) as (c' & hs' & E & E1 & E2 & E3 & E4 & E5 & E6 & E7 & E8).
  - rewrite Hc. lia.
  - intros i _ Hi. rewrite Hc in Hi. by apply lookup_replicate_2.
  - exists c', hs'. split; [done|].
    assert (Hin : forall {A} (k x : list A), length k = n -> length x = n -> list_inserts 0 k x = k).
    { intros A k x Hk Hx. rewrite inserts_app by lia. rewrite drop_ge by lia. by rewrite app_nil_r. }
    rewrite Hin in E1 by (rewrite ?length_map; done). rewrite Hin in E3 by (rewrite ?length_replicate; cbn; rewrite ?length_replicate; done).
    split; [|split; [done|]; split; [by rewrite E7|]; intros i h Hi; rewrite (E8 i h Hi), decide_True; [done|]; apply lookup_lt_Some in Hi; lia].
    split.
    + by rewrite E1, length_map.
    + rewrite E2. apply length_replicate.
    + by rewrite E3, Hl.
    + rewrite E4. destruct l; [cbn in Hl; lia | done].
    + rewrite E1, map_map. done.
    + rewrite E5, E1. cbn. clear. induction l as [|x l IH]; [done | exact IH].
    + rewrite E6, E5. exact Hm.
    + intros u Hu Hne. by rewrite E6.
Qed.

(** Two channels that have just been opened. *)
Lemma opened_direction x y l : l = mkLine false false true -> dir_in any (opened_chan x) (opened_chan y) l [] [] [].
Proof.
  intros ->. exists [], [], []. split; [|done]. split; try done.
  - split; try done; [apply NoDup_nil_2 |].
    intros i r Hi. change (send_msgs (opened_chan x)) with (replicate HAL_RMT_IPC_MAX_SEND_REC_CNT (mkRec zero_msg false)) in Hi.
    apply lookup_replicate in Hi as [-> _]. cbn. split; [done | intros E; by apply elem_of_nil in E].
  - by constructor.
Qed.

Lemma setup_inv user n m lm ls hs : length lm = n -> length ls = n -> length hs = n -> (0 < n)%nat -> (forall s, Z.testbit (m s) user = false) ->
  exists w, ipc_setup lm ls m hs = Some w /\ inv_any user n m (fun s => map snd (options lm ls s)) w [].
Proof.
  intros Hlm Hls Hhs Hn Hm. unfold ipc_setup. rewrite Hlm, Hls.
  destruct (opened_core user n (m MCU) lm MCU hs Hlm Hn (Hm MCU) Hhs) as (cm & h1 & -> & Hcm & Em & L1 & B1). cbn [mbind option_bind].
  destruct (opened_core user n (m SENS) ls SENS h1 Hls Hn (Hm SENS) L1) as (cs & h2 & -> & Hcs & Es & L2 & B2). cbn [mbind option_bind].
  eexists. split; [done|]. split; [by intros []|]. split; [done|]. intros s id sc rc h K1 K2 K3. cbn in K3.
  assert (Hid : (id < n)%nat) by (rewrite <- L2; by apply lookup_lt_Some in K3).
  destruct (lookup_lt_is_Some_2 hs id) as [h0 Hh0]; [by rewrite Hhs|].
  rewrite (B2 _ _ (B1 _ _ Hh0)) in K3. injection K3 as <-.
  assert (Hmap : forall k i c, map opened_chan k !! i = Some c -> exists x, c = opened_chan x).
  { intros k i c E. change (map opened_chan) with (fmap (M := list) opened_chan) in E. rewrite list_lookup_fmap in E.
    destruct (k !! i) as [x|]; [|done]. injection E as <-. by exists x. }
  assert (Hsc : exists x, sc = opened_chan x) by (destruct s; cbn in K1; rewrite ?Em, ?Es in K1; by eapply Hmap).
  assert (Hrc : exists y, rc = opened_chan y) by (destruct s; cbn in K2; rewrite ?Em, ?Es in K2; by eapply Hmap).
  destruct Hsc as [x ->], Hrc as [y ->]. apply opened_direction.
  pose proof (irq_init_dir MCU h0) as I1. pose proof (irq_init_peer MCU h0) as I2. cbn in I2. destruct s.
  - pose proof (irq_init_peer SENS (irq_init MCU h0)) as I3. cbn in I3. by rewrite I3, I1.
  - by rewrite irq_init_dir, I2.
Qed.
End Opening.

(** ** What the invariant says *)
Section Facts.
Context {H : Type} {Cfg : RmtIpcCfg H} {Spec : RmtIpcCfgSpec H}.
Context (user : Z) (Huser : 0 <= user < HAL_SYS_WAKE_LOCK_USER_QTY) (n : nat) (m0 : side -> Z) (fl : side -> list bool).

Lemma length_messages ms l : (forall i, i ∈ l -> is_Some (ms !! i)) -> length (messages ms l) = length l.
Proof.
  induction l as [|i l IH]; intros Hl; [done|]. destruct (Hl i ltac:(left)) as [r Hr]. rewrite (messages_cons _ _ _ _ Hr). cbn. f_equal.
  apply IH. intros j Hj. apply Hl. by right.
Qed.

Lemma prefix_by_length (a b x y : list Z) : a ++ x = b ++ y -> (length x <= length y)%nat -> b `prefix_of` a.
Proof.
  intros E Hle. exists (drop (length b) a). assert (Hl : (length b <= length a)%nat) by (apply (f_equal length) in E; rewrite !length_app in E; lia).
  rewrite <- (take_drop (length b) a) at 1. f_equal. apply (f_equal (take (length b))) in E. rewrite take_app_le in E by done. by rewrite E, take_app_length.
Qed.

(** A direction: what is accepted and not given back is in the records, at most three messages. *)
Lemma direction_facts sc rc l acc tk fr a p rest : direction sc rc l acc tk fr a p rest ->
  exists waiting, acc = fr ++ waiting /\ waiting = messages (send_msgs sc) (a ++ p) /\ (length waiting = length (a ++ p)) /\
    tk `prefix_of` bytes acc /\ bytes fr `prefix_of` tk /\ existsb in_use (send_msgs sc) = negb (bool_decide (waiting = [])).
Proof.
  intros [D1 D2 D3 D4 D5 D6 D7 D8]. exists (messages (send_msgs sc) (a ++ p)). split; [done|]. split; [done|].
  assert (Hlen : length (messages (send_msgs sc) (a ++ p)) = length (a ++ p)) by (apply length_messages; intros i Hi; by eapply queue_in_range).
  split; [done|]. assert (Hb : (length (bytes rest) <= length (bytes (messages (send_msgs sc) a)))%nat).
  { inversion D6 as [? ? E | ? ? E | ? ? ? ? ? Hf Hb E | ? ? ? E | ? ? E]; subst; first [lia | apply Nat.le_0_l]. }
  split; [|split].
  - exists (bytes rest ++ bytes (messages (send_msgs sc) p)). rewrite app_assoc, D8, D7, messages_app, app_assoc. by rewrite bytes_app.
  - rewrite bytes_app in D8. by eapply prefix_by_length.
  - destruct (a ++ p) as [|i k] eqn:Eap.
    + change (messages (send_msgs sc) []) with (@nil (Z * Z)). rewrite bool_decide_true by done. cbn [negb]. apply not_true_iff_false. intros Ex.
      apply existsb_exists in Ex as (r & Hr & Hu). apply list_elem_of_In, list_elem_of_lookup in Hr as [j Hj].
      apply (q_use _ _ _ _ _ D1 j r Hj) in Hu. rewrite Eap in Hu. by apply elem_of_nil in Hu.
    + rewrite bool_decide_false by (intros E; rewrite E in Hlen; done). cbn [negb]. apply existsb_exists.
      destruct (queue_in_range _ _ _ _ _ i D1) as [r Hr]; [rewrite Eap; left|]. exists r. split; [apply list_elem_of_In; by eapply list_elem_of_lookup_2|].
      apply (q_use _ _ _ _ _ D1 i r Hr). rewrite Eap. left.
Qed.

Lemma inv_direction w log s id : inv_any user n m0 fl w log -> (id < n)%nat ->
  exists sc rc h a p rest, chan_cfg (core_of s w) !! id = Some sc /\ chan_cfg (core_of (peer s) w) !! id = Some rc /\ mailboxes w !! id = Some h /\
    direction sc rc (dir s h) (accepted s id log) (took s id log) (freed s id log) a p rest.
Proof.
  intros (I1 & I2 & I3) Hid. destruct (lookup_lt_is_Some_2 (chan_cfg (core_of s w)) id) as [sc Hsc]; [by rewrite (c_chans _ _ _ _ _ (I1 s))|].
  destruct (lookup_lt_is_Some_2 (chan_cfg (core_of (peer s) w)) id) as [rc Hrc]; [by rewrite (c_chans _ _ _ _ _ (I1 (peer s)))|].
  destruct (lookup_lt_is_Some_2 (mailboxes w) id) as [h Hh]; [by rewrite I2|].
  destruct (I3 s id sc rc h Hsc Hrc Hh) as (a & p & rest & D & _). by exists sc, rc, h, a, p, rest.
Qed.

(** The wake lock is held while a message waits on some channel. *)
Lemma inv_lock w log s : inv_any user n m0 fl w log ->
  Z.testbit (sys_wake_lock_map (core_of s w)) user = true <-> exists id, (id < n)%nat /\ accepted s id log <> freed s id log.
Proof.
  intros Hi. pose proof (proj1 Hi s) as Hc. rewrite (c_lock _ _ _ _ _ Hc), (c_busy _ _ _ _ _ Hc).
  assert (Hb : forall id sc, chan_cfg (core_of s w) !! id = Some sc -> chan_busy sc = true <-> accepted s id log <> freed s id log).
  { intros id sc Hsc. assert (Hid : (id < n)%nat) by (rewrite <- (c_chans _ _ _ _ _ Hc); by apply lookup_lt_Some in Hsc).
    destruct (inv_direction w log s id Hi Hid) as (sc' & rc & h & a & p & rest & Hsc' & _ & _ & D). rewrite Hsc in Hsc'. injection Hsc' as <-.
    destruct (direction_facts _ _ _ _ _ _ _ _ _ D) as (wt & Ha & _ & Hl & _). rewrite (d_busy _ _ _ _ _ _ _ _ _ D), Ha.
    destruct (decide (a = [])) as [-> | Hne].
    - rewrite (d_idle _ _ _ _ _ _ _ _ _ D eq_refl) in Hl. destruct wt; [|done]. rewrite app_nil_r, bool_decide_true by done. done.
    - rewrite bool_decide_false by done. split; [|done]. intros _ E. rewrite <- (app_nil_r (freed s id log)) in E at 2. apply app_inv_head in E as ->.
      rewrite length_app in Hl. cbn in Hl. destruct a; [done | cbn in Hl; lia]. }
  rewrite existsb_exists. split.
  - intros (sc & Hsc & Hbusy). apply list_elem_of_In, list_elem_of_lookup in Hsc as [id Hsc]. exists id. split; [|by apply (Hb id sc)].
    rewrite <- (c_chans _ _ _ _ _ Hc). by apply lookup_lt_Some in Hsc.
  - intros (id & Hid & Hne). destruct (lookup_lt_is_Some_2 (chan_cfg (core_of s w)) id) as [sc Hsc]; [by rewrite (c_chans _ _ _ _ _ Hc)|].
    exists sc. split; [apply list_elem_of_In; by eapply list_elem_of_lookup_2 | by apply (Hb id sc)].
Qed.

(** ** Delivery *)
(** The state of one direction, the others in any state. *)
Definition focus (s0 : side) (id0 : nat) (R : dir_state) : side -> nat -> dir_state := change (fun _ _ => any) s0 id0 R.

Lemma focus_at s id R : focus s id R s id = R.
Proof. unfold focus, change. by rewrite decide_True. Qed.
Lemma focus_other s id R s' id' : (s', id') <> (s, id) -> focus s id R s' id' = any.
Proof. intros Hne. unfold focus, change. by rewrite decide_False. Qed.

Lemma focus_change s id R R' w log : inv user n m0 fl (change (focus s id R) s id R') w log -> inv user n m0 fl (focus s id R') w log.
Proof. apply inv_weaken. intros s' id' a p l. unfold focus, change. by destruct (decide _). Qed.
Lemma focus_keep s id R s' id' w log : (s', id') <> (s, id) -> inv user n m0 fl (change (focus s id R) s' id' any) w log -> inv user n m0 fl (focus s id R) w log.
Proof.
  intros Hne. apply inv_weaken. intros t i a p l. unfold focus, change. destruct (decide ((t, i) = (s', id'))) as [[= -> ->] |]; [by rewrite decide_False | done].
Qed.

(** The receiver's interrupt, when the indications get through and its handler takes everything. *)
Lemma rx_takes s id h w log (R : dir_state) : inv user n m0 fl (focus (peer s) id R) w log -> (id < n)%nat -> takes_all (h id) -> fl s !! id = Some false ->
  rx_enabled (core_of s w) !! id = Some true -> (forall a p l, R a p l -> raised l = true -> unmasked l = true) ->
  exists o c' hs', hal_rmt_ipc_rx_irq_handler s h (core_of (peer s) w) (core_of s w) (mailboxes w) = Some (o, c', hs') /\
    inv user n m0 fl (focus (peer s) id (fun a p l => raised l = false /\ exists l0, R a p l0)) (put_core s c' hs' w) (log ++ o) /\ rx_enabled c' = rx_enabled (core_of s w).
Proof.
  intros Hi Hid Ht Hfl Hen Hu. unfold hal_rmt_ipc_rx_irq_handler. rewrite (c_chans _ _ _ _ _ (proj1 Hi s)).
  set (R' := fun a p l => raised l = false /\ exists l0, R a p l0). set (G := fun i => focus (peer s) id (if decide (i <= id)%nat then R else R')).
  destruct (over_keeps n s (fun i => rx_irq s i (h i) (core_of (peer s) w))
    (fun i w' log' => inv user n m0 fl (G i) w' log' /\ core_of (peer s) w' = core_of (peer s) w /\ rx_enabled (core_of s w') = rx_enabled (core_of s w)))
    with (k := n) (i := 0%nat) (w := w) (log := log) as (o & c' & hs' & E & Hi' & _ & He); [|done| |].
  - intros i w' log' Hlt (Hi' & Hp & He). destruct (decide (i = id)) as [-> | Hne].
    + destruct (rx_irq_keeps user n m0 fl (G id) R' s id (h id) w' log' true Hi' Hlt) as (o & c' & hs' & E & Hi2 & He2); [by rewrite He| |].
      { intros a p l. unfold G. rewrite focus_at, decide_True by lia. intros HR. cbn [andb]. destruct (raised l) eqn:Er; [rewrite (Hu a p l HR Er)|]; cbn [andb].
        - split; [by split; [|exists l] | by left].
        - by split; [|exists l]. }
      rewrite Hp in E. exists o, c', hs'. split; [done|]. split; [|by rewrite core_of_put_peer, core_of_put, He2].
      unfold G in *. rewrite decide_True in Hi2 by lia. rewrite decide_False by lia. by eapply focus_change.
    + destruct (lookup_lt_is_Some_2 (rx_enabled (core_of s w')) i) as [en Hen']; [by rewrite (c_rx _ _ _ _ _ (proj1 Hi' s))|].
      destruct (rx_irq_keeps user n m0 fl (G i) any s i (h i) w' log' en Hi' Hlt Hen') as (o & c' & hs' & E & Hi2 & He2).
      { intros a p l _. destruct (en && _); [|done]. by split; [|right]. }
      rewrite Hp in E. exists o, c', hs'. split; [done|]. split; [|by rewrite core_of_put_peer, core_of_put, He2].
      assert (Eq : (if decide (i <= id)%nat then R else R') = (if decide (S i <= id)%nat then R else R')) by (repeat case_decide; try done; lia).
      unfold G in *. rewrite Eq in Hi2. eapply focus_keep; [|exact Hi2]. by intros [= E'].
  - split; [|done]. unfold G. by rewrite decide_True by lia.
  - exists o, c', hs'. split; [done|]. rewrite core_of_put in He. split; [|done]. unfold G in Hi'. by rewrite decide_False in Hi' by lia.
Qed.

(** A completion with no message sent by the handler. *)
Lemma tx_quiet s id w log (R R' : dir_state) (B : list nat -> Prop) : inv user n m0 fl (focus s id R) w log -> (id < n)%nat ->
  (forall a p l, R a p l -> consistent a p l -> if completed l then B p else R' a p l) ->
  (forall q l, B q -> raised l = negb (bool_decide (q = [])) -> completed l = false -> unmasked l = true -> R' q [] l) ->
  exists o c' hs', hal_rmt_ipc_tx_irq_run user s id (fun _ _ => []) (core_of s w) (mailboxes w) = Some (0, o, c', hs') /\
    inv user n m0 fl (focus s id R') (put_core s c' hs' w) (log ++ o).
Proof.
  intros Hi Hid HR HB. unfold hal_rmt_ipc_tx_irq_run. rewrite (c_chans _ _ _ _ _ (proj1 Hi s)). destruct (Nat.leb_spec n id); [lia|].
  destruct (tx_by_id_keeps user Huser n m0 fl (focus s id R) B R' s id (fun _ _ => []) w log Hi Hid) as (o & c' & hs' & E & Hi2).
  - intros d k. split; [constructor | by right].
  - intros a p l. rewrite focus_at. apply HR.
  - done.
  - rewrite E. cbn. eexists _, _, _. split; [reflexivity|]. by eapply focus_change.
Qed.

(** Two rounds of both interrupts. *)
Definition deliver (s : side) (id : nat) (h : nat -> nat -> Z -> Z -> Z) : list ipc_event :=
  [StartRecv (peer s) id; RxIrq (peer s) h; TxRun s id (fun _ _ => []); RxIrq (peer s) h; TxRun s id (fun _ _ => [])].

(** One of them: what waited becomes the list. *)
Lemma round_spec s id h w log (R R' : dir_state) : inv user n m0 fl (focus s id R) w log -> (id < n)%nat -> takes_all (h id) ->
  fl (peer s) !! id = Some false -> rx_enabled (core_of (peer s) w) !! id = Some true -> (forall a p l, R a p l -> raised l = true -> unmasked l = true) ->
  (forall a p l0 l, R a p l0 -> unmasked l = true -> R' p [] l) -> (forall l, raised l = false -> R' [] [] l) ->
  exists o w', ipc_run user [RxIrq (peer s) h; TxRun s id (fun _ _ => [])] w = Some (o, w') /\ inv user n m0 fl (focus s id R') w' (log ++ o) /\
    rx_enabled (core_of (peer s) w') !! id = Some true.
Proof.
  intros Hi Hid Ht Hfl Hen Hu HR HR0. rewrite <- (peer_peer s) in Hi at 1.
  destruct (rx_takes (peer s) id h w log R Hi Hid Ht Hfl Hen Hu) as (o1 & c1 & h1 & E1 & Hi1 & He1). rewrite peer_peer in Hi1.
  destruct (tx_quiet s id _ _ _ R' (fun p => exists a l0, R a p l0) Hi1 Hid) as (o2 & c2 & h2 & E2 & Hi2).
  - intros a p l (Hr & l0 & Ha) (C1 & C2 & C3). destruct (completed l) eqn:Ec; [by exists a, l0|]. rewrite (C2 Hr eq_refl) in *. rewrite C1 by done. by apply HR0.
  - intros q l (a & l0 & Ha) _ _ Hum. by eapply HR.
  - cbn [ipc_run ipc_step]. rewrite E1. cbn [mbind option_bind]. rewrite E2. cbn [mbind option_bind]. eexists _, _. split; [reflexivity|].
    rewrite app_nil_r, app_assoc. split; [exact Hi2|]. by rewrite core_of_put_peer, core_of_put, He1.
Qed.

Lemma deliver_spec s id h w log : inv_any user n m0 fl w log -> (id < n)%nat -> takes_all (h id) -> fl (peer s) !! id = Some false ->
  exists o w', ipc_run user (deliver s id h) w = Some (o, w') /\ inv user n m0 fl (focus s id (fun a p _ => a = [] /\ p = [])) w' (log ++ o).
Proof.
  intros Hi Hid Ht Hfl. destruct (start_keeps user n m0 fl _ (peer s) id w log Hi Hid) as (c1 & h1 & E1 & Hi1 & He1). rewrite peer_peer in Hi1.
  assert (Hr1 : rx_enabled (core_of (peer s) (put_core (peer s) c1 h1 w)) !! id = Some true).
  { rewrite core_of_put, He1. apply list_lookup_insert_eq. by rewrite (c_rx _ _ _ _ _ (proj1 Hi (peer s))). }
  destruct (round_spec s id h _ log (let_through fl (peer s) id) (fun _ p l => p = [] /\ (raised l = true -> unmasked l = true)) Hi1 Hid Ht Hfl Hr1)
    as (o2 & w2 & E2 & Hi2 & He2); [by intros a p l Hl Hr; apply Hl | done | by intros l -> |].
  destruct (round_spec s id h w2 _ _ (fun a p _ => a = [] /\ p = []) Hi2 Hid Ht Hfl He2) as (o3 & w3 & E3 & Hi3 & _); [by intros a p l [_ Hu] | by intros a p l0 l [-> _] | done|].
  change (deliver s id h) with (StartRecv (peer s) id :: [RxIrq (peer s) h; TxRun s id (fun _ _ => [])] ++ [RxIrq (peer s) h; TxRun s id (fun _ _ => [])]).
  exists (o2 ++ o3), w3. rewrite app_assoc. split; [|exact Hi3]. cbn [ipc_run ipc_step]. rewrite E1. cbn [mbind option_bind].
  by rewrite (run_app user _ _ _ _ _ _ _ E2 E3).
Qed.
End Facts.

(** ** Properties *)
Section Properties.
Context {H : Type} {Cfg : RmtIpcCfg H} {Spec : RmtIpcCfgSpec H}.

(** What the two sides start from: as many channels on each as there are mailboxes, and a wake lock that
    is not held. *)
Definition sound_setup (user : Z) (lm ls : list (bool * bool)) (m : side -> Z) (hs : list H) : Prop :=
  0 <= user < HAL_SYS_WAKE_LOCK_USER_QTY /\ lm <> [] /\ length ls = length lm /\ length hs = length lm /\ forall s, Z.testbit (m s) user = false.

Lemma setup_run user lm ls m hs w0 : sound_setup user lm ls m hs -> ipc_setup lm ls m hs = Some w0 ->
  inv_any user (length lm) m (fun s => map snd (options lm ls s)) w0 [].
Proof.
  intros (Hu & Hne & Hls & Hhs & Hm) E. destruct (setup_inv user (length lm) m lm ls hs) as (w & Ew & Hi); try done; [destruct lm; [done | cbn; lia]|].
  rewrite E in Ew. by injection Ew as <-.
Qed.
End Properties.

(** ** A run, for the witnesses *)
(** Two channels, the second under flow control; a message in two pieces, two more behind it, one of
    them sent by the completion handler, and a batch given back. *)
Definition demo_options : list (bool * bool) := [(true, false); (false, true)].
Definition demo_boxes : list lines := replicate 2 (mkLines (mkLine true true false) (mkLine false true false)).
Definition demo_world : world lines :=
  match ipc_setup demo_options demo_options (fun _ => 0) demo_boxes with Some w => w | None => mkWorld (reset_core 0 0) (reset_core 0 0) [] end.
Definition demo_events : list ipc_event :=
  [Send MCU 0 0x1000 10; Send MCU 0 0x2000 4; Send MCU 1 0x3000 2; StartRecv SENS 0; StartRecv SENS 1; RxIrq SENS (fun _ _ _ _ => 6);
   StartRecv SENS 0; RxIrq SENS (fun _ _ _ _ => 6); RxDone SENS 1; TxIrq MCU (fun _ d _ => if d =? 0x1000 then [(0x4000, 1)] else [])].

Lemma demo_setup : sound_setup 5 demo_options demo_options (fun _ => 0) demo_boxes.
Proof. split; [unfold HAL_SYS_WAKE_LOCK_USER_QTY; lia|]. split; [done|]. split; [done|]. split; [done|]. done. Qed.

Lemma demo_opens : ipc_setup demo_options demo_options (fun _ => 0) demo_boxes = Some demo_world.
Proof. reflexivity. Qed.

(** A step of it: the event, the state it leads to. *)
Ltac demo_step := eapply run_ok_cons; [| vm_compute; reflexivity |]; cbn [event_ok].
Ltac demo_fits := unfold fits; cbn [fst snd]; lia.

Lemma demo_ok : run_ok 5 demo_events demo_world.
Proof.
  unfold demo_events. do 3 (demo_step; [demo_fits|]). do 5 (demo_step; [exact I|]).
  demo_step; [intros rc h [= <-] [= <-]; done|].
  demo_step; [|exact I]. intros id d k. destruct (d =? 0x1000); [|constructor]. apply List.Forall_cons; [demo_fits | constructor].
Qed.

(** C6: Messages between the cores. Once both sides have opened their channels, no run of sends (from
    completion handlers too), interrupts, starts and stops of reception, in any order, reads through a
    wild pointer, fails an assertion or loops; and on every channel, in each direction, the messages
    given back are a prefix of those accepted, in order and at most three behind; the receiver's handler
    has been given, piece by piece, the bytes of the accepted messages in order and each once, never
    behind what was given back. For any mailbox that meets its interface and any answers of the
    handlers, under flow control too if a batch is given back when it has been read. *)
Theorem ipc_stream `{RmtIpcCfgSpec H} user lm ls m (hs : list H) evs : sound_setup user lm ls m hs ->
  exists w0, ipc_setup lm ls m hs = Some w0 /\ (run_ok user evs w0 ->
  exists o w, ipc_run user evs w0 = Some (o, w) /\ forall s id, (id < length lm)%nat ->
    exists waiting, accepted s id o = freed s id o ++ waiting /\ (length waiting <= HAL_RMT_IPC_MAX_SEND_REC_CNT)%nat /\
      took s id o `prefix_of` bytes (accepted s id o) /\ bytes (freed s id o) `prefix_of` took s id o /\
      hal_rmt_ipc_tx_active id HAL_RMT_IPC_ALL_SEND_SEQ (core_of s w) = negb (bool_decide (waiting = []))).
Proof.
  intros Hs. pose proof Hs as (Hu & Hne & Hls & Hhs & Hm).
  destruct (setup_inv user (length lm) m lm ls hs) as (w0 & E & Hi); try done; [destruct lm; [done | cbn; lia]|]. exists w0. split; [exact E|]. intros Hok.
  destruct (run_keeps user Hu _ _ _ evs w0 [] Hi Hok) as (o & w & Er & Hi2). exists o, w. split; [done|]. intros s id Hid.
  destruct (inv_direction user _ _ _ w _ s id Hi2 Hid) as (sc & rc & h & a & p & rest & Hsc & _ & _ & D).
  destruct (direction_facts _ _ _ _ _ _ _ _ _ D) as (wt & Ha & _ & Hl & Hp1 & Hp2 & Hex). pose proof (queue_full _ _ _ _ _ (d_queue _ _ _ _ _ _ _ _ _ D)) as [_ Hle].
  exists wt. split; [done|]. split; [by rewrite Hl|]. split; [done|]. split; [done|]. unfold hal_rmt_ipc_tx_active. rewrite Hsc, (q_len _ _ _ _ _ (d_queue _ _ _ _ _ _ _ _ _ D)). exact Hex.
Qed.

Lemma ipc_stream_witness : exists o w, ipc_run 5 demo_events demo_world = Some (o, w) /\ forall s id, (id < 2)%nat ->
  exists waiting, accepted s id o = freed s id o ++ waiting /\ (length waiting <= HAL_RMT_IPC_MAX_SEND_REC_CNT)%nat /\
    took s id o `prefix_of` bytes (accepted s id o) /\ bytes (freed s id o) `prefix_of` took s id o /\
    hal_rmt_ipc_tx_active id HAL_RMT_IPC_ALL_SEND_SEQ (core_of s w) = negb (bool_decide (waiting = [])).
Proof.
  destruct (ipc_stream 5 demo_options demo_options (fun _ => 0) demo_boxes demo_events demo_setup) as (w0 & E & Hrun).
  rewrite demo_opens in E. injection E as <-. exact (Hrun demo_ok).
Defined.

(** C30: The wake lock follows the messages. After any such run a core holds its system wake lock exactly
    when some message of its own is accepted and not given back, on whichever channel; the locks of the
    other users are as they were. *)
Theorem ipc_wake_lock `{RmtIpcCfgSpec H} user lm ls m (hs : list H) evs w0 : sound_setup user lm ls m hs ->
  ipc_setup lm ls m hs = Some w0 -> run_ok user evs w0 ->
  exists o w, ipc_run user evs w0 = Some (o, w) /\ forall s,
    (Z.testbit (sys_wake_lock_map (core_of s w)) user = true <-> exists id, (id < length lm)%nat /\ accepted s id o <> freed s id o) /\
    (forall u, 0 <= u -> u <> user -> Z.testbit (sys_wake_lock_map (core_of s w)) u = Z.testbit (m s) u).
Proof.
  intros Hs E Hok. pose proof (setup_run _ _ _ _ _ _ Hs E) as Hi. destruct Hs as (Hu & _).
  destruct (run_keeps user Hu _ _ _ evs w0 [] Hi Hok) as (o & w & Er & Hi2). exists o, w. split; [done|]. intros s. split.
  - by eapply inv_lock.
  - apply (c_others _ _ _ _ _ (proj1 Hi2 s)).
Qed.

Lemma ipc_wake_lock_witness : exists o w, ipc_run 5 demo_events demo_world = Some (o, w) /\ forall s,
  (Z.testbit (sys_wake_lock_map (core_of s w)) 5 = true <-> exists id, (id < 2)%nat /\ accepted s id o <> freed s id o) /\
  (forall u, 0 <= u -> u <> 5 -> Z.testbit (sys_wake_lock_map (core_of s w)) u = Z.testbit 0 u).
Proof. exact (ipc_wake_lock 5 demo_options demo_options (fun _ => 0) demo_boxes demo_events demo_world demo_setup demo_opens demo_ok). Defined.

(** C31: What a send answers. After any such run a message in memory is refused with -1, and nothing
    changes, exactly when three messages of the channel wait; otherwise it is accepted with 0, and the
    number it is given is of a record that was not active and is active now. *)
Theorem ipc_send_answer `{RmtIpcCfgSpec H} user lm ls m (hs : list H) evs w0 s id d k : sound_setup user lm ls m hs ->
  ipc_setup lm ls m hs = Some w0 -> run_ok user evs w0 -> (id < length lm)%nat -> fits (d, k) ->
  exists o w r q c hs', ipc_run user evs w0 = Some (o, w) /\
    hal_rmt_ipc_send_seq user s id d k (core_of s w) (mailboxes w) = Some (r, q, c, hs') /\
    if decide (length (accepted s id o) = length (freed s id o) + HAL_RMT_IPC_MAX_SEND_REC_CNT)%nat
    then r = -1 /\ q = None /\ c = core_of s w /\ hs' = mailboxes w
    else r = 0 /\ exists i, q = Some i /\ hal_rmt_ipc_tx_active id (Z.of_nat i) (core_of s w) = false /\ hal_rmt_ipc_tx_active id (Z.of_nat i) c = true.
Proof.
  intros Hs E Hok Hid Hf. pose proof (setup_run _ _ _ _ _ _ Hs E) as Hi. destruct Hs as (Hu & _).
  destruct (run_keeps user Hu _ _ _ evs w0 [] Hi Hok) as (o & w & Er & Hi2). cbn [app] in Hi2.
  destruct (send_keeps user Hu _ _ _ _ _ s id d k w o sendable_dir (inv_to_but _ _ _ _ _ s id w o Hi2) Hid Hf) as (r & q & c & hs' & Es & Hi3 & Hres).
  exists o, w, r, q, c, hs'. split; [done|]. split; [done|].
  destruct (inv_direction user _ _ _ w o s id Hi2 Hid) as (sc & rc & h & a & p & rest & Hsc & _ & _ & D). specialize (Hres sc Hsc).
  destruct (direction_facts _ _ _ _ _ _ _ _ _ D) as (wt & Ha & _ & Hl & _). pose proof (d_queue _ _ _ _ _ _ _ _ _ D) as Hq.
  destruct (queue_full _ _ _ _ _ Hq) as [Hfull _]. rewrite Ha, length_app, Hl. pose proof (free_record_spec (send_msgs sc)) as Hfree.
  destruct (free_record (send_msgs sc)) as [i|].
  - rewrite decide_False by (intros E'; assert (X : @Some nat i = None) by (apply Hfull; lia); done).
    destruct Hres as (-> & -> & sc' & x & Hsc' & Hx & Hux). split; [done|]. exists i. split; [done|]. destruct Hfree as (y & Hy & Huy).
    unfold hal_rmt_ipc_tx_active. rewrite Hsc, Hsc', !Nat2Z.id, Hy, Hx, Huy, Hux. apply lookup_lt_Some in Hy, Hx.
    destruct (Z.ltb_spec (Z.of_nat i) (Z.of_nat (length (send_msgs sc)))); [|lia]. by destruct (Z.ltb_spec (Z.of_nat i) (Z.of_nat (length (send_msgs sc')))); [|lia].
  - rewrite decide_True by (pose proof (proj1 Hfull eq_refl); lia). exact Hres.
Qed.

Lemma ipc_send_answer_witness : exists o w r q c hs', ipc_run 5 demo_events demo_world = Some (o, w) /\
  hal_rmt_ipc_send_seq 5 MCU 0 0x5000 8 (core_of MCU w) (mailboxes w) = Some (r, q, c, hs') /\
  if decide (length (accepted MCU 0 o) = length (freed MCU 0 o) + HAL_RMT_IPC_MAX_SEND_REC_CNT)%nat
  then r = -1 /\ q = None /\ c = core_of MCU w /\ hs' = mailboxes w
  else r = 0 /\ exists i, q = Some i /\ hal_rmt_ipc_tx_active 0 (Z.of_nat i) (core_of MCU w) = false /\ hal_rmt_ipc_tx_active 0 (Z.of_nat i) c = true.
Proof.
  refine (ipc_send_answer 5 demo_options demo_options (fun _ => 0) demo_boxes demo_events demo_world MCU 0 0x5000 8 demo_setup demo_opens demo_ok _ _);
    [cbn; lia | demo_fits].
Defined.

(** C7: Messages get through on a channel without flow control. From any state such a run can reach, once
    reception of the channel is started and its handler takes what it is given, two rounds of the
    receiver's and the sender's interrupt end with every accepted message handed over whole and given
    back. (Under flow control a message is given back only when the receiver's user says so.) *)
Theorem ipc_delivers `{RmtIpcCfgSpec H} user lm ls m (hs : list H) evs w0 s id h : sound_setup user lm ls m hs ->
  ipc_setup lm ls m hs = Some w0 -> run_ok user evs w0 -> (id < length lm)%nat ->
  map snd (options lm ls (peer s)) !! id = Some false -> takes_all (h id) ->
  exists o w, ipc_run user (evs ++ deliver s id h) w0 = Some (o, w) /\
    freed s id o = accepted s id o /\ took s id o = bytes (accepted s id o) /\ hal_rmt_ipc_tx_active id HAL_RMT_IPC_ALL_SEND_SEQ (core_of s w) = false.
Proof.
  intros Hs E Hok Hid Hfl Ht. pose proof (setup_run _ _ _ _ _ _ Hs E) as Hi. destruct Hs as (Hu & _).
  destruct (run_keeps user Hu _ _ _ evs w0 [] Hi Hok) as (o1 & w1 & Er & Hi1). cbn [app] in Hi1.
  destruct (deliver_spec user Hu _ _ _ s id h w1 o1 Hi1 Hid Ht Hfl) as (o2 & w2 & Ed & Hi2). exists (o1 ++ o2), w2.
  split; [exact (run_app _ _ _ _ _ _ _ _ Er Ed)|].
  destruct (inv_direction user _ _ _ w2 _ s id (inv_forget _ _ _ _ _ _ _ Hi2) Hid) as (sc & rc & hh & a & p & rest & Hsc & Hrc & Hh & _).
  destruct Hi2 as (_ & _ & Hd). destruct (Hd s id sc rc hh Hsc Hrc Hh) as (a2 & p2 & rest2 & D & HR). rewrite focus_at in HR. destruct HR as [-> ->].
  destruct (direction_facts _ _ _ _ _ _ _ _ _ D) as (wt & Ha & -> & _ & _ & _ & Hex). change (messages (send_msgs sc) ([] ++ [])) with (@nil (Z * Z)) in *.
  rewrite app_nil_r in Ha. split; [done|]. destruct D as [D1 D2 D3 D4 D5 D6 D7 D8].
  assert (rest2 = []) as -> by (by inversion D6). change (messages (send_msgs sc) []) with (@nil (Z * Z)) in D8. change (bytes []) with (@nil Z) in D8.
  rewrite !app_nil_r in D8. split; [by rewrite D8, Ha|]. unfold hal_rmt_ipc_tx_active. rewrite Hsc, (q_len _ _ _ _ _ D1). exact Hex.
Qed.

Lemma ipc_delivers_witness : exists o w, ipc_run 5 (demo_events ++ deliver MCU 0 (fun _ _ _ k => k)) demo_world = Some (o, w) /\
  freed MCU 0 o = accepted MCU 0 o /\ took MCU 0 o = bytes (accepted MCU 0 o) /\ hal_rmt_ipc_tx_active 0 HAL_RMT_IPC_ALL_SEND_SEQ (core_of MCU w) = false.
Proof.
  refine (ipc_delivers 5 demo_options demo_options (fun _ => 0) demo_boxes demo_events demo_world MCU 0 (fun _ _ _ k => k) demo_setup demo_opens demo_ok _ _ _);
    [cbn; lia | reflexivity | intros k d x Hx; rewrite u32_small by lia; lia].
Defined.

(** Closing and opening on the peer's word ([hal_rmt_ipc_set_chan_state]) forgets messages under way:
    the records are cleared while the core goes on holding the wake lock, the busy flag of the core
    staying up with no channel busy. *)
Lemma ipc_reopen_forgets :
  exists r c1 h1 c2 c3 h3, hal_rmt_ipc_send 5 MCU 0 0x1000 10 (core_mcu demo_world) (mailboxes demo_world) = Some (r, c1, h1) /\ r = 0 /\
    hal_rmt_ipc_set_chan_state 0 false c1 = (0, c2) /\ hal_rmt_ipc_open MCU 0 true true false c2 h1 = Some (0, c3, h3) /\
    hal_rmt_ipc_tx_active 0 HAL_RMT_IPC_ALL_SEND_SEQ c3 = false /\ existsb chan_busy (chan_cfg c3) = false /\
    busy_p c3 = true /\ Z.testbit (sys_wake_lock_map c3) 5 = true.
Proof. do 6 eexists. repeat split; vm_compute; reflexivity. Qed.

