(* ===== verification/Mcu2sens.v ===== *)
(** The mailbox between the main core and the sensor core: platform/hal/hal_mcu2sens.c, whose functions
    hal_rmt_ipc.c is configured with. Each core has a controller with a set and a clear register; the bits
    of the main core's are in reg_cmu_best1307.h, those of the sensor core's in a header that is not in
    the repository. *)
From Stdlib Require Import ZArith Lia Bool.
From stdpp Require Import base option list.
From S2P Require Import Prelude RmtIpc RmtIpcLaws.

(** ** The bits of the registers *)
Definition CMU_MCU2SENS_DATA_IND_SET : Z := Z.shiftl 1 4.
Definition CMU_MCU2SENS_DATA1_IND_SET : Z := Z.shiftl 1 5.
Definition CMU_SENS2MCU_DATA_MSK_SET : Z := Z.shiftl 1 8.
Definition CMU_SENS2MCU_DATA1_MSK_SET : Z := Z.shiftl 1 9.
Definition CMU_MCU2SENS_DATA_MSK_SET : Z := Z.shiftl 1 12.
Definition CMU_MCU2SENS_DATA1_MSK_SET : Z := Z.shiftl 1 13.
Definition CMU_SENS2MCU_DATA_INTR : Z := Z.shiftl 1 16.
Definition CMU_SENS2MCU_DATA1_INTR : Z := Z.shiftl 1 17.
Definition CMU_SENS2MCU_DATA_INTR_MSK : Z := Z.shiftl 1 24.
Definition CMU_SENS2MCU_DATA1_INTR_MSK : Z := Z.shiftl 1 25.
Definition CMU_MCU2SENS_DATA_INTR_MSK : Z := Z.shiftl 1 28.
Definition CMU_MCU2SENS_DATA1_INTR_MSK : Z := Z.shiftl 1 29.
Definition CMU_SENS2MCU_DATA_DONE_CLR : Z := Z.shiftl 1 0.
Definition CMU_SENS2MCU_DATA1_DONE_CLR : Z := Z.shiftl 1 1.
Definition CMU_MCU2SENS_DATA_IND_CLR : Z := Z.shiftl 1 4.
Definition CMU_MCU2SENS_DATA1_IND_CLR : Z := Z.shiftl 1 5.
Definition CMU_SENS2MCU_DATA_MSK_CLR : Z := Z.shiftl 1 8.
Definition CMU_SENS2MCU_DATA1_MSK_CLR : Z := Z.shiftl 1 9.
Definition CMU_MCU2SENS_DATA_MSK_CLR : Z := Z.shiftl 1 12.
Definition CMU_MCU2SENS_DATA1_MSK_CLR : Z := Z.shiftl 1 13.

(** The names of reg_senscmu.h that the code uses. *)
Class SensCmuBits := {
  SENS_CMU_SENS2MCU_DATA_IND_SET : Z; SENS_CMU_SENS2MCU_DATA1_IND_SET : Z;
  SENS_CMU_MCU2SENS_DATA_MSK_SET : Z; SENS_CMU_MCU2SENS_DATA1_MSK_SET : Z;
  SENS_CMU_SENS2MCU_DATA_MSK_SET : Z; SENS_CMU_SENS2MCU_DATA1_MSK_SET : Z;
  SENS_CMU_MCU2SENS_DATA_INTR : Z; SENS_CMU_MCU2SENS_DATA1_INTR : Z;
  SENS_CMU_MCU2SENS_DATA_INTR_MSK : Z; SENS_CMU_MCU2SENS_DATA1_INTR_MSK : Z;
  SENS_CMU_SENS2MCU_DATA_INTR_MSK : Z; SENS_CMU_SENS2MCU_DATA1_INTR_MSK : Z;
  SENS_CMU_MCU2SENS_DATA_DONE_CLR : Z; SENS_CMU_MCU2SENS_DATA1_DONE_CLR : Z;
  SENS_CMU_SENS2MCU_DATA_IND_CLR : Z; SENS_CMU_SENS2MCU_DATA1_IND_CLR : Z;
  SENS_CMU_MCU2SENS_DATA_MSK_CLR : Z; SENS_CMU_MCU2SENS_DATA1_MSK_CLR : Z;
  SENS_CMU_SENS2MCU_DATA_MSK_CLR : Z; SENS_CMU_SENS2MCU_DATA1_MSK_CLR : Z }.

(** The registers MCU2SENS_IRQ_SET and MCU2SENS_IRQ_CLR of the main core's controller ([MCU]), and
    SENS2MCU_IRQ_SET and SENS2MCU_IRQ_CLR of the sensor core's. *)
Class MailboxRegs (R : Type) := {
  write_set : side -> Z -> R -> R;
  write_clr : side -> Z -> R -> R;
  read_set : side -> R -> Z }.

Definition HAL_MCU2SENS_ID_QTY : nat := 2.
Definition HAL_SYS_WAKE_LOCK_USER_MCU2SENS : Z := 5.

Section Mailbox.
Context `{SensCmuBits} {R : Type} `{MailboxRegs R}.

(** [s] is the core the code is built for: [SENS] with CHIP_SUBSYS_SENS. *)
Definition hal_mcu2sens_peer_irq_set (s : side) (id : nat) (type : HAL_RMT_IPC_IRQ_TYPE_T) (r : R) : Z * R :=
  match type with
  | HAL_RMT_IPC_IRQ_RECV_DONE => (1, r)
  | HAL_RMT_IPC_IRQ_SEND_IND =>
      let value := match s with
        | SENS => if (id =? 0)%nat then SENS_CMU_SENS2MCU_DATA_IND_SET else SENS_CMU_SENS2MCU_DATA1_IND_SET
        | MCU => if (id =? 0)%nat then CMU_MCU2SENS_DATA_IND_SET else CMU_MCU2SENS_DATA1_IND_SET
        end in
      (0, write_set s value r)
  end.

Definition hal_mcu2sens_local_irq_clear (s : side) (id : nat) (type : HAL_RMT_IPC_IRQ_TYPE_T) (r : R) : R :=
  match s with
  | SENS =>
      let value := if (id =? 0)%nat
        then match type with HAL_RMT_IPC_IRQ_SEND_IND => CMU_MCU2SENS_DATA_IND_CLR | HAL_RMT_IPC_IRQ_RECV_DONE => SENS_CMU_MCU2SENS_DATA_DONE_CLR end
        else match type with HAL_RMT_IPC_IRQ_SEND_IND => CMU_MCU2SENS_DATA1_IND_CLR | HAL_RMT_IPC_IRQ_RECV_DONE => SENS_CMU_MCU2SENS_DATA1_DONE_CLR end in
      match type with HAL_RMT_IPC_IRQ_SEND_IND => write_clr MCU value r | HAL_RMT_IPC_IRQ_RECV_DONE => write_clr SENS value r end
  | MCU =>
      let value := if (id =? 0)%nat
        then match type with HAL_RMT_IPC_IRQ_SEND_IND => SENS_CMU_SENS2MCU_DATA_IND_CLR | HAL_RMT_IPC_IRQ_RECV_DONE => CMU_SENS2MCU_DATA_DONE_CLR end
        else match type with HAL_RMT_IPC_IRQ_SEND_IND => SENS_CMU_SENS2MCU_DATA1_IND_CLR | HAL_RMT_IPC_IRQ_RECV_DONE => CMU_SENS2MCU_DATA1_DONE_CLR end in
      match type with HAL_RMT_IPC_IRQ_SEND_IND => write_clr SENS value r | HAL_RMT_IPC_IRQ_RECV_DONE => write_clr MCU value r end
  end.

Definition hal_mcu2sens_local_irq_mask_set (s : side) (id : nat) (type : HAL_RMT_IPC_IRQ_TYPE_T) (r : R) : R :=
  let value := match s with
    | SENS => if (id =? 0)%nat
        then match type with HAL_RMT_IPC_IRQ_SEND_IND => SENS_CMU_MCU2SENS_DATA_MSK_SET | HAL_RMT_IPC_IRQ_RECV_DONE => SENS_CMU_SENS2MCU_DATA_MSK_SET end
        else match type with HAL_RMT_IPC_IRQ_SEND_IND => SENS_CMU_MCU2SENS_DATA1_MSK_SET | HAL_RMT_IPC_IRQ_RECV_DONE => SENS_CMU_SENS2MCU_DATA1_MSK_SET end
    | MCU => if (id =? 0)%nat
        then match type with HAL_RMT_IPC_IRQ_SEND_IND => CMU_SENS2MCU_DATA_MSK_SET | HAL_RMT_IPC_IRQ_RECV_DONE => CMU_MCU2SENS_DATA_MSK_SET end
        else match type with HAL_RMT_IPC_IRQ_SEND_IND => CMU_SENS2MCU_DATA1_MSK_SET | HAL_RMT_IPC_IRQ_RECV_DONE => CMU_MCU2SENS_DATA1_MSK_SET end
    end in
  write_set s value r.

Definition hal_mcu2sens_local_irq_mask_clear (s : side) (id : nat) (type : HAL_RMT_IPC_IRQ_TYPE_T) (r : R) : R :=
  let value := match s with
    | SENS => if (id =? 0)%nat
        then match type with HAL_RMT_IPC_IRQ_SEND_IND => SENS_CMU_MCU2SENS_DATA_MSK_CLR | HAL_RMT_IPC_IRQ_RECV_DONE => SENS_CMU_SENS2MCU_DATA_MSK_CLR end
        else match type with HAL_RMT_IPC_IRQ_SEND_IND => SENS_CMU_MCU2SENS_DATA1_MSK_CLR | HAL_RMT_IPC_IRQ_RECV_DONE => SENS_CMU_SENS2MCU_DATA1_MSK_CLR end
    | MCU => if (id =? 0)%nat
        then match type with HAL_RMT_IPC_IRQ_SEND_IND => CMU_SENS2MCU_DATA_MSK_CLR | HAL_RMT_IPC_IRQ_RECV_DONE => CMU_MCU2SENS_DATA_MSK_CLR end
        else match type with HAL_RMT_IPC_IRQ_SEND_IND => CMU_SENS2MCU_DATA1_MSK_CLR | HAL_RMT_IPC_IRQ_RECV_DONE => CMU_MCU2SENS_DATA1_MSK_CLR end
    end in
  write_clr s value r.

(** [!!(v & b)]. *)
Definition any_bit (v b : Z) : bool := negb (Z.land v b =? 0).

Definition hal_mcu2sens_rx_irq_pending (s : side) (id : nat) (r : R) : bool :=
  let value := match s with
    | SENS => if (id =? 0)%nat then SENS_CMU_MCU2SENS_DATA_INTR else SENS_CMU_MCU2SENS_DATA1_INTR
    | MCU => if (id =? 0)%nat then CMU_SENS2MCU_DATA_INTR else CMU_SENS2MCU_DATA1_INTR
    end in
  any_bit (read_set s r) value.

Definition hal_mcu2sens_irq_init (s : side) (id : nat) (r : R) : R :=
  let value := match s with
    | SENS => if (id =? 0)%nat then Z.lor SENS_CMU_MCU2SENS_DATA_DONE_CLR SENS_CMU_SENS2MCU_DATA_IND_CLR
              else Z.lor SENS_CMU_MCU2SENS_DATA1_DONE_CLR SENS_CMU_SENS2MCU_DATA1_IND_CLR
    | MCU => if (id =? 0)%nat then Z.lor CMU_SENS2MCU_DATA_DONE_CLR CMU_MCU2SENS_DATA_IND_CLR
             else Z.lor CMU_SENS2MCU_DATA1_DONE_CLR CMU_MCU2SENS_DATA1_IND_CLR
    end in
  let r1 := write_clr s value r in
  let r2 := hal_mcu2sens_local_irq_mask_set s id HAL_RMT_IPC_IRQ_SEND_IND r1 in
  hal_mcu2sens_local_irq_mask_set s id HAL_RMT_IPC_IRQ_RECV_DONE r2.

Definition hal_mcu2sens_peer_tx_irq_set (s : side) (id : nat) (r : R) : R := snd (hal_mcu2sens_peer_irq_set s id HAL_RMT_IPC_IRQ_SEND_IND r).
Definition hal_mcu2sens_local_tx_irq_clear (s : side) (id : nat) (r : R) : R := hal_mcu2sens_local_irq_clear s id HAL_RMT_IPC_IRQ_RECV_DONE r.
Definition hal_mcu2sens_rx_irq_suspend (s : side) (id : nat) (r : R) : R := hal_mcu2sens_local_irq_mask_clear s id HAL_RMT_IPC_IRQ_SEND_IND r.
Definition hal_mcu2sens_rx_irq_resume (s : side) (id : nat) (r : R) : R := hal_mcu2sens_local_irq_mask_set s id HAL_RMT_IPC_IRQ_SEND_IND r.
Definition hal_mcu2sens_rx_done_id32 (s : side) (id : nat) (r : R) : R :=
  hal_mcu2sens_local_irq_mask_set s id HAL_RMT_IPC_IRQ_SEND_IND (hal_mcu2sens_local_irq_clear s id HAL_RMT_IPC_IRQ_SEND_IND r).

Definition hal_mcu2sens_irq_active (s : side) (id : nat) (type : HAL_RMT_IPC_IRQ_TYPE_T) (r : R) : bool :=
  let value := match s with
    | SENS => if (id =? 0)%nat
        then match type with HAL_RMT_IPC_IRQ_SEND_IND => SENS_CMU_MCU2SENS_DATA_INTR_MSK | HAL_RMT_IPC_IRQ_RECV_DONE => SENS_CMU_SENS2MCU_DATA_INTR_MSK end
        else match type with HAL_RMT_IPC_IRQ_SEND_IND => SENS_CMU_MCU2SENS_DATA1_INTR_MSK | HAL_RMT_IPC_IRQ_RECV_DONE => SENS_CMU_SENS2MCU_DATA1_INTR_MSK end
    | MCU => if (id =? 0)%nat
        then match type with HAL_RMT_IPC_IRQ_SEND_IND => CMU_SENS2MCU_DATA_INTR_MSK | HAL_RMT_IPC_IRQ_RECV_DONE => CMU_MCU2SENS_DATA_INTR_MSK end
        else match type with HAL_RMT_IPC_IRQ_SEND_IND => CMU_SENS2MCU_DATA1_INTR_MSK | HAL_RMT_IPC_IRQ_RECV_DONE => CMU_MCU2SENS_DATA1_INTR_MSK end
    end in
  any_bit (read_set s r) value.
End Mailbox.

(** ** The calls *)
(** Those of hal_rmt_ipc.c with the configuration of this mailbox. *)
Section Calls.
Context {H : Type} `{RmtIpcCfg H}.
Definition hal_mcu2sens_rx_irq_handler := hal_rmt_ipc_rx_irq_handler (H := H).
Definition hal_mcu2sens_tx_irq_handler := hal_rmt_ipc_tx_irq_handler (H := H) HAL_SYS_WAKE_LOCK_USER_MCU2SENS.
Definition hal_mcu2sens_pm_notif_handler := hal_rmt_ipc_pm_notif_handler (H := H).
Definition hal_mcu2sens_open := hal_rmt_ipc_open (H := H).
Definition hal_mcu2sens_close := hal_rmt_ipc_close (H := H) HAL_SYS_WAKE_LOCK_USER_MCU2SENS.
Definition hal_mcu2sens_start_recv := hal_rmt_ipc_start_recv (H := H).
Definition hal_mcu2sens_stop_recv := hal_rmt_ipc_stop_recv.
Definition hal_mcu2sens_send_seq := hal_rmt_ipc_send_seq (H := H) HAL_SYS_WAKE_LOCK_USER_MCU2SENS.
Definition hal_mcu2sens_send (s : side) (id : nat) (d n : Z) (c : core) (hs : list H) : option (Z * core * list H) :=
  '(r, _, c', hs') ← hal_mcu2sens_send_seq s id d n c hs; Some (r, c', hs').
Definition hal_mcu2sens_rx_done := hal_rmt_ipc_rx_done (H := H).
Definition hal_mcu2sens_tx_irq_run := hal_rmt_ipc_tx_irq_run (H := H) HAL_SYS_WAKE_LOCK_USER_MCU2SENS.
Definition hal_mcu2sens_tx_active := hal_rmt_ipc_tx_active.
Definition hal_mcu2sens_opened := hal_rmt_ipc_opened.
End Calls.

(** ** What the registers do *)
Inductive set_kind := SET_IND | SET_RX_MSK | SET_TX_MSK.
Inductive clr_kind := CLR_DONE | CLR_IND | CLR_RX_MSK | CLR_TX_MSK.
Inductive status_kind := RX_INTR | RX_INTR_MSK | TX_INTR_MSK.
#[export] Instance set_kind_eq_dec : EqDecision set_kind.
Proof. solve_decision. Defined.
#[export] Instance clr_kind_eq_dec : EqDecision clr_kind.
Proof. solve_decision. Defined.
#[export] Instance status_kind_eq_dec : EqDecision status_kind.
Proof. solve_decision. Defined.

(** The bits of a core's controller, for what that core sends ([TX]) and for what it receives ([RX]). *)
Section Bits.
Context `{SensCmuBits}.

Definition irq_set_bit (c : side) (k : set_kind) (id : nat) : Z :=
  match c, k with
  | MCU, SET_IND => if (id =? 0)%nat then CMU_MCU2SENS_DATA_IND_SET else CMU_MCU2SENS_DATA1_IND_SET
  | MCU, SET_RX_MSK => if (id =? 0)%nat then CMU_SENS2MCU_DATA_MSK_SET else CMU_SENS2MCU_DATA1_MSK_SET
  | MCU, SET_TX_MSK => if (id =? 0)%nat then CMU_MCU2SENS_DATA_MSK_SET else CMU_MCU2SENS_DATA1_MSK_SET
  | SENS, SET_IND => if (id =? 0)%nat then SENS_CMU_SENS2MCU_DATA_IND_SET else SENS_CMU_SENS2MCU_DATA1_IND_SET
  | SENS, SET_RX_MSK => if (id =? 0)%nat then SENS_CMU_MCU2SENS_DATA_MSK_SET else SENS_CMU_MCU2SENS_DATA1_MSK_SET
  | SENS, SET_TX_MSK => if (id =? 0)%nat then SENS_CMU_SENS2MCU_DATA_MSK_SET else SENS_CMU_SENS2MCU_DATA1_MSK_SET
  end.

Definition irq_clr_bit (c : side) (k : clr_kind) (id : nat) : Z :=
  match c, k with
  | MCU, CLR_DONE => if (id =? 0)%nat then CMU_SENS2MCU_DATA_DONE_CLR else CMU_SENS2MCU_DATA1_DONE_CLR
  | MCU, CLR_IND => if (id =? 0)%nat then CMU_MCU2SENS_DATA_IND_CLR else CMU_MCU2SENS_DATA1_IND_CLR
  | MCU, CLR_RX_MSK => if (id =? 0)%nat then CMU_SENS2MCU_DATA_MSK_CLR else CMU_SENS2MCU_DATA1_MSK_CLR
  | MCU, CLR_TX_MSK => if (id =? 0)%nat then CMU_MCU2SENS_DATA_MSK_CLR else CMU_MCU2SENS_DATA1_MSK_CLR
  | SENS, CLR_DONE => if (id =? 0)%nat then SENS_CMU_MCU2SENS_DATA_DONE_CLR else SENS_CMU_MCU2SENS_DATA1_DONE_CLR
  | SENS, CLR_IND => if (id =? 0)%nat then SENS_CMU_SENS2MCU_DATA_IND_CLR else SENS_CMU_SENS2MCU_DATA1_IND_CLR
  | SENS, CLR_RX_MSK => if (id =? 0)%nat then SENS_CMU_MCU2SENS_DATA_MSK_CLR else SENS_CMU_MCU2SENS_DATA1_MSK_CLR
  | SENS, CLR_TX_MSK => if (id =? 0)%nat then SENS_CMU_SENS2MCU_DATA_MSK_CLR else SENS_CMU_SENS2MCU_DATA1_MSK_CLR
  end.

Definition irq_status_bit (c : side) (k : status_kind) (id : nat) : Z :=
  match c, k with
  | MCU, RX_INTR => if (id =? 0)%nat then CMU_SENS2MCU_DATA_INTR else CMU_SENS2MCU_DATA1_INTR
  | MCU, RX_INTR_MSK => if (id =? 0)%nat then CMU_SENS2MCU_DATA_INTR_MSK else CMU_SENS2MCU_DATA1_INTR_MSK
  | MCU, TX_INTR_MSK => if (id =? 0)%nat then CMU_MCU2SENS_DATA_INTR_MSK else CMU_MCU2SENS_DATA1_INTR_MSK
  | SENS, RX_INTR => if (id =? 0)%nat then SENS_CMU_MCU2SENS_DATA_INTR else SENS_CMU_MCU2SENS_DATA1_INTR
  | SENS, RX_INTR_MSK => if (id =? 0)%nat then SENS_CMU_MCU2SENS_DATA_INTR_MSK else SENS_CMU_MCU2SENS_DATA1_INTR_MSK
  | SENS, TX_INTR_MSK => if (id =? 0)%nat then SENS_CMU_SENS2MCU_DATA_INTR_MSK else SENS_CMU_SENS2MCU_DATA1_INTR_MSK
  end.

(** A family of bits, each apart from the others. *)
Definition apart {K} `{EqDecision K} (f : K -> nat -> Z) : Prop :=
  forall k k' i i', (i < 2)%nat -> (i' < 2)%nat -> any_bit (f k i) (f k' i') = bool_decide (k = k' /\ i = i').

Class SensCmuBitsSpec := {
  sens_set_apart : apart (irq_set_bit SENS);
  sens_clr_apart : apart (irq_clr_bit SENS) }.

(** A value written: some bits of a family. *)
Definition value_of {K} (f : K -> nat -> Z) (l : list (K * nat)) : Z := foldr (fun x => Z.lor (f (fst x) (snd x))) 0 l.

(** The registers as lines ([wire] of a sender's channel) and the sender's mask of its completion. A
    write acts on the channels by the bits it has; clearing an indication that is raised completes it,
    unless the same write clears the completion. *)
Class MailboxRegsSpec (R : Type) `{MailboxRegs R} := {
  wire : R -> side -> nat -> line;
  done_unmasked : R -> side -> nat -> bool;
  write_set_wire c l r s id : (id < 2)%nat ->
    let v := value_of (irq_set_bit c) l in let w := wire r s id in
    wire (write_set c v r) s id = if decide (s = c) then mkLine (raised w || any_bit v (irq_set_bit c SET_IND id)) (completed w) (unmasked w)
      else mkLine (raised w) (completed w) (unmasked w || any_bit v (irq_set_bit c SET_RX_MSK id));
  write_set_done c l r s id : (id < 2)%nat ->
    let v := value_of (irq_set_bit c) l in
    done_unmasked (write_set c v r) s id = if decide (s = c) then done_unmasked r s id || any_bit v (irq_set_bit c SET_TX_MSK id) else done_unmasked r s id;
  write_clr_wire c l r s id : (id < 2)%nat ->
    let v := value_of (irq_clr_bit c) l in let w := wire r s id in
    wire (write_clr c v r) s id = if decide (s = c)
      then let ind := any_bit v (irq_clr_bit c CLR_IND id) in
           mkLine (raised w && negb ind) ((completed w || raised w && ind) && negb (any_bit v (irq_clr_bit c CLR_DONE id))) (unmasked w)
      else mkLine (raised w) (completed w) (unmasked w && negb (any_bit v (irq_clr_bit c CLR_RX_MSK id)));
  write_clr_done c l r s id : (id < 2)%nat ->
    let v := value_of (irq_clr_bit c) l in
    done_unmasked (write_clr c v r) s id = if decide (s = c) then done_unmasked r s id && negb (any_bit v (irq_clr_bit c CLR_TX_MSK id)) else done_unmasked r s id;
  read_rx c r id : (id < 2)%nat -> any_bit (read_set c r) (irq_status_bit c RX_INTR id) = raised (wire r (peer c) id);
  read_rx_masked c r id : (id < 2)%nat -> any_bit (read_set c r) (irq_status_bit c RX_INTR_MSK id) = raised (wire r (peer c) id) && unmasked (wire r (peer c) id);
  read_tx_masked c r id : (id < 2)%nat -> any_bit (read_set c r) (irq_status_bit c TX_INTR_MSK id) = completed (wire r c id) && done_unmasked r c id }.
End Bits.

(** ** The mailbox of the code *)
Lemma any_bit_lor a b c : any_bit (Z.lor a b) c = any_bit a c || any_bit b c.
Proof.
  unfold any_bit. rewrite Z.land_lor_distr_l. rewrite <- negb_andb. f_equal.
  apply eq_true_iff_eq. rewrite andb_true_iff, !Z.eqb_eq. apply Z.lor_eq_0_iff.
Qed.

Lemma value_of_1 {K} (f : K -> nat -> Z) k i : value_of f [(k, i)] = f k i.
Proof. apply Z.lor_0_r. Qed.

Lemma value_of_2 {K} (f : K -> nat -> Z) k i k' i' : value_of f [(k, i); (k', i')] = Z.lor (f k i) (f k' i').
Proof. unfold value_of. cbn. by rewrite Z.lor_0_r. Qed.

Section Facts.
Context {Bits : SensCmuBits} {Apart : SensCmuBitsSpec} {R : Type} {Regs : MailboxRegs R} {Spec : MailboxRegsSpec R}.

Lemma two_ids i : (i < 2)%nat -> i = 0%nat \/ i = 1%nat.
Proof. lia. Qed.

Lemma set_apart c : apart (irq_set_bit c).
Proof.
  destruct c; [|apply sens_set_apart].
  intros k k' i i' Hi Hi'. destruct (two_ids i Hi) as [-> | ->], (two_ids i' Hi') as [-> | ->], k, k'; vm_compute; reflexivity.
Qed.

Lemma clr_apart c : apart (irq_clr_bit c).
Proof.
  destruct c; [|apply sens_clr_apart].
  intros k k' i i' Hi Hi'. destruct (two_ids i Hi) as [-> | ->], (two_ids i' Hi') as [-> | ->], k, k'; vm_compute; reflexivity.
Qed.

(** The two channels of a state of the registers. *)
Definition boxes (r : R) : list lines := map (fun id => mkLines (wire r MCU id) (wire r SENS id)) (seq 0 HAL_MCU2SENS_ID_QTY).

Lemma boxes_at r r' id (g : lines -> lines) : (id < 2)%nat ->
  (forall s, get_line s (g (mkLines (wire r MCU id) (wire r SENS id))) = wire r' s id) ->
  (forall s i, (i < 2)%nat -> i <> id -> wire r' s i = wire r s i) -> boxes r' = alter g id (boxes r).
Proof.
  intros Hid Hg Ho. pose proof (Hg MCU) as G1. pose proof (Hg SENS) as G2.
  assert (E : forall l, mkLines (get_line MCU l) (get_line SENS l) = l) by (by intros []).
  unfold boxes. cbn. destruct (two_ids id Hid) as [-> | ->]; cbn; rewrite <- G1, <- G2, E.
  - by rewrite !(Ho _ 1%nat) by lia.
  - by rewrite !(Ho _ 0%nat) by lia.
Qed.
(** A write of one bit, and the write of two. *)
Lemma set_wire c k j r s id : (j < 2)%nat -> (id < 2)%nat ->
  wire (write_set c (irq_set_bit c k j) r) s id = let w := wire r s id in
    if decide (s = c) then mkLine (raised w || bool_decide (k = SET_IND /\ j = id)) (completed w) (unmasked w)
    else mkLine (raised w) (completed w) (unmasked w || bool_decide (k = SET_RX_MSK /\ j = id)).
Proof. intros Hj Hid. rewrite <- (value_of_1 (irq_set_bit c)), write_set_wire, value_of_1, !set_apart by done. done. Qed.

Lemma set_done c k j r s id : (j < 2)%nat -> (id < 2)%nat ->
  done_unmasked (write_set c (irq_set_bit c k j) r) s id = done_unmasked r s id || bool_decide (s = c /\ k = SET_TX_MSK /\ j = id).
Proof.
  intros Hj Hid. rewrite <- (value_of_1 (irq_set_bit c)), write_set_done, value_of_1, !set_apart by done. destruct (decide (s = c)) as [-> | Hne].
  - f_equal. apply bool_decide_ext. tauto.
  - rewrite (bool_decide_false (s = c /\ _)) by tauto. by rewrite orb_false_r.
Qed.

Lemma clr_wire c k j r s id : (j < 2)%nat -> (id < 2)%nat ->
  wire (write_clr c (irq_clr_bit c k j) r) s id = let w := wire r s id in
    if decide (s = c)
    then let ind := bool_decide (k = CLR_IND /\ j = id) in
         mkLine (raised w && negb ind) ((completed w || raised w && ind) && negb (bool_decide (k = CLR_DONE /\ j = id))) (unmasked w)
    else mkLine (raised w) (completed w) (unmasked w && negb (bool_decide (k = CLR_RX_MSK /\ j = id))).
Proof. intros Hj Hid. rewrite <- (value_of_1 (irq_clr_bit c)), write_clr_wire, value_of_1, !clr_apart by done. done. Qed.

Lemma clr_done c k j r s id : (j < 2)%nat -> (id < 2)%nat -> k <> CLR_TX_MSK ->
  done_unmasked (write_clr c (irq_clr_bit c k j) r) s id = done_unmasked r s id.
Proof.
  intros Hj Hid Hk. rewrite <- (value_of_1 (irq_clr_bit c)), write_clr_done, value_of_1, !clr_apart by done.
  rewrite (bool_decide_false (k = CLR_TX_MSK /\ _)) by tauto. rewrite andb_true_r. by destruct (decide (s = c)).
Qed.

Lemma init_writes c j r s id : (j < 2)%nat -> (id < 2)%nat ->
  wire (write_clr c (Z.lor (irq_clr_bit c CLR_DONE j) (irq_clr_bit c CLR_IND j)) r) s id = (if decide (s = c /\ id = j) then mkLine false false (unmasked (wire r s id)) else wire r s id) /\
  done_unmasked (write_clr c (Z.lor (irq_clr_bit c CLR_DONE j) (irq_clr_bit c CLR_IND j)) r) s id = done_unmasked r s id.
Proof.
  intros Hj Hid. rewrite <- value_of_2. rewrite write_clr_wire, write_clr_done by done. rewrite value_of_2. cbv zeta.
  rewrite !any_bit_lor, !clr_apart by done. destruct (wire r s id) as [a b u].
  destruct (two_ids j Hj) as [-> | ->], (two_ids id Hid) as [-> | ->], s, c; destruct a, b, u, (done_unmasked _ _ _); done.
Qed.

Lemma init_wire c j r s id : (j < 2)%nat -> (id < 2)%nat ->
  wire (write_clr c (Z.lor (irq_clr_bit c CLR_DONE j) (irq_clr_bit c CLR_IND j)) r) s id =
  if decide (s = c /\ id = j) then mkLine false false (unmasked (wire r s id)) else wire r s id.
Proof. apply init_writes. Qed.

Lemma init_done c j r s id : (j < 2)%nat -> (id < 2)%nat ->
  done_unmasked (write_clr c (Z.lor (irq_clr_bit c CLR_DONE j) (irq_clr_bit c CLR_IND j)) r) s id = done_unmasked r s id.
Proof. apply init_writes. Qed.

(** A function of the mailbox does on the channels what the interface's does, and leaves the masks of
    completions that are open. *)
Definition implements (f : side -> nat -> R -> R) (g : side -> lines -> lines) : Prop := forall s id r, (id < HAL_MCU2SENS_ID_QTY)%nat ->
  boxes (f s id r) = alter (g s) id (boxes r) /\
  forall t i, (i < HAL_MCU2SENS_ID_QTY)%nat -> done_unmasked r t i = true -> done_unmasked (f s id r) t i = true.

Lemma mask_set_bits s id type r : hal_mcu2sens_local_irq_mask_set s id type r =
  write_set s (irq_set_bit s (match type with HAL_RMT_IPC_IRQ_SEND_IND => SET_RX_MSK | HAL_RMT_IPC_IRQ_RECV_DONE => SET_TX_MSK end) id) r.
Proof. by destruct s, type. Qed.

Lemma mask_clear_bits s id r : hal_mcu2sens_local_irq_mask_clear s id HAL_RMT_IPC_IRQ_SEND_IND r = write_clr s (irq_clr_bit s CLR_RX_MSK id) r.
Proof. by destruct s. Qed.

Lemma irq_clear_bits s id type r : hal_mcu2sens_local_irq_clear s id type r =
  match type with
  | HAL_RMT_IPC_IRQ_SEND_IND => write_clr (peer s) (irq_clr_bit (peer s) CLR_IND id) r
  | HAL_RMT_IPC_IRQ_RECV_DONE => write_clr s (irq_clr_bit s CLR_DONE id) r
  end.
Proof. by destruct s, type. Qed.

Lemma irq_set_bits s id r : hal_mcu2sens_peer_tx_irq_set s id r = write_set s (irq_set_bit s SET_IND id) r.
Proof. by destruct s. Qed.

Lemma irq_init_bits s id r : hal_mcu2sens_irq_init s id r =
  write_set s (irq_set_bit s SET_TX_MSK id) (write_set s (irq_set_bit s SET_RX_MSK id) (write_clr s (Z.lor (irq_clr_bit s CLR_DONE id) (irq_clr_bit s CLR_IND id)) r)).
Proof. unfold hal_mcu2sens_irq_init. rewrite !mask_set_bits. destruct s; cbn [irq_set_bit irq_clr_bit]; by destruct (id =? 0)%nat. Qed.

(** One write or two, on every channel of either side. *)
Ltac wires := repeat first [rewrite set_wire by lia | rewrite clr_wire by lia | rewrite init_wire by lia].
Ltac masks := rewrite ?set_done, ?clr_done, ?init_done by (done || lia).
Ltac in_bits := rewrite ?irq_init_bits, ?irq_set_bits, ?mask_set_bits, ?mask_clear_bits, ?irq_clear_bits.
Ltac each_case := repeat match goal with
  | H : (?i < 2)%nat |- _ => destruct (two_ids i H) as [-> | ->]; clear H
  | s : side |- _ => destruct s
  | |- context [wire ?r ?a ?b] => destruct (wire r a b) as [[] [] []]
  end; done.
Ltac mailbox :=
  let s := fresh in let id := fresh in let r := fresh in let Hid := fresh in
  unfold HAL_MCU2SENS_ID_QTY; intros s id r Hid; split;
  [ apply (boxes_at _ _ id); [exact Hid | intros ?; in_bits; wires; each_case | intros ? ? ? ?; in_bits; wires; each_case]
  | intros ? ? ? Hd; in_bits; masks; by rewrite Hd ].

Lemma peer_tx_irq_set_implements : implements hal_mcu2sens_peer_tx_irq_set peer_tx_irq_set.
Proof. unfold implements. mailbox. Qed.

Lemma local_tx_irq_clear_implements : implements hal_mcu2sens_local_tx_irq_clear local_tx_irq_clear.
Proof. unfold implements, hal_mcu2sens_local_tx_irq_clear. mailbox. Qed.

Lemma rx_irq_suspend_implements : implements hal_mcu2sens_rx_irq_suspend rx_irq_suspend.
Proof. unfold implements, hal_mcu2sens_rx_irq_suspend. mailbox. Qed.

Lemma rx_irq_resume_implements : implements hal_mcu2sens_rx_irq_resume rx_irq_resume.
Proof. unfold implements, hal_mcu2sens_rx_irq_resume. mailbox. Qed.

Lemma rx_done_implements : implements hal_mcu2sens_rx_done_id32 rx_done.
Proof. unfold implements, hal_mcu2sens_rx_done_id32. mailbox. Qed.

Lemma irq_init_implements : implements hal_mcu2sens_irq_init irq_init.
Proof. unfold implements. mailbox. Qed.
Lemma init_unmasks s id r : (id < 2)%nat -> done_unmasked (hal_mcu2sens_irq_init s id r) s id = true.
Proof. intros Hid. in_bits. masks. rewrite (bool_decide_true (s = s /\ SET_TX_MSK = SET_TX_MSK /\ id = id)) by done. by rewrite !orb_true_r. Qed.

Lemma boxes_lookup r id : (id < 2)%nat -> boxes r !! id = Some (mkLines (wire r MCU id) (wire r SENS id)).
Proof. intros Hid. by destruct (two_ids id Hid) as [-> | ->]. Qed.

Lemma active_bits s id type r : hal_mcu2sens_irq_active s id type r =
  any_bit (read_set s r) (irq_status_bit s (match type with HAL_RMT_IPC_IRQ_SEND_IND => RX_INTR_MSK | HAL_RMT_IPC_IRQ_RECV_DONE => TX_INTR_MSK end) id).
Proof. by destruct s, type. Qed.

Lemma pending_bits s id r : hal_mcu2sens_rx_irq_pending s id r = any_bit (read_set s r) (irq_status_bit s RX_INTR id).
Proof. by destruct s. Qed.
End Facts.

(** ** Registers that do just that, for the witness *)
Record plain_regs := mkRegs { plain_wire : side -> nat -> line; plain_done : side -> nat -> bool }.

#[export] Instance plain_bits : SensCmuBits := {
  SENS_CMU_SENS2MCU_DATA_IND_SET := 2 ^ 4; SENS_CMU_SENS2MCU_DATA1_IND_SET := 2 ^ 5;
  SENS_CMU_MCU2SENS_DATA_MSK_SET := 2 ^ 8; SENS_CMU_MCU2SENS_DATA1_MSK_SET := 2 ^ 9;
  SENS_CMU_SENS2MCU_DATA_MSK_SET := 2 ^ 12; SENS_CMU_SENS2MCU_DATA1_MSK_SET := 2 ^ 13;
  SENS_CMU_MCU2SENS_DATA_INTR := 2 ^ 16; SENS_CMU_MCU2SENS_DATA1_INTR := 2 ^ 17;
  SENS_CMU_MCU2SENS_DATA_INTR_MSK := 2 ^ 24; SENS_CMU_MCU2SENS_DATA1_INTR_MSK := 2 ^ 25;
  SENS_CMU_SENS2MCU_DATA_INTR_MSK := 2 ^ 28; SENS_CMU_SENS2MCU_DATA1_INTR_MSK := 2 ^ 29;
  SENS_CMU_MCU2SENS_DATA_DONE_CLR := 2 ^ 0; SENS_CMU_MCU2SENS_DATA1_DONE_CLR := 2 ^ 1;
  SENS_CMU_SENS2MCU_DATA_IND_CLR := 2 ^ 4; SENS_CMU_SENS2MCU_DATA1_IND_CLR := 2 ^ 5;
  SENS_CMU_MCU2SENS_DATA_MSK_CLR := 2 ^ 8; SENS_CMU_MCU2SENS_DATA1_MSK_CLR := 2 ^ 9;
  SENS_CMU_SENS2MCU_DATA_MSK_CLR := 2 ^ 12; SENS_CMU_SENS2MCU_DATA1_MSK_CLR := 2 ^ 13 }.

Definition status_if (b : bool) (v : Z) : Z := if b then v else 0.
Definition status_of (c : side) (r : plain_regs) (id : nat) : Z :=
  let w := plain_wire r (peer c) id in let o := plain_wire r c id in
  Z.lor (status_if (raised w) (irq_status_bit c RX_INTR id))
    (Z.lor (status_if (raised w && unmasked w) (irq_status_bit c RX_INTR_MSK id)) (status_if (completed o && plain_done r c id) (irq_status_bit c TX_INTR_MSK id))).

#[export] Instance plain_mailbox : MailboxRegs plain_regs := {
  write_set c v r := mkRegs
    (fun s id => let w := plain_wire r s id in
       if decide (s = c) then mkLine (raised w || any_bit v (irq_set_bit c SET_IND id)) (completed w) (unmasked w)
       else mkLine (raised w) (completed w) (unmasked w || any_bit v (irq_set_bit c SET_RX_MSK id)))
    (fun s id => if decide (s = c) then plain_done r s id || any_bit v (irq_set_bit c SET_TX_MSK id) else plain_done r s id);
  write_clr c v r := mkRegs
    (fun s id => let w := plain_wire r s id in
       if decide (s = c)
       then let ind := any_bit v (irq_clr_bit c CLR_IND id) in
            mkLine (raised w && negb ind) ((completed w || raised w && ind) && negb (any_bit v (irq_clr_bit c CLR_DONE id))) (unmasked w)
       else mkLine (raised w) (completed w) (unmasked w && negb (any_bit v (irq_clr_bit c CLR_RX_MSK id))))
    (fun s id => if decide (s = c) then plain_done r s id && negb (any_bit v (irq_clr_bit c CLR_TX_MSK id)) else plain_done r s id);
  read_set c r := Z.lor (status_of c r 0) (status_of c r 1) }.

#[export] Instance plain_apart : SensCmuBitsSpec.
Proof.
  split; intros k k' i i' Hi Hi'; destruct (two_ids i Hi) as [-> | ->], (two_ids i' Hi') as [-> | ->], k, k'; vm_compute; reflexivity.
Qed.

Lemma any_bit_if b v x : any_bit (status_if b v) x = b && any_bit v x.
Proof. by destruct b. Qed.

#[export] Instance plain_spec : MailboxRegsSpec plain_regs.
Proof.
  refine {| wire := plain_wire; done_unmasked := plain_done |}; try done; intros c r id Hid; cbn [read_set plain_mailbox]; unfold status_of;
    rewrite !any_bit_lor, !any_bit_if; destruct (two_ids id Hid) as [-> | ->], c; cbn [peer];
    repeat match goal with |- context [any_bit ?a ?b] => let v := eval vm_compute in (any_bit a b) in change (any_bit a b) with v end;
    by rewrite ?andb_false_r, ?andb_true_r, ?orb_false_r.
Qed.

(** ** Property *)
(** C29: The mailbox of the sensor core meets the interface of hal_rmt_ipc.c. On registers that work by
    their bits, with the bits of the main core's controller that the header gives and any distinct ones
    of the sensor core's, each function of the configuration does to its channel on either side what the
    interface's does and nothing to the other channel; it answers which interrupt is active, that of
    a completion once the channel has been initialised, which no function undoes. *)
Theorem mcu2sens_mailbox {Bits : SensCmuBits} {Apart : SensCmuBitsSpec} {R : Type} {Regs : MailboxRegs R} {Spec : MailboxRegsSpec R} :
  implements hal_mcu2sens_irq_init irq_init /\ implements hal_mcu2sens_peer_tx_irq_set peer_tx_irq_set /\
  implements hal_mcu2sens_local_tx_irq_clear local_tx_irq_clear /\ implements hal_mcu2sens_rx_irq_suspend rx_irq_suspend /\
  implements hal_mcu2sens_rx_irq_resume rx_irq_resume /\ implements hal_mcu2sens_rx_done_id32 rx_done /\
  forall s id r, (id < HAL_MCU2SENS_ID_QTY)%nat -> done_unmasked (hal_mcu2sens_irq_init s id r) s id = true /\
    exists box, boxes r !! id = Some box /\
      hal_mcu2sens_rx_irq_pending s id r = raised (get_line (peer s) box) /\
      hal_mcu2sens_irq_active s id HAL_RMT_IPC_IRQ_SEND_IND r = irq_active s HAL_RMT_IPC_IRQ_SEND_IND box /\
      (done_unmasked r s id = true -> hal_mcu2sens_irq_active s id HAL_RMT_IPC_IRQ_RECV_DONE r = irq_active s HAL_RMT_IPC_IRQ_RECV_DONE box).
Proof.
  split; [apply irq_init_implements|]. split; [apply peer_tx_irq_set_implements|]. split; [apply local_tx_irq_clear_implements|].
  split; [apply rx_irq_suspend_implements|]. split; [apply rx_irq_resume_implements|]. split; [apply rx_done_implements|].
  intros s id r Hid. split; [by apply init_unmasks|]. eexists. split; [by apply boxes_lookup|].
  rewrite pending_bits, !active_bits, read_rx, read_rx_masked, read_tx_masked by done.
  split; [by destruct s|]. split; [by destruct s|]. intros ->. rewrite andb_true_r. by destruct s.
Qed.

(** A message announced, read and completed on the second channel. *)
Lemma mcu2sens_mailbox_witness :
  let r0 := mkRegs (fun _ _ => mkLine false false false) (fun _ _ => false) in
  let r1 := hal_mcu2sens_irq_init SENS 1 (hal_mcu2sens_irq_init MCU 1 r0) in
  let r2 := hal_mcu2sens_rx_done_id32 SENS 1 (hal_mcu2sens_peer_tx_irq_set MCU 1 r1) in
  boxes r2 = alter (rx_done SENS) 1%nat (boxes (hal_mcu2sens_peer_tx_irq_set MCU 1 r1)) /\
  hal_mcu2sens_irq_active MCU 1 HAL_RMT_IPC_IRQ_RECV_DONE r2 = true /\ hal_mcu2sens_irq_active MCU 0 HAL_RMT_IPC_IRQ_RECV_DONE r2 = false.
Proof.
  split; [apply (mcu2sens_mailbox (R := plain_regs)); unfold HAL_MCU2SENS_ID_QTY; lia | split; vm_compute; reflexivity].
Defined.
