(* ===== verification/Sysfreq.v ===== *)
(** The system frequency votes of platform/hal/hal_sysfreq.c: every user asks for a frequency, the
    highest request, revised by the minimum, is the clock of the processor; with the power and
    clock calls in order and the usage statistics. *)
From Stdlib Require Import ZArith Lia Bool.
From stdpp Require Import base list option.
From S2P Require Import Prelude.

(** ** Data *)
Definition HAL_SYSFREQ_USER_QTY : Z := 39.

(** Frequencies are the numbers of the enumeration of the chip. *)
Definition HAL_CMU_FREQ_32K : Z := 0.
Definition HAL_CMU_FREQ_6P5M : Z := 1.
Definition HAL_CMU_FREQ_26M : Z := 3.
Definition HAL_CMU_FREQ_208M : Z := 8.
Definition HAL_CMU_FREQ_QTY : Z := 9.

(** The calls the driver makes, in order. *)
Inductive call := Sys_set_freq (f : Z) | Pmu_config (f : Z) | Low_freq_disable (old new : Z) | Low_freq_enable (old new : Z).

(** [hw] is the frequency the clock unit runs at, what [hal_cmu_sys_get_freq] reads;
    [bundle] the bytes of [sysfreq_bundle], 39 users and one byte of padding. *)
Record state := mkState {
  bundle : list Z; top_user : Z; min_sysfreq : Z; hw : Z;
  last_check_time : Z; sysfreq_intvl : list (Z * Z);
  stat_total : Z; stat_intvl : list (Z * Z);
  calls : list call }.

Definition set_bundle b s := mkState b (top_user s) (min_sysfreq s) (hw s) (last_check_time s) (sysfreq_intvl s) (stat_total s) (stat_intvl s) (calls s).
Definition set_top u s := mkState (bundle s) u (min_sysfreq s) (hw s) (last_check_time s) (sysfreq_intvl s) (stat_total s) (stat_intvl s) (calls s).
Definition set_min m s := mkState (bundle s) (top_user s) m (hw s) (last_check_time s) (sysfreq_intvl s) (stat_total s) (stat_intvl s) (calls s).
Definition set_intvl t l s := mkState (bundle s) (top_user s) (min_sysfreq s) (hw s) t l (stat_total s) (stat_intvl s) (calls s).
Definition set_stat t l s := mkState (bundle s) (top_user s) (min_sysfreq s) (hw s) (last_check_time s) (sysfreq_intvl s) t l (calls s).
Definition do_call c s := mkState (bundle s) (top_user s) (min_sysfreq s)
  (match c with Sys_set_freq f => f | _ => hw s end)
  (last_check_time s) (sysfreq_intvl s) (stat_total s) (stat_intvl s) (calls s ++ [c]).

(** [sysfreq_per_user[u]]. *)
Definition per_user (s : state) (u : Z) : Z := nth (Z.to_nat u) (bundle s) 0.
Definition set_user (u f : Z) (s : state) : state := set_bundle (<[Z.to_nat u := u8 f]> (bundle s)) s.

(** ** Operations *)
Definition revise (min freq : Z) : Z :=
  let freq := if freq =? HAL_CMU_FREQ_32K then HAL_CMU_FREQ_26M else freq in
  if freq >? min then freq else min.

Definition hal_sysfreq_revise_freq (s : state) (freq : Z) : Z := revise (min_sysfreq s) freq.

Definition hal_sysfreq_get (s : state) : Z :=
  if top_user s <? HAL_SYSFREQ_USER_QTY then per_user s (top_user s) else hw s.

Definition hal_sysfreq_get_hw_freq (s : state) : Z :=
  if top_user s <? HAL_SYSFREQ_USER_QTY then hal_sysfreq_revise_freq s (per_user s (top_user s)) else hw s.

Definition hal_sysfreq_set_min_freq (freq : Z) (s : state) : state :=
  if negb (min_sysfreq s =? freq) then
    let cur_freq := hal_sysfreq_get s in
    let old_revised_freq := hal_sysfreq_revise_freq s cur_freq in
    let s1 := set_min freq s in
    let new_revised_freq := hal_sysfreq_revise_freq s1 cur_freq in
    if negb (old_revised_freq =? new_revised_freq) then do_call (Sys_set_freq new_revised_freq) s1 else s1
  else s.

Definition hal_sysfreq_inc_min_freq (freq : Z) (s : state) : Z * state :=
  (min_sysfreq s, if freq >? min_sysfreq s then hal_sysfreq_set_min_freq freq s else s).

(** The scan for the highest request: the first user holding it. *)
Fixpoint top_scan (n : nat) (i : Z) (b : list Z) (freq user : Z) : Z * Z :=
  match n with
  | O => (freq, user)
  | S n' =>
      let f := nth (Z.to_nat i) b 0 in
      if freq <? f then top_scan n' (i + 1) b f i else top_scan n' (i + 1) b freq user
  end.

(** Adding the time since the last check to the entry [idx], busy or idle column. *)
Definition add_time (idx : Z) (idle : bool) (cur_time : Z) (s : state) : state :=
  let d := u32 (cur_time - last_check_time s) in
  let '(busy_t, idle_t) := nth (Z.to_nat idx) (sysfreq_intvl s) (0, 0) in
  let e := if idle then (busy_t, u32 (idle_t + d)) else (u32 (busy_t + d), idle_t) in
  set_intvl (u32 cur_time) (<[Z.to_nat idx := e]> (sysfreq_intvl s)) s.

Section Config.
(** The build options: PMU_CTRL_ENABLE, ULTRA_LOW_POWER, SYSFREQ_STATS. *)
Variables pmu_ctrl ultra_low_power stats : bool.

Definition when (b : bool) (f : state -> state) (s : state) : state := if b then f s else s.

Definition raise_freq (old new : Z) (s : state) : state :=
  do_call (Sys_set_freq new)
    (when ultra_low_power (do_call (Low_freq_disable old new)) (when pmu_ctrl (do_call (Pmu_config new)) s)).

Definition lower_freq (old new : Z) (s : state) : state :=
  when pmu_ctrl (do_call (Pmu_config new))
    (when ultra_low_power (do_call (Low_freq_enable old new)) (do_call (Sys_set_freq new) s)).

(** [now] is the timer value the statistics read. *)
Definition hal_sysfreq_req (user freq now : Z) (s : state) : Z * state :=
  if user >=? HAL_SYSFREQ_USER_QTY then (1, s)
  else if freq >=? HAL_CMU_FREQ_QTY then (2, s)
  else
    let cur_freq := hal_sysfreq_get s in
    let s1 := set_user user freq s in
    if freq =? cur_freq then (0, set_top user s1)
    else if freq >? cur_freq then
      let s2 := set_top user s1 in
      let real_freq := hal_sysfreq_revise_freq s2 freq in
      let real_cur_freq := hal_sysfreq_revise_freq s2 cur_freq in
      let s3 := when (negb (real_freq =? real_cur_freq)) (raise_freq real_cur_freq real_freq) s2 in
      let s4 := when (stats && (negb (real_freq =? real_cur_freq) || (cur_freq =? HAL_CMU_FREQ_32K)))
                  (add_time (if cur_freq =? HAL_CMU_FREQ_32K then cur_freq else real_cur_freq) false now) s3 in
      (0, s4)
    else
      if (top_user s1 =? user) || (top_user s1 =? HAL_SYSFREQ_USER_QTY) then
        let '(freq', user') := if top_user s1 =? user
                               then top_scan 38 1 (bundle s1) (per_user s1 0) 0 else (freq, user) in
        let s2 := set_top user' s1 in
        if negb (freq' =? cur_freq) then
          let real_freq := hal_sysfreq_revise_freq s2 freq' in
          let real_cur_freq := hal_sysfreq_revise_freq s2 cur_freq in
          let s3 := when (negb (real_freq =? real_cur_freq)) (lower_freq real_cur_freq real_freq) s2 in
          let s4 := when (stats && (negb (real_freq =? real_cur_freq) || (freq' =? HAL_CMU_FREQ_32K)))
                      (add_time real_cur_freq false now) s3 in
          (0, s4)
        else (0, s2)
      else (0, s1).
End Config.

(** The words of the bundle, four bytes each. *)
Fixpoint words4 (n : nat) (b : list Z) : list Z :=
  match n with
  | O => []
  | S n' => (nth 0 b 0 + 2 ^ 8 * nth 1 b 0 + 2 ^ 16 * nth 2 b 0 + 2 ^ 24 * nth 3 b 0) :: words4 n' (drop 4 b)
  end.

Definition hal_sysfreq_busy (s : state) : Z :=
  if existsb (fun w => negb (w =? 0)) (words4 10 (bundle s)) then 1 else 0.

(** ** Statistics *)
Definition hal_sysfreq_get_freq_stats_index (s : state) : Z :=
  if top_user s >=? HAL_SYSFREQ_USER_QTY then HAL_CMU_FREQ_26M
  else
    let cur_freq := per_user s (top_user s) in
    if cur_freq =? HAL_CMU_FREQ_32K then cur_freq else hal_sysfreq_revise_freq s cur_freq.

Definition hal_sysfreq_add_freq_time (idle : bool) (cur_time : Z) (s : state) : state :=
  add_time (hal_sysfreq_get_freq_stats_index s) idle cur_time s.

(** [sizeof(sysfreq_intvl)] is 39 rows of two words; the parameter [size] is a [uint8_t]. *)
Definition SIZEOF_INTVL : Z := 39 * 2 * 4.

(** [memcpy] of [size] bytes, in whole rows of 8 bytes. *)
Definition system_sysfreq_stat_update (tot : Z) (arr : list (Z * Z)) (size : Z) (s : state) : state :=
  let n := Z.to_nat (u8 size / 8) in
  set_stat tot (take n arr ++ drop n (stat_intvl s)) s.

Definition intvl_total (l : list (Z * Z)) : Z := foldl (fun t '(b, i) => u32 (t + u32 (b + i))) 0 l.

(** The percentage printed for an entry. *)
Definition intvl_ratio (t total : Z) : Z := u32 (t * 100) / total.

Definition hal_sysfreq_print_freq_stats (cur_time : Z) (s : state) : state :=
  let s1 := add_time (hal_sysfreq_get_freq_stats_index s) false cur_time s in
  let total := intvl_total (sysfreq_intvl s1) in
  let s2 := if negb (total =? 0) then system_sysfreq_stat_update total (sysfreq_intvl s1) SIZEOF_INTVL s1 else s1 in
  set_intvl (u32 cur_time) (map (fun _ => (0, 0)) (sysfreq_intvl s2)) s2.

(** ** The invariant *)
Record inv (s : state) : Prop := {
  inv_bundle : length (bundle s) = 40%nat;
  inv_freqs : forall u, 0 <= per_user s u < HAL_CMU_FREQ_QTY;
  inv_pad : per_user s 39 = 0;
  inv_min : 0 <= min_sysfreq s < HAL_CMU_FREQ_QTY;
  inv_hw : 0 < hw s < HAL_CMU_FREQ_QTY /\ min_sysfreq s <= hw s;
  inv_top :
    (top_user s = HAL_SYSFREQ_USER_QTY /\ forall u, per_user s u = 0) \/
    (0 <= top_user s < HAL_SYSFREQ_USER_QTY /\ (forall u, per_user s u <= per_user s (top_user s)) /\
     hw s = revise (min_sysfreq s) (per_user s (top_user s))) }.

(** The parts of the state the invariant reads. *)
Definition arbiter (s : state) := (bundle s, top_user s, min_sysfreq s, hw s).

Lemma inv_core s s' : arbiter s = arbiter s' -> inv s -> inv s'.
Proof.
  unfold arbiter. intros E [H1 H2 H3 H4 H5 H6]. injection E as E1 E2 E3 E4.
  assert (EP : forall u, per_user s u = per_user s' u) by (intros u; unfold per_user; by rewrite E1).
  constructor; rewrite <- ?E1, <- ?E2, <- ?E3, <- ?E4; try assumption.
  - intros u. by rewrite <- EP.
  - by rewrite <- EP.
  - destruct H6 as [[Ht Hz] | (Ht & Hm & Hh)]; [left | right].
    + split; [exact Ht|]. intros u. by rewrite <- EP.
    + split; [exact Ht|]. split; [intros u; by rewrite <- !EP | by rewrite <- EP].
Qed.

Lemma core_add_time idx idle t s : arbiter (add_time idx idle t s) = arbiter s.
Proof. unfold add_time. destruct (nth (Z.to_nat idx) (sysfreq_intvl s) (0, 0)). reflexivity. Qed.

Lemma core_when_time b idx idle t s : arbiter (when b (add_time idx idle t) s) = arbiter s.
Proof. destruct b; [apply core_add_time | reflexivity]. Qed.

Lemma core_raise pmu ulp old new s : arbiter (raise_freq pmu ulp old new s) = (bundle s, top_user s, min_sysfreq s, new).
Proof. destruct pmu, ulp; reflexivity. Qed.

Lemma core_lower pmu ulp old new s : arbiter (lower_freq pmu ulp old new s) = (bundle s, top_user s, min_sysfreq s, new).
Proof. destruct pmu, ulp; reflexivity. Qed.

Lemma per_user_set u f s v :
  length (bundle s) = 40%nat -> 0 <= u < 40 -> 0 <= f < 256 -> 0 <= v ->
  per_user (set_user u f s) v = if v =? u then f else per_user s v.
Proof.
  intros Hl Hu Hf Hv. unfold per_user, set_user. cbn [bundle set_bundle]. rewrite u8_small by lia.
  destruct (Z.eqb_spec v u) as [-> | Hne].
  - apply nth_lookup_Some. apply list_lookup_insert_eq. lia.
  - rewrite !nth_lookup. by rewrite list_lookup_insert_ne by lia.
Qed.

Lemma per_user_out s u : length (bundle s) = 40%nat -> 40 <= u -> per_user s u = 0.
Proof. intros Hl Hu. unfold per_user. apply nth_overflow. lia. Qed.

Lemma per_user_neg s u : u < 0 -> per_user s u = per_user s 0.
Proof. intros H. unfold per_user. f_equal. lia. Qed.

Lemma revise_range min f : 0 <= min < 9 -> 0 <= f < 9 -> 0 < revise min f < 9 /\ min <= revise min f.
Proof.
  intros Hm Hf. unfold revise, HAL_CMU_FREQ_32K, HAL_CMU_FREQ_26M. zcases; lia.
Qed.

(** The frequency the unit runs at needs no revision. *)
Lemma revise_hw min h : 0 < h -> min <= h -> revise min h = h.
Proof.
  intros Hh Hm. unfold revise, HAL_CMU_FREQ_32K. destruct (Z.eqb_spec h 0); [lia|].
  rewrite Z.gtb_ltb. destruct (Z.ltb_spec min h); lia.
Qed.

Lemma top_scan_spec n i b f u :
  0 <= i -> 0 <= u -> f = nth (Z.to_nat u) b 0 ->
  let '(f', u') := top_scan n i b f u in
  f' = nth (Z.to_nat u') b 0 /\ f <= f' /\ (u' = u \/ i <= u' < i + Z.of_nat n) /\
  forall j, i <= j < i + Z.of_nat n -> nth (Z.to_nat j) b 0 <= f'.
Proof.
  revert i f u. induction n as [|n IH]; intros i f u Hi Hu Hf; cbn [top_scan].
  { split; [exact Hf|]. split; [lia|]. split; [by left|]. intros j Hj. lia. }
  cbv zeta. destruct (Z.ltb_spec f (nth (Z.to_nat i) b 0)) as [Hlt | Hge].
  - specialize (IH (i + 1) (nth (Z.to_nat i) b 0) i ltac:(lia) Hi eq_refl).
    destruct (top_scan n (i + 1) b (nth (Z.to_nat i) b 0) i) as [f' u'].
    destruct IH as (H1 & H2 & H3 & H4). split; [exact H1|]. split; [lia|]. split; [right; lia|].
    intros j Hj. destruct (Z.eq_dec j i) as [-> |]; [exact H2 | apply H4; lia].
  - specialize (IH (i + 1) f u ltac:(lia) Hu Hf).
    destruct (top_scan n (i + 1) b f u) as [f' u'].
    destruct IH as (H1 & H2 & H3 & H4). split; [exact H1|]. split; [lia|]. split; [lia|].
    intros j Hj. destruct (Z.eq_dec j i) as [-> |]; [lia | apply H4; lia].
Qed.

(** The frequency in force is what the state records. *)
Lemma get_range s : inv s -> 0 <= hal_sysfreq_get s < 9.
Proof.
  intros H. unfold hal_sysfreq_get. pose proof (inv_freqs s H (top_user s)). pose proof (inv_hw s H).
  unfold HAL_CMU_FREQ_QTY in *. destruct (top_user s <? HAL_SYSFREQ_USER_QTY); lia.
Qed.

Lemma hw_revised s : inv s -> hw s = revise (min_sysfreq s) (hal_sysfreq_get s).
Proof.
  intros H. unfold hal_sysfreq_get. pose proof (inv_hw s H) as [[Hw1 Hw2] Hw3].
  destruct (inv_top s H) as [[Ht _] | (Ht & _ & Hh)].
  - rewrite Ht. simpl. symmetry. apply revise_hw; lia.
  - destruct (Z.ltb_spec (top_user s) HAL_SYSFREQ_USER_QTY); [exact Hh | lia].
Qed.

(** Every user's request is at most the frequency in force. *)
Lemma get_above s u : inv s -> per_user s u <= hal_sysfreq_get s.
Proof.
  intros H. unfold hal_sysfreq_get. destruct (inv_top s H) as [[Ht Hz] | (Ht & Hm & _)].
  - rewrite Ht, Hz. simpl. pose proof (inv_hw s H). lia.
  - destruct (Z.ltb_spec (top_user s) HAL_SYSFREQ_USER_QTY); [apply Hm | lia].
Qed.

(** A state with the bundle of [s1], a top user and the clock set by [revise] is good. *)
Lemma inv_build s1 s' top h :
  length (bundle s1) = 40%nat -> (forall u, 0 <= per_user s1 u < HAL_CMU_FREQ_QTY) -> per_user s1 39 = 0 ->
  0 <= min_sysfreq s1 < HAL_CMU_FREQ_QTY -> 0 <= top < HAL_SYSFREQ_USER_QTY ->
  (forall u, per_user s1 u <= per_user s1 top) -> h = revise (min_sysfreq s1) (per_user s1 top) ->
  arbiter s' = (bundle s1, top, min_sysfreq s1, h) -> inv s'.
Proof.
  intros Hl Hf Hp Hm Ht Hmax Hh Hc. apply inv_core with (mkState (bundle s1) top (min_sysfreq s1) h 0 [] 0 [] []).
  { rewrite Hc. reflexivity. }
  constructor; cbn [bundle top_user min_sysfreq hw]; try assumption.
  - subst h. apply revise_range; [exact Hm | apply Hf].
  - right. split; [exact Ht|]. split; [exact Hmax | exact Hh].
Qed.

Section Requests.
Variables (s : state) (user freq : Z).
Hypothesis HI : inv s.
Hypothesis Hu : 0 <= user < HAL_SYSFREQ_USER_QTY.
Hypothesis Hf : 0 <= freq < HAL_CMU_FREQ_QTY.
Let s1 := set_user user freq s.

Lemma set_user_at v : per_user s1 v = if (v =? user) || ((v <? 0) && (user =? 0)) then freq else per_user s v.
Proof.
  unfold HAL_SYSFREQ_USER_QTY, HAL_CMU_FREQ_QTY in *. destruct (Z.ltb_spec v 0) as [Hv | Hv].
  - rewrite (per_user_neg s1 v Hv), (per_user_neg s v Hv). unfold s1.
    rewrite per_user_set by (lia || apply HI). destruct (Z.eqb_spec v user); [lia|]. cbn [orb andb].
    rewrite (Z.eqb_sym user 0). destruct (0 =? user); reflexivity.
  - rewrite orb_false_r. unfold s1. rewrite per_user_set by (lia || apply HI). reflexivity.
Qed.

Lemma set_user_length : length (bundle s1) = 40%nat.
Proof. unfold s1, set_user. cbn [bundle set_bundle]. rewrite length_insert. apply HI. Qed.

Lemma set_user_freqs v : 0 <= per_user s1 v < HAL_CMU_FREQ_QTY.
Proof. rewrite set_user_at. destruct (_ || _); [exact Hf | apply (inv_freqs s HI)]. Qed.

Lemma set_user_pad : per_user s1 39 = 0.
Proof.
  rewrite set_user_at. unfold HAL_SYSFREQ_USER_QTY in *. destruct (Z.eqb_spec 39 user); [lia|]. simpl. apply (inv_pad s HI).
Qed.

Lemma set_user_self : per_user s1 user = freq.
Proof. rewrite set_user_at, Z.eqb_refl. reflexivity. Qed.

Lemma set_user_le v b : freq <= b -> (forall w, per_user s w <= b) -> per_user s1 v <= b.
Proof. intros H1 H2. rewrite set_user_at. destruct (_ || _); [exact H1 | apply H2]. Qed.

(** The new request becomes the top. *)
Lemma inv_new_top s' :
  (forall w, per_user s w <= freq) -> arbiter s' = (bundle s1, user, min_sysfreq s, revise (min_sysfreq s) freq) -> inv s'.
Proof.
  intros Hmax Hc. apply (inv_build s1 s' user (revise (min_sysfreq s) freq)); try assumption.
  - apply set_user_length.
  - apply set_user_freqs.
  - apply set_user_pad.
  - apply (inv_min s HI).
  - intros v. rewrite set_user_self. by apply set_user_le.
  - by rewrite set_user_self.
Qed.
End Requests.

(** What a request leaves there: the clock follows the revised frequency. *)
Lemma follow_core (b : bool) (g : state -> state) (t : state -> state) s2 old new :
  (forall x, arbiter (g x) = (bundle x, top_user x, min_sysfreq x, new)) -> (forall x, arbiter (t x) = arbiter x) ->
  hw s2 = old -> (b = false -> new = old) ->
  arbiter (t (when b g s2)) = (bundle s2, top_user s2, min_sysfreq s2, new).
Proof.
  intros Hg Ht Ho Hb. rewrite Ht. destruct b; simpl.
  - apply Hg.
  - unfold arbiter. rewrite Ho, Hb; reflexivity.
Qed.

Lemma negb_eqb_false x y : negb (x =? y) = false -> x = y.
Proof. intros H. apply negb_false_iff, Z.eqb_eq in H. exact H. Qed.

Section ReqInv.
Variables pmu ulp stats : bool.
Variables (s : state) (user freq now : Z).
Hypothesis HI : inv s.
Hypothesis Hu : 0 <= user < HAL_SYSFREQ_USER_QTY.
Hypothesis Hf : 0 <= freq < HAL_CMU_FREQ_QTY.
Let s1 := set_user user freq s.
Let cur := hal_sysfreq_get s.

Lemma scan_inv s' :
  (let '(f', u') := top_scan 38 1 (bundle s1) (per_user s1 0) 0 in
   arbiter s' = (bundle s1, u', min_sysfreq s, revise (min_sysfreq s) f')) -> inv s'.
Proof.
  pose proof (top_scan_spec 38 1 (bundle s1) (per_user s1 0) 0 ltac:(lia) ltac:(lia) eq_refl) as HS.
  destruct (top_scan 38 1 (bundle s1) (per_user s1 0) 0) as [f' u']. destruct HS as (H1 & H2 & H3 & H4).
  change (Z.of_nat 38) with 38 in *. intros Hc. change (nth (Z.to_nat u') (bundle s1) 0) with (per_user s1 u') in H1.
  pose proof (set_user_length s user freq HI) as HL. fold s1 in HL.
  pose proof (set_user_pad s user freq HI Hu Hf) as HP. fold s1 in HP.
  pose proof (set_user_freqs s user freq HI Hu Hf) as HF. fold s1 in HF.
  apply (inv_build s1 s' u' (revise (min_sysfreq s) f')); try assumption.
  - apply (inv_min s HI).
  - unfold HAL_SYSFREQ_USER_QTY. lia.
  - intros v. rewrite <- H1. pose proof (HF 0). destruct (Z.ltb_spec v 1) as [Hv | Hv].
    + destruct (Z.eq_dec v 0) as [-> | Hne]; [exact H2 | rewrite per_user_neg by lia; exact H2].
    + destruct (Z.ltb_spec v 39) as [Hv2 | Hv2]; [apply H4; lia|].
      destruct (Z.eq_dec v 39) as [-> | Hne]; [rewrite HP; lia | rewrite per_user_out by (assumption || lia); lia].
  - by rewrite <- H1.
Qed.

Lemma keep_inv : freq < cur -> top_user s <> user -> top_user s <> HAL_SYSFREQ_USER_QTY -> inv s1.
Proof.
  intros Hlt Ht1 Ht2. destruct (inv_top s HI) as [[Ht _] | (Ht & Hm & Hh)]; [contradiction|].
  assert (Ec : cur = per_user s (top_user s)).
  { unfold cur, hal_sysfreq_get. destruct (Z.ltb_spec (top_user s) HAL_SYSFREQ_USER_QTY); [reflexivity | lia]. }
  assert (Et : per_user s1 (top_user s) = per_user s (top_user s)).
  { unfold s1. rewrite (set_user_at s user freq HI Hu Hf). destruct (Z.eqb_spec (top_user s) user); [contradiction|].
    destruct (Z.ltb_spec (top_user s) 0); [lia | reflexivity]. }
  apply (inv_build s1 s1 (top_user s) (hw s)); try reflexivity.
  - apply (set_user_length s user freq HI).
  - apply (set_user_freqs s user freq HI Hu Hf).
  - apply (set_user_pad s user freq HI Hu Hf).
  - apply (inv_min s HI).
  - exact Ht.
  - intros v. rewrite Et, <- Ec. apply (set_user_le s user freq HI Hu Hf); [lia|]. intros w. rewrite Ec. apply Hm.
  - change (min_sysfreq s1) with (min_sysfreq s). rewrite Et. exact Hh.
Qed.

Lemma req_inv : inv (snd (hal_sysfreq_req pmu ulp stats user freq now s)).
Proof.
  unfold hal_sysfreq_req. rewrite !Z.geb_leb, Z.gtb_ltb. fold cur s1.
  destruct (Z.leb_spec HAL_SYSFREQ_USER_QTY user); [lia|].
  destruct (Z.leb_spec HAL_CMU_FREQ_QTY freq); [lia|]. cbv zeta.
  pose proof (hw_revised s HI) as Hhw. fold cur in Hhw.
  destruct (Z.eqb_spec freq cur) as [E | E]; [|destruct (Z.ltb_spec cur freq) as [Hlt | Hge]]; cbn [snd].
  - apply (inv_new_top s user freq HI Hu Hf).
    + intros w. rewrite E. by apply get_above.
    + unfold arbiter. cbn [bundle top_user min_sysfreq hw set_top]. fold s1. rewrite E, <- Hhw. reflexivity.
  - apply (inv_new_top s user freq HI Hu Hf).
    + intros w. pose proof (get_above s w HI). fold cur in H1. lia.
    + apply (follow_core _ (raise_freq pmu ulp _ _) (when _ (add_time _ _ _)) (set_top user s1) (hw s));
        [intros; apply core_raise | intros; apply core_when_time | reflexivity |].
      intros Hb. apply negb_eqb_false in Hb. rewrite Hhw. exact Hb.
  - change (top_user s1) with (top_user s).
    destruct (Z.eqb_spec (top_user s) user) as [Et | Et]; [|destruct (Z.eqb_spec (top_user s) HAL_SYSFREQ_USER_QTY) as [Eq | Eq]]; cbn [orb].
    + apply scan_inv. destruct (top_scan 38 1 (bundle s1) (per_user s1 0) 0) as [f' u'].
      destruct (Z.eqb_spec f' cur) as [Ec | Ec]; cbn [negb snd].
      * unfold arbiter. cbn [bundle top_user min_sysfreq hw set_top]. rewrite Ec, <- Hhw. reflexivity.
      * apply (follow_core _ (lower_freq pmu ulp _ _) (when _ (add_time _ _ _)) (set_top u' s1) (hw s));
          [intros; apply core_lower | intros; apply core_when_time | reflexivity |].
        intros Hb. apply negb_eqb_false in Hb. rewrite Hhw. exact Hb.
    + apply (inv_new_top s user freq HI Hu Hf).
      * intros w. destruct (inv_top s HI) as [[_ Hz] | (Ht & _)]; [rewrite Hz; lia | lia].
      * destruct (Z.eqb_spec freq cur); [contradiction|]. cbn [negb snd].
        apply (follow_core _ (lower_freq pmu ulp _ _) (when _ (add_time _ _ _)) (set_top user s1) (hw s));
          [intros; apply core_lower | intros; apply core_when_time | reflexivity |].
        intros Hb. apply negb_eqb_false in Hb. rewrite Hhw. exact Hb.
    + cbn [snd]. apply keep_inv; [lia | assumption..].
Qed.
End ReqInv.

(** ** The minimum *)
Lemma set_min_core f s :
  inv s -> arbiter (hal_sysfreq_set_min_freq f s) =
    (bundle s, top_user s, f, revise f (hal_sysfreq_get s)).
Proof.
  intros HI. pose proof (hw_revised s HI) as Hh. unfold hal_sysfreq_set_min_freq.
  destruct (Z.eqb_spec (min_sysfreq s) f) as [<- | Hne]; cbn [negb].
  - unfold arbiter. by rewrite <- Hh.
  - cbv zeta. unfold hal_sysfreq_revise_freq. cbn [min_sysfreq set_min].
    destruct (Z.eqb_spec (revise (min_sysfreq s) (hal_sysfreq_get s)) (revise f (hal_sysfreq_get s))) as [E | E]; cbn [negb].
    + unfold arbiter. cbn [bundle top_user min_sysfreq hw set_min]. rewrite Hh, E. reflexivity.
    + reflexivity.
Qed.

Lemma set_min_inv f s : inv s -> 0 <= f < HAL_CMU_FREQ_QTY -> inv (hal_sysfreq_set_min_freq f s).
Proof.
  intros HI Hf. pose proof (set_min_core f s HI) as HC. pose proof (get_range s HI) as HG.
  apply inv_core with (mkState (bundle s) (top_user s) f (revise f (hal_sysfreq_get s)) 0 [] 0 [] []).
  { rewrite HC. reflexivity. }
  destruct HI as [H1 H2 H3 H4 H5 H6]. constructor; cbn [bundle top_user min_sysfreq hw]; try assumption.
  - apply revise_range; [exact Hf | exact HG].
  - destruct H6 as [H6 | (Ht & Hm & _)]; [by left | right]. split; [exact Ht|]. split; [exact Hm|].
    unfold hal_sysfreq_get. destruct (Z.ltb_spec (top_user s) HAL_SYSFREQ_USER_QTY); [reflexivity | lia].
Qed.

(** ** Reachable states *)
Section Reach.
Variables pmu ulp stats : bool.

Definition boot (freq : Z) : state :=
  mkState (replicate 40 0) HAL_SYSFREQ_USER_QTY HAL_CMU_FREQ_32K freq 0 (replicate 39 (0, 0)) 0 (replicate 39 (0, 0)) [].

Inductive reach : state -> Prop :=
| reach_boot f : 0 < f < HAL_CMU_FREQ_QTY -> reach (boot f)
| reach_req s user freq now : reach s -> 0 <= user -> 0 <= freq ->
    reach (snd (hal_sysfreq_req pmu ulp stats user freq now s))
| reach_min s f : reach s -> 0 <= f < HAL_CMU_FREQ_QTY -> reach (hal_sysfreq_set_min_freq f s)
| reach_inc s f : reach s -> 0 <= f < HAL_CMU_FREQ_QTY -> reach (snd (hal_sysfreq_inc_min_freq f s)).

Lemma boot_inv f : 0 < f < HAL_CMU_FREQ_QTY -> inv (boot f).
Proof.
  intros Hf. assert (HZ : forall u, per_user (boot f) u = 0).
  { intros u. unfold per_user. cbn [bundle boot]. rewrite nth_lookup.
    destruct (replicate 40 0 !! Z.to_nat u) eqn:E; [|reflexivity]. apply lookup_replicate in E as [-> _]. reflexivity. }
  constructor; try reflexivity; cbn [min_sysfreq hw boot]; unfold HAL_CMU_FREQ_32K, HAL_CMU_FREQ_QTY in *; try lia.
  - intros u. rewrite HZ. lia.
  - left. split; [reflexivity | exact HZ].
Qed.

Lemma req_refused user freq now s :
  0 <= user -> 0 <= freq -> HAL_SYSFREQ_USER_QTY <= user \/ HAL_CMU_FREQ_QTY <= freq ->
  snd (hal_sysfreq_req pmu ulp stats user freq now s) = s.
Proof.
  intros Hu Hf H. unfold hal_sysfreq_req. rewrite !Z.geb_leb.
  destruct (Z.leb_spec HAL_SYSFREQ_USER_QTY user); [reflexivity|].
  destruct (Z.leb_spec HAL_CMU_FREQ_QTY freq); [reflexivity | lia].
Qed.

Lemma reach_inv s : reach s -> inv s.
Proof.
  induction 1 as [f Hf | s user freq now _ IH Hu Hf | s f _ IH Hf | s f _ IH Hf].
  - by apply boot_inv.
  - destruct (Z.ltb_spec user HAL_SYSFREQ_USER_QTY); [|rewrite req_refused by auto; exact IH].
    destruct (Z.ltb_spec freq HAL_CMU_FREQ_QTY); [|rewrite req_refused by auto; exact IH].
    by apply req_inv.
  - by apply set_min_inv.
  - unfold hal_sysfreq_inc_min_freq. cbn [snd]. destruct (f >? min_sysfreq s); [by apply set_min_inv | exact IH].
Qed.
End Reach.

(** The highest of the requests. *)
Definition highest (s : state) : Z := foldr Z.max 0 (bundle s).

Lemma highest_ge l i : nth i l 0 <= foldr Z.max 0 l.
Proof.
  revert i. induction l as [|x l IH]; intros [|i]; simpl; try lia. specialize (IH i). lia.
Qed.

Lemma highest_le l b : 0 <= b -> (forall i, nth i l 0 <= b) -> foldr Z.max 0 l <= b.
Proof.
  intros Hb. induction l as [|x l IH]; intros H; simpl; [exact Hb|].
  pose proof (H 0%nat) as H0. simpl in H0. assert (foldr Z.max 0 l <= b) by (apply IH; intros i; apply (H (S i))). lia.
Qed.

Lemma highest_top s : inv s -> top_user s < HAL_SYSFREQ_USER_QTY -> per_user s (top_user s) = highest s.
Proof.
  intros HI Hlt. destruct (inv_top s HI) as [[Ht _] | (Ht & Hm & _)]; [lia|].
  pose proof (inv_freqs s HI (top_user s)). unfold highest, per_user in *. apply Z.le_antisymm.
  - apply highest_ge.
  - apply highest_le; [lia|]. intros i. specialize (Hm (Z.of_nat i)). by rewrite Nat2Z.id in Hm.
Qed.

(** ** Idle test *)
Lemma word4_zero a b c d :
  0 <= a -> 0 <= b -> 0 <= c -> 0 <= d ->
  (a + 2 ^ 8 * b + 2 ^ 16 * c + 2 ^ 24 * d =? 0) = (a =? 0) && (b =? 0) && (c =? 0) && (d =? 0).
Proof. intros Ha Hb Hc Hd. destruct (Z.eqb_spec a 0), (Z.eqb_spec b 0), (Z.eqb_spec c 0), (Z.eqb_spec d 0); simpl andb;
  first [apply Z.eqb_eq; lia | apply Z.eqb_neq; lia]. Qed.

Lemma words4_zero n b :
  (forall i, 0 <= nth i b 0) ->
  existsb (fun w => negb (w =? 0)) (words4 n b) = false <-> (forall i, (i < 4 * n)%nat -> nth i b 0 = 0).
Proof.
  revert b. induction n as [|n IH]; intros b Hb; cbn [words4 existsb].
  { split; [intros _ i Hi; lia | reflexivity]. }
  rewrite orb_false_iff, negb_false_iff, word4_zero by apply Hb. rewrite IH.
  - rewrite !andb_true_iff, !Z.eqb_eq. split.
    + intros [[[[H0 H1] H2] H3] HR] i Hi.
      destruct i as [|[|[|[|i]]]]; try assumption. specialize (HR i ltac:(lia)). rewrite nth_lookup, lookup_drop in HR.
      rewrite nth_lookup. exact HR.
    + intros H. split; [repeat split; apply H; lia|]. intros i Hi.
      rewrite nth_lookup, lookup_drop, <- nth_lookup. apply H. lia.
  - intros i. rewrite nth_lookup, lookup_drop, <- nth_lookup. apply Hb.
Qed.

Lemma busy_spec s : inv s -> hal_sysfreq_busy s = 0 <-> forall u, 0 <= u < HAL_SYSFREQ_USER_QTY -> per_user s u = 0.
Proof.
  intros HI. unfold hal_sysfreq_busy.
  assert (Hn : forall i, 0 <= nth i (bundle s) 0).
  { intros i. pose proof (inv_freqs s HI (Z.of_nat i)) as H. unfold per_user in H. rewrite Nat2Z.id in H. lia. }
  pose proof (words4_zero 10 (bundle s) Hn) as HW.
  destruct (existsb _ _); split; try lia.
  - intros H. exfalso. assert (HF : true = false); [|discriminate]. apply HW. intros i Hi.
    destruct (Z.eq_dec (Z.of_nat i) 39) as [E | E].
    + pose proof (inv_pad s HI) as HP. unfold per_user in HP. by replace (Z.to_nat 39) with i in HP by lia.
    + specialize (H (Z.of_nat i) ltac:(unfold HAL_SYSFREQ_USER_QTY; lia)). unfold per_user in H. by rewrite Nat2Z.id in H.
  - intros _ u Hu. unfold per_user. apply HW; [reflexivity|]. unfold HAL_SYSFREQ_USER_QTY in Hu. lia.
Qed.

(** ** The order of the power and clock calls *)
Definition raise_calls (pmu ulp : bool) (old new : Z) : list call :=
  (if pmu then [Pmu_config new] else []) ++ (if ulp then [Low_freq_disable old new] else []) ++ [Sys_set_freq new].
Definition lower_calls (pmu ulp : bool) (old new : Z) : list call :=
  Sys_set_freq new :: (if ulp then [Low_freq_enable old new] else []) ++ (if pmu then [Pmu_config new] else []).

Lemma calls_raise pmu ulp old new s : calls (raise_freq pmu ulp old new s) = calls s ++ raise_calls pmu ulp old new.
Proof. destruct pmu, ulp; cbn; by rewrite <- ?app_assoc. Qed.

Lemma calls_lower pmu ulp old new s : calls (lower_freq pmu ulp old new s) = calls s ++ lower_calls pmu ulp old new.
Proof. destruct pmu, ulp; cbn; by rewrite <- ?app_assoc. Qed.

Lemma calls_time b idx idle t s : calls (when b (add_time idx idle t) s) = calls s.
Proof. destruct b; [|reflexivity]. unfold when, add_time. by destruct (nth _ _ _). Qed.

(** 32K or at least 26M: the frequencies for which the revision is monotone. *)
Definition regular_freq (f : Z) : Prop := f = HAL_CMU_FREQ_32K \/ HAL_CMU_FREQ_26M <= f.

Lemma revise_mono m f g : regular_freq g -> 0 <= f -> f <= g -> regular_freq f -> revise m f <= revise m g.
Proof.
  unfold regular_freq, revise, HAL_CMU_FREQ_32K, HAL_CMU_FREQ_26M. intros Hg Hf Hfg Hr. zcases; lia.
Qed.

(** The calls a request makes when the clock goes from [old] to [new]. *)
Definition ordered_calls (pmu ulp : bool) (old new : Z) (l : list call) : Prop :=
  (new = old /\ l = []) \/ (old < new /\ l = raise_calls pmu ulp old new) \/
  (new < old /\ l = lower_calls pmu ulp old new).

Lemma user_regular s1 u : (forall i, regular_freq (nth i (bundle s1) 0)) -> regular_freq (per_user s1 u).
Proof. intros H. apply H. Qed.

Lemma regular_set s user freq :
  inv s -> 0 <= user < HAL_SYSFREQ_USER_QTY -> 0 <= freq < HAL_CMU_FREQ_QTY -> regular_freq freq ->
  (forall u, regular_freq (per_user s u)) -> forall u, regular_freq (per_user (set_user user freq s) u).
Proof. intros HI Hu Hf Hr H u. rewrite (set_user_at s user freq HI Hu Hf). by destruct (_ || _). Qed.

Lemma follow_calls pmu ulp (up : bool) (b : bool) (t : state -> state) s2 old new :
  (forall x, calls (t x) = calls x) -> b = negb (new =? old) -> (if up then old <= new else new <= old) ->
  exists l, calls (t (when b (if up then raise_freq pmu ulp old new else lower_freq pmu ulp old new) s2)) = calls s2 ++ l /\
            ordered_calls pmu ulp old new l.
Proof.
  intros Ht -> Hup. rewrite Ht. destruct (Z.eqb_spec new old) as [E | E]; cbn [negb when].
  - exists []. rewrite app_nil_r. split; [reflexivity | by left].
  - destruct up; [rewrite calls_raise | rewrite calls_lower]; eexists; (split; [reflexivity|]); right;
      [left | right]; split; lia || reflexivity.
Qed.

Definition follow (pmu ulp up : bool) (old new : Z) : state -> state :=
  if up then raise_freq pmu ulp old new else lower_freq pmu ulp old new.

Lemma hw_time b idx idle t x : hw (when b (add_time idx idle t) x) = hw x.
Proof. pose proof (core_when_time b idx idle t x) as HC. unfold arbiter in HC. by injection HC. Qed.

Lemma follow_ordered pmu ulp up b idx now s s2 new :
  calls s2 = calls s -> hw s2 = hw s -> (if up : bool then hw s <= new else new <= hw s) ->
  exists l, calls (when b (add_time idx false now) (when (negb (new =? hw s)) (follow pmu ulp up (hw s) new) s2)) = calls s ++ l /\
    ordered_calls pmu ulp (hw s)
      (hw (when b (add_time idx false now) (when (negb (new =? hw s)) (follow pmu ulp up (hw s) new) s2))) l.
Proof.
  intros Hc Hw Hup.
  destruct (follow_calls pmu ulp up _ (when b (add_time idx false now)) s2 (hw s) new (calls_time b idx false now) eq_refl Hup)
    as (l & Hl & Ho).
  exists l. unfold follow. rewrite Hl, Hc. split; [reflexivity|]. rewrite hw_time.
  destruct (Z.eqb_spec new (hw s)) as [-> | E]; cbn [negb when]; [by rewrite Hw | by destruct up, pmu, ulp].
Qed.

Lemma no_calls pmu ulp s x :
  calls x = calls s -> hw x = hw s -> exists l, calls x = calls s ++ l /\ ordered_calls pmu ulp (hw s) (hw x) l.
Proof. intros Hc Hw. exists []. rewrite app_nil_r, Hw. split; [exact Hc | by left]. Qed.

Section Order.
Variables pmu ulp stats : bool.
Variables (s : state) (user freq now : Z).
Hypothesis HI : inv s.
Hypothesis Hu : 0 <= user < HAL_SYSFREQ_USER_QTY.
Hypothesis Hf : 0 <= freq < HAL_CMU_FREQ_QTY.
Hypothesis Hreg : regular_freq freq.
Hypothesis Hregs : forall u, regular_freq (per_user s u).
Hypothesis Hcur : regular_freq (hal_sysfreq_get s).

Lemma req_calls :
  let s' := snd (hal_sysfreq_req pmu ulp stats user freq now s) in
  exists l, calls s' = calls s ++ l /\ ordered_calls pmu ulp (hw s) (hw s') l.
Proof.
  cbv zeta. pose proof (hw_revised s HI) as Hhw.
  unfold hal_sysfreq_req. rewrite !Z.geb_leb, Z.gtb_ltb.
  destruct (Z.leb_spec HAL_SYSFREQ_USER_QTY user); [lia|].
  destruct (Z.leb_spec HAL_CMU_FREQ_QTY freq); [lia|]. cbv zeta.
  set (cur := hal_sysfreq_get s) in *. set (s1 := set_user user freq s).
  unfold hal_sysfreq_revise_freq.
  assert (Hmin : forall u, min_sysfreq (set_top u s1) = min_sysfreq s) by reflexivity.
  pose proof (get_range s HI) as HG. fold cur in HG.
  destruct (Z.eqb_spec freq cur) as [E | E]; [by apply no_calls|].
  destruct (Z.ltb_spec cur freq) as [Hlt | Hge]; cbn [snd].
  - rewrite !Hmin, <- Hhw. apply (follow_ordered pmu ulp true); try reflexivity. rewrite Hhw. apply revise_mono; lia || assumption.
  - change (top_user s1) with (top_user s).
    destruct (Z.eqb_spec (top_user s) user) as [Et | Et];
      [|destruct (Z.eqb_spec (top_user s) HAL_SYSFREQ_USER_QTY) as [Eq | Eq]]; cbn [orb].
    + assert (HF : forall v, 0 <= per_user s1 v <= cur /\ regular_freq (per_user s1 v)).
      { intros v. split; [split|].
        - apply (set_user_freqs s user freq HI Hu Hf).
        - apply (set_user_le s user freq HI Hu Hf); [lia | intros w; by apply get_above].
        - by apply regular_set. }
      pose proof (top_scan_spec 38 1 (bundle s1) (per_user s1 0) 0 ltac:(lia) ltac:(lia) eq_refl) as HS.
      destruct (top_scan 38 1 (bundle s1) (per_user s1 0) 0) as [f' u']. destruct HS as (H1 & _).
      change (nth (Z.to_nat u') (bundle s1) 0) with (per_user s1 u') in H1. destruct (HF u') as [HF1 HF2].
      rewrite <- H1 in HF1, HF2. destruct (Z.eqb_spec f' cur); cbn [negb snd]; [by apply no_calls|].
      rewrite !Hmin, <- Hhw. apply (follow_ordered pmu ulp false); try reflexivity. rewrite Hhw. apply revise_mono; lia || assumption.
    + destruct (Z.eqb_spec freq cur); [contradiction|]. cbn [negb snd].
      rewrite !Hmin, <- Hhw. apply (follow_ordered pmu ulp false); try reflexivity. rewrite Hhw. apply revise_mono; lia || assumption.
    + by apply no_calls.
Qed.
End Order.

(** * Properties *)

(** C20: in every reachable state the clock unit runs at what [hal_sysfreq_get_hw_freq] answers, and
    once a request is in force that is the highest of the requests, revised by the minimum. *)
Theorem sysfreq_clock pmu ulp stats s :
  reach pmu ulp stats s ->
  hw s = hal_sysfreq_get_hw_freq s /\
  (top_user s < HAL_SYSFREQ_USER_QTY -> hw s = revise (min_sysfreq s) (highest s)).
Proof.
  intros HR. pose proof (reach_inv pmu ulp stats s HR) as HI. pose proof (hw_revised s HI) as Hh. split.
  - unfold hal_sysfreq_get_hw_freq, hal_sysfreq_get in *.
    destruct (top_user s <? HAL_SYSFREQ_USER_QTY); [exact Hh | reflexivity].
  - intros Ht. rewrite Hh. unfold hal_sysfreq_get. destruct (Z.ltb_spec (top_user s) HAL_SYSFREQ_USER_QTY); [|lia].
    by rewrite (highest_top s HI Ht).
Qed.

Lemma boot_208 : reach true true true (boot 3).
Proof. apply reach_boot. unfold HAL_CMU_FREQ_QTY. lia. Qed.

Lemma sysfreq_clock_witness :
  let s := snd (hal_sysfreq_req true true true 4 6 100 (boot 3)) in
  hw s = hal_sysfreq_get_hw_freq s /\ (top_user s < HAL_SYSFREQ_USER_QTY -> hw s = revise (min_sysfreq s) (highest s)).
Proof. apply (sysfreq_clock true true true). apply reach_req; [apply boot_208 | lia | lia]. Defined.

(** The clock is never below any user's request nor below the minimum, and never the 32K
    oscillator. *)
Theorem sysfreq_grants pmu ulp stats s :
  reach pmu ulp stats s ->
  (forall u, per_user s u <= hw s) /\ min_sysfreq s <= hw s /\ hw s <> HAL_CMU_FREQ_32K.
Proof.
  intros HR. pose proof (reach_inv pmu ulp stats s HR) as HI. pose proof (inv_hw s HI) as [Hw Hm].
  split; [|split; [exact Hm | unfold HAL_CMU_FREQ_32K; lia]].
  intros u. rewrite (hw_revised s HI). pose proof (get_above s u HI). pose proof (get_range s HI).
  unfold revise, HAL_CMU_FREQ_32K, HAL_CMU_FREQ_26M. zcases; lia.
Qed.

Lemma sysfreq_grants_witness :
  let s := snd (hal_sysfreq_req true false false 4 6 100 (boot 3)) in
  (forall u, per_user s u <= hw s) /\ min_sysfreq s <= hw s /\ hw s <> HAL_CMU_FREQ_32K.
Proof. apply (sysfreq_grants true false false). apply reach_req; [apply reach_boot; unfold HAL_CMU_FREQ_QTY; lia | lia | lia]. Defined.

Lemma when_bundle (b : bool) f s : (forall x, bundle (f x) = bundle x) -> bundle (when b f s) = bundle s.
Proof. intros H. destruct b; [apply H | reflexivity]. Qed.

Lemma bundle_time idx idle t x : bundle (add_time idx idle t x) = bundle x.
Proof. pose proof (core_add_time idx idle t x) as HC. unfold arbiter in HC. by injection HC. Qed.

Lemma bundle_raise pmu ulp old new s : bundle (raise_freq pmu ulp old new s) = bundle s.
Proof. by destruct pmu, ulp. Qed.

Lemma bundle_lower pmu ulp old new s : bundle (lower_freq pmu ulp old new s) = bundle s.
Proof. by destruct pmu, ulp. Qed.

Lemma req_bundle pmu ulp stats user freq now s :
  user < HAL_SYSFREQ_USER_QTY -> freq < HAL_CMU_FREQ_QTY ->
  fst (hal_sysfreq_req pmu ulp stats user freq now s) = 0 /\
  bundle (snd (hal_sysfreq_req pmu ulp stats user freq now s)) = bundle (set_user user freq s).
Proof.
  intros Hu Hf. unfold hal_sysfreq_req. rewrite !Z.geb_leb, Z.gtb_ltb.
  destruct (Z.leb_spec HAL_SYSFREQ_USER_QTY user); [lia|]. destruct (Z.leb_spec HAL_CMU_FREQ_QTY freq); [lia|]. cbv zeta.
  destruct (freq =? hal_sysfreq_get s); [done|]. destruct (hal_sysfreq_get s <? freq); cbn [fst snd].
  - rewrite when_bundle, when_bundle; [done | intros; apply bundle_raise | intros; apply bundle_time].
  - destruct (_ || _); [|done]. match goal with |- context [let '(_, _) := ?x in _] => destruct x as [f' u'] end. destruct (negb (f' =? _)); cbn [fst snd]; [|done].
    rewrite when_bundle, when_bundle; [done | intros; apply bundle_lower | intros; apply bundle_time].
Qed.

(** A request of a valid user for a valid frequency answers 0, records the request and leaves
    every other user's; an invalid user answers 1 and an invalid frequency 2, with nothing
    changed. *)
Theorem sysfreq_req_spec pmu ulp stats user freq now s :
  length (bundle s) = 40%nat -> 0 <= user -> 0 <= freq ->
  let '(r, s') := hal_sysfreq_req pmu ulp stats user freq now s in
  (HAL_SYSFREQ_USER_QTY <= user -> r = 1 /\ s' = s) /\
  (user < HAL_SYSFREQ_USER_QTY -> HAL_CMU_FREQ_QTY <= freq -> r = 2 /\ s' = s) /\
  (user < HAL_SYSFREQ_USER_QTY -> freq < HAL_CMU_FREQ_QTY ->
     r = 0 /\ forall v, 0 <= v -> per_user s' v = (if v =? user then freq else per_user s v)).
Proof.
  intros Hl Hu Hf. destruct (hal_sysfreq_req pmu ulp stats user freq now s) as [r s'] eqn:E. split; [|split].
  - intros H. unfold hal_sysfreq_req in E. rewrite !Z.geb_leb in E.
    destruct (Z.leb_spec HAL_SYSFREQ_USER_QTY user); [by injection E as <- <- | lia].
  - intros H1 H2. unfold hal_sysfreq_req in E. rewrite !Z.geb_leb in E.
    destruct (Z.leb_spec HAL_SYSFREQ_USER_QTY user); [lia|].
    destruct (Z.leb_spec HAL_CMU_FREQ_QTY freq); [by injection E as <- <- | lia].
  - intros H1 H2. destruct (req_bundle pmu ulp stats user freq now s H1 H2) as [Hr Hb]. rewrite E in Hr, Hb.
    split; [exact Hr|]. intros v Hv. cbn [snd] in Hb.
    rewrite <- (per_user_set user freq s v); [unfold per_user; by rewrite Hb | exact Hl | | | exact Hv];
      unfold HAL_SYSFREQ_USER_QTY, HAL_CMU_FREQ_QTY in *; lia.
Qed.

Lemma sysfreq_req_spec_witness :
  let '(r, s') := hal_sysfreq_req true true true 4 6 100 (boot 3) in
  (HAL_SYSFREQ_USER_QTY <= 4 -> r = 1 /\ s' = boot 3) /\
  (4 < HAL_SYSFREQ_USER_QTY -> HAL_CMU_FREQ_QTY <= 6 -> r = 2 /\ s' = boot 3) /\
  (4 < HAL_SYSFREQ_USER_QTY -> 6 < HAL_CMU_FREQ_QTY ->
     r = 0 /\ forall v, 0 <= v -> per_user s' v = (if v =? 4 then 6 else per_user (boot 3) v)).
Proof. apply (sysfreq_req_spec true true true 4 6 100 (boot 3) eq_refl); lia. Defined.

(** [hal_sysfreq_busy] answers 0 exactly when no user asks for more than 32K. *)
Theorem sysfreq_busy_iff pmu ulp stats s :
  reach pmu ulp stats s ->
  hal_sysfreq_busy s = 0 <-> forall u, 0 <= u < HAL_SYSFREQ_USER_QTY -> per_user s u = HAL_CMU_FREQ_32K.
Proof. intros HR. apply busy_spec, (reach_inv pmu ulp stats s HR). Qed.

Lemma sysfreq_busy_iff_witness :
  hal_sysfreq_busy (boot 3) = 0 <-> forall u, 0 <= u < HAL_SYSFREQ_USER_QTY -> per_user (boot 3) u = HAL_CMU_FREQ_32K.
Proof. exact (sysfreq_busy_iff true true true (boot 3) boot_208). Defined.

(** When all requests are 32K or at least 26M, a request that raises the clock configures the
    power unit first and the clock last, one that lowers it sets the clock first and the power
    unit last, and one that leaves it makes no call. *)
Theorem sysfreq_call_order pmu ulp stats s user freq now :
  reach pmu ulp stats s -> 0 <= user < HAL_SYSFREQ_USER_QTY -> 0 <= freq < HAL_CMU_FREQ_QTY ->
  regular_freq freq -> (forall u, regular_freq (per_user s u)) -> regular_freq (hal_sysfreq_get s) ->
  let s' := snd (hal_sysfreq_req pmu ulp stats user freq now s) in
  exists l, calls s' = calls s ++ l /\ ordered_calls pmu ulp (hw s) (hw s') l.
Proof. intros HR. apply req_calls. apply (reach_inv pmu ulp stats s HR). Qed.

Lemma sysfreq_call_order_witness :
  exists l, calls (snd (hal_sysfreq_req true true true 4 6 100 (boot 3))) = [] ++ l /\
    ordered_calls true true 3 6 l.
Proof.
  apply (sysfreq_call_order true true true (boot 3) 4 6 100 boot_208); unfold HAL_SYSFREQ_USER_QTY, HAL_CMU_FREQ_QTY; try lia.
  - right. unfold HAL_CMU_FREQ_26M. lia.
  - intros u. left. unfold per_user. cbn [bundle boot]. rewrite nth_lookup.
    destruct (replicate 40 0 !! Z.to_nat u) eqn:E; [|reflexivity]. apply lookup_replicate in E as [-> _]. reflexivity.
  - right. vm_compute. discriminate.
Defined.

(** With 6.5M requests the order is lost: from a state where every user asks for 32K, and the
    clock is 26M, a request for 6.5M lowers the power configuration before the clock. *)
Theorem sysfreq_order_6P5M :
  exists s, reach true false false s /\ hw s = HAL_CMU_FREQ_26M /\
    calls (snd (hal_sysfreq_req true false false 4 HAL_CMU_FREQ_6P5M 0 s)) =
      calls s ++ [Pmu_config HAL_CMU_FREQ_6P5M; Sys_set_freq HAL_CMU_FREQ_6P5M].
Proof.
  exists (snd (hal_sysfreq_req true false false 0 HAL_CMU_FREQ_32K 0 (boot 3))). split; [|split; vm_compute; reflexivity].
  apply reach_req; [apply reach_boot; unfold HAL_CMU_FREQ_QTY; lia | lia | unfold HAL_CMU_FREQ_32K; lia].
Qed.

(** The size 312 of the statistics table does not fit the [uint8_t] parameter of the copy: only
    seven rows are copied, so the rows of 144M and 208M are never reported. *)
Theorem sysfreq_stat_rows t s :
  (7 <= length (sysfreq_intvl s))%nat ->
  drop 7 (stat_intvl (hal_sysfreq_print_freq_stats t s)) = drop 7 (stat_intvl s).
Proof.
  intros Hl. unfold hal_sysfreq_print_freq_stats, add_time. destruct (nth _ _ _) as [b i]. cbv zeta.
  cbn [sysfreq_intvl set_intvl]. destruct (negb _); [|reflexivity].
  unfold system_sysfreq_stat_update. change (Z.to_nat (u8 SIZEOF_INTVL / 8)) with 7%nat.
  cbn [stat_intvl set_stat set_intvl].
  rewrite drop_app_length'; [reflexivity|]. rewrite length_take, length_insert. lia.
Qed.

Lemma sysfreq_stat_rows_witness :
  drop 7 (stat_intvl (hal_sysfreq_print_freq_stats 500 (boot 8))) = replicate 32 (0, 0).
Proof. apply (sysfreq_stat_rows 500 (boot 8)). simpl. lia. Defined.
