(* ===== verification/NvBt.v ===== *)
(** The list of paired devices of apps/nv_section/userdata_section/nvrecord_bt.c: a bounded,
    most-recently-used list kept in an array, with its search, insertion, deletion and
    reordering, the per-device settings, the stash and the flag that asks for a flash write. *)
From Stdlib Require Import ZArith Lia Bool.
From stdpp Require Import base list option.
From S2P Require Import Prelude.

(** ** Data *)
Definition MAX_BT_PAIRED_DEVICE_COUNT : nat := 8.

(** [btif_device_record_t]: bytes and booleans only, so [memcmp] is equality of the fields. *)
Record btif_device_record := mkRec {
  bdAddr : list Z; trusted : bool; for_bt_source : bool; linkKey : list Z;
  keyType : Z; pinLen : Z; cod : list Z; remote_dev_name : list Z }.

Record bt_dip_pnp_info := mkPnp {
  spec_id : Z; vend_id : Z; prod_id : Z; prod_ver : Z; prim_rec : Z; vend_id_source : Z }.

(** [nvrec_btdevicerecord], the volume and profile structures inlined. *)
Record nvrec := mkNvrec {
  record : btif_device_record;
  a2dp_vol : Z; hfp_vol : Z;
  hfp_act : bool; a2dp_abs_vol : Z; a2dp_act : bool; a2dp_codectype : Z;
  pnp_info : bt_dip_pnp_info }.

#[export] Instance record_eq_dec : EqDecision btif_device_record.
Proof. solve_decision. Defined.
#[export] Instance pnp_eq_dec : EqDecision bt_dip_pnp_info.
Proof. solve_decision. Defined.
#[export] Instance nvrec_eq_dec : EqDecision nvrec.
Proof. solve_decision. Defined.

(** [memset(.., 0, ..)]. *)
Definition zero_record : btif_device_record :=
  mkRec (replicate 6 0) false false (replicate 16 0) 0 0 (replicate 3 0) (replicate 32 0).
Definition zero_nvrec : nvrec := mkNvrec zero_record 0 0 false 0 false 0 (mkPnp 0 0 0 0 0 0).

(** [NV_RECORD_PAIRED_BT_DEV_INFO_T]. *)
Record dev_info := mkInfo { pairedDevNum : nat; pairedBtDevInfo : list nvrec }.

Inductive cb_index := NEW_DEVICE_CB_MOBILE | NEW_DEVICE_CB_TWS | NEW_DEVICE_CB_ANY_DEVICE | NEW_DEVICE_CB_USER1.

#[export] Instance cb_index_eq_dec : EqDecision cb_index.
Proof. solve_decision. Defined.

(** The module's state: whether [nvrecord_extension_p] is set, the list and its stash, the flag of
    a pending flash write, the registered callbacks (not null), the last new address, and the
    callbacks called, in order. *)
Record nv_state := mkNv {
  ready : bool; bt_pair_info : dev_info; bt_pair_info_cache : dev_info; is_update : bool;
  callbacks : cb_index -> bool; LatestNewlyPairedDeviceBtAddr : list Z;
  events : list (cb_index * list Z) }.

Definition set_info (i : dev_info) (s : nv_state) : nv_state :=
  mkNv (ready s) i (bt_pair_info_cache s) (is_update s) (callbacks s) (LatestNewlyPairedDeviceBtAddr s) (events s).
Definition set_cache (i : dev_info) (s : nv_state) : nv_state :=
  mkNv (ready s) (bt_pair_info s) i (is_update s) (callbacks s) (LatestNewlyPairedDeviceBtAddr s) (events s).
Definition set_callbacks (f : cb_index -> bool) (s : nv_state) : nv_state :=
  mkNv (ready s) (bt_pair_info s) (bt_pair_info_cache s) (is_update s) f (LatestNewlyPairedDeviceBtAddr s) (events s).
Definition set_latest (a : list Z) (s : nv_state) : nv_state :=
  mkNv (ready s) (bt_pair_info s) (bt_pair_info_cache s) (is_update s) (callbacks s) a (events s).
Definition add_event (c : cb_index) (a : list Z) (s : nv_state) : nv_state :=
  mkNv (ready s) (bt_pair_info s) (bt_pair_info_cache s) (is_update s) (callbacks s) (LatestNewlyPairedDeviceBtAddr s) (events s ++ [(c, a)]).

(** A call of nv_record_update_runtime_userdata, through [nv_record_extension_update]. *)
Definition request_userdata_update (s : nv_state) : nv_state :=
  mkNv (ready s) (bt_pair_info s) (bt_pair_info_cache s) true (callbacks s) (LatestNewlyPairedDeviceBtAddr s) (events s).

(** ** Array primitives *)
Definition loop {A} (n : nat) (f : nat -> A -> A) (a : A) : A := fold_left (fun a k => f k a) (seq 0 n) a.

(** [memcpy(&arr[i], &arr[j], sizeof)]. *)
Definition copy_entry (i j : nat) (l : list nvrec) : list nvrec := <[i := nth j l zero_nvrec]> l.

(** [for k < n: arr[t - k] = arr[t - 1 - k]]. *)
Definition move_down (t n : nat) (l : list nvrec) : list nvrec := loop n (fun k => copy_entry (t - k) (t - 1 - k)) l.
(** [for k < n: arr[i + k] = arr[i + 1 + k]]. *)
Definition move_up (i n : nat) (l : list nvrec) : list nvrec := loop n (fun k => copy_entry (i + k) (i + 1 + k)) l.

(** [nv_record_get_bt_pairing_info_index]: [None] for -1. *)
Fixpoint index_loop (n i : nat) (l : list nvrec) (btAddr : list Z) : option nat :=
  match n with
  | O => None
  | S n' => if decide (bdAddr (record (nth i l zero_nvrec)) = btAddr) then Some i else index_loop n' (S i) l btAddr
  end.

Definition nv_record_get_bt_pairing_info_index (i : dev_info) (btAddr : list Z) : option nat :=
  index_loop (pairedDevNum i) 0 (pairedBtDevInfo i) btAddr.

Definition nth_dev (s : nv_state) (i : nat) : nvrec := nth i (pairedBtDevInfo (bt_pair_info s)) zero_nvrec.

(** ** Reading the list *)
Definition nv_record_get_paired_dev_count (s : nv_state) : Z :=
  if ready s then Z.of_nat (pairedDevNum (bt_pair_info s)) else 0.

(** The answer and what is copied to [record1] and [record2]. *)
Definition nv_record_enum_latest_two_paired_dev (s : nv_state) : Z * list btif_device_record :=
  if negb (ready s) then (-1, [])
  else if (0 <? pairedDevNum (bt_pair_info s))%nat then
    if (pairedDevNum (bt_pair_info s) =? 1)%nat then (1, [record (nth_dev s 0)])
    else (2, [record (nth_dev s 0); record (nth_dev s 1)])
  else (0, []).

(** The records copied to the caller's array, in order; the answer is their number. *)
Fixpoint sink_loop (n i : nat) (l : list nvrec) (max_num : nat) (acc : list btif_device_record) : list btif_device_record :=
  match n with
  | O => acc
  | S n' =>
      let e := record (nth i l zero_nvrec) in
      let acc' := if for_bt_source e then acc ++ [e] else acc in
      if (max_num <=? length acc')%nat then acc' else sink_loop n' (S i) l max_num acc'
  end.

Definition nv_record_get_sink_paired_dev (s : nv_state) (max_num : nat) : Z * list btif_device_record :=
  if negb (ready s) then (-1, [])
  else let r := sink_loop (pairedDevNum (bt_pair_info s)) 0 (pairedBtDevInfo (bt_pair_info s)) max_num [] in
       (Z.of_nat (length r), r).

(** The number and the array whose address is returned. *)
Definition nv_record_get_paired_dev_list (s : nv_state) : Z * option (list nvrec) :=
  if negb (ready s) then (-1, None)
  else if (0 <? pairedDevNum (bt_pair_info s))%nat
  then (Z.of_nat (pairedDevNum (bt_pair_info s)), Some (pairedBtDevInfo (bt_pair_info s)))
  else (0, None).

(** [None] where the code reads through the null pointer: the number is read before the test. *)
Definition nv_record_enum_dev_records (s : nv_state) (index : nat) : option (bt_status * option btif_device_record) :=
  if negb (ready s) then None
  else if (pairedDevNum (bt_pair_info s) <=? index)%nat then Some (BT_STS_FAILED, None)
  else Some (BT_STS_SUCCESS, Some (record (nth_dev s index))).

Definition nv_record_ddbrec_find (s : nv_state) (addr : list Z) : bt_status * option btif_device_record :=
  if negb (ready s) then (BT_STS_FAILED, None)
  else match nv_record_get_bt_pairing_info_index (bt_pair_info s) addr with
       | None => (BT_STS_FAILED, None)
       | Some i => (BT_STS_SUCCESS, Some (record (nth_dev s i)))
       end.

(** The index of the entry whose address is returned, [None] for -1. *)
Definition nv_record_btdevicerecord_find (s : nv_state) (addr : list Z) : option nat :=
  if negb (ready s) then None else nv_record_get_bt_pairing_info_index (bt_pair_info s) addr.

Definition nv_record_get_pnp_info (s : nv_state) (addr : list Z) : bool * option bt_dip_pnp_info :=
  match nv_record_btdevicerecord_find s addr with
  | Some i => if negb (vend_id (pnp_info (nth_dev s i)) =? 0) then (true, Some (pnp_info (nth_dev s i))) else (false, None)
  | None => (false, None)
  end.

(** ** Callbacks *)
Definition nv_record_bt_device_register_newly_paired_device_callback (index : cb_index) (func : bool) (s : nv_state) : nv_state :=
  set_callbacks (fun c => if decide (c = index) then func else callbacks s c) s.

(** [NEW_DEVICE_CB_ANY_DEVICE] gets the default callback, the others none. *)
Definition nvrecord_bt_init (s : nv_state) : nv_state :=
  set_callbacks (fun c => match c with NEW_DEVICE_CB_ANY_DEVICE => true | _ => false end) s.

(** The default callback keeps the address; a client's own callback is only recorded. *)
Definition call_callback (default : bool) (c : cb_index) (a : list Z) (s : nv_state) : nv_state :=
  if callbacks s c then add_event c a (if default then set_latest a s else s) else s.

Section Platform.
(** The build option IBRT and the platform's answers: the TWS test, the default volume index and
    its conversion to the remote scale. [default_any] says that the callback for any device is
    still the default one. *)
Variable ibrt : bool.
Variable is_tws_addr : list Z -> bool.
Variable default_dac_volume : Z.
Variable local_vol_to_bt_vol : Z -> Z.
Variable default_any : bool.

Definition nv_record_bt_distribute_new_dev_paired_event (a : list Z) (s : nv_state) : nv_state :=
  let s1 := call_callback default_any NEW_DEVICE_CB_ANY_DEVICE a s in
  let s2 := call_callback false NEW_DEVICE_CB_USER1 a s1 in
  if ibrt && is_tws_addr a then call_callback false NEW_DEVICE_CB_TWS a s2
  else call_callback false NEW_DEVICE_CB_MOBILE a s2.

Definition nv_record_pairing_info_reset (e : nvrec) : nvrec :=
  mkNvrec (record e) (u8 default_dac_volume) (u8 default_dac_volume) false
    (local_vol_to_bt_vol (u8 default_dac_volume)) false (a2dp_codectype e)
    (mkPnp (spec_id (pnp_info e)) 0 (prod_id (pnp_info e)) (prod_ver (pnp_info e)) (prim_rec (pnp_info e)) 0).

Definition with_record (r : btif_device_record) (e : nvrec) : nvrec :=
  mkNvrec r (a2dp_vol e) (hfp_vol e) (hfp_act e) (a2dp_abs_vol e) (a2dp_act e) (a2dp_codectype e) (pnp_info e).

Definition set_nth (i : nat) (e : nvrec) (l : list nvrec) : list nvrec := <[i := e]> l.

Definition set_devs (n : nat) (l : list nvrec) (s : nv_state) : nv_state := set_info (mkInfo n l) s.

Definition nonzero_key (r : btif_device_record) : bool := bool_decide (linkKey r <> replicate 16 0).

(** The new entry goes to the head, the last one leaves a full list. *)
Definition add_new (param_rec : btif_device_record) (s : nv_state) : nv_state :=
  let n := pairedDevNum (bt_pair_info s) in
  let l := pairedBtDevInfo (bt_pair_info s) in
  let full := (n =? MAX_BT_PAIRED_DEVICE_COUNT)%nat in
  let l1 := if full then move_down (MAX_BT_PAIRED_DEVICE_COUNT - 1) (MAX_BT_PAIRED_DEVICE_COUNT - 1) l
            else move_down n n l in
  let n1 := if full then (n - 1)%nat else n in
  let l2 := set_nth 0 (nv_record_pairing_info_reset (with_record param_rec zero_nvrec)) l1 in
  let s1 := set_devs (n1 + 1) l2 s in
  if nonzero_key param_rec then nv_record_bt_distribute_new_dev_paired_event (bdAddr param_rec) s1 else s1.

(** An existing entry moves to the head; the answer says that flash has to be written. *)
Definition add_existing (idx : nat) (param_rec : btif_device_record) (s : nv_state) : bool * nv_state :=
  let n := pairedDevNum (bt_pair_info s) in
  let l := pairedBtDevInfo (bt_pair_info s) in
  let changed := negb (bool_decide (record (nth idx l zero_nvrec) = param_rec)) in
  let s1 := if changed then nv_record_bt_distribute_new_dev_paired_event (bdAddr (record (nth idx l zero_nvrec))) s else s in
  let '(upd, l1) :=
    if (0 <? idx)%nat then
      (true, set_nth 0 (with_record param_rec (nth idx l zero_nvrec)) (set_nth 0 (nth idx l zero_nvrec) (move_down idx idx l)))
    else if negb (bool_decide (record (nth 0 l zero_nvrec) = param_rec)) then
      (true, set_nth 0 (with_record param_rec (nth 0 l zero_nvrec)) l)
    else (false, l) in
  let l2 := if changed then set_nth 0 (nv_record_pairing_info_reset (nth 0 l1 zero_nvrec)) l1 else l1 in
  (upd, set_devs n l2 s1).

Definition nv_record_ddbrec_add (param_rec : btif_device_record) (s : nv_state) : bt_status * nv_state :=
  if negb (ready s) then (BT_STS_FAILED, s)
  else
    let '(isUpdateNv, s1) :=
      match nv_record_get_bt_pairing_info_index (bt_pair_info s) (bdAddr param_rec) with
      | None => (true, add_new param_rec s)
      | Some idx => add_existing idx param_rec s
      end in
    (BT_STS_SUCCESS, if isUpdateNv then request_userdata_update s1 else s1).

(** [section] is [section_usrdata_ddbrecord] when true. *)
Definition nv_record_add (section : bool) (r : option btif_device_record) (s : nv_state) : bt_status * nv_state :=
  match r with
  | Some r => if section then nv_record_ddbrec_add r s else (BT_STS_FAILED, s)
  | None => (BT_STS_FAILED, s)
  end.
End Platform.

(** ** Reordering, deletion, clearing *)
Definition nv_record_change_order (s : nv_state) (r : btif_device_record) (target : nat) : option (bt_status * nv_state) :=
  if negb (ready s) then None
  else if (pairedDevNum (bt_pair_info s) <=? target)%nat then Some (BT_STS_FAILED, s)
  else
    match nv_record_get_bt_pairing_info_index (bt_pair_info s) (bdAddr r) with
    | None => Some (BT_STS_FAILED, s)
    | Some cur =>
        let l := pairedBtDevInfo (bt_pair_info s) in
        if negb (bool_decide (nth target l zero_nvrec = nth cur l zero_nvrec)) then
          let tmp := nth cur l zero_nvrec in
          let l1 := if (cur <? target)%nat then move_up cur (target - cur) l
                    else if (target <? cur)%nat then move_down cur (cur - target) l else l in
          let l2 := set_nth target tmp l1 in
          Some (BT_STS_SUCCESS, request_userdata_update (set_devs (pairedDevNum (bt_pair_info s)) l2 s))
        else Some (BT_STS_FAILED, s)
    end.

Definition nv_record_ddbrec_clear (s : nv_state) : bt_status * nv_state :=
  if negb (ready s) then (BT_STS_FAILED, s)
  else (BT_STS_SUCCESS, request_userdata_update (set_devs 0 (pairedBtDevInfo (bt_pair_info s)) s)).

Definition nv_record_ddbrec_delete (addr : list Z) (s : nv_state) : bt_status * nv_state :=
  if negb (ready s) then (BT_STS_FAILED, s)
  else
    match nv_record_get_bt_pairing_info_index (bt_pair_info s) addr with
    | None => (BT_STS_FAILED, s)
    | Some idx =>
        let n := pairedDevNum (bt_pair_info s) in
        let l1 := move_up idx (n - idx - 1) (pairedBtDevInfo (bt_pair_info s)) in
        let l2 := set_nth (n - 1) zero_nvrec l1 in
        (BT_STS_SUCCESS, request_userdata_update (set_devs (n - 1) l2 s))
    end.

Definition nv_record_ddbrec_clear_all_bt_paired_list (s : nv_state) : bt_status * nv_state :=
  if negb (ready s) then (BT_STS_FAILED, s)
  else
    let l := loop (pairedDevNum (bt_pair_info s)) (fun k => set_nth k zero_nvrec) (pairedBtDevInfo (bt_pair_info s)) in
    (BT_STS_SUCCESS, request_userdata_update (set_devs 0 l s)).

Definition nvrecord_rebuild_paired_bt_dev_info : dev_info := mkInfo 0 (replicate MAX_BT_PAIRED_DEVICE_COUNT zero_nvrec).

Definition nv_record_stash_original_bt_record (s : nv_state) : bt_status * nv_state :=
  if negb (ready s) then (BT_STS_FAILED, s)
  else (BT_STS_SUCCESS, request_userdata_update
          (set_info nvrecord_rebuild_paired_bt_dev_info (set_cache (bt_pair_info s) s))).

Definition nv_record_pop_original_bt_record (s : nv_state) : bt_status * nv_state :=
  if negb (ready s) then (BT_STS_FAILED, s)
  else (BT_STS_SUCCESS, request_userdata_update (set_info (bt_pair_info_cache s) s)).

(** ** Settings of one device: the entry [i] of the array

    [changed] compares the new value with the stored one; some setters store in any case. *)
Definition update_dev (i : nat) (changed : nvrec -> bool) (f : nvrec -> nvrec) (s : nv_state) : nv_state :=
  let e := nth_dev s i in
  let s1 := if changed e then request_userdata_update s else s in
  set_devs (pairedDevNum (bt_pair_info s1)) (set_nth i (f e) (pairedBtDevInfo (bt_pair_info s1))) s1.

Definition nv_record_btdevicerecord_set_a2dp_profile_active_state (i : nat) (isActive : bool) : nv_state -> nv_state :=
  update_dev i (fun e => negb (eqb isActive (a2dp_act e)))
    (fun e => mkNvrec (record e) (a2dp_vol e) (hfp_vol e) (hfp_act e) (a2dp_abs_vol e) isActive (a2dp_codectype e) (pnp_info e)).

Definition nv_record_btdevicerecord_set_hfp_profile_active_state (i : nat) (isActive : bool) : nv_state -> nv_state :=
  update_dev i (fun e => negb (eqb isActive (hfp_act e)))
    (fun e => mkNvrec (record e) (a2dp_vol e) (hfp_vol e) isActive (a2dp_abs_vol e) (a2dp_act e) (a2dp_codectype e) (pnp_info e)).

Definition nv_record_btdevicerecord_set_a2dp_profile_codec (i : nat) (codec : Z) : nv_state -> nv_state :=
  update_dev i (fun e => negb (codec =? a2dp_codectype e))
    (fun e => mkNvrec (record e) (a2dp_vol e) (hfp_vol e) (hfp_act e) (a2dp_abs_vol e) (a2dp_act e) codec (pnp_info e)).

Definition nv_record_btdevicerecord_update_dev_cod (i : nat) (c : list Z) : nv_state -> nv_state :=
  update_dev i (fun e => negb (bool_decide (cod (record e) = c)))
    (fun e => if negb (bool_decide (cod (record e) = c)) then
       let r := record e in
       with_record (mkRec (bdAddr r) (trusted r) (for_bt_source r) (linkKey r) (keyType r) (pinLen r) c (remote_dev_name r)) e
     else e).

(** [vol] is an [int8_t], the stored volumes are [uint8_t]. *)
Definition nv_record_btdevicerecord_set_a2dp_vol (i : nat) (vol : Z) : nv_state -> nv_state :=
  update_dev i (fun e => negb (i8 vol =? a2dp_vol e))
    (fun e => if negb (i8 vol =? a2dp_vol e) then
       mkNvrec (record e) (u8 vol) (hfp_vol e) (hfp_act e) (a2dp_abs_vol e) (a2dp_act e) (a2dp_codectype e) (pnp_info e) else e).

Definition nv_record_btdevicerecord_set_a2dp_abs_vol (i : nat) (vol : Z) : nv_state -> nv_state :=
  update_dev i (fun e => negb (i8 vol =? a2dp_abs_vol e))
    (fun e => if negb (i8 vol =? a2dp_abs_vol e) then
       mkNvrec (record e) (a2dp_vol e) (hfp_vol e) (hfp_act e) (u8 vol) (a2dp_act e) (a2dp_codectype e) (pnp_info e) else e).

Definition nv_record_btdevicerecord_set_hfp_vol (i : nat) (vol : Z) : nv_state -> nv_state :=
  update_dev i (fun e => negb (i8 vol =? hfp_vol e))
    (fun e => if negb (i8 vol =? hfp_vol e) then
       mkNvrec (record e) (a2dp_vol e) (u8 vol) (hfp_act e) (a2dp_abs_vol e) (a2dp_act e) (a2dp_codectype e) (pnp_info e) else e).

Definition nv_record_btdevicerecord_set_pnp_info (i : nat) (p : bt_dip_pnp_info) : nv_state -> nv_state :=
  update_dev i (fun e => negb (vend_id p =? vend_id (pnp_info e)))
    (fun e => if negb (vend_id p =? vend_id (pnp_info e)) then
       mkNvrec (record e) (a2dp_vol e) (hfp_vol e) (hfp_act e) (a2dp_abs_vol e) (a2dp_act e) (a2dp_codectype e) p else e).
