(* ===== verification/NvBtLaws.v ===== *)
(** The paired-device list of NvBt.v against a list of entries in order of use: what the array
    loops compute, the invariant, and what each operation does to the list. *)
From Stdlib Require Import ZArith Lia Bool.
From stdpp Require Import base list option sorting.
From S2P Require Import Prelude NvBt.

(** ** The entries in use *)
Definition addr (e : nvrec) : list Z := bdAddr (record e).
Definition entries (i : dev_info) : list nvrec := take (pairedDevNum i) (pairedBtDevInfo i).
Definition devices (s : nv_state) : list nvrec := entries (bt_pair_info s).

(** The invariant of an information block: a full-size array, its number in range, no address twice. *)
Definition info_ok (i : dev_info) : Prop :=
  length (pairedBtDevInfo i) = MAX_BT_PAIRED_DEVICE_COUNT /\
  (pairedDevNum i <= MAX_BT_PAIRED_DEVICE_COUNT)%nat /\
  NoDup (addr <$> entries i).

Definition nv_ok (s : nv_state) : Prop := info_ok (bt_pair_info s) /\ info_ok (bt_pair_info_cache s).

(** ** The abstract operations *)
Definition find_index (a : list Z) (l : list nvrec) : option nat := fst <$> list_find (fun e => addr e = a) l.

Definition spec_move (cur target : nat) (l : list nvrec) : list nvrec :=
  let e := nth cur l zero_nvrec in
  take target (delete cur l) ++ e :: drop target (delete cur l).

(** ** The array loops *)
Lemma loop_S {A} n (f : nat -> A -> A) a : loop (S n) f a = f n (loop n f a).
Proof. unfold loop. rewrite seq_S, fold_left_app. reflexivity. Qed.

Lemma length_copy_entry i j l : length (copy_entry i j l) = length l.
Proof. apply length_insert. Qed.

Lemma length_loop_copy n (p q : nat -> nat) l :
  length (loop n (fun k => copy_entry (p k) (q k)) l) = length l.
Proof. induction n as [|n IH]; [done|]. rewrite loop_S, length_copy_entry. exact IH. Qed.

Lemma length_move_down t n l : length (move_down t n l) = length l.
Proof. apply (length_loop_copy n (fun k => t - k)%nat (fun k => t - 1 - k)%nat). Qed.

Lemma length_move_up i n l : length (move_up i n l) = length l.
Proof. apply (length_loop_copy n (fun k => i + k)%nat (fun k => i + 1 + k)%nat). Qed.

Lemma copy_entry_lookup i j l x : (j < length l)%nat ->
  copy_entry i j l !! x = if decide (x = i /\ (i < length l)%nat) then l !! j else l !! x.
Proof.
  intros Hj. unfold copy_entry. destruct (decide _) as [[-> Hi] | Hx].
  - rewrite list_lookup_insert_eq by done. symmetry. by apply lookup_nth.
  - destruct (decide (x = i)) as [-> |]; [|by rewrite list_lookup_insert_ne].
    rewrite list_insert_ge by lia. done.
Qed.

Lemma move_down_lookup t n l x : (n <= t < length l)%nat ->
  move_down t n l !! x = if decide (t - n < x <= t)%nat then l !! (x - 1)%nat else l !! x.
Proof.
  unfold move_down. revert x. induction n as [|n IH]; intros x Hn.
  - destruct (decide _); [lia|done].
  - rewrite loop_S, copy_entry_lookup by (rewrite (length_loop_copy n (fun k => t - k)%nat (fun k => t - 1 - k)%nat); lia).
    rewrite (length_loop_copy n (fun k => t - k)%nat (fun k => t - 1 - k)%nat).
    rewrite !IH by lia.
    repeat destruct (decide _); try lia; try done; f_equal; lia.
Qed.

Lemma move_up_lookup i n l x : (i + n < length l)%nat ->
  move_up i n l !! x = if decide (i <= x < i + n)%nat then l !! S x else l !! x.
Proof.
  unfold move_up. revert x. induction n as [|n IH]; intros x Hn.
  - destruct (decide _); [lia|done].
  - rewrite loop_S, copy_entry_lookup by (rewrite (length_loop_copy n (fun k => i + k)%nat (fun k => i + 1 + k)%nat); lia).
    rewrite (length_loop_copy n (fun k => i + k)%nat (fun k => i + 1 + k)%nat).
    rewrite !IH by lia.
    repeat destruct (decide _); try lia; try done; f_equal; lia.
Qed.

Lemma lookup_spec_move cur target l x : (cur < length l)%nat -> (target < length l)%nat ->
  spec_move cur target l !! x =
  if decide (x = target) then Some (nth cur l zero_nvrec) else delete cur l !! (if decide (x < target)%nat then x else x - 1)%nat.
Proof.
  intros Hc Ht. unfold spec_move.
  assert (Hl : length (take target (delete cur l)) = target)
    by (rewrite length_take, list.length_delete by (by apply lookup_lt_is_Some_2); lia).
  destruct (decide (x = target)) as [-> | Hx]; [by rewrite list_lookup_middle|].
  destruct (decide (x < target)%nat).
  - rewrite lookup_app_l by lia. by apply lookup_take_lt.
  - rewrite lookup_app_r, Hl, lookup_cons_if by lia.
    destruct (decide _); [lia|]. rewrite lookup_drop. f_equal. lia.
Qed.

(** ** The search *)
Lemma index_loop_spec a n i l : (i + n <= length l)%nat ->
  index_loop n i l a = (Nat.add i) <$> find_index a (take n (drop i l)).
Proof.
  revert i. induction n as [|n IH]; intros i H; [done|].
  rewrite (drop_nth l i zero_nvrec) by lia. simpl. unfold find_index in *. simpl.
  unfold addr at 1. destruct (decide _) as [Ha | Ha].
  - simpl. f_equal. lia.
  - rewrite IH by lia. destruct (list_find _ (take n (drop (S i) l))) as [[k e]|]; simpl; [f_equal; lia | done].
Qed.

Lemma index_spec i a : info_ok i -> nv_record_get_bt_pairing_info_index i a = find_index a (entries i).
Proof.
  intros (Hl & Hn & _). unfold nv_record_get_bt_pairing_info_index.
  rewrite index_loop_spec by (rewrite Hl; lia). unfold entries. rewrite drop_0.
  destruct (find_index _ _); reflexivity.
Qed.

Lemma find_index_Some a l k : find_index a l = Some k ->
  (k < length l)%nat /\ addr (nth k l zero_nvrec) = a /\ forall j, (j < k)%nat -> addr (nth j l zero_nvrec) <> a.
Proof.
  unfold find_index. intros H. apply fmap_Some in H as ([k' e] & Hf & ->). simpl.
  apply list_find_Some in Hf as (Hk & Ha & Hj). split; [by eapply lookup_lt_Some|].
  split; [by rewrite (nth_lookup_Some _ _ _ _ Hk)|].
  intros j Hlt. eapply Hj; [|exact Hlt]. apply lookup_nth. apply lookup_lt_Some in Hk. lia.
Qed.

Lemma find_index_None a l : find_index a l = None <-> a ∉ addr <$> l.
Proof.
  unfold find_index. rewrite fmap_None, list_find_None, Forall_forall. split.
  - intros H Hin. apply list_elem_of_fmap in Hin as (e & -> & He). by apply (H e He).
  - intros H e He Ha. apply H. apply list_elem_of_fmap. exists e. by rewrite Ha.
Qed.

(** With distinct addresses the search finds the only entry of the address. *)
Lemma find_index_NoDup a l k e : NoDup (addr <$> l) -> l !! k = Some e -> addr e = a -> find_index a l = Some k.
Proof.
  intros Hnd Hk Ha. destruct (find_index a l) as [j|] eqn:Hf.
  - apply find_index_Some in Hf as (Hlt & Hja & _). f_equal.
    apply (NoDup_lookup (addr <$> l) j k a Hnd); rewrite list_lookup_fmap.
    + rewrite (lookup_nth l j zero_nvrec) by done. simpl. by rewrite Hja.
    + rewrite Hk. simpl. by rewrite Ha.
  - apply find_index_None in Hf. contradict Hf. apply list_elem_of_fmap. exists e.
    split; [done | by eapply list_elem_of_lookup_2].
Qed.

(** ** The array loops, seen on the entries in use *)
Section Arrays.
Context (l : list nvrec) (n : nat) (Hl : length l = MAX_BT_PAIRED_DEVICE_COUNT) (Hn : (n <= MAX_BT_PAIRED_DEVICE_COUNT)%nat).

Lemma nth_entries k : (k < n)%nat -> nth k (take n l) zero_nvrec = nth k l zero_nvrec.
Proof.
  intros Hk. apply nth_lookup_Some. rewrite lookup_take_if.
  destruct (decide _); [|lia]. apply lookup_nth. rewrite Hl. lia.
Qed.

(** A full list loses its last entry, another one grows. *)
Lemma take_push e : (n < MAX_BT_PAIRED_DEVICE_COUNT)%nat ->
  take (n + 1) (set_nth 0 e (move_down n n l)) = e :: take n l.
Proof.
  unfold MAX_BT_PAIRED_DEVICE_COUNT in *. intros Hlt. apply list_eq. intros x. unfold set_nth. pointwise;
    try rewrite length_move_down in *; try lia; rewrite move_down_lookup by lia; pointwise.
Qed.

Lemma take_push_full e : n = MAX_BT_PAIRED_DEVICE_COUNT ->
  take (n - 1 + 1) (set_nth 0 e (move_down (MAX_BT_PAIRED_DEVICE_COUNT - 1) (MAX_BT_PAIRED_DEVICE_COUNT - 1) l)) =
  e :: take (MAX_BT_PAIRED_DEVICE_COUNT - 1) (take n l).
Proof.
  unfold MAX_BT_PAIRED_DEVICE_COUNT in *. intros ->. apply list_eq. intros x. unfold set_nth. pointwise;
    try rewrite length_move_down in *; try lia; rewrite move_down_lookup by lia; pointwise.
Qed.

Lemma take_to_head e idx : (idx < n)%nat ->
  take n (set_nth 0 e (move_down idx idx l)) = e :: delete idx (take n l).
Proof.
  unfold MAX_BT_PAIRED_DEVICE_COUNT in *. intros Hi. apply list_eq. intros x. unfold set_nth. pointwise;
    try rewrite length_move_down in *; try lia; rewrite move_down_lookup by lia; pointwise.
Qed.

Lemma take_remove idx : (idx < n)%nat ->
  take (n - 1) (set_nth (n - 1) zero_nvrec (move_up idx (n - idx - 1) l)) = delete idx (take n l).
Proof.
  unfold MAX_BT_PAIRED_DEVICE_COUNT in *. intros Hi. apply list_eq. intros x. unfold set_nth. pointwise;
    rewrite move_up_lookup by lia; pointwise.
Qed.

Lemma take_reorder cur target : (cur < n)%nat -> (target < n)%nat ->
  take n (set_nth target (nth cur l zero_nvrec)
    (if (cur <? target)%nat then move_up cur (target - cur) l
     else if (target <? cur)%nat then move_down cur (cur - target) l else l)) =
  spec_move cur target (take n l).
Proof.
  unfold MAX_BT_PAIRED_DEVICE_COUNT in *. intros Hc Ht. apply list_eq. intros x.
  rewrite lookup_spec_move by (rewrite length_take; lia). unfold set_nth.
  rewrite nth_entries by done.
  destruct (decide (x < target)%nat); (destruct (Nat.ltb_spec cur target); [|destruct (Nat.ltb_spec target cur)]);
    pointwise; try rewrite length_move_down in *; try rewrite length_move_up in *; try lia;
    try rewrite move_up_lookup by lia; try rewrite move_down_lookup by lia; pointwise.
Qed.
End Arrays.

(** ** Adding a record *)
Section Add.
Context (ibrt : bool) (tws : list Z -> bool) (dac : Z) (to_bt : Z -> Z) (dflt : bool).
Let reset := nv_record_pairing_info_reset dac to_bt.
Let distribute := nv_record_bt_distribute_new_dev_paired_event ibrt tws dflt.
Let add := nv_record_ddbrec_add ibrt tws dac to_bt dflt.

(** The entry of a known device: untouched when the record is the same, else a fresh one. *)
Definition spec_entry (p : btif_device_record) (e : nvrec) : nvrec :=
  if decide (record e = p) then e else nv_record_pairing_info_reset dac to_bt (with_record p e).

Definition spec_add (p : btif_device_record) (l : list nvrec) : list nvrec :=
  match find_index (bdAddr p) l with
  | None => nv_record_pairing_info_reset dac to_bt (with_record p zero_nvrec) :: take (MAX_BT_PAIRED_DEVICE_COUNT - 1) l
  | Some i => spec_entry p (nth i l zero_nvrec) :: delete i l
  end.

(** The callbacks told of a new device, in order. *)
Definition told (s : nv_state) (a : list Z) : list (cb_index * list Z) :=
  (fun c => (c, a)) <$> filter (fun c => callbacks s c = true)
    [NEW_DEVICE_CB_ANY_DEVICE; NEW_DEVICE_CB_USER1; if ibrt && tws a then NEW_DEVICE_CB_TWS else NEW_DEVICE_CB_MOBILE].

(** Whether adding [p] tells the callbacks. *)
Definition news (p : btif_device_record) (l : list nvrec) : bool :=
  match find_index (bdAddr p) l with
  | None => nonzero_key p
  | Some i => negb (bool_decide (record (nth i l zero_nvrec) = p))
  end.

Lemma distribute_frame a s :
  bt_pair_info (distribute a s) = bt_pair_info s /\ bt_pair_info_cache (distribute a s) = bt_pair_info_cache s /\
  ready (distribute a s) = ready s /\ is_update (distribute a s) = is_update s /\ callbacks (distribute a s) = callbacks s.
Proof.
  unfold distribute, nv_record_bt_distribute_new_dev_paired_event, call_callback.
  destruct (ibrt && tws a), dflt, (callbacks s NEW_DEVICE_CB_ANY_DEVICE) eqn:E1;
    simpl; destruct (callbacks s NEW_DEVICE_CB_USER1) eqn:E2; simpl;
    destruct (callbacks s NEW_DEVICE_CB_TWS) eqn:E3, (callbacks s NEW_DEVICE_CB_MOBILE) eqn:E4; done.
Qed.

Lemma distribute_events a s : events (distribute a s) = events s ++ told s a.
Proof.
  unfold distribute, nv_record_bt_distribute_new_dev_paired_event, call_callback, told.
  repeat rewrite filter_cons. rewrite filter_nil.
  destruct (ibrt && tws a), dflt, (callbacks s NEW_DEVICE_CB_ANY_DEVICE) eqn:E1;
    simpl; destruct (callbacks s NEW_DEVICE_CB_USER1) eqn:E2; simpl;
    destruct (callbacks s NEW_DEVICE_CB_TWS) eqn:E3, (callbacks s NEW_DEVICE_CB_MOBILE) eqn:E4;
    simpl; rewrite <- ?(assoc_L (++)); try reflexivity; by rewrite app_nil_r.
Qed.

Lemma reset_addr e : addr (reset e) = addr e.
Proof. reflexivity. Qed.

Lemma spec_entry_addr p e : addr e = bdAddr p -> addr (spec_entry p e) = bdAddr p.
Proof. intros H. unfold spec_entry. by destruct (decide _). Qed.

(** What [nv_record_ddbrec_add] leaves in the array. *)
Definition added (p : btif_device_record) (s : nv_state) : nv_state := snd (add p s).

Lemma add_new_array p s : info_ok (bt_pair_info s) ->
  find_index (bdAddr p) (devices s) = None ->
  exists l, bt_pair_info (add_new ibrt tws dac to_bt dflt p s) =
    mkInfo (if (pairedDevNum (bt_pair_info s) =? 8)%nat then 8 else pairedDevNum (bt_pair_info s) + 1) l /\
    length l = MAX_BT_PAIRED_DEVICE_COUNT /\
    entries (bt_pair_info (add_new ibrt tws dac to_bt dflt p s)) = spec_add p (devices s).
Proof.
  intros (Hl & Hn & Hnd) Hf. unfold add_new, spec_add. rewrite Hf. unfold devices, entries in *.
  destruct (bt_pair_info s) as [n l] eqn:Ei. cbn [pairedDevNum pairedBtDevInfo] in *.
  set (s1 := set_devs _ _ s).
  assert (H1 : bt_pair_info (if nonzero_key p then nv_record_bt_distribute_new_dev_paired_event ibrt tws dflt (bdAddr p) s1 else s1) = bt_pair_info s1)
    by (destruct (nonzero_key p); [apply (distribute_frame (bdAddr p) s1) | done]).
  rewrite H1. unfold s1, set_devs. cbn [bt_pair_info set_info pairedDevNum pairedBtDevInfo].
  fold MAX_BT_PAIRED_DEVICE_COUNT. destruct (Nat.eqb_spec n MAX_BT_PAIRED_DEVICE_COUNT) as [Heq | Hne].
  - eexists; split; [f_equal; rewrite Heq; reflexivity|]. split; [unfold set_nth; by rewrite length_insert, length_move_down|].
    by rewrite take_push_full.
  - eexists; split; [reflexivity|]. split; [unfold set_nth; by rewrite length_insert, length_move_down|].
    rewrite take_push by (try done; lia). f_equal. symmetry. apply take_ge.
    rewrite length_take. unfold MAX_BT_PAIRED_DEVICE_COUNT in *. lia.
Qed.

Lemma add_existing_array p s idx : info_ok (bt_pair_info s) ->
  find_index (bdAddr p) (devices s) = Some idx ->
  exists l, bt_pair_info (snd (add_existing ibrt tws dac to_bt dflt idx p s)) = mkInfo (pairedDevNum (bt_pair_info s)) l /\
    length l = MAX_BT_PAIRED_DEVICE_COUNT /\
    entries (mkInfo (pairedDevNum (bt_pair_info s)) l) = spec_add p (devices s).
Proof.
  intros (Hl & Hn & Hnd) Hf. unfold spec_add. rewrite Hf.
  apply find_index_Some in Hf as (Hidx & _ & _). unfold add_existing, devices, entries, spec_entry in *.
  destruct (bt_pair_info s) as [n l] eqn:Ei. cbn [pairedDevNum pairedBtDevInfo] in *.
  rewrite length_take in Hidx.
  rewrite (nth_entries l n Hl Hn) by lia.
  assert (Hput : forall e, take n (set_nth 0 e (move_down idx idx l)) = e :: delete idx (take n l))
    by (intros e; apply take_to_head; [done|done|lia]).
  assert (Hnth0 : forall (e : nvrec) m, (0 < length m)%nat -> nth 0 (set_nth 0 e m) zero_nvrec = e)
    by (intros e [|x m] Hm; simpl in Hm; [lia|done]).
  destruct (decide (record (nth idx l zero_nvrec) = p)) as [Heq | Hne].
  - rewrite (bool_decide_true (record (nth idx l zero_nvrec) = p)) by done. cbn [negb].
    destruct (Nat.ltb_spec 0 idx).
    + cbn [snd]. eexists; split; [reflexivity|]. unfold set_nth. rewrite list_insert_insert_eq.
      split; [by rewrite length_insert, length_move_down|].
      cbn [pairedDevNum pairedBtDevInfo]. rewrite <- Hput. unfold set_nth. do 2 f_equal.
      rewrite <- Heq. by destruct (nth idx l zero_nvrec).
    + assert (idx = 0)%nat as -> by lia. rewrite Heq, bool_decide_true by done. cbn [negb snd].
      eexists; split; [reflexivity|]. split; [done|]. rewrite <- Hput.
      cbn [pairedDevNum pairedBtDevInfo]. f_equal. unfold set_nth, move_down, loop. simpl.
      symmetry. apply list_insert_id. apply lookup_nth. lia.
  - rewrite (bool_decide_false (record (nth idx l zero_nvrec) = p)) by done. cbn [negb].
    destruct (Nat.ltb_spec 0 idx).
    + cbn [snd]. eexists; split; [reflexivity|]. rewrite Hnth0 by (unfold set_nth; rewrite length_insert, length_move_down; lia).
      unfold set_nth. rewrite !list_insert_insert_eq.
      split; [by rewrite length_insert, length_move_down|].
      cbn [pairedDevNum pairedBtDevInfo]. by rewrite <- Hput.
    + assert (idx = 0)%nat as -> by lia. rewrite bool_decide_false by done. cbn [negb snd].
      eexists; split; [reflexivity|]. rewrite Hnth0 by lia. unfold set_nth. rewrite list_insert_insert_eq.
      split; [by rewrite length_insert|].
      cbn [pairedDevNum pairedBtDevInfo]. rewrite <- Hput. reflexivity.
Qed.

Lemma add_existing_frame p s idx :
  ready (snd (add_existing ibrt tws dac to_bt dflt idx p s)) = ready s /\
  bt_pair_info_cache (snd (add_existing ibrt tws dac to_bt dflt idx p s)) = bt_pair_info_cache s /\
  is_update (snd (add_existing ibrt tws dac to_bt dflt idx p s)) = is_update s /\
  callbacks (snd (add_existing ibrt tws dac to_bt dflt idx p s)) = callbacks s.
Proof.
  unfold add_existing.
  repeat (case_bool_decide || case_match); simplify_eq/=; try done.
  all: match goal with |- context [nv_record_bt_distribute_new_dev_paired_event _ _ _ ?a ?x] =>
    destruct (distribute_frame a x) as (? & ? & ? & ? & ?) end; unfold distribute in *; fin.
Qed.

Lemma add_existing_flag p s idx :
  fst (add_existing ibrt tws dac to_bt dflt idx p s) =
  (0 <? idx)%nat || negb (bool_decide (record (nth idx (pairedBtDevInfo (bt_pair_info s)) zero_nvrec) = p)).
Proof.
  unfold add_existing. destruct (Nat.ltb_spec 0 idx); [done|].
  assert (idx = 0)%nat as -> by lia. by case_bool_decide.
Qed.

Lemma add_existing_events p s idx :
  events (snd (add_existing ibrt tws dac to_bt dflt idx p s)) = events s ++
  if bool_decide (record (nth idx (pairedBtDevInfo (bt_pair_info s)) zero_nvrec) = p) then []
  else told s (addr (nth idx (pairedBtDevInfo (bt_pair_info s)) zero_nvrec)).
Proof.
  unfold add_existing.
  repeat (case_bool_decide || case_match); simplify_eq/=; try by rewrite app_nil_r.
  all: by rewrite <- distribute_events.
Qed.

Lemma add_new_frame p s :
  ready (add_new ibrt tws dac to_bt dflt p s) = ready s /\
  bt_pair_info_cache (add_new ibrt tws dac to_bt dflt p s) = bt_pair_info_cache s /\
  is_update (add_new ibrt tws dac to_bt dflt p s) = is_update s /\
  callbacks (add_new ibrt tws dac to_bt dflt p s) = callbacks s /\
  events (add_new ibrt tws dac to_bt dflt p s) = events s ++ if nonzero_key p then told s (bdAddr p) else [].
Proof.
  unfold add_new. set (s1 := set_devs _ _ s).
  destruct (nonzero_key p).
  - destruct (distribute_frame (bdAddr p) s1) as (_ & H2 & H3 & H4 & H5). unfold distribute in *.
    rewrite H2, H3, H4, H5. repeat split. fold distribute. by rewrite distribute_events.
  - repeat split. by rewrite app_nil_r.
Qed.

(** Deleting the entry of an address leaves no other entry of the address. *)
Lemma delete_addr_fresh l i : NoDup (addr <$> l) -> (i < length l)%nat ->
  NoDup (addr <$> delete i l) /\ addr (nth i l zero_nvrec) ∉ addr <$> delete i l.
Proof.
  intros Hnd Hi. pose proof (lookup_nth l i zero_nvrec Hi) as He.
  pose proof (delete_Permutation l i _ He) as Hp.
  assert (Hnd' : NoDup (addr (nth i l zero_nvrec) :: (addr <$> delete i l)))
    by (change (NoDup (addr <$> nth i l zero_nvrec :: delete i l)); rewrite <- Hp; exact Hnd).
  apply NoDup_cons in Hnd'. tauto.
Qed.

Lemma spec_add_NoDup p l : NoDup (addr <$> l) -> NoDup (addr <$> spec_add p l).
Proof.
  intros Hnd. unfold spec_add. destruct (find_index (bdAddr p) l) as [i|] eqn:Hf.
  - apply find_index_Some in Hf as (Hi & Ha & _).
    destruct (delete_addr_fresh l i Hnd Hi) as [H1 H2]. rewrite fmap_cons. apply NoDup_cons. split; [|done].
    rewrite spec_entry_addr by done. by rewrite <- Ha.
  - apply find_index_None in Hf. rewrite fmap_cons. apply NoDup_cons.
    rewrite fmap_take. split.
    + change (bdAddr p ∉ take (MAX_BT_PAIRED_DEVICE_COUNT - 1) (addr <$> l)). intros Hin. apply Hf.
      rewrite <- (take_drop (MAX_BT_PAIRED_DEVICE_COUNT - 1) (addr <$> l)). apply elem_of_app. by left.
    + rewrite <- (take_drop (MAX_BT_PAIRED_DEVICE_COUNT - 1) (addr <$> l)) in Hnd. by apply NoDup_app in Hnd as [? _].
Qed.

(** The list changes exactly when the code asks for a flash write. *)
Lemma spec_add_same p l : NoDup (addr <$> l) ->
  spec_add p l = l <-> (find_index (bdAddr p) l = Some 0%nat /\ record (nth 0 l zero_nvrec) = p).
Proof.
  intros Hnd. unfold spec_add. destruct (find_index (bdAddr p) l) as [i|] eqn:Hf.
  - pose proof Hf as Hf'. apply find_index_Some in Hf as (Hi & Ha & Hj).
    destruct l as [|e l]; simpl in Hi; [lia|]. destruct i as [|i].
    + simpl in *. split; intros H; [split; [done|] | destruct H as [_ H]].
      * injection H as H. unfold spec_entry in H. destruct (decide _) as [|Hn]; [done|].
        rewrite <- H. reflexivity.
      * f_equal. unfold spec_entry. by rewrite decide_True.
    + split; [|intros [H _]; discriminate]. intros H. exfalso.
      assert (Hh : addr (spec_entry p (nth (S i) (e :: l) zero_nvrec)) = addr e) by (exact (f_equal (fun m => addr (nth 0 m zero_nvrec)) H)).
      rewrite spec_entry_addr in Hh by done. apply (Hj 0%nat); [lia|]. by rewrite Hh.
  - apply find_index_None in Hf. split; [|intros [? _]; discriminate]. intros H. exfalso. apply Hf.
    rewrite <- H. apply list_elem_of_fmap. eexists. split; [|by left]. reflexivity.
Qed.

Lemma length_spec_add p l : (length l <= MAX_BT_PAIRED_DEVICE_COUNT)%nat ->
  (length (spec_add p l) <= MAX_BT_PAIRED_DEVICE_COUNT)%nat.
Proof.
  intros Hl. unfold spec_add. destruct (find_index (bdAddr p) l) as [i|] eqn:Hf.
  - apply find_index_Some in Hf as (Hi & _). simpl. rewrite list.length_delete by (by apply lookup_lt_is_Some_2). lia.
  - simpl. rewrite length_take. unfold MAX_BT_PAIRED_DEVICE_COUNT in *. lia.
Qed.

Lemma add_refines p s : ready s = true -> info_ok (bt_pair_info s) ->
  exists s', add p s = (BT_STS_SUCCESS, s') /\
    devices s' = spec_add p (devices s) /\
    is_update s' = is_update s || negb (bool_decide (devices s' = devices s)) /\
    events s' = events s ++ (if news p (devices s) then told s (bdAddr p) else []) /\
    info_ok (bt_pair_info s') /\ bt_pair_info_cache s' = bt_pair_info_cache s /\ ready s' = true.
Proof.
  intros Hr Hok. pose proof Hok as (Hl & Hn & Hnd). unfold add, nv_record_ddbrec_add, news. rewrite Hr. cbn [negb].
  rewrite index_spec by done. fold (devices s).
  assert (Hlen : (length (devices s) = pairedDevNum (bt_pair_info s))%nat)
    by (unfold devices, entries; rewrite length_take, Hl; lia).
  destruct (find_index (bdAddr p) (devices s)) as [idx|] eqn:Hf; cbn [fst snd].
  - destruct (add_existing_array p s idx Hok Hf) as (l & Hi & Hl' & Hd).
    destruct (add_existing_frame p s idx) as (F1 & F2 & F3 & F4).
    pose proof (add_existing_flag p s idx) as Hflag. pose proof (add_existing_events p s idx) as Hev.
    pose proof (find_index_Some _ _ _ Hf) as (Hidx & Ha & _). rewrite Hlen in Hidx.
    assert (Hnth : nth idx (pairedBtDevInfo (bt_pair_info s)) zero_nvrec = nth idx (devices s) zero_nvrec)
      by (symmetry; apply nth_entries; [done|done|lia]). rewrite Hnth in Hflag, Hev.
    destruct (add_existing ibrt tws dac to_bt dflt idx p s) as [upd s1]; cbn [fst snd] in *.
    assert (Hds : devices s1 = spec_add p (devices s)) by (unfold devices at 1; by rewrite Hi).
    eexists; split; [reflexivity|].
    assert (Hinfo : bt_pair_info (if upd then request_userdata_update s1 else s1) = bt_pair_info s1) by (by destruct upd).
    assert (Hdev : devices (if upd then request_userdata_update s1 else s1) = spec_add p (devices s))
      by (unfold devices at 1; rewrite Hinfo; exact Hds).
    assert (Hinfook : info_ok (bt_pair_info s1)).
    { rewrite Hi. split; [exact Hl'|]. split; [exact Hn|]. rewrite Hd. by apply spec_add_NoDup. }
    split; [exact Hdev|]. split; [|split; [|split; [|split]]].
    + rewrite Hdev. transitivity (is_update s1 || upd); [destruct upd; simpl; by rewrite ?orb_true_r, ?orb_false_r|].
      rewrite F3. f_equal. rewrite Hflag. pose proof (spec_add_same p (devices s) Hnd) as Hs.
      rewrite Hf in Hs. case_bool_decide as H1; case_bool_decide as H2; destruct (Nat.ltb_spec 0 idx); cbn; try done.
      * apply Hs in H2 as [H2 _]. injection H2. lia.
      * contradict H2. apply Hs. assert (idx = 0)%nat as -> by lia. by rewrite H1.
      * apply Hs in H2 as [H2 H3]. injection H2 as ->. by rewrite H3 in H1.
      * apply Hs in H2 as [H2 H3]. injection H2 as ->. by rewrite H3 in H1.
    + transitivity (events s1); [by destruct upd|]. rewrite Hev, Ha. by case_bool_decide.
    + by rewrite Hinfo.
    + transitivity (bt_pair_info_cache s1); [by destruct upd | exact F2].
    + transitivity (ready s1); [by destruct upd | by rewrite F1].
  - destruct (add_new_array p s Hok Hf) as (l & Hi & Hl' & Hd).
    destruct (add_new_frame p s) as (F1 & F2 & F3 & F4 & F5).
    eexists; split; [reflexivity|]. split; [exact Hd|]. split; [|split; [exact F5|split; [|split; [exact F2 | cbn; by rewrite F1]]]].
    + cbn. transitivity true; [done|]. symmetry. apply orb_true_iff. right. apply negb_true_iff, bool_decide_eq_false.
      intros H. change (entries (bt_pair_info (add_new ibrt tws dac to_bt dflt p s)) = devices s) in H.
      rewrite Hd in H. apply (spec_add_same p (devices s) Hnd) in H as [H _]. congruence.
    + cbn. split; [by rewrite Hi|]. split; [|rewrite Hd; by apply spec_add_NoDup].
      rewrite Hi. cbn. unfold MAX_BT_PAIRED_DEVICE_COUNT in *. destruct (Nat.eqb_spec (pairedDevNum (bt_pair_info s)) 8); lia.
Qed.
End Add.

(** ** Deletion and reordering *)
Lemma length_entries i : info_ok i -> length (entries i) = pairedDevNum i.
Proof. intros (Hl & Hn & _). unfold entries. rewrite length_take, Hl. lia. Qed.

Lemma find_index_lt i a k : info_ok i -> find_index a (entries i) = Some k -> (k < pairedDevNum i)%nat.
Proof. intros Hok Hf. apply find_index_Some in Hf as (Hk & _). by rewrite length_entries in Hk. Qed.

Lemma delete_refines a s : ready s = true -> info_ok (bt_pair_info s) ->
  match find_index a (devices s) with
  | None => nv_record_ddbrec_delete a s = (BT_STS_FAILED, s)
  | Some i => exists s', nv_record_ddbrec_delete a s = (BT_STS_SUCCESS, s') /\
      devices s' = delete i (devices s) /\ is_update s' = true /\ events s' = events s /\
      info_ok (bt_pair_info s') /\ bt_pair_info_cache s' = bt_pair_info_cache s /\ ready s' = true
  end.
Proof.
  intros Hr Hok. unfold nv_record_ddbrec_delete. rewrite Hr, index_spec by done. cbn [negb]. fold (devices s).
  destruct (find_index a (devices s)) as [i|] eqn:Hf; [|done].
  pose proof (find_index_lt _ _ _ Hok Hf) as Hi. destruct Hok as (Hl & Hn & Hnd).
  assert (Hd : take (pairedDevNum (bt_pair_info s) - 1) (set_nth (pairedDevNum (bt_pair_info s) - 1) zero_nvrec
    (move_up i (pairedDevNum (bt_pair_info s) - i - 1) (pairedBtDevInfo (bt_pair_info s)))) = delete i (devices s))
    by (apply take_remove; [done|done|lia]).
  eexists; split; [reflexivity|]. split; [exact Hd|]. repeat split; try done.
  - cbn. unfold set_nth. by rewrite length_insert, length_move_up.
  - cbn. lia.
  - unfold entries. cbn. rewrite Hd. apply delete_addr_fresh; [done|]. unfold devices, entries. rewrite length_take, Hl. lia.
Qed.

Lemma spec_move_Permutation cur target l : (cur < length l)%nat -> spec_move cur target l ≡ₚ l.
Proof.
  intros Hc. unfold spec_move. rewrite <- Permutation_middle, take_drop.
  symmetry. apply delete_Permutation. by apply lookup_nth.
Qed.

Lemma change_order_refines s r target : ready s = true -> info_ok (bt_pair_info s) ->
  match find_index (bdAddr r) (devices s) with
  | Some cur =>
      if (target <? length (devices s))%nat && negb (cur =? target)%nat then
        exists s', nv_record_change_order s r target = Some (BT_STS_SUCCESS, s') /\
          devices s' = spec_move cur target (devices s) /\ is_update s' = true /\ events s' = events s /\
          info_ok (bt_pair_info s') /\ bt_pair_info_cache s' = bt_pair_info_cache s /\ ready s' = true
      else nv_record_change_order s r target = Some (BT_STS_FAILED, s)
  | None => nv_record_change_order s r target = Some (BT_STS_FAILED, s)
  end.
Proof.
  intros Hr Hok. unfold nv_record_change_order. rewrite Hr, index_spec by done. cbn [negb]. fold (devices s).
  assert (Hlen : length (devices s) = pairedDevNum (bt_pair_info s)) by (by apply length_entries). rewrite Hlen.
  destruct (find_index (bdAddr r) (devices s)) as [cur|] eqn:Hf; [|by destruct (Nat.leb_spec (pairedDevNum (bt_pair_info s)) target)].
  destruct (Nat.leb_spec (pairedDevNum (bt_pair_info s)) target) as [Hle | Hlt].
  { destruct (Nat.ltb_spec target (pairedDevNum (bt_pair_info s))); [lia|done]. }
  destruct (Nat.ltb_spec target (pairedDevNum (bt_pair_info s))); [|lia]. cbn [andb].
  pose proof (find_index_lt _ _ _ Hok Hf) as Hi. destruct Hok as (Hl & Hn & Hnd).
  assert (Hnth : forall k, (k < pairedDevNum (bt_pair_info s))%nat ->
    nth k (pairedBtDevInfo (bt_pair_info s)) zero_nvrec = nth k (devices s) zero_nvrec)
    by (intros k Hk; symmetry; apply nth_entries; [done|done|lia]).
  destruct (Nat.eqb_spec cur target) as [-> | Hne]; cbn [negb]; [by rewrite bool_decide_true|].
  rewrite bool_decide_false. 2:{ rewrite !Hnth by lia. intros He. apply Hne.
    apply (NoDup_lookup (addr <$> devices s) cur target (addr (nth cur (devices s) zero_nvrec)) Hnd);
    rewrite list_lookup_fmap, (lookup_nth _ _ zero_nvrec) by (rewrite Hlen; lia); [done | by rewrite He]. }
  cbn [negb].
  assert (Hd := take_reorder (pairedBtDevInfo (bt_pair_info s)) (pairedDevNum (bt_pair_info s)) Hl Hn cur target Hi Hlt).
  eexists; split; [reflexivity|]. split; [exact Hd|]. repeat split; try done.
  - cbn. unfold set_nth. rewrite length_insert. repeat case_match; by rewrite ?length_move_up, ?length_move_down.
  - match type of Hd with ?X = _ => change (NoDup (addr <$> X)) end. rewrite Hd, spec_move_Permutation; [done|].
    change (cur < length (devices s))%nat. lia.
Qed.

(** ** The operations as one transition relation *)
Section Run.
Context (ibrt : bool) (tws : list Z -> bool) (dac : Z) (to_bt : Z -> Z) (dflt : bool).

Inductive nv_op :=
| OpAdd (r : btif_device_record) | OpChange (r : btif_device_record) (target : nat)
| OpDelete (a : list Z) | OpClear | OpClearAll | OpStash | OpPop
| OpCod (i : nat) (c : list Z) | OpA2dpVol (i : nat) (v : Z) | OpHfpVol (i : nat) (v : Z) | OpAbsVol (i : nat) (v : Z)
| OpA2dpAct (i : nat) (b : bool) | OpHfpAct (i : nat) (b : bool) | OpCodec (i : nat) (c : Z)
| OpPnp (i : nat) (p : bt_dip_pnp_info).

(** The setters get the address of an entry in use. *)
Inductive nv_step : nv_state -> nv_op -> nv_state -> Prop :=
| StepAdd s r : nv_step s (OpAdd r) (snd (nv_record_ddbrec_add ibrt tws dac to_bt dflt r s))
| StepChange s r t st s' : nv_record_change_order s r t = Some (st, s') -> nv_step s (OpChange r t) s'
| StepDelete s a : nv_step s (OpDelete a) (snd (nv_record_ddbrec_delete a s))
| StepClear s : nv_step s OpClear (snd (nv_record_ddbrec_clear s))
| StepClearAll s : nv_step s OpClearAll (snd (nv_record_ddbrec_clear_all_bt_paired_list s))
| StepStash s : nv_step s OpStash (snd (nv_record_stash_original_bt_record s))
| StepPop s : nv_step s OpPop (snd (nv_record_pop_original_bt_record s))
| StepCod s i c : (i < length (devices s))%nat -> nv_step s (OpCod i c) (nv_record_btdevicerecord_update_dev_cod i c s)
| StepA2dpVol s i v : (i < length (devices s))%nat -> nv_step s (OpA2dpVol i v) (nv_record_btdevicerecord_set_a2dp_vol i v s)
| StepHfpVol s i v : (i < length (devices s))%nat -> nv_step s (OpHfpVol i v) (nv_record_btdevicerecord_set_hfp_vol i v s)
| StepAbsVol s i v : (i < length (devices s))%nat -> nv_step s (OpAbsVol i v) (nv_record_btdevicerecord_set_a2dp_abs_vol i v s)
| StepA2dpAct s i b : (i < length (devices s))%nat ->
    nv_step s (OpA2dpAct i b) (nv_record_btdevicerecord_set_a2dp_profile_active_state i b s)
| StepHfpAct s i b : (i < length (devices s))%nat ->
    nv_step s (OpHfpAct i b) (nv_record_btdevicerecord_set_hfp_profile_active_state i b s)
| StepCodec s i c : (i < length (devices s))%nat ->
    nv_step s (OpCodec i c) (nv_record_btdevicerecord_set_a2dp_profile_codec i c s)
| StepPnp s i p : (i < length (devices s))%nat -> nv_step s (OpPnp i p) (nv_record_btdevicerecord_set_pnp_info i p s).

Inductive nv_run : nv_state -> list nv_op -> nv_state -> Prop :=
| RunNil s : nv_run s [] s
| RunCons s op s1 ops s2 : nv_step s op s1 -> nv_run s1 ops s2 -> nv_run s (op :: ops) s2.
End Run.

Definition sound (s s' : nv_state) : Prop :=
  ready s' = ready s /\ nv_ok s' /\ (is_update s = true -> is_update s' = true) /\
  (devices s' <> devices s -> is_update s' = true).

Lemma sound_refl s : nv_ok s -> sound s s.
Proof. intros H. split; [done|]. split; [done|]. tauto. Qed.

Lemma update_dev_devices i changed f s : info_ok (bt_pair_info s) -> (i < length (devices s))%nat ->
  devices (update_dev i changed f s) = <[i := f (nth_dev s i)]> (devices s) /\ devices s !! i = Some (nth_dev s i).
Proof.
  intros Hok Hi. pose proof Hok as (Hl & Hn & _). rewrite (length_entries _ Hok : length (devices s) = _) in Hi. split.
  - unfold devices at 1, entries, update_dev. cbn. destruct (changed (nth_dev s i)); cbn; unfold set_nth; by rewrite take_insert_lt by lia.
  - unfold devices, entries, nth_dev. rewrite lookup_take_lt by lia. apply lookup_nth. lia.
Qed.

Lemma update_dev_sound i changed f s : nv_ok s -> (i < length (devices s))%nat ->
  (forall e, addr (f e) = addr e) -> (forall e, changed e = false -> f e = e) -> sound s (update_dev i changed f s).
Proof.
  intros [Hok Hc] Hi Ha Hf. pose proof Hok as (Hl & Hn & Hnd).
  rewrite (length_entries _ Hok : length (devices s) = _) in Hi.
  assert (Hinfo : forall s1, s1 = (if changed (nth_dev s i) then request_userdata_update s else s) ->
    bt_pair_info s1 = bt_pair_info s /\ bt_pair_info_cache s1 = bt_pair_info_cache s /\ ready s1 = ready s /\
    is_update s1 = is_update s || changed (nth_dev s i)).
  { intros s1 ->. destruct (changed _); simpl; repeat split; by rewrite ?orb_true_r, ?orb_false_r. }
  destruct (Hinfo _ eq_refl) as (H1 & H2 & H3 & H4).
  destruct (update_dev_devices i changed f s Hok) as [Hd He]; [by rewrite (length_entries _ Hok : length (devices s) = _)|].
  split; [exact H3|]. split; [|split].
  - split; [|unfold update_dev; cbn; by rewrite H2]. split; [|split].
    + unfold update_dev. cbn. rewrite H1. unfold set_nth. by rewrite length_insert.
    + unfold update_dev. cbn. by rewrite H1.
    + change (NoDup (addr <$> devices (update_dev i changed f s))). rewrite Hd, list_fmap_insert, Ha, list_insert_id; [done|].
      by rewrite list_lookup_fmap, He.
  - intros Hu. unfold update_dev. cbn. by rewrite H4, Hu.
  - intros Hne. unfold update_dev. cbn. rewrite H4. destruct (changed (nth_dev s i)) eqn:Ech; [by rewrite orb_true_r|].
    contradict Hne. rewrite Hd, Hf by done. by apply list_insert_id.
Qed.

Lemma empty_info_ok l : length l = MAX_BT_PAIRED_DEVICE_COUNT -> info_ok (mkInfo 0 l).
Proof. intros H. split; [exact H|]. split; [cbn; lia|]. apply NoDup_nil_2. Qed.

Lemma length_clear_loop n l : length (loop n (fun k => set_nth k zero_nvrec) l) = length l.
Proof. induction n as [|n IH]; [done|]. rewrite loop_S. unfold set_nth at 1. by rewrite length_insert. Qed.

(** An operation that asks for the write and leaves sound blocks is sound. *)
Lemma sound_update s s' : ready s' = ready s -> nv_ok s' -> is_update s' = true -> sound s s'.
Proof. intros Hr Hok Hu. repeat split; first [exact Hr | apply Hok | intros; exact Hu]. Qed.

Lemma delete_sound a s : nv_ok s -> sound s (snd (nv_record_ddbrec_delete a s)).
Proof.
  intros Hok. destruct (ready s) eqn:Hr.
  - pose proof (delete_refines a s Hr (proj1 Hok)) as H. destruct (find_index a (devices s)).
    + destruct H as (s' & -> & _ & Hu & _ & Hi & Hc & Hr'). apply sound_update; [cbn; congruence| |done].
      split; cbn [snd]; [done|]. rewrite Hc. apply Hok.
    + rewrite H. by apply sound_refl.
  - unfold nv_record_ddbrec_delete. rewrite Hr. by apply sound_refl.
Qed.

Lemma change_order_sound s r t st s' : nv_ok s -> nv_record_change_order s r t = Some (st, s') -> sound s s'.
Proof.
  intros Hok Hs. assert (Hr : ready s = true) by (unfold nv_record_change_order in Hs; by destruct (ready s)).
  pose proof (change_order_refines s r t Hr (proj1 Hok)) as H.
  destruct (find_index (bdAddr r) (devices s)); [destruct (_ && _)|].
  - destruct H as (s2 & H & _ & Hu & _ & Hi & Hc & Hr'). rewrite H in Hs. injection Hs as _ <-.
    apply sound_update; [cbn; congruence| |done]. split; [done|]. rewrite Hc. apply Hok.
  - rewrite H in Hs. injection Hs as _ <-. by apply sound_refl.
  - rewrite H in Hs. injection Hs as _ <-. by apply sound_refl.
Qed.

Lemma add_sound ibrt tws dac to_bt dflt r s : nv_ok s -> sound s (snd (nv_record_ddbrec_add ibrt tws dac to_bt dflt r s)).
Proof.
  intros Hok. destruct (ready s) eqn:Hr.
  - destruct (add_refines ibrt tws dac to_bt dflt r s Hr (proj1 Hok)) as (s' & -> & Hd & Hu & _ & Hi & Hc & Hr').
    cbn [snd]. split; [congruence|]. split; [split; [done|]; rewrite Hc; apply Hok|]. rewrite Hu. split.
    + by intros ->.
    + intros Hne. apply orb_true_iff. right. by rewrite bool_decide_false.
  - unfold nv_record_ddbrec_add. rewrite Hr. by apply sound_refl.
Qed.

Lemma nv_step_sound ibrt tws dac to_bt dflt s op s' : nv_ok s -> nv_step ibrt tws dac to_bt dflt s op s' -> sound s s'.
Proof.
  intros Hok Hs. pose proof Hok as [(Hl & Hn & Hnd) Hc].
  destruct Hs; try (apply update_dev_sound; [done | done | |]).
  - by apply add_sound.
  - by eapply change_order_sound.
  - by apply delete_sound.
  - unfold nv_record_ddbrec_clear. destruct (ready s) eqn:Hr; [|by apply sound_refl].
    apply sound_update; [done | split; [by apply empty_info_ok | exact Hc] | done].
  - unfold nv_record_ddbrec_clear_all_bt_paired_list. destruct (ready s) eqn:Hr; [|by apply sound_refl].
    apply sound_update; [done | | done]. split; [apply empty_info_ok; by rewrite length_clear_loop | exact Hc].
  - unfold nv_record_stash_original_bt_record. destruct (ready s) eqn:Hr; [|by apply sound_refl].
    apply sound_update; [done | split; [by apply empty_info_ok | exact (proj1 Hok)] | done].
  - unfold nv_record_pop_original_bt_record. destruct (ready s) eqn:Hr; [|by apply sound_refl].
    apply sound_update; [done | split; exact Hc | done].
  - intros e. by destruct (negb _).
  - intros e ->. done.
  - intros e. by destruct (negb _).
  - intros e ->. done.
  - intros e. by destruct (negb _).
  - intros e ->. done.
  - intros e. by destruct (negb _).
  - intros e ->. done.
  - done.
  - intros e He. apply negb_false_iff, eqb_prop in He. subst. by destruct e.
  - done.
  - intros e He. apply negb_false_iff, eqb_prop in He. subst. by destruct e.
  - done.
  - intros e He. apply negb_false_iff, Z.eqb_eq in He. subst. by destruct e.
  - intros e. by destruct (negb _).
  - intros e ->. done.
Qed.

Lemma nv_run_sound ibrt tws dac to_bt dflt s ops s' : nv_ok s -> nv_run ibrt tws dac to_bt dflt s ops s' -> nv_ok s'.
Proof.
  intros Hok Hr. revert Hok. induction Hr as [|s op s1 ops s2 Hs Hr IH]; intros Hok; [done|].
  apply IH. by apply (nv_step_sound _ _ _ _ _ _ _ _ Hok Hs).
Qed.

(** ** Finding a record by its address *)
Definition entry_of (a : list Z) (l : list nvrec) : option nvrec := snd <$> list_find (fun e => addr e = a) l.

Lemma entry_of_index a l : entry_of a l = (fun k => nth k l zero_nvrec) <$> find_index a l.
Proof.
  unfold entry_of, find_index. destruct (list_find _ l) as [[k e]|] eqn:Hf; [|done]. simpl. f_equal.
  apply list_find_Some in Hf as (Hk & _). symmetry. by apply nth_lookup_Some.
Qed.

Lemma entry_of_Some a l e : NoDup (addr <$> l) -> entry_of a l = Some e <-> (e ∈ l /\ addr e = a).
Proof.
  intros Hnd. rewrite entry_of_index. split.
  - intros H. apply fmap_Some in H as (k & Hf & ->). apply find_index_Some in Hf as (Hk & Ha & _).
    split; [|done]. apply (list_elem_of_lookup_2 _ k). by apply lookup_nth.
  - intros [Hin Ha]. apply list_elem_of_lookup_1 in Hin as [k Hk].
    rewrite (find_index_NoDup a l k e Hnd Hk Ha). simpl. f_equal. by apply nth_lookup_Some.
Qed.

Lemma entry_of_None a l : entry_of a l = None <-> a ∉ addr <$> l.
Proof. rewrite entry_of_index, fmap_None. apply find_index_None. Qed.

Lemma find_spec s a : ready s = true -> info_ok (bt_pair_info s) ->
  nv_record_ddbrec_find s a = match entry_of a (devices s) with
                              | Some e => (BT_STS_SUCCESS, Some (record e))
                              | None => (BT_STS_FAILED, None)
                              end.
Proof.
  intros Hr Hok. unfold nv_record_ddbrec_find. rewrite Hr, index_spec, entry_of_index by done. cbn [negb]. fold (devices s).
  destruct (find_index a (devices s)) as [k|] eqn:Hf; [|done]. simpl. unfold nth_dev. do 3 f_equal.
  pose proof (find_index_lt _ _ _ Hok Hf). destruct Hok as (Hl & Hn & _).
  symmetry. by apply nth_entries.
Qed.

(** Two lists with the same entries of the address [a] answer the same. *)
Lemma entry_of_same a l l' : NoDup (addr <$> l) -> NoDup (addr <$> l') ->
  (forall e, addr e = a -> e ∈ l <-> e ∈ l') -> entry_of a l = entry_of a l'.
Proof.
  intros H1 H2 He. apply option_eq. intros e. rewrite !entry_of_Some by done. split; intros [Hin Ha]; by apply He in Hin.
Qed.

Lemma elem_of_delete_other a l i e : (i < length l)%nat -> addr (nth i l zero_nvrec) <> a -> addr e = a ->
  e ∈ delete i l <-> e ∈ l.
Proof.
  intros Hi Hne Ha. rewrite (delete_Permutation l i (nth i l zero_nvrec)) at 2 by (by apply lookup_nth).
  rewrite elem_of_cons. split; [by right|]. intros [-> | H]; [by rewrite Ha in Hne | done].
Qed.

(** The address an addition pushes out: the last one of a full list that does not hold the new one. *)
Definition evicted (p : btif_device_record) (l : list nvrec) (a : list Z) : bool :=
  bool_decide (find_index (bdAddr p) l = None /\ length l = MAX_BT_PAIRED_DEVICE_COUNT /\ find_index a l = Some 7%nat).

Lemma entry_of_take a l : NoDup (addr <$> l) -> (length l <= MAX_BT_PAIRED_DEVICE_COUNT)%nat ->
  entry_of a (take (MAX_BT_PAIRED_DEVICE_COUNT - 1) l) =
  if decide (length l = MAX_BT_PAIRED_DEVICE_COUNT /\ find_index a l = Some 7%nat) then None else entry_of a l.
Proof.
  intros Hnd Hl.
  assert (Ht : NoDup (addr <$> take (MAX_BT_PAIRED_DEVICE_COUNT - 1) l)).
  { pose proof Hnd as H. rewrite <- (take_drop (MAX_BT_PAIRED_DEVICE_COUNT - 1) l), fmap_app in H. by apply NoDup_app in H as [? _]. }
  assert (Hin : forall e, addr e = a -> e ∈ take (MAX_BT_PAIRED_DEVICE_COUNT - 1) l <->
    (e ∈ l /\ ~ (length l = MAX_BT_PAIRED_DEVICE_COUNT /\ find_index a l = Some 7%nat))).
  { intros e Ha. split.
    - intros H. apply list_elem_of_lookup_1 in H as [k Hk]. rewrite lookup_take_if in Hk.
      destruct (decide _) as [Hlt|]; [|done]. split; [by eapply list_elem_of_lookup_2|]. intros [_ Hf].
      rewrite (find_index_NoDup a l k e Hnd Hk Ha) in Hf. injection Hf as ->. unfold MAX_BT_PAIRED_DEVICE_COUNT in Hlt. lia.
    - intros [H Hne]. apply list_elem_of_lookup_1 in H as [k Hk]. apply (list_elem_of_lookup_2 _ k).
      rewrite lookup_take_lt; [done|]. pose proof (lookup_lt_Some _ _ _ Hk).
      pose proof (find_index_NoDup a l k e Hnd Hk Ha) as Hf.
      destruct (decide (k = 7%nat)) as [-> |]; [|unfold MAX_BT_PAIRED_DEVICE_COUNT in *; lia].
      contradict Hne. split; [unfold MAX_BT_PAIRED_DEVICE_COUNT in *; lia | done]. }
  destruct (decide _) as [Hd | Hd].
  - destruct (entry_of a (take _ l)) as [e|] eqn:He; [|done]. apply entry_of_Some in He as [He Ha]; [|done].
    by apply Hin in He as [_ ?].
  - apply entry_of_same; [done|done|]. intros e Ha. rewrite Hin by done. tauto.
Qed.

Lemma entry_of_cons a e l : entry_of a (e :: l) = if decide (addr e = a) then Some e else entry_of a l.
Proof. unfold entry_of. simpl. destruct (decide _); [done|]. by destruct (list_find _ l) as [[k x]|]. Qed.

Lemma spec_add_record dac to_bt p l :
  exists e l', spec_add dac to_bt p l = e :: l' /\ record e = p.
Proof.
  unfold spec_add. destruct (find_index (bdAddr p) l); eexists _, _; (split; [reflexivity|]); [|reflexivity].
  unfold spec_entry. by destruct (decide _).
Qed.

Lemma entry_of_spec_add dac to_bt p l a : NoDup (addr <$> l) -> (length l <= MAX_BT_PAIRED_DEVICE_COUNT)%nat -> a <> bdAddr p ->
  entry_of a (spec_add dac to_bt p l) = if evicted p l a then None else entry_of a l.
Proof.
  intros Hnd Hl Ha. unfold spec_add, evicted. destruct (find_index (bdAddr p) l) as [i|] eqn:Hf.
  - rewrite bool_decide_false by (intros [? _]; congruence). pose proof Hf as Hf'.
    apply find_index_Some in Hf as (Hi & Hai & _). rewrite entry_of_cons, spec_entry_addr by done.
    rewrite decide_False by congruence. apply entry_of_same; [by apply delete_addr_fresh | done |].
    intros e He. apply (elem_of_delete_other a); [done|congruence|done].
  - rewrite entry_of_cons. change (addr (nv_record_pairing_info_reset dac to_bt (with_record p zero_nvrec))) with (bdAddr p).
    rewrite decide_False by congruence. rewrite entry_of_take by done.
    destruct (decide _) as [Hd | Hd]; [rewrite bool_decide_true by tauto | rewrite bool_decide_false by tauto]; done.
Qed.

(** ** The state after the first start, and one with three devices *)
Definition booted : nv_state :=
  nvrecord_bt_init (mkNv true nvrecord_rebuild_paired_bt_dev_info nvrecord_rebuild_paired_bt_dev_info false
    (fun _ => false) (replicate 6 0) []).

Lemma booted_ok : nv_ok booted.
Proof. split; by apply empty_info_ok. Qed.

Definition sample (b : Z) : btif_device_record :=
  mkRec (replicate 6 b) true (Z.odd b) (replicate 16 b) 4 0 [0; 0; 0] (replicate 32 0).
Definition sample_add (b : Z) (s : nv_state) : nv_state :=
  snd (nv_record_ddbrec_add true (fun a => bool_decide (a = replicate 6 2)) 10 (fun v => v * 8) true (sample b) s).
Definition three : nv_state := sample_add 3 (sample_add 2 (sample_add 1 booted)).

Lemma info_ok_by_check i :
  bool_decide (length (pairedBtDevInfo i) = MAX_BT_PAIRED_DEVICE_COUNT /\
    (pairedDevNum i <= MAX_BT_PAIRED_DEVICE_COUNT)%nat /\ NoDup (addr <$> entries i)) = true -> info_ok i.
Proof. by intros H%bool_decide_eq_true. Qed.

(** ** Filtering for the sink list *)
Fixpoint sink_spec (l : list btif_device_record) (max_num : nat) (acc : list btif_device_record) : list btif_device_record :=
  match l with
  | [] => acc
  | e :: l => let acc' := if for_bt_source e then acc ++ [e] else acc in
              if (max_num <=? length acc')%nat then acc' else sink_spec l max_num acc'
  end.

Lemma sink_loop_spec n i l m acc : (i + n <= length l)%nat ->
  sink_loop n i l m acc = sink_spec (record <$> take n (drop i l)) m acc.
Proof.
  revert i acc. induction n as [|n IH]; intros i acc H; [done|].
  rewrite (drop_nth l i zero_nvrec) by lia. simpl.
  destruct (m <=? _)%nat; [done|]. apply IH. lia.
Qed.

Lemma sink_spec_pos l m acc : (length acc < m)%nat ->
  sink_spec l m acc = acc ++ take (m - length acc) (filter (fun r => for_bt_source r = true) l).
Proof.
  revert acc. induction l as [|e l IH]; intros acc Hm; simpl.
  - rewrite filter_nil, take_nil. by rewrite app_nil_r.
  - rewrite filter_cons. destruct (for_bt_source e) eqn:He.
    + rewrite decide_True by done. destruct (Nat.leb_spec m (length (acc ++ [e]))) as [Hle | Hlt]; rewrite length_app in *; simpl in *.
      * assert (m - length acc = 1)%nat as -> by lia. simpl. by rewrite take_0.
      * rewrite IH by (rewrite length_app; simpl; lia). rewrite length_app, <- app_assoc. simpl. f_equal.
        replace (m - length acc)%nat with (S (m - (length acc + 1))) by lia. reflexivity.
    + rewrite decide_False by done. destruct (Nat.leb_spec m (length acc)); [lia|]. by apply IH.
Qed.

(** Only the stash writes the stashed list. *)
Lemma nv_step_cache ibrt tws dac to_bt dflt s op s' : nv_ok s -> op <> OpStash ->
  nv_step ibrt tws dac to_bt dflt s op s' -> bt_pair_info_cache s' = bt_pair_info_cache s.
Proof.
  intros Hok Hop Hs. destruct Hs; try done; try (unfold update_dev; cbn; by destruct (negb _)).
  - destruct (ready s) eqn:Hr; [|unfold nv_record_ddbrec_add; by rewrite Hr].
    by destruct (add_refines ibrt tws dac to_bt dflt r s Hr (proj1 Hok)) as (s' & -> & _ & _ & _ & _ & Hc & _).
  - unfold nv_record_change_order in *. repeat case_match; simplify_eq; done.
  - unfold nv_record_ddbrec_delete. by repeat case_match.
  - unfold nv_record_ddbrec_clear. by case_match.
  - unfold nv_record_ddbrec_clear_all_bt_paired_list. by case_match.
  - unfold nv_record_pop_original_bt_record. by case_match.
Qed.

(** * Properties *)

(** C10: Adding a record implements a list in order of use. In a sound state [nv_record_ddbrec_add]
    succeeds; a new device is put in front, with the default volumes, and the last of a full list is
    dropped; a known one moves to the front, keeping its settings unless its record changed. The
    callbacks registered are told exactly when the device is new (with a key) or changed, TWS or
    mobile by its kind; a flash write is asked exactly when the list changes; the state stays sound. *)
Theorem nvbt_add_refines ibrt tws dac to_bt dflt p s : ready s = true -> info_ok (bt_pair_info s) ->
  exists s', nv_record_ddbrec_add ibrt tws dac to_bt dflt p s = (BT_STS_SUCCESS, s') /\
    devices s' = spec_add dac to_bt p (devices s) /\
    is_update s' = is_update s || negb (bool_decide (devices s' = devices s)) /\
    events s' = events s ++ (if news p (devices s) then told ibrt tws s (bdAddr p) else []) /\
    info_ok (bt_pair_info s') /\ bt_pair_info_cache s' = bt_pair_info_cache s /\ ready s' = true.
Proof. apply add_refines. Qed.

Lemma nvbt_add_refines_witness : ready three = true /\ info_ok (bt_pair_info three) /\
  exists s', nv_record_ddbrec_add false (fun _ => false) 10 (fun v => v) true (sample 2) three = (BT_STS_SUCCESS, s') /\
    addr <$> devices s' = [replicate 6 2; replicate 6 3; replicate 6 1].
Proof.
  split; [reflexivity|]. split; [apply info_ok_by_check; vm_compute; reflexivity|].
  destruct (nvbt_add_refines false (fun _ => false) 10 (fun v => v) true (sample 2) three) as (s' & H & Hd & _).
  - reflexivity.
  - apply info_ok_by_check. vm_compute. reflexivity.
  - exists s'. split; [exact H|]. rewrite Hd. vm_compute. reflexivity.
Defined.

(** What the search answers after an addition: the record added for its address, and for every
    other address what it answered before, the one address pushed out of a full list excepted. *)
Theorem nvbt_find_after_add ibrt tws dac to_bt dflt p s : ready s = true -> info_ok (bt_pair_info s) ->
  let s' := snd (nv_record_ddbrec_add ibrt tws dac to_bt dflt p s) in
  nv_record_ddbrec_find s' (bdAddr p) = (BT_STS_SUCCESS, Some p) /\
  forall a, a <> bdAddr p -> nv_record_ddbrec_find s' a =
    if evicted p (devices s) a then (BT_STS_FAILED, None) else nv_record_ddbrec_find s a.
Proof.
  intros Hr Hok s'. destruct (add_refines ibrt tws dac to_bt dflt p s Hr Hok) as (s2 & Hs & Hd & _ & _ & Hok' & _ & Hr').
  subst s'. rewrite Hs. cbn [snd]. split.
  - rewrite find_spec, Hd by done. destruct (spec_add_record dac to_bt p (devices s)) as (e & l' & -> & He).
    rewrite entry_of_cons, decide_True by (unfold addr; by rewrite He). by rewrite He.
  - intros a Ha. rewrite !find_spec, Hd by done. pose proof Hok as (Hl & Hn & Hnd). rewrite entry_of_spec_add; [|done| |done].
    + by destruct (evicted p (devices s) a).
    + rewrite (length_entries _ Hok : length (devices s) = _). exact Hn.
Qed.

Lemma nvbt_find_after_add_witness : ready three = true /\ info_ok (bt_pair_info three) /\
  nv_record_ddbrec_find (snd (nv_record_ddbrec_add false (fun _ => false) 10 (fun v => v) true (sample 7) three)) (replicate 6 7) =
    (BT_STS_SUCCESS, Some (sample 7)).
Proof.
  assert (H : info_ok (bt_pair_info three)) by (apply info_ok_by_check; vm_compute; reflexivity).
  split; [reflexivity|]. split; [exact H|].
  exact (proj1 (nvbt_find_after_add false (fun _ => false) 10 (fun v => v) true (sample 7) three eq_refl H)).
Defined.

(** Deleting an address takes exactly its entry out: it is not found afterwards, every other
    address is answered as before, in the same order, one entry less; an unknown address fails and
    changes nothing. *)
Theorem nvbt_delete_exact a s : ready s = true -> info_ok (bt_pair_info s) ->
  let '(st, s') := nv_record_ddbrec_delete a s in
  match find_index a (devices s) with
  | None => st = BT_STS_FAILED /\ s' = s
  | Some i => st = BT_STS_SUCCESS /\ devices s' = delete i (devices s) /\ is_update s' = true /\
      nv_record_get_paired_dev_count s' = nv_record_get_paired_dev_count s - 1 /\
      nv_record_ddbrec_find s' a = (BT_STS_FAILED, None) /\
      (forall b, b <> a -> nv_record_ddbrec_find s' b = nv_record_ddbrec_find s b)
  end.
Proof.
  intros Hr Hok. pose proof (delete_refines a s Hr Hok) as H. destruct (find_index a (devices s)) as [i|] eqn:Hf.
  - destruct H as (s' & -> & Hd & Hu & _ & Hok' & _ & Hr'). pose proof Hok as (Hl & Hn & Hnd).
    apply find_index_Some in Hf as (Hi & Ha & _). destruct (delete_addr_fresh _ _ Hnd Hi) as [H1 H2].
    split; [done|]. split; [done|]. split; [done|]. split; [|split].
    + unfold nv_record_get_paired_dev_count. rewrite Hr, Hr', <- !length_entries by done. fold (devices s) (devices s').
      rewrite Hd, list.length_delete by (by apply lookup_lt_is_Some_2). lia.
    + rewrite find_spec, Hd by done. rewrite (proj2 (entry_of_None a (delete i (devices s)))); [done|]. by rewrite <- Ha.
    + intros b Hb. rewrite !find_spec, Hd by done. rewrite (entry_of_same b (delete i (devices s)) (devices s)); [done|done|done|].
      intros e He. apply (elem_of_delete_other b); [done|congruence|done].
  - by rewrite H.
Qed.

Lemma nvbt_delete_exact_witness : ready three = true /\ info_ok (bt_pair_info three) /\
  nv_record_get_paired_dev_count (snd (nv_record_ddbrec_delete (replicate 6 2) three)) = 2.
Proof.
  assert (H : info_ok (bt_pair_info three)) by (apply info_ok_by_check; vm_compute; reflexivity).
  split; [reflexivity|]. split; [exact H|].
  pose proof (nvbt_delete_exact (replicate 6 2) three eq_refl H) as Hd. vm_compute in Hd |- *. apply Hd.
Defined.

(** Moving a record to a position in use reorders the list and nothing else: the entry stands at
    the target, the others keep their relative order, the list is a permutation of the old one and a
    flash write is asked; an unknown record, a position out of range or the present one fails and changes nothing. *)
Theorem nvbt_change_order s r target : ready s = true -> info_ok (bt_pair_info s) ->
  match find_index (bdAddr r) (devices s) with
  | Some cur =>
      if (target <? length (devices s))%nat && negb (cur =? target)%nat then
        exists s', nv_record_change_order s r target = Some (BT_STS_SUCCESS, s') /\
          devices s' ≡ₚ devices s /\ devices s' !! target = devices s !! cur /\
          delete target (devices s') = delete cur (devices s) /\ is_update s' = true
      else nv_record_change_order s r target = Some (BT_STS_FAILED, s)
  | None => nv_record_change_order s r target = Some (BT_STS_FAILED, s)
  end.
Proof.
  intros Hr Hok. pose proof (change_order_refines s r target Hr Hok) as H.
  destruct (find_index (bdAddr r) (devices s)) as [cur|] eqn:Hf; [|done].
  destruct (Nat.ltb_spec target (length (devices s))) as [Hlt|]; [|done]. destruct (Nat.eqb_spec cur target); [done|].
  cbn [andb negb] in *. destruct H as (s' & H & Hd & Hu & _). apply find_index_Some in Hf as (Hc & _).
  assert (Hdl : (S (length (delete cur (devices s))) = length (devices s))%nat)
    by (rewrite list.length_delete by (by apply lookup_lt_is_Some_2); lia).
  exists s'. split; [done|]. rewrite Hd. split; [by apply spec_move_Permutation|]. split; [|split; [|done]].
  - rewrite lookup_spec_move by done. rewrite decide_True by done. symmetry. by apply lookup_nth.
  - unfold spec_move. rewrite <- (take_drop target (delete cur (devices s))) at 3.
    assert (Hl : length (take target (delete cur (devices s))) = target) by (rewrite length_take; lia).
    rewrite <- Hl at 1. apply delete_middle.
Qed.

Lemma nvbt_change_order_witness : ready three = true /\ info_ok (bt_pair_info three) /\
  exists s', nv_record_change_order three (sample 1) 0 = Some (BT_STS_SUCCESS, s') /\ devices s' ≡ₚ devices three.
Proof.
  assert (H : info_ok (bt_pair_info three)) by (apply info_ok_by_check; vm_compute; reflexivity).
  split; [reflexivity|]. split; [exact H|].
  pose proof (nvbt_change_order three (sample 1) 0 eq_refl H) as Hc.
  destruct (find_index (bdAddr (sample 1)) (devices three)) as [cur|] eqn:Hf; [|vm_compute in Hf; discriminate].
  assert (cur = 2%nat) as -> by (vm_compute in Hf; congruence).
  destruct Hc as (s' & Hs & Hp & _). exists s'. split; [exact Hs | exact Hp].
Defined.

(** C23: No sequence of additions, deletions, moves, clearings, stashes and settings breaks the list:
    from the state after the first start the number stays within the array and no address is held
    twice; each step that changes the list has asked for a flash write, and no step withdraws one. *)
Theorem nvbt_invariant ibrt tws dac to_bt dflt ops s : nv_run ibrt tws dac to_bt dflt booted ops s ->
  info_ok (bt_pair_info s) /\ info_ok (bt_pair_info_cache s) /\
  forall op s', nv_step ibrt tws dac to_bt dflt s op s' ->
    (is_update s = true -> is_update s' = true) /\ (devices s' <> devices s -> is_update s' = true).
Proof.
  intros Hr. pose proof (nv_run_sound _ _ _ _ _ _ _ _ booted_ok Hr) as Hok.
  split; [apply Hok|]. split; [apply Hok|]. intros op s' Hs.
  destruct (nv_step_sound _ _ _ _ _ _ _ _ Hok Hs) as (_ & _ & H1 & H2). done.
Qed.

Lemma nvbt_invariant_witness : exists s, nv_run false (fun _ => false) 10 (fun v => v) true booted [OpAdd (sample 1); OpAdd (sample 2); OpStash] s /\
  info_ok (bt_pair_info_cache s).
Proof.
  eexists. assert (H : nv_run false (fun _ => false) 10 (fun v => v) true booted [OpAdd (sample 1); OpAdd (sample 2); OpStash] _)
    by (repeat econstructor).
  split; [exact H|]. exact (proj1 (proj2 (nvbt_invariant _ _ _ _ _ _ _ H))).
Defined.

(** The original list survives a stash: after [nv_record_stash_original_bt_record] the list is
    empty, whatever is then added, deleted, moved or set in it, [nv_record_pop_original_bt_record]
    brings the stashed list back. *)
Theorem nvbt_stash_pop ibrt tws dac to_bt dflt s ops s1 : ready s = true -> nv_ok s ->
  nv_run ibrt tws dac to_bt dflt (snd (nv_record_stash_original_bt_record s)) ops s1 ->
  Forall (fun op => op <> OpStash) ops ->
  devices (snd (nv_record_stash_original_bt_record s)) = [] /\
  fst (nv_record_pop_original_bt_record s1) = BT_STS_SUCCESS /\
  devices (snd (nv_record_pop_original_bt_record s1)) = devices s /\
  is_update (snd (nv_record_pop_original_bt_record s1)) = true.
Proof.
  intros Hr Hok Hrun Hops. unfold nv_record_stash_original_bt_record in *. rewrite Hr in *. cbn [negb fst snd] in *.
  split; [reflexivity|].
  assert (Hinv : forall s0, nv_run ibrt tws dac to_bt dflt s0 ops s1 -> nv_ok s0 -> ready s0 = true ->
    bt_pair_info_cache s0 = bt_pair_info s -> ready s1 = true /\ bt_pair_info_cache s1 = bt_pair_info s).
  { clear Hrun. intros s0 Hrun. induction Hrun as [s2|s2 op s3 ops s4 Hs Hrun IH]; intros Ho Hr2 Hc; [done|].
    apply Forall_cons in Hops as [Hop Hops]. pose proof (nv_step_sound _ _ _ _ _ _ _ _ Ho Hs) as (Hr3 & Ho3 & _).
    apply IH; [done|done|by rewrite Hr3|]. rewrite <- Hc. by eapply nv_step_cache. }
  destruct (Hinv _ Hrun) as [H1 H2]; [|done|done|].
  - split; [by apply empty_info_ok | apply Hok].
  - unfold nv_record_pop_original_bt_record. rewrite H1. cbn [negb fst snd]. split; [done|]. split; [|done].
    unfold devices. cbn. by rewrite H2.
Qed.

Lemma nvbt_stash_pop_witness : ready three = true /\ nv_ok three /\ exists s1,
  nv_run false (fun _ => false) 10 (fun v => v) true (snd (nv_record_stash_original_bt_record three)) [OpAdd (sample 9); OpClear] s1 /\
  devices (snd (nv_record_pop_original_bt_record s1)) = devices three.
Proof.
  assert (H0 : nv_ok three) by (split; apply info_ok_by_check; vm_compute; reflexivity).
  split; [reflexivity|]. split; [exact H0|]. eexists.
  assert (H : nv_run false (fun _ => false) 10 (fun v => v) true (snd (nv_record_stash_original_bt_record three)) [OpAdd (sample 9); OpClear] _)
    by (repeat econstructor).
  split; [exact H|].
  refine (proj1 (proj2 (proj2 (nvbt_stash_pop _ _ _ _ _ three _ _ eq_refl H0 H _)))).
  repeat constructor; discriminate.
Defined.

(** The sink list is the records marked as sources, in the order of the list, at most [max_num]
    of them and at least one place: with [max_num] 0 the first entry is still copied when it is one. *)
Theorem nvbt_sink_paired s max_num : ready s = true -> info_ok (bt_pair_info s) ->
  nv_record_get_sink_paired_dev s max_num =
  let l := filter (fun r => for_bt_source r = true) (record <$> devices s) in
  let r := if (0 <? max_num)%nat then take max_num l else filter (fun r => for_bt_source r = true) (take 1 (record <$> devices s)) in
  (Z.of_nat (length r), r).
Proof.
  intros Hr (Hl & Hn & _). unfold nv_record_get_sink_paired_dev. rewrite Hr. cbn [negb].
  rewrite (sink_loop_spec _ 0) by (rewrite Hl; lia). rewrite drop_0. fold (entries (bt_pair_info s)). fold (devices s).
  destruct (Nat.ltb_spec 0 max_num) as [H | H].
  - rewrite (sink_spec_pos (record <$> devices s) max_num []) by (simpl; lia). by rewrite Nat.sub_0_r.
  - assert (max_num = 0)%nat as -> by lia. destruct (devices s) as [|e l]; [done|].
    change (take 1 (record <$> e :: l)) with [record e]. cbn [fmap list_fmap sink_spec]. rewrite filter_cons, filter_nil. by destruct (for_bt_source (record e)).
Qed.

Lemma nvbt_sink_paired_witness : ready three = true /\ info_ok (bt_pair_info three) /\
  nv_record_get_sink_paired_dev three 1 = (1, [sample 3]).
Proof.
  assert (H : info_ok (bt_pair_info three)) by (apply info_ok_by_check; vm_compute; reflexivity).
  split; [reflexivity|]. split; [exact H|]. rewrite (nvbt_sink_paired three 1 eq_refl H). vm_compute. reflexivity.
Defined.
