(* ===== verification/NvBle.v ===== *)
(** The bonded BLE devices of apps/nv_section/userdata_section/nvrecord_ble.c: a bounded list in order
    of use kept in an array, the keys and caches of each device, the caches of the attributes of peers,
    the identity of the device and of the other earbud, and the key derived for the classic link, which
    goes to the list of NvBt.v. A flush is asked for by the calls recorded in [ble_calls]; what they do
    is in NvExt.v. [None]: a read through the null pointer or outside an array, or a failed assertion. *)
From Stdlib Require Import ZArith Lia Bool.
From stdpp Require Import base option list.
From S2P Require Import Prelude NvBt.

(** ** Data: bytes only, without padding, so [memcmp] is equality of the fields *)
Definition BLE_RECORD_NUM : nat := 5.
Definition BLE_ADDR_SIZE : nat := 6.
Definition BLE_ENC_RANDOM_SIZE : nat := 8.
Definition BLE_LTK_SIZE : nat := 16.
Definition BLE_IRK_SIZE : nat := 16.
Definition BLE_CSRK_SIZE : nat := 16.
Definition BONDED_STATUS_POS : Z := 0.
Definition BONDED_WITH_IRK_DISTRIBUTED : Z := 1.

Record BLE_ADDR_INFO_T := mkAddr { ble_bd_addr : list Z; addr_type : Z }.

(** One bit each. *)
Record gattc_server_cache_t := mkSrv {
  server_cache_is_exist : bool; service_change_unaware : bool; gatt_client_supp_robust_caching : bool;
  gatt_client_supp_eatt_bearer : bool; gatt_client_supp_recv_multi_notify : bool; gatt_server_supp_eatt_bearer : bool;
  gatt_server_has_service_changed_char : bool; gatt_server_has_database_hash_char : bool }.

(** The client's cache is copied and cleared as a whole: its bytes. *)
Definition gattc_client_cache_t := list Z.
Definition sizeof_client_cache : nat := 566.

Record gattc_nv_cache_t := mkCache { cache_seqn : Z; cache_peer_addr : BLE_ADDR_INFO_T; client_cache : gattc_client_cache_t }.

Record BleDevicePairingInfo := mkPair {
  peer_addr : BLE_ADDR_INFO_T; bond_info_bf : Z; EDIV : Z; LOCAL_EDIV : Z; RANDOM : list Z; LTK : list Z;
  LOCAL_RANDOM : list Z; LOCAL_LTK : list Z; IRK : list Z; CSRK : list Z; enc_key_size : Z; server_cache : gattc_server_cache_t }.

Record BleDeviceinfo := mkDevice { pairingInfo : BleDevicePairingInfo; volume : Z }.
Record BLE_BASIC_INFO_T := mkBasic { ble_addr : list Z; ble_irk : list Z; ble_csrk : list Z }.

Record NV_RECORD_PAIRED_BLE_DEV_INFO_T := mkBleInfo {
  saved_list_num : nat; self_info : BLE_BASIC_INFO_T; local_database_hash : list Z;
  ble_nv : list BleDeviceinfo; gatt_cache : list gattc_nv_cache_t }.

Record NV_RECORD_BLE_AUDIO_DEV_INFO_T := mkAudio { set_member : Z; sirk : list Z }.

#[export] Instance BLE_ADDR_INFO_T_eq_dec : EqDecision BLE_ADDR_INFO_T.
Proof. solve_decision. Defined.
#[export] Instance gattc_server_cache_t_eq_dec : EqDecision gattc_server_cache_t.
Proof. solve_decision. Defined.
#[export] Instance BleDevicePairingInfo_eq_dec : EqDecision BleDevicePairingInfo.
Proof. solve_decision. Defined.
#[export] Instance BLE_BASIC_INFO_T_eq_dec : EqDecision BLE_BASIC_INFO_T.
Proof. solve_decision. Defined.

(** [memset(.., 0, ..)]. *)
Definition zero_addr : BLE_ADDR_INFO_T := mkAddr (replicate BLE_ADDR_SIZE 0) 0.
Definition empty_cache : gattc_server_cache_t := mkSrv false false false false false false false false.
Definition zero_pair : BleDevicePairingInfo :=
  mkPair zero_addr 0 0 0 (replicate BLE_ENC_RANDOM_SIZE 0) (replicate BLE_LTK_SIZE 0) (replicate BLE_ENC_RANDOM_SIZE 0)
    (replicate BLE_LTK_SIZE 0) (replicate BLE_IRK_SIZE 0) (replicate BLE_CSRK_SIZE 0) 0 empty_cache.
Definition zero_device : BleDeviceinfo := mkDevice zero_pair 0.
Definition zero_gatt : gattc_nv_cache_t := mkCache 0 zero_addr (replicate sizeof_client_cache 0).

(** nv_record_extension_update, nv_record_execute_async_flush and nv_record_flash_flush of NvExt.v. *)
Inductive nv_call := UPDATE | ASYNC_FLUSH | FLASH_FLUSH.

(** Whether nvrecord_ble_p is set, the parts of the record, the address the radio uses, the calls. *)
Record nv_ble := mkBle {
  ble_ready : bool; ble_pair_info : NV_RECORD_PAIRED_BLE_DEV_INFO_T; tws_ble_info : BLE_BASIC_INFO_T;
  ble_local_address : list Z; audio_ready : bool; ble_audio_dev_info : NV_RECORD_BLE_AUDIO_DEV_INFO_T; ble_calls : list nv_call }.

(** Assignments. *)
Definition set_pair_info i s := mkBle (ble_ready s) i (tws_ble_info s) (ble_local_address s) (audio_ready s) (ble_audio_dev_info s) (ble_calls s).
Definition set_tws t s := mkBle (ble_ready s) (ble_pair_info s) t (ble_local_address s) (audio_ready s) (ble_audio_dev_info s) (ble_calls s).
Definition set_local a s := mkBle (ble_ready s) (ble_pair_info s) (tws_ble_info s) a (audio_ready s) (ble_audio_dev_info s) (ble_calls s).
Definition set_audio r a s := mkBle (ble_ready s) (ble_pair_info s) (tws_ble_info s) (ble_local_address s) r a (ble_calls s).
Definition call c s := mkBle (ble_ready s) (ble_pair_info s) (tws_ble_info s) (ble_local_address s) (audio_ready s) (ble_audio_dev_info s) (ble_calls s ++ [c]).
Definition set_devices n l s := let i := ble_pair_info s in set_pair_info (mkBleInfo n (self_info i) (local_database_hash i) l (gatt_cache i)) s.
Definition set_gatt g s := let i := ble_pair_info s in set_pair_info (mkBleInfo (saved_list_num i) (self_info i) (local_database_hash i) (ble_nv i) g) s.
Definition set_self b s := let i := ble_pair_info s in set_pair_info (mkBleInfo (saved_list_num i) b (local_database_hash i) (ble_nv i) (gatt_cache i)) s.

Definition list_num (s : nv_ble) : nat := saved_list_num (ble_pair_info s).
Definition nv_list (s : nv_ble) : list BleDeviceinfo := ble_nv (ble_pair_info s).

(** Reading through nvrecord_ble_p. *)
Definition through {A} (s : nv_ble) (r : option A) : option A := if ble_ready s then r else None.

(** The bytes of the address of a device. *)
Definition bd_of (e : BleDeviceinfo) : list Z := ble_bd_addr (peer_addr (pairingInfo e)).
Definition same_bd (a : list Z) (e : BleDeviceinfo) : bool := bool_decide (bd_of e = a).
Definition same_addr (a : BLE_ADDR_INFO_T) (e : BleDeviceinfo) : bool := bool_decide (peer_addr (pairingInfo e) = a).

(** [for (i = i; i < i + n; i++) if (P(ble_nv[i])) break;] *)
Fixpoint search (P : BleDeviceinfo -> bool) (n i : nat) (l : list BleDeviceinfo) : option (option nat) :=
  match n with
  | O => Some None
  | S n' => e ← l !! i; if P e then Some (Some i) else search P n' (S i) l
  end.

(** [memcpy] of entry [j] to entry [i], and the two moves by one place. *)
Definition copy_device (i j : nat) (l : list BleDeviceinfo) : option (list BleDeviceinfo) :=
  e ← l !! j; guard (i < length l)%nat;; Some (<[i := e]> l).

(** [for (k = 0; k < n; k++) ble_nv[t - k] = ble_nv[t - 1 - k];] *)
Fixpoint shift_down (n t : nat) (l : list BleDeviceinfo) : option (list BleDeviceinfo) :=
  match n with O => Some l | S n' => l' ← copy_device t (t - 1) l; shift_down n' (t - 1) l' end.

(** [for (; i < i + n; i++) ble_nv[i] = ble_nv[i + 1];] *)
Fixpoint shift_up (n i : nat) (l : list BleDeviceinfo) : option (list BleDeviceinfo) :=
  match n with O => Some l | S n' => l' ← copy_device i (i + 1) l; shift_up n' (i + 1) l' end.

Definition store_device (i : nat) (e : BleDeviceinfo) (l : list BleDeviceinfo) : option (list BleDeviceinfo) :=
  guard (i < length l)%nat;; Some (<[i := e]> l).

(** ** Start and rebuilding *)
Section Random.
(** What [rand] draws after [srand(seed)], the [k]-th time. *)
Variable rand : Z -> nat -> Z.

(** [t0] and [reads] are the answers of the timer. *)
Definition generatedSeed (bt_global_addr : list Z) (t0 : Z) (reads : list Z) : Z :=
  fold_left (fun g x => Z.lxor g (u32 (Z.shiftl x.1 (Z.land x.2 0xF)))) (zip bt_global_addr reads) (u32 t0).

Definition nvrecord_gen_local_random (seed : Z) (k : nat) : list Z := (fun i => u8 (rand seed (k + i))) <$> seq 0 BLE_IRK_SIZE.

Definition nvrecord_rebuild_paired_ble_dev_info (gatt_num : nat) (bt_global_addr : list Z) (t0 : Z) (reads : list Z) : NV_RECORD_PAIRED_BLE_DEV_INFO_T :=
  let seed := generatedSeed bt_global_addr t0 reads in
  mkBleInfo 0 (mkBasic (replicate BLE_ADDR_SIZE 0) (nvrecord_gen_local_random seed 0) (nvrecord_gen_local_random seed BLE_IRK_SIZE))
    (replicate 16 0) (replicate BLE_RECORD_NUM zero_device) (replicate gatt_num zero_gatt).

Definition nv_record_bleaudio_init (use_custom_sirk : bool) (bt_global_addr : list Z) (t0 : Z) (reads : list Z) (s : nv_ble) : nv_ble :=
  if audio_ready s then s
  else
    let a := ble_audio_dev_info s in
    if bool_decide (sirk a = replicate 16 0) || bool_decide (sirk a = replicate 16 255) then
      let seed := generatedSeed bt_global_addr t0 reads in
      set_audio true (mkAudio 0 (if use_custom_sirk then sirk a else (fun i => rand seed i mod 255 + 1) <$> seq 0 16)) s
    else set_audio true a s.
End Random.

Definition nv_record_blerec_init (s : nv_ble) : nv_ble :=
  if ble_ready s then s
  else
    let s1 := mkBle true (ble_pair_info s) (tws_ble_info s) (ble_local_address s) (audio_ready s) (ble_audio_dev_info s) (ble_calls s) in
    let b := self_info (ble_pair_info s) in
    if bool_decide (ble_addr b = replicate BLE_ADDR_SIZE 0) then set_self (mkBasic (ble_local_address s) (ble_irk b) (ble_csrk b)) s1 else s1.

(** ** Adding a device *)
Inductive nv_update := NV_BLE_DONT_UPDATE | NV_BLE_ADD_NEW_ITEM | NV_BLE_UPDATE_EXIST.

(** Room for a device that is not there: the last one leaves a full list. *)
Definition prepare_new (s : nv_ble) : option (nv_update * nv_ble) :=
  if (list_num s =? BLE_RECORD_NUM)%nat then
    l ← shift_down (BLE_RECORD_NUM - 1) (BLE_RECORD_NUM - 1) (nv_list s);
    l1 ← store_device 0 zero_device l; Some (NV_BLE_ADD_NEW_ITEM, set_devices (list_num s - 1) l1 s)
  else
    l ← shift_down (list_num s) (list_num s) (nv_list s);
    l1 ← store_device 0 zero_device l; Some (NV_BLE_ADD_NEW_ITEM, set_devices (list_num s) l1 s).

(** The place of a device that is there is freed and it moves to the head, unless there is no memory
    for its copy. *)
Definition prepare_existing (malloc_ok : bool) (entryToFree : nat) (e : BleDeviceinfo) (s : nv_ble) : option (nv_update * nv_ble) :=
  l ← store_device entryToFree (mkDevice zero_pair (volume e)) (nv_list s);
  exist ← l !! entryToFree;
  l1 ← shift_down entryToFree entryToFree l;
  l2 ← (if malloc_ok then store_device 0 exist l1 else Some l1);
  Some (NV_BLE_UPDATE_EXIST, set_devices (list_num s - 1) l2 s).

Definition blerec_specific_value_prepare (malloc_ok : bool) (param_rec : BleDevicePairingInfo) (s : nv_ble) : option (nv_update * nv_ble) :=
  through s (
    if (list_num s =? 0)%nat then Some (NV_BLE_ADD_NEW_ITEM, s)
    else
      found ← search (same_bd (ble_bd_addr (peer_addr param_rec))) (list_num s) 0 (nv_list s);
      match found with
      | Some i =>
          e ← nv_list s !! i;
          if bool_decide (param_rec = pairingInfo e) then Some (NV_BLE_DONT_UPDATE, s) else prepare_existing malloc_ok i e s
      | None => prepare_new s
      end).

(** [default_vol] is the default volume on the LE scale, in a build with BLE_AUDIO_ENABLED. *)
Definition nv_record_blerec_add (default_vol : option Z) (malloc_ok : bool) (param_rec : BleDevicePairingInfo) (s : nv_ble) : option (Z * nv_ble) :=
  '(upd, s1) ← blerec_specific_value_prepare malloc_ok param_rec s;
  match upd with
  | NV_BLE_DONT_UPDATE => Some (0, s1)
  | _ =>
      e ← nv_list s1 !! 0%nat;
      let v := match upd, default_vol with NV_BLE_ADD_NEW_ITEM, Some d => d | _, _ => volume e end in
      l ← store_device 0 (mkDevice param_rec v) (nv_list s1);
      Some (0, call ASYNC_FLUSH (call UPDATE (set_devices (list_num s1 + 1) l s1)))
  end.

(** ** Reading *)
Definition nv_record_get_paired_ble_dev_info_list_num (s : nv_ble) : nat := if ble_ready s then list_num s else 0%nat.

(** The number is read before the pointer is tested. *)
Definition nv_record_get_ble_pairing_info_through_list_index (listIndex : nat) (s : nv_ble) : option (bool * option BleDevicePairingInfo) :=
  through s (
    if (list_num s =? 0)%nat || (list_num s <=? listIndex)%nat then Some (false, None)
    else e ← nv_list s !! listIndex; Some (true, Some (pairingInfo e))).

Definition nv_record_blerec_get_local_irk (s : nv_ble) : option (list Z) := through s (Some (ble_irk (self_info (ble_pair_info s)))).

(** What is read of the first device that [P] takes. *)
Definition read_first {A} (P : BleDeviceinfo -> bool) (f : BleDeviceinfo -> A) (s : nv_ble) : option (option A) :=
  found ← search P (list_num s) 0 (nv_list s);
  match found with Some i => e ← nv_list s !! i; Some (Some (f e)) | None => Some None end.

(** The address of some device that is not this one. *)
Definition nvrecord_find_arbitrary_peer_ble_device_address (s : nv_ble) : option (option (list Z)) :=
  if negb (ble_ready s) then Some None
  else read_first (fun e => negb (same_bd (ble_addr (self_info (ble_pair_info s))) e)) bd_of s.

Definition nv_record_blerec_get_bd_addr_from_irk (pIrk : list Z) (s : nv_ble) : option (option (list Z)) :=
  through s (read_first (fun e => bool_decide (IRK (pairingInfo e) = pIrk)) bd_of s).

Definition nv_record_blerec_get_irk_from_addr (pBdAddr : list Z) (s : nv_ble) : option (option (list Z)) :=
  if negb (ble_ready s) then Some None else read_first (same_bd pBdAddr) (fun e => IRK (pairingInfo e)) s.

(** The answer and what is copied to the caller's two records. *)
Definition nv_record_blerec_enum_latest_two_paired_dev (s : nv_ble) : option (Z * list BleDeviceinfo) :=
  if negb (ble_ready s) then Some (-1, [])
  else if (list_num s =? 0)%nat then Some (0, [])
  else
    e0 ← nv_list s !! 0%nat;
    if (list_num s =? 1)%nat then Some (1, [e0]) else e1 ← nv_list s !! 1%nat; Some (2, [e0; e1]).

(** The first [n] devices. *)
Fixpoint read_devices (n i : nat) (l : list BleDeviceinfo) : option (list BleDeviceinfo) :=
  match n with O => Some [] | S n' => e ← l !! i; r ← read_devices n' (S i) l; Some (e :: r) end.

Definition nv_record_blerec_enum_paired_dev_addr (s : nv_ble) : option (Z * list BLE_ADDR_INFO_T) :=
  through s (
    l ← read_devices (list_num s) 0 (nv_list s); Some (u8 (Z.of_nat (list_num s)), map (fun e => peer_addr (pairingInfo e)) l)).

Definition nv_record_ble_fill_irk (s : nv_ble) : option (Z * list (list Z)) :=
  if negb (ble_ready s) || (list_num s =? 0)%nat then Some (0, [])
  else l ← read_devices (list_num s) 0 (nv_list s); Some (u8 (Z.of_nat (list_num s)), map (fun e => IRK (pairingInfo e)) l).

Definition nv_record_blerec_get_paired_dev_from_addr (pBdAddr : BLE_ADDR_INFO_T) (s : nv_ble) : option (option BleDevicePairingInfo) :=
  if negb (ble_ready s) then Some None else read_first (same_addr pBdAddr) pairingInfo s.

Definition nv_record_blerec_is_paired_from_addr (pBdAddr : list Z) (s : nv_ble) : option bool :=
  if negb (ble_ready s) then Some false else r ← read_first (same_bd pBdAddr) (fun _ => tt) s; Some (bool_decide (is_Some r)).

(** The key of a peer or the local one, by the diversifier; a device of the address without such a key
    is passed over. *)
Definition pFoundLtk (ediv : Z) (p : BleDevicePairingInfo) : option (list Z) :=
  if (ediv =? 0) || (negb (ediv =? 0) && (EDIV p =? ediv)) then Some (LTK p)
  else if LOCAL_EDIV p =? ediv then Some (LOCAL_LTK p) else None.

Definition nv_record_ble_record_find_ltk (pBdAddr : list Z) (ediv : Z) (s : nv_ble) : option (option (list Z)) :=
  if negb (ble_ready s) then Some None
  else
    r ← read_first (fun e => same_bd pBdAddr e && bool_decide (is_Some (pFoundLtk ediv (pairingInfo e)))) (fun e => pFoundLtk ediv (pairingInfo e)) s;
    Some (match r with Some o => o | None => None end).

(** No break: the last one found. *)
Fixpoint last_loop (P : BleDeviceinfo -> bool) (n i : nat) (l : list BleDeviceinfo) (found : option BleDevicePairingInfo) : option (option BleDevicePairingInfo) :=
  match n with
  | O => Some found
  | S n' => e ← l !! i; last_loop P n' (S i) l (if P e then Some (pairingInfo e) else found)
  end.

Definition nv_record_ble_record_find_device_security_info_through_static_bd_addr (pBdAddr : list Z) (s : nv_ble) : option (option BleDevicePairingInfo) :=
  if negb (ble_ready s) then Some None else last_loop (same_bd pBdAddr) (list_num s) 0 (nv_list s) None.

Definition get_bit (x y : Z) : bool := negb (Z.land (Z.shiftr x y) 1 =? 0).
Definition set_bit (x y : Z) : Z := u8 (Z.lor x (Z.shiftl 1 y)).
Definition clr_bit (x y : Z) : Z := u8 (Z.land x (Z.lnot (Z.shiftl 1 y))).

Definition nv_record_ble_record_Once_a_device_has_been_bonded (s : nv_ble) : option bool :=
  if negb (ble_ready s) then Some false
  else r ← read_first (fun e => get_bit (bond_info_bf (pairingInfo e)) BONDED_STATUS_POS) (fun _ => tt) s; Some (bool_decide (is_Some r)).

Definition nv_record_ble_read_addr_resolv_supp_via_bdaddr (pBdAddr : list Z) (s : nv_ble) : option (option bool) :=
  if negb (ble_ready s) then Some None
  else read_first (same_bd pBdAddr) (fun e => get_bit (bond_info_bf (pairingInfo e)) BONDED_WITH_IRK_DISTRIBUTED) s.

Definition nv_record_ble_read_volume_via_bdaddr (pBdAddr : list Z) (s : nv_ble) : option (option Z) :=
  if negb (ble_ready s) then Some None else read_first (same_bd pBdAddr) volume s.

Definition nv_record_ble_server_cache_get (p_addr : option BLE_ADDR_INFO_T) (s : nv_ble) : option (option gattc_server_cache_t) :=
  match p_addr with
  | Some a => if negb (ble_ready s) then Some None else read_first (same_addr a) (fun e => server_cache (pairingInfo e)) s
  | None => Some None
  end.

(** ** Changing a device *)

(** The first device that [P] takes becomes [f] of it; the answer says whether there is one. *)
Definition change_first (P : BleDeviceinfo -> bool) (f : BleDeviceinfo -> BleDeviceinfo) (s : nv_ble) : option (bool * nv_ble) :=
  found ← search P (list_num s) 0 (nv_list s);
  match found with
  | Some i => e ← nv_list s !! i; l ← store_device i (f e) (nv_list s); Some (true, set_devices (list_num s) l s)
  | None => Some (false, s)
  end.

Definition with_pair (f : BleDevicePairingInfo -> BleDevicePairingInfo) (e : BleDeviceinfo) : BleDeviceinfo := mkDevice (f (pairingInfo e)) (volume e).
Definition with_bond (f : Z -> Z) (p : BleDevicePairingInfo) : BleDevicePairingInfo :=
  mkPair (peer_addr p) (f (bond_info_bf p)) (EDIV p) (LOCAL_EDIV p) (RANDOM p) (LTK p) (LOCAL_RANDOM p) (LOCAL_LTK p) (IRK p) (CSRK p) (enc_key_size p) (server_cache p).
Definition with_server_cache (c : gattc_server_cache_t) (p : BleDevicePairingInfo) : BleDevicePairingInfo :=
  mkPair (peer_addr p) (bond_info_bf p) (EDIV p) (LOCAL_EDIV p) (RANDOM p) (LTK p) (LOCAL_RANDOM p) (LOCAL_LTK p) (IRK p) (CSRK p) (enc_key_size p) c.
Definition set_unaware (c : gattc_server_cache_t) : gattc_server_cache_t :=
  mkSrv (server_cache_is_exist c) true (gatt_client_supp_robust_caching c) (gatt_client_supp_eatt_bearer c)
    (gatt_client_supp_recv_multi_notify c) (gatt_server_supp_eatt_bearer c) (gatt_server_has_service_changed_char c) (gatt_server_has_database_hash_char c).

(** The flush is asked for before the bit is written, under the same lock. *)
Definition nv_record_ble_write_addr_resolv_supp_via_bdaddr (pBdAddr : list Z) (issupport : bool) (s : nv_ble) : option (bool * nv_ble) :=
  if negb (ble_ready s) then Some (false, s)
  else
    '(b, s1) ← change_first (same_bd pBdAddr)
      (with_pair (with_bond (fun x => if issupport then set_bit x BONDED_WITH_IRK_DISTRIBUTED else clr_bit x BONDED_WITH_IRK_DISTRIBUTED))) s;
    Some (b, if b : bool then call ASYNC_FLUSH (call UPDATE s1) else s1).

Definition nv_record_ble_write_volume_via_bdaddr (pBdAddr : list Z) (vol : Z) (s : nv_ble) : option (bool * nv_ble) :=
  if negb (ble_ready s) then Some (false, s)
  else '(b, s1) ← change_first (same_bd pBdAddr) (fun e => mkDevice (pairingInfo e) vol) s; Some (b, if b : bool then call UPDATE s1 else s1).

Definition nv_record_ble_server_cache_add (p_addr : option BLE_ADDR_INFO_T) (c : option gattc_server_cache_t) (s : nv_ble) : option (Z * nv_ble) :=
  match p_addr, c with
  | Some a, Some c =>
      if negb (ble_ready s) then Some (-1, s)
      else '(_, s1) ← change_first (same_addr a) (with_pair (with_server_cache c)) s; Some (0, call ASYNC_FLUSH (call UPDATE s1))
  | _, _ => Some (-1, s)
  end.

Definition nv_record_ble_server_cache_del (p_addr : option BLE_ADDR_INFO_T) (s : nv_ble) : option (Z * nv_ble) :=
  nv_record_ble_server_cache_add p_addr (Some empty_cache) s.

(** [for (i = i; i < i + n; i++)], each device in place. *)
Fixpoint each_device (f : BleDeviceinfo -> BleDeviceinfo) (n i : nat) (l : list BleDeviceinfo) : option (list BleDeviceinfo) :=
  match n with O => Some l | S n' => e ← l !! i; l' ← store_device i (f e) l; each_device f n' (S i) l' end.

Definition nv_record_blerec_set_change_unaware (s : nv_ble) : option nv_ble :=
  through s (
    l ← each_device (with_pair (fun p => with_server_cache (set_unaware (server_cache p)) p)) (list_num s) 0 (nv_list s);
    Some (call ASYNC_FLUSH (call UPDATE (set_devices (list_num s) l s)))).

Definition nv_record_blerec_update_database_hash (hash : list Z) (s : nv_ble) : option nv_ble :=
  through s (let i := ble_pair_info s in
    Some (call ASYNC_FLUSH (call UPDATE (set_pair_info (mkBleInfo (saved_list_num i) (self_info i) hash (ble_nv i) (gatt_cache i)) s)))).

(** ** Deleting *)
Definition nv_record_ble_delete_entry_by_index (index_to_delete : nat) (s : nv_ble) : option nv_ble :=
  through s (
    if (index_to_delete <? list_num s)%nat then
      l ← shift_up (list_num s - 1 - index_to_delete) index_to_delete (nv_list s);
      l1 ← store_device (list_num s - 1) zero_device l;
      Some (call UPDATE (set_devices (list_num s - 1) l1 s))
    else Some s).

Definition nv_record_ble_delete_entry (pBdAddr : list Z) (s : nv_ble) : option nv_ble :=
  if negb (ble_ready s) then Some s
  else
    found ← search (same_bd pBdAddr) (list_num s) 0 (nv_list s);
    match found with Some i => nv_record_ble_delete_entry_by_index i s | None => Some s end.

Definition nv_record_ble_delete_all_entry (s : nv_ble) : option nv_ble :=
  through s (
    l ← each_device (fun _ => zero_device) (nv_record_get_paired_ble_dev_info_list_num s) 0 (nv_list s);
    Some (call UPDATE (set_devices 0 l s))).

(** ** The cache of the attributes of peers: [gatt_num] is BLE_GATT_CACHE_NUM *)
Section Gatt.
Variable gatt_num : nat.

Definition used_by (a : BLE_ADDR_INFO_T) (c : gattc_nv_cache_t) : bool := negb (cache_seqn c =? 0) && bool_decide (cache_peer_addr c = a).

Fixpoint gatt_search (P : gattc_nv_cache_t -> bool) (n i : nat) (l : list gattc_nv_cache_t) : option (option nat) :=
  match n with
  | O => Some None
  | S n' => c ← l !! i; if P c then Some (Some i) else gatt_search P n' (S i) l
  end.

Definition nv_record_ble_gatt_cache_get (p_addr : option BLE_ADDR_INFO_T) (s : nv_ble) : option (option gattc_nv_cache_t) :=
  match p_addr with
  | Some a =>
      if negb (ble_ready s) then Some None
      else
        found ← gatt_search (fun c => bool_decide (cache_peer_addr c = a)) gatt_num 0 (gatt_cache (ble_pair_info s));
        match found with Some i => c ← gatt_cache (ble_pair_info s) !! i; Some (Some c) | None => Some None end
  | None => Some None
  end.

(** The slot in use for the address and the one with the smallest number below 255. *)
Fixpoint gatt_scan (a : BLE_ADDR_INFO_T) (n i : nat) (l : list gattc_nv_cache_t) (smallest_seqn : Z) (small found : option nat) : option (option nat * option nat) :=
  match n with
  | O => Some (small, found)
  | S n' =>
      c ← l !! i;
      let found' := match found with None => if used_by a c then Some i else None | _ => found end in
      if cache_seqn c <? smallest_seqn then gatt_scan a n' (S i) l (cache_seqn c) (Some i) found'
      else gatt_scan a n' (S i) l smallest_seqn small found'
  end.

Definition store_gatt (i : nat) (f : gattc_nv_cache_t -> gattc_nv_cache_t) (l : list gattc_nv_cache_t) : option (list gattc_nv_cache_t) :=
  c ← l !! i; Some (<[i := f c]> l).

Definition nv_record_ble_gatt_cache_add (p_addr : option BLE_ADDR_INFO_T) (cache_seq : Z) (c : option gattc_client_cache_t) (s : nv_ble) : option (Z * nv_ble) :=
  match p_addr, c with
  | Some a, Some c =>
      if negb (ble_ready s) then Some (-1, s)
      else
        let l := gatt_cache (ble_pair_info s) in
        '(small, found) ← gatt_scan a gatt_num 0 l 0xff None None;
        l1 ← match found, small with
             | Some i, _ => store_gatt i (fun x => mkCache (cache_seqn x) (cache_peer_addr x) c) l
             | None, Some i => store_gatt i (fun _ => mkCache cache_seq a c) l
             | None, None => Some l
             end;
        Some (0, call ASYNC_FLUSH (call UPDATE (set_gatt l1 s)))
  | _, _ => Some (-1, s)
  end.

Definition nv_record_ble_gatt_cache_del (p_addr : option BLE_ADDR_INFO_T) (s : nv_ble) : option (Z * nv_ble) :=
  match p_addr with
  | Some a =>
      if negb (ble_ready s) then Some (-1, s)
      else
        let l := gatt_cache (ble_pair_info s) in
        found ← gatt_search (used_by a) gatt_num 0 l;
        l1 ← match found with Some i => store_gatt i (fun _ => zero_gatt) l | None => Some l end;
        Some (0, call ASYNC_FLUSH (call UPDATE (set_gatt l1 s)))
  | None => Some (-1, s)
  end.
End Gatt.

(** ** The other earbud: [audio] is BLE_AUDIO_ENABLED, [rpa] BLE_ADV_RPA_ENABLED *)
Definition tws_use_same_ble_addr (peer_ble_addr : list Z) (s : nv_ble) : bool := bool_decide (ble_addr (self_info (ble_pair_info s)) = peer_ble_addr).

Definition nv_record_extension_update_tws_ble_info (audio : bool) (info : option NV_RECORD_PAIRED_BLE_DEV_INFO_T) (s : nv_ble) : option nv_ble :=
  info ← info;
  let b := self_info info in
  let '(p1, s1) :=
    if (negb audio || tws_use_same_ble_addr (ble_addr b) s) && negb (bool_decide (self_info (ble_pair_info s) = b))
    then (true, call UPDATE (set_self b s)) else (false, s) in
  let '(p2, s2) := if negb (bool_decide (tws_ble_info s1 = b)) then (true, call UPDATE (set_tws b s1)) else (p1, s1) in
  Some (if p2 : bool then call FLASH_FLUSH s2 else s2).

Definition nv_record_tws_exchange_ble_info (audio rpa : bool) (s : nv_ble) : nv_ble :=
  if audio then s
  else if tws_use_same_ble_addr (ble_addr (tws_ble_info s)) s then s
  else if bool_decide (ble_addr (tws_ble_info s) = replicate BLE_ADDR_SIZE 0) then s
  else
    let b := self_info (ble_pair_info s) in
    let t := tws_ble_info s in
    call UPDATE (
      if rpa then set_tws (mkBasic (ble_addr t) (ble_irk b) (ble_csrk t)) (set_self (mkBasic (ble_addr b) (ble_irk t) (ble_csrk b)) s)
      else set_local (ble_addr t) (set_tws (mkBasic (ble_addr b) (ble_irk t) (ble_csrk t)) (set_self (mkBasic (ble_addr t) (ble_irk b) (ble_csrk b)) s))).

Definition nv_record_tws_get_self_ble_info (s : nv_ble) : list Z := ble_addr (self_info (ble_pair_info s)).

Definition nv_record_bleaudio_update_devinfo (info : option NV_RECORD_BLE_AUDIO_DEV_INFO_T) (s : nv_ble) : option nv_ble :=
  info ← info;
  if negb (audio_ready s) then Some s else Some (call ASYNC_FLUSH (call UPDATE (set_audio true info s))).

(** ** The key of the classic link *)
Section Ctkd.
(** [aes_cal_cmac] by its key and its message; the parameters of the list of NvBt.v. *)
Variable aes_cal_cmac : list Z -> list Z -> list Z.
Variable ibrt : bool.
Variable is_tws_addr : list Z -> bool.
Variable default_dac_volume : Z.
Variable local_vol_to_bt_vol : Z -> Z.
Variable default_any : bool.

Definition ddbif_add_record (r : btif_device_record) (t : nv_state) : bt_status * nv_state :=
  nv_record_add ibrt is_tws_addr default_dac_volume local_vol_to_bt_vol default_any true (Some r) t.

Definition tmp1 : list Z := [0x74; 0x6d; 0x70; 0x31].
Definition lebr : list Z := [0x6c; 0x65; 0x62; 0x72].
Definition salt : list Z := [0; 0; 0; 0; 0; 0; 0; 0; 0; 0; 0; 0; 0x74; 0x6D; 0x70; 0x31].
Definition BTIF_UNAUTH_COMBINATION_KEY : Z := 4.

Definition function_calc_ilk (ltk : list Z) (ct2 : bool) : list Z :=
  let tmpLtk := reverse ltk in
  if ct2 then aes_cal_cmac salt tmpLtk else aes_cal_cmac tmpLtk tmp1.

(** The profile of the device, both of its parts marked as active: the entry of the list, or a
    constant that is marked already. *)
Definition app_bt_profile_active_store_ptr_get (bdAddr : list Z) (t : nv_state) : option nat * nv_state :=
  match nv_record_btdevicerecord_find t bdAddr with
  | Some i =>
      let e := nth_dev t i in
      (Some i, NvBt.set_devs (pairedDevNum (bt_pair_info t))
        (set_nth i (mkNvrec (record e) (a2dp_vol e) (hfp_vol e) true (a2dp_abs_vol e) true (a2dp_codectype e) (pnp_info e)) (pairedBtDevInfo (bt_pair_info t))) t)
  | None => (None, t)
  end.

(** [junk] is what the record on the stack holds: three of its fields are set. *)
Definition function_h6_calc_linkKey (junk : btif_device_record) (ilk pBdAddr : list Z) (t : nv_state) : nv_state :=
  let tmpLinkKey := reverse (aes_cal_cmac ilk lebr) in
  let record := mkRec pBdAddr (trusted junk) (for_bt_source junk) tmpLinkKey BTIF_UNAUTH_COMBINATION_KEY (pinLen junk) (cod junk) (remote_dev_name junk) in
  match ddbif_add_record record t with
  | (BT_STS_SUCCESS, t1) =>
      match app_bt_profile_active_store_ptr_get pBdAddr t1 with
      | (Some i, t2) => nv_record_btdevicerecord_set_hfp_profile_active_state i true (nv_record_btdevicerecord_set_a2dp_profile_active_state i true t2)
      | (None, t2) => t2
      end
  | (_, t1) => t1
  end.

Definition clac_linkKey (junk : btif_device_record) (ltk pBdAddr : list Z) (ct2 : bool) (t : nv_state) : nv_state :=
  function_h6_calc_linkKey junk (function_calc_ilk ltk ct2) pBdAddr t.
End Ctkd.
