(* ===== verification/NvBleLaws.v ===== *)
(** The bonded devices of NvBle.v against a list: [put d s] is the state whose array holds the list [d]
    and zeros after it. What the loops compute on such an array, and what each operation does to the list. *)
From Stdlib Require Import ZArith Lia Bool.
From stdpp Require Import base option list.
From S2P Require Import Prelude NvBt NvBle.

(** ** Lists in the array *)
Definition fill (d : list BleDeviceinfo) : list BleDeviceinfo := d ++ replicate (BLE_RECORD_NUM - length d) zero_device.
Definition put (d : list BleDeviceinfo) (s : nv_ble) : nv_ble := set_devices (length d) (fill d) s.
Definition bounded (d : list BleDeviceinfo) : Prop := (length d <= BLE_RECORD_NUM)%nat /\ NoDup (bd_of <$> d).

(** The devices of a state. *)
Definition bonded (s : nv_ble) : list BleDeviceinfo := take (list_num s) (nv_list s).
Definition ble_ok (s : nv_ble) : Prop := bounded (bonded s) /\ s = put (bonded s) s.

Lemma bonded_put d s : bonded (put d s) = d.
Proof. unfold bonded, put, fill. cbn. apply take_app_length. Qed.

Lemma put_put d d' s : put d (put d' s) = put d s.
Proof. done. Qed.

Lemma put_ok d s : bounded d -> ble_ok (put d s).
Proof. intros Hd. split; rewrite bonded_put; done. Qed.

Lemma ok_put s : ble_ok s -> exists d, bounded d /\ s = put d s /\ bonded s = d.
Proof. intros [H1 H2]. by exists (bonded s). Qed.

Lemma length_fill d : (length d <= BLE_RECORD_NUM)%nat -> length (fill d) = BLE_RECORD_NUM.
Proof. intros Hd. unfold fill. rewrite length_app, length_replicate. lia. Qed.

Lemma fill_lookup d i : (i < length d)%nat -> fill d !! i = d !! i.
Proof. intros Hi. by apply lookup_app_l. Qed.

(** ** The loops *)
Lemma search_app P d r k : search P (length d) (length k) (k ++ d ++ r) = Some ((fun x => (length k + x.1)%nat) <$> list_find (fun e => P e = true) d).
Proof.
  revert k. induction d as [|e d IH]; intros k; [done|]. cbn [length search app]. rewrite list_lookup_middle by done. cbn.
  destruct (P e) eqn:E.
  - destruct (decide (true = true)); [|congruence]. change (Some (Some (length k)) = Some (Some (length k + 0)%nat)). by rewrite Nat.add_0_r.
  - destruct (decide (false = true)); [congruence|]. specialize (IH (k ++ [e])). rewrite length_app, Nat.add_1_r in IH.
    rewrite <- app_assoc in IH. cbn in IH. rewrite IH. f_equal. destruct (list_find _ d) as [[j x]|]; cbn; [|done]. f_equal. lia.
Qed.

Lemma search_fill P d : search P (length d) 0 (fill d) = Some (fst <$> list_find (fun e => P e = true) d).
Proof. unfold fill. pose proof (search_app P d (replicate (BLE_RECORD_NUM - length d) zero_device) []) as HX. cbn [app length] in HX. rewrite HX. by destruct (list_find _ d) as [[j x]|]. Qed.

Lemma store_device_ok i e l : (i < length l)%nat -> store_device i e l = Some (<[i := e]> l).
Proof. intros Hi. unfold store_device. by rewrite option_guard_True. Qed.

Lemma copy_device_ok i j l e : l !! j = Some e -> (i < length l)%nat -> copy_device i j l = Some (<[i := e]> l).
Proof. intros He Hi. unfold copy_device. rewrite He. cbn. by rewrite option_guard_True. Qed.

Lemma shift_down_spec n : forall t l, (n <= t < length l)%nat -> exists l', shift_down n t l = Some l' /\ length l' = length l /\
  forall x, l' !! x = if decide (t - n < x <= t)%nat then l !! (x - 1)%nat else l !! x.
Proof.
  induction n as [|n IH]; intros t l Ht; cbn [shift_down].
  - exists l. split; [done|]. split; [done|]. intros x. destruct (decide _); [lia|done].
  - destruct (lookup_lt_is_Some_2 l (t - 1)%nat ltac:(lia)) as [e He]. rewrite (copy_device_ok t (t - 1) l e) by (done || lia). cbn.
    destruct (IH (t - 1)%nat (<[t := e]> l)) as (l' & E & HL & HX); [rewrite length_insert; lia|].
    exists l'. split; [done|]. rewrite length_insert in HL. split; [done|]. intros x. rewrite HX. pointwise.
    destruct a as [-> _]. by rewrite He.
Qed.

(** The head stays where it is and comes again before the rest, the entry [i] goes out. *)
Lemma shift_down_head i h l : (i < length (h :: l))%nat -> shift_down i i (h :: l) = Some (h :: delete i (h :: l)).
Proof.
  intros Hi. destruct (shift_down_spec i i (h :: l)) as (l' & E & HL & HX); [lia|]. rewrite E. f_equal. apply list_eq. intros x. rewrite HX. pointwise.
Qed.

Lemma shift_up_spec n : forall i l, (i + n < length l)%nat -> exists l', shift_up n i l = Some l' /\ length l' = length l /\
  forall x, l' !! x = if decide (i <= x < i + n)%nat then l !! S x else l !! x.
Proof.
  induction n as [|n IH]; intros i l Ht; cbn [shift_up].
  - exists l. split; [done|]. split; [done|]. intros x. destruct (decide _); [lia|done].
  - destruct (lookup_lt_is_Some_2 l (i + 1)%nat ltac:(lia)) as [e He]. rewrite (copy_device_ok i (i + 1) l e) by (done || lia). cbn.
    destruct (IH (i + 1)%nat (<[i := e]> l)) as (l' & E & HL & HX); [rewrite length_insert; lia|].
    exists l'. split; [done|]. rewrite length_insert in HL. split; [done|]. intros x. rewrite HX. pointwise.
    subst. rewrite <- He. f_equal. lia.
Qed.

Lemma shift_up_delete i n z d r : (S (i + n) = length d)%nat ->
  (l ← shift_up n i (d ++ r); store_device (i + n) z l) = Some (delete i d ++ z :: r).
Proof.
  intros Hi. destruct (shift_up_spec n i (d ++ r)) as (l & E & HL & HX); [rewrite length_app; lia|]. rewrite E. cbn.
  rewrite length_app in HL. rewrite store_device_ok by lia. f_equal. apply list_eq. intros x.
  assert (HD : length (delete i d) = (i + n)%nat) by (rewrite list.length_delete by (apply lookup_lt_is_Some_2; lia); lia).
  rewrite !lookup_app_if, HD, lookup_insert_if, HX, HL, !lookup_app_if. pointwise.
Qed.

Lemma fill_delete d i : (i < length d <= BLE_RECORD_NUM)%nat ->
  (l ← shift_up (length d - 1 - i) i (fill d); store_device (length d - 1) zero_device l) = Some (fill (delete i d)).
Proof.
  intros Hi. pose proof (shift_up_delete i (length d - 1 - i) zero_device d (replicate (BLE_RECORD_NUM - length d) zero_device) ltac:(lia)) as HX.
  replace (i + (length d - 1 - i))%nat with (length d - 1)%nat in HX by lia. unfold fill at 1. rewrite HX. unfold fill.
  assert (HD : length (delete i d) = (length d - 1)%nat) by (rewrite list.length_delete by (apply lookup_lt_is_Some_2; lia); lia).
  rewrite HD. replace (BLE_RECORD_NUM - (length d - 1))%nat with (S (BLE_RECORD_NUM - length d)) by lia. done.
Qed.

Lemma each_app f d : forall k r, each_device f (length d) (length k) (k ++ d ++ r) = Some (k ++ map f d ++ r).
Proof.
  induction d as [|e d IH]; intros k r; [done|]. cbn [length each_device app map]. rewrite list_lookup_middle by done. cbn.
  rewrite store_device_ok by (rewrite length_app; cbn; lia). cbn. rewrite insert_app_r_alt, Nat.sub_diag by lia. cbn.
  specialize (IH (k ++ [f e]) r). rewrite length_app, Nat.add_1_r, <- !app_assoc in IH. exact IH.
Qed.

Lemma each_fill f d : each_device f (length d) 0 (fill d) = Some (map f d ++ replicate (BLE_RECORD_NUM - length d) zero_device).
Proof. exact (each_app f d [] _). Qed.

Lemma read_app d : forall k r, read_devices (length d) (length k) (k ++ d ++ r) = Some d.
Proof.
  induction d as [|e d IH]; intros k r; [done|]. cbn [length read_devices app]. rewrite list_lookup_middle by done. cbn.
  specialize (IH (k ++ [e]) r). rewrite length_app, Nat.add_1_r, <- app_assoc in IH. cbn in IH. rewrite IH. done.
Qed.

Lemma read_fill d : read_devices (length d) 0 (fill d) = Some d.
Proof. exact (read_app d [] _). Qed.

Lemma last_app P d : forall k r found, last_loop P (length d) (length k) (k ++ d ++ r) found =
  Some (match last (filter (fun e => P e = true) d) with Some e => Some (pairingInfo e) | None => found end).
Proof.
  induction d as [|e d IH]; intros k r found; [done|]. cbn [length last_loop app]. rewrite list_lookup_middle by done. cbn.
  specialize (IH (k ++ [e]) r). rewrite length_app, Nat.add_1_r, <- app_assoc in IH. cbn in IH. rewrite IH. f_equal.
  destruct (P e); [destruct (decide (true = true)); [|congruence]|destruct (decide (false = true)); [congruence|done]].
  rewrite last_cons. by destruct (last _).
Qed.

Lemma delete_app_l {A} i (k l : list A) : (i < length k)%nat -> delete i (k ++ l) = delete i k ++ l.
Proof. intros Hi. rewrite !delete_take_drop, take_app_le, drop_app_le by lia. apply app_assoc. Qed.

Lemma bind_assoc' {A B C} (o : option A) (f : A -> option B) (g : B -> option C) : (a ← o; b ← f a; g b) = (b ← (a ← o; f a); g b).
Proof. by destruct o. Qed.

(** The head of the array is free and the entry [i] is gone. *)
Lemma shift_room d i x : (length d <= BLE_RECORD_NUM)%nat -> (i < BLE_RECORD_NUM)%nat ->
  (l ← shift_down i i (fill d); store_device 0 x l) = Some (x :: delete i (fill d)).
Proof.
  intros Hlen Hi. pose proof (length_fill d Hlen) as HL. destruct (fill d) as [|h l] eqn:EF; [discriminate|].
  rewrite shift_down_head by (rewrite HL; done). cbn -[delete]. by rewrite store_device_ok by (cbn; lia).
Qed.

Lemma insert_fill d i e : (i < length d)%nat -> <[i := e]> (fill d) = fill (<[i := e]> d).
Proof. intros Hi. unfold fill. by rewrite insert_app_l, length_insert. Qed.

Lemma finish_put (x : BleDeviceinfo) d v p s :
  (e ← fill (x :: d) !! 0%nat; l ← store_device 0 (mkDevice p (v e)) (fill (x :: d)); Some (0, call ASYNC_FLUSH (call UPDATE (set_devices (length d + 1) l s)))) =
  Some (0, call ASYNC_FLUSH (call UPDATE (put (mkDevice p (v x) :: d) s))).
Proof. cbn [fill app lookup list_lookup mbind option_bind]. rewrite store_device_ok by (cbn; lia). cbn [mbind option_bind]. rewrite Nat.add_1_r. done. Qed.

(** ** The operations *)
Section Ops.
Context (s : nv_ble).
Hypothesis Hready : ble_ready s = true.

Definition first (P : BleDeviceinfo -> bool) (d : list BleDeviceinfo) : option (nat * BleDeviceinfo) := list_find (fun e => P e = true) d.

Lemma first_some P d i e : first P d = Some (i, e) -> d !! i = Some e /\ P e = true /\ (i < length d)%nat.
Proof. intros (H1 & H2 & _)%list_find_Some. split; [done|]. split; [done|]. by eapply lookup_lt_Some. Qed.

Lemma through_put {A} d' (r : option A) : through (put d' s) r = r.
Proof. unfold through. cbn. by rewrite Hready. Qed.

Lemma read_first_put {A} P (f : BleDeviceinfo -> A) d : read_first P f (put d s) = Some ((fun x => f x.2) <$> first P d).
Proof.
  unfold read_first, first. change (list_num (put d s)) with (length d). change (nv_list (put d s)) with (fill d).
  rewrite search_fill. cbn. destruct (list_find _ d) as [[i e]|] eqn:E; [|done]. apply first_some in E as (E & _ & Hi). cbn.
  rewrite fill_lookup, E by done. done.
Qed.

Lemma change_first_put P f d : (length d <= BLE_RECORD_NUM)%nat -> change_first P f (put d s) =
  Some (match first P d with Some (i, e) => (true, put (<[i := f e]> d) s) | None => (false, put d s) end).
Proof.
  intros Hlen.   unfold change_first, first. change (list_num (put d s)) with (length d). change (nv_list (put d s)) with (fill d).
  rewrite search_fill. cbn. destruct (list_find _ d) as [[i e]|] eqn:E; [|done]. apply first_some in E as (E & _ & Hi). cbn.
  rewrite fill_lookup, E by done. cbn. rewrite store_device_ok by (rewrite length_fill by done; lia). cbn. rewrite insert_fill by done.
  unfold put. by rewrite length_insert.
Qed.

(** What an addition does to the list, [None] when there is nothing to do. *)
Definition put_first (default_vol : Z) (malloc_ok : bool) (p : BleDevicePairingInfo) (d : list BleDeviceinfo) : option (list BleDeviceinfo) :=
  match first (same_bd (ble_bd_addr (peer_addr p))) d with
  | None => Some (mkDevice p default_vol :: take (BLE_RECORD_NUM - 1) d)
  | Some (i, e) =>
      if bool_decide (p = pairingInfo e) then None
      else Some (mkDevice p (if malloc_ok then volume e else volume (hd e d)) :: delete i d)
  end.

Lemma set_put n l d' : set_devices n l (put d' s) = set_devices n l s.
Proof. done. Qed.

Lemma prepare_new_put d : (length d <= BLE_RECORD_NUM)%nat -> d <> [] -> let d' := take (BLE_RECORD_NUM - 1) d in
  prepare_new (put d s) = Some (NV_BLE_ADD_NEW_ITEM, set_devices (length d') (fill (zero_device :: d')) s).
Proof.
  intros Hlen Hd d'. unfold prepare_new. change (list_num (put d s)) with (length d). change (nv_list (put d s)) with (fill d).
  assert (HD : length d' = if (length d =? BLE_RECORD_NUM)%nat then (length d - 1)%nat else length d).
  { unfold d'. rewrite length_take. destruct (Nat.eqb_spec (length d) BLE_RECORD_NUM); unfold BLE_RECORD_NUM in *; lia. }
  rewrite HD. destruct (Nat.eqb_spec (length d) BLE_RECORD_NUM) as [EN|EN]; rewrite bind_assoc', shift_room by (unfold BLE_RECORD_NUM in *; lia).
  - cbn [mbind option_bind]. rewrite set_put. do 3 f_equal. unfold fill. cbn [length app]. rewrite HD, EN, Nat.sub_diag, app_nil_r, delete_take_drop, (drop_ge d) by (rewrite EN; done).
    done.
  - cbn [mbind option_bind]. rewrite set_put. do 3 f_equal. unfold fill. cbn [length app]. rewrite HD. f_equal. unfold d'. rewrite (take_ge d) by (unfold BLE_RECORD_NUM in *; lia).
    replace (BLE_RECORD_NUM - length d)%nat with (S (BLE_RECORD_NUM - S (length d))) by lia. apply delete_middle.
Qed.

Lemma prepare_existing_put d malloc_ok i e : (length d <= BLE_RECORD_NUM)%nat -> d !! i = Some e -> exists x,
  prepare_existing malloc_ok i e (put d s) = Some (NV_BLE_UPDATE_EXIST, set_devices (length (delete i d)) (fill (x :: delete i d)) s) /\
  volume x = if malloc_ok then volume e else volume (hd e d).
Proof.
  intros Hlen He. pose proof (lookup_lt_Some _ _ _ He) as Hi. unfold prepare_existing. change (nv_list (put d s)) with (fill d). change (list_num (put d s)) with (length d).
  set (y := mkDevice zero_pair (volume e)). rewrite store_device_ok by (rewrite length_fill by done; lia). cbn [mbind option_bind].
  rewrite insert_fill by done. set (d1 := <[i := y]> d). assert (HL1 : length d1 = length d) by apply length_insert.
  assert (HD : delete i (fill d1) = delete i d ++ replicate (BLE_RECORD_NUM - S (length (delete i d))) zero_device).
  { unfold fill. rewrite delete_app_l by lia. f_equal.
    - apply list_eq. intros x. unfold d1. pointwise.
    - rewrite HL1, list.length_delete by (by apply lookup_lt_is_Some_2). f_equal. lia. }
  assert (HY : fill d1 !! i = Some y) by (rewrite fill_lookup by lia; by apply list_lookup_insert_eq). rewrite HY. cbn [mbind option_bind].
  assert (HN : (length d - 1)%nat = length (delete i d)) by (rewrite list.length_delete by (by apply lookup_lt_is_Some_2); lia).
  destruct malloc_ok.
  - exists y. split; [|done]. rewrite bind_assoc', shift_room by lia. cbn [mbind option_bind]. rewrite set_put, HD, HN. done.
  - destruct (fill d1) as [|h l] eqn:EF; [by rewrite lookup_nil in HY|]. exists h. split.
    + rewrite shift_down_head by (rewrite <- EF, length_fill; lia). cbn [mbind option_bind]. rewrite set_put, HD, HN. done.
    + destruct d as [|h0 t]; [done|]. unfold d1, fill in EF. destruct i; [|by injection EF as <- _]. injection He as ->. by injection EF as <- _.
Qed.

Theorem add_put default_vol malloc_ok p d : (length d <= BLE_RECORD_NUM)%nat -> nv_record_blerec_add default_vol malloc_ok p (put d s) =
  Some (0, match put_first (default 0 default_vol) malloc_ok p d with Some d' => call ASYNC_FLUSH (call UPDATE (put d' s)) | None => put d s end).
Proof.
  intros Hlen. unfold nv_record_blerec_add, blerec_specific_value_prepare, put_first, first. rewrite through_put.
  change (list_num (put d s)) with (length d). change (nv_list (put d s)) with (fill d).
  assert (d = [] \/ d <> []) as [-> | Hne] by (destruct d; [by left|by right]); [by destruct default_vol|]. rewrite search_fill.
  replace (length d =? 0)%nat with false by (symmetry; apply Nat.eqb_neq; destruct d; done). cbn [mbind option_bind].
  destruct (list_find _ d) as [[i e]|] eqn:EF.
  - apply first_some in EF as (He & _ & Hi). cbn [fmap option_fmap option_map fst]. rewrite fill_lookup, He by done. cbn [mbind option_bind].
    destruct (bool_decide _); [done|]. destruct (prepare_existing_put d malloc_ok i e Hlen He) as (x & E & HV). rewrite E, <- HV. cbn [mbind option_bind].
    exact (finish_put x (delete i d) volume p s).
  - cbn [fmap option_fmap option_map].
    rewrite (prepare_new_put d Hlen Hne). cbn [mbind option_bind]. destruct default_vol as [v|]; [exact (finish_put _ _ (fun _ => v) p s)|exact (finish_put _ _ volume p s)].
Qed.

Lemma delete_index_put i d : (length d <= BLE_RECORD_NUM)%nat -> nv_record_ble_delete_entry_by_index i (put d s) =
  Some (if (i <? length d)%nat then call UPDATE (put (delete i d) s) else put d s).
Proof.
  intros Hlen. unfold nv_record_ble_delete_entry_by_index. rewrite through_put. change (list_num (put d s)) with (length d). change (nv_list (put d s)) with (fill d).
  destruct (Nat.ltb_spec i (length d)); [|done]. rewrite bind_assoc', fill_delete by done. cbn [mbind option_bind]. do 2 f_equal.
  unfold put. by rewrite list.length_delete, Nat.sub_1_r by (by apply lookup_lt_is_Some_2).
Qed.

Lemma delete_put a d : (length d <= BLE_RECORD_NUM)%nat -> nv_record_ble_delete_entry a (put d s) =
  Some (match first (same_bd a) d with Some (i, _) => call UPDATE (put (delete i d) s) | None => put d s end).
Proof.
  intros Hlen. unfold nv_record_ble_delete_entry, first. change (ble_ready (put d s)) with (ble_ready s). rewrite Hready. cbn [negb].
  change (list_num (put d s)) with (length d). change (nv_list (put d s)) with (fill d).
  rewrite search_fill. cbn [mbind option_bind]. destruct (list_find _ d) as [[i e]|] eqn:EF; [|done]. cbn. apply first_some in EF as (_ & _ & Hi).
  rewrite delete_index_put by done. by destruct (Nat.ltb_spec i (length d)); [|lia].
Qed.

Lemma delete_all_put d : (length d <= BLE_RECORD_NUM)%nat -> nv_record_ble_delete_all_entry (put d s) = Some (call UPDATE (put [] s)).
Proof.
  intros Hlen. unfold nv_record_ble_delete_all_entry, nv_record_get_paired_ble_dev_info_list_num. rewrite through_put.
  change (ble_ready (put d s)) with (ble_ready s). rewrite Hready. change (list_num (put d s)) with (length d). change (nv_list (put d s)) with (fill d).
  rewrite each_fill. cbn [mbind option_bind]. do 2 f_equal. unfold put, fill. cbn [length app].
  assert (HX : map (fun _ => zero_device) d = replicate (length d) zero_device) by (clear; induction d; simpl; congruence).
  rewrite HX, <- replicate_add. replace (length d + (BLE_RECORD_NUM - length d))%nat with (BLE_RECORD_NUM - 0)%nat by lia. done.
Qed.

Lemma unaware_put d : nv_record_blerec_set_change_unaware (put d s) =
  Some (call ASYNC_FLUSH (call UPDATE (put (map (with_pair (fun p => with_server_cache (set_unaware (server_cache p)) p)) d) s))).
Proof.
  unfold nv_record_blerec_set_change_unaware. rewrite through_put. change (list_num (put d s)) with (length d). change (nv_list (put d s)) with (fill d).
  rewrite each_fill. cbn [mbind option_bind]. rewrite set_put. do 3 f_equal. unfold put, fill. by rewrite length_map.
Qed.
End Ops.

(** ** The caches of peers *)
Lemma gatt_search_app P l : forall k, gatt_search P (length l) (length k) (k ++ l) = Some ((fun x => (length k + x.1)%nat) <$> list_find (fun c => P c = true) l).
Proof.
  induction l as [|c l IH]; intros k; [done|]. cbn [length gatt_search]. rewrite list_lookup_middle by done. cbn.
  destruct (P c).
  - destruct (decide (true = true)); [|congruence]. change (Some (Some (length k)) = Some (Some (length k + 0)%nat)). by rewrite Nat.add_0_r.
  - destruct (decide (false = true)); [congruence|]. specialize (IH (k ++ [c])). rewrite length_app, Nat.add_1_r, <- app_assoc in IH.
    cbn in IH. rewrite IH. f_equal. destruct (list_find _ l) as [[j x]|]; cbn; [|done]. f_equal. lia.
Qed.

Lemma gatt_search_all P l : gatt_search P (length l) 0 l = Some (fst <$> list_find (fun c => P c = true) l).
Proof. pose proof (gatt_search_app P l []) as HX. cbn [app length] in HX. rewrite HX. by destruct (list_find _ l) as [[j x]|]. Qed.

(** The slot with the smallest number, if it is below [sm]. *)
Definition smallest (l : list gattc_nv_cache_t) (sm : Z) (small : option nat) : Prop :=
  match small with
  | Some i => exists c, l !! i = Some c /\ cache_seqn c < sm /\ Forall (fun x => cache_seqn c <= cache_seqn x) l
  | None => Forall (fun x => sm <= cache_seqn x) l
  end.

Lemma scan_app a l : forall k sm small found, smallest k 0xff small -> sm = match small with Some i => cache_seqn (nth i k zero_gatt) | None => 0xff end ->
  exists small', gatt_scan a (length l) (length k) (k ++ l) sm small found =
    Some (small', match found with Some i => Some i | None => (fun x => (length k + x.1)%nat) <$> list_find (fun c => used_by a c = true) l end) /\
    smallest (k ++ l) 0xff small'.
Proof.
  induction l as [|c l IH]; intros k sm small found HS Hsm; cbn [length gatt_scan].
  { exists small. rewrite app_nil_r. split; [|done]. by destruct found. }
  rewrite list_lookup_middle by done. cbn [mbind option_bind].
  assert (HF : match (match found with None => if used_by a c then Some (length k) else None | _ => found end) with
               | Some i => Some i | None => (fun x => (length (k ++ [c]) + x.1)%nat) <$> list_find (fun c => used_by a c = true) l end =
               match found with Some i => Some i | None => (fun x => (length k + x.1)%nat) <$> list_find (fun c => used_by a c = true) (c :: l) end).
  { destruct found; [done|]. cbn [list_find]. destruct (used_by a c).
    - destruct (decide (true = true)); [|congruence]. cbn. f_equal. lia.
    - destruct (decide (false = true)); [congruence|]. rewrite length_app. destruct (list_find _ l) as [[j x]|]; cbn; [f_equal; lia|done]. }
  assert (HK : forall small0, smallest (k ++ [c]) 0xff small0 -> forall sm0, sm0 = match small0 with Some i => cache_seqn (nth i (k ++ [c]) zero_gatt) | None => 0xff end ->
    exists small', gatt_scan a (length l) (S (length k)) (k ++ c :: l) sm0 small0
      (match found with None => if used_by a c then Some (length k) else None | _ => found end) =
      Some (small', match found with Some i => Some i | None => (fun x => (length k + x.1)%nat) <$> list_find (fun c => used_by a c = true) (c :: l) end) /\
      smallest (k ++ c :: l) 0xff small').
  { intros small0 H1 sm0 H2. destruct (IH (k ++ [c]) sm0 small0 (match found with None => if used_by a c then Some (length k) else None | _ => found end) H1 H2) as (x & E & HX).
    rewrite HF, length_app, Nat.add_1_r, <- app_assoc in E. rewrite <- app_assoc in HX. by exists x. }
  destruct (Z.ltb_spec (cache_seqn c) sm) as [Hc|Hc].
  - apply (HK (Some (length k))); [|by rewrite nth_middle]. exists c. rewrite list_lookup_middle by done. split; [done|].
    destruct small as [i|]; cbn in HS.
    + destruct HS as (x & Hx & Hlt & HA). rewrite (nth_lookup_Some _ _ _ _ Hx) in Hsm. subst sm. split; [lia|]. apply Forall_app. split; [|by repeat constructor].
      eapply Forall_impl; [exact HA|]. cbn. intros. lia.
    + subst sm. split; [done|]. apply Forall_app. split; [|by repeat constructor]. eapply Forall_impl; [exact HS|]. cbn. intros. lia.
  - apply (HK small).
    + destruct small as [i|]; cbn in HS |- *.
      * destruct HS as (x & Hx & Hlt & HA). exists x. rewrite (nth_lookup_Some _ _ _ _ Hx) in Hsm. subst sm. split; [by apply lookup_app_l_Some|]. split; [done|].
        apply Forall_app. split; [done|]. by repeat constructor.
      * subst sm. apply Forall_app. split; [done|]. by repeat constructor.
    + destruct small as [i|]; [|done]. cbn in HS. destruct HS as (x & Hx & _). rewrite (nth_lookup_Some _ _ _ _ Hx) in Hsm.
      by rewrite (nth_lookup_Some _ _ _ x) by (by apply lookup_app_l_Some).
Qed.

Lemma scan_all a l : exists small, gatt_scan a (length l) 0 l 0xff None None = Some (small, fst <$> list_find (fun c => used_by a c = true) l) /\ smallest l 0xff small.
Proof.
  destruct (scan_app a l [] 0xff None None) as (small & E & HS); [by constructor|done|]. exists small. split; [|done]. cbn [app length] in E. rewrite E.
  by destruct (list_find _ l) as [[j x]|].
Qed.
