(* ===== verification/NvBleProps.v ===== *)
(** Properties of the bonded devices of NvBle.v: the array is a bounded list in order of use whatever the
    calls, what is stored is found, every change asks for a flush; the caches of peers; the identity shared
    with the other earbud; the key of the classic link. *)
From Stdlib Require Import ZArith Lia Bool.
From stdpp Require Import base option list.
From S2P Require Import Prelude NvBt NvBle NvBleLaws.

(** ** Unique addresses *)
Definition unique (P : BleDeviceinfo -> bool) (d : list BleDeviceinfo) : Prop :=
  forall i j x y, d !! i = Some x -> d !! j = Some y -> P x = true -> P y = true -> i = j.

Lemma unique_bd a d : NoDup (bd_of <$> d) -> unique (same_bd a) d.
Proof.
  intros HN i j x y Hi Hj H1%bool_decide_eq_true_1 H2%bool_decide_eq_true_1. apply (NoDup_lookup _ i j a HN);
    rewrite list_lookup_fmap; [rewrite Hi|rewrite Hj]; cbn; congruence.
Qed.

Lemma unique_addr a d : NoDup (bd_of <$> d) -> unique (same_addr a) d.
Proof.
  intros HN i j x y Hi Hj H1%bool_decide_eq_true_1 H2%bool_decide_eq_true_1. apply (unique_bd (ble_bd_addr a) d HN i j x y Hi Hj);
    apply bool_decide_eq_true_2; unfold bd_of; congruence.
Qed.

Lemma unique_cons P e d : unique P (e :: d) -> unique P d.
Proof. intros HU i j x y Hi Hj H1 H2. specialize (HU (S i) (S j) x y Hi Hj H1 H2). lia. Qed.

Lemma unique_head P e d x : unique P (e :: d) -> P e = true -> x ∈ d -> P x = false.
Proof.
  intros HU He [i Hi]%list_elem_of_lookup. destruct (P x) eqn:Ex; [|done]. specialize (HU 0%nat (S i) e x eq_refl Hi He Ex). lia.
Qed.

Definition others (P : BleDeviceinfo -> bool) (d : list BleDeviceinfo) : list BleDeviceinfo := filter (fun e => P e = false) d.

Lemma others_cons P e d : others P (e :: d) = if P e then others P d else e :: others P d.
Proof.
  unfold others. destruct (P e) eqn:E; [by rewrite filter_cons_False by congruence|by rewrite filter_cons_True].
Qed.

Lemma first_cons P e d : first P (e :: d) = if P e then Some (0%nat, e) else (fun x => (S x.1, x.2)) <$> first P d.
Proof.
  unfold first. cbn. destruct (P e); [by destruct (decide (true = true))|]. destruct (decide (false = true)); [done|]. by destruct (list_find _ d) as [[? ?]|].
Qed.

Lemma others_all P d : (forall x, x ∈ d -> P x = false) -> others P d = d.
Proof.
  intros HP. induction d as [|e d IH]; [done|]. rewrite others_cons, HP by left. f_equal. apply IH. intros x Hx. apply HP. by right.
Qed.

(** What the first device becomes, and the list without it, as plain functions of a list where at most one is meant. *)
Lemma first_delete P d i e : unique P d -> first P d = Some (i, e) -> delete i d = others P d.
Proof.
  revert i. induction d as [|x d IH]; intros i HU; [done|]. rewrite first_cons, others_cons. destruct (P x) eqn:Hx.
  - intros [= <- <-]. symmetry. apply others_all. intros y Hy. by eapply unique_head.
  - destruct (first P d) as [[j y]|]; [|done]. intros [= <- <-]. cbn. f_equal. apply IH; [by eapply unique_cons|done].
Qed.

Definition on (P : BleDeviceinfo -> bool) (f : BleDeviceinfo -> BleDeviceinfo) (d : list BleDeviceinfo) : list BleDeviceinfo := map (fun e => if P e then f e else e) d.

Lemma on_none P f d : (forall x, x ∈ d -> P x = false) -> on P f d = d.
Proof. intros HP. induction d as [|e d IH]; [done|]. cbn. rewrite HP by left. f_equal. apply IH. intros x Hx. apply HP. by right. Qed.

Lemma first_on P f d i e : unique P d -> first P d = Some (i, e) -> <[i := f e]> d = on P f d.
Proof.
  revert i. induction d as [|x d IH]; intros i HU; [done|]. rewrite first_cons. destruct (P x) eqn:Hx.
  - intros [= <- <-]. cbn. rewrite Hx. f_equal. symmetry. apply on_none. intros y Hy. by eapply unique_head.
  - destruct (first P d) as [[j y]|]; [|done]. intros [= <- <-]. cbn. rewrite Hx. f_equal. apply IH; [by eapply unique_cons|done].
Qed.

Lemma first_none P d : first P d = None -> forall x, x ∈ d -> P x = false.
Proof. intros HF x Hx. apply list_find_None in HF. rewrite Forall_forall in HF. specialize (HF x Hx). by destruct (P x). Qed.

(** ** The operations on lists: the two starts, and the additions with the answer of btif_cobuf_malloc *)
Inductive ble_op :=
  | Init | Audio_init (use_custom_sirk : bool) (bt_global_addr : list Z) (t0 : Z) (reads : list Z)
  | Add (malloc_ok : bool) (p : BleDevicePairingInfo) | Delete (a : list Z) | Delete_index (i : nat) | Delete_all
  | Write_supp (a : list Z) (b : bool) | Write_volume (a : list Z) (v : Z) | Server_cache (a : BLE_ADDR_INFO_T) (c : option gattc_server_cache_t)
  | Change_unaware | Database_hash (h : list Z) | Cache_add (a : BLE_ADDR_INFO_T) (q : Z) (c : list Z) | Cache_del (a : BLE_ADDR_INFO_T)
  | Tws_info (i : NV_RECORD_PAIRED_BLE_DEV_INFO_T) | Tws_exchange | Audio_info (i : NV_RECORD_BLE_AUDIO_DEV_INFO_T).

Section Runs.
Variable default_vol : option Z.
Variable gatt_num : nat.
Variable audio rpa : bool.
Variable rand : Z -> nat -> Z.

Definition ble_step (o : ble_op) (s : nv_ble) : option nv_ble :=
  match o with
  | Init => Some (nv_record_blerec_init s)
  | Audio_init u a t0 reads => Some (nv_record_bleaudio_init rand u a t0 reads s)
  | Add mem p => snd <$> nv_record_blerec_add default_vol mem p s
  | Delete a => nv_record_ble_delete_entry a s
  | Delete_index i => nv_record_ble_delete_entry_by_index i s
  | Delete_all => nv_record_ble_delete_all_entry s
  | Write_supp a b => snd <$> nv_record_ble_write_addr_resolv_supp_via_bdaddr a b s
  | Write_volume a v => snd <$> nv_record_ble_write_volume_via_bdaddr a v s
  | Server_cache a (Some c) => snd <$> nv_record_ble_server_cache_add (Some a) (Some c) s
  | Server_cache a None => snd <$> nv_record_ble_server_cache_del (Some a) s
  | Change_unaware => nv_record_blerec_set_change_unaware s
  | Database_hash h => nv_record_blerec_update_database_hash h s
  | Cache_add a q c => snd <$> nv_record_ble_gatt_cache_add gatt_num (Some a) q (Some c) s
  | Cache_del a => snd <$> nv_record_ble_gatt_cache_del gatt_num (Some a) s
  | Tws_info i => nv_record_extension_update_tws_ble_info audio (Some i) s
  | Tws_exchange => Some (nv_record_tws_exchange_ble_info audio rpa s)
  | Audio_info i => nv_record_bleaudio_update_devinfo (Some i) s
  end.

Fixpoint ble_run (os : list ble_op) (s : nv_ble) : option nv_ble :=
  match os with [] => Some s | o :: os' => s1 ← ble_step o s; ble_run os' s1 end.

(** The device of an address goes to the head with its volume, a new one with the default; a list of
    five loses its last. Nothing moves when the pairing is the one stored. Without memory for the copy
    the volume is that of the head of the list before. *)
Definition spec_volume (mem : bool) (p : BleDevicePairingInfo) (d : list BleDeviceinfo) : Z :=
  match first (same_bd (ble_bd_addr (peer_addr p))) d with
  | Some (_, e) => if mem || bool_decide (p = pairingInfo e) then volume e else volume (hd e d)
  | None => default 0 default_vol
  end.

Definition spec_add (mem : bool) (p : BleDevicePairingInfo) (d : list BleDeviceinfo) : list BleDeviceinfo :=
  let mine := same_bd (ble_bd_addr (peer_addr p)) in
  match first mine d with
  | Some (_, e) => if bool_decide (p = pairingInfo e) then d else mkDevice p (spec_volume mem p d) :: others mine d
  | None => mkDevice p (spec_volume mem p d) :: take 4 d
  end.

Definition spec_step (o : ble_op) (d : list BleDeviceinfo) : list BleDeviceinfo :=
  match o with
  | Add mem p => spec_add mem p d
  | Delete a => others (same_bd a) d
  | Delete_index i => delete i d
  | Delete_all => []
  | Write_supp a b => on (same_bd a) (with_pair (with_bond (fun x => if b then set_bit x 1 else clr_bit x 1))) d
  | Write_volume a v => on (same_bd a) (fun e => mkDevice (pairingInfo e) v) d
  | Server_cache a c => on (same_addr a) (with_pair (with_server_cache (default empty_cache c))) d
  | Change_unaware => map (with_pair (fun p => with_server_cache (set_unaware (server_cache p)) p)) d
  | _ => d
  end.

Lemma sublist_fmap {A B} (f : A -> B) k l : k `sublist_of` l -> f <$> k `sublist_of` f <$> l.
Proof. induction 1; cbn; by constructor. Qed.

(** The operations keep the list bounded and without an address twice. *)
Lemma bounded_sublist d d' : d' `sublist_of` d -> bounded d -> bounded d'.
Proof.
  intros HS [H1 H2]. split; [pose proof (sublist_length _ _ HS); lia|]. eapply sublist_NoDup; [exact H2|]. by apply sublist_fmap.
Qed.

Lemma others_sublist P d : others P d `sublist_of` d.
Proof. apply sublist_filter. Qed.

Lemma bounded_map f d : (forall e, bd_of (f e) = bd_of e) -> bounded d -> bounded (map f d).
Proof.
  intros HF [H1 H2]. split; [by rewrite length_map|]. replace (bd_of <$> map f d) with (bd_of <$> d); [done|].
  change (map f d) with (f <$> d). rewrite <- list_fmap_compose. apply list_fmap_ext. intros i x _. symmetry. apply HF.
Qed.

Lemma bounded_cons e d : (length d < BLE_RECORD_NUM)%nat -> (forall x, x ∈ d -> bd_of x <> bd_of e) -> NoDup (bd_of <$> d) -> bounded (e :: d).
Proof.
  intros H1 H2 H3. split; [cbn; lia|]. cbn. constructor; [|done]. intros (x & Hx & Hi)%list_elem_of_fmap. by apply (H2 x).
Qed.

Lemma bounded_add mem p d : bounded d -> bounded (spec_add mem p d).
Proof.
  intros [H1 H2]. unfold spec_add. destruct (first _ d) as [[i e]|] eqn:E.
  - destruct (bool_decide _); [done|]. pose proof (first_delete _ _ _ _ (unique_bd _ _ H2) E) as HD. apply first_some in E as (He & _ & Hi).
    apply bounded_cons.
    + rewrite <- HD, list.length_delete by done. lia.
    + intros x [Hx _]%list_elem_of_filter. apply bool_decide_eq_false_1 in Hx. exact Hx.
    + eapply sublist_NoDup; [exact H2|apply sublist_fmap, others_sublist].
  - apply bounded_cons.
    + rewrite length_take. unfold BLE_RECORD_NUM. lia.
    + intros x (j & Hx%list_elem_of_lookup_2 & _)%elem_of_take. apply (first_none _ _ E), bool_decide_eq_false_1 in Hx. exact Hx.
    + eapply sublist_NoDup; [exact H2|apply sublist_fmap, sublist_take].
Qed.

Lemma bounded_step o d : bounded d -> bounded (spec_step o d).
Proof.
  intros Hd. destruct o; cbn; try done; try (by apply bounded_add); try (eapply bounded_sublist; [apply others_sublist|done]);
    try (apply bounded_map; [|done]; intros e; try by repeat case_match).
  - eapply bounded_sublist; [|done]. apply sublist_delete.
  - split; [cbn; lia|constructor].
Qed.
Lemma change_list P f d s : (length d <= BLE_RECORD_NUM)%nat -> unique P d -> exists b, change_first P f (put d s) = Some (b, put (on P f d) s).
Proof.
  intros Hlen HU. rewrite change_first_put by done. destruct (first P d) as [[i e]|] eqn:E.
  - exists true. by rewrite (first_on P f d i e).
  - exists false. by rewrite on_none by exact (first_none P d E).
Qed.

(** One step on an array that holds a list. *)
Definition live (s : nv_ble) : Prop := ble_ready s = true /\ length (gatt_cache (ble_pair_info s)) = gatt_num.

Lemma live_call c s : live s -> live (call c s).
Proof. done. Qed.

Lemma tws_put i d s : exists s', nv_record_extension_update_tws_ble_info audio (Some i) s = Some s' /\
  nv_record_extension_update_tws_ble_info audio (Some i) (put d s) = Some (put d s') /\ (live s -> live s').
Proof.
  unfold nv_record_extension_update_tws_ble_info. cbn [mbind option_bind].
  change (tws_use_same_ble_addr ?a (put d s)) with (tws_use_same_ble_addr a s). change (self_info (ble_pair_info (put d s))) with (self_info (ble_pair_info s)).
  destruct (_ && _).
  - change (tws_ble_info (call UPDATE (set_self (self_info i) (put d s)))) with (tws_ble_info s).
    change (tws_ble_info (call UPDATE (set_self (self_info i) s))) with (tws_ble_info s). destruct (bool_decide _); cbn [negb]; eexists; by split.
  - change (tws_ble_info (put d s)) with (tws_ble_info s). destruct (bool_decide _); cbn [negb]; eexists; by split.
Qed.

Lemma exchange_put d s : nv_record_tws_exchange_ble_info audio rpa (put d s) = put d (nv_record_tws_exchange_ble_info audio rpa s).
Proof.
  unfold nv_record_tws_exchange_ble_info. change (tws_ble_info (put d s)) with (tws_ble_info s).
  change (tws_use_same_ble_addr ?a (put d s)) with (tws_use_same_ble_addr a s). by repeat case_match.
Qed.

Lemma exchange_live s : live s -> live (nv_record_tws_exchange_ble_info audio rpa s).
Proof. unfold nv_record_tws_exchange_ble_info. by repeat case_match. Qed.

Lemma init_put d s : nv_record_blerec_init (put d s) = put d (nv_record_blerec_init s).
Proof.
  unfold nv_record_blerec_init. change (ble_ready (put d s)) with (ble_ready s).
  change (self_info (ble_pair_info (put d s))) with (self_info (ble_pair_info s)). by repeat case_match.
Qed.

Lemma init_live s : length (gatt_cache (ble_pair_info s)) = gatt_num -> live (nv_record_blerec_init s).
Proof. intros HG. unfold nv_record_blerec_init, live. destruct (ble_ready s) eqn:HR; [done|]. by case_match. Qed.

Lemma audio_put u a t0 reads d s : nv_record_bleaudio_init rand u a t0 reads (put d s) = put d (nv_record_bleaudio_init rand u a t0 reads s).
Proof.
  unfold nv_record_bleaudio_init. change (audio_ready (put d s)) with (audio_ready s).
  change (ble_audio_dev_info (put d s)) with (ble_audio_dev_info s). by repeat case_match.
Qed.

Lemma audio_live u a t0 reads s : live s -> live (nv_record_bleaudio_init rand u a t0 reads s).
Proof. unfold nv_record_bleaudio_init. by repeat case_match. Qed.

Lemma add_list mem p d s : bounded d -> ble_ready s = true -> exists cs,
  nv_record_blerec_add default_vol mem p (put d s) = Some (0, foldr call (put (spec_add mem p d) s) cs).
Proof.
  intros Hd HR. rewrite add_put by (done || apply Hd). unfold put_first, spec_add, spec_volume.
  destruct (first _ d) as [[i e]|] eqn:E; [|by exists [ASYNC_FLUSH; UPDATE]].
  destruct (bool_decide _) eqn:EB; [by exists []|]. rewrite (first_delete _ d i e (unique_bd _ d (proj2 Hd)) E), orb_false_r. by exists [ASYNC_FLUSH; UPDATE].
Qed.

Lemma calls_put d s cs : foldr call (put d s) cs = put d (foldr call s cs).
Proof. induction cs as [|c cs IH]; [done|]. cbn. by rewrite IH. Qed.

Lemma calls_live s cs : live s -> live (foldr call s cs).
Proof. intros H. by induction cs. Qed.

Lemma step_list o d s : bounded d -> live s -> exists s', ble_step o (put d s) = Some (put (spec_step o d) s') /\ live s'.
Proof.
  intros Hd [HR HG]. pose proof Hd as [Hlen HN]. pose proof (fun a => unique_bd a d HN) as HU. pose proof (fun a => unique_addr a d HN) as HUA.
  assert (HC : forall P f cs, unique P d -> exists s', (snd <$> ('(b, s1) ← change_first P f (put d s); Some (b, if b : bool then foldr call s1 cs else s1))) = Some (put (on P f d) s') /\ live s').
  { intros P f cs HP. destruct (change_list P f d s Hlen HP) as [b E]. rewrite E. cbn. 
    exists (if b then foldr call s cs else s). split; [|].
    - destruct b; [|done]. f_equal. induction cs as [|c cs IH]; [done|]. cbn. by rewrite IH.
    - destruct b; [|done]. by induction cs. }
  destruct o; cbn [ble_step spec_step].
  - exists (nv_record_blerec_init s). rewrite init_put. split; [done|]. by apply init_live.
  - eexists. rewrite audio_put. split; [done|]. by apply audio_live.
  - destruct (add_list malloc_ok p d s Hd HR) as [cs E]. rewrite E. exists (foldr call s cs). cbn. rewrite calls_put. split; [done|]. by apply calls_live.
  - rewrite delete_put by done. destruct (first _ d) as [[i e]|] eqn:E.
    + rewrite (first_delete _ d i e (HU _) E). by exists (call UPDATE s).
    + rewrite others_all by exact (first_none _ d E). by exists s.
  - rewrite delete_index_put by done. destruct (Nat.ltb_spec i (length d)); [by exists (call UPDATE s)|].
    exists s. split; [|done]. do 2 f_equal. rewrite delete_take_drop, take_ge, drop_ge by lia. symmetry. apply app_nil_r.
  - rewrite delete_all_put by done. by exists (call UPDATE s).
  - unfold nv_record_ble_write_addr_resolv_supp_via_bdaddr. change (ble_ready (put d s)) with (ble_ready s). rewrite HR. exact (HC _ _ [ASYNC_FLUSH; UPDATE] (HU a)).
  - unfold nv_record_ble_write_volume_via_bdaddr. change (ble_ready (put d s)) with (ble_ready s). rewrite HR. exact (HC _ _ [UPDATE] (HU a)).
  - assert (HS : forall c, exists s', snd <$> nv_record_ble_server_cache_add (Some a) (Some c) (put d s) = Some (put (on (same_addr a) (with_pair (with_server_cache c)) d) s') /\ live s').
    { intros x. unfold nv_record_ble_server_cache_add. change (ble_ready (put d s)) with (ble_ready s). rewrite HR.
      destruct (change_list (same_addr a) (with_pair (with_server_cache x)) d s Hlen (HUA a)) as [b E]. cbn [negb]. rewrite E. by exists (call ASYNC_FLUSH (call UPDATE s)). }
    destruct c as [c|]; apply HS.
  - rewrite unaware_put by done. by exists (call ASYNC_FLUSH (call UPDATE s)).
  - unfold nv_record_blerec_update_database_hash. rewrite through_put by done. exists (call ASYNC_FLUSH (call UPDATE (set_pair_info (mkBleInfo 0 (self_info (ble_pair_info s)) h [] (gatt_cache (ble_pair_info s))) s))). done.
  - unfold nv_record_ble_gatt_cache_add. change (ble_ready (put d s)) with (ble_ready s). rewrite HR. cbn [negb]. change (gatt_cache (ble_pair_info (put d s))) with (gatt_cache (ble_pair_info s)).
    destruct (scan_all a (gatt_cache (ble_pair_info s))) as (small & E & HS). rewrite HG in E. rewrite E. cbn [mbind option_bind].
    assert (HL : exists l, match fst <$> list_find (fun c => used_by a c = true) (gatt_cache (ble_pair_info s)), small with
       | Some i, _ => store_gatt i (fun x => mkCache (cache_seqn x) (cache_peer_addr x) c) (gatt_cache (ble_pair_info s))
       | None, Some i => store_gatt i (fun _ => mkCache q a c) (gatt_cache (ble_pair_info s))
       | None, None => Some (gatt_cache (ble_pair_info s)) end = Some l /\ length l = gatt_num).
    { unfold store_gatt. destruct (list_find _ _) as [[i x]|] eqn:EF; cbn.
      - apply list_find_Some in EF as (-> & _). cbn. eexists. split; [done|]. by rewrite length_insert.
      - destruct small as [i|]; [|by eexists]. destruct HS as (x & -> & _). cbn. eexists. split; [done|]. by rewrite length_insert. }
    destruct HL as (l & El & HL). rewrite El. cbn. by exists (call ASYNC_FLUSH (call UPDATE (set_gatt l s))).
  - unfold nv_record_ble_gatt_cache_del. change (ble_ready (put d s)) with (ble_ready s). rewrite HR. cbn [negb]. change (gatt_cache (ble_pair_info (put d s))) with (gatt_cache (ble_pair_info s)).
    pose proof (gatt_search_all (used_by a) (gatt_cache (ble_pair_info s))) as E. rewrite HG in E. rewrite E. cbn [mbind option_bind]. unfold store_gatt. destruct (list_find _ _) as [[i x]|] eqn:EF; cbn.
    + apply list_find_Some in EF as (-> & _). cbn. eexists (call ASYNC_FLUSH (call UPDATE (set_gatt _ s))). split; [done|]. split; [done|]. exact (eq_trans (length_insert _ _ _) HG).
    + eexists (call ASYNC_FLUSH (call UPDATE (set_gatt _ s))). split; [done|]. done.
  - destruct (tws_put i d s) as (s' & E1 & E2 & HL). exists s'. rewrite E2. split; [done|]. by apply HL.
  - exists (nv_record_tws_exchange_ble_info audio rpa s). rewrite exchange_put. split; [done|]. by apply exchange_live.
  - unfold nv_record_bleaudio_update_devinfo. cbn. destruct (audio_ready s); [|by exists s]. by exists (call ASYNC_FLUSH (call UPDATE (set_audio true i s))).
Qed.

(** C11: The array is a bounded list in order of use: from any record in which it holds one, started or
    not, the start and then any run of calls, further starts among them, read and write inside the
    arrays whatever btif_cobuf_malloc answers, and the array holds what the same changes make of the
    list, at most five devices and no address twice. A device known before that comes with another
    pairing keeps its volume if there was memory for its copy, and takes that of the head of the list if
    there was not. *)
Theorem ble_list s os : ble_ok s -> length (gatt_cache (ble_pair_info s)) = gatt_num -> exists s', ble_run (Init :: os) s = Some s' /\ ble_ok s' /\ live s' /\
  bonded s' = fold_left (fun d o => spec_step o d) os (bonded s).
Proof.
  intros (d & Hd & -> & _)%ok_put HG. rewrite bonded_put. cbn [ble_run ble_step mbind option_bind]. rewrite init_put.
  pose proof (init_live s HG) as HL. clear HG. revert HL. generalize (nv_record_blerec_init s). clear s. intros s. revert d s Hd.
  induction os as [|o os IH]; intros d s Hd HL; cbn [ble_run fold_left].
  - exists (put d s). split; [done|]. split; [by apply put_ok|]. split; [done|apply bonded_put].
  - destruct (step_list o d s Hd HL) as (s1 & E & HL1). rewrite E. cbn [mbind option_bind]. apply IH; [by apply bounded_step|done].
Qed.













End Runs.

(** ** What is stored is found *)
Lemma first_unique P d i e : unique P d -> d !! i = Some e -> P e = true -> first P d = Some (i, e).
Proof.
  intros HU Hi He. destruct (first P d) as [[j x]|] eqn:E.
  - apply first_some in E as (Hj & Hx & _). assert (j = i) as -> by (by eapply HU). congruence.
  - pose proof (first_none P d E e (list_elem_of_lookup_2 _ _ _ Hi)). congruence.
Qed.

Lemma filter_unique P d i e : unique P d -> d !! i = Some e -> P e = true -> filter (fun x => P x = true) d = [e].
Proof.
  revert i. induction d as [|x d IH]; intros i HU Hi He; [done|]. destruct i as [|i].
  - injection Hi as ->. rewrite filter_cons_True by done. f_equal. apply elem_of_nil_inv. intros y [Hy Hm]%list_elem_of_filter.
    pose proof (unique_head P e d y HU He Hm). congruence.
  - rewrite filter_cons_False; [by eapply IH; [eapply unique_cons| |]|]. intros Hx. specialize (HU 0%nat (S i) x e eq_refl Hi Hx He). lia.
Qed.

Section Lookups.
Context (d : list BleDeviceinfo) (s : nv_ble).
Hypothesis Hd : bounded d.
Hypothesis HR : ble_ready s = true.

Lemma read_found {A} P (f : BleDeviceinfo -> A) e : unique P d -> e ∈ d -> P e = true -> read_first P f (put d s) = Some (Some (f e)).
Proof.
  intros HU [i Hi]%list_elem_of_lookup He. rewrite read_first_put. by rewrite (first_unique P d i e).
Qed.

Lemma read_missing {A} P (f : BleDeviceinfo -> A) : (forall x, x ∈ d -> P x = false) -> read_first P f (put d s) = Some None.
Proof.
  intros HP. rewrite read_first_put. destruct (first P d) as [[i e]|] eqn:E; [|done]. apply first_some in E as (E & He & _).
  rewrite (HP e) in He by (by eapply list_elem_of_lookup_2). done.
Qed.

(** Everything the module tells of a device. *)
Definition found_as (e : BleDeviceinfo) (s : nv_ble) : Prop :=
  let a := bd_of e in
  let p := pairingInfo e in
  nv_record_blerec_is_paired_from_addr a s = Some true /\
  nv_record_blerec_get_paired_dev_from_addr (peer_addr p) s = Some (Some p) /\
  nv_record_ble_record_find_device_security_info_through_static_bd_addr a s = Some (Some p) /\
  (forall ediv, nv_record_ble_record_find_ltk a ediv s = Some (pFoundLtk ediv p)) /\
  nv_record_blerec_get_irk_from_addr a s = Some (Some (IRK p)) /\
  nv_record_ble_read_volume_via_bdaddr a s = Some (Some (volume e)) /\
  nv_record_ble_read_addr_resolv_supp_via_bdaddr a s = Some (Some (get_bit (bond_info_bf p) BONDED_WITH_IRK_DISTRIBUTED)) /\
  nv_record_ble_server_cache_get (Some (peer_addr p)) s = Some (Some (server_cache p)).

Lemma device_found e : e ∈ d -> found_as e (put d s).
Proof.
  intros He. pose proof (unique_bd (bd_of e) d (proj2 Hd)) as HU. pose proof (unique_addr (peer_addr (pairingInfo e)) d (proj2 Hd)) as HUA.
  assert (HB : same_bd (bd_of e) e = true) by by apply bool_decide_eq_true_2.
  assert (HA : same_addr (peer_addr (pairingInfo e)) e = true) by by apply bool_decide_eq_true_2.
  unfold found_as, nv_record_blerec_is_paired_from_addr, nv_record_blerec_get_paired_dev_from_addr,
    nv_record_ble_record_find_device_security_info_through_static_bd_addr, nv_record_ble_record_find_ltk, nv_record_blerec_get_irk_from_addr,
    nv_record_ble_read_volume_via_bdaddr, nv_record_ble_read_addr_resolv_supp_via_bdaddr, nv_record_ble_server_cache_get.
  change (ble_ready (put d s)) with (ble_ready s). rewrite HR. cbn [negb].
  split; [by rewrite (read_found _ _ e)|]. split; [by rewrite (read_found _ _ e)|]. split; [|split; [|split; [|split; [|split]]]]; try (by rewrite (read_found _ _ e)).
  - change (list_num (put d s)) with (length d). change (nv_list (put d s)) with (fill d).
    destruct (proj1 (list_elem_of_lookup d e) He) as [i Hi]. pose proof (last_app (same_bd (bd_of e)) d [] (replicate (BLE_RECORD_NUM - length d) zero_device) None) as HL.
    cbn [app length] in HL. unfold fill. rewrite HL. by rewrite (filter_unique _ d i e HU Hi HB).
  - intros ediv. destruct (pFoundLtk ediv (pairingInfo e)) as [k|] eqn:EK.
    + rewrite (read_found _ _ e); [by cbn; rewrite EK| |done|].
      * intros i j x y Hi Hj [H1 _]%andb_true_iff [H2 _]%andb_true_iff. by eapply HU.
      * by rewrite HB, EK.
    + rewrite read_missing; [done|]. intros x Hx. destruct (same_bd (bd_of e) x) eqn:Ex; [|done].
      assert (x = e) as ->; [|by rewrite EK]. apply list_elem_of_lookup in Hx as [i Hi]. apply list_elem_of_lookup in He as [j Hj].
      assert (i = j) as -> by (by eapply HU). congruence.
Qed.
End Lookups.

Section Found.
Variable default_vol : option Z.

(** What is stored is found, and nothing else: every reader answers for a device of the list what the
    device holds, its keys by their diversifier, and for another address that there is none. *)
Theorem ble_lookup s : ble_ok s -> ble_ready s = true ->
  (forall e, e ∈ bonded s -> found_as e s) /\
  (forall a ediv, (forall e, e ∈ bonded s -> bd_of e <> a) ->
     nv_record_blerec_is_paired_from_addr a s = Some false /\ nv_record_ble_record_find_ltk a ediv s = Some None /\
     nv_record_blerec_get_irk_from_addr a s = Some None /\ nv_record_ble_read_volume_via_bdaddr a s = Some None) /\
  (forall irk, nv_record_blerec_get_bd_addr_from_irk irk s = Some ((fun x => bd_of x.2) <$> first (fun e => bool_decide (IRK (pairingInfo e) = irk)) (bonded s))).
Proof.
  intros (d & Hd & -> & _)%ok_put HR. rewrite bonded_put. split; [|split].
  - intros e He. by apply device_found.
  - intros a ediv Ha. assert (HX : forall x, x ∈ d -> same_bd a x = false) by (intros x Hx; apply bool_decide_eq_false_2; auto).
    unfold nv_record_blerec_is_paired_from_addr, nv_record_ble_record_find_ltk, nv_record_blerec_get_irk_from_addr, nv_record_ble_read_volume_via_bdaddr.
    change (ble_ready (put d s)) with (ble_ready s) in *. rewrite HR. cbn [negb]. rewrite !read_missing; [done| | | |]; intros x Hx; by rewrite HX.
  - intros irk. unfold nv_record_blerec_get_bd_addr_from_irk. rewrite through_put by done. apply read_first_put.
Qed.

Lemma found_calls e s cs : found_as e s -> found_as e (foldr call s cs).
Proof. intros H. by induction cs. Qed.

(** C12: A stored pairing is read back, whatever btif_cobuf_malloc answers: after an addition every reader
    answers for its address what was stored. The volume is the default for a new device, the one the
    device had when there was memory for its copy or the pairing is the one stored, and that of the head
    of the list otherwise. The devices that were there, save the last of a full list, are read as before. *)
Theorem ble_add_found mem p s s' : ble_ok s -> ble_ready s = true -> nv_record_blerec_add default_vol mem p s = Some (0, s') ->
  let mine := same_bd (ble_bd_addr (peer_addr p)) in
  found_as (mkDevice p (match first mine (bonded s) with
    | Some (_, e) => if mem || bool_decide (p = pairingInfo e) then volume e else volume (hd e (bonded s))
    | None => default 0 default_vol end)) s' /\
  forall i e, bonded s !! i = Some e -> mine e = false -> (i < 4)%nat \/ is_Some (first mine (bonded s)) -> found_as e s'.
Proof.
  intros (d & Hd & -> & _)%ok_put HR. rewrite bonded_put. destruct (add_list default_vol mem p d s Hd HR) as [cs E]. rewrite E. intros [= <-] mine.
  pose proof (device_found (spec_add default_vol mem p d) s (bounded_add default_vol mem p d Hd) HR) as HF. unfold spec_add, spec_volume in *. fold mine in HF |- *.
  destruct (first mine d) as [[j x]|] eqn:EF; [destruct (bool_decide (p = pairingInfo x)) eqn:EB|]; (split; [|intros i e Hi He Hj]); apply found_calls, HF.
  - rewrite orb_true_r. apply first_some in EF as (Hx%list_elem_of_lookup_2 & _). apply bool_decide_eq_true_1 in EB as ->. by destruct x.
  - by eapply list_elem_of_lookup_2.
  - left.
  - right. apply list_elem_of_filter. split; [done|]. by eapply list_elem_of_lookup_2.
  - left.
  - right. destruct Hj as [Hj|[? Hj]]; [|done]. apply elem_of_take. by exists i.
Qed.
End Found.

(** ** States for the witnesses *)
Definition ble_sample (k : Z) : BleDevicePairingInfo :=
  mkPair (mkAddr (replicate 6 k) 0) 1 (100 + k) (200 + k) (replicate 8 k) (replicate 16 k) (replicate 8 (50 + k)) (replicate 16 (50 + k))
    (replicate 16 (70 + k)) (replicate 16 0) 16 empty_cache.

Definition ble_blank : nv_ble :=
  mkBle true (mkBleInfo 0 (mkBasic (replicate 6 9) (replicate 16 1) (replicate 16 2)) (replicate 16 0) (replicate 5 zero_device) (replicate 2 zero_gatt))
    (mkBasic (replicate 6 8) (replicate 16 3) (replicate 16 4)) (replicate 6 9) false (mkAudio 0 (replicate 16 0)) [].

(** Three devices with volumes of their own. *)
Definition ble_three : nv_ble := put [mkDevice (ble_sample 3) 13; mkDevice (ble_sample 2) 12; mkDevice (ble_sample 1) 11] ble_blank.

Lemma bounded_by_check d : (length d <=? 5)%nat && bool_decide (NoDup (bd_of <$> d)) = true -> bounded d.
Proof. intros [H1%Nat.leb_le H2%bool_decide_eq_true_1]%andb_true_iff. by split. Qed.

Lemma ble_three_ok : ble_ok ble_three.
Proof. apply put_ok, bounded_by_check. vm_compute. reflexivity. Qed.

(** The record of [ble_three] before the start: the own address is not set, and no pointer. *)
Definition ble_three_stored : nv_ble :=
  let i := ble_pair_info ble_three in
  mkBle false (mkBleInfo 3 (mkBasic (replicate 6 0) (replicate 16 1) (replicate 16 2)) (replicate 16 0) (ble_nv i) (gatt_cache i))
    (tws_ble_info ble_three) (replicate 6 9) false (mkAudio 0 (replicate 16 0)) [].

Definition ble_calls_made : list ble_op :=
  [Add true (ble_sample 4); Audio_init false [1; 2; 3; 4; 5; 6] 7 [1; 2; 3; 4; 5; 6]; Add true (ble_sample 5); Add true (with_bond (fun _ => 3) (ble_sample 2)); Init;
   Write_volume (replicate 6 4) 7; Add true (ble_sample 6); Add false (with_bond (fun _ => 3) (ble_sample 4)); Delete (replicate 6 5)].

Lemma ble_list_witness : exists s', ble_run None 2 false true (fun s k => s + Z.of_nat k) (Init :: ble_calls_made) ble_three_stored = Some s' /\
  map volume (bonded s') = [0; 0; 12; 13] /\ map bd_of (bonded s') = [replicate 6 4; replicate 6 6; replicate 6 2; replicate 6 3].
Proof.
  destruct (ble_list None 2 false true (fun s k => s + Z.of_nat k) ble_three_stored ble_calls_made) as (s' & E & _ & _ & Hb).
  - apply (put_ok (bonded ble_three) ble_three_stored), bounded_by_check. vm_compute. reflexivity.
  - reflexivity.
  - exists s'. split; [exact E|]. rewrite Hb. vm_compute. split; reflexivity.
Defined.


Lemma ble_lookup_witness : nv_record_ble_record_find_ltk (replicate 6 2) 202 ble_three = Some (Some (replicate 16 52)) /\
  nv_record_blerec_is_paired_from_addr (replicate 6 5) ble_three = Some false.
Proof.
  destruct (ble_lookup ble_three ble_three_ok eq_refl) as (H1 & H2 & _). split.
  - destruct (H1 (mkDevice (ble_sample 2) 12)) as (_ & _ & _ & H & _); [apply list_elem_of_lookup; exists 1%nat; reflexivity|]. exact (H 202).
  - apply (H2 (replicate 6 5) 0). intros e [i Hi]%list_elem_of_lookup. do 3 (destruct i as [|i]; [injection Hi as <-; vm_compute; discriminate|]). destruct i; discriminate.
Defined.

Lemma ble_add_found_witness : exists s', nv_record_blerec_add None true (ble_sample 4) ble_three = Some (0, s') /\
  nv_record_ble_record_find_ltk (replicate 6 4) 104 s' = Some (Some (replicate 16 4)) /\ nv_record_ble_read_volume_via_bdaddr (replicate 6 1) s' = Some (Some 11).
Proof.
  destruct (nv_record_blerec_add None true (ble_sample 4) ble_three) as [[r s']|] eqn:E; [|vm_compute in E; discriminate].
  assert (r = 0) as -> by (vm_compute in E; congruence). exists s'. split; [reflexivity|].
  destruct (ble_add_found None true (ble_sample 4) ble_three s' ble_three_ok eq_refl E) as [H1 H2]. split.
  - destruct H1 as (_ & _ & _ & H1 & _). exact (H1 104).
  - destruct (H2 2%nat (mkDevice (ble_sample 1) 11) eq_refl) as (_ & _ & _ & _ & _ & H & _); [reflexivity|left; lia|exact H].
Defined.
