(* ===== verification/NvBlePeers.v ===== *)
(** The rest of NvBle.v: the caches of peers as a bounded map, the identity exchanged with the other
    earbud, the key of the classic link in the list of NvBt.v; the states the witnesses use, and the
    inputs on which the code does otherwise than meant. *)
From Stdlib Require Import ZArith Lia Bool.
From stdpp Require Import base option list.
From S2P Require Import Prelude NvBt NvBtLaws NvBle NvBleLaws NvBleProps.

(** ** The caches *)
Definition in_use (c : gattc_nv_cache_t) : Prop := cache_seqn c <> 0.

(** No address in two slots, and the unused ones clear. *)
Definition gatt_ok (l : list gattc_nv_cache_t) : Prop :=
  (forall i j c c', l !! i = Some c -> l !! j = Some c' -> in_use c -> in_use c' -> cache_peer_addr c = cache_peer_addr c' -> i = j) /\
  (forall i c, l !! i = Some c -> ~ in_use c -> cache_peer_addr c = zero_addr).

Definition gfind (a : BLE_ADDR_INFO_T) (l : list gattc_nv_cache_t) : option gattc_nv_cache_t := snd <$> list_find (fun c => bool_decide (cache_peer_addr c = a) = true) l.

Lemma gatt_used l i c : gatt_ok l -> l !! i = Some c -> cache_peer_addr c <> zero_addr -> in_use c.
Proof. intros [_ H2] Hi Ha. destruct (decide (cache_seqn c = 0)) as [E|]; [|done]. exfalso. apply Ha, (H2 i c Hi). by intros []. Qed.

Lemma gfind_some a l c : gatt_ok l -> a <> zero_addr -> gfind a l = Some c <-> exists i, l !! i = Some c /\ cache_peer_addr c = a.
Proof.
  intros HG Ha. unfold gfind. split.
  - destruct (list_find _ l) as [[i x]|] eqn:E; [|done]. intros [= ->]. apply list_find_Some in E as (Hi & Hx%bool_decide_eq_true_1 & _). by exists i.
  - intros (i & Hi & Hc). destruct (list_find _ l) as [[j x]|] eqn:E.
    + apply list_find_Some in E as (Hj & Hx%bool_decide_eq_true_1 & _). assert (j = i) as ->; [|cbn; congruence].
      apply (proj1 HG j i x c Hj Hi); [|eapply (gatt_used l); [done|exact Hi|congruence]|congruence]. eapply (gatt_used l); [done|exact Hj|congruence].
    + apply list_find_None in E. rewrite Forall_forall in E. destruct (E c (list_elem_of_lookup_2 _ _ _ Hi)). by apply bool_decide_eq_true_2.
Qed.

Lemma gfind_none a l : gatt_ok l -> a <> zero_addr -> (forall i c, l !! i = Some c -> cache_peer_addr c <> a) -> gfind a l = None.
Proof. intros HG Ha HN. destruct (gfind a l) as [c|] eqn:E; [|done]. apply gfind_some in E as (i & Hi & Hc); [|done|done]. by destruct (HN i c Hi). Qed.

(** A slot is stored: for its own address, or cleared. *)
Lemma gatt_store l i x y : gatt_ok l -> l !! i = Some x ->
  (cache_seqn y = 0 /\ cache_peer_addr y = zero_addr \/ in_use y /\ forall j z, j <> i -> l !! j = Some z -> in_use z -> cache_peer_addr z <> cache_peer_addr y) ->
  gatt_ok (<[i := y]> l).
Proof.
  intros [H1 H2] Hi HY. assert (HL : forall j c, <[i := y]> l !! j = Some c -> (j = i /\ c = y) \/ (j <> i /\ l !! j = Some c)).
  { intros j c Hj. destruct (decide (j = i)) as [-> |]; [|rewrite list_lookup_insert_ne in Hj by done; by right].
    rewrite list_lookup_insert_eq in Hj by (by eapply lookup_lt_Some). left. by injection Hj as <-. }
  split.
  - intros j k c c' Hj Hk Hc Hc' HE. apply HL in Hj as [[-> ->]|[Nj Hj]]; apply HL in Hk as [[-> ->]|[Nk Hk]]; [done| | |by eapply H1].
    + destruct HY as [[HY _]|[_ HY]]; [done|]. by destruct (HY k c' Nk Hk Hc').
    + destruct HY as [[HY _]|[_ HY]]; [done|]. by destruct (HY j c Nj Hj Hc).
  - intros j c Hj Hc. apply HL in Hj as [[-> ->]|[_ Hj]]; [|by eapply H2]. destruct HY as [[_ HY]|[HY _]]; done.
Qed.

(** What is found after a slot was stored. *)
Lemma gfind_store l i x y a : gatt_ok l -> gatt_ok (<[i := y]> l) -> l !! i = Some x -> a <> zero_addr ->
  gfind a (<[i := y]> l) = if decide (cache_peer_addr y = a) then Some y else if decide (cache_peer_addr x = a) then None else gfind a l.
Proof.
  intros HG HG' Hi Ha. pose proof (lookup_lt_Some _ _ _ Hi) as Hlt. destruct (decide _) as [Hy|Hy].
  - apply gfind_some; [done|done|]. exists i. by rewrite list_lookup_insert_eq.
  - destruct (decide _) as [Hx|Hx].
    + apply gfind_none; [done|done|]. intros j c Hj Hc. destruct (decide (j = i)) as [-> |].
      * rewrite list_lookup_insert_eq in Hj by done. congruence.
      * rewrite list_lookup_insert_ne in Hj by done. assert (j = i); [|done].
        apply (proj1 HG j i c x Hj Hi); [eapply (gatt_used l); [done|exact Hj|congruence]|eapply (gatt_used l); [done|exact Hi|congruence]|congruence].
    + apply option_eq. intros c. rewrite !gfind_some by done. split; intros (j & Hj & Hc); exists j; (split; [|done]).
      * destruct (decide (j = i)) as [-> |]; [|by rewrite list_lookup_insert_ne in Hj]. rewrite list_lookup_insert_eq in Hj by done. congruence.
      * destruct (decide (j = i)) as [-> |]; [congruence|]. by rewrite list_lookup_insert_ne.
Qed.

Definition caches (s : nv_ble) : list gattc_nv_cache_t := gatt_cache (ble_pair_info s).

Section Caches.
Variable gatt_num : nat.

Lemma cache_get a s : ble_ready s = true -> length (caches s) = gatt_num -> nv_record_ble_gatt_cache_get gatt_num (Some a) s = Some (gfind a (caches s)).
Proof.
  intros HR HL. unfold nv_record_ble_gatt_cache_get, gfind. rewrite HR. cbn [negb]. fold (caches s). rewrite <- HL.
  rewrite gatt_search_all. cbn [mbind option_bind]. destruct (list_find _ (caches s)) as [[i c]|] eqn:E; [|done]. cbn. apply list_find_Some in E as (-> & _). done.
Qed.

(** The slot an addition takes: the one of the address, or the one with the smallest number. *)
Lemma cache_add a q c s : live gatt_num s -> (exists i x, caches s !! i = Some x /\ (used_by a x = true \/ cache_seqn x < 255)) -> exists i x y,
  caches s !! i = Some x /\ nv_record_ble_gatt_cache_add gatt_num (Some a) q (Some c) s = Some (0, call ASYNC_FLUSH (call UPDATE (set_gatt (<[i := y]> (caches s)) s))) /\
  client_cache y = c /\ cache_peer_addr y = a /\
  (used_by a x = true /\ cache_seqn y = cache_seqn x \/
   cache_seqn y = q /\ (forall j z, caches s !! j = Some z -> used_by a z = false /\ cache_seqn x <= cache_seqn z)).
Proof.
  intros [HR HL] (i0 & x0 & Hi0 & Hx0). unfold nv_record_ble_gatt_cache_add. rewrite HR. cbn [negb]. fold (caches s) in *.
  destruct (scan_all a (caches s)) as (small & E & HS). rewrite HL in E. rewrite E. cbn [mbind option_bind]. unfold store_gatt.
  destruct (list_find _ (caches s)) as [[i x]|] eqn:EF; cbn [fmap option_fmap option_map fst].
  - apply list_find_Some in EF as (Hi & Hx & _). exists i, x, (mkCache (cache_seqn x) (cache_peer_addr x) c). rewrite Hi. cbn [mbind option_bind].
    split; [done|]. split; [done|]. split; [done|]. split; [|by left]. unfold used_by in Hx. apply andb_true_iff in Hx as [_ Hx%bool_decide_eq_true_1]. exact Hx.
  - apply list_find_None in EF. rewrite Forall_forall in EF. assert (HN : forall j z, caches s !! j = Some z -> used_by a z = false).
    { intros j z Hj. specialize (EF z (list_elem_of_lookup_2 _ _ _ Hj)). by destruct (used_by a z). }
    destruct Hx0 as [Hx0|Hx0]; [by rewrite (HN i0 x0 Hi0) in Hx0|]. destruct small as [i|]; cbn in HS.
    + destruct HS as (x & Hi & _ & HA). exists i, x, (mkCache q a c). rewrite Hi. cbn [mbind option_bind]. split; [done|]. split; [done|]. split; [done|]. split; [done|].
      right. split; [done|]. intros j z Hj. split; [by eapply HN|]. rewrite Forall_lookup in HA. by eapply HA.
    + rewrite Forall_lookup in HS. specialize (HS i0 x0 Hi0). cbn in HS. lia.
Qed.

(** The caches are a map: what is added for an address is read back, unless every slot is in use by
    another address with the number 255; other addresses answer as before, save the one whose number was
    the smallest when the slots were all taken; and no address gets two slots. *)
Theorem ble_cache_map a q c s s' : live gatt_num s -> gatt_ok (caches s) -> a <> zero_addr -> 0 < q ->
  (exists i x, caches s !! i = Some x /\ (used_by a x = true \/ cache_seqn x < 255)) ->
  nv_record_ble_gatt_cache_add gatt_num (Some a) q (Some c) s = Some (0, s') ->
  gatt_ok (caches s') /\
  (exists y, nv_record_ble_gatt_cache_get gatt_num (Some a) s' = Some (Some y) /\ client_cache y = c) /\
  forall b, b <> a -> b <> zero_addr ->
    nv_record_ble_gatt_cache_get gatt_num (Some b) s' = nv_record_ble_gatt_cache_get gatt_num (Some b) s \/
    nv_record_ble_gatt_cache_get gatt_num (Some b) s' = Some None /\
    exists x, nv_record_ble_gatt_cache_get gatt_num (Some b) s = Some (Some x) /\ forall i z, caches s !! i = Some z -> cache_seqn x <= cache_seqn z.
Proof.
  intros HL HG Ha Hq HE. destruct (cache_add a q c s HL HE) as (i & x & y & Hi & E & Hc & Hy & HX). rewrite E. intros [= <-].
  change (caches (call ASYNC_FLUSH (call UPDATE (set_gatt ?l s)))) with l.
  assert (HG' : gatt_ok (<[i := y]> (caches s))).
  { apply (gatt_store _ i x); [done|done|]. right. destruct HX as [[Hu Hs]|[Hs Hn]].
    - unfold used_by in Hu. apply andb_true_iff in Hu as [Hu Hxa%bool_decide_eq_true_1]. apply negb_true_iff, Z.eqb_neq in Hu.
      split; [unfold in_use; congruence|]. intros j z Hj Hjz Hz He. apply Hj. by apply (proj1 HG j i z x Hjz Hi Hz Hu); congruence.
    - split; [unfold in_use; lia|]. intros j z Hj Hjz Hz He. destruct (Hn j z Hjz) as [Hu _]. unfold used_by in Hu.
      rewrite (bool_decide_eq_true_2 _ (eq_trans He Hy)), andb_true_r in Hu. apply negb_false_iff, Z.eqb_eq in Hu. by apply Hz. }
  assert (HR : forall b, nv_record_ble_gatt_cache_get gatt_num (Some b) (call ASYNC_FLUSH (call UPDATE (set_gatt (<[i := y]> (caches s)) s))) = Some (gfind b (<[i := y]> (caches s)))).
  { intros b. apply cache_get; [apply HL|]. exact (eq_trans (length_insert _ _ _) (proj2 HL)). }
  split; [done|]. split.
  - exists y. rewrite HR, (gfind_store _ i x y a) by done. by rewrite decide_True.
  - intros b Hb Hbz. rewrite HR, (gfind_store _ i x y b), decide_False, cache_get by (done || congruence || apply HL).
    destruct (decide (cache_peer_addr x = b)) as [Hx|Hx]; [|by left]. right. split; [done|].
    exists x. split; [f_equal; apply gfind_some; [done|done|by exists i]|]. destruct HX as [[Hu _]|[_ Hn]]; [|intros j z Hj; by apply (Hn j z)].
    unfold used_by in Hu. apply andb_true_iff in Hu as [_ Hu%bool_decide_eq_true_1]. congruence.
Qed.
End Caches.

(** ** The identity of the two earbuds *)
Definition identity (s : nv_ble) : list Z * list Z := (ble_addr (self_info (ble_pair_info s)), ble_irk (self_info (ble_pair_info s))).
Definition twin (s : nv_ble) : list Z * list Z := (ble_addr (tws_ble_info s), ble_irk (tws_ble_info s)).

(** The exchange of identities: with the other earbud known under another address, the part of the
    identity that the build exchanges, the key or the address, becomes the other's and the other's is
    kept in its place, the radio follows the address, a flush is asked for, and a second exchange
    restores everything; in the other cases nothing happens. *)
Theorem ble_exchange rpa s : ble_addr (self_info (ble_pair_info s)) <> replicate BLE_ADDR_SIZE 0 ->
  let s1 := nv_record_tws_exchange_ble_info false rpa s in
  let s2 := nv_record_tws_exchange_ble_info false rpa s1 in
  self_info (ble_pair_info s2) = self_info (ble_pair_info s) /\ tws_ble_info s2 = tws_ble_info s /\
  if bool_decide (ble_addr (tws_ble_info s) = ble_addr (self_info (ble_pair_info s)) \/ ble_addr (tws_ble_info s) = replicate BLE_ADDR_SIZE 0)
  then s1 = s
  else ble_calls s1 = ble_calls s ++ [UPDATE] /\
    if rpa then identity s1 = ((identity s).1, (twin s).2) /\ twin s1 = ((twin s).1, (identity s).2) /\ ble_local_address s1 = ble_local_address s
    else identity s1 = ((twin s).1, (identity s).2) /\ twin s1 = ((identity s).1, (twin s).2) /\ ble_local_address s1 = (identity s1).1.
Proof.
  unfold nv_record_tws_exchange_ble_info, tws_use_same_ble_addr. generalize (replicate BLE_ADDR_SIZE 0). intros z Hs.
  destruct s as [r [n [sa si sc] h l g] [ta ti tc] loc ar ai cs]. cbn in *.
  destruct (bool_decide_reflect (sa = ta)) as [->|Hne]; [by rewrite !bool_decide_eq_true_2 by (done || by left)|].
  destruct (bool_decide_reflect (ta = z)) as [->|Hz].
  { rewrite (bool_decide_eq_false_2 (sa = _)) by done. rewrite !bool_decide_eq_true_2 by (done || by right). done. }
  rewrite (bool_decide_eq_false_2 (_ \/ _)) by (intros [H|H]; congruence).
  destruct rpa; cbn; [rewrite !(bool_decide_eq_false_2 (sa = ta)), !(bool_decide_eq_false_2 (ta = z)) by done; done|].
  rewrite (bool_decide_eq_false_2 (ta = sa)), (bool_decide_eq_false_2 (sa = z)) by congruence. done.
Qed.

(** ** The key of the classic link *)
Section Key.
Variable cmac : list Z -> list Z -> list Z.
Variable ibrt : bool.
Variable is_tws : list Z -> bool.
Variable dac : Z.
Variable to_bt : Z -> Z.
Variable dflt : bool.

(** The functions h6 and h7 of the specification, their byte strings the most significant byte first. *)
Definition h6 (w keyid : list Z) : list Z := cmac w keyid.
Definition h7 (slt w : list Z) : list Z := cmac slt w.
Definition spec_link_key (ltk : list Z) (ct2 : bool) : list Z :=
  let ilk := if ct2 then h7 salt (reverse ltk) else h6 (reverse ltk) tmp1 in reverse (h6 ilk lebr).

Lemma entry_of_records a l l' : record <$> l = record <$> l' -> record <$> entry_of a l = record <$> entry_of a l'.
Proof.
  revert l'. induction l as [|e l IH]; intros [|e' l'] H; try done. injection H as He Hl. rewrite !entry_of_cons.
  unfold addr. rewrite He. destruct (decide _); [cbn; by rewrite He|by apply IH].
Qed.

Lemma find_records s s' b : ready s = true -> ready s' = true -> info_ok (bt_pair_info s) -> info_ok (bt_pair_info s') ->
  record <$> devices s' = record <$> devices s -> nv_record_ddbrec_find s' b = nv_record_ddbrec_find s b.
Proof.
  intros H1 H2 H3 H4 H. rewrite !find_spec by done. pose proof (entry_of_records b _ _ H) as HX.
  destruct (entry_of b (devices s)), (entry_of b (devices s')); try done. by injection HX as ->.
Qed.

(** A change of one entry that leaves its record alone. *)
Lemma update_dev_records i changed f s : info_ok (bt_pair_info s) -> ready s = true -> (i < length (devices s))%nat -> (forall e, record (f e) = record e) ->
  let s' := update_dev i changed f s in
  info_ok (bt_pair_info s') /\ ready s' = true /\ record <$> devices s' = record <$> devices s /\ devices s' !! i = Some (f (nth_dev s i)) /\ devices s !! i = Some (nth_dev s i).
Proof.
  intros Hok HR Hi Hf s'. destruct (update_dev_devices i changed f s Hok Hi) as [Hd He].
  assert (Hrec : record <$> devices s' = record <$> devices s) by (unfold s'; rewrite Hd, list_fmap_insert, Hf; apply list_insert_id; by rewrite list_lookup_fmap, He).
  split; [|split; [|split; [done|split; [|done]]]].
  - destruct Hok as (Hl & Hn & Hnd). split; [|split].
    + unfold s', update_dev. cbn. destruct (changed _); cbn; unfold set_nth; by rewrite length_insert.
    + unfold s', update_dev. cbn. by destruct (changed _).
    + change (NoDup (addr <$> devices s')). replace (addr <$> devices s') with (addr <$> devices s); [done|].
      change addr with (compose bdAddr record). by rewrite !list_fmap_compose, Hrec.
  - unfold s', update_dev. cbn. by destruct (changed _).
  - unfold s'. rewrite Hd. by apply list_lookup_insert_eq.
Qed.

(** C37: The key of the classic link is the one the specification derives from the LE key, in the byte
    order of the stack: afterwards the list of NvBt.v answers for the address with that key, the type of
    an unauthenticated key and both profiles active; other devices answer as after any addition. *)
Theorem ble_link_key junk ltk a ct2 t : ready t = true -> info_ok (bt_pair_info t) ->
  let t' := clac_linkKey cmac ibrt is_tws dac to_bt dflt junk ltk a ct2 t in
  (exists r, nv_record_ddbrec_find t' a = (BT_STS_SUCCESS, Some r) /\ bdAddr r = a /\ linkKey r = spec_link_key ltk ct2 /\ keyType r = BTIF_UNAUTH_COMBINATION_KEY) /\
  (exists e, entry_of a (devices t') = Some e /\ hfp_act e = true /\ a2dp_act e = true) /\ info_ok (bt_pair_info t') /\
  forall b, b <> a -> nv_record_ddbrec_find t' b =
    if bool_decide (find_index a (devices t) = None /\ length (devices t) = MAX_BT_PAIRED_DEVICE_COUNT /\ find_index b (devices t) = Some 7%nat)
    then (BT_STS_FAILED, None) else nv_record_ddbrec_find t b.
Proof.
  intros HR Hok. unfold clac_linkKey, function_h6_calc_linkKey. set (key := reverse _).
  assert (HK : key = spec_link_key ltk ct2) by (unfold key, function_calc_ilk; by destruct ct2). rewrite <- HK. clearbody key.
  set (r := mkRec a _ _ key _ _ _ _). unfold ddbif_add_record, nv_record_add.
  destruct (add_refines ibrt is_tws dac to_bt dflt r t HR Hok) as (t1 & E1 & Hd1 & _ & _ & Hok1 & _ & HR1). rewrite E1.
  destruct (spec_add_record dac to_bt r (devices t)) as (e & l & Hsp & He). rewrite Hsp in Hd1.
  assert (Ha : addr e = a) by (unfold addr; by rewrite He).
  unfold app_bt_profile_active_store_ptr_get, nv_record_btdevicerecord_find. rewrite HR1. cbn [negb]. rewrite index_spec by done.
  change (entries (bt_pair_info t1)) with (devices t1). rewrite Hd1. unfold find_index. cbn [list_find].
  destruct (decide (addr e = a)); [|done]. cbn [fmap option_fmap option_map fst].
  set (f1 := fun e => mkNvrec (record e) (a2dp_vol e) (hfp_vol e) true (a2dp_abs_vol e) true (a2dp_codectype e) (pnp_info e)).
  change (NvBt.set_devs _ _ t1) with (update_dev 0 (fun _ => false) f1 t1).
  destruct (update_dev_records 0 (fun _ => false) f1 t1 Hok1 HR1) as (Hok2 & HR2 & Hrec2 & Hn2 & He1); [rewrite Hd1; cbn; lia|done|].
  set (t2 := update_dev 0 _ f1 t1) in *. assert (HL2 : (0 < length (devices t2))%nat) by (by eapply lookup_lt_Some).
  unfold nv_record_btdevicerecord_set_a2dp_profile_active_state. set (f2 := fun e => mkNvrec _ _ _ _ _ true _ _).
  destruct (update_dev_records 0 (fun e => negb (eqb true (a2dp_act e))) f2 t2 Hok2 HR2 HL2) as (Hok3 & HR3 & Hrec3 & Hn3 & He2); [done|].
  set (t3 := update_dev 0 _ f2 t2) in *. assert (HL3 : (0 < length (devices t3))%nat) by (by eapply lookup_lt_Some).
  unfold nv_record_btdevicerecord_set_hfp_profile_active_state. set (f3 := fun e => mkNvrec _ _ _ true _ _ _ _).
  destruct (update_dev_records 0 (fun e => negb (eqb true (hfp_act e))) f3 t3 Hok3 HR3 HL3) as (Hok4 & HR4 & Hrec4 & Hn4 & He3); [done|].
  set (t4 := update_dev 0 _ f3 t3) in *. clearbody t2 t3 t4.
  assert (Hrec : record <$> devices t4 = record <$> devices t1) by congruence.
  destruct (nvbt_find_after_add ibrt is_tws dac to_bt dflt r t HR Hok) as [HF1 HF2]. rewrite E1 in HF1, HF2. cbn [snd] in HF1, HF2.
  assert (HF : forall b, nv_record_ddbrec_find t4 b = nv_record_ddbrec_find t1 b) by (intros b; by apply find_records).
  split; [|split; [|split; [done|]]].
  - exists r. rewrite HF. done.
  - exists (f3 (nth_dev t3 0)). rewrite He3 in Hn3. injection Hn3 as Hn3. split; [|by rewrite Hn3].
    apply entry_of_Some; [apply Hok4|]. split; [by eapply list_elem_of_lookup_2|]. rewrite Hn3. rewrite He2 in Hn2. injection Hn2 as Hn2. rewrite Hn2.
    rewrite Hd1 in He1. injection He1 as He1. unfold addr. cbn. by rewrite <- He1.
  - intros b Hb. rewrite HF. exact (HF2 b Hb).
Qed.
End Key.

(** ** Witnesses *)

(** Two slots, one of them used. *)
Definition ble_cached : nv_ble := set_gatt [mkCache 5 (mkAddr (replicate 6 1) 0) [1]; mkCache 7 (mkAddr (replicate 6 2) 0) [2]] ble_three.

Lemma ble_cached_ok : gatt_ok (caches ble_cached).
Proof.
  split.
  - intros [|[|i]] [|[|j]] c c' Hi Hj; try discriminate; injection Hi as <-; injection Hj as <-; vm_compute; congruence.
  - intros [|[|i]] c Hi; try discriminate; injection Hi as <-; intros Hc; exfalso; apply Hc; discriminate.
Qed.

Lemma ble_cache_map_witness : exists s', nv_record_ble_gatt_cache_add 2 (Some (mkAddr (replicate 6 3) 0)) 8 (Some [3]) ble_cached = Some (0, s') /\
  gatt_ok (caches s') /\ nv_record_ble_gatt_cache_get 2 (Some (mkAddr (replicate 6 1) 0)) s' = Some None.
Proof.
  destruct (nv_record_ble_gatt_cache_add 2 (Some (mkAddr (replicate 6 3) 0)) 8 (Some [3]) ble_cached) as [[r s']|] eqn:E; [|vm_compute in E; discriminate].
  assert (r = 0) as -> by (vm_compute in E; congruence). exists s'. split; [reflexivity|].
  destruct (ble_cache_map 2 (mkAddr (replicate 6 3) 0) 8 [3] ble_cached s') as (H & _); [split; reflexivity|exact ble_cached_ok|discriminate|lia| |exact E|].
  - exists 0%nat, (mkCache 5 (mkAddr (replicate 6 1) 0) [1]). split; [reflexivity|]. right. vm_compute. reflexivity.
  - split; [exact H|]. vm_compute in E. injection E as <-. vm_compute. reflexivity.
Defined.

Lemma ble_exchange_witness : identity (nv_record_tws_exchange_ble_info false false ble_three) = (replicate 6 8, replicate 16 1).
Proof.
  destruct (ble_exchange false ble_three) as (_ & _ & H); [vm_compute; discriminate|]. rewrite bool_decide_eq_false_2 in H by (vm_compute; intros [HX|HX]; discriminate).
  destruct H as (_ & H & _). exact H.
Defined.

Lemma ble_link_key_witness : exists r, nv_record_ddbrec_find (clac_linkKey (fun k m => replicate 15 (Z.of_nat (length m)) ++ [nth 0 k 0]) false (fun _ => false) 10 (fun v => v) true zero_record (replicate 16 5) (replicate 6 4) true booted)
  (replicate 6 4) = (BT_STS_SUCCESS, Some r) /\ linkKey r = 16 :: replicate 15 4.
Proof.
  destruct (ble_link_key (fun k m => replicate 15 (Z.of_nat (length m)) ++ [nth 0 k 0]) false (fun _ => false) 10 (fun v => v) true zero_record (replicate 16 5) (replicate 6 4) true booted)
    as ((r & H1 & _ & H2 & _) & _); [reflexivity|apply booted_ok|].
  exists r. split; [exact H1|]. rewrite H2. vm_compute. reflexivity.
Defined.

(** ** Where the code does otherwise than meant *)

(** Without memory for the copy of an entry that moves to the head, the device gets the volume of the
    one that was at the head. *)
Theorem ble_volume_lost : let p := with_bond (fun _ => 3) (ble_sample 1) in
  option_map (fun x => map volume (bonded x.2)) (nv_record_blerec_add None true p ble_three) = Some [11; 13; 12] /\
  option_map (fun x => map volume (bonded x.2)) (nv_record_blerec_add None false p ble_three) = Some [13; 13; 12].
Proof. vm_compute. split; reflexivity. Qed.

(** The number of devices is read through the pointer before the pointer is tested. *)
Theorem ble_null_read s i : ble_ready s = false -> nv_record_get_ble_pairing_info_through_list_index i s = None.
Proof. intros H. unfold nv_record_get_ble_pairing_info_through_list_index, through. by rewrite H. Qed.

(** With every slot numbered 255 a new cache is dropped and the answer is success; a cache stored with
    the number 0 is read back but no deletion finds it; a clear slot answers for the address zero. *)
Theorem ble_cache_flaws :
  let full := set_gatt [mkCache 255 (mkAddr (replicate 6 1) 0) [1]] ble_three in
  let a := Some (mkAddr (replicate 6 3) 0) in
  option_map (fun x => (x.1, nv_record_ble_gatt_cache_get 1 a x.2)) (nv_record_ble_gatt_cache_add 1 a 8 (Some [3]) full) = Some (0, Some None) /\
  (forall s, (x ← nv_record_ble_gatt_cache_add 2 a 0 (Some [3]) ble_three; nv_record_ble_gatt_cache_del 2 a x.2) = Some (0, s) ->
     nv_record_ble_gatt_cache_get 2 a s = Some (Some (mkCache 0 (mkAddr (replicate 6 3) 0) [3]))) /\
  nv_record_ble_gatt_cache_get 2 (Some zero_addr) ble_three = Some (Some zero_gatt).
Proof. split; [vm_compute; reflexivity|]. split; [|vm_compute; reflexivity]. intros s E. vm_compute in E. injection E as <-. vm_compute. reflexivity. Qed.

(** A set identity key drawn at the start is written to the record, and no flush is asked for. *)
Theorem ble_sirk_not_saved rand addr t0 reads s : audio_ready s = false -> sirk (ble_audio_dev_info s) = replicate 16 0 ->
  let s' := nv_record_bleaudio_init rand false addr t0 reads s in
  sirk (ble_audio_dev_info s') <> sirk (ble_audio_dev_info s) /\ ble_calls s' = ble_calls s.
Proof.
  intros H1 H2. unfold nv_record_bleaudio_init. rewrite H1, H2. cbn -[replicate Z.modulo]. split; [|done]. intros [= H _].
  assert (0 <= rand (generatedSeed addr t0 reads) 0%nat mod 255) by (apply Z.mod_pos_bound; lia). lia.
Qed.
