(* ===== verification/SafeQueue.v ===== *)
(** The bounded queue of tests/anc_usb/safe_queue.c: a ring of words with puts at the back, gets at
    the front, pops at the back and peeks from both ends, under the interrupt lock. *)
From Stdlib Require Import ZArith Lia Bool.
From stdpp Require Import base list option.
From S2P Require Import Prelude.

(** ** Data *)
(** [SAFE_QUEUE_T]: the numbers are bytes, [items] the array the pointer designates. *)
Record safe_queue := mkQueue { first : Z; last : Z; count : Z; size : Z; watermark : Z; items : list Z }.

(** ** Operations

    Every operation runs between [int_lock] and [int_unlock]. The first component is the answer, 0 or 1;
    [None] stands for an access outside [items]. *)
Definition safe_queue_init (its : list Z) (sz : Z) : safe_queue := mkQueue 0 0 0 (u8 sz) 0 its.

Definition store (l : list Z) (i x : Z) : option (list Z) :=
  if (i <? Z.of_nat (length l)) then Some (<[Z.to_nat i := x]> l) else None.
Definition load (l : list Z) (i : Z) : option Z := l !! Z.to_nat i.

(** [queue->last++; if (queue->last >= queue->size) queue->last = 0;], also for [first]. *)
Definition advance (sz i : Z) : Z := let i := u8 (i + 1) in if i >=? sz then 0 else i.

Definition safe_queue_put (q : safe_queue) (item : Z) : option (Z * safe_queue) :=
  if count q >=? size q then Some (1, q)
  else
    its ← store (items q) (last q) item;
    let c := u8 (count q + 1) in
    Some (0, mkQueue (first q) (advance (size q) (last q)) c (size q) (if c >? watermark q then c else watermark q) its).

(** The item is read even when the caller does not want it; the difference is not observable. *)
Definition safe_queue_get (q : safe_queue) : option (Z * option Z * safe_queue) :=
  if count q =? 0 then Some (1, None, q)
  else
    x ← load (items q) (first q);
    Some (0, Some x, mkQueue (advance (size q) (first q)) (last q) (u8 (count q - 1)) (size q) (watermark q) (items q)).

Definition safe_queue_pop (q : safe_queue) : option (Z * option Z * safe_queue) :=
  if count q =? 0 then Some (1, None, q)
  else
    let l := if negb (last q =? 0) then u8 (last q - 1) else u8 (size q - 1) in
    x ← load (items q) l;
    Some (0, Some x, mkQueue (first q) l (u8 (count q - 1)) (size q) (watermark q) (items q)).

(** [idx] is a byte: the sums are wrapped before they are compared with the size. *)
Definition safe_queue_peek (q : safe_queue) (offset : Z) : option (Z * option Z) :=
  let found (i : Z) :=
    let idx := u8 i in
    let idx := if idx >=? size q then u8 (idx - size q) else idx in
    x ← load (items q) idx; Some (0, Some x) in
  if (offset >=? 0) && (offset <? count q) then found (first q + offset)
  else if (offset <? 0) && (- offset <=? count q) then found (size q + last q + offset)
  else Some (1, None).

Definition safe_queue_watermark (q : safe_queue) : Z := watermark q.

(** The items traced, in order, up to the first failing peek. *)
Fixpoint dump_loop (n : nat) (i : Z) (q : safe_queue) (acc : list Z) : option (list Z) :=
  match n with
  | O => Some acc
  | S n' =>
      r ← safe_queue_peek q i;
      match r with
      | (0, Some x) => dump_loop n' (i + 1) q (acc ++ [x])
      | _ => Some acc
      end
  end.

Definition safe_queue_dump (q : safe_queue) : option (Z * list Z) :=
  l ← dump_loop (Z.to_nat (count q)) 0 q []; Some (0, l).

(** ** The list a queue holds *)
Definition at_slot (q : safe_queue) (k : Z) : Z := (first q + k) mod size q.

Record holds (q : safe_queue) (l : list Z) : Prop := {
  h_size : 0 < size q < 256;
  h_items : Z.of_nat (length (items q)) = size q;
  h_first : 0 <= first q < size q;
  h_count : count q = Z.of_nat (length l);
  h_bound : count q <= size q;
  h_last : last q = at_slot q (count q);
  h_mark : count q <= watermark q <= size q;
  h_cells : forall k, (k < length l)%nat -> items q !! Z.to_nat (at_slot q (Z.of_nat k)) = l !! k }.

(** ** Slot arithmetic *)
Lemma advance_mod sz i : 0 <= i < sz -> sz < 256 -> advance sz i = (i + 1) mod sz.
Proof.
  intros Hi Hs. unfold advance. rewrite u8_small by (change (2 ^ 8) with 256; lia).
  rewrite Z.geb_leb. destruct (Z.leb_spec sz (i + 1)).
  - replace (i + 1) with sz by lia. rewrite Z.mod_same by lia. reflexivity.
  - rewrite Z.mod_small by lia. reflexivity.
Qed.

Lemma at_slot_range q k : 0 < size q -> 0 <= at_slot q k < size q.
Proof. intros. apply Z.mod_pos_bound. lia. Qed.

Lemma mod_shift_ne f s j k : 0 < s -> 0 <= j < k -> k - j < s -> (f + j) mod s <> (f + k) mod s.
Proof.
  intros Hs Hj Hk E. assert (D : (k - j) mod s = 0).
  { replace (k - j) with ((f + k) - (f + j)) by lia. rewrite Zminus_mod, E, Z.sub_diag. apply Z.mod_0_l. lia. }
  rewrite Z.mod_small in D by lia. lia.
Qed.

Lemma load_in q i : 0 <= i < size q -> Z.of_nat (length (items q)) = size q -> exists x, load (items q) i = Some x.
Proof. intros Hi Hl. unfold load. apply lookup_lt_is_Some_2. lia. Qed.

Lemma holds_empty_init its sz : 0 < sz < 256 -> Z.of_nat (length its) = sz -> holds (safe_queue_init its sz) [].
Proof.
  intros Hs Hl. assert (E : u8 sz = sz) by (apply u8_small; change (2 ^ 8) with 256; lia).
  split; simpl; try rewrite E; try lia.
  unfold at_slot. simpl. rewrite E. by rewrite Z.mod_0_l by lia.
Qed.

(** ** The operations on the list *)
Lemma put_holds q l x : holds q l ->
  if Z.of_nat (length l) =? size q then safe_queue_put q x = Some (1, q)
  else exists q', safe_queue_put q x = Some (0, q') /\ holds q' (l ++ [x]) /\ size q' = size q /\
    watermark q' = Z.max (watermark q) (Z.of_nat (length l) + 1).
Proof.
  intros [Hs Hi Hf Hc Hb Hl Hm Hx]. unfold safe_queue_put. rewrite Z.geb_leb.
  destruct (Z.eqb_spec (Z.of_nat (length l)) (size q)) as [E | E]; destruct (Z.leb_spec (size q) (count q)); try lia; [done|].
  pose proof (at_slot_range q (count q) ltac:(lia)) as Hr. rewrite <- Hl in Hr.
  unfold store. destruct (Z.ltb_spec (last q) (Z.of_nat (length (items q)))); [|lia].
  eexists; split; [reflexivity|]. rewrite (u8_small (count q + 1)) by (change (2 ^ 8) with 256; lia).
  cbn [size watermark]. split; [|split; [reflexivity|]].
  - split; cbn [size items first count last watermark]; try lia.
    + by rewrite length_insert.
    + rewrite length_app. simpl. lia.
    + rewrite advance_mod by lia. rewrite Hl. unfold at_slot. cbn [first size].
      rewrite Zplus_mod_idemp_l. f_equal. lia.
    + rewrite Z.gtb_ltb. destruct (Z.ltb_spec (watermark q) (count q + 1)); lia.
    + intros k Hk. rewrite length_app in Hk. simpl in Hk. unfold at_slot. cbn [first size].
      destruct (decide (k = length l)) as [-> | Hne].
      * rewrite list_lookup_middle by lia. rewrite <- Hc. fold (at_slot q (count q)). rewrite <- Hl.
        apply list_lookup_insert_eq. lia.
      * rewrite lookup_app_l by lia. rewrite <- Hx by lia. apply list_lookup_insert_ne. rewrite Hl. intros E2.
        apply Z2Nat.inj in E2; [|apply at_slot_range; lia|apply at_slot_range; lia].
        symmetry in E2. revert E2. apply mod_shift_ne; lia.
  - rewrite Z.gtb_ltb. destruct (Z.ltb_spec (watermark q) (count q + 1)); lia.
Qed.

Lemma get_holds q l : holds q l ->
  match l with
  | [] => safe_queue_get q = Some (1, None, q)
  | x :: l' => exists q', safe_queue_get q = Some (0, Some x, q') /\ holds q' l' /\ size q' = size q /\ watermark q' = watermark q
  end.
Proof.
  intros [Hs Hi Hf Hc Hb Hl Hm Hx]. unfold safe_queue_get. destruct l as [|x l']; simpl in Hc.
  { by rewrite Hc. }
  destruct (Z.eqb_spec (count q) 0); [lia|].
  assert (E : load (items q) (first q) = Some x).
  { unfold load. specialize (Hx 0%nat ltac:(simpl; lia)). unfold at_slot in Hx. simpl in Hx.
    rewrite Z.add_0_r, Z.mod_small in Hx by lia. exact Hx. }
  rewrite E. simpl. eexists; split; [reflexivity|]. split; [|done].
  assert (Ha : advance (size q) (first q) = (first q + 1) mod size q) by (apply advance_mod; lia).
  assert (Hu : u8 (count q - 1) = count q - 1) by (apply u8_small; change (2 ^ 8) with 256; lia).
  assert (Hsl : forall k, ((first q + 1) mod size q + k) mod size q = at_slot q (k + 1))
    by (intros k; rewrite Zplus_mod_idemp_l; unfold at_slot; f_equal; lia).
  split; cbn [size items first count last watermark]; rewrite ?Ha, ?Hu; try lia.
  - apply Z.mod_pos_bound. lia.
  - unfold at_slot. cbn [first size]. rewrite ?Ha, Hsl, Hl. f_equal. lia.
  - intros k Hk. unfold at_slot. cbn [first size]. rewrite ?Ha, Hsl.
    specialize (Hx (S k) ltac:(simpl; lia)). replace (Z.of_nat k + 1) with (Z.of_nat (S k)) by lia. exact Hx.
Qed.

Lemma pop_holds q l : holds q l ->
  match reverse l with
  | [] => safe_queue_pop q = Some (1, None, q)
  | x :: l' => exists q', safe_queue_pop q = Some (0, Some x, q') /\ holds q' (reverse l') /\ size q' = size q /\ watermark q' = watermark q
  end.
Proof.
  intros [Hs Hi Hf Hc Hb Hl Hm Hx]. unfold safe_queue_pop. destruct l as [|y l0 _] using rev_ind.
  { simpl in *. by rewrite Hc. }
  rewrite reverse_app. simpl. rewrite reverse_involutive. rewrite length_app in Hc. simpl in Hc.
  destruct (Z.eqb_spec (count q) 0) as [|Hc0]; [lia|].
  set (n := Z.of_nat (length l0)) in *.
  assert (Hlast : (if negb (last q =? 0) then u8 (last q - 1) else u8 (size q - 1)) = at_slot q n).
  { rewrite Hl. unfold at_slot. replace (count q) with (n + 1) by lia.
    assert (Hr : 0 <= (first q + (n + 1)) mod size q < size q) by (apply Z.mod_pos_bound; lia).
    destruct (Z.eqb_spec ((first q + (n + 1)) mod size q) 0) as [E | E]; cbn [negb];
      rewrite u8_small by (change (2 ^ 8) with 256; lia);
      replace (first q + n) with ((first q + (n + 1)) - 1) by lia; rewrite Zminus_mod, ?E.
    - destruct (Z.eq_dec (size q) 1) as [E1 | E1]; [rewrite E1; reflexivity|].
      rewrite (Z.mod_small 1) by lia. apply Z.mod_unique with (-1); lia.
    - destruct (Z.eq_dec (size q) 1) as [E1 | E1]; [rewrite E1 in *; rewrite Z.mod_1_r in *; lia|].
      rewrite (Z.mod_small 1) by lia. symmetry. apply Z.mod_small. lia. }
  rewrite Hlast.
  assert (E : load (items q) (at_slot q n) = Some y).
  { unfold load, n. rewrite Hx by (rewrite length_app; simpl; lia). apply list_lookup_middle. lia. }
  rewrite E. simpl. eexists; split; [reflexivity|]. split; [|done].
  assert (Hu : u8 (count q - 1) = n) by (rewrite u8_small by (change (2 ^ 8) with 256; lia); lia).
  split; cbn [size items first count last watermark]; rewrite ?Hu; try lia.
  - reflexivity.
  - intros k Hk. unfold at_slot. cbn [first size]. fold (at_slot q (Z.of_nat k)).
    rewrite Hx by (rewrite length_app; simpl; lia). by rewrite lookup_app_l.
Qed.

(** The item an offset designates: from the front, or from the back when negative. *)
Definition peeked (l : list Z) (offset : Z) : option Z :=
  if 0 <=? offset then l !! Z.to_nat offset
  else if - offset <=? Z.of_nat (length l) then l !! Z.to_nat (Z.of_nat (length l) + offset) else None.

Lemma peek_slot q i : 0 < size q < 256 -> 0 <= i < 2 * size q -> i < 256 ->
  (let idx := u8 i in if idx >=? size q then u8 (idx - size q) else idx) = i mod size q.
Proof.
  intros Hs Hi Hb. cbv zeta. rewrite (u8_small i) by (change (2 ^ 8) with 256; lia). rewrite Z.geb_leb.
  destruct (Z.leb_spec (size q) i).
  - rewrite u8_small by (change (2 ^ 8) with 256; lia). apply Z.mod_unique with 1; lia.
  - symmetry. apply Z.mod_small. lia.
Qed.

Lemma peek_holds q l offset : holds q l -> size q <= 128 ->
  safe_queue_peek q offset = Some (match peeked l offset with Some x => (0, Some x) | None => (1, None) end).
Proof.
  intros [Hs Hi Hf Hc Hb Hl Hm Hx] H128. unfold safe_queue_peek, peeked. rewrite Z.geb_leb, Hc.
  pose proof (at_slot_range q (count q) ltac:(lia)) as Hr. rewrite <- Hl in Hr.
  destruct (Z.leb_spec 0 offset) as [Ho | Ho]; cbn [andb].
  - destruct (Z.ltb_spec offset (Z.of_nat (length l))) as [Hk | Hk].
    + pose proof (peek_slot q (first q + offset) Hs ltac:(lia) ltac:(lia)) as Hslot. cbv zeta in Hslot |- *. rewrite Hslot.
      fold (at_slot q offset). unfold load. rewrite <- (Z2Nat.id offset) at 1 by lia. rewrite Hx by lia.
      rewrite (lookup_nth l (Z.to_nat offset) 0) by lia. reflexivity.
    + destruct (Z.ltb_spec offset 0); [lia|]. cbn [andb]. rewrite lookup_ge_None_2 by lia. reflexivity.
  - destruct (Z.ltb_spec offset 0); [|lia]. cbn [andb].
    destruct (Z.leb_spec (- offset) (Z.of_nat (length l))) as [Hk | Hk]; [|reflexivity].
    pose proof (peek_slot q (size q + last q + offset) Hs ltac:(lia) ltac:(lia)) as Hslot. cbv zeta in Hslot |- *. rewrite Hslot.
    assert (E : (size q + last q + offset) mod size q = at_slot q (Z.of_nat (length l) + offset)).
    { rewrite Hl, Hc. unfold at_slot. replace (size q + (first q + Z.of_nat (length l)) mod size q + offset)
        with ((first q + Z.of_nat (length l)) mod size q + offset + 1 * size q) by lia.
      rewrite Z.mod_add, Zplus_mod_idemp_l by lia. f_equal. lia. }
    rewrite E. unfold load. rewrite <- (Z2Nat.id (Z.of_nat (length l) + offset)) at 1 by lia. rewrite Hx by lia.
    rewrite (lookup_nth l (Z.to_nat (Z.of_nat (length l) + offset)) 0) by lia. reflexivity.
Qed.

Lemma dump_holds q l n k acc : holds q l -> size q <= 128 -> (k + n = length l)%nat ->
  dump_loop n (Z.of_nat k) q acc = Some (acc ++ drop k l).
Proof.
  intros Hq Hs. revert k acc. induction n as [|n IH]; intros k acc Hk; simpl.
  - rewrite drop_ge by lia. by rewrite app_nil_r.
  - rewrite (peek_holds q l) by done. unfold peeked. destruct (Z.leb_spec 0 (Z.of_nat k)); [|lia].
    rewrite Nat2Z.id, (lookup_nth l k 0) by lia. simpl.
    replace (Z.of_nat k + 1) with (Z.of_nat (S k)) by lia. rewrite IH by lia.
    rewrite (drop_nth l k 0) by lia. by rewrite <- app_assoc.
Qed.

(** ** Sequences of operations, on the queue and on the list *)
Inductive q_op := Put (x : Z) | Get | Pop.

Definition exec (op : q_op) (q : safe_queue) : option (Z * option Z * safe_queue) :=
  match op with
  | Put x => '(r, q') ← safe_queue_put q x; Some (r, None, q')
  | Get => safe_queue_get q
  | Pop => safe_queue_pop q
  end.

Fixpoint exec_all (ops : list q_op) (q : safe_queue) : option (list (Z * option Z) * safe_queue) :=
  match ops with
  | [] => Some ([], q)
  | op :: ops => '(r, x, q1) ← exec op q; '(rs, q2) ← exec_all ops q1; Some ((r, x) :: rs, q2)
  end.

(** The list, its capacity and the longest it has been. *)
Definition spec_op (cap : Z) (op : q_op) (l : list Z) : (Z * option Z) * list Z :=
  match op with
  | Put x => if Z.of_nat (length l) =? cap then ((1, None), l) else ((0, None), l ++ [x])
  | Get => match l with [] => ((1, None), l) | x :: l' => ((0, Some x), l') end
  | Pop => match reverse l with [] => ((1, None), l) | x :: l' => ((0, Some x), reverse l') end
  end.

Fixpoint spec_all (cap : Z) (ops : list q_op) (l : list Z) (mark : Z) : list (Z * option Z) * list Z * Z :=
  match ops with
  | [] => ([], l, mark)
  | op :: ops =>
      let '(r, l1) := spec_op cap op l in
      let '(rs, l2, m) := spec_all cap ops l1 (Z.max mark (Z.of_nat (length l1))) in (r :: rs, l2, m)
  end.

Lemma exec_holds op q l : holds q l ->
  let '((r, x), l') := spec_op (size q) op l in
  exists q', exec op q = Some (r, x, q') /\ holds q' l' /\ size q' = size q /\
    watermark q' = Z.max (watermark q) (Z.of_nat (length l')).
Proof.
  intros H. pose proof (h_mark _ _ H) as Hm. pose proof (h_count _ _ H) as Hc. destruct op as [x| |]; simpl.
  - pose proof (put_holds q l x H) as Hp. destruct (Z.of_nat (length l) =? size q).
    + rewrite Hp. simpl. exists q. repeat split; try done; try apply H. lia.
    + destruct Hp as (q' & -> & Hq & Hs & Hw). simpl. exists q'. split; [done|]. split; [done|]. split; [done|].
      rewrite Hw, length_app. simpl. lia.
  - pose proof (get_holds q l H) as Hp. destruct l as [|x l'].
    + exists q. repeat split; try done; try apply H. simpl in *. lia.
    + destruct Hp as (q' & -> & Hq & Hs & Hw). exists q'. simpl in Hc. repeat split; try done; try apply Hq. lia.
  - pose proof (pop_holds q l H) as Hp. destruct (reverse l) as [|x l'] eqn:Hr.
    + exists q. repeat split; try done; try apply H. lia.
    + destruct Hp as (q' & -> & Hq & Hs & Hw). exists q'. assert (length l = S (length l'))
        by (rewrite <- (length_reverse l), Hr; done).
      repeat split; try done; try apply Hq. rewrite length_reverse. lia.
Qed.

Lemma exec_all_holds ops q l : holds q l ->
  let '(rs, l', m) := spec_all (size q) ops l (watermark q) in
  exists q', exec_all ops q = Some (rs, q') /\ holds q' l' /\ size q' = size q /\ safe_queue_watermark q' = m.
Proof.
  revert q l. induction ops as [|op ops IH]; intros q l H; simpl.
  - exists q. repeat split; try done; apply H.
  - pose proof (exec_holds op q l H) as Ho. destruct (spec_op (size q) op l) as [[r x] l1].
    destruct Ho as (q1 & He & Hq & Hs & Hw). specialize (IH q1 l1 Hq). rewrite Hs, Hw in IH.
    destruct (spec_all (size q) ops l1 _) as [[rs l2] m]. destruct IH as (q2 & He2 & Hq2 & Hs2 & Hm2).
    exists q2. rewrite He. simpl. rewrite He2. simpl. repeat split; try done; try apply Hq2.
Qed.

(** * Properties *)

(** C24: The queue is a bounded deque: after an initialisation with an array of 1 to 255 words, any
    sequence of puts, gets and pops stays within the array and answers exactly what a list of that
    capacity answers, items in order, failures on a full and on an empty queue included; the list is what
    the queue holds and the watermark is the longest it has been. *)
Theorem safeq_deque its ops : 0 < Z.of_nat (length its) < 256 ->
  let '(rs, l, m) := spec_all (Z.of_nat (length its)) ops [] 0 in
  exists q, exec_all ops (safe_queue_init its (Z.of_nat (length its))) = Some (rs, q) /\
    holds q l /\ safe_queue_watermark q = m.
Proof.
  intros Hs. pose proof (exec_all_holds ops _ _ (holds_empty_init its _ Hs eq_refl)) as H. simpl in H.
  rewrite u8_small in H by (change (2 ^ 8) with 256; lia). destruct (spec_all _ ops [] 0) as [[rs l] m].
  destruct H as (q & H1 & H2 & _ & H3). by exists q.
Qed.

Lemma safeq_deque_witness : exists q,
  exec_all [Put 5; Put 6; Put 7; Get; Pop; Get; Pop] (safe_queue_init [0; 0] 2) =
    Some ([(0, None); (0, None); (1, None); (0, Some 5); (0, Some 6); (1, None); (1, None)], q) /\ safe_queue_watermark q = 2.
Proof.
  destruct (safeq_deque [0; 0] [Put 5; Put 6; Put 7; Get; Pop; Get; Pop]) as (q & H & _ & Hm).
  - simpl. lia.
  - exists q. split; [exact H | exact Hm].
Defined.

(** Peeking reads without removing: on a queue of at most 128 words an offset from 0 designates
    the items from the front, a negative one the items from the back, any other fails, and the dump lists
    the whole queue in order. *)
Theorem safeq_peek q l offset : holds q l -> size q <= 128 ->
  safe_queue_peek q offset = Some (match peeked l offset with Some x => (0, Some x) | None => (1, None) end) /\
  safe_queue_dump q = Some (0, l).
Proof.
  intros H Hs. split; [by apply peek_holds|]. unfold safe_queue_dump. rewrite (h_count _ _ H), Nat2Z.id.
  pose proof (dump_holds q l (length l) 0 [] H Hs eq_refl) as Hd. change (Z.of_nat 0) with 0 in Hd. rewrite Hd. reflexivity.
Qed.

Lemma safeq_peek_witness : exists q, exec_all [Put 5; Put 6] (safe_queue_init [0; 0; 0] 3) = Some ([(0, None); (0, None)], q) /\
  safe_queue_peek q (-1) = Some (0, Some 6).
Proof.
  pose proof (exec_all_holds [Put 5; Put 6] _ _ (holds_empty_init [0; 0; 0] 3 ltac:(lia) eq_refl)) as H. simpl in H.
  destruct H as (q & H1 & H2 & H3 & _). exists q. split; [exact H1|].
  refine (eq_trans (proj1 (safeq_peek q [5; 6] (-1) H2 _)) eq_refl). rewrite H3. vm_compute. discriminate.
Defined.

(** Beyond 128 words the byte index of the peek wraps: in a queue of 200 words whose items start at
    slot 150 the item at offset 110 is read from slot 4 instead of slot 60. *)
Theorem safeq_peek_wraps :
  exists q l, holds q l /\ safe_queue_peek q 110 = Some (0, Some 104) /\ peeked l 110 = Some 160.
Proof.
  pose proof (exec_all_holds (map Put (map Z.of_nat (seq 0 150)) ++ replicate 150 Get ++ map Put (map Z.of_nat (seq 50 150)))
    _ _ (holds_empty_init (replicate 200 0) 200 ltac:(lia) eq_refl)) as H.
  destruct (spec_all _ _ _ _) as [[rs l] m] eqn:E. destruct H as (q & H1 & H2 & _). exists q, l.
  split; [exact H2|]. split.
  - assert (Hq : snd <$> exec_all (map Put (map Z.of_nat (seq 0 150)) ++ replicate 150 Get ++ map Put (map Z.of_nat (seq 50 150)))
      (safe_queue_init (replicate 200 0) 200) = Some q) by (rewrite H1; reflexivity).
    vm_compute in Hq. injection Hq as <-. vm_compute. reflexivity.
  - vm_compute in E. injection E as _ <- _. vm_compute. reflexivity.
Qed.
