(* ===== verification/NvFp.v ===== *)
(** The Fast Pair account keys of apps/nv_section/userdata_section/nvrecord_fp_account_key.c: up to
    five keys, each with up to three addresses, the personalised name and the beacon data, kept in the
    user data section. *)
From Stdlib Require Import ZArith Lia Bool.
From stdpp Require Import base option list.
From S2P Require Import Prelude.

(** ** Data *)
Definition FP_ACCOUNT_KEY_RECORD_NUM : nat := 5.
Definition FP_SAME_KEY_COUNT : nat := 3.
Definition FP_MAX_NAME_LEN : nat := 64.
Definition BTIF_BD_ADDR_SIZE : nat := 6.
Definition FP_ACCOUNT_KEY_SIZE : nat := 16.
Definition FP_EPH_IDENTITY_KEY_LEN : nat := 32.
Definition FP_SPOT_ADV_DATA_LEN : nat := 20.

(** [NV_FP_ACCOUNT_KEY_ENTRY_T]. *)
Record fp_entry := mkEntry { dev_count : nat; addrs : list (list Z); fkey : list Z }.

(** [NV_FP_ACCOUNT_KEY_RECORD_T]. *)
Record fp_record := mkFp {
  key_count : nat; accountKey : list fp_entry; nameLen : Z; name : list Z;
  eph_identity_key : list Z; spot_adv_data : list Z; spot_adv_enabled : bool; beacon_time : Z }.

#[export] Instance fp_entry_eq_dec : EqDecision fp_entry.
Proof. solve_decision. Defined.
#[export] Instance fp_record_eq_dec : EqDecision fp_record.
Proof. solve_decision. Defined.

(** The record in use and whether a flash write has been asked. *)
Record fp_state := mkFpState { fp : fp_record; fp_update : bool }.

Definition zeros (n : nat) : list Z := replicate n 0.
Definition zero_entry : fp_entry := mkEntry 0 (replicate FP_SAME_KEY_COUNT (zeros BTIF_BD_ADDR_SIZE)) (zeros FP_ACCOUNT_KEY_SIZE).

Definition nvrecord_rebuild_fp_account_key : fp_record :=
  mkFp 0 (replicate FP_ACCOUNT_KEY_RECORD_NUM zero_entry) 0 (zeros FP_MAX_NAME_LEN)
    (zeros FP_EPH_IDENTITY_KEY_LEN) (zeros FP_SPOT_ADV_DATA_LEN) false 0.

Definition with_keys (n : nat) (l : list fp_entry) (r : fp_record) : fp_record :=
  mkFp n l (nameLen r) (name r) (eph_identity_key r) (spot_adv_data r) (spot_adv_enabled r) (beacon_time r).
Definition with_name (n : Z) (b : list Z) (r : fp_record) : fp_record :=
  mkFp (key_count r) (accountKey r) n b (eph_identity_key r) (spot_adv_data r) (spot_adv_enabled r) (beacon_time r).
Definition with_spot (eph adv : list Z) (en : bool) (t : Z) (r : fp_record) : fp_record :=
  mkFp (key_count r) (accountKey r) (nameLen r) (name r) eph adv en t.

(** A change followed by [nv_record_update_runtime_userdata]. *)
Definition write (r : fp_record) (s : fp_state) : fp_state := mkFpState r true.

Definition nth_entry (r : fp_record) (i : nat) : fp_entry := nth i (accountKey r) zero_entry.
Definition set_entry (i : nat) (e : fp_entry) (r : fp_record) : fp_record := with_keys (key_count r) (<[i := e]> (accountKey r)) r.

(** ** Whole-record operations *)
Definition nv_record_update_fp_data_structure (p : fp_record) (s : fp_state) : fp_state :=
  if decide (p = fp s) then s else write p s.

Definition nv_record_fp_update_all (info : fp_record) (s : fp_state) : fp_state :=
  if negb (bool_decide (fp s = info)) then write info s else s.

(** ** Keys *)
Fixpoint has_key (n i : nat) (r : fp_record) (k : list Z) : bool :=
  match n with
  | O => false
  | S n' => if decide (fkey (nth_entry r i) = k) then true else has_key n' (S i) r k
  end.

(** [memmove(&accountKey[1], &accountKey[2], (NUM - 2) * size)]: the first key stays, the second goes. *)
Definition drop_second (l : list fp_entry) : list fp_entry :=
  take 1 l ++ take (FP_ACCOUNT_KEY_RECORD_NUM - 2) (drop 2 l) ++ drop (FP_ACCOUNT_KEY_RECORD_NUM - 1) l.

(** Only the [key] field of the new slot is written. *)
Definition nv_record_fp_account_key_add (k : list Z) (s : fp_state) : fp_state :=
  let r := fp s in
  if has_key (key_count r) 0 r k then s
  else
    let r1 := if (key_count r =? FP_ACCOUNT_KEY_RECORD_NUM)%nat
              then with_keys (key_count r - 1) (drop_second (accountKey r)) r else r in
    let n := key_count r1 in
    let e := nth_entry r1 n in
    write (with_keys (n + 1) (<[n := mkEntry (dev_count e) (addrs e) k]> (accountKey r1)) r1) s.

Definition nv_record_fp_account_key_get_by_index (index : nat) (s : fp_state) : bool * option (list Z) :=
  if (key_count (fp s) <? index + 1)%nat then (false, None) else (true, Some (fkey (nth_entry (fp s) index))).

Definition nv_record_fp_account_key_info (index : nat) (s : fp_state) : bool * option fp_entry :=
  if (key_count (fp s) <? index + 1)%nat then (false, None) else (true, Some (nth_entry (fp s) index)).

(** [None] where the assertion fails. *)
Definition nv_record_fp_account_key_count (s : fp_state) : option nat :=
  if (key_count (fp s) <=? FP_ACCOUNT_KEY_RECORD_NUM)%nat then Some (key_count (fp s)) else None.

(** ** Addresses *)
Definition nth_addr (e : fp_entry) (j : nat) : list Z := nth j (addrs e) (zeros BTIF_BD_ADDR_SIZE).

Fixpoint has_addr (n j : nat) (e : fp_entry) (a : list Z) : bool :=
  match n with
  | O => false
  | S n' => if decide (nth_addr e j = a) then true else has_addr n' (S j) e a
  end.

(** All three places are compared, in use or not; a full entry loses its first address. *)
Definition nv_record_fp_update_addr (i : nat) (addr : option (list Z)) (s : fp_state) : fp_state :=
  match addr with
  | None => s
  | Some a =>
      if (key_count (fp s) <? i + 1)%nat then s
      else
        let e := nth_entry (fp s) i in
        if has_addr FP_SAME_KEY_COUNT 0 e a then s
        else
          let e1 := if (FP_SAME_KEY_COUNT <=? dev_count e)%nat
                    then mkEntry (FP_SAME_KEY_COUNT - 1)
                      (take (FP_SAME_KEY_COUNT - 1) (drop 1 (addrs e)) ++ drop (FP_SAME_KEY_COUNT - 1) (addrs e)) (fkey e)
                    else e in
          let e2 := mkEntry (dev_count e1 + 1) (<[dev_count e1 := a]> (addrs e1)) (fkey e1) in
          write (set_entry i e2 (fp s)) s
  end.

(** The key copied out, [None] when the caller's buffer is left as it was. The newest key first. *)
Fixpoint key_by_addr (n : nat) (r : fp_record) (a : list Z) : option (list Z) :=
  match n with
  | O => None
  | S n' =>
      let e := nth_entry r n' in
      if has_addr (Nat.min (dev_count e) FP_SAME_KEY_COUNT) 0 e a then Some (fkey e) else key_by_addr n' r a
  end.

Definition nv_record_fp_get_key_by_addr (a : list Z) (s : fp_state) : option (list Z) :=
  key_by_addr (Nat.min (key_count (fp s)) FP_ACCOUNT_KEY_RECORD_NUM) (fp s) a.

Fixpoint addr_index (n j : nat) (e : fp_entry) (a : list Z) : option nat :=
  match n with
  | O => None
  | S n' => if decide (nth_addr e j = a) then Some j else addr_index n' (S j) e a
  end.

Fixpoint key_index (n i : nat) (r : fp_record) (k : list Z) : option nat :=
  match n with
  | O => None
  | S n' => if decide (fkey (nth_entry r i) = k) then Some i else key_index n' (S i) r k
  end.

(** The place [j] is cleared, then the following ones move down over it; the last one stays. *)
Definition remove_addr (j : nat) (e : fp_entry) : fp_entry :=
  let l := <[j := zeros BTIF_BD_ADDR_SIZE]> (addrs e) in
  let l := if (j =? FP_SAME_KEY_COUNT - 1)%nat then l
           else take j l ++ take (FP_SAME_KEY_COUNT - 1 - j) (drop (S j) l) ++ drop (FP_SAME_KEY_COUNT - 1) l in
  mkEntry (dev_count e - 1) l (fkey e).

Definition nv_record_fp_delete_addr (addr key : option (list Z)) (s : fp_state) : fp_state :=
  match addr, key with
  | Some a, Some k =>
      let r := fp s in
      let r' := match key_index (Nat.min (key_count r) FP_ACCOUNT_KEY_RECORD_NUM) 0 r k with
                | Some i =>
                    let e := nth_entry r i in
                    match addr_index (Nat.min (dev_count e) FP_SAME_KEY_COUNT) 0 e a with
                    | Some j => set_entry i (remove_addr j e) r
                    | None => r
                    end
                | None => r
                end in
      write r' s
  | _, _ => s
  end.

(** ** Name and reset *)
(** [None] when the copy runs past the field. *)
Definition nv_record_fp_update_name (p : list Z) (n : Z) (s : fp_state) : option fp_state :=
  if n >? Z.of_nat FP_MAX_NAME_LEN then None
  else Some (write (with_name (u16 n) (take (Z.to_nat n) p ++ zeros (FP_MAX_NAME_LEN - Z.to_nat n)) (fp s)) s).

Definition nv_record_fp_get_name_ptr (s : fp_state) : list Z * Z := (name (fp s), nameLen (fp s)).

Definition nv_record_fp_account_info_reset (s : fp_state) : option fp_state :=
  n ← nv_record_fp_account_key_count s;
  let l := replicate n zero_entry ++ drop n (accountKey (fp s)) in
  nv_record_fp_update_name [] 0 (mkFpState (with_keys 0 l (fp s)) (fp_update s)).

Definition nv_record_fp_account_key_delete : fp_state -> option fp_state := nv_record_fp_account_info_reset.

(** ** The beacon data, built with SPOT_ENABLED *)
Definition nv_record_fp_update_eph_identity_key (k : list Z) (s : fp_state) : fp_state :=
  write (with_spot k (spot_adv_data (fp s)) (spot_adv_enabled (fp s)) (beacon_time (fp s)) (fp s)) s.
Definition nv_record_fp_get_eph_identity_key (s : fp_state) : list Z := eph_identity_key (fp s).
Definition nv_record_fp_reset_eph_identity_key : fp_state -> fp_state :=
  nv_record_fp_update_eph_identity_key (zeros FP_EPH_IDENTITY_KEY_LEN).
Definition nv_record_fp_update_spot_adv_data (d : list Z) (s : fp_state) : fp_state :=
  write (with_spot (eph_identity_key (fp s)) d (spot_adv_enabled (fp s)) (beacon_time (fp s)) (fp s)) s.
Definition nv_record_fp_get_spot_adv_data (s : fp_state) : list Z := spot_adv_data (fp s).
Definition nv_record_fp_reset_spot_adv_data : fp_state -> fp_state :=
  nv_record_fp_update_spot_adv_data (zeros FP_SPOT_ADV_DATA_LEN).
Definition nv_record_fp_update_spot_adv_eanbled (b : bool) (s : fp_state) : fp_state :=
  write (with_spot (eph_identity_key (fp s)) (spot_adv_data (fp s)) b (beacon_time (fp s)) (fp s)) s.
Definition nv_record_fp_get_spot_adv_enable_value (s : fp_state) : bool := spot_adv_enabled (fp s).
Definition nv_record_fp_reset_spot_adv_enable_value : fp_state -> fp_state := nv_record_fp_update_spot_adv_eanbled false.
(** [ms] is the time since the start in milliseconds. *)
Definition nv_record_fp_update_spot_beacon_time (ms : Z) (s : fp_state) : fp_state :=
  write (with_spot (eph_identity_key (fp s)) (spot_adv_data (fp s)) (spot_adv_enabled (fp s))
    (u32 (beacon_time (fp s) + ms / 1000)) (fp s)) s.
Definition nv_record_fp_get_current_beacon_time (s : fp_state) : Z := beacon_time (fp s).

(** ** Invariant and abstraction *)
Definition entry_ok (e : fp_entry) : Prop := length (addrs e) = FP_SAME_KEY_COUNT /\ (dev_count e <= FP_SAME_KEY_COUNT)%nat.

(** The keys in use, and the addresses in use of an entry. *)
Definition fp_keys (r : fp_record) : list (list Z) := fkey <$> take (key_count r) (accountKey r).
Definition used (e : fp_entry) : list (list Z) := take (dev_count e) (addrs e).

Record fp_ok (r : fp_record) : Prop := {
  fp_num : (key_count r <= FP_ACCOUNT_KEY_RECORD_NUM)%nat;
  fp_length : length (accountKey r) = FP_ACCOUNT_KEY_RECORD_NUM;
  fp_entries : Forall entry_ok (accountKey r);
  fp_distinct : NoDup (fp_keys r) }.

Definition spec_add_key (k : list Z) (l : list (list Z)) : list (list Z) :=
  if decide (k ∈ l) then l
  else if (length l =? FP_ACCOUNT_KEY_RECORD_NUM)%nat then take 1 l ++ drop 2 l ++ [k] else l ++ [k].

Definition spec_add_addr (a : list Z) (l : list (list Z)) : list (list Z) :=
  if (FP_SAME_KEY_COUNT <=? length l)%nat then drop 1 l ++ [a] else l ++ [a].

Lemma zero_entry_ok : entry_ok zero_entry.
Proof. split; [reflexivity | simpl; lia]. Qed.

Lemma rebuild_ok : fp_ok nvrecord_rebuild_fp_account_key.
Proof.
  split; [simpl; lia | reflexivity | | by apply NoDup_nil_2].
  apply Forall_forall. intros e He. apply elem_of_replicate in He as [-> _]. apply zero_entry_ok.
Qed.

(** ** The searches *)
Lemma has_key_spec n i r k : (i + n <= length (accountKey r))%nat ->
  has_key n i r k = bool_decide (k ∈ fkey <$> take n (drop i (accountKey r))).
Proof.
  revert i. induction n as [|n IH]; intros i H; [done|].
  rewrite (drop_nth (accountKey r) i zero_entry) by lia. cbn [has_key take fmap list_fmap]. fold (nth_entry r i).
  destruct (decide (fkey (nth_entry r i) = k)) as [<- | Hne].
  - symmetry. apply bool_decide_eq_true. by left.
  - rewrite IH by lia. apply bool_decide_ext. rewrite elem_of_cons. split; [by right | intros [? | ?]; [congruence | done]].
Qed.

Lemma has_addr_spec n j e a : (j + n <= length (addrs e))%nat ->
  has_addr n j e a = bool_decide (a ∈ take n (drop j (addrs e))).
Proof.
  revert j. induction n as [|n IH]; intros j H; [done|].
  rewrite (drop_nth (addrs e) j (zeros BTIF_BD_ADDR_SIZE)) by lia. cbn [has_addr take]. fold (nth_addr e j).
  destruct (decide (nth_addr e j = a)) as [<- | Hne].
  - symmetry. apply bool_decide_eq_true. by left.
  - rewrite IH by lia. apply bool_decide_ext. rewrite elem_of_cons. split; [by right | intros [? | ?]; [congruence | done]].
Qed.

Lemma addr_index_spec n j e a : (j + n <= length (addrs e))%nat ->
  match addr_index n j e a with
  | Some i => (j <= i < j + n)%nat /\ nth_addr e i = a /\ forall k, (j <= k < i)%nat -> nth_addr e k <> a
  | None => forall k, (j <= k < j + n)%nat -> nth_addr e k <> a
  end.
Proof.
  revert j. induction n as [|n IH]; intros j H; cbn [addr_index]; [intros; lia|].
  destruct (decide (nth_addr e j = a)) as [Ha | Ha]; [split; [lia|]; split; [done | intros; lia]|].
  specialize (IH (S j) ltac:(lia)). destruct (addr_index n (S j) e a) as [i|].
  - destruct IH as (H1 & H2 & H3). split; [lia|]. split; [done|]. intros k Hk.
    destruct (decide (k = j)) as [-> |]; [done | apply H3; lia].
  - intros k Hk. destruct (decide (k = j)) as [-> |]; [done | apply IH; lia].
Qed.

(** A key found newest first. *)
Lemma key_by_addr_spec n r a : (n <= length (accountKey r))%nat -> Forall entry_ok (accountKey r) ->
  match key_by_addr n r a with
  | Some k => exists i, (i < n)%nat /\ fkey (nth_entry r i) = k /\ a ∈ used (nth_entry r i) /\
      forall j, (i < j < n)%nat -> a ∉ used (nth_entry r j)
  | None => forall j, (j < n)%nat -> a ∉ used (nth_entry r j)
  end.
Proof.
  intros Hn Hok. induction n as [|n IH]; cbn [key_by_addr]; [intros; lia|].
  assert (He : entry_ok (nth_entry r n)).
  { apply (Forall_lookup_1 _ _ n _ Hok). apply lookup_nth. lia. }
  destruct He as [Hl Hc]. rewrite (Nat.min_l _ _ Hc), has_addr_spec, drop_0 by (rewrite Hl; lia).
  fold (used (nth_entry r n)). case_bool_decide as Hin.
  - exists n. split; [lia|]. split; [done|]. split; [done|]. intros; lia.
  - specialize (IH ltac:(lia)). destruct (key_by_addr n r a) as [k|].
    + destruct IH as (i & H1 & H2 & H3 & H4). exists i. split; [lia|]. split; [done|]. split; [done|].
      intros j Hj. destruct (decide (j = n)) as [-> |]; [done | apply H4; lia].
    + intros j Hj. destruct (decide (j = n)) as [-> |]; [done | apply IH; lia].
Qed.

(** ** Adding a key *)
Lemma take_insert_snoc {A} n (x : A) l : (n < length l)%nat -> take (n + 1) (<[n := x]> l) = take n l ++ [x].
Proof.
  intros Hn. rewrite Nat.add_1_r, (take_S_r _ n x) by (by apply list_lookup_insert_eq).
  by rewrite take_insert_ge by lia.
Qed.

Lemma five {A} (l : list A) : length l = FP_ACCOUNT_KEY_RECORD_NUM -> exists a b c d e, l = [a; b; c; d; e].
Proof.
  intros H. destruct l as [|a [|b [|c [|d [|e [|]]]]]]; simpl in H; try discriminate. by exists a, b, c, d, e.
Qed.

Lemma spec_add_key_NoDup k l : NoDup l -> NoDup (spec_add_key k l).
Proof.
  intros Hl. unfold spec_add_key. destruct (decide (k ∈ l)) as [|Hk]; [done|].
  assert (Hs : forall m, m `sublist_of` l -> NoDup (m ++ [k])).
  { intros m Hm. apply NoDup_app. split; [by apply (sublist_NoDup m l)|]. split; [|apply NoDup_singleton].
    intros x Hx ->%list_elem_of_singleton. apply Hk. by eapply elem_of_sublist. }
  destruct (_ =? _)%nat; [|by apply Hs]. rewrite app_assoc. apply Hs.
  destruct l as [|a [|b l]]; simpl; [done|done|]. by apply sublist_skip, sublist_cons.
Qed.

Lemma keys_length r : fp_ok r -> length (fp_keys r) = key_count r.
Proof. intros [H1 H2 _ _]. unfold fp_keys. rewrite length_fmap, length_take. lia. Qed.

(** Moving the entries from the third on over the second one. *)
Lemma drop_second_spec r : fp_ok r -> key_count r = FP_ACCOUNT_KEY_RECORD_NUM ->
  length (drop_second (accountKey r)) = FP_ACCOUNT_KEY_RECORD_NUM /\ Forall entry_ok (drop_second (accountKey r)) /\
  fkey <$> take (FP_ACCOUNT_KEY_RECORD_NUM - 1) (drop_second (accountKey r)) = take 1 (fp_keys r) ++ drop 2 (fp_keys r).
Proof.
  intros [H1 H2 H3 _] Hn. unfold fp_keys, drop_second. rewrite Hn.
  destruct (five _ H2) as (a & b & c & d & e & Hl). rewrite Hl in *. cbn.
  split; [done|]. split; [|done]. rewrite !Forall_cons in H3 |- *. tauto.
Qed.

(** A key stored after the keys in use. *)
Lemma append_key r n l k : length l = FP_ACCOUNT_KEY_RECORD_NUM -> Forall entry_ok l -> (n < FP_ACCOUNT_KEY_RECORD_NUM)%nat ->
  let e := nth n l zero_entry in
  let r' := with_keys (n + 1) (<[n := mkEntry (dev_count e) (addrs e) k]> l) r in
  fp_keys r' = (fkey <$> take n l) ++ [k] /\ length (accountKey r') = FP_ACCOUNT_KEY_RECORD_NUM /\
  Forall entry_ok (accountKey r') /\ (key_count r' <= FP_ACCOUNT_KEY_RECORD_NUM)%nat.
Proof.
  intros Hl Hok Hn e r'. split; [|split; [|split]].
  - unfold r', fp_keys. cbn [key_count accountKey with_keys]. rewrite take_insert_snoc by lia. by rewrite fmap_app.
  - unfold r'. cbn. by rewrite length_insert.
  - unfold r'. cbn. apply Forall_insert; [done|].
    apply (Forall_lookup_1 _ _ n e Hok). apply lookup_nth. lia.
  - unfold r'. cbn. lia.
Qed.

Lemma add_key_refines k s : fp_ok (fp s) ->
  let s' := nv_record_fp_account_key_add k s in
  fp_ok (fp s') /\ fp_keys (fp s') = spec_add_key k (fp_keys (fp s)) /\
  fp_update s' = fp_update s || negb (bool_decide (k ∈ fp_keys (fp s))).
Proof.
  intros Hok. pose proof Hok as [H1 H2 H3 H4]. cbv zeta. unfold nv_record_fp_account_key_add.
  rewrite has_key_spec, drop_0 by lia. fold (fp_keys (fp s)). unfold spec_add_key.
  case_bool_decide as Hk; [rewrite decide_True by done; by rewrite orb_false_r|].
  rewrite decide_False by done. rewrite (keys_length _ Hok).
  pose proof (spec_add_key_NoDup k _ H4) as Hnd. unfold spec_add_key in Hnd.
  rewrite decide_False, (keys_length _ Hok) in Hnd by done.
  destruct (Nat.eqb_spec (key_count (fp s)) FP_ACCOUNT_KEY_RECORD_NUM) as [E | E].
  - destruct (drop_second_spec _ Hok E) as (D1 & D2 & D3).
    destruct (append_key (with_keys (key_count (fp s) - 1) (drop_second (accountKey (fp s))) (fp s)) (key_count (fp s) - 1) _ k D1 D2)
      as (A1 & A2 & A3 & A4); [unfold FP_ACCOUNT_KEY_RECORD_NUM in *; lia|].
    assert (Hkeys : (fkey <$> take (key_count (fp s) - 1) (drop_second (accountKey (fp s)))) ++ [k] = take 1 (fp_keys (fp s)) ++ drop 2 (fp_keys (fp s)) ++ [k])
      by (rewrite E, D3, <- app_assoc; done).
    rewrite Hkeys in A1. split; [|split; [exact A1 | by rewrite orb_true_r]]. split; [exact A4|exact A2|exact A3|].
    cbn [fp write]. unfold nth_entry. cbn [accountKey with_keys key_count]. cbv zeta in A1. rewrite A1. exact Hnd.
  - destruct (append_key (fp s) (key_count (fp s)) _ k H2 H3) as (A1 & A2 & A3 & A4); [lia|].
    fold (fp_keys (fp s)) in A1. split; [|split; [exact A1 | by rewrite orb_true_r]]. split; [exact A4|exact A2|exact A3|].
    cbn [fp write]. unfold nth_entry. cbv zeta in A1. rewrite A1. exact Hnd.
Qed.

(** ** Addresses of one entry *)
Lemma three {A} (l : list A) : length l = FP_SAME_KEY_COUNT -> exists a b c, l = [a; b; c].
Proof. intros H. destruct l as [|a [|b [|c [|]]]]; simpl in H; try discriminate. by exists a, b, c. Qed.

Definition add_addr_entry (a : list Z) (e : fp_entry) : fp_entry :=
  let e1 := if (FP_SAME_KEY_COUNT <=? dev_count e)%nat
            then mkEntry (FP_SAME_KEY_COUNT - 1)
              (take (FP_SAME_KEY_COUNT - 1) (drop 1 (addrs e)) ++ drop (FP_SAME_KEY_COUNT - 1) (addrs e)) (fkey e)
            else e in
  mkEntry (dev_count e1 + 1) (<[dev_count e1 := a]> (addrs e1)) (fkey e1).

Lemma add_addr_entry_spec a e : entry_ok e ->
  entry_ok (add_addr_entry a e) /\ used (add_addr_entry a e) = spec_add_addr a (used e) /\ fkey (add_addr_entry a e) = fkey e.
Proof.
  intros [Hl Hc]. destruct (three _ Hl) as (x & y & z & E). destruct e as [n l k]. cbn in *. subst l.
  unfold FP_SAME_KEY_COUNT in *. assert (n = 0 \/ n = 1 \/ n = 2 \/ n = 3)%nat as [-> | [-> | [-> | ->]]] by lia;
    (split; [split; vm_compute; first [reflexivity | lia] | split; reflexivity]).
Qed.

Lemma remove_addr_spec j e : entry_ok e -> (j < dev_count e)%nat ->
  entry_ok (remove_addr j e) /\ used (remove_addr j e) = delete j (used e) /\ fkey (remove_addr j e) = fkey e.
Proof.
  intros [Hl Hc] Hj. destruct (three _ Hl) as (x & y & z & E). destruct e as [n l k]. cbn in *. subst l.
  unfold FP_SAME_KEY_COUNT in *. assert (n = 1 \/ n = 2 \/ n = 3)%nat as [-> | [-> | ->]] by lia;
    (assert (j = 0 \/ j = 1 \/ j = 2)%nat as [-> | [-> | ->]] by lia); try lia;
    (split; [split; vm_compute; first [reflexivity | lia] | split; reflexivity]).
Qed.

Lemma set_entry_ok i e r : fp_ok r -> entry_ok e -> (i < key_count r)%nat -> fkey e = fkey (nth_entry r i) ->
  fp_ok (set_entry i e r) /\ fp_keys (set_entry i e r) = fp_keys r /\ nth_entry (set_entry i e r) i = e.
Proof.
  intros [H1 H2 H3 H4] He Hi Hk.
  assert (Hkeys : fp_keys (set_entry i e r) = fp_keys r).
  { unfold fp_keys, set_entry. cbn [key_count accountKey with_keys]. rewrite take_insert_lt, list_fmap_insert by lia.
    apply list_insert_id. rewrite list_lookup_fmap, lookup_take_lt, (lookup_nth _ i zero_entry) by lia. simpl. by rewrite Hk. }
  split; [|split; [exact Hkeys|]].
  - split; [exact H1 | unfold set_entry; cbn; by rewrite length_insert | | by rewrite Hkeys].
    unfold set_entry. cbn. by apply Forall_insert.
  - unfold nth_entry, set_entry. cbn. apply nth_lookup_Some. apply list_lookup_insert_eq. lia.
Qed.

Lemma nth_entry_ok r i : fp_ok r -> (i < key_count r)%nat -> entry_ok (nth_entry r i).
Proof.
  intros [H1 H2 H3 _] Hi. apply (Forall_lookup_1 _ _ i _ H3). apply lookup_nth. lia.
Qed.

Lemma update_addr_refines i a s : fp_ok (fp s) -> (i < key_count (fp s))%nat -> a ∉ addrs (nth_entry (fp s) i) ->
  let s' := nv_record_fp_update_addr i (Some a) s in
  fp_ok (fp s') /\ fp_keys (fp s') = fp_keys (fp s) /\
  used (nth_entry (fp s') i) = spec_add_addr a (used (nth_entry (fp s) i)) /\ fp_update s' = true.
Proof.
  intros Hok Hi Ha. cbv zeta. pose proof (nth_entry_ok _ _ Hok Hi) as He. pose proof He as [Hl Hc].
  unfold nv_record_fp_update_addr. destruct (Nat.ltb_spec (key_count (fp s)) (i + 1)); [lia|].
  rewrite has_addr_spec, drop_0, take_ge by lia. rewrite bool_decide_false by done.
  fold (add_addr_entry a (nth_entry (fp s) i)).
  destruct (add_addr_entry_spec a _ He) as (E1 & E2 & E3).
  destruct (set_entry_ok i _ _ Hok E1 Hi E3) as (S1 & S2 & S3).
  cbn [fp write fp_update]. split; [exact S1|]. split; [exact S2|]. split; [by rewrite S3 | done].
Qed.

Lemma key_index_spec n i r k : (i + n <= length (accountKey r))%nat ->
  match key_index n i r k with
  | Some m => (i <= m < i + n)%nat /\ fkey (nth_entry r m) = k
  | None => k ∉ fkey <$> take n (drop i (accountKey r))
  end.
Proof.
  revert i. induction n as [|n IH]; intros i H; cbn [key_index]; [apply not_elem_of_nil|].
  rewrite (drop_nth (accountKey r) i zero_entry) by lia. cbn [take fmap list_fmap]. fold (nth_entry r i).
  destruct (decide (fkey (nth_entry r i) = k)) as [Hk | Hk]; [split; [lia | done]|].
  specialize (IH (S i) ltac:(lia)). destruct (key_index n (S i) r k).
  - destruct IH. split; [lia | done].
  - apply not_elem_of_cons. split; [congruence | exact IH].
Qed.

Lemma keys_index_unique r i j : fp_ok r -> (i < key_count r)%nat -> (j < key_count r)%nat ->
  fkey (nth_entry r i) = fkey (nth_entry r j) -> i = j.
Proof.
  intros [H1 H2 _ H4] Hi Hj E. apply (NoDup_lookup (fp_keys r) i j (fkey (nth_entry r i)) H4); unfold fp_keys;
    rewrite list_lookup_fmap, lookup_take_lt, (lookup_nth _ _ zero_entry) by lia; [done|]. by rewrite E.
Qed.

(** Deleting an address of the key of entry [i]. *)
Lemma delete_addr_refines i a s : fp_ok (fp s) -> (i < key_count (fp s))%nat ->
  let k := fkey (nth_entry (fp s) i) in
  let s' := nv_record_fp_delete_addr (Some a) (Some k) s in
  fp_ok (fp s') /\ fp_keys (fp s') = fp_keys (fp s) /\ fp_update s' = true /\
  (forall j, used (nth_entry (fp s) i) !! j = Some a -> (forall m, (m < j)%nat -> used (nth_entry (fp s) i) !! m <> Some a) ->
     used (nth_entry (fp s') i) = delete j (used (nth_entry (fp s) i))) /\
  (a ∉ used (nth_entry (fp s) i) -> fp s' = fp s).
Proof.
  intros Hok Hi. cbv zeta. pose proof (nth_entry_ok _ _ Hok Hi) as He. pose proof He as [Hl Hc]. pose proof Hok as [H1 H2 _ _].
  unfold nv_record_fp_delete_addr. rewrite Nat.min_l by done.
  pose proof (key_index_spec (key_count (fp s)) 0 (fp s) (fkey (nth_entry (fp s) i)) ltac:(lia)) as Hx.
  destruct (key_index _ 0 (fp s) _) as [m|].
  2:{ contradict Hx. rewrite drop_0. apply list_elem_of_fmap. exists (nth_entry (fp s) i). split; [done|].
      apply (list_elem_of_lookup_2 _ i). rewrite lookup_take_lt by lia. apply lookup_nth. lia. }
  destruct Hx as [Hm Hk]. assert (m = i) as -> by (apply (keys_index_unique (fp s)); [done|lia|done|done]).
  rewrite Nat.min_l by done.
  pose proof (addr_index_spec (dev_count (nth_entry (fp s) i)) 0 (nth_entry (fp s) i) a ltac:(lia)) as Hj.
  assert (Hu : forall j, (j < dev_count (nth_entry (fp s) i))%nat -> used (nth_entry (fp s) i) !! j = Some (nth_addr (nth_entry (fp s) i) j))
    by (intros j Hlt; unfold used; rewrite lookup_take_lt by lia; apply lookup_nth; lia).
  destruct (addr_index _ 0 _ a) as [j|]; cbn [fp write fp_update].
  - destruct Hj as (Hj & Hja & Hjm). destruct (remove_addr_spec j _ He ltac:(lia)) as (R1 & R2 & R3).
    destruct (set_entry_ok i _ _ Hok R1 Hi R3) as (S1 & S2 & S3).
    split; [exact S1|]. split; [exact S2|]. split; [done|]. split.
    + intros j' Hj' Hf. rewrite S3, R2. f_equal. destruct (Nat.lt_trichotomy j j') as [Hlt | [-> | Hlt]]; [|done|].
      * exfalso. apply (Hf j Hlt). rewrite Hu, Hja by lia. done.
      * exfalso. apply (Hjm j' ltac:(lia)). rewrite Hu in Hj' by lia. congruence.
    + intros Hn. exfalso. apply Hn. apply (list_elem_of_lookup_2 _ j). rewrite Hu, Hja by lia. done.
  - split; [done|]. split; [done|]. split; [done|]. split; [|done].
    intros j Hja _. exfalso. pose proof (lookup_lt_Some _ _ _ Hja) as Hlt. unfold used in Hlt. rewrite length_take in Hlt.
    rewrite Hu in Hja by lia. apply (Hj j); [lia | congruence].
Qed.

(** ** Concrete states *)
Definition key_of (b : Z) : list Z := replicate FP_ACCOUNT_KEY_SIZE b.
Definition addr_of (b : Z) : list Z := replicate BTIF_BD_ADDR_SIZE b.
Definition fresh : fp_state := mkFpState nvrecord_rebuild_fp_account_key false.
(** A key [b] used by the device [b], at place [i]. *)
Definition pair_device (s : fp_state) (ib : nat * Z) : fp_state :=
  nv_record_fp_update_addr (fst ib) (Some (addr_of (snd ib))) (nv_record_fp_account_key_add (key_of (snd ib)) s).
Definition five_devices : fp_state := Eval vm_compute in
  fold_left pair_device [(0%nat, 1); (1%nat, 2); (2%nat, 3); (3%nat, 4); (4%nat, 5)] fresh.
Definition shared_key : fp_state := Eval vm_compute in
  fold_left (fun s b => nv_record_fp_update_addr 0 (Some (addr_of b)) s) [1; 2; 3] (nv_record_fp_account_key_add (key_of 9) fresh).

Definition fp_check (r : fp_record) : bool :=
  bool_decide ((key_count r <= FP_ACCOUNT_KEY_RECORD_NUM)%nat /\ length (accountKey r) = FP_ACCOUNT_KEY_RECORD_NUM /\
    Forall (fun e => length (addrs e) = FP_SAME_KEY_COUNT /\ (dev_count e <= FP_SAME_KEY_COUNT)%nat) (accountKey r) /\ NoDup (fp_keys r)).

Lemma fp_check_ok r : fp_check r = true -> fp_ok r.
Proof. intros H%bool_decide_eq_true. destruct H as (H1 & H2 & H3 & H4). by split. Qed.

Lemma five_devices_ok : fp_ok (fp five_devices).
Proof. apply fp_check_ok. vm_compute. reflexivity. Qed.

Lemma shared_key_ok : fp_ok (fp shared_key).
Proof. apply fp_check_ok. vm_compute. reflexivity. Qed.

(** * Properties *)

(** C39: Adding an account key keeps the list well formed and does what its comment says: a known key
    changes nothing, a new one goes to the end, and on a full list the second key is discarded, so the
    first one is never lost; a flash write is asked exactly when the key is new. *)
Theorem fp_add_key k s : fp_ok (fp s) ->
  let s' := nv_record_fp_account_key_add k s in
  fp_ok (fp s') /\ fp_keys (fp s') = spec_add_key k (fp_keys (fp s)) /\
  fp_update s' = fp_update s || negb (bool_decide (k ∈ fp_keys (fp s))) /\
  (forall k0 l, fp_keys (fp s) = k0 :: l -> exists l', fp_keys (fp s') = k0 :: l').
Proof.
  intros Hok. destruct (add_key_refines k s Hok) as (H1 & H2 & H3). split; [exact H1|]. split; [exact H2|]. split; [exact H3|].
  intros k0 l E. rewrite H2, E. unfold spec_add_key. destruct (decide _); [by exists l|].
  destruct (_ =? _)%nat; [eexists; reflexivity|]. by exists (l ++ [k]).
Qed.

Lemma fp_add_key_witness : fp_ok (fp five_devices) /\
  fp_keys (fp (nv_record_fp_account_key_add (key_of 6) five_devices)) = [key_of 1; key_of 3; key_of 4; key_of 5; key_of 6].
Proof.
  split; [exact five_devices_ok|]. destruct (fp_add_key (key_of 6) five_devices five_devices_ok) as (_ & H & _).
  rewrite H. vm_compute. reflexivity.
Defined.

(** Addresses of a key in use: an address held in no place of the entry is added after the others,
    the oldest of three going out; deleting an address takes out its first occurrence and keeps the
    order, an unknown one changes nothing; both keep the keys and the invariant. The search by address
    answers the newest key that uses it, and none exactly when no key uses it. *)
Theorem fp_addresses i a s : fp_ok (fp s) -> (i < key_count (fp s))%nat ->
  let e := nth_entry (fp s) i in
  (a ∉ addrs e -> let s' := nv_record_fp_update_addr i (Some a) s in
     fp_ok (fp s') /\ fp_keys (fp s') = fp_keys (fp s) /\ used (nth_entry (fp s') i) = spec_add_addr a (used e)) /\
  (let s' := nv_record_fp_delete_addr (Some a) (Some (fkey e)) s in
     fp_ok (fp s') /\ fp_keys (fp s') = fp_keys (fp s) /\
     (forall j, used e !! j = Some a -> (forall m, (m < j)%nat -> used e !! m <> Some a) ->
        used (nth_entry (fp s') i) = delete j (used e)) /\ (a ∉ used e -> fp s' = fp s)) /\
  match nv_record_fp_get_key_by_addr a s with
  | Some k => exists n, (n < key_count (fp s))%nat /\ fkey (nth_entry (fp s) n) = k /\ a ∈ used (nth_entry (fp s) n) /\
      forall j, (n < j < key_count (fp s))%nat -> a ∉ used (nth_entry (fp s) j)
  | None => forall j, (j < key_count (fp s))%nat -> a ∉ used (nth_entry (fp s) j)
  end.
Proof.
  intros Hok Hi e. pose proof Hok as [H1 H2 H3 _]. split; [|split].
  - intros Ha. destruct (update_addr_refines i a s Hok Hi Ha) as (U1 & U2 & U3 & _). done.
  - destruct (delete_addr_refines i a s Hok Hi) as (D1 & D2 & _ & D3 & D4). done.
  - unfold nv_record_fp_get_key_by_addr. rewrite Nat.min_l by done. apply key_by_addr_spec; [lia | done].
Qed.

Lemma fp_addresses_witness : fp_ok (fp shared_key) /\
  used (nth_entry (fp (nv_record_fp_update_addr 0 (Some (addr_of 7)) shared_key)) 0) = [addr_of 2; addr_of 3; addr_of 7].
Proof.
  split; [exact shared_key_ok|].
  destruct (fp_addresses 0 (addr_of 7) shared_key shared_key_ok) as (H & _); [vm_compute; lia|].
  destruct H as (_ & _ & H); [|rewrite H; vm_compute; reflexivity].
  apply (bool_decide_eq_true (addr_of 7 ∉ addrs (nth_entry (fp shared_key) 0))). vm_compute. reflexivity.
Defined.

(** Places out of use are not cleared, and it shows: on a full list the new key takes over the
    addresses of the last slot, so the search for the fifth device's address answers the key just
    added for nobody; and an address deleted while its copy stays in a freed place cannot be added again. *)
Theorem fp_stale_places :
  (fp_ok (fp five_devices) /\ nv_record_fp_get_key_by_addr (addr_of 5) five_devices = Some (key_of 5) /\
   nv_record_fp_get_key_by_addr (addr_of 5) (nv_record_fp_account_key_add (key_of 6) five_devices) = Some (key_of 6)) /\
  (let s1 := nv_record_fp_delete_addr (Some (addr_of 1)) (Some (key_of 9)) shared_key in
   let s2 := nv_record_fp_delete_addr (Some (addr_of 3)) (Some (key_of 9)) s1 in
   let s3 := nv_record_fp_update_addr 0 (Some (addr_of 3)) s2 in
   fp_ok (fp shared_key) /\ nv_record_fp_get_key_by_addr (addr_of 3) s1 = Some (key_of 9) /\
   s3 = s2 /\ nv_record_fp_get_key_by_addr (addr_of 3) s3 = None).
Proof.
  split; [split; [exact five_devices_ok|] | split; [exact shared_key_ok|]]; vm_compute; done.
Qed.
