(* ===== verification/NvDev.v ===== *)
(** The factory sector of apps/nv_section/userdata_section/nvrecord_bt.c: a flash sector with a version,
    a CRC, the device's names and addresses and the crystal trim, in two layouts; opening and checking
    it, reading it, and rewriting it with a new trim. *)
From Stdlib Require Import ZArith Lia Bool.
From stdpp Require Import base list option.
From S2P Require Import Prelude.

(** ** Layout: indices of 32-bit words *)
Definition NVREC_DEV_NEWEST_REV : Z := 2.
Definition NVREC_DEV_VERSION_1 : Z := 1.
Definition nvrec_dev_magic : Z := 0xba80.
Definition BLE_NAME_LEN_IN_NV : nat := 32.
Definition CLASSIC_BTNAME_LEN : nat := BLE_NAME_LEN_IN_NV - 5.
Definition FACTORY_SECTOR_SIZE : nat := Z.to_nat 0x1000.

Definition dev_version_and_magic : nat := 0.
Definition dev_crc : nat := 1.
Definition dev_reserv1 : nat := 2.
Definition dev_reserv2 : nat := 3.
Definition dev_name : nat := 4.
Definition dev_bt_addr : nat := 67.
Definition dev_ble_addr : nat := 69.
Definition dev_dongle_addr : nat := 71.
Definition dev_xtal_fcap : nat := 73.
Definition dev_data_len : nat := 74.

Definition rev2_dev_data_len : nat := 75.
Definition rev2_dev_crc : nat := 76.
Definition rev2_dev_section_start_reserved : nat := 77.
Definition rev2_dev_reserv2 : nat := 78.
Definition rev2_dev_name : nat := 79.
Definition rev2_dev_bt_addr : nat := 142.
Definition rev2_dev_ble_addr : nat := 144.
Definition rev2_dev_dongle_addr : nat := 146.
Definition rev2_dev_xtal_fcap : nat := 148.
Definition rev2_dev_ble_name : nat := 149.
Definition rev2_dev_section_end : nat := 157.

(** ** Memory: a sector is its bytes *)
Definition memcpy (pos : nat) (b m : list Z) : option (list Z) :=
  if (pos + length b <=? length m)%nat then Some (take pos m ++ b ++ drop (pos + length b) m) else None.

Definition slice (pos n : nat) (m : list Z) : list Z := take n (drop pos m).

Definition word_at (m : list Z) (i : nat) : Z :=
  nth (4 * i) m 0 + 256 * nth (4 * i + 1) m 0 + 65536 * nth (4 * i + 2) m 0 + 16777216 * nth (4 * i + 3) m 0.

Definition word_le (v : Z) : list Z := [u8 v; u8 (Z.shiftr v 8); u8 (Z.shiftr v 16); u8 (Z.shiftr v 24)].
Definition put_word (i : nat) (v : Z) (m : list Z) : option (list Z) := memcpy (4 * i) (word_le v) m.

(** The bytes of a C string at a position; [None] when no zero ends it in the sector. *)
Fixpoint cstring (m : list Z) : option (list Z) :=
  match m with
  | [] => None
  | x :: m' => if x =? 0 then Some [] else s ← cstring m'; Some (x :: s)
  end.

(** ** State *)
(** The flash sector, the module's variables and the identity kept by the Bluetooth driver. *)
Record dev_state := mkDev {
  factory : list Z; dev_sector_valid : bool; nv_record_dev_rev : Z; classics_bt_name : list Z;
  local_name : list Z; ble_local_name : list Z; local_address : list Z; ble_local_address : list Z }.

Definition set_valid (b : bool) (s : dev_state) : dev_state :=
  mkDev (factory s) b (nv_record_dev_rev s) (classics_bt_name s) (local_name s) (ble_local_name s) (local_address s) (ble_local_address s).
Definition set_rev (r : Z) (s : dev_state) : dev_state :=
  mkDev (factory s) (dev_sector_valid s) r (classics_bt_name s) (local_name s) (ble_local_name s) (local_address s) (ble_local_address s).
Definition set_factory (m : list Z) (s : dev_state) : dev_state :=
  mkDev m (dev_sector_valid s) (nv_record_dev_rev s) (classics_bt_name s) (local_name s) (ble_local_name s) (local_address s) (ble_local_address s).
Definition set_identity (cn n bn a ba : list Z) (s : dev_state) : dev_state :=
  mkDev (factory s) (dev_sector_valid s) (nv_record_dev_rev s) cn n bn a ba.

Definition is_v1 (s : dev_state) : bool := nv_record_dev_rev s =? NVREC_DEV_VERSION_1.

Section Factory.
(** The CRC of the library, from the seed 0; the first and the second number [rand] gives after
    [srand]; the driver's default name. *)
Variable crc32_c : list Z -> Z.
Variables rand1 rand2 : Z -> Z.
Variable BLE_DEFAULT_NAME : list Z.

(** ** Opening the sector *)
(** [None] when the CRC reads outside the sector. *)
Definition crc_region (m : list Z) (start : nat) (len : Z) : option Z :=
  if Z.of_nat (4 * start) + len <=? Z.of_nat (length m) then Some (crc32_c (slice (4 * start) (Z.to_nat len) m)) else None.

Definition V1_CRC_LEN : Z := Z.of_nat (dev_data_len - dev_reserv1) * 4.

(** The crc stored and the crc computed, [None] when the length is refused. *)
Definition dev_crcs (v1 : bool) (m : list Z) : option (option (Z * Z)) :=
  if v1 then c ← crc_region m dev_reserv1 V1_CRC_LEN; Some (Some (word_at m dev_crc, c))
  else if u32 (Z.of_nat rev2_dev_section_start_reserved * 4 + word_at m rev2_dev_data_len) >? 4096 then Some None
  else c ← crc_region m rev2_dev_section_start_reserved (word_at m rev2_dev_data_len); Some (Some (word_at m rev2_dev_crc, c)).

Definition nvrec_dev_data_open (s : dev_state) : option (bool * dev_state) :=
  let vermagic := word_at (factory s) dev_version_and_magic in
  if negb (nvrec_dev_magic =? Z.land vermagic 0xFFFF) || (Z.shiftr vermagic 16 >? NVREC_DEV_NEWEST_REV)
  then Some (false, set_valid false s)
  else
    let s1 := set_rev (u8 (Z.shiftr vermagic 16)) s in
    r ← dev_crcs (is_v1 s1) (factory s1);
    match r with
    | None => Some (false, set_valid false s1)
    | Some (flsh, c) =>
        let s2 := if flsh =? c then set_valid true s1 else s1 in
        Some (dev_sector_valid s2, s2)
    end.

(** ** The identity *)
Record dev_addr_name := mkAddrName { btd_addr : list Z; ble_addr : list Z; localname : list Z; ble_name : list Z }.

(** The name copied to the 27 bytes of [classics_bt_name], cut to 26, with its zero. *)
Definition classic_copy (n old : list Z) : list Z :=
  let len := if (length n <? CLASSIC_BTNAME_LEN)%nat then length n else (CLASSIC_BTNAME_LEN - 1)%nat in
  take len n ++ [0] ++ drop (S len) old.

Definition nvrec_dev_localname_addr_init (dev : dev_addr_name) (s : dev_state) : option (bool * dev_addr_name * dev_state) :=
  if dev_sector_valid s then
    let m := factory s in
    dev1 ← (if is_v1 s then
              n ← cstring (drop (4 * dev_name) m);
              Some (mkAddrName (slice (4 * dev_bt_addr) 6 m) (slice (4 * dev_ble_addr) 6 m) n (ble_name dev))
            else
              n ← cstring (drop (4 * rev2_dev_name) m);
              b ← cstring (drop (4 * rev2_dev_ble_name) m);
              Some (mkAddrName (slice (4 * rev2_dev_bt_addr) 6 m) (slice (4 * rev2_dev_ble_addr) 6 m) n b));
    let cn := classic_copy (localname dev1) (classics_bt_name s) in
    n ← cstring cn;
    Some (true, dev1, set_identity cn n (ble_name dev1) (btd_addr dev1) (ble_addr dev1) s)
  else Some (false, dev, s).

(** The first layout's place, whatever the layout. *)
Definition nvrec_dev_force_get_btaddress (s : dev_state) : Z * list Z := (0, slice (4 * dev_bt_addr) 6 (factory s)).

Definition nvrec_dev_get_xtal_fcap (s : dev_state) : Z * option Z :=
  if negb (dev_sector_valid s) then (-1, None)
  else (0, Some (word_at (factory s) (if is_v1 s then dev_xtal_fcap else rev2_dev_xtal_fcap))).

Definition nvrec_dev_get_dongleaddr (s : dev_state) : Z * option (list Z) :=
  if negb (dev_sector_valid s) then (-1, None)
  else (0, Some (slice (4 * (if is_v1 s then dev_dongle_addr else rev2_dev_dongle_addr)) 6 (factory s))).

Definition nvrec_dev_get_btaddr (s : dev_state) : Z * option (list Z) :=
  if negb (dev_sector_valid s) then (0, None)
  else (1, Some (slice (4 * (if is_v1 s then dev_bt_addr else rev2_dev_bt_addr)) 6 (factory s))).

Definition nvrec_dev_get_bt_name (s : dev_state) : list Z := classics_bt_name s.

Definition nvrec_dev_get_ble_name (s : dev_state) : option (list Z) :=
  if is_v1 s || negb (dev_sector_valid s) then Some BLE_DEFAULT_NAME else cstring (drop (4 * rev2_dev_ble_name) (factory s)).

(** ** Rewriting the sector *)
(** Six bytes, each from a generator seeded anew. *)
Fixpoint rand_loop (n : nat) (seed : Z) : list Z :=
  match n with
  | O => []
  | S n' => Z.land (rand1 seed) 0xff :: rand_loop n' (u32 (seed + rand2 seed))
  end.

Definition nvrec_dev_rand_btaddr_gen (now : Z) : list Z := rand_loop 6 now.

Definition store_crc (start crc : nat) (len : Z) (m : list Z) : option (list Z) :=
  c ← crc_region m start len; put_word crc c m.

(** [pool] is the buffer as it comes from the pool, [t1] and [t2] the timer at the two calls. The
    driver's addresses are generated in place. *)
Definition nvrec_dev_data_fill_xtal_fcap (pool : list Z) (val t1 t2 : Z) (s : dev_state) : option (list Z * dev_state) :=
  m0 ← (if negb (dev_sector_valid s)
        then put_word dev_version_and_magic (Z.lor (Z.shiftl (nv_record_dev_rev s) 16) nvrec_dev_magic) pool else Some pool);
  let bt := nvrec_dev_rand_btaddr_gen t1 in
  let ble := nvrec_dev_rand_btaddr_gen t2 in
  let s' := set_identity (classics_bt_name s) (local_name s) (ble_local_name s) bt ble s in
  if is_v1 s then
    if dev_sector_valid s then
      m1 ← put_word dev_xtal_fcap val (factory s);
      m2 ← store_crc dev_reserv1 dev_crc V1_CRC_LEN m1; Some (m2, s)
    else
      m1 ← put_word dev_reserv1 0 m0;
      m2 ← put_word dev_reserv2 0 m1;
      m3 ← memcpy (4 * dev_name) (local_name s) m2;
      m4 ← memcpy (4 * dev_bt_addr) bt m3;
      m5 ← memcpy (4 * dev_ble_addr) ble m4;
      m6 ← memcpy (4 * dev_dongle_addr) (replicate 6 0) m5;
      m7 ← put_word dev_xtal_fcap val m6;
      m8 ← store_crc dev_reserv1 dev_crc V1_CRC_LEN m7; Some (m8, s')
  else
    if dev_sector_valid s then
      m1 ← put_word rev2_dev_xtal_fcap val (factory s);
      m2 ← store_crc rev2_dev_section_start_reserved rev2_dev_crc (word_at m1 rev2_dev_data_len) m1; Some (m2, s)
    else
      m1 ← put_word rev2_dev_section_start_reserved 0 m0;
      m2 ← put_word rev2_dev_reserv2 0 m1;
      m3 ← memcpy (4 * rev2_dev_name) (local_name s) m2;
      m3' ← memcpy (4 * rev2_dev_ble_name) (take BLE_NAME_LEN_IN_NV (ble_local_name s)) m3;
      m4 ← memcpy (4 * rev2_dev_bt_addr) bt m3';
      m5 ← memcpy (4 * rev2_dev_ble_addr) ble m4;
      m6 ← memcpy (4 * rev2_dev_dongle_addr) (replicate 6 0) m5;
      m7 ← put_word rev2_dev_xtal_fcap val m6;
      m8 ← put_word rev2_dev_data_len (Z.of_nat (rev2_dev_section_end - rev2_dev_section_start_reserved) * 4) m7;
      m9 ← store_crc rev2_dev_section_start_reserved rev2_dev_crc (word_at m8 rev2_dev_data_len) m8; Some (m9, s').

(** Erase and write of the whole sector; the assertions on the driver's answers hold. *)
Definition nvrec_dev_flash_flush (mempool : option (list Z)) (s : dev_state) : dev_state :=
  match mempool with Some m => set_factory m s | None => s end.

Definition nvrec_dev_set_xtal_fcap (pool : list Z) (xtal_fcap t1 t2 : Z) (s : dev_state) : option dev_state :=
  '(m, s1) ← nvrec_dev_data_fill_xtal_fcap pool (u32 xtal_fcap) t1 t2 s; Some (set_factory m s1).
End Factory.

(** ** Memory lemmas *)
Lemma memcpy_spec pos b m m' : memcpy pos b m = Some m' ->
  length m' = length m /\ (pos + length b <= length m)%nat /\
  forall i, nth i m' 0 = if decide (pos <= i < pos + length b)%nat then nth (i - pos) b 0 else nth i m 0.
Proof.
  unfold memcpy. destruct (Nat.leb_spec (pos + length b) (length m)) as [H|]; [|done]. intros [= <-].
  split; [rewrite !length_app, length_take, length_drop; lia|]. split; [done|]. intros i.
  destruct (decide (pos <= i)%nat) as [H1 | H1].
  - rewrite app_nth2; rewrite length_take, Nat.min_l by lia; [|lia].
    destruct (decide _) as [H2 | H2].
    + rewrite app_nth1 by lia. done.
    + rewrite app_nth2, nth_skipn by lia. f_equal. lia.
  - rewrite decide_False by lia. rewrite app_nth1 by (rewrite length_take; lia). rewrite nth_firstn. destruct (Nat.ltb_spec i pos); [done|lia].
Qed.

Lemma memcpy_ok pos b m : (pos + length b <= length m)%nat -> exists m', memcpy pos b m = Some m'.
Proof. intros H. unfold memcpy. destruct (Nat.leb_spec (pos + length b) (length m)); [by eexists | lia]. Qed.

Lemma word_at_ext m m' i : (forall k, (4 * i <= k < 4 * i + 4)%nat -> nth k m' 0 = nth k m 0) -> word_at m' i = word_at m i.
Proof. intros H. unfold word_at. rewrite !H by lia. done. Qed.

Lemma memcpy_word pos b m m' i : memcpy pos b m = Some m' -> (4 * i + 4 <= pos \/ pos + length b <= 4 * i)%nat ->
  word_at m' i = word_at m i.
Proof.
  intros H Hd. apply memcpy_spec in H as (_ & _ & H). apply word_at_ext. intros k Hk. rewrite H. rewrite decide_False by lia. done.
Qed.

Lemma slice_ext pos n m m' : length m' = length m -> (forall k, (pos <= k < pos + n)%nat -> nth k m' 0 = nth k m 0) ->
  slice pos n m' = slice pos n m.
Proof.
  intros Hl H. unfold slice. apply list_eq. intros i. destruct (decide (i < n)%nat).
  - rewrite !lookup_take_lt, !lookup_drop by done. destruct (decide (pos + i < length m)%nat).
    + rewrite (lookup_nth m' (pos + i) 0), (lookup_nth m (pos + i) 0) by lia. f_equal. apply H. lia.
    + rewrite !lookup_ge_None_2 by lia. done.
  - rewrite !lookup_take_ge by lia. done.
Qed.

Lemma memcpy_slice pos b m m' p n : memcpy pos b m = Some m' -> (p + n <= pos \/ pos + length b <= p)%nat ->
  slice p n m' = slice p n m.
Proof.
  intros H Hd. apply memcpy_spec in H as (Hl & _ & H). apply slice_ext; [done|]. intros k Hk. rewrite H.
  rewrite decide_False by lia. done.
Qed.

Lemma word_le_value v : 0 <= v < 2 ^ 32 ->
  u8 v + 256 * u8 (Z.shiftr v 8) + 65536 * u8 (Z.shiftr v 16) + 16777216 * u8 (Z.shiftr v 24) = v.
Proof.
  intros Hv. unfold u8, wrap. rewrite !Z.shiftr_div_pow2 by lia.
  change (2 ^ 8) with 256. change (2 ^ 16) with 65536. change (2 ^ 24) with 16777216. change (2 ^ 32) with 4294967296 in Hv.
  pose proof (Z.div_mod v 256 ltac:(lia)). pose proof (Z.div_mod (v / 256) 256 ltac:(lia)).
  pose proof (Z.div_mod (v / 65536) 256 ltac:(lia)).
  assert (v / 256 / 256 = v / 65536) by (rewrite Z.div_div by lia; done).
  assert (v / 65536 / 256 = v / 16777216) by (rewrite Z.div_div by lia; done).
  assert (0 <= v / 16777216 < 256) by (split; [apply Z.div_pos; lia | apply Z.div_lt_upper_bound; lia]).
  rewrite (Z.mod_small (v / 16777216)) by lia. lia.
Qed.

Lemma put_word_spec i v m m' : put_word i v m = Some m' -> 0 <= v < 2 ^ 32 ->
  length m' = length m /\ word_at m' i = v /\ (forall j, j <> i -> word_at m' j = word_at m j) /\
  (forall p n, (p + n <= 4 * i \/ 4 * i + 4 <= p)%nat -> slice p n m' = slice p n m).
Proof.
  intros H Hv. unfold put_word in H. pose proof (memcpy_spec _ _ _ _ H) as (Hl & _ & Hn). split; [done|]. split; [|split].
  - unfold word_at. rewrite !Hn. simpl length. rewrite !decide_True by lia.
    replace (4 * i - 4 * i)%nat with 0%nat by lia. replace (4 * i + 1 - 4 * i)%nat with 1%nat by lia.
    replace (4 * i + 2 - 4 * i)%nat with 2%nat by lia. replace (4 * i + 3 - 4 * i)%nat with 3%nat by lia.
    cbn [nth word_le]. by apply word_le_value.
  - intros j Hj. apply (memcpy_word _ _ _ _ _ H). simpl. lia.
  - intros p n Hd. apply (memcpy_slice _ _ _ _ _ _ H). simpl. lia.
Qed.

Lemma put_word_ok i v m : (4 * i + 4 <= length m)%nat -> exists m', put_word i v m = Some m'.
Proof. intros H. apply memcpy_ok. simpl. lia. Qed.

(** ** The sector: what opening requires, and what it establishes *)
Definition header_ok (m : list Z) (rev : Z) : Prop :=
  Z.land (word_at m dev_version_and_magic) 0xFFFF = nvrec_dev_magic /\ Z.shiftr (word_at m dev_version_and_magic) 16 = rev.

Definition length_ok (v1 : bool) (m : list Z) : Prop :=
  v1 = true \/ 0 <= word_at m rev2_dev_data_len <= 4096 - Z.of_nat (4 * rev2_dev_section_start_reserved).

(** The module's variables agree with a sector that has been opened. *)
Record sector_inv (s : dev_state) : Prop := {
  si_length : length (factory s) = FACTORY_SECTOR_SIZE;
  si_rev : 0 <= nv_record_dev_rev s <= NVREC_DEV_NEWEST_REV;
  si_valid : dev_sector_valid s = true -> header_ok (factory s) (nv_record_dev_rev s) /\ length_ok (is_v1 s) (factory s) }.

Lemma sector_size : FACTORY_SECTOR_SIZE = 4096%nat.
Proof. reflexivity. Qed.

Lemma header_word rev : 0 <= rev <= 2 ->
  0 <= Z.lor (Z.shiftl rev 16) nvrec_dev_magic < 2 ^ 32 /\
  Z.land (Z.lor (Z.shiftl rev 16) nvrec_dev_magic) 0xFFFF = nvrec_dev_magic /\
  Z.shiftr (Z.lor (Z.shiftl rev 16) nvrec_dev_magic) 16 = rev.
Proof. intros H. assert (rev = 0 \/ rev = 1 \/ rev = 2) as [-> | [-> | ->]] by lia; vm_compute; repeat split; discriminate. Qed.

Lemma put_header i v m m' rev : put_word i v m = Some m' -> 0 <= v < 2 ^ 32 -> i <> 0%nat -> header_ok m rev -> header_ok m' rev.
Proof.
  intros H Hv Hi [H1 H2]. destruct (put_word_spec _ _ _ _ H Hv) as (_ & _ & Hw & _).
  unfold header_ok, dev_version_and_magic in *. rewrite !Hw by lia. done.
Qed.

Lemma memcpy_header pos b m m' rev : memcpy pos b m = Some m' -> (4 <= pos)%nat -> header_ok m rev -> header_ok m' rev.
Proof.
  intros H Hp [H1 H2]. unfold header_ok, dev_version_and_magic in *. rewrite !(memcpy_word _ _ _ _ 0 H) by lia. done.
Qed.

Section Laws.
Context (crc32_c : list Z -> Z) (rand1 rand2 : Z -> Z).
Context (Hcrc : forall b, 0 <= crc32_c b < 2 ^ 32).

Let open := nvrec_dev_data_open crc32_c.
Let set := nvrec_dev_set_xtal_fcap crc32_c rand1 rand2.

(** Storing the CRC of a region that does not hold it. *)
Lemma store_crc_spec start crc len m m' : store_crc crc32_c start crc len m = Some m' -> (crc < start)%nat -> 0 <= len ->
  length m' = length m /\ crc_region crc32_c m' start len = Some (word_at m' crc) /\
  (forall j, j <> crc -> word_at m' j = word_at m j).
Proof.
  unfold store_crc. intros H Hc Hl. destruct (crc_region crc32_c m start len) as [c|] eqn:Hr; [|done]. cbn in H.
  assert (Hb : 0 <= c < 2 ^ 32) by (unfold crc_region in Hr; destruct (_ <=? _); [injection Hr as <-; apply Hcrc | done]).
  destruct (put_word_spec _ _ _ _ H Hb) as (L & V & W & S). split; [done|]. split; [|done].
  rewrite V. unfold crc_region in *. rewrite L. destruct (_ <=? _); [|done]. rewrite S by lia. exact Hr.
Qed.

Lemma store_crc_ok start crc len m : (crc < start)%nat -> 0 <= len -> Z.of_nat (4 * start) + len <= Z.of_nat (length m) ->
  exists m', store_crc crc32_c start crc len m = Some m'.
Proof.
  intros Hc Hl Hr. unfold store_crc, crc_region. destruct (Z.leb_spec (Z.of_nat (4 * start) + len) (Z.of_nat (length m))); [|lia].
  cbn. apply put_word_ok. lia.
Qed.

(** A sector that opens and holds a trim. *)
Record good_sector (rev v : Z) (m : list Z) : Prop := {
  gs_length : length m = FACTORY_SECTOR_SIZE;
  gs_header : header_ok m rev;
  gs_len : length_ok (rev =? NVREC_DEV_VERSION_1) m;
  gs_trim : word_at m (if rev =? NVREC_DEV_VERSION_1 then dev_xtal_fcap else rev2_dev_xtal_fcap) = v;
  gs_crc : if rev =? NVREC_DEV_VERSION_1 then crc_region crc32_c m dev_reserv1 V1_CRC_LEN = Some (word_at m dev_crc)
           else crc_region crc32_c m rev2_dev_section_start_reserved (word_at m rev2_dev_data_len) = Some (word_at m rev2_dev_crc) }.

Lemma good_sector_opens rev v m s : good_sector rev v m -> 0 <= rev <= 2 -> factory s = m ->
  open s = Some (true, set_valid true (set_rev rev s)).
Proof.
  intros [Hl [Hm Hr] Hlen Ht Hc] Hrev Hf. unfold open, nvrec_dev_data_open. rewrite Hf, Hm, Hr.
  destruct (Z.gtb_spec rev NVREC_DEV_NEWEST_REV) as [Hgt|]; [unfold NVREC_DEV_NEWEST_REV in Hgt; lia|].
  rewrite Z.eqb_refl. cbn [negb orb]. rewrite u8_small by (change (2 ^ 8) with 256; lia).
  change (is_v1 (set_rev rev s)) with (rev =? NVREC_DEV_VERSION_1). change (factory (set_rev rev s)) with (factory s). rewrite Hf.
  unfold dev_crcs. destruct (rev =? NVREC_DEV_VERSION_1).
  - rewrite Hc. cbn. by rewrite Z.eqb_refl.
  - destruct Hlen as [Hd | Hlen]; [done|].
    unfold rev2_dev_section_start_reserved in Hlen. change (Z.of_nat (4 * 77)) with 308 in Hlen.
    change (Z.of_nat rev2_dev_section_start_reserved * 4) with 308.
    rewrite u32_small by lia.
    destruct (Z.gtb_spec (308 + word_at m rev2_dev_data_len) 4096) as [Hgt|]; [lia|].
    rewrite Hc. cbn. by rewrite Z.eqb_refl.
Qed.

Lemma V1_CRC_LEN_value : V1_CRC_LEN = 288.
Proof. reflexivity. Qed.

(** The end of both rewritings of the first layout: the trim, then the CRC. *)
Lemma finish_v1 v m m1 m2 : length m = FACTORY_SECTOR_SIZE -> header_ok m NVREC_DEV_VERSION_1 -> 0 <= v < 2 ^ 32 ->
  put_word dev_xtal_fcap v m = Some m1 -> store_crc crc32_c dev_reserv1 dev_crc V1_CRC_LEN m1 = Some m2 ->
  good_sector NVREC_DEV_VERSION_1 v m2.
Proof.
  intros Hl Hh Hv H1 H2. destruct (put_word_spec _ _ _ _ H1 Hv) as (L1 & V1 & _).
  destruct (store_crc_spec _ _ _ _ _ H2) as (L2 & C2 & W2); [unfold dev_crc, dev_reserv1; lia | rewrite V1_CRC_LEN_value; lia|].
  pose proof (put_header _ _ _ _ _ H1 Hv ltac:(unfold dev_xtal_fcap; lia) Hh) as [Hh1 Hh2].
  split; [by rewrite L2, L1 | | by left | | exact C2].
  - unfold header_ok in *. rewrite !W2 by (unfold dev_version_and_magic, dev_crc; lia). done.
  - change (NVREC_DEV_VERSION_1 =? NVREC_DEV_VERSION_1) with true. cbv iota. rewrite W2 by (unfold dev_xtal_fcap, dev_crc; lia). exact V1.
Qed.

(** Of the second one: the CRC over the length stored. *)
Lemma finish_v2 rev v m m2 : length m = FACTORY_SECTOR_SIZE -> header_ok m rev -> (rev =? NVREC_DEV_VERSION_1) = false ->
  length_ok false m -> word_at m rev2_dev_xtal_fcap = v ->
  store_crc crc32_c rev2_dev_section_start_reserved rev2_dev_crc (word_at m rev2_dev_data_len) m = Some m2 ->
  good_sector rev v m2.
Proof.
  intros Hl Hh Hrev Hlen Hv H2. destruct Hlen as [|Hlen]; [done|].
  destruct (store_crc_spec _ _ _ _ _ H2) as (L2 & C2 & W2); [unfold rev2_dev_crc, rev2_dev_section_start_reserved; lia | lia|].
  assert (Hd : word_at m2 rev2_dev_data_len = word_at m rev2_dev_data_len) by (apply W2; unfold rev2_dev_data_len, rev2_dev_crc; lia).
  split; try rewrite Hrev.
  - by rewrite L2.
  - unfold header_ok in *. rewrite !W2 by (unfold dev_version_and_magic, rev2_dev_crc; lia). done.
  - right. by rewrite Hd.
  - rewrite W2 by (unfold rev2_dev_xtal_fcap, rev2_dev_crc; lia). exact Hv.
  - by rewrite Hd.
Qed.

Lemma bind_Some {A B} (e : option A) (f : A -> option B) y : (e ≫= f) = Some y -> exists x, e = Some x /\ f x = Some y.
Proof. destruct e as [x|]; [by exists x | done]. Qed.

(** A chain of writes above the header keeps the header and the length. *)
Definition kept_section (m m' : list Z) : Prop := length m' = length m /\ forall rev, header_ok m rev -> header_ok m' rev.

Lemma kept_memcpy pos b m m' : memcpy pos b m = Some m' -> (4 <= pos)%nat -> kept_section m m'.
Proof. intros H Hp. split; [by apply memcpy_spec in H as (? & _) | intros rev; by apply (memcpy_header _ _ _ _ rev H)]. Qed.

Lemma kept_put i v m m' : put_word i v m = Some m' -> (1 <= i)%nat -> kept_section m m'.
Proof. intros H Hi. apply (kept_memcpy _ _ _ _ H). lia. Qed.

Lemma kept_trans m1 m2 m3 : kept_section m1 m2 -> kept_section m2 m3 -> kept_section m1 m3.
Proof. intros [L1 H1] [L2 H2]. split; [congruence | auto]. Qed.

(** The new header on the pool's buffer. *)
Lemma new_header rev pool m : 0 <= rev <= 2 -> length pool = FACTORY_SECTOR_SIZE ->
  put_word dev_version_and_magic (Z.lor (Z.shiftl rev 16) nvrec_dev_magic) pool = Some m ->
  length m = FACTORY_SECTOR_SIZE /\ header_ok m rev.
Proof.
  intros Hr Hl H. destruct (header_word rev Hr) as (H1 & H2 & H3).
  destruct (put_word_spec _ _ _ _ H H1) as (L & V & _). split; [by rewrite L|]. unfold header_ok. by rewrite V.
Qed.

Ltac chain := repeat match goal with
  | H : (_ ≫= _) = Some _ |- _ => apply bind_Some in H as (? & ? & H)
  | H : Some (_, _) = Some _ |- _ => injection H as <- <-
  end.

Lemma fill_good s pool v t1 t2 m s' : sector_inv s -> length pool = FACTORY_SECTOR_SIZE -> 0 <= v < 2 ^ 32 ->
  nvrec_dev_data_fill_xtal_fcap crc32_c rand1 rand2 pool v t1 t2 s = Some (m, s') ->
  good_sector (nv_record_dev_rev s) v m /\ nv_record_dev_rev s' = nv_record_dev_rev s.
Proof.
  intros [Hl Hr Hval] Hp Hv H. unfold nvrec_dev_data_fill_xtal_fcap in H.
  assert (E1 : is_v1 s = true -> nv_record_dev_rev s = NVREC_DEV_VERSION_1) by apply Z.eqb_eq.
  destruct (dev_sector_valid s) eqn:Hd; cbn [negb] in H; apply bind_Some in H as (m0 & Hm0 & H).
  - destruct (Hval eq_refl) as [Hh Hlen]. destruct (is_v1 s) eqn:Hv1; chain; (split; [|reflexivity]).
    + rewrite E1 in * by done. by eapply (finish_v1 v (factory s)).
    + match goal with Hm : put_word _ _ _ = Some _ |- _ => destruct (put_word_spec _ _ _ _ Hm Hv) as (L & V & W & _); pose proof (put_header _ _ _ _ _ Hm Hv ltac:(unfold rev2_dev_xtal_fcap; lia) Hh) end.
      match goal with Hm : store_crc _ _ _ _ ?x = Some _ |- _ => apply (finish_v2 _ _ x) end; try done; [by rewrite L|].
      destruct Hlen as [|Hlen]; [done|]. right. by rewrite W by (unfold rev2_dev_data_len, rev2_dev_xtal_fcap; lia).
  - destruct (new_header _ _ _ Hr Hp Hm0) as [L0 H0]. destruct (is_v1 s) eqn:Hv1; chain; (split; [|reflexivity]).
    + rewrite E1 in * by done.
      match goal with Hm : put_word dev_xtal_fcap _ ?x = Some _ |- _ => assert (K : kept_section m0 x) end.
      { eapply kept_trans; [eapply kept_put; [eassumption | unfold dev_reserv1; lia]|].
        eapply kept_trans; [eapply kept_put; [eassumption | unfold dev_reserv2; lia]|].
        eapply kept_trans; [eapply kept_memcpy; [eassumption | unfold dev_name; lia]|].
        eapply kept_trans; [eapply kept_memcpy; [eassumption | unfold dev_bt_addr; lia]|].
        eapply kept_trans; [eapply kept_memcpy; [eassumption | unfold dev_ble_addr; lia]|].
        eapply kept_memcpy; [eassumption | unfold dev_dongle_addr; lia]. }
      destruct K as [KL KH]. match goal with Hm : put_word dev_xtal_fcap _ ?x = Some ?y |- _ => apply (finish_v1 _ x y) end; try done; [congruence | by apply KH].
    + match goal with Hm : put_word rev2_dev_xtal_fcap _ ?x = Some _ |- _ => assert (K : kept_section m0 x) end.
      { eapply kept_trans; [eapply kept_put; [eassumption | unfold rev2_dev_section_start_reserved; lia]|].
        eapply kept_trans; [eapply kept_put; [eassumption | unfold rev2_dev_reserv2; lia]|].
        eapply kept_trans; [eapply kept_memcpy; [eassumption | unfold rev2_dev_name; lia]|].
        eapply kept_trans; [eapply kept_memcpy; [eassumption | unfold rev2_dev_ble_name; lia]|].
        eapply kept_trans; [eapply kept_memcpy; [eassumption | unfold rev2_dev_bt_addr; lia]|].
        eapply kept_trans; [eapply kept_memcpy; [eassumption | unfold rev2_dev_ble_addr; lia]|].
        eapply kept_memcpy; [eassumption | unfold rev2_dev_dongle_addr; lia]. }
      destruct K as [KL KH].
      match goal with Hm : put_word rev2_dev_xtal_fcap _ _ = Some _ |- _ =>
        destruct (put_word_spec _ _ _ _ Hm Hv) as (L & V & _ & _); pose proof (kept_put _ _ _ _ Hm ltac:(unfold rev2_dev_xtal_fcap; lia)) as [_ KH1] end.
      match goal with Hm : put_word rev2_dev_data_len _ _ = Some _ |- _ =>
        destruct (put_word_spec _ _ _ _ Hm ltac:(vm_compute; easy)) as (L2 & V2 & W2 & _);
        pose proof (kept_put _ _ _ _ Hm ltac:(unfold rev2_dev_data_len; lia)) as [_ KH2] end.
      match goal with Hm : store_crc _ _ _ _ ?x = Some _ |- _ => apply (finish_v2 _ _ x) end; try done.
      * congruence.
      * by apply KH2, KH1, KH.
      * right. rewrite V2. vm_compute. easy.
      * by rewrite W2 by (unfold rev2_dev_data_len, rev2_dev_xtal_fcap; lia).
Qed.

(** Every write of the rewriting fits the sector when the name fits its field. *)
Lemma memcpy_sector pos b m : length m = FACTORY_SECTOR_SIZE -> (pos + length b <= FACTORY_SECTOR_SIZE)%nat ->
  exists m', memcpy pos b m = Some m' /\ length m' = FACTORY_SECTOR_SIZE.
Proof.
  intros Hl Hf. destruct (memcpy_ok pos b m) as [m' H]; [by rewrite Hl|]. exists m'. split; [done|].
  apply memcpy_spec in H as (L & _). by rewrite L.
Qed.

Lemma put_sector i v m : length m = FACTORY_SECTOR_SIZE -> (4 * i + 4 <= FACTORY_SECTOR_SIZE)%nat ->
  exists m', put_word i v m = Some m' /\ length m' = FACTORY_SECTOR_SIZE.
Proof. intros Hl Hf. apply memcpy_sector; [done | exact Hf]. Qed.

Lemma crc_sector start crc len m : (crc < start)%nat -> length m = FACTORY_SECTOR_SIZE -> 0 <= len <= 4096 - Z.of_nat (4 * start) ->
  exists m', store_crc crc32_c start crc len m = Some m'.
Proof. intros Hc Hl Hr. apply store_crc_ok; [done|lia|]. rewrite Hl, sector_size. lia. Qed.

Lemma length_rand_loop n seed : length (rand_loop rand1 rand2 n seed) = n.
Proof. revert seed. induction n as [|n IH]; intros seed; [done|]. simpl. by rewrite IH. Qed.

Ltac fits := rewrite ?sector_size; unfold nvrec_dev_rand_btaddr_gen, dev_version_and_magic, dev_reserv1, dev_reserv2, dev_name, dev_bt_addr, dev_ble_addr,
  dev_dongle_addr, dev_xtal_fcap, rev2_dev_section_start_reserved, rev2_dev_reserv2, rev2_dev_name, rev2_dev_ble_name,
  rev2_dev_bt_addr, rev2_dev_ble_addr, rev2_dev_dongle_addr, rev2_dev_xtal_fcap, rev2_dev_data_len, BLE_NAME_LEN_IN_NV;
  rewrite ?length_rand_loop, ?length_take, ?length_replicate; lia.

Ltac write_step := match goal with
  | |- context [put_word ?i ?v ?m ≫= _] => let x := fresh "m" in let H := fresh "W" in
      destruct (put_sector i v m) as (x & H & ?); [assumption | fits | rewrite H; cbn [mbind option_bind]]
  | |- context [memcpy ?p ?b ?m ≫= _] => let x := fresh "m" in let H := fresh "W" in
      destruct (memcpy_sector p b m) as (x & H & ?); [assumption | fits | rewrite H; cbn [mbind option_bind]]
  end.

Lemma fill_total s pool v t1 t2 : sector_inv s -> length pool = FACTORY_SECTOR_SIZE -> 0 <= v < 2 ^ 32 ->
  (length (local_name s) <= 252)%nat ->
  exists r, nvrec_dev_data_fill_xtal_fcap crc32_c rand1 rand2 pool v t1 t2 s = Some r.
Proof.
  intros [Hl Hr Hval] Hp Hv Hn. unfold nvrec_dev_data_fill_xtal_fcap.
  destruct (dev_sector_valid s) eqn:Hd; cbn [negb]; [cbn [mbind option_bind]|].
  - destruct (Hval eq_refl) as [_ Hlen]. destruct (is_v1 s) eqn:Hv1.
    + write_step. destruct (crc_sector dev_reserv1 dev_crc V1_CRC_LEN m) as [m' ->]; [unfold dev_crc, dev_reserv1; lia | done | vm_compute; easy|].
      by eexists.
    + destruct Hlen as [|Hlen]; [done|]. write_step. destruct (put_word_spec _ _ _ _ W Hv) as (_ & _ & HW & _).
      destruct (crc_sector rev2_dev_section_start_reserved rev2_dev_crc (word_at m rev2_dev_data_len) m) as [m' ->];
        [unfold rev2_dev_crc, rev2_dev_section_start_reserved; lia | done | rewrite HW by (unfold rev2_dev_data_len, rev2_dev_xtal_fcap; lia); lia|].
      by eexists.
  - destruct (is_v1 s); repeat write_step.
    + match goal with |- context [store_crc _ _ _ _ ?x] => destruct (crc_sector dev_reserv1 dev_crc V1_CRC_LEN x) as [m' ->] end;
        [unfold dev_crc, dev_reserv1; lia | done | vm_compute; easy|]. by eexists.
    + match goal with W : put_word rev2_dev_data_len _ _ = Some ?x |- _ =>
        destruct (put_word_spec _ _ _ _ W ltac:(vm_compute; easy)) as (_ & HV & _ & _);
        destruct (crc_sector rev2_dev_section_start_reserved rev2_dev_crc (word_at x rev2_dev_data_len) x) as [m' ->] end;
        [unfold rev2_dev_crc, rev2_dev_section_start_reserved; lia | done | rewrite HV; vm_compute; easy|]. by eexists.
Qed.

Lemma store_crc_slice start crc len m m' p n : store_crc crc32_c start crc len m = Some m' ->
  (p + n <= 4 * crc \/ 4 * crc + 4 <= p)%nat -> slice p n m' = slice p n m.
Proof.
  unfold store_crc. intros H Hd. destruct (crc_region crc32_c m start len) as [c|]; [|done]. cbn in H.
  apply (memcpy_slice _ _ _ _ _ _ H). simpl. lia.
Qed.

(** ** Opening *)
Lemma word_at_range m i : Forall (is_u 8) m -> 0 <= word_at m i < 2 ^ 32.
Proof.
  intros Hb. assert (Hn : forall k, 0 <= nth k m 0 < 256).
  { intros k. destruct (decide (k < length m)%nat) as [Hk | Hk].
    - apply (Forall_lookup_1 _ _ k _ Hb). by apply lookup_nth.
    - rewrite nth_overflow by lia. lia. }
  unfold word_at. pose proof (Hn (4 * i)%nat). pose proof (Hn (4 * i + 1)%nat). pose proof (Hn (4 * i + 2)%nat).
  pose proof (Hn (4 * i + 3)%nat). change (2 ^ 32) with 4294967296. lia.
Qed.

Lemma dev_crcs_spec v1 m r : Forall (is_u 8) m -> length m = FACTORY_SECTOR_SIZE -> dev_crcs crc32_c v1 m = Some r ->
  match r with
  | None => v1 = false /\ ~ length_ok v1 m
  | Some (flsh, c) => length_ok v1 m /\
      if v1 then flsh = word_at m dev_crc /\ crc_region crc32_c m dev_reserv1 V1_CRC_LEN = Some c
      else flsh = word_at m rev2_dev_crc /\
           crc_region crc32_c m rev2_dev_section_start_reserved (word_at m rev2_dev_data_len) = Some c
  end.
Proof.
  intros Hb Hl. unfold dev_crcs, length_ok. destruct v1.
  - intros H. apply bind_Some in H as (c & Hc & [= <-]). split; [by left | done].
  - unfold rev2_dev_section_start_reserved. change (Z.of_nat 77 * 4) with 308. change (Z.of_nat (4 * 77)) with 308.
    pose proof (word_at_range m rev2_dev_data_len Hb) as Hw. change (2 ^ 32) with 4294967296 in Hw.
    destruct (Z.gtb_spec (u32 (308 + word_at m rev2_dev_data_len)) 4096) as [Hgt | Hle].
    + intros [= <-]. split; [done|]. intros [|H]; [done|]. rewrite u32_small in Hgt; lia.
    + intros H. apply bind_Some in H as (c & Hc & [= <-]). split; [|done]. right.
      unfold crc_region in Hc. rewrite Hl, sector_size in Hc. change (Z.of_nat (4 * 77)) with 308 in Hc.
      destruct (Z.leb_spec (308 + word_at m rev2_dev_data_len) (Z.of_nat 4096)); [lia | done].
Qed.

Lemma open_spec s b s' : Forall (is_u 8) (factory s) -> length (factory s) = FACTORY_SECTOR_SIZE ->
  0 <= nv_record_dev_rev s <= NVREC_DEV_NEWEST_REV -> open s = Some (b, s') ->
  sector_inv s' /\ b = dev_sector_valid s' /\ factory s' = factory s /\
  (dev_sector_valid s = false -> b = true <->
     exists rev v, 0 <= rev <= NVREC_DEV_NEWEST_REV /\ good_sector rev v (factory s)).
Proof.
  intros Hb Hl Hrev0 H. unfold open, nvrec_dev_data_open in H.
  pose proof (word_at_range (factory s) dev_version_and_magic Hb) as Hw.
  assert (Hnn : 0 <= Z.shiftr (word_at (factory s) dev_version_and_magic) 16) by (apply Z.shiftr_nonneg; lia).
  destruct (_ || _) eqn:Hh in H.
  - injection H as <- <-. split; [|split; [done|split; [done|]]].
    + split; [exact Hl | exact Hrev0 | discriminate].
    + intros _. split; [discriminate|]. intros (rev & v & Hrev & Hg). destruct (gs_header _ _ _ Hg) as [G1 G2].
      rewrite G1, Z.eqb_refl, G2 in Hh. cbn [negb orb] in Hh. destruct (Z.gtb_spec rev NVREC_DEV_NEWEST_REV); [lia | done].
  - apply orb_false_iff in Hh as [Hm Hv]. apply negb_false_iff, Z.eqb_eq in Hm.
    destruct (Z.gtb_spec (Z.shiftr (word_at (factory s) dev_version_and_magic) 16) NVREC_DEV_NEWEST_REV) as [|Hv']; [done|].
    set (rev := Z.shiftr (word_at (factory s) dev_version_and_magic) 16) in *. unfold NVREC_DEV_NEWEST_REV in *.
    rewrite u8_small in H by (change (2 ^ 8) with 256; lia).
    apply bind_Some in H as (r & Hr & H). change (factory (set_rev rev s)) with (factory s) in Hr.
    change (is_v1 (set_rev rev s)) with (rev =? NVREC_DEV_VERSION_1) in Hr.
    pose proof (dev_crcs_spec _ _ _ Hb Hl Hr) as Hs.
    assert (Hhead : header_ok (factory s) rev) by (split; [by rewrite <- Hm | done]).
    assert (Huniq : forall rev' v, good_sector rev' v (factory s) -> rev' = rev) by (intros rev' v Hg; destruct (gs_header _ _ _ Hg) as [_ <-]; done).
    destruct r as [[flsh c]|].
    + destruct Hs as [Hlen Hc]. injection H as <- <-.
      split; [|split; [done|split; [by destruct (flsh =? c)|]]].
      * destruct (flsh =? c); (split; [exact Hl | by split | intros _; by split]).
      * intros Hd. destruct (Z.eqb_spec flsh c) as [E | E]; cbn.
        -- split; [|done]. intros _. eexists rev, _. split; [done|]. split; [exact Hl|done|done|reflexivity|].
           destruct (rev =? NVREC_DEV_VERSION_1); destruct Hc as [-> ->]; by rewrite E.
        -- rewrite Hd. split; [discriminate|]. intros (rev' & v & _ & Hg). exfalso. apply E.
           pose proof (Huniq _ _ Hg) as ->. pose proof (gs_crc _ _ _ Hg) as Hx.
           destruct (rev =? NVREC_DEV_VERSION_1); destruct Hc as [-> Hc]; rewrite Hc in Hx; congruence.
    + destruct Hs as [Hv1 Hbad]. injection H as <- <-. split; [|split; [done|split; [done|]]].
      * split; [exact Hl | by split | discriminate].
      * intros _. split; [discriminate|]. intros (rev' & v & _ & Hg). pose proof (Huniq _ _ Hg) as ->.
        destruct Hbad. exact (gs_len _ _ _ Hg).
Qed.
End Laws.

(** ** Properties *)
Section Properties.
Context (crc32_c : list Z -> Z) (rand1 rand2 : Z -> Z) (BLE_DEFAULT_NAME : list Z).
Context (Hcrc : forall b, 0 <= crc32_c b < 2 ^ 32).

(** What a rewriting of a valid sector leaves: every word and slice away from the trim and the CRC. *)
Lemma fill_valid_frame s pool v t1 t2 m s' : dev_sector_valid s = true -> 0 <= v < 2 ^ 32 ->
  nvrec_dev_data_fill_xtal_fcap crc32_c rand1 rand2 pool v t1 t2 s = Some (m, s') ->
  s' = s /\
  forall p n, let trim := if is_v1 s then dev_xtal_fcap else rev2_dev_xtal_fcap in
    let crc := if is_v1 s then dev_crc else rev2_dev_crc in
    (p + n <= 4 * trim \/ 4 * trim + 4 <= p)%nat -> (p + n <= 4 * crc \/ 4 * crc + 4 <= p)%nat ->
    slice p n m = slice p n (factory s).
Proof.
  intros Hd Hv H. unfold nvrec_dev_data_fill_xtal_fcap in H. rewrite Hd in H. cbn [negb mbind option_bind] in H.
  destruct (is_v1 s) eqn:Hv1; apply bind_Some in H as (m1 & H1 & H); apply bind_Some in H as (m2 & H2 & [= <- <-]);
    (split; [done|]); intros p n trim crc Ht Hc; rewrite (store_crc_slice _ _ _ _ _ _ _ _ H2 Hc);
    by apply (put_word_spec _ _ _ _ H1 Hv).
Qed.

Lemma dev_crcs_total v1 m : length m = FACTORY_SECTOR_SIZE -> Forall (is_u 8) m ->
  (v1 = true \/ word_at m rev2_dev_data_len < 2 ^ 32 - 308) -> exists r, dev_crcs crc32_c v1 m = Some r.
Proof.
  intros Hl Hb Hw. unfold dev_crcs, crc_region. rewrite Hl, sector_size. destruct v1.
  - change (Z.of_nat (4 * dev_reserv1) + V1_CRC_LEN <=? Z.of_nat 4096) with true. by eexists.
  - destruct Hw as [|Hw]; [discriminate|]. pose proof (word_at_range m rev2_dev_data_len Hb) as Hr.
    change (Z.of_nat rev2_dev_section_start_reserved * 4) with 308.
    change (Z.of_nat (4 * rev2_dev_section_start_reserved)) with 308. rewrite u32_small by lia.
    destruct (Z.gtb_spec (308 + word_at m rev2_dev_data_len) 4096) as [|H]; [by eexists|].
    destruct (Z.leb_spec (308 + word_at m rev2_dev_data_len) (Z.of_nat 4096)); [by eexists | lia].
Qed.
End Properties.

(** C16: A trim written is a trim read: from any state with a sound sector, valid or not, in either
    layout, [nvrec_dev_set_xtal_fcap] runs to its end, the sector it leaves opens (the header, the
    length and the CRC it stored pass the checks), and the reader then answers 0 and the value; the
    local name must fit its field. For any CRC and any random generator. *)
Theorem nvdev_set_get crc32_c rand1 rand2 s pool v t1 t2 :
  (forall b, 0 <= crc32_c b < 2 ^ 32) -> sector_inv s -> length pool = FACTORY_SECTOR_SIZE ->
  0 <= v < 2 ^ 32 -> (length (local_name s) <= 252)%nat ->
  exists s1 s2, nvrec_dev_set_xtal_fcap crc32_c rand1 rand2 pool v t1 t2 s = Some s1 /\
    nvrec_dev_data_open crc32_c s1 = Some (true, s2) /\ sector_inv s2 /\
    nvrec_dev_get_xtal_fcap s2 = (0, Some v).
Proof.
  intros Hcrc Hs Hp Hv Hn. destruct (fill_total crc32_c rand1 rand2 s pool v t1 t2 Hs Hp Hv Hn) as [[m s'] Hf].
  destruct (fill_good crc32_c rand1 rand2 Hcrc s pool v t1 t2 m s' Hs Hp Hv Hf) as [Hg Hr].
  exists (set_factory m s'), (set_valid true (set_rev (nv_record_dev_rev s) (set_factory m s'))).
  pose proof (si_rev _ Hs) as Hrev. split; [|split; [|split]].
  - unfold nvrec_dev_set_xtal_fcap. rewrite u32_small by done. by rewrite Hf.
  - by apply (good_sector_opens crc32_c _ v m).
  - split; [exact (gs_length _ _ _ _ Hg) | exact Hrev | intros _]. split; [exact (gs_header _ _ _ _ Hg) | exact (gs_len _ _ _ _ Hg)].
  - unfold nvrec_dev_get_xtal_fcap. cbn [dev_sector_valid set_valid negb]. f_equal. f_equal. exact (gs_trim _ _ _ _ Hg).
Qed.

(** An unprogrammed sector of the second layout, a checksum, a generator, a pool: the witnesses' values. *)
Definition sum_crc (b : list Z) : Z := u32 (fold_right Z.add 0 b).
Definition blank (rev : Z) : dev_state :=
  mkDev (replicate FACTORY_SECTOR_SIZE 0) false rev (replicate 27 0) [66; 69; 83] [66; 76; 69] (replicate 6 1) (replicate 6 2).
Definition new_pool : list Z := replicate FACTORY_SECTOR_SIZE 0.

Lemma sum_crc_range b : 0 <= sum_crc b < 2 ^ 32.
Proof. apply Z.mod_pos_bound. lia. Qed.

Lemma blank_inv rev : 0 <= rev <= 2 -> sector_inv (blank rev).
Proof. intros H. split; [apply length_replicate | exact H | discriminate]. Qed.

Lemma nvdev_set_get_witness : sector_inv (blank 2) /\
  exists s1 s2, nvrec_dev_set_xtal_fcap sum_crc (fun x => x) (fun x => x) new_pool 0x86 5 9 (blank 2) = Some s1 /\
    nvrec_dev_data_open sum_crc s1 = Some (true, s2) /\ sector_inv s2 /\ nvrec_dev_get_xtal_fcap s2 = (0, Some 0x86).
Proof.
  assert (Hb : sector_inv (blank 2)) by (apply blank_inv; lia). split; [exact Hb|].
  apply (nvdev_set_get sum_crc (fun x => x) (fun x => x) (blank 2) new_pool 0x86 5 9);
    [exact sum_crc_range | exact Hb | apply length_replicate | lia | vm_compute; lia].
Defined.

(** Rewriting the trim of a valid sector touches nothing else: with a sound state that is valid,
    the driver's identity and the module's variables stay, every stretch of bytes that avoids the trim
    and the CRC word is the one of before, and after the rewriting the addresses read back unchanged. *)
Theorem nvdev_set_keeps crc32_c rand1 rand2 s s1 pool v t1 t2 :
  (forall b, 0 <= crc32_c b < 2 ^ 32) -> sector_inv s -> dev_sector_valid s = true -> 0 <= v < 2 ^ 32 ->
  nvrec_dev_set_xtal_fcap crc32_c rand1 rand2 pool v t1 t2 s = Some s1 ->
  s1 = set_factory (factory s1) s /\
  (forall p n, let trim := if is_v1 s then dev_xtal_fcap else rev2_dev_xtal_fcap in
     let crc := if is_v1 s then dev_crc else rev2_dev_crc in
     (p + n <= 4 * trim \/ 4 * trim + 4 <= p)%nat -> (p + n <= 4 * crc \/ 4 * crc + 4 <= p)%nat ->
     slice p n (factory s1) = slice p n (factory s)) /\
  nvrec_dev_get_btaddr s1 = nvrec_dev_get_btaddr s /\ nvrec_dev_get_dongleaddr s1 = nvrec_dev_get_dongleaddr s.
Proof.
  intros Hcrc Hs Hd Hv H. unfold nvrec_dev_set_xtal_fcap in H. rewrite u32_small in H by done.
  apply bind_Some in H as ([m s'] & Hf & [= <-]).
  destruct (fill_valid_frame crc32_c rand1 rand2 s pool v t1 t2 m s' Hd Hv Hf) as [-> Hk].
  split; [done|]. split; [exact Hk|]. unfold nvrec_dev_get_btaddr, nvrec_dev_get_dongleaddr.
  change (dev_sector_valid (set_factory m s)) with (dev_sector_valid s). change (is_v1 (set_factory m s)) with (is_v1 s).
  rewrite Hd. cbn [negb factory set_factory]. rewrite !Hk; [done| ..]; destruct (is_v1 s); vm_compute; lia.
Qed.

(** The first layout, opened. *)
Definition opened (s : option (bool * dev_state)) : dev_state := match s with Some (_, s') => s' | None => blank 1 end.
Definition programmed : dev_state :=
  match nvrec_dev_set_xtal_fcap sum_crc (fun x => x) (fun x => x) new_pool 0x70 5 9 (blank 1) with
  | Some s => opened (nvrec_dev_data_open sum_crc s)
  | None => blank 1
  end.

Lemma nvdev_set_keeps_witness : exists s1,
  nvrec_dev_set_xtal_fcap sum_crc (fun x => x) (fun x => x) new_pool 0x86 5 9 programmed = Some s1 /\
  nvrec_dev_get_btaddr s1 = (1, Some [5; 10; 20; 40; 80; 160]).
Proof.
  assert (Hb : sector_inv programmed).
  { split; [vm_compute; reflexivity | vm_compute; split; discriminate | intros _; split; [split; vm_compute; reflexivity | left; vm_compute; reflexivity]]. }
  destruct (nvrec_dev_set_xtal_fcap sum_crc (fun x => x) (fun x => x) new_pool 0x86 5 9 programmed) as [s1|] eqn:H; [|vm_compute in H; discriminate H].
  exists s1. split; [reflexivity|].
  destruct (nvdev_set_keeps sum_crc (fun x => x) (fun x => x) programmed s1 new_pool 0x86 5 9 sum_crc_range Hb eq_refl ltac:(lia) H) as (_ & _ & E & _).
  rewrite E. vm_compute. reflexivity.
Defined.

Lemma bytes_check m : forallb (fun x => (0 <=? x) && (x <? 256)) m = true -> Forall (is_u 8) m.
Proof.
  induction m as [|x m IH]; [by constructor|]. simpl. intros H. apply andb_true_iff in H as [Hx H].
  apply andb_true_iff in Hx as [H1 H2]. apply Z.leb_le in H1. apply Z.ltb_lt in H2. constructor; [by split | by apply IH].
Qed.

(** Opening is sound. On any bytes in the sector, unless the second layout's length field is within
    308 of 2^32, [nvrec_dev_data_open] returns; it leaves the flash alone, establishes the invariant and
    answers the flag; and from a state not yet valid it answers true exactly when the sector holds the
    magic, a revision up to 2, a length that stays in the sector, and the CRC of its data. *)
Theorem nvdev_open_sound crc32_c s : let m := factory s in
  Forall (is_u 8) m -> length m = FACTORY_SECTOR_SIZE -> 0 <= nv_record_dev_rev s <= NVREC_DEV_NEWEST_REV ->
  (Z.shiftr (word_at m dev_version_and_magic) 16 = NVREC_DEV_VERSION_1 \/ word_at m rev2_dev_data_len < 2 ^ 32 - 308) ->
  exists b s', nvrec_dev_data_open crc32_c s = Some (b, s') /\ sector_inv s' /\ b = dev_sector_valid s' /\ factory s' = m /\
    (dev_sector_valid s = false -> b = true <-> exists rev v, 0 <= rev <= NVREC_DEV_NEWEST_REV /\ good_sector crc32_c rev v m).
Proof.
  intros m Hb Hl Hr Hw. assert (H : exists r, nvrec_dev_data_open crc32_c s = Some r).
  { unfold nvrec_dev_data_open. fold m. destruct (_ || _) eqn:Hh; [by eexists|]. apply orb_false_iff in Hh as [_ Hv].
    set (rev := Z.shiftr (word_at m dev_version_and_magic) 16) in *.
    assert (Hn : 0 <= rev) by (apply Z.shiftr_nonneg; by apply (word_at_range m dev_version_and_magic Hb)).
    destruct (Z.gtb_spec rev NVREC_DEV_NEWEST_REV) as [|Hn2]; [discriminate|]. unfold NVREC_DEV_NEWEST_REV in Hn2.
    change (factory (set_rev (u8 rev) s)) with m. change (is_v1 (set_rev (u8 rev) s)) with (u8 rev =? NVREC_DEV_VERSION_1).
    rewrite u8_small by (change (2 ^ 8) with 256; lia).
    destruct (dev_crcs_total crc32_c (rev =? NVREC_DEV_VERSION_1) m Hl Hb) as [r ->];
      [destruct Hw as [-> | Hw]; [by left | by right]|]. destruct r as [[flsh c]|]; by eexists. }
  destruct H as [[b s'] H]. exists b, s'. split; [exact H|]. by apply (open_spec crc32_c s b s').
Qed.

Lemma nvdev_open_sound_witness : exists b s', nvrec_dev_data_open sum_crc (set_valid false programmed) = Some (b, s') /\
  b = dev_sector_valid s' /\ b = true.
Proof.
  destruct (nvdev_open_sound sum_crc (set_valid false programmed)) as (b & s' & H & _ & Hb & _).
  - apply bytes_check. vm_compute. reflexivity.
  - vm_compute. reflexivity.
  - vm_compute. split; discriminate.
  - left. vm_compute. reflexivity.
  - exists b, s'. split; [exact H|]. split; [exact Hb|]. vm_compute in H. injection H as <- _. reflexivity.
Defined.

(** Two faults of opening. A sector whose CRC no longer matches is still answered valid when it was
    valid before, because only the header and the length clear the flag; and a length field of 2^32 - 8
    wraps the length check, so that the CRC is taken over bytes past the end of the sector. *)
Theorem nvdev_open_flaws :
  (exists s s', dev_sector_valid s = true /\ nvrec_dev_data_open sum_crc s = Some (true, s') /\
     word_at (factory s) dev_crc <> sum_crc (slice (4 * dev_reserv1) (Z.to_nat V1_CRC_LEN) (factory s)) /\ is_v1 s' = true) /\
  (exists s, word_at (factory s) rev2_dev_data_len = 2 ^ 32 - 8 /\ nvrec_dev_data_open sum_crc s = None).
Proof.
  split.
  - set (m := <[300%nat := 1]> (<[20%nat := 7]> (factory programmed))). exists (set_factory m programmed).
    destruct (nvrec_dev_data_open sum_crc (set_factory m programmed)) as [[b s']|] eqn:H; [|vm_compute in H; discriminate H].
    exists s'. vm_compute in H. injection H as <- <-. vm_compute. repeat split; discriminate.
  - set (m := match put_word rev2_dev_data_len (2 ^ 32 - 8) new_pool with
              | Some m => match put_word dev_version_and_magic 0x2ba80 m with Some m' => m' | None => m end
              | None => new_pool end).
    exists (set_factory m (blank 2)). vm_compute. split; reflexivity.
Qed.
