(* ===== verification/Norflash.v ===== *)
(** The flash service the record modules use, services/norflash_api/norflash_api.h: the operations as
    an interface, what its header and its users rely on as a second interface, the effect of queued
    operations on two sectors, loss of power, and one implementation that meets the interface. *)
From Stdlib Require Import ZArith Lia Bool.
From stdpp Require Import base option list.
From S2P Require Import Prelude.

(** ** Sectors and operations *)
(** [NORFLASH_API_RET_T]: the users tell success and a full buffer from every other answer. *)
Inductive NORFLASH_API_RET_T := NORFLASH_API_OK | NORFLASH_API_BUFFER_FULL | NORFLASH_API_ERR.

(** The two copies of the user data section. *)
Inductive sector := MAIN | BAK.

#[export] Instance sector_eq_dec : EqDecision sector.
Proof. solve_decision. Defined.

Record cells (I : Type) := mkCells { cell_main : I; cell_bak : I }.
Arguments mkCells {I} _ _.
Arguments cell_main {I} _.
Arguments cell_bak {I} _.

Inductive flash_op (I : Type) := Erase (s : sector) | Write (s : sector) (i : I).
Arguments Erase {I} _.
Arguments Write {I} _ _.

Definition op_sector {I} (o : flash_op I) : sector := match o with Erase s => s | Write s _ => s end.
Definition get {I} (s : sector) (c : cells I) : I := match s with MAIN => cell_main c | BAK => cell_bak c end.
Definition put {I} (s : sector) (i : I) (c : cells I) : cells I :=
  match s with MAIN => mkCells i (cell_bak c) | BAK => mkCells (cell_main c) i end.

(** ** The operations *)
(** With [async] set; [norflash_mapped] is the flash read through its address. *)
Class Norflash (I F : Type) := {
  norflash_api_get_dev_id : F -> NORFLASH_API_RET_T;
  norflash_api_erase : sector -> F -> NORFLASH_API_RET_T * F;
  norflash_api_write : sector -> I -> F -> NORFLASH_API_RET_T * F;
  norflash_api_read : sector -> F -> NORFLASH_API_RET_T * I;
  norflash_mapped : sector -> F -> I;
  norflash_api_flush : F -> F;
  norflash_api_get_used_buffer_count : F -> Z;
  norflash_free_erase : F -> Z;
  norflash_free_write : F -> Z }.

(** ** What is queued and what is stored *)
Section Effect.
Context {I : Type} (erased : I) (program : I -> I -> I).

Definition run_op (o : flash_op I) (c : cells I) : cells I :=
  match o with
  | Erase s => put s erased c
  | Write s i => put s (program (get s c) i) c
  end.

Fixpoint run_ops (l : list (flash_op I)) (c : cells I) : cells I :=
  match l with [] => c | o :: l' => run_ops l' (run_op o c) end.

Lemma run_ops_app l1 l2 c : run_ops (l1 ++ l2) c = run_ops l2 (run_ops l1 c).
Proof. revert c. induction l1 as [|o l1 IH]; intros c; [done|]. apply IH. Qed.

Lemma run_op_other o s c : op_sector o <> s -> get s (run_op o c) = get s c.
Proof. destruct o as [[]|[] i], s; cbn; done. Qed.

Lemma run_ops_other l s c : Forall (fun o => op_sector o <> s) l -> get s (run_ops l c) = get s c.
Proof.
  revert c. induction l as [|o l IH]; intros c H; [done|]. apply Forall_cons in H as [Ho Hl]. cbn [run_ops].
  rewrite IH by done. by apply run_op_other.
Qed.

Lemma get_put s i (c : cells I) : get s (put s i c) = i.
Proof. by destruct s. Qed.

Lemma get_put_other s s' i (c : cells I) : s <> s' -> get s' (put s i c) = get s' c.
Proof. by destruct s, s'. Qed.
End Effect.

(** A queue is executed in order; erasing makes a sector blank, and a program on a blank sector, or of
    what the sector holds, leaves the data. A flush takes some of the first operations of the queue
    and always gets ahead when there are any; a buffer is full only while something is queued.
    [snapshots] is the history of the flash, the latest first: what was queued and what was stored after
    each operation. *)
Class NorflashSpec (I F : Type) (erased : I) `{Norflash I F} := {
  program : I -> I -> I;
  stored : F -> cells I;
  pending : F -> list (flash_op I);
  work : F -> nat;
  snapshots : F -> list (list (flash_op I) * cells I);
  program_erased i : program erased i = i;
  program_same i : program i i = i;
  dev_id_ok f : norflash_api_get_dev_id f = NORFLASH_API_OK;
  erase_queues s f : match norflash_api_erase s f with
    | (NORFLASH_API_OK, f') => pending f' = pending f ++ [Erase s] /\ stored f' = stored f /\
        snapshots f' = (pending f', stored f') :: snapshots f
    | (NORFLASH_API_BUFFER_FULL, f') => f' = f /\ norflash_free_erase f = 0
    | (NORFLASH_API_ERR, _) => False
    end;
  write_queues s i f : match norflash_api_write s i f with
    | (NORFLASH_API_OK, f') => pending f' = pending f ++ [Write s i] /\ stored f' = stored f /\
        snapshots f' = (pending f', stored f') :: snapshots f
    | (NORFLASH_API_BUFFER_FULL, f') => f' = f /\ norflash_free_write f = 0
    | (NORFLASH_API_ERR, _) => False
    end;
  read_stored s f : Forall (fun o => op_sector o <> s) (pending f) -> norflash_api_read s f = (NORFLASH_API_OK, get s (stored f));
  mapped_stored s f : norflash_mapped s f = get s (stored f);
  flush_runs f : exists n, pending (norflash_api_flush f) = drop n (pending f) /\
    stored (norflash_api_flush f) = run_ops erased program (take n (pending f)) (stored f);
  flush_snapshot f : let f' := norflash_api_flush f in snapshots f' = (pending f', stored f') :: snapshots f;
  flush_works f : pending f <> [] -> (work (norflash_api_flush f) < work f)%nat;
  used_count f : norflash_api_get_used_buffer_count f = Z.of_nat (length (pending f));
  room f : pending f = [] -> 0 < norflash_free_erase f /\ 0 < norflash_free_write f }.

(** What the chip may hold when the power is lost: some of the queue done, and at most the operation
    that was under way leaves anything in its own sector. *)
Definition crash_at {I F} {erased : I} `{NorflashSpec I F erased} (torn : I -> Prop) (ops : list (flash_op I)) (c0 c : cells I) : Prop :=
  exists n, let c' := run_ops erased program (take n ops) c0 in
    c = c' \/ exists o x, ops !! n = Some o /\ torn x /\ c = put (op_sector o) x c'.

Definition crash {I F} {erased : I} `{NorflashSpec I F erased} (torn : I -> Prop) (f : F) (c : cells I) : Prop :=
  crash_at torn (pending f) (stored f) c.

(** ** Where a sequence of operations has got *)
Section Progress.
Context {I F : Type} {erased : I} `{NorflashSpec I F erased}.

(** [ops] were queued since the sectors held [c0] with nothing pending. *)
Definition progress (ops : list (flash_op I)) (c0 : cells I) (f : F) : Prop :=
  exists k, (k <= length ops)%nat /\ pending f = drop k ops /\ stored f = run_ops erased program (take k ops) c0.

Lemma progress_start f : pending f = [] -> progress [] (stored f) f.
Proof. intros Hp. exists 0%nat. rewrite Hp. split; [reflexivity | by split]. Qed.

Lemma progress_nil c0 f : progress [] c0 f <-> pending f = [] /\ stored f = c0.
Proof.
  split.
  - intros (k & _ & Hp & Hs). rewrite drop_nil in Hp. rewrite take_nil in Hs. done.
  - intros [Hp <-]. by apply progress_start.
Qed.

Lemma progress_done ops c0 f : progress ops c0 f -> pending f = [] -> stored f = run_ops erased program ops c0.
Proof.
  intros (k & Hk & Hp & Hs) Hn. rewrite Hn in Hp. rewrite Hs, take_ge; [done|].
  apply (f_equal length) in Hp. rewrite length_drop in Hp. simpl in Hp. lia.
Qed.

Lemma progress_append ops c0 f f' o : progress ops c0 f -> pending f' = pending f ++ [o] -> stored f' = stored f ->
  progress (ops ++ [o]) c0 f'.
Proof.
  intros (k & Hk & Hp & Hs) Hp' Hs'. exists k. split; [rewrite length_app; simpl; lia|].
  rewrite drop_app_le, take_app_le by done. by rewrite Hp', Hs', Hp.
Qed.

Lemma progress_flush ops c0 f : progress ops c0 f -> progress ops c0 (norflash_api_flush f).
Proof.
  intros (k & Hk & Hp & Hs). destruct (flush_runs f) as (n & Hp' & Hs'). rewrite Hp, drop_drop in Hp'.
  exists (Nat.min (k + n) (length ops)). split; [lia|]. split.
  - rewrite Hp'. destruct (decide (k + n <= length ops)%nat); [by rewrite Nat.min_l by lia|].
    rewrite Nat.min_r by lia. rewrite !drop_ge by lia. done.
  - rewrite Hs', Hs, Hp, <- run_ops_app. f_equal. rewrite take_take_drop.
    destruct (decide (k + n <= length ops)%nat); [by rewrite Nat.min_l by lia|].
    rewrite Nat.min_r by lia. rewrite !take_ge by lia. done.
Qed.

Lemma progress_other ops c0 f s : progress ops c0 f -> Forall (fun o => op_sector o <> s) ops ->
  Forall (fun o => op_sector o <> s) (pending f) /\ get s (stored f) = get s c0.
Proof.
  intros (k & _ & Hp & Hs) Ho. rewrite Hp, Hs. split; [by apply Forall_drop|].
  apply run_ops_other. by apply Forall_take.
Qed.

(** After a loss of power: the effect of some prefix, or a torn operation after it. *)
Lemma progress_crash (torn : I -> Prop) ops c0 f c : progress ops c0 f -> crash torn f c -> crash_at torn ops c0 c.
Proof.
  intros (k & Hk & Hp & Hs) (n & Hn). exists (k + n)%nat. rewrite Hp, Hs, <- run_ops_app, take_take_drop in Hn.
  destruct Hn as [Hc | (o & x & Ho & Ht & Hc)]; [by left|]. right. exists o, x. rewrite lookup_drop in Ho. done.
Qed.
End Progress.

(** ** An implementation: a queue of two operations, one of them executed by each flush *)
Section Queue.
Context {I : Type} (erased0 : I) (program0 : I -> I -> I).
Context (Herased : forall i, program0 erased0 i = i) (Hsame : forall i, program0 i i = i).

Record queue_flash := mkQueueFlash { qcells : cells I; queue : list (flash_op I); qpast : list (list (flash_op I) * cells I) }.

Definition step_to (c : cells I) (l : list (flash_op I)) (f : queue_flash) : queue_flash := mkQueueFlash c l ((l, c) :: qpast f).

Definition QUEUE_SIZE : nat := 2.
Definition enqueue (o : flash_op I) (f : queue_flash) : NORFLASH_API_RET_T * queue_flash :=
  if (length (queue f) <? QUEUE_SIZE)%nat then (NORFLASH_API_OK, step_to (qcells f) (queue f ++ [o]) f)
  else (NORFLASH_API_BUFFER_FULL, f).

Definition qfree (f : queue_flash) : Z := Z.of_nat (QUEUE_SIZE - length (queue f)).

#[local] Instance queue_norflash : Norflash I queue_flash := {
  norflash_api_get_dev_id _ := NORFLASH_API_OK;
  norflash_api_erase s f := enqueue (Erase s) f;
  norflash_api_write s i f := enqueue (Write s i) f;
  norflash_api_read s f := (NORFLASH_API_OK, get s (run_ops erased0 program0 (queue f) (qcells f)));
  norflash_mapped s f := get s (qcells f);
  norflash_api_flush f := match queue f with
    | [] => step_to (qcells f) [] f
    | o :: l => step_to (run_op erased0 program0 o (qcells f)) l f
    end;
  norflash_api_get_used_buffer_count f := Z.of_nat (length (queue f));
  norflash_free_erase := qfree;
  norflash_free_write := qfree }.

Lemma enqueue_spec o f : match enqueue o f with
  | (NORFLASH_API_OK, f') => queue f' = queue f ++ [o] /\ qcells f' = qcells f /\ qpast f' = (queue f', qcells f') :: qpast f
  | (NORFLASH_API_BUFFER_FULL, f') => f' = f /\ qfree f = 0
  | (NORFLASH_API_ERR, _) => False
  end.
Proof.
  unfold enqueue, qfree. destruct (Nat.ltb_spec (length (queue f)) QUEUE_SIZE) as [Hl | Hl]; [done|].
  split; [done|]. replace (QUEUE_SIZE - length (queue f))%nat with 0%nat by lia. done.
Qed.

#[local] Instance queue_norflash_spec : NorflashSpec I queue_flash erased0.
Proof.
  refine {| program := program0; stored := qcells; pending := queue; work := fun f => length (queue f); snapshots := qpast;
            program_erased := Herased; program_same := Hsame |}; try done.
  - intros s f. exact (enqueue_spec (Erase s) f).
  - intros s i f. exact (enqueue_spec (Write s i) f).
  - intros s f H. cbn. by rewrite run_ops_other.
  - intros f. exists 1%nat. cbn. destruct (queue f) as [|o l] eqn:E; cbn; rewrite ?E; by split.
  - intros f. cbn. by destruct (queue f).
  - intros f H. cbn. destruct (queue f) as [|o l] eqn:E; [done|]. cbn. rewrite ?E. simpl. lia.
  - intros f H. change (norflash_free_erase f) with (qfree f). change (norflash_free_write f) with (qfree f).
    unfold qfree. cbn in H. rewrite H. by split.
Defined.
End Queue.
