(* ===== verification/FactorySection.v ===== *)
(** The factory sector as apps/nv_section/factory_section/factory_section.c uses it: the same flash
    sector as [NvDev]'s, opened, read and rewritten by a second module. The layout (word indices), the
    memory and the region of a CRC are those of [NvDev]. *)
From Stdlib Require Import ZArith Lia Bool.
From stdpp Require Import base list option.
From S2P Require Import Prelude Norflash NvDev.

(** ** The flash service *)
(** Synchronous erasing and writing of the one sector, with the service's answer. *)
Class FactoryFlash := {
  factory_erase : list Z -> NORFLASH_API_RET_T * list Z;
  factory_write : list Z -> list Z -> NORFLASH_API_RET_T * list Z }.

Definition erased_sector : list Z := replicate FACTORY_SECTOR_SIZE 255.

(** A working part: an erased sector is all ones, and takes what is written. *)
Class FactoryFlashSpec `{FactoryFlash} : Prop := {
  erase_ok m : length m = FACTORY_SECTOR_SIZE -> factory_erase m = (NORFLASH_API_OK, erased_sector);
  write_ok m : length m = FACTORY_SECTOR_SIZE -> factory_write m erased_sector = (NORFLASH_API_OK, m) }.

(** ** State *)
Definition nvrec_mini_version : Z := 1.
Definition nvrec_current_version : Z := 2.
Definition NV_ROLE_IBRT_MASTER : Z := 0.
Definition NV_ROLE_IBRT_SLAVE : Z := 1.
Definition NV_ROLE_IBRT_UNKNOWN : Z := 255.

(** [sizeof(factory_section_t)]: the structure ends with the second layout. *)
Definition sizeof_factory_section : Z := 4 * Z.of_nat rev2_dev_section_end.

(** The sector, whether [factory_section_p] points to it, the revision of the last opening, and the
    addresses of the target. *)
Record fs_state := mkFs {
  fs_flash : list Z; factory_section_p : bool; fs_rev : Z; bt_global_addr : list Z; ble_global_addr : list Z }.

Definition with_flash (m : list Z) (s : fs_state) : fs_state := mkFs m (factory_section_p s) (fs_rev s) (bt_global_addr s) (ble_global_addr s).
Definition with_p (b : bool) (s : fs_state) : fs_state := mkFs (fs_flash s) b (fs_rev s) (bt_global_addr s) (ble_global_addr s).
Definition with_rev (r : Z) (s : fs_state) : fs_state := mkFs (fs_flash s) (factory_section_p s) r (bt_global_addr s) (ble_global_addr s).
Definition with_addrs (a b : list Z) (s : fs_state) : fs_state := mkFs (fs_flash s) (factory_section_p s) (fs_rev s) a b.
Definition fs_v1 (s : fs_state) : bool := fs_rev s =? 1.

(** A name: bytes of the sector, or a literal of the program. *)
Inductive name_ptr := InSector (pos : nat) | Literal (l : list Z).

(** The buffer of the address setters: a whole sector, aligned, near the end of the pool. *)
Definition tmp_buf (start size : Z) : Z :=
  u32 (u32 (start + size - 0x3000 + Z.of_nat FACTORY_SECTOR_SIZE - 1) / Z.of_nat FACTORY_SECTOR_SIZE * Z.of_nat FACTORY_SECTOR_SIZE).

Section Operations.
Context `{FactoryFlash}.
Variable crc32_c : list Z -> Z.
(** The option RAM_NV_RECORD; the trim of the option IS_USE_DEFAULT_XTAL_FCAP; the default names. *)
Variable RAM_NV_RECORD : bool.
Variable DEFAULT_XTAL_FCAP : option Z.
Variables BT_LOCAL_NAME BLE_DEFAULT_NAME : list Z.

(** ** Rewriting *)
(** The first [len] bytes of an argument, [None] when the copy reads past its end. *)
Definition argument_bytes (len : Z) (b : list Z) : option (list Z) :=
  if (0 <=? len) && (len <=? Z.of_nat (length b)) then Some (take (Z.to_nat len) b) else None.

(** What the setters of the first layout take the CRC of: to the end of the structure. *)
Definition SET_CRC_LEN : Z := sizeof_factory_section - 2 - 2 - 4.

Definition seal_section (v1 : bool) (len : Z) (m : list Z) : option (list Z) :=
  if v1 then store_crc crc32_c dev_reserv1 dev_crc SET_CRC_LEN m
  else store_crc crc32_c rev2_dev_section_start_reserved rev2_dev_crc len m.

(** [ASSERT(ret == NORFLASH_API_OK, ...)]. *)
Definition assert_ok {A} (r : NORFLASH_API_RET_T * A) : option A :=
  match r with (NORFLASH_API_OK, x) => Some x | _ => None end.

Definition store_section (m : list Z) (s : fs_state) : option fs_state :=
  if RAM_NV_RECORD then Some (with_flash m s)
  else
    m1 ← assert_ok (factory_erase (fs_flash s));
    m2 ← assert_ok (factory_write m m1);
    Some (with_flash m2 s).

(** The common body of the four setters: copy the sector, change the copy, take its CRC (over the
    length read from the sector or from the copy), store it. *)
Definition rewrite_section (from_copy : bool) (change : list Z -> option (list Z)) (s : fs_state) : option (Z * fs_state) :=
  if factory_section_p s then
    m1 ← change (fs_flash s);
    m2 ← seal_section (fs_v1 s) (word_at (if from_copy then m1 else fs_flash s) rev2_dev_data_len) m1;
    s' ← store_section m2 s;
    Some (0, s')
  else Some (-1, s).

Definition factory_section_set_bt_address (btAddr : list Z) (s : fs_state) : option (Z * fs_state) :=
  rewrite_section false (fun m => b ← argument_bytes 6 btAddr; memcpy (4 * (if fs_v1 s then dev_bt_addr else rev2_dev_bt_addr)) b m) s.

Definition factory_section_set_ble_address (bleAddr : list Z) (s : fs_state) : option (Z * fs_state) :=
  rewrite_section false (fun m => b ← argument_bytes 6 bleAddr; memcpy (4 * (if fs_v1 s then dev_ble_addr else rev2_dev_ble_addr)) b m) s.

Definition factory_section_set_bt_name (name : list Z) (len : Z) (s : fs_state) : option (Z * fs_state) :=
  rewrite_section true (fun m => b ← argument_bytes len name; memcpy (4 * (if fs_v1 s then dev_name else rev2_dev_name)) b m) s.

Definition factory_section_xtal_fcap_set (xtal_fcap : Z) (s : fs_state) : option (Z * fs_state) :=
  rewrite_section false (put_word (if fs_v1 s then dev_xtal_fcap else rev2_dev_xtal_fcap) (u32 xtal_fcap)) s.

(** ** Opening *)
(** What opening takes the CRC of in the first layout: to the end of that layout. *)
Definition OPEN_CRC_LEN : Z := sizeof_factory_section - 2 - 2 - 4 - (5 + 63 + 2 + 2 + 2 + 1 + 8) * 4.

Definition take_addrs (w1 w2 : nat) (s : fs_state) : fs_state :=
  with_addrs (slice (4 * w1) 6 (fs_flash s)) (slice (4 * w2) 6 (fs_flash s)) s.

Definition open_v1 (s : fs_state) : option (Z * fs_state) :=
  c ← crc_region crc32_c (fs_flash s) dev_reserv1 OPEN_CRC_LEN;
  Some (if word_at (fs_flash s) dev_crc =? c then (0, take_addrs dev_bt_addr dev_ble_addr s) else (-1, with_p false s)).

(** A length that is refused leaves the pointer set. *)
Definition open_v2 (s : fs_state) : option (Z * fs_state) :=
  let len := word_at (fs_flash s) rev2_dev_data_len in
  if u32 (4 * Z.of_nat rev2_dev_section_start_reserved + len) >? 4096 then Some (-1, s)
  else
    c ← crc_region crc32_c (fs_flash s) rev2_dev_section_start_reserved len;
    Some (if word_at (fs_flash s) rev2_dev_crc =? c then (0, take_addrs rev2_dev_bt_addr rev2_dev_ble_addr s) else (-1, with_p false s)).

Definition factory_section_open (s : fs_state) : option (Z * fs_state) :=
  let s0 := with_p true s in
  if RAM_NV_RECORD then
    '(_, s1) ← factory_section_set_bt_address (bt_global_addr s0) s0;
    '(_, s2) ← factory_section_set_ble_address (ble_global_addr s1) s1;
    Some (0, s2)
  else
    let magic := Z.land (word_at (fs_flash s) dev_version_and_magic) 0xFFFF in
    let version := Z.shiftr (word_at (fs_flash s) dev_version_and_magic) 16 in
    if negb (magic =? nvrec_dev_magic) then Some (-1, with_p false s0)
    else if (version <? nvrec_mini_version) || (version >? nvrec_current_version) then Some (-1, with_p false s0)
    else
      let s1 := with_rev (u8 version) s0 in
      if fs_v1 s1 then open_v1 s1 else open_v2 s1.

(** ** Reading: a pointer is a position in the sector *)
Definition section_place (w1 w2 : nat) (s : fs_state) : option nat :=
  if factory_section_p s then Some (4 * (if fs_v1 s then w1 else w2))%nat else None.

Definition factory_section_get_bt_address : fs_state -> option nat := section_place dev_bt_addr rev2_dev_bt_addr.
Definition factory_section_get_ble_address : fs_state -> option nat := section_place dev_ble_addr rev2_dev_ble_addr.
Definition factory_section_get_default_peer_bt_address : fs_state -> option nat := section_place dev_dongle_addr rev2_dev_dongle_addr.

Definition factory_section_get_default_bt_nv_role (s : fs_state) : Z :=
  if factory_section_p s && negb (fs_v1 s) then
    let role := nth (4 * rev2_dev_dongle_addr + 7) (fs_flash s) 0 in
    if negb (role =? NV_ROLE_IBRT_MASTER) && negb (role =? NV_ROLE_IBRT_SLAVE) then NV_ROLE_IBRT_UNKNOWN else role
  else NV_ROLE_IBRT_UNKNOWN.

Definition factory_section_get_bt_name (s : fs_state) : name_ptr :=
  match section_place dev_name rev2_dev_name s with Some p => InSector p | None => Literal BT_LOCAL_NAME end.

Definition factory_section_get_ble_name (s : fs_state) : name_ptr :=
  if factory_section_p s && negb (fs_v1 s) then InSector (4 * rev2_dev_ble_name) else Literal BLE_DEFAULT_NAME.

Definition factory_section_get_version (s : fs_state) : Z := if factory_section_p s then fs_rev s else 0.

(** The answer and what is stored through the pointer. *)
Definition factory_section_xtal_fcap_get (s : fs_state) : Z * option Z :=
  match DEFAULT_XTAL_FCAP with
  | Some d => (d, None)
  | None =>
      if factory_section_p s then (0, Some (word_at (fs_flash s) (if fs_v1 s then dev_xtal_fcap else rev2_dev_xtal_fcap)))
      else (-1, None)
  end.

Definition factory_section_original_btaddr_get (s : fs_state) : list Z :=
  match section_place dev_bt_addr rev2_dev_bt_addr s with
  | Some p => slice p 6 (fs_flash s)
  | None => bt_global_addr s
  end.
End Operations.

(** ** What the sector holds, and the sets as changes of it *)
Record identity := mkIdentity {
  id_bt : list Z; id_ble : list Z; id_name : list Z; id_xtal : Z; id_peer : list Z; id_role : Z; id_ble_name : name_ptr * list Z }.

Inductive fs_set := SetBt (a : list Z) | SetBle (a : list Z) | SetName (n : list Z) | SetXtal (v : Z).

Definition NAME_FIELD : nat := 252.

(** What the callers keep to. *)
Definition set_fits (c : fs_set) : Prop :=
  match c with SetBt a | SetBle a => length a = 6%nat | SetName n => (length n <= NAME_FIELD)%nat | SetXtal v => 0 <= v < 2 ^ 32 end.

Definition id_set (i : identity) (c : fs_set) : identity :=
  match c with
  | SetBt a => mkIdentity a (id_ble i) (id_name i) (id_xtal i) (id_peer i) (id_role i) (id_ble_name i)
  | SetBle a => mkIdentity (id_bt i) a (id_name i) (id_xtal i) (id_peer i) (id_role i) (id_ble_name i)
  | SetName n => mkIdentity (id_bt i) (id_ble i) (n ++ drop (length n) (id_name i)) (id_xtal i) (id_peer i) (id_role i) (id_ble_name i)
  | SetXtal v => mkIdentity (id_bt i) (id_ble i) (id_name i) v (id_peer i) (id_role i) (id_ble_name i)
  end.

(** The module's variables after a start. *)
Definition restart (a b : list Z) (s : fs_state) : fs_state := mkFs (fs_flash s) false nvrec_current_version a b.

Section Runs.
Context `{FactoryFlash}.
Variable crc32_c : list Z -> Z.
Variables BT_LOCAL_NAME BLE_DEFAULT_NAME : list Z.

Definition fs_step (c : fs_set) : fs_state -> option (Z * fs_state) :=
  match c with
  | SetBt a => factory_section_set_bt_address crc32_c false a
  | SetBle a => factory_section_set_ble_address crc32_c false a
  | SetName n => factory_section_set_bt_name crc32_c false n (Z.of_nat (length n))
  | SetXtal v => factory_section_xtal_fcap_set crc32_c false v
  end.

(** The answers of a run of sets. *)
Fixpoint fs_run (l : list fs_set) (s : fs_state) : option (list Z * fs_state) :=
  match l with
  | [] => Some ([], s)
  | c :: l' => '(r, s1) ← fs_step c s; '(rs, s2) ← fs_run l' s1; Some (r :: rs, s2)
  end.

(** Through the getters; [None] when one of them answers a null pointer. *)
Definition read_name (n : nat) (p : name_ptr) (s : fs_state) : list Z :=
  match p with InSector pos => slice pos n (fs_flash s) | Literal l => l end.

Definition read_identity (s : fs_state) : option identity :=
  a ← factory_section_get_bt_address s;
  b ← factory_section_get_ble_address s;
  p ← factory_section_get_default_peer_bt_address s;
  x ← snd (factory_section_xtal_fcap_get None s);
  let n := factory_section_get_ble_name BLE_DEFAULT_NAME s in
  Some (mkIdentity (slice a 6 (fs_flash s)) (slice b 6 (fs_flash s))
          (read_name NAME_FIELD (factory_section_get_bt_name BT_LOCAL_NAME s) s) x (slice p 6 (fs_flash s))
          (factory_section_get_default_bt_nv_role s) (n, read_name BLE_NAME_LEN_IN_NV n s)).
End Runs.

(** The setters' buffer lies in the last 12 KiB of a pool of at least that size. *)
Lemma tmp_buf_in_pool start size : 0 <= start -> 0x3000 <= size -> start + size <= 2 ^ 32 - 4096 ->
  start + size - 0x3000 <= tmp_buf start size /\ tmp_buf start size + Z.of_nat FACTORY_SECTOR_SIZE <= start + size.
Proof.
  intros H1 H2 H3. unfold tmp_buf. change (Z.of_nat FACTORY_SECTOR_SIZE) with 4096. change (2 ^ 32) with 4294967296 in *.
  rewrite (u32_small (_ - 1)) by (change (2 ^ 32) with 4294967296; lia).
  pose proof (Z.div_mod (start + size - 0x3000 + 4096 - 1) 4096 ltac:(lia)).
  pose proof (Z.mod_pos_bound (start + size - 0x3000 + 4096 - 1) 4096 ltac:(lia)).
  rewrite u32_small by (change (2 ^ 32) with 4294967296; lia). lia.
Qed.

(** ** Lemmas on memory *)
Lemma argument_all b : argument_bytes (Z.of_nat (length b)) b = Some b.
Proof.
  unfold argument_bytes. destruct (Z.leb_spec 0 (Z.of_nat (length b))); [|lia]. rewrite Z.leb_refl. cbn [andb].
  by rewrite Nat2Z.id, firstn_all.
Qed.

(** A field overwritten from its first byte. *)
Lemma memcpy_field pos b m m' n : memcpy pos b m = Some m' -> (length b <= n)%nat ->
  slice pos n m' = b ++ drop (length b) (slice pos n m).
Proof.
  unfold memcpy. destruct (Nat.leb_spec (pos + length b) (length m)) as [Hl|]; [|done]. intros [= <-] Hb. unfold slice.
  assert (Hp : length (take pos m) = pos) by (rewrite length_take; lia).
  rewrite drop_app_length' by done.
  rewrite take_app_ge by lia. f_equal.
  by rewrite skipn_firstn_comm, drop_drop.
Qed.

Lemma memcpy_field_all pos b m m' : memcpy pos b m = Some m' -> slice pos (length b) m' = b.
Proof.
  intros Hm. rewrite (memcpy_field _ _ _ _ (length b) Hm) by lia.
  rewrite drop_ge by (unfold slice; rewrite length_take; lia). by rewrite app_nil_r.
Qed.

Lemma slice_nth p n m m' i : slice p n m' = slice p n m -> length m' = length m -> (p <= i < p + n)%nat -> nth i m' 0 = nth i m 0.
Proof.
  intros E Hl Hi. destruct (decide (i < length m)%nat); [|rewrite !nth_overflow by lia; done].
  assert (Hk : forall x, (i < length x)%nat -> slice p n x !! (i - p)%nat = Some (nth i x 0)).
  { intros x Hx. unfold slice. rewrite lookup_take_lt, lookup_drop by lia. replace (p + (i - p))%nat with i by lia. by apply lookup_nth. }
  pose proof (Hk m ltac:(lia)) as H1. pose proof (Hk m' ltac:(lia)) as H2. rewrite E in H2. congruence.
Qed.

Lemma slice_word p n m m' i : slice p n m' = slice p n m -> length m' = length m -> (p <= 4 * i)%nat -> (4 * i + 4 <= p + n)%nat ->
  word_at m' i = word_at m i.
Proof. intros E Hl H1 H2. apply word_at_ext. intros k Hk. apply (slice_nth p n); [done..|lia]. Qed.

(** The identity as the bytes of a layout. *)
Definition role_of (v1 : bool) (m : list Z) : Z :=
  let role := nth (4 * rev2_dev_dongle_addr + 7) m 0 in
  if v1 || negb (role =? NV_ROLE_IBRT_MASTER) && negb (role =? NV_ROLE_IBRT_SLAVE) then NV_ROLE_IBRT_UNKNOWN else role.

Definition id_of (BLE_DEFAULT_NAME : list Z) (v1 : bool) (m : list Z) : identity :=
  let n := if v1 then Literal BLE_DEFAULT_NAME else InSector (4 * rev2_dev_ble_name) in
  mkIdentity (slice (4 * (if v1 then dev_bt_addr else rev2_dev_bt_addr)) 6 m)
    (slice (4 * (if v1 then dev_ble_addr else rev2_dev_ble_addr)) 6 m)
    (slice (4 * (if v1 then dev_name else rev2_dev_name)) NAME_FIELD m)
    (word_at m (if v1 then dev_xtal_fcap else rev2_dev_xtal_fcap))
    (slice (4 * (if v1 then dev_dongle_addr else rev2_dev_dongle_addr)) 6 m)
    (role_of v1 m)
    (n, if v1 then BLE_DEFAULT_NAME else slice (4 * rev2_dev_ble_name) BLE_NAME_LEN_IN_NV m).

(** The place and the bytes of a set. *)
Definition set_pos (v1 : bool) (c : fs_set) : nat :=
  4 * match c with
      | SetBt _ => if v1 then dev_bt_addr else rev2_dev_bt_addr
      | SetBle _ => if v1 then dev_ble_addr else rev2_dev_ble_addr
      | SetName _ => if v1 then dev_name else rev2_dev_name
      | SetXtal _ => if v1 then dev_xtal_fcap else rev2_dev_xtal_fcap
      end.
Definition set_bytes (c : fs_set) : list Z :=
  match c with SetBt a | SetBle a => a | SetName n => n | SetXtal v => word_le v end.

Ltac words := unfold NAME_FIELD, BLE_NAME_LEN_IN_NV, dev_crc, dev_reserv1, dev_name, dev_bt_addr, dev_ble_addr, dev_dongle_addr,
  dev_xtal_fcap, rev2_dev_data_len, rev2_dev_crc, rev2_dev_section_start_reserved, rev2_dev_name, rev2_dev_bt_addr, rev2_dev_ble_addr,
  rev2_dev_dongle_addr, rev2_dev_xtal_fcap, rev2_dev_ble_name in *.

Lemma role_ext v1 m m' : (v1 = false -> nth (4 * rev2_dev_dongle_addr + 7) m' 0 = nth (4 * rev2_dev_dongle_addr + 7) m 0) ->
  role_of v1 m' = role_of v1 m.
Proof. unfold role_of. destruct v1; [done|]. intros E. by rewrite E by done. Qed.

Lemma memcpy_nth pos b m m' i : memcpy pos b m = Some m' -> (i < pos \/ pos + length b <= i)%nat -> nth i m' 0 = nth i m 0.
Proof. intros H Hi. apply memcpy_spec in H as (_ & _ & H). rewrite H. by rewrite decide_False by lia. Qed.

(** Bytes away from every field leave the identity. *)
Lemma id_of_frame D (v1 : bool) m m' pos b : memcpy pos b m = Some m' -> (pos + length b <= 4 * (if v1 then dev_name else rev2_dev_name))%nat ->
  id_of D v1 m' = id_of D v1 m.
Proof.
  intros Hm Hp. unfold id_of. rewrite (role_ext v1 m m').
  2: { intros ->. apply (memcpy_nth _ _ _ _ _ Hm). words. lia. }
  rewrite (memcpy_word _ _ _ _ (if v1 then dev_xtal_fcap else rev2_dev_xtal_fcap) Hm) by (destruct v1; words; lia).
  f_equal; try (apply (memcpy_slice _ _ _ _ _ _ Hm); destruct v1; words; lia).
  f_equal. destruct v1; [done|]. apply (memcpy_slice _ _ _ _ _ _ Hm). words. lia.
Qed.

Lemma word_le_at i v m m' : memcpy (4 * i) (word_le v) m = Some m' -> 0 <= v < 2 ^ 32 -> word_at m' i = v.
Proof. intros Hm Hv. by apply (put_word_spec i v m m' Hm Hv). Qed.

Lemma id_of_set D v1 m m' c : set_fits c -> memcpy (set_pos v1 c) (set_bytes c) m = Some m' ->
  id_of D v1 m' = id_set (id_of D v1 m) c.
Proof.
  intros Hf Hm. assert (Hn : role_of v1 m' = role_of v1 m).
  { apply role_ext. intros ->. apply (memcpy_nth _ _ _ _ _ Hm). destruct c; cbn in *; words; lia. }
  unfold id_of. rewrite Hn. destruct c as [a | a | n | v]; unfold set_pos in Hm; cbn [set_fits set_bytes] in *; unfold id_set;
    cbn [id_bt id_ble id_name id_xtal id_peer id_role id_ble_name];
    f_equal; try (apply (memcpy_slice _ _ _ _ _ _ Hm); destruct v1; words; cbn [length word_le]; lia);
    try (apply (memcpy_word _ _ _ _ _ Hm); destruct v1; words; lia);
    try (f_equal; destruct v1; [done|]; apply (memcpy_slice _ _ _ _ _ _ Hm); words; cbn [length word_le]; lia).
  - rewrite <- Hf. by apply (memcpy_field_all _ _ m).
  - rewrite <- Hf. by apply (memcpy_field_all _ _ m).
  - by apply memcpy_field.
  - by apply (word_le_at _ v m).
Qed.

(** ** A section that has been opened *)
Record opened_section (s : fs_state) : Prop := {
  op_p : factory_section_p s = true;
  op_length : length (fs_flash s) = FACTORY_SECTOR_SIZE;
  op_rev : fs_rev s = 1 \/ fs_rev s = 2;
  op_header : header_ok (fs_flash s) (fs_rev s);
  op_len : length_ok (fs_v1 s) (fs_flash s) }.

Lemma opened_v2 s : opened_section s -> fs_v1 s = false -> fs_rev s = 2.
Proof. intros Ho H. unfold fs_v1 in H. destruct (op_rev _ Ho) as [E|]; [by rewrite E in H | done]. Qed.

Lemma opened_v1 s : fs_v1 s = true -> fs_rev s = 1.
Proof. apply Z.eqb_eq. Qed.

Lemma SET_CRC_LEN_value : SET_CRC_LEN = 620.
Proof. reflexivity. Qed.

Lemma OPEN_CRC_LEN_value : OPEN_CRC_LEN = 288.
Proof. reflexivity. Qed.

Section Laws.
Context `{FactoryFlashSpec}.
Variable crc32_c : list Z -> Z.
Variables BT_LOCAL_NAME BLE_DEFAULT_NAME : list Z.
Context (Hcrc : forall b, 0 <= crc32_c b < 2 ^ 32).

Lemma read_identity_of s : factory_section_p s = true ->
  read_identity BT_LOCAL_NAME BLE_DEFAULT_NAME s = Some (id_of BLE_DEFAULT_NAME (fs_v1 s) (fs_flash s)).
Proof.
  intros Hp. unfold read_identity, factory_section_get_bt_address, factory_section_get_ble_address, factory_section_get_default_peer_bt_address,
    factory_section_get_bt_name, factory_section_get_ble_name, factory_section_get_default_bt_nv_role, section_place, factory_section_xtal_fcap_get, id_of, role_of.
  rewrite Hp. cbn. by destruct (fs_v1 s).
Qed.

(** The CRC a setter leaves. *)
Definition seal_start (v1 : bool) : nat := if v1 then dev_reserv1 else rev2_dev_section_start_reserved.
Definition seal_word (v1 : bool) : nat := if v1 then dev_crc else rev2_dev_crc.
Definition seal_len (v1 : bool) (m : list Z) : Z := if v1 then SET_CRC_LEN else word_at m rev2_dev_data_len.
Definition sealed (v1 : bool) (m : list Z) : Prop :=
  crc_region crc32_c m (seal_start v1) (seal_len v1 m) = Some (word_at m (seal_word v1)).

(** The bytes that a run of sets leaves: not in a field that is set, nor in the stored CRC. *)
Definition outside (v1 : bool) (l : list fs_set) (i : nat) : Prop :=
  ~ (4 * seal_word v1 <= i < 4 * seal_word v1 + 4)%nat /\ Forall (fun c => ~ (set_pos v1 c <= i < set_pos v1 c + length (set_bytes c))%nat) l.

Lemma outside_cons v1 c l i : outside v1 (c :: l) i -> outside v1 [c] i /\ outside v1 l i.
Proof. intros [H1 [H2 H3]%Forall_cons_1]. split; split; [done | by repeat constructor | done..]. Qed.

Lemma seal_as v1 len m : seal_section crc32_c v1 len m = store_crc crc32_c (seal_start v1) (seal_word v1) (if v1 then SET_CRC_LEN else len) m.
Proof. by destruct v1. Qed.

Lemma seal_len_range v1 m : length_ok v1 m -> 0 <= seal_len v1 m <= 4096 - Z.of_nat (4 * seal_start v1).
Proof.
  unfold seal_len, seal_start. destruct v1; [intros _; by vm_compute|]. by intros [|].
Qed.

Lemma seal_word_below v1 : (seal_word v1 < seal_start v1)%nat.
Proof. destruct v1; vm_compute; lia. Qed.

Lemma store_section_ok m s : length m = FACTORY_SECTOR_SIZE -> length (fs_flash s) = FACTORY_SECTOR_SIZE ->
  store_section false m s = Some (with_flash m s).
Proof. intros Hm Hs. unfold store_section. rewrite erase_ok by done. cbn. rewrite write_ok by done. done. Qed.

(** A change of the fields, then its CRC. *)
Lemma rewrite_spec from_copy pos b change s : opened_section s ->
  (4 * (if fs_v1 s then dev_name else rev2_dev_name) <= pos)%nat -> (pos + length b <= FACTORY_SECTOR_SIZE)%nat ->
  change (fs_flash s) = memcpy pos b (fs_flash s) ->
  exists m1 m2 c, memcpy pos b (fs_flash s) = Some m1 /\ memcpy (4 * seal_word (fs_v1 s)) (word_le c) m1 = Some m2 /\
    rewrite_section crc32_c false from_copy change s = Some (0, with_flash m2 s) /\
    opened_section (with_flash m2 s) /\ sealed (fs_v1 s) m2.
Proof.
  intros [Hp Hl Hr Hh Hlen] Hlo Hhi Hc. destruct (memcpy_ok pos b (fs_flash s)) as [m1 H1]; [by rewrite Hl|].
  destruct (memcpy_spec _ _ _ _ H1) as (L1 & _ & _).
  assert (D1 : word_at m1 rev2_dev_data_len = word_at (fs_flash s) rev2_dev_data_len \/ fs_v1 s = true).
  { destruct (fs_v1 s); [by right|]. left. apply (memcpy_word _ _ _ _ _ H1). words. lia. }
  assert (Hlen1 : length_ok (fs_v1 s) m1) by (destruct Hlen as [|Hlen]; [by left|]; destruct D1 as [D1|]; [right; by rewrite D1 | by left]).
  pose proof (seal_len_range _ _ Hlen1) as Hrange.
  destruct (crc_sector crc32_c (seal_start (fs_v1 s)) (seal_word (fs_v1 s)) (seal_len (fs_v1 s) m1) m1 (seal_word_below _)) as [m2 H2];
    [by rewrite L1 | done|].
  destruct (store_crc_spec crc32_c Hcrc _ _ _ _ _ H2 (seal_word_below _)) as (L2 & C2 & W2); [lia|].
  assert (Hw : forall j, j <> seal_word (fs_v1 s) -> word_at m2 j = word_at m1 j) by exact W2.
  assert (Hs : seal_len (fs_v1 s) m2 = seal_len (fs_v1 s) m1).
  { unfold seal_len. destruct (fs_v1 s); [done|]. apply Hw. vm_compute. lia. }
  assert (Hput : exists c, memcpy (4 * seal_word (fs_v1 s)) (word_le c) m1 = Some m2).
  { unfold store_crc in H2. apply bind_Some in H2 as (c & _ & H2). by exists c. }
  destruct Hput as [c Hput]. exists m1, m2, c. split; [done|]. split; [done|]. split; [|split].
  - unfold rewrite_section. rewrite Hp, Hc, H1. cbn [mbind option_bind]. rewrite seal_as.
    replace (if fs_v1 s then SET_CRC_LEN else word_at (if from_copy then m1 else fs_flash s) rev2_dev_data_len) with (seal_len (fs_v1 s) m1).
    + rewrite H2. cbn [mbind option_bind]. rewrite store_section_ok; [done | by rewrite L2, L1 | done].
    + unfold seal_len. destruct (fs_v1 s); [done|]. destruct from_copy; [done|]. by destruct D1.
  - split; [done | cbn; by rewrite L2, L1 | done | |].
    + cbn. apply (memcpy_header _ _ _ _ _ Hput); [destruct (fs_v1 s); vm_compute; lia|].
      apply (memcpy_header _ _ _ _ _ H1); [destruct (fs_v1 s); words; lia | done].
    + change (fs_v1 (with_flash m2 s)) with (fs_v1 s). cbn [fs_flash with_flash]. destruct (fs_v1 s) eqn:E; [by left|].
      right. destruct Hlen1 as [|Hlen1]; [done|]. rewrite Hw by (vm_compute; lia). done.
  - unfold sealed. rewrite Hs. exact C2.
Qed.

(** One set, and a run of them. *)
Lemma step_spec c s : opened_section s -> set_fits c ->
  exists m, fs_step crc32_c c s = Some (0, with_flash m s) /\ opened_section (with_flash m s) /\ sealed (fs_v1 s) m /\
    id_of BLE_DEFAULT_NAME (fs_v1 s) m = id_set (id_of BLE_DEFAULT_NAME (fs_v1 s) (fs_flash s)) c /\
    forall i, outside (fs_v1 s) [c] i -> nth i m 0 = nth i (fs_flash s) 0.
Proof.
  intros Ho Hf.
  assert (Hlo : (4 * (if fs_v1 s then dev_name else rev2_dev_name) <= set_pos (fs_v1 s) c)%nat) by (unfold set_pos; destruct c, (fs_v1 s); words; lia).
  assert (Hhi : (set_pos (fs_v1 s) c + length (set_bytes c) <= FACTORY_SECTOR_SIZE)%nat)
    by (rewrite sector_size; unfold set_pos; destruct c, (fs_v1 s); cbn [set_fits set_bytes length word_le] in *; words; lia).
  assert (Hstep : exists from_copy change, fs_step crc32_c c s = rewrite_section crc32_c false from_copy change s /\
    change (fs_flash s) = memcpy (set_pos (fs_v1 s) c) (set_bytes c) (fs_flash s)).
  { destruct c as [a | a | n | v]; cbn [set_fits] in Hf; eexists _, _; (split; [reflexivity|]); cbv beta; unfold set_pos;
      [replace 6 with (Z.of_nat (length a)) by lia | replace 6 with (Z.of_nat (length a)) by lia | |]; try by rewrite argument_all.
    by rewrite u32_small. }
  destruct Hstep as (fc & change & -> & Hc).
  destruct (rewrite_spec fc _ _ change s Ho Hlo Hhi Hc) as (m1 & m2 & x & H1 & H2 & Hr & Ho2 & Hs).
  exists m2. split; [done|]. split; [done|]. split; [done|]. split.
  2: { intros i [Hi Hj%List.Forall_inv]. rewrite (memcpy_nth _ _ _ _ i H2) by (cbn [length word_le]; lia). apply (memcpy_nth _ _ _ _ i H1). lia. }
  rewrite (id_of_frame _ _ _ _ _ _ H2) by (destruct (fs_v1 s); cbn [length word_le seal_word]; words; lia).
  by apply id_of_set.
Qed.

Lemma run_spec l : forall s, opened_section s -> Forall set_fits l ->
  exists m, fs_run crc32_c l s = Some (replicate (length l) 0, with_flash m s) /\ opened_section (with_flash m s) /\
    (l <> [] \/ sealed (fs_v1 s) (fs_flash s) -> sealed (fs_v1 s) m) /\
    id_of BLE_DEFAULT_NAME (fs_v1 s) m = fold_left id_set l (id_of BLE_DEFAULT_NAME (fs_v1 s) (fs_flash s)) /\
    forall i, outside (fs_v1 s) l i -> nth i m 0 = nth i (fs_flash s) 0.
Proof.
  induction l as [|c l IH]; intros s Ho Hl.
  - exists (fs_flash s). replace (with_flash (fs_flash s) s) with s by (by destruct s). split; [done|]. split; [done|]. split; [|split; [done|done]]. by intros [|].
  - apply Forall_cons_1 in Hl as [Hc Hl]. destruct (step_spec c s Ho Hc) as (m1 & H1 & Ho1 & Hs1 & Hi1 & Hf1).
    destruct (IH _ Ho1 Hl) as (m & Hr & Hom & Hsm & Him & Hfm). exists m. cbn [fs_run]. rewrite H1. cbn. rewrite Hr. split; [done|].
    split; [done|]. split; [intros _; apply Hsm; by right|]. split; [by rewrite <- Hi1|].
    intros i [Hi1' Hi2]%outside_cons. transitivity (nth i m1 0); [by apply Hfm | by apply Hf1].
Qed.

(** ** Opening *)
Lemma open_unfold s rev : header_ok (fs_flash s) rev -> rev = 1 \/ rev = 2 ->
  factory_section_open crc32_c false s =
    (if rev =? 1 then open_v1 crc32_c else open_v2 crc32_c) (with_rev rev (with_p true s)).
Proof. intros [H1 H2] Hr. unfold factory_section_open. rewrite H1, H2. by destruct Hr as [-> | ->]. Qed.

Lemma open_v1_as s : length (fs_flash s) = FACTORY_SECTOR_SIZE ->
  open_v1 crc32_c s = Some (if word_at (fs_flash s) dev_crc =? crc32_c (slice (4 * dev_reserv1) 288 (fs_flash s))
    then (0, take_addrs dev_bt_addr dev_ble_addr s) else (-1, with_p false s)).
Proof. intros Hl. unfold open_v1, crc_region. rewrite Hl, sector_size, OPEN_CRC_LEN_value. done. Qed.

Lemma open_v2_as s : length_ok false (fs_flash s) ->
  open_v2 crc32_c s = c ← crc_region crc32_c (fs_flash s) rev2_dev_section_start_reserved (word_at (fs_flash s) rev2_dev_data_len);
    Some (if word_at (fs_flash s) rev2_dev_crc =? c then (0, take_addrs rev2_dev_bt_addr rev2_dev_ble_addr s) else (-1, with_p false s)).
Proof.
  intros [|Hd]; [done|]. unfold open_v2. unfold rev2_dev_section_start_reserved in *.
  change (Z.of_nat (4 * 77)) with 308 in Hd. change (4 * Z.of_nat 77) with 308. rewrite u32_small by lia.
  destruct (Z.gtb_spec (308 + word_at (fs_flash s) rev2_dev_data_len) 4096); [lia | done].
Qed.

(** An answer 0 establishes an opened section; in the second layout, the CRC of the setters. *)
Lemma factory_opened s0 s : Forall (is_u 8) (fs_flash s0) -> length (fs_flash s0) = FACTORY_SECTOR_SIZE ->
  factory_section_open crc32_c false s0 = Some (0, s) ->
  opened_section s /\ fs_flash s = fs_flash s0 /\ (fs_v1 s = false -> sealed false (fs_flash s)).
Proof.
  intros Hb Hl Ho. unfold factory_section_open in Ho. destruct (_ =? _) eqn:E1 in Ho; [|done]. cbn [negb] in Ho. apply Z.eqb_eq in E1.
  destruct (_ || _) eqn:E2 in Ho; [done|]. apply orb_false_iff in E2 as [E2 E3]. unfold nvrec_mini_version, nvrec_current_version in *.
  apply Z.ltb_ge in E2. rewrite Z.gtb_ltb in E3. apply Z.ltb_ge in E3.
  set (rev := Z.shiftr (word_at (fs_flash s0) dev_version_and_magic) 16) in *.
  rewrite u8_small in Ho by (change (2 ^ 8) with 256; lia). assert (Hh : header_ok (fs_flash s0) rev) by done.
  assert (Hrev : rev = 1 \/ rev = 2) by lia. destruct (fs_v1 _) eqn:Hv in Ho.
  - assert (rev = 1) as Er by (by apply Z.eqb_eq in Hv). rewrite open_v1_as in Ho by done. destruct (_ =? _); [|done]. injection Ho as <-. split; [|split; [done|]].
    + split; cbn; [done | done | done | done | left; exact Hv].
    + unfold fs_v1. cbn. by rewrite Er.
  - unfold open_v2 in Ho. cbn [fs_flash with_rev with_p] in Ho.
    assert (Hv' : (rev =? 1) = false) by exact Hv.
    pose proof (word_at_range (fs_flash s0) rev2_dev_data_len Hb) as Hw.
    destruct (Z.gtb_spec (u32 (4 * Z.of_nat rev2_dev_section_start_reserved + word_at (fs_flash s0) rev2_dev_data_len)) 4096) as [|Hgt]; [done|].
    apply bind_Some in Ho as (c & Hc & Ho). destruct (Z.eqb_spec (word_at (fs_flash s0) rev2_dev_crc) c) as [Ec|]; [|done]. injection Ho as <-.
    split; [|split; [done|]].
    + split; cbn; [done | done | done | done | right].
      unfold crc_region in Hc. rewrite Hl, sector_size in Hc. destruct (Z.leb_spec (Z.of_nat (4 * rev2_dev_section_start_reserved) + word_at (fs_flash s0) rev2_dev_data_len) (Z.of_nat 4096)); [lia | done].
    + intros _. cbn. unfold sealed. cbn. by rewrite Ec.
Qed.
End Laws.

(** ** Properties *)
(** *** Concrete sections, for the witnesses *)
(** A part that works, a checksum that counts the bytes, and sectors programmed by [NvDev] over the
    bytes of an erased pool. *)
#[export] Instance ideal_flash : FactoryFlash := {
  factory_erase _ := (NORFLASH_API_OK, erased_sector);
  factory_write m c := (NORFLASH_API_OK, m ++ drop (length m) c) }.

#[export] Instance ideal_flash_spec : FactoryFlashSpec.
Proof. split; [done|]. intros m Hm. cbn. rewrite drop_ge by (unfold erased_sector; rewrite length_replicate, Hm; lia). by rewrite app_nil_r. Qed.

Definition programmed_sector (rev : Z) : list Z :=
  match nvrec_dev_set_xtal_fcap sum_crc (fun x => x) (fun x => x) erased_sector 0x70 5 9 (blank rev) with
  | Some d => factory d
  | None => []
  end.
Definition before_open (m : list Z) : fs_state := mkFs m false 2 (replicate 6 1) (replicate 6 2).
Definition section_of (m : list Z) : fs_state :=
  match factory_section_open sum_crc false (before_open m) with Some (_, s) => s | None => before_open [] end.
Definition answer_of {A} (o : option (Z * A)) : option Z := fst <$> o.

Lemma section_opens m : answer_of (factory_section_open sum_crc false (before_open m)) = Some 0 ->
  factory_section_open sum_crc false (before_open m) = Some (0, section_of m).
Proof. unfold section_of. by destruct (factory_section_open sum_crc false (before_open m)) as [[r s]|]; [intros [= ->]|]. Qed.

Definition demo_sets : list fs_set := [SetBt [1; 2; 3; 4; 5; 6]; SetName [66; 69; 83; 0]; SetXtal 0x86].

Lemma demo_fits : Forall set_fits demo_sets.
Proof. repeat (apply List.Forall_cons; [cbn; unfold NAME_FIELD; first [reflexivity | lia]|]). constructor. Qed.

(** C33: Setting in the second layout. From a section opened in it, any sequence of sets whose arguments fit
    their fields answers 0 throughout; the getters then answer what the same changes make of the
    identity they answered before (addresses, name, trim; the peer's address, the role and the BLE name
    untouched); no byte of the sector changes but those of the fields set and the stored CRC; and after
    a restart the section opens and answers the same, with the target's addresses taken from it. For any
    CRC and any working flash. *)
Theorem factory_refines `{FactoryFlashSpec} crc32_c BT_LOCAL_NAME BLE_DEFAULT_NAME s0 s l a b :
  (forall x, 0 <= crc32_c x < 2 ^ 32) -> Forall (is_u 8) (fs_flash s0) -> length (fs_flash s0) = FACTORY_SECTOR_SIZE ->
  factory_section_open crc32_c false s0 = Some (0, s) -> fs_rev s = 2 -> Forall set_fits l ->
  exists i s1 s2, read_identity BT_LOCAL_NAME BLE_DEFAULT_NAME s = Some i /\
    fs_run crc32_c l s = Some (replicate (length l) 0, s1) /\
    read_identity BT_LOCAL_NAME BLE_DEFAULT_NAME s1 = Some (fold_left id_set l i) /\
    length (fs_flash s1) = FACTORY_SECTOR_SIZE /\ (forall k, outside false l k -> nth k (fs_flash s1) 0 = nth k (fs_flash s0) 0) /\
    factory_section_open crc32_c false (restart a b s1) = Some (0, s2) /\
    read_identity BT_LOCAL_NAME BLE_DEFAULT_NAME s2 = Some (fold_left id_set l i) /\
    bt_global_addr s2 = id_bt (fold_left id_set l i) /\ ble_global_addr s2 = id_ble (fold_left id_set l i).
Proof.
  intros Hcrc Hb Hl Hopen Hrev Hfit. destruct (factory_opened crc32_c s0 s Hb Hl Hopen) as (Ho & Hflash & Hs).
  assert (Hv : fs_v1 s = false) by (unfold fs_v1; by rewrite Hrev).
  destruct (run_spec crc32_c BLE_DEFAULT_NAME Hcrc l s Ho Hfit) as (m & Hrun & Hom & Hsm & Him & Hfr).
  assert (Hse : sealed crc32_c (fs_v1 s) m) by (apply Hsm; right; rewrite Hv; by apply Hs). rewrite Hv in *.
  eexists _, (with_flash m s), _. split; [by apply read_identity_of, op_p|]. rewrite Hv. split; [exact Hrun|]. rewrite <- Him.
  split; [rewrite read_identity_of by (by apply op_p); change (fs_v1 (with_flash m s)) with (fs_v1 s); by rewrite Hv|].
  pose proof (op_header _ Hom) as Hh. cbn [fs_flash with_flash fs_rev] in Hh. rewrite Hrev in Hh.
  pose proof (op_len _ Hom) as Hlen. change (fs_v1 (with_flash m s)) with (fs_v1 s) in Hlen. rewrite Hv in Hlen. cbn [fs_flash with_flash] in Hlen.
  split; [exact (op_length _ Hom)|]. split; [rewrite <- Hflash; exact Hfr|]. split.
  - rewrite (open_unfold crc32_c _ 2) by first [done | by right]. cbn [Z.eqb Pos.eqb]. rewrite open_v2_as by done. cbn [fs_flash with_rev with_p restart with_flash].
    unfold sealed in Hse. cbn [seal_start seal_len seal_word] in Hse. rewrite Hse. cbn [mbind option_bind]. rewrite Z.eqb_refl. reflexivity.
  - split; [by rewrite read_identity_of|]. done.
Qed.

Lemma factory_refines_witness : exists s1 s2,
  fs_run sum_crc demo_sets (section_of (programmed_sector 2)) = Some ([0; 0; 0], s1) /\
  factory_section_open sum_crc false (restart [] [] s1) = Some (0, s2) /\ bt_global_addr s2 = [1; 2; 3; 4; 5; 6].
Proof.
  destruct (factory_refines sum_crc [] [] (before_open (programmed_sector 2)) (section_of (programmed_sector 2)) demo_sets [] [])
    as (i & s1 & s2 & _ & Hr & _ & _ & _ & Ho & _ & Ha & _).
  - exact sum_crc_range.
  - apply bytes_check. vm_compute. reflexivity.
  - vm_compute. reflexivity.
  - apply section_opens. vm_compute. reflexivity.
  - vm_compute. reflexivity.
  - exact demo_fits.
  - exists s1, s2. split; [exact Hr|]. split; [exact Ho|]. exact Ha.
Defined.

(** C34: Setting in the first layout. The sets work until the next start: they answer 0 and the getters
    follow. But the setters take the CRC of 620 bytes, opening takes it of 288: after any set the next
    start opens the section exactly when the two agree, and otherwise has no identity. *)
Theorem factory_layout1 `{FactoryFlashSpec} crc32_c BT_LOCAL_NAME BLE_DEFAULT_NAME s0 s l a b :
  (forall x, 0 <= crc32_c x < 2 ^ 32) -> Forall (is_u 8) (fs_flash s0) -> length (fs_flash s0) = FACTORY_SECTOR_SIZE ->
  factory_section_open crc32_c false s0 = Some (0, s) -> fs_rev s = 1 -> Forall set_fits l -> l <> [] ->
  exists i s1 s2, read_identity BT_LOCAL_NAME BLE_DEFAULT_NAME s = Some i /\
    fs_run crc32_c l s = Some (replicate (length l) 0, s1) /\
    read_identity BT_LOCAL_NAME BLE_DEFAULT_NAME s1 = Some (fold_left id_set l i) /\
    let opens := crc32_c (slice 8 620 (fs_flash s1)) =? crc32_c (slice 8 288 (fs_flash s1)) in
    factory_section_open crc32_c false (restart a b s1) = Some (if opens then 0 else -1, s2) /\
    read_identity BT_LOCAL_NAME BLE_DEFAULT_NAME s2 = (if opens then Some (fold_left id_set l i) else None).
Proof.
  intros Hcrc Hb Hl Hopen Hrev Hfit Hne. destruct (factory_opened crc32_c s0 s Hb Hl Hopen) as (Ho & _ & _).
  assert (Hv : fs_v1 s = true) by (unfold fs_v1; by rewrite Hrev).
  destruct (run_spec crc32_c BLE_DEFAULT_NAME Hcrc l s Ho Hfit) as (m & Hrun & Hom & Hsm & Him & _).
  specialize (Hsm (or_introl Hne)). rewrite Hv in *.
  set (s1 := with_rev 1 (with_p true (restart a b (with_flash m s)))).
  eexists _, (with_flash m s), (if crc32_c (slice 8 620 m) =? crc32_c (slice 8 288 m) then take_addrs dev_bt_addr dev_ble_addr s1 else with_p false s1).
  split; [by apply read_identity_of, op_p|]. rewrite Hv. split; [exact Hrun|]. rewrite <- Him.
  split; [rewrite read_identity_of by (by apply op_p); change (fs_v1 (with_flash m s)) with (fs_v1 s); by rewrite Hv|].
  pose proof (op_header _ Hom) as Hh. cbn [fs_flash with_flash fs_rev] in Hh. rewrite Hrev in Hh.
  pose proof (op_length _ Hom) as Hlm. cbn [fs_flash with_flash] in Hlm.
  unfold sealed, crc_region in Hsm. cbn [seal_start seal_len seal_word] in Hsm. rewrite SET_CRC_LEN_value, Hlm in Hsm.
  injection Hsm as Hsm. cbv zeta. split.
  - rewrite (open_unfold crc32_c _ 1) by first [done | by left]. cbn [Z.eqb Pos.eqb]. rewrite open_v1_as by done. cbn [fs_flash with_rev with_p restart with_flash].
    rewrite <- Hsm. change (4 * dev_reserv1)%nat with 8%nat. change (Z.to_nat 620) with 620%nat.
    destruct (_ =? _); reflexivity.
  - cbn [fs_flash with_flash]. change (4 * dev_reserv1)%nat with 8%nat.
    destruct (_ =? _); [by rewrite read_identity_of | done].
Qed.

(** One set of the trim, and the next start refuses the section. *)
Lemma factory_layout1_witness : exists s1 s2,
  fs_run sum_crc [SetXtal 0x86] (section_of (programmed_sector 1)) = Some ([0], s1) /\
  factory_section_open sum_crc false (restart [] [] s1) = Some (-1, s2) /\ read_identity [] [] s2 = None.
Proof.
  destruct (factory_layout1 sum_crc [] [] (before_open (programmed_sector 1)) (section_of (programmed_sector 1)) [SetXtal 0x86] [] [])
    as (i & s1 & s2 & _ & Hr & _ & Ho).
  - exact sum_crc_range.
  - apply bytes_check. vm_compute. reflexivity.
  - vm_compute. reflexivity.
  - apply section_opens. vm_compute. reflexivity.
  - vm_compute. reflexivity.
  - apply List.Forall_cons; [cbn; lia | constructor].
  - discriminate.
  - exists s1, s2. split; [exact Hr|].
    assert (E : (sum_crc (slice 8 620 (fs_flash s1)) =? sum_crc (slice 8 288 (fs_flash s1))) = false).
    { assert (E1 : (fun p => sum_crc (slice 8 620 (fs_flash (snd p))) =? sum_crc (slice 8 288 (fs_flash (snd p)))) <$>
                     fs_run sum_crc [SetXtal 0x86] (section_of (programmed_sector 1)) = Some false) by (vm_compute; reflexivity).
      rewrite Hr in E1. by injection E1. }
    rewrite E in Ho. exact Ho.
Defined.

(** A name as the text it points to: to the first zero. *)
Definition name_string (m : list Z) (p : name_ptr) : option (list Z) :=
  match p with InSector pos => cstring (drop pos m) | Literal l => Some l end.

Lemma init_reads m v1 d dev ok dev1 d2 : dev_sector_valid d = true -> factory d = m -> is_v1 d = v1 ->
  nvrec_dev_localname_addr_init dev d = Some (ok, dev1, d2) ->
  ok = true /\ btd_addr dev1 = slice (4 * (if v1 then dev_bt_addr else rev2_dev_bt_addr)) 6 m /\
  NvDev.ble_addr dev1 = slice (4 * (if v1 then dev_ble_addr else rev2_dev_ble_addr)) 6 m /\
  cstring (drop (4 * (if v1 then dev_name else rev2_dev_name)) m) = Some (localname dev1).
Proof.
  intros Hv <- <-. unfold nvrec_dev_localname_addr_init. rewrite Hv. intros (x & Hx & (n & _ & [= <- <- _])%bind_Some)%bind_Some.
  destruct (is_v1 d); [apply bind_Some in Hx as (c & Hc & [= <-]) | apply bind_Some in Hx as (c & Hc & (b & _ & [= <-])%bind_Some)]; by rewrite Hc.
Qed.

(** C35: The two modules that open the sector agree. On any bytes whose revision is not 0,
    [factory_section_open] answers 0 exactly when [nvrec_dev_data_open], from a state not yet valid,
    answers true, and they read out of the sector in the same cases; both then hold the same revision,
    addresses of both radios, names, trim and default peer, those of the second as its getters and
    [nvrec_dev_localname_addr_init] give them. For any CRC. *)
Theorem factory_open_agrees `{FactoryFlash} crc32_c BT_LOCAL_NAME BLE_DEFAULT_NAME s d : let m := fs_flash s in
  Forall (is_u 8) m -> length m = FACTORY_SECTOR_SIZE -> factory d = m -> dev_sector_valid d = false ->
  Z.shiftr (word_at m dev_version_and_magic) 16 <> 0 ->
  match factory_section_open crc32_c false s, nvrec_dev_data_open crc32_c d with
  | None, None => True
  | Some (r, s'), Some (b, d') =>
      r = -1 /\ b = false \/
      r = 0 /\ b = true /\ fs_rev s' = nv_record_dev_rev d' /\
      nvrec_dev_get_btaddr d' = (1, Some (bt_global_addr s')) /\
      nvrec_dev_get_xtal_fcap d' = factory_section_xtal_fcap_get None s' /\
      nvrec_dev_get_dongleaddr d' = (0, (fun p => slice p 6 m) <$> factory_section_get_default_peer_bt_address s') /\
      nvrec_dev_get_ble_name BLE_DEFAULT_NAME d' = name_string m (factory_section_get_ble_name BLE_DEFAULT_NAME s') /\
      forall dev ok dev1 d2, nvrec_dev_localname_addr_init dev d' = Some (ok, dev1, d2) ->
        ok = true /\ btd_addr dev1 = bt_global_addr s' /\ NvDev.ble_addr dev1 = ble_global_addr s' /\
        name_string m (factory_section_get_bt_name BT_LOCAL_NAME s') = Some (localname dev1)
  | _, _ => False
  end.
Proof.
  intros m Hb Hl Hd Hval Hv0. pose proof (word_at_range m dev_version_and_magic Hb) as Hw.
  unfold factory_section_open, nvrec_dev_data_open. fold m. rewrite Hd, (Z.eqb_sym nvrec_dev_magic).
  assert (Hn : 0 <= Z.shiftr (word_at m dev_version_and_magic) 16) by (apply Z.shiftr_nonneg; lia).
  set (rev := Z.shiftr (word_at m dev_version_and_magic) 16) in *. change NVREC_DEV_NEWEST_REV with 2. change nvrec_current_version with 2. change nvrec_mini_version with 1.
  destruct (_ =? nvrec_dev_magic); cbn [negb orb]; [|by left].
  destruct (Z.ltb_spec rev 1); [lia|]. cbn [orb]. destruct (Z.gtb_spec rev 2); [by left|].
  rewrite u8_small by (change (2 ^ 8) with 256; lia).
  assert (Hreg : forall start len, crc_region crc32_c m start len = None \/ exists c, crc_region crc32_c m start len = Some c).
  { intros start len. unfold crc_region. destruct (_ <=? _); [right; by eexists | by left]. }
  assert (rev = 1 \/ rev = 2) as [Er | Er] by lia; rewrite Er; unfold dev_crcs.
  - change (is_v1 (set_rev 1 d)) with true. change (fs_v1 (with_rev 1 (with_p true s))) with true. cbv iota. unfold open_v1.
    cbn [fs_flash with_rev with_p factory set_rev]. fold m. rewrite Hd. change V1_CRC_LEN with OPEN_CRC_LEN.
    destruct (Hreg dev_reserv1 OPEN_CRC_LEN) as [-> | [c ->]]; cbn [mbind option_bind]; [done|].
    destruct (_ =? c); [right|left; by split]. split; [done|]. split; [done|]. split; [done|].
    split; [unfold nvrec_dev_get_btaddr; cbn; by rewrite Hd|]. split; [unfold nvrec_dev_get_xtal_fcap; cbn; by rewrite Hd|].
    split; [unfold nvrec_dev_get_dongleaddr; cbn; by rewrite Hd|]. split; [unfold nvrec_dev_get_ble_name; cbn; by rewrite ?Hd|].
    intros dev ok dev1 d2 Hin. exact (init_reads m true (set_valid true (set_rev 1 d)) _ _ _ _ eq_refl Hd eq_refl Hin).
  - change (is_v1 (set_rev 2 d)) with false. change (fs_v1 (with_rev 2 (with_p true s))) with false. cbv iota. unfold open_v2.
    cbn [fs_flash with_rev with_p factory set_rev]. fold m. rewrite Hd. rewrite (Z.mul_comm 4).
    destruct (_ >? 4096); [by left|].
    destruct (Hreg rev2_dev_section_start_reserved (word_at m rev2_dev_data_len)) as [-> | [c ->]]; cbn [mbind option_bind]; [done|].
    destruct (_ =? c); [right|left; by split]. split; [done|]. split; [done|]. split; [done|].
    split; [unfold nvrec_dev_get_btaddr; cbn; by rewrite Hd|]. split; [unfold nvrec_dev_get_xtal_fcap; cbn; by rewrite Hd|].
    split; [unfold nvrec_dev_get_dongleaddr; cbn; by rewrite Hd|]. split; [unfold nvrec_dev_get_ble_name; cbn; by rewrite ?Hd|].
    intros dev ok dev1 d2 Hin. exact (init_reads m false (set_valid true (set_rev 2 d)) _ _ _ _ eq_refl Hd eq_refl Hin).
Qed.

(** A sector programmed over zeros, so that its names end. *)
Definition named_sector : list Z :=
  match nvrec_dev_set_xtal_fcap sum_crc (fun x => x) (fun x => x) new_pool 0x70 5 9 (blank 2) with
  | Some d => factory d
  | None => []
  end.

Lemma factory_open_agrees_witness : exists d' dev1 d2,
  nvrec_dev_data_open sum_crc (set_factory named_sector (blank 2)) = Some (true, d') /\
  nvrec_dev_get_btaddr d' = (1, Some (bt_global_addr (section_of named_sector))) /\
  nvrec_dev_localname_addr_init (mkAddrName [] [] [] []) d' = Some (true, dev1, d2) /\ localname dev1 = [66; 69; 83] /\
  NvDev.ble_addr dev1 = ble_global_addr (section_of named_sector).
Proof.
  assert (Hi : match nvrec_dev_data_open sum_crc (set_factory named_sector (blank 2)) with
    | Some (b, d') => match nvrec_dev_localname_addr_init (mkAddrName [] [] [] []) d' with Some (ok, dev1, _) => b && bool_decide (localname dev1 = [66; 69; 83]) | None => false end
    | None => false end = true) by (vm_compute; reflexivity).
  pose proof (factory_open_agrees sum_crc [] [] (before_open named_sector) (set_factory named_sector (blank 2))) as E.
  cbv zeta in E. rewrite section_opens in E by (vm_compute; reflexivity).
  destruct (nvrec_dev_data_open sum_crc (set_factory named_sector (blank 2))) as [[b d']|]; [|discriminate Hi].
  destruct (nvrec_dev_localname_addr_init (mkAddrName [] [] [] []) d') as [[[ok dev1] d2]|] eqn:Ed; [|discriminate Hi].
  apply andb_true_iff in Hi as [-> Hn]. apply bool_decide_eq_true in Hn. exists d', dev1, d2.
  destruct E as [[_ E] | (_ & _ & _ & E2 & _ & _ & _ & E3)];
    [apply bytes_check; vm_compute; reflexivity | vm_compute; reflexivity | reflexivity | reflexivity | vm_compute; discriminate | discriminate E|].
  destruct (E3 _ _ _ _ Ed) as (Hok & _ & Hble & _). split; [reflexivity|]. split; [exact E2|]. split; [rewrite <- Hok; exact Ed|]. split; [exact Hn | exact Hble].
Defined.

(** What an evaluated boolean says of an operation's answer and state. *)
Lemma answer_and (o : option (Z * fs_state)) r (P : fs_state -> bool) :
  (fun p => (fst p =? r) && P (snd p)) <$> o = Some true -> exists s, o = Some (r, s) /\ P s = true.
Proof. destruct o as [[x s]|]; intros E; [|discriminate E]. injection E as E. apply andb_true_iff in E as [E1 E2]. apply Z.eqb_eq in E1 as ->. by exists s. Qed.

(** Faults of the module. A length refused by opening leaves the section in use: the answer is -1 and
    the getters answer, and a set then reads for its CRC outside the sector. A name longer than its
    field is taken, and changes the address the next start uses. Between the erasing and the writing of
    a set the section does not open. With the option IS_USE_DEFAULT_XTAL_FCAP the trim is answered as
    the status, and nothing is stored. *)
Definition long_length : list Z :=
  match put_word rev2_dev_data_len 8000 (programmed_sector 2) with Some m => m | None => [] end.

Theorem factory_flaws :
  (exists s, factory_section_open sum_crc false (before_open long_length) = Some (-1, s) /\
     factory_section_get_bt_address s = Some 568%nat /\ factory_section_xtal_fcap_set sum_crc false 1 s = None) /\
  (exists s1 s2, factory_section_set_bt_name sum_crc false (replicate 258 65) 258 (section_of (programmed_sector 2)) = Some (0, s1) /\
     factory_section_open sum_crc false (restart [] [] s1) = Some (0, s2) /\ bt_global_addr s2 = replicate 6 65) /\
  (forall s a b, fs_flash s = erased_sector -> exists s', factory_section_open sum_crc false (restart a b s) = Some (-1, s') /\ read_identity [] [] s' = None) /\
  (forall d s, factory_section_xtal_fcap_get (Some d) s = (d, None)).
Proof.
  split; [|split; [|split]].
  - destruct (answer_and (factory_section_open sum_crc false (before_open long_length)) (-1)
      (fun s => bool_decide (factory_section_get_bt_address s = Some 568%nat) && match factory_section_xtal_fcap_set sum_crc false 1 s with None => true | Some _ => false end))
      as (s & Hs & E); [vm_compute; reflexivity|].
    exists s. apply andb_true_iff in E as [E1 E2]. apply bool_decide_eq_true in E1. split; [exact Hs|]. split; [exact E1|].
    by destruct (factory_section_xtal_fcap_set _ _ _ _).
  - destruct (answer_and (factory_section_set_bt_name sum_crc false (replicate 258 65) 258 (section_of (programmed_sector 2))) 0
      (fun s1 => match factory_section_open sum_crc false (restart [] [] s1) with Some (r, s2) => (r =? 0) && bool_decide (bt_global_addr s2 = replicate 6 65) | None => false end))
      as (s1 & Hs & E); [vm_compute; reflexivity|].
    destruct (factory_section_open sum_crc false (restart [] [] s1)) as [[r s2]|] eqn:Ho; [|discriminate E].
    apply andb_true_iff in E as [E1 E2]. apply Z.eqb_eq in E1 as ->. apply bool_decide_eq_true in E2. exists s1, s2. split; [exact Hs|]. split; [exact Ho | exact E2].
  - intros s a b Hs. eexists. unfold factory_section_open. cbn [fs_flash restart]. rewrite Hs.
    replace (Z.land (word_at erased_sector dev_version_and_magic) 65535 =? nvrec_dev_magic) with false by (vm_compute; reflexivity). done.
  - done.
Qed.
