(* ===== verification/NvExt.v ===== *)
(** The user data section of apps/nv_section/userdata_section/nvrecord_extension.c: the record mirrored
    in RAM, its two copies in flash, the check of a copy, the start from whichever copy is valid, and
    the state machine that writes the record to the first copy and then to the second, by steps from
    the sleep hook or at once. *)
From Stdlib Require Import ZArith Lia Bool.
From stdpp Require Import base option list.
From S2P Require Import Prelude Norflash.

(** ** The record *)
Definition NV_EXTENSION_MAJOR_VERSION : Z := 17.
Definition NV_EXTENSION_MINOR_VERSION : Z := 3.
Definition NV_EXTENSION_MAGIC_NUMBER : Z := 0x4E455854.
Definition NV_EXTENSION_HEADER_SIZE : Z := 16.
Definition NV_EXTENSION_SIZE : Z := 0x1000.

(** A sector as [NV_EXTENSION_RECORD_T]: the header, then the bytes of the record. *)
Record image := mkImage {
  magicNumber : Z; majorVersion : Z; minorVersion : Z; validLen : Z; crc32 : Z; body : list Z }.

#[export] Instance image_eq_dec : EqDecision image.
Proof. solve_decision. Defined.

Definition with_crc (c : Z) (i : image) : image :=
  mkImage (magicNumber i) (majorVersion i) (minorVersion i) (validLen i) c (body i).
Definition with_body (b : list Z) (i : image) : image :=
  mkImage (magicNumber i) (majorVersion i) (minorVersion i) (validLen i) (crc32 i) b.

(** A sector after an erase, every bit set, for a record of [n] bytes after its header. *)
Definition blank_image (n : Z) : image :=
  mkImage 0xFFFFFFFF 0xFFFF 0xFFFF 0xFFFFFFFF 0xFFFFFFFF (replicate (Z.to_nat n) 255).

(** ** The flush state *)
Inductive NV_STATE := NV_STATE_IDLE
  | NV_STATE_MAIN_ERASING | NV_STATE_MAIN_ERASED | NV_STATE_MAIN_WRITTING | NV_STATE_MAIN_WRITE_PENDING
  | NV_STATE_MAIN_WRITTEN | NV_STATE_MAIN_DONE
  | NV_STATE_BAK_ERASING | NV_STATE_BAK_ERASED | NV_STATE_BAK_WRITTING | NV_STATE_BAK_WRITE_PENDING
  | NV_STATE_BAK_WRITTEN | NV_STATE_BAK_DONE.

#[export] Instance NV_STATE_eq_dec : EqDecision NV_STATE.
Proof. solve_decision. Defined.

(** [extension_p] tells whether [nvrecord_extension_p] has been set; [ram] is the record it designates,
    [burn_buf] the buffer handed to the flash. [written_size] is set to 0 and never changed. [taken] is
    the trace of the records a flush has taken, the latest first. *)
Record nv_ext := mkNvExt {
  is_update : bool; nv_state : NV_STATE; nvrec_init : bool; extension_p : bool; ram : image; burn_buf : image;
  lastFlushCheckPointInMs : Z; taken : list image }.

Definition set_state (t : NV_STATE) (s : nv_ext) : nv_ext :=
  mkNvExt (is_update s) t (nvrec_init s) (extension_p s) (ram s) (burn_buf s) (lastFlushCheckPointInMs s) (taken s).
Definition set_update (b : bool) (s : nv_ext) : nv_ext :=
  mkNvExt b (nv_state s) (nvrec_init s) (extension_p s) (ram s) (burn_buf s) (lastFlushCheckPointInMs s) (taken s).
Definition set_ram (i : image) (s : nv_ext) : nv_ext :=
  mkNvExt (is_update s) (nv_state s) (nvrec_init s) (extension_p s) i (burn_buf s) (lastFlushCheckPointInMs s) (taken s).
Definition set_burn (i : image) (s : nv_ext) : nv_ext :=
  mkNvExt (is_update s) (nv_state s) (nvrec_init s) (extension_p s) (ram s) i (lastFlushCheckPointInMs s) (taken s).
Definition set_checkpoint (t : Z) (s : nv_ext) : nv_ext :=
  mkNvExt (is_update s) (nv_state s) (nvrec_init s) (extension_p s) (ram s) (burn_buf s) t (taken s).

Section Section_ops.
(** The CRC of the library; the length of the record after its header and its content when rebuilt,
    which depend on the options of the build. *)
Context {F : Type} `{Norflash image F}.
Variable crc32_c : list Z -> Z.
Variable NV_EXTENSION_VALID_LEN : Z.
Variable default_body : list Z.

(** ** Checks *)
Definition data_crc (n : Z) (b : list Z) : Z := crc32_c (take (Z.to_nat n) b).

Definition nv_record_data_is_valid (i : image) : bool :=
  (NV_EXTENSION_MAJOR_VERSION =? majorVersion i) && (NV_EXTENSION_MAGIC_NUMBER =? magicNumber i) &&
  (validLen i <=? NV_EXTENSION_SIZE - NV_EXTENSION_HEADER_SIZE) && (data_crc (validLen i) (body i) =? crc32 i) &&
  negb (NV_EXTENSION_VALID_LEN <? validLen i).

Definition nv_record_items_is_valid (i : image) : bool := true.

Definition nv_record_is_crc_check_pass (i : image) : bool :=
  if negb (NV_EXTENSION_MAGIC_NUMBER =? magicNumber i) then false
  else if validLen i >=? NV_EXTENSION_SIZE - NV_EXTENSION_HEADER_SIZE then false
  else data_crc (validLen i) (body i) =? crc32 i.

Definition copy_is_valid (i : image) : bool := nv_record_data_is_valid i && nv_record_items_is_valid i.

(** ** Asking for a flush *)
Definition nv_record_extension_update (s : nv_ext) : nv_ext := set_update true s.
Definition nv_record_update_runtime_userdata (s : nv_ext) : nv_ext := nv_record_extension_update s.
Definition nv_record_touch_cause_flush (s : nv_ext) : Z * nv_ext := (0, nv_record_update_runtime_userdata s).

(** ** The steps of a flush *)
(** [None] is an assertion that fails, here and below. *)
Definition seal (i : image) : image := with_crc (data_crc NV_EXTENSION_VALID_LEN (body i)) i.

(** The record is sealed, checked and copied to the buffer. *)
Definition take_record (s : nv_ext) : option nv_ext :=
  let r := seal (ram s) in
  if copy_is_valid r then
    Some (mkNvExt false NV_STATE_MAIN_WRITE_PENDING (nvrec_init s) (extension_p s) r r
            (lastFlushCheckPointInMs s) (r :: taken s))
  else None.

(** One operation queued: on success the next state, on a full buffer a flush. *)
Definition queue_step (r : NORFLASH_API_RET_T * F) (next : NV_STATE) (s : nv_ext) : option (Z * nv_ext * F) :=
  match r with
  | (NORFLASH_API_OK, f) => Some (0, set_state next s, f)
  | (NORFLASH_API_BUFFER_FULL, f) => Some (1, s, norflash_api_flush f)
  | (NORFLASH_API_ERR, _) => None
  end.

Definition wait_step (next : NV_STATE) (s : nv_ext) (f : F) : option (Z * nv_ext * F) :=
  if norflash_api_get_used_buffer_count f =? 0 then Some (0, set_state next s, f)
  else Some (0, s, norflash_api_flush f).

Definition dev_failed (f : F) : bool := match norflash_api_get_dev_id f with NORFLASH_API_OK => false | _ => true end.

Definition flush_main_async (s : nv_ext) (f : F) : option (Z * nv_ext * F) :=
  if dev_failed f then Some (1, s, f)
  else if negb (extension_p s) then Some (0, s, f)
  else
    match nv_state s with
    | NV_STATE_IDLE | NV_STATE_MAIN_ERASING =>
        queue_step (norflash_api_erase MAIN f) NV_STATE_MAIN_ERASED (set_state NV_STATE_MAIN_ERASING s)
    | NV_STATE_MAIN_ERASED => s' ← take_record s; Some (0, s', f)
    | NV_STATE_MAIN_WRITE_PENDING => queue_step (norflash_api_write MAIN (burn_buf s) f) NV_STATE_MAIN_WRITTEN s
    | NV_STATE_MAIN_WRITTEN => wait_step NV_STATE_MAIN_DONE s f
    | _ => None
    end.

Definition read_main (s : nv_ext) (f : F) : option nv_ext :=
  match norflash_api_read MAIN f with
  | (NORFLASH_API_OK, i) => Some (set_state NV_STATE_BAK_WRITE_PENDING (set_burn i s))
  | _ => None
  end.

(** The end of [nv_record_extension_flush_bak]. *)
Definition bak_done (r : Z * nv_ext * F) : Z * nv_ext * F :=
  let '(x, s, f) := r in
  (x, if decide (nv_state s = NV_STATE_BAK_DONE) then set_state NV_STATE_IDLE s else s, f).

Definition flush_bak_async (s : nv_ext) (f : F) : option (Z * nv_ext * F) :=
  if dev_failed f then Some (1, s, f)
  else
    r ← match nv_state s with
        | NV_STATE_MAIN_DONE | NV_STATE_BAK_ERASING =>
            queue_step (norflash_api_erase BAK f) NV_STATE_BAK_ERASED (set_state NV_STATE_BAK_ERASING s)
        | NV_STATE_BAK_ERASED | NV_STATE_BAK_WRITTING => s' ← read_main s f; Some (0, s', f)
        | NV_STATE_BAK_WRITE_PENDING => queue_step (norflash_api_write BAK (burn_buf s) f) NV_STATE_BAK_WRITTEN s
        | NV_STATE_BAK_WRITTEN => wait_step NV_STATE_BAK_DONE s f
        | _ => None
        end;
    Some (bak_done r).

(** ** A flush at once *)
(** [do { norflash_api_flush(); } while (!stop);] *)
Fixpoint flush_until (fuel : nat) (stop : F -> bool) (f : F) : option F :=
  match fuel with
  | O => None
  | S n => let f' := norflash_api_flush f in if stop f' then Some f' else flush_until n stop f'
  end.

(** An operation tried until it is queued. *)
Fixpoint queue_until (fuel : nat) (op : F -> NORFLASH_API_RET_T * F) (free : F -> Z) (f : F) : option F :=
  match fuel with
  | O => None
  | S n =>
      match op f with
      | (NORFLASH_API_OK, f') => Some f'
      | (NORFLASH_API_BUFFER_FULL, f') => f'' ← flush_until n (fun g => negb (free g =? 0)) f'; queue_until n op free f''
      | (NORFLASH_API_ERR, _) => None
      end
  end.

Definition drained (f : F) : bool := negb (norflash_api_get_used_buffer_count f >? 0).

Definition flush_main_sync (fuel : nat) (s : nv_ext) (f : F) : option (Z * nv_ext * F) :=
  if dev_failed f then Some (1, s, f)
  else if negb (extension_p s) then Some (0, s, f)
  else
    '(s1, f1) ← (if decide (nv_state s = NV_STATE_IDLE \/ nv_state s = NV_STATE_MAIN_ERASING)
                 then f' ← queue_until fuel (norflash_api_erase MAIN) norflash_free_erase f; Some (set_state NV_STATE_MAIN_ERASED s, f')
                 else Some (s, f));
    s2 ← (if decide (nv_state s1 = NV_STATE_MAIN_ERASED) then take_record s1 else Some s1);
    '(s3, f3) ← (if decide (nv_state s2 = NV_STATE_MAIN_WRITE_PENDING)
                 then f' ← queue_until fuel (norflash_api_write MAIN (burn_buf s2)) norflash_free_write f1;
                      Some (set_state NV_STATE_MAIN_WRITTEN s2, f')
                 else Some (s2, f1));
    f4 ← flush_until fuel drained f3;
    Some (0, set_state NV_STATE_MAIN_DONE s3, f4).

Definition flush_bak_sync (fuel : nat) (s : nv_ext) (f : F) : option (Z * nv_ext * F) :=
  if dev_failed f then Some (1, s, f)
  else
    '(s1, f1) ← (if decide (nv_state s = NV_STATE_MAIN_DONE \/ nv_state s = NV_STATE_BAK_ERASING)
                 then f' ← queue_until fuel (norflash_api_erase BAK) norflash_free_erase f; Some (set_state NV_STATE_BAK_ERASED s, f')
                 else Some (s, f));
    s2 ← (if decide (nv_state s1 = NV_STATE_BAK_ERASED \/ nv_state s1 = NV_STATE_BAK_WRITTEN) then read_main s1 f1 else Some s1);
    '(s3, f3) ← (if decide (nv_state s2 = NV_STATE_BAK_WRITE_PENDING)
                 then f' ← queue_until fuel (norflash_api_write BAK (burn_buf s2)) norflash_free_write f1;
                      Some (set_state NV_STATE_BAK_WRITTEN s2, f')
                 else Some (s2, f1));
    f4 ← flush_until fuel drained f3;
    Some (bak_done (0, set_state NV_STATE_BAK_DONE s3, f4)).

(** ** [nv_record_extension_flush] *)
Definition in_main (s : nv_ext) : bool :=
  match nv_state s with
  | NV_STATE_IDLE => is_update s
  | NV_STATE_MAIN_ERASING | NV_STATE_MAIN_ERASED | NV_STATE_MAIN_WRITTING | NV_STATE_MAIN_WRITE_PENDING
  | NV_STATE_MAIN_WRITTEN => true
  | _ => false
  end.

Definition in_bak (s : nv_ext) : bool :=
  match nv_state s with
  | NV_STATE_MAIN_DONE | NV_STATE_BAK_ERASING | NV_STATE_BAK_ERASED | NV_STATE_BAK_WRITTING
  | NV_STATE_BAK_WRITE_PENDING | NV_STATE_BAK_WRITTEN | NV_STATE_BAK_DONE => true
  | _ => false
  end.

Definition nothing_to_do (s : nv_ext) : bool := bool_decide (nv_state s = NV_STATE_IDLE) && negb (is_update s).

Definition extension_flush_async (s : nv_ext) (f : F) : option (Z * nv_ext * F) :=
  if nothing_to_do s then Some (0, s, f)
  else if in_main s then flush_main_async s f
  else if in_bak s then flush_bak_async s f
  else Some (0, s, f).

Definition sync_round (fuel : nat) (ret : Z) (s : nv_ext) (f : F) : option (Z * nv_ext * F) :=
  '(r1, s1, f1) ← (if in_main s then flush_main_sync fuel s f else Some (ret, s, f));
  if in_bak s1 then flush_bak_sync fuel s1 f1 else Some (r1, s1, f1).

Fixpoint extension_flush_sync (rounds fuel : nat) (ret : Z) (s : nv_ext) (f : F) : option (Z * nv_ext * F) :=
  match rounds with
  | O => None
  | S n =>
      if nothing_to_do s then Some (ret, s, f)
      else '(r, s1, f1) ← sync_round fuel ret s f; extension_flush_sync n fuel r s1 f1
  end.

Definition nv_record_extension_flush (fuel : nat) (is_async : bool) (s : nv_ext) (f : F) : option (Z * nv_ext * F) :=
  if is_async then extension_flush_async s f else extension_flush_sync fuel fuel 0 s f.

(** ** The callers *)
Definition nv_record_flash_flush (fuel : nat) (now : Z) (s : nv_ext) (f : F) : option (nv_ext * F) :=
  '(_, s1, f1) ← nv_record_extension_flush fuel false s f; Some (set_checkpoint now s1, f1).

Definition nv_record_execute_async_flush (now : Z) (s : nv_ext) (f : F) : option (nv_ext * F) :=
  '(r, s1, f1) ← extension_flush_async s f; Some (if r =? 0 then set_checkpoint now s1 else s1, f1).

(** [max_ms] is [TICKS_TO_MS(0xFFFFFFFF)], [interval] the interval of the build. *)
Definition nv_record_is_timer_expired_to_check (max_ms interval now : Z) (s : nv_ext) : bool :=
  let last := lastFlushCheckPointInMs s in
  let passed := if last =? 0 then now
                else if now >=? last then u32 (now - last) else u32 (max_ms - last + now + 1) in
  passed >? interval.

Definition nv_record_flash_flush_in_sleep (max_ms interval now : Z) (s : nv_ext) (f : F) : option (Z * nv_ext * F) :=
  if bool_decide (nv_state s = NV_STATE_IDLE) && negb (nv_record_is_timer_expired_to_check max_ms interval now s)
  then Some (0, s, f)
  else '(s1, f1) ← nv_record_execute_async_flush now s f; Some (if nothing_to_do s1 then 0 else 1, s1, f1).

(** ** The start *)
Definition local_data_bad (i : image) : bool :=
  negb (magicNumber i =? NV_EXTENSION_MAGIC_NUMBER) || negb (majorVersion i =? NV_EXTENSION_MAJOR_VERSION) ||
  negb (minorVersion i =? NV_EXTENSION_MINOR_VERSION) || (validLen i >=? NV_EXTENSION_SIZE - NV_EXTENSION_HEADER_SIZE).

(** The record read from a copy: its bytes, not its header. *)
Definition load_copy (i : image) (s : nv_ext) : nv_ext :=
  let r := with_body (take (Z.to_nat NV_EXTENSION_VALID_LEN) (body i) ++ drop (Z.to_nat NV_EXTENSION_VALID_LEN) (body (ram s))) (ram s) in
  set_ram (with_crc (data_crc (validLen r) (body r)) r) s.

Definition nv_record_set_default (s : nv_ext) : nv_ext :=
  set_ram (seal (mkImage NV_EXTENSION_MAGIC_NUMBER NV_EXTENSION_MAJOR_VERSION NV_EXTENSION_MINOR_VERSION
                   NV_EXTENSION_VALID_LEN 0 default_body)) s.

(** Which copy is loaded and what a flush has to do, before the flush of the end. *)
Definition choose_copy (main bak : image) (s : nv_ext) : nv_ext :=
  if copy_is_valid main then
    load_copy main (if copy_is_valid bak then s else set_state NV_STATE_MAIN_DONE (set_update true s))
  else if copy_is_valid bak then load_copy bak (set_state NV_STATE_IDLE (set_update true s))
  else nv_record_extension_update (nv_record_set_default s).

Definition nv_record_extension_init (fuel : nat) (s : nv_ext) (f : F) : option (nv_ext * F) :=
  if nvrec_init s then Some (s, f)
  else
    let s0 := mkNvExt false NV_STATE_IDLE false true (ram s) (burn_buf s) (lastFlushCheckPointInMs s) (taken s) in
    if local_data_bad (ram s0) then None
    else
      let s1 := choose_copy (norflash_mapped MAIN f) (norflash_mapped BAK f) s0 in
      let s2 := mkNvExt (is_update s1) (nv_state s1) true (extension_p s1) (ram s1) (burn_buf s1)
                  (lastFlushCheckPointInMs s1) (taken s1) in
      if is_update s2 then '(_, s3, f3) ← nv_record_extension_flush fuel false s2 f; Some (s3, f3) else Some (s2, f).

(** ** Runs *)
(** Flushes by steps, calls of the sleep hook, flushes at once, changes of the record, requests, and the
    flash service working on its own. *)
Inductive nv_event := Hook (now : Z) | Sleep (max_ms interval now : Z) | Flush (now : Z) | Change (b : list Z) | Request | Background.

Definition nv_event_step (fuel : nat) (e : nv_event) (s : nv_ext) (f : F) : option (nv_ext * F) :=
  match e with
  | Hook now => nv_record_execute_async_flush now s f
  | Sleep max_ms interval now => '(_, s1, f1) ← nv_record_flash_flush_in_sleep max_ms interval now s f; Some (s1, f1)
  | Flush now => nv_record_flash_flush fuel now s f
  | Change b => Some (set_ram (with_body b (ram s)) s, f)
  | Request => Some (nv_record_update_runtime_userdata s, f)
  | Background => Some (s, norflash_api_flush f)
  end.

Fixpoint nv_events (fuel : nat) (l : list nv_event) (s : nv_ext) (f : F) : option (nv_ext * F) :=
  match l with
  | [] => Some (s, f)
  | e :: l' => '(s1, f1) ← nv_event_step fuel e s f; nv_events fuel l' s1 f1
  end.
End Section_ops.
