(* ===== verification/NvExtLaws.v ===== *)
(** The user data section of NvExt.v: what each state of the flush says of the two copies, that no
    assertion of the flush fails, that a flush ends, and that a loss of power at any moment leaves a
    record that was stored. *)
From Stdlib Require Import ZArith Lia Bool Wellfounded.
From stdpp Require Import base option list.
From S2P Require Import Prelude Norflash NvExt.

Section Laws.
Context {VL : Z} {F : Type} {NF : Norflash image F} {HF : NorflashSpec image F (blank_image VL)}.
Context (crc32_c : list Z -> Z) (default_body : list Z).
Context (HVL : 0 <= VL < NV_EXTENSION_SIZE - NV_EXTENSION_HEADER_SIZE).

Let valid (i : image) : Prop := copy_is_valid crc32_c VL i = true.
Let sealed_of := seal crc32_c VL.

(** ** Records *)
(** The mirror has the header of the build and the record's length. *)
Record ram_ok (i : image) : Prop := {
  ro_magic : magicNumber i = NV_EXTENSION_MAGIC_NUMBER; ro_major : majorVersion i = NV_EXTENSION_MAJOR_VERSION;
  ro_minor : minorVersion i = NV_EXTENSION_MINOR_VERSION; ro_len : validLen i = VL; ro_body : length (body i) = Z.to_nat VL }.

(** A record as a flush takes it. *)
Definition sealed (i : image) : Prop := ram_ok i /\ crc32 i = data_crc crc32_c VL (body i).

Lemma seal_sealed i : ram_ok i -> sealed (sealed_of i).
Proof. intros [H1 H2 H3 H4 H5]. split; [by split | done]. Qed.

Lemma seal_of_sealed i : sealed i -> sealed_of i = i.
Proof. intros [_ H]. unfold sealed_of, seal. rewrite <- H. by destruct i. Qed.

Lemma sealed_valid i : sealed i -> valid i.
Proof.
  intros [[H1 H2 H3 H4 H5] H]. unfold valid, copy_is_valid, nv_record_data_is_valid.
  rewrite H1, H2, H4, H, !Z.eqb_refl, Z.ltb_irrefl.
  destruct (Z.leb_spec VL (NV_EXTENSION_SIZE - NV_EXTENSION_HEADER_SIZE)); [done | lia].
Qed.

Lemma blank_invalid : ~ valid (blank_image VL).
Proof. discriminate. Qed.

(** Loading a copy of a sealed record gives the record itself. *)
Lemma load_sealed i s : sealed i -> ram_ok (ram s) -> load_copy crc32_c VL i s = set_ram i s.
Proof.
  intros [[H1 H2 H3 H4 H5] Hc] [R1 R2 R3 R4 R5]. unfold load_copy. rewrite take_ge, drop_ge, app_nil_r by lia.
  destruct i as [m ma mi l c b], (ram s) as [m' ma' mi' l' c' b']. unfold with_body, with_crc. cbn in *. subst. done.
Qed.

(** ** The queue *)
Lemma pending_nonempty_erase f : norflash_free_erase f = 0 -> pending f <> [].
Proof. intros H0 Hp. destruct (room f Hp). lia. Qed.

Lemma pending_nonempty_write f : norflash_free_write f = 0 -> pending f <> [].
Proof. intros H0 Hp. destruct (room f Hp). lia. Qed.

Lemma used_nil f : (norflash_api_get_used_buffer_count f =? 0) = true <-> pending f = [].
Proof.
  rewrite Z.eqb_eq, used_count. destruct (pending f) as [|o l]; cbn [length].
  - split; intros _; reflexivity.
  - split; intros E; [lia | discriminate E].
Qed.

Definition queued (o : flash_op image) (f f' : F) : Prop :=
  pending f' = pending f ++ [o] /\ stored f' = stored f /\ snapshots f' = (pending f', stored f') :: snapshots f.

Lemma queued_progress o f f' ops c0 : queued o f f' -> progress ops c0 f -> progress (ops ++ [o]) c0 f'.
Proof. intros (Hp & Hs & _) Ho. exact (progress_append ops c0 f f' o Ho Hp Hs). Qed.

(** What a step that queues an operation does. *)
Definition queued_or_waits (o : flash_op image) (next : NV_STATE) (s : nv_ext) (f : F) (r : option (Z * nv_ext * F)) : Prop :=
  exists f', (r = Some (0, set_state next s, f') /\ queued o f f') \/
    (r = Some (1, s, f') /\ f' = norflash_api_flush f /\ pending f <> []).

Lemma erase_step k next s f : queued_or_waits (Erase k) next s f (queue_step (norflash_api_erase k f) next s).
Proof.
  pose proof (erase_queues k f) as Hq. unfold queue_step. destruct (norflash_api_erase k f) as [[] f']; [| |done].
  - exists f'. by left.
  - destruct Hq as [-> Hz]. exists (norflash_api_flush f). right. split; [done|]. split; [done|]. by apply pending_nonempty_erase.
Qed.

Lemma write_step k i next s f : queued_or_waits (Write k i) next s f (queue_step (norflash_api_write k i f) next s).
Proof.
  pose proof (write_queues k i f) as Hq. unfold queue_step. destruct (norflash_api_write k i f) as [[] f']; [| |done].
  - exists f'. by left.
  - destruct Hq as [-> Hz]. exists (norflash_api_flush f). right. split; [done|]. split; [done|]. by apply pending_nonempty_write.
Qed.

Lemma dev_ok f : dev_failed f = false.
Proof. unfold dev_failed. by rewrite dev_id_ok. Qed.

(** ** The invariant *)
(** The second copy holds [x]; the first one too, or nothing valid. *)
Definition base_cells (x : image) (u : bool) (c : cells image) : Prop :=
  cell_bak c = x /\ (cell_main c = x \/ ~ valid (cell_main c) /\ u = true).

Definition bak_ops (new : image) (k : nat) : list (flash_op image) := Erase BAK :: replicate k (Write BAK new).

Definition phase (s : nv_ext) (f : F) (new old : image) : Prop :=
  exists c0, match nv_state s with
  | NV_STATE_IDLE | NV_STATE_MAIN_ERASING => progress [] c0 f /\ base_cells new (is_update s) c0
  | NV_STATE_MAIN_ERASED => progress [Erase MAIN] c0 f /\ base_cells new true c0
  | NV_STATE_MAIN_WRITE_PENDING => progress [Erase MAIN] c0 f /\ base_cells old true c0 /\ burn_buf s = new
  | NV_STATE_MAIN_WRITTEN => progress [Erase MAIN; Write MAIN new] c0 f /\ base_cells old true c0
  | NV_STATE_MAIN_DONE | NV_STATE_BAK_ERASING => progress [] c0 f /\ cell_main c0 = new
  | NV_STATE_BAK_ERASED => progress (bak_ops new 0) c0 f /\ cell_main c0 = new
  | NV_STATE_BAK_WRITE_PENDING => (exists k, progress (bak_ops new k) c0 f) /\ cell_main c0 = new /\ burn_buf s = new
  | NV_STATE_BAK_WRITTEN => (exists k, progress (bak_ops new (S k)) c0 f) /\ cell_main c0 = new
  | _ => False
  end.

(** [base] is the record stored at the start; before it, in the trace, those taken since. *)
Definition hist (base : image) (s : nv_ext) : list image := taken s ++ [base].

(** The last record taken and the one before it. *)
Definition newest (base : image) (s : nv_ext) : image := nth 0 (hist base s) base.
Definition previous (base : image) (s : nv_ext) : image := nth 1 (hist base s) base.

Record nv_sound (base : image) (s : nv_ext) (f : F) : Prop := {
  ok_ram : ram_ok (ram s);
  ok_ptr : extension_p s = true;
  ok_hist : Forall sealed (hist base s);
  ok_phase : phase s f (newest base s) (previous base s) }.

Lemma base_cells_update x u c : base_cells x u c -> base_cells x true c.
Proof. intros [H1 [H2 | [H2 _]]]; (split; [done|]); [by left | by right]. Qed.

(** The two copies after the whole of a round's operations on the second one. *)
Lemma bak_ops_done new k c0 : cell_main c0 = new ->
  run_ops (blank_image VL) program (bak_ops new (S k)) c0 = mkCells new new.
Proof.
  intros Hm. destruct c0 as [m b]. cbn in Hm. subst m. cbn. rewrite program_erased.
  induction k as [|k IH]; [done|]. cbn. by rewrite program_same.
Qed.

Lemma bak_ops_other new k : Forall (fun o => op_sector o <> MAIN) (bak_ops new k).
Proof. constructor; [done|]. by apply Forall_replicate. Qed.

Lemma bak_ops_append new k : bak_ops new k ++ [Write BAK new] = bak_ops new (S k).
Proof. unfold bak_ops. cbn [app]. f_equal. by rewrite <- replicate_cons_app. Qed.

(** ** Loss of power *)
(** The copy the next start loads. *)
Definition boot_image (c : cells image) : option image :=
  if copy_is_valid crc32_c VL (cell_main c) then Some (cell_main c)
  else if copy_is_valid crc32_c VL (cell_bak c) then Some (cell_bak c) else None.

Definition torn_invalid (i : image) : Prop := ~ valid i.

Lemma boot_bak c : ~ valid (cell_main c) -> valid (cell_bak c) -> boot_image c = Some (cell_bak c).
Proof. intros Hm Hb. unfold boot_image. unfold valid in *. destruct (copy_is_valid _ _ (cell_main c)); [by destruct Hm|]. by rewrite Hb. Qed.

Lemma boot_main c : valid (cell_main c) -> boot_image c = Some (cell_main c).
Proof. intros Hm. unfold boot_image. unfold valid in Hm. by rewrite Hm. Qed.

(** While the first copy is being written: the old record, or the new one once it is there. *)
Lemma crash_main_ops new old ops c0 f c : sealed new -> sealed old -> base_cells old true c0 ->
  ops = [] \/ ops = [Erase MAIN] \/ ops = [Erase MAIN; Write MAIN new] ->
  progress ops c0 f -> crash torn_invalid f c -> boot_image c = Some old \/ (ops = [Erase MAIN; Write MAIN new] /\ boot_image c = Some new).
Proof.
  intros Hn Ho [Hb Hm] Hops Hp Hc. apply sealed_valid in Hn, Ho.
  assert (Hbak : forall m, ~ valid m -> boot_image (mkCells m (cell_bak c0)) = Some old).
  { intros m Hv. rewrite boot_bak; cbn; [by rewrite Hb | done | by rewrite Hb]. }
  assert (H0 : boot_image c0 = Some old).
  { destruct c0 as [m b]. cbn in *. subst b. destruct Hm as [-> | [Hm _]]; [by apply boot_main | by apply Hbak]. }
  assert (Hblank : boot_image (mkCells (blank_image VL) (cell_bak c0)) = Some old) by apply Hbak, blank_invalid.
  destruct (progress_crash _ _ _ _ _ Hp Hc) as (n & Hn').
  destruct Hops as [-> | [-> | ->]]; destruct n as [|[|n]]; cbn [take run_ops run_op put lookup] in Hn';
    (destruct Hn' as [-> | (o & x & Ho' & Hx & ->)]; cbn in *; [|try discriminate Ho'; try (injection Ho' as <-); cbn; left; by apply Hbak]);
    rewrite ?take_nil; cbn; auto.
  right. split; [done|]. rewrite program_erased. by apply boot_main.
Qed.

(** While the second copy is being written the first one is whole. *)
Lemma crash_bak_ops new k c0 f c : sealed new -> cell_main c0 = new -> progress (bak_ops new k) c0 f \/ progress [] c0 f ->
  crash torn_invalid f c -> boot_image c = Some new.
Proof.
  intros Hn Hm Hp Hc. apply sealed_valid in Hn.
  assert (Hp' : exists ops, Forall (fun o => op_sector o <> MAIN) ops /\ progress ops c0 f)
    by (destruct Hp; [exists (bak_ops new k); split; [apply bak_ops_other | done] | by exists []]).
  destruct Hp' as (ops & Ho & Hp'). destruct (progress_crash _ _ _ _ _ Hp' Hc) as (n & Hn').
  assert (Hmain : cell_main (run_ops (blank_image VL) program (take n ops) c0) = new).
  { change (get MAIN (run_ops (blank_image VL) program (take n ops) c0) = new). rewrite run_ops_other by (by apply Forall_take). exact Hm. }
  assert (Hmain' : cell_main c = new).
  { destruct Hn' as [-> | (o & x & Hl & _ & ->)]; [exact Hmain|].
    change (get MAIN (put (op_sector o) x (run_ops (blank_image VL) program (take n ops) c0)) = new).
    rewrite get_put_other; [exact Hmain|]. exact (Forall_lookup_1 _ _ _ _ Ho Hl). }
  rewrite boot_main; rewrite Hmain'; done.
Qed.

Lemma nth_sealed base s k : Forall sealed (hist base s) -> sealed (nth k (hist base s) base).
Proof.
  intros H. assert (Hb : sealed base) by (unfold hist in H; apply Forall_app in H as [_ H]; by apply Forall_cons in H as [H _]).
  destruct (decide (k < length (hist base s))%nat).
  - apply (Forall_lookup_1 _ _ k _ H). by apply lookup_nth.
  - by rewrite nth_overflow by lia.
Qed.

Lemma crash_boots base s f c : nv_sound base s f -> crash torn_invalid f c ->
  boot_image c = Some (newest base s) \/
  ((nv_state s = NV_STATE_MAIN_WRITE_PENDING \/ nv_state s = NV_STATE_MAIN_WRITTEN) /\ boot_image c = Some (previous base s)).
Proof.
  intros Hok Hc. pose proof (nth_sealed _ _ 0 (ok_hist _ _ _ Hok)) as Hn. pose proof (nth_sealed _ _ 1 (ok_hist _ _ _ Hok)) as Ho.
  fold (newest base s) in Hn. fold (previous base s) in Ho. destruct (ok_phase _ _ _ Hok) as [c0 Hph].
  destruct (nv_state s) eqn:Es; try (by destruct Hph).
  - destruct Hph as [Hp Hb]. left. destruct (crash_main_ops (newest base s) _ _ _ _ _ Hn Hn (base_cells_update _ _ _ Hb) (or_introl eq_refl) Hp Hc) as [H | [_ H]]; done.
  - destruct Hph as [Hp Hb]. left. destruct (crash_main_ops (newest base s) _ _ _ _ _ Hn Hn (base_cells_update _ _ _ Hb) (or_introl eq_refl) Hp Hc) as [H | [_ H]]; done.
  - destruct Hph as [Hp Hb]. left. destruct (crash_main_ops (newest base s) _ _ _ _ _ Hn Hn Hb (or_intror (or_introl eq_refl)) Hp Hc) as [H | [_ H]]; done.
  - destruct Hph as (Hp & Hb & _). destruct (crash_main_ops (newest base s) _ _ _ _ _ Hn Ho Hb (or_intror (or_introl eq_refl)) Hp Hc) as [H | [_ H]]; auto.
  - destruct Hph as [Hp Hb]. destruct (crash_main_ops (newest base s) _ _ _ _ _ Hn Ho Hb (or_intror (or_intror eq_refl)) Hp Hc) as [H | [_ H]]; auto.
  - destruct Hph as [Hp Hm]. left. exact (crash_bak_ops _ 0 _ _ _ Hn Hm (or_intror Hp) Hc).
  - destruct Hph as [Hp Hm]. left. exact (crash_bak_ops _ 0 _ _ _ Hn Hm (or_intror Hp) Hc).
  - destruct Hph as [Hp Hm]. left. exact (crash_bak_ops _ 0 _ _ _ Hn Hm (or_introl Hp) Hc).
  - destruct Hph as ([k Hp] & Hm & _). left. exact (crash_bak_ops _ k _ _ _ Hn Hm (or_introl Hp) Hc).
  - destruct Hph as [[k Hp] Hm]. left. exact (crash_bak_ops _ (S k) _ _ _ Hn Hm (or_introl Hp) Hc).
Qed.
(** Every state the flash has been through, cut short at any moment, starts again with a record of the
    trace. *)
Definition all_safe (base : image) (s : nv_ext) (f : F) : Prop := forall ops c0 c,
  (ops, c0) ∈ snapshots f -> crash_at torn_invalid ops c0 c -> exists i, i ∈ hist base s /\ boot_image c = Some i.

Definition nv_ok (base : image) (s : nv_ext) (f : F) : Prop := nv_sound base s f /\ all_safe base s f.

Lemma in_hist base s k : nth k (hist base s) base ∈ hist base s.
Proof.
  destruct (decide (k < length (hist base s))%nat).
  - apply (list_elem_of_lookup_2 _ k). by apply lookup_nth.
  - rewrite nth_overflow by lia. unfold hist. apply elem_of_app. right. by apply list_elem_of_singleton.
Qed.

(** The flash has not moved, or by one operation. *)
Definition moves (f f' : F) : Prop := f' = f \/ snapshots f' = (pending f', stored f') :: snapshots f.

Lemma moves_flush f : moves f (norflash_api_flush f).
Proof. right. apply flush_snapshot. Qed.

Lemma moves_queued o f f' : queued o f f' -> moves f f'.
Proof. intros (_ & _ & H). by right. Qed.

Lemma nv_ok_moves base s f s' f' : nv_ok base s f -> moves f f' -> (forall i, i ∈ hist base s -> i ∈ hist base s') ->
  nv_sound base s' f' -> nv_ok base s' f'.
Proof.
  intros [_ Ha] Hm Hh Hok. split; [done|]. intros ops c0 c Hin Hc.
  assert (Ho : (ops, c0) ∈ snapshots f \/ (ops, c0) = (pending f', stored f')).
  { destruct Hm as [-> | E]; [by left|]. rewrite E in Hin. apply elem_of_cons in Hin as [-> | Hin]; auto. }
  destruct Ho as [Ho | [= -> ->]].
  - destruct (Ha _ _ _ Ho Hc) as (i & Hi & E). exists i. auto.
  - destruct (crash_boots base s' f' c Hok Hc) as [E | [_ E]]; eexists; (split; [apply in_hist | exact E]).
Qed.

(** What the mirror holds has been taken, or a flush is asked. *)
Definition clean (base : image) (s : nv_ext) : Prop := is_update s = true \/ newest base s = sealed_of (ram s).

(** How far a flush is from its end, in steps; the flash's own work comes second. *)
Definition rank (s : nv_ext) : nat :=
  let u := if is_update s then 10%nat else 0%nat in
  match nv_state s with
  | NV_STATE_IDLE => u
  | NV_STATE_MAIN_ERASING => 9
  | NV_STATE_MAIN_ERASED => 8
  | NV_STATE_MAIN_WRITE_PENDING => u + 7
  | NV_STATE_MAIN_WRITTEN => u + 6
  | NV_STATE_MAIN_DONE => u + 5
  | NV_STATE_BAK_ERASING => u + 4
  | NV_STATE_BAK_ERASED => u + 3
  | NV_STATE_BAK_WRITE_PENDING => u + 2
  | NV_STATE_BAK_WRITTEN => u + 1
  | _ => 0
  end.

Definition closer (s s' : nv_ext) (f f' : F) : Prop := (rank s' < rank s \/ rank s' = rank s /\ work f' < work f)%nat.

(** ** One step from the sleep hook *)
(** The variables a step of the queue leaves alone. *)
Definition kept_vars (s s' : nv_ext) : Prop :=
  ram s' = ram s /\ extension_p s' = extension_p s /\ taken s' = taken s /\ is_update s' = is_update s.

Definition stepped (base : image) (s : nv_ext) (f : F) (s' : nv_ext) (f' : F) : Prop :=
  nv_ok base s' f' /\ (clean base s -> clean base s') /\ closer s s' f f' /\ sealed_of (ram s') = sealed_of (ram s).

Lemma nv_ok_kept base s f s' f' : nv_ok base s f -> moves f f' -> kept_vars s s' ->
  phase s' f' (newest base s) (previous base s) -> nv_ok base s' f'.
Proof.
  intros Hok Hm (E1 & E2 & E3 & E4) Hph.
  assert (Eh : hist base s' = hist base s) by (unfold hist; by rewrite E3).
  apply (nv_ok_moves base s f); [exact Hok | done | by rewrite Eh |]. destruct Hok as [[Hr Hp Hh _] _].
  split; [by rewrite E1 | by rewrite E2 | by rewrite Eh | unfold newest, previous in *; by rewrite Eh].
Qed.

Lemma stepped_kept base s f s' f' : nv_ok base s f -> moves f f' -> kept_vars s s' ->
  phase s' f' (newest base s) (previous base s) -> closer s s' f f' -> stepped base s f s' f'.
Proof.
  intros Hok Hm Hk Hph Hc. split; [by apply (nv_ok_kept base s f)|]. destruct Hk as (E1 & E2 & E3 & E4).
  unfold clean, newest, hist. by rewrite E1, E3, E4.
Qed.

Lemma kept_set_state t s : kept_vars s (set_state t s).
Proof. done. Qed.

(** Erasing or writing, when what is to be done in either case is known. *)
Lemma queued_stepped base o next s s0 f r : nv_ok base s f -> queued_or_waits o next s0 f r -> kept_vars s s0 ->
  (forall f', (forall ops c0, progress ops c0 f -> progress (ops ++ [o]) c0 f') ->
     phase (set_state next s0) f' (newest base s) (previous base s)) ->
  (rank (set_state next s0) < rank s)%nat ->
  (pending f <> [] -> phase s0 (norflash_api_flush f) (newest base s) (previous base s) /\ rank s0 = rank s) ->
  exists x s' f', r = Some (x, s', f') /\ stepped base s f s' f'.
Proof.
  intros Hok (f' & [[-> Hq] | (-> & -> & Hp)]) Hk Hdone Hrank Hwait.
  - exists 0, (set_state next s0), f'. split; [done|].
    apply stepped_kept; [done | by apply (moves_queued o) | exact Hk | | by left].
    apply Hdone. intros ops c0. by apply queued_progress.
  - destruct (Hwait Hp) as [Hph Hr]. exists 1, s0, (norflash_api_flush f). split; [done|].
    apply stepped_kept; [done | apply moves_flush | exact Hk | done | right]. split; [done|]. by apply flush_works.
Qed.

Lemma wait_stepped base next s f : nv_ok base s f ->
  (pending f = [] -> phase (set_state next s) f (newest base s) (previous base s)) -> (rank (set_state next s) < rank s)%nat ->
  phase s (norflash_api_flush f) (newest base s) (previous base s) ->
  exists x s' f', wait_step next s f = Some (x, s', f') /\ stepped base s f s' f'.
Proof.
  intros Hok Hdone Hrank Hwait. unfold wait_step. destruct (_ =? 0) eqn:E.
  - apply used_nil in E. eexists _, _, _. split; [reflexivity|]. apply stepped_kept; [done | by left | done | by apply Hdone | by left].
  - eexists _, _, _. split; [reflexivity|]. apply stepped_kept; [done | apply moves_flush | done | done | right]. split; [done|].
    apply flush_works. intros Hn. apply used_nil in Hn. congruence.
Qed.

(** The record taken: the trace grows by it, and it is what the mirror holds from then on. *)
Lemma take_stepped base s f : nv_ok base s f -> nv_state s = NV_STATE_MAIN_ERASED ->
  exists s', take_record crc32_c VL s = Some s' /\ stepped base s f s' f /\ nv_state s' = NV_STATE_MAIN_WRITE_PENDING /\
    is_update s' = false /\ newest base s' = sealed_of (ram s).
Proof.
  intros Hok Es. pose proof (proj1 Hok) as [Hr Hp Hh (c0 & Hph)]. rewrite Es in Hph. unfold take_record. fold sealed_of.
  pose proof (seal_sealed _ Hr) as Hs. pose proof (sealed_valid _ Hs) as Hv. unfold valid in Hv. fold sealed_of. rewrite Hv.
  eexists. split; [reflexivity|]. split; [|done]. split; [|split; [intros _; right | split; [left|]]].
  - apply (nv_ok_moves base s f); [done | by left | intros i Hi; by apply list_elem_of_further|].
    split; [exact (proj1 Hs) | exact Hp | by constructor |]. exists c0. destruct Hph as [Hg Hb].
    split; [exact Hg|]. split; [|done]. unfold newest in Hb. unfold previous, hist. cbn [taken app nth].
    unfold hist in Hb. by destruct (taken s).
  - cbn [ram]. symmetry. by apply seal_of_sealed.
  - unfold rank. rewrite Es. cbn. lia.
  - cbn [ram]. by apply seal_of_sealed.
Qed.

Lemma main_step base s f : nv_ok base s f -> in_main s = true ->
  exists x s' f', flush_main_async crc32_c VL s f = Some (x, s', f') /\ stepped base s f s' f'.
Proof.
  intros Hok Hm. unfold flush_main_async. rewrite dev_ok, (ok_ptr _ _ _ (proj1 Hok)). cbn [negb].
  pose proof (ok_phase _ _ _ (proj1 Hok)) as [c0 Hph]. unfold in_main in Hm. destruct (nv_state s) eqn:Es; try discriminate Hm.
  - destruct Hph as [Hg Hb]. apply (queued_stepped base (Erase MAIN) NV_STATE_MAIN_ERASED s (set_state NV_STATE_MAIN_ERASING s) f);
      [done | apply erase_step | done | | unfold rank; rewrite Es; cbn; rewrite Hm; lia | intros Hp; by apply progress_nil in Hg as [Hn _]].
    intros f' Hq. exists c0. split; [by apply (Hq []) | by apply base_cells_update in Hb].
  - destruct Hph as [Hg Hb]. apply (queued_stepped base (Erase MAIN) NV_STATE_MAIN_ERASED s (set_state NV_STATE_MAIN_ERASING s) f);
      [done | apply erase_step | done | | unfold rank; rewrite Es; cbn; lia | intros Hp; by apply progress_nil in Hg as [Hn _]].
    intros f' Hq. exists c0. split; [by apply (Hq []) | by apply base_cells_update in Hb].
  - destruct (take_stepped base s f Hok Es) as (s' & -> & Hs & _). by eexists _, _, _.
  - destruct Hph.
  - destruct Hph as (Hg & Hb & Hn). apply (queued_stepped base (Write MAIN (burn_buf s)) NV_STATE_MAIN_WRITTEN s s f);
      [done | apply write_step | done | | unfold rank; cbn; rewrite Es; lia |].
    + intros f' Hq. exists c0. rewrite Hn in Hq. split; [exact (Hq _ _ Hg) | done].
    + intros _. split; [|done]. exists c0. rewrite Es. split; [by apply progress_flush | done].
  - destruct Hph as [Hg Hb]. apply (wait_stepped base NV_STATE_MAIN_DONE s f);
      [done | | unfold rank; cbn; rewrite Es; lia |].
    + intros Hp. exists (stored f). split; [by apply progress_start|]. rewrite (progress_done _ _ _ Hg Hp).
      cbn. apply program_erased.
    + exists c0. rewrite Es. split; [by apply progress_flush | done].
Qed.

Lemma read_main_ok s f k new c0 : progress (bak_ops new k) c0 f -> cell_main c0 = new ->
  read_main s f = Some (set_state NV_STATE_BAK_WRITE_PENDING (set_burn new s)).
Proof.
  intros Hg Hm. destruct (progress_other _ _ _ MAIN Hg (bak_ops_other new k)) as [Ho Hs].
  unfold read_main. rewrite (read_stored _ _ Ho), Hs. cbn [get]. by rewrite Hm.
Qed.

(** The end of a round on the second copy. *)
Lemma idle_phase s f new old k c0 : progress (bak_ops new (S k)) c0 f -> cell_main c0 = new -> pending f = [] ->
  nv_state s = NV_STATE_IDLE -> phase s f new old.
Proof.
  intros Hg Hm Hp Es. exists (stored f). rewrite Es. split; [by apply progress_start|].
  rewrite (progress_done _ _ _ Hg Hp), bak_ops_done by done. split; [done | by left].
Qed.

Lemma bak_done_ok base x s (f : F) : nv_ok base s f -> bak_done (x, s, f) = (x, s, f).
Proof.
  intros Hok. unfold bak_done. rewrite decide_False; [done|]. intros E.
  destruct (ok_phase _ _ _ (proj1 Hok)) as [c0 Hph]. by rewrite E in Hph.
Qed.

Lemma bak_done_idle x s (f : F) : bak_done (x, set_state NV_STATE_BAK_DONE s, f) = (x, set_state NV_STATE_IDLE s, f).
Proof. unfold bak_done. by rewrite decide_True. Qed.

Lemma bak_bind base s f e : (exists x s' f', e = Some (x, s', f') /\ stepped base s f s' f') ->
  exists x s' f', (r ← e; Some (bak_done r)) = Some (x, s', f') /\ stepped base s f s' f'.
Proof.
  intros (x & s' & f' & -> & Hs). exists x, s', f'. split; [|done]. cbn [mbind option_bind].
  by rewrite (bak_done_ok base) by apply Hs.
Qed.

Lemma erase_bak_step base s f : nv_ok base s f -> nv_state s = NV_STATE_MAIN_DONE \/ nv_state s = NV_STATE_BAK_ERASING ->
  exists x s' f', queue_step (norflash_api_erase BAK f) NV_STATE_BAK_ERASED (set_state NV_STATE_BAK_ERASING s) = Some (x, s', f') /\
    stepped base s f s' f'.
Proof.
  intros Hok Es. pose proof (ok_phase _ _ _ (proj1 Hok)) as [c0 Hph].
  assert (Hg : progress [] c0 f /\ cell_main c0 = newest base s) by (destruct Es as [E | E]; by rewrite E in Hph).
  destruct Hg as [Hg Hm]. apply (queued_stepped base (Erase BAK) NV_STATE_BAK_ERASED s (set_state NV_STATE_BAK_ERASING s) f);
    [done | apply erase_step | done | | | intros Hp; by apply progress_nil in Hg as [Hn _]].
  - intros f' Hq. exists c0. split; [by apply (Hq []) | done].
  - unfold rank. cbn. destruct Es as [-> | ->]; lia.
Qed.

Lemma bak_step base s f : nv_ok base s f -> in_bak s = true ->
  exists x s' f', flush_bak_async s f = Some (x, s', f') /\ stepped base s f s' f'.
Proof.
  intros Hok Hm. unfold flush_bak_async. rewrite dev_ok.
  pose proof (ok_phase _ _ _ (proj1 Hok)) as [c0 Hph]. unfold in_bak in Hm. destruct (nv_state s) eqn:Es; try discriminate Hm.
  - apply bak_bind. apply erase_bak_step; [done | by left].
  - apply bak_bind. apply erase_bak_step; [done | by right].
  - destruct Hph as [Hg Hn]. apply bak_bind. rewrite (read_main_ok s f 0 _ c0 Hg Hn). eexists _, _, _. split; [reflexivity|].
    apply stepped_kept; [done | by left | done | | left; unfold rank; rewrite Es; cbn; lia].
    exists c0. split; [by exists 0%nat | done].
  - destruct Hph.
  - destruct Hph as ([k Hg] & Hn & Hb). apply bak_bind.
    apply (queued_stepped base (Write BAK (burn_buf s)) NV_STATE_BAK_WRITTEN s s f);
      [done | apply write_step | done | | unfold rank; cbn; rewrite Es; lia |].
    + intros f' Hq. exists c0. split; [|done]. exists k. rewrite Hb in Hq. rewrite <- bak_ops_append. by apply Hq.
    + intros _. split; [|done]. exists c0. rewrite Es. split; [exists k; by apply progress_flush | done].
  - destruct Hph as [[k Hg] Hn]. unfold wait_step. destruct (_ =? 0) eqn:E; cbn [mbind option_bind].
    + apply used_nil in E. rewrite bak_done_idle. eexists _, _, _. split; [reflexivity|].
      apply stepped_kept; [done | by left | done | by apply (idle_phase _ f _ _ k c0) | left; unfold rank; cbn; rewrite Es; lia].
    + assert (Hs : stepped base s f s (norflash_api_flush f)).
      { apply stepped_kept; [done | apply moves_flush | done | | right; split; [done|]].
        - exists c0. rewrite Es. split; [exists k; by apply progress_flush | done].
        - apply flush_works. intros Hn'. apply used_nil in Hn'. congruence. }
      eexists _, _, _. split; [|exact Hs]. by rewrite (bak_done_ok base) by apply Hs.
  - destruct Hph.
Qed.

(** A step from the sleep hook fails no assertion, keeps the invariant and gets closer to the end. *)
Lemma async_step base s f : nv_ok base s f -> nothing_to_do s = false ->
  exists x s' f', extension_flush_async crc32_c VL s f = Some (x, s', f') /\ stepped base s f s' f'.
Proof.
  intros Hok Hn. unfold extension_flush_async. rewrite Hn. destruct (in_main s) eqn:Hm; [by apply main_step|].
  assert (Hb : in_bak s = true).
  { unfold in_main in Hm. unfold in_bak. destruct (nv_state s) eqn:Es; try done.
    unfold nothing_to_do in Hn. rewrite Es, Hm in Hn. discriminate Hn. }
  rewrite Hb. by apply bak_step.
Qed.

Lemma nv_ok_checkpoint base t s f : nv_ok base s f -> nv_ok base (set_checkpoint t s) f.
Proof. intros Hok. apply (nv_ok_kept base s f); [done | by left | done | apply Hok]. Qed.

Lemma stepped_checkpoint base t s f s' f' : stepped base s f s' f' -> stepped base s f (set_checkpoint t s') f'.
Proof. intros (H1 & H2 & H3 & H4). split; [by apply nv_ok_checkpoint | split; [exact H2 | split; [exact H3 | exact H4]]]. Qed.

Lemma hook_step base fuel now s f : nv_ok base s f -> nothing_to_do s = false ->
  exists s' f', nv_event_step crc32_c VL fuel (Hook now) s f = Some (s', f') /\ stepped base s f s' f'.
Proof.
  intros Hok Hn. destruct (async_step base s f Hok Hn) as (x & s' & f' & E & Hs).
  cbn [nv_event_step]. unfold nv_record_execute_async_flush. rewrite E. cbn [mbind option_bind].
  eexists _, _. split; [reflexivity|]. destruct (x =? 0); [by apply stepped_checkpoint | exact Hs].
Qed.

(** When nothing is left to do both copies hold the last record taken, and the queue is empty. *)
Lemma idle_copies base s f : nv_ok base s f -> nothing_to_do s = true ->
  pending f = [] /\ stored f = mkCells (newest base s) (newest base s).
Proof.
  intros Hok Hn. unfold nothing_to_do in Hn. apply andb_true_iff in Hn as [Hi Hu]. apply bool_decide_eq_true in Hi.
  apply negb_true_iff in Hu. destruct (ok_phase _ _ _ (proj1 Hok)) as [c0 Hph]. rewrite Hi, Hu in Hph.
  destruct Hph as [Hg [Hb [Hm | [_ Hm]]]]; [|discriminate Hm]. apply progress_nil in Hg as [Hp ->].
  split; [exact Hp|]. destruct c0 as [m b]. cbn in *. congruence.
Qed.

(** A call of the hook takes such a step, or comes before the timer expired and does nothing. *)
Lemma sleep_step base fuel max_ms interval now s f : nv_ok base s f -> nothing_to_do s = false -> exists s' f',
  nv_event_step crc32_c VL fuel (Sleep max_ms interval now) s f = Some (s', f') /\
  (stepped base s f s' f' \/ (nv_record_is_timer_expired_to_check max_ms interval now s = false /\ s' = s /\ f' = f)).
Proof.
  intros Hok Hn. cbn [nv_event_step]. unfold nv_record_flash_flush_in_sleep. destruct (bool_decide _ && _) eqn:E.
  - eexists _, _. split; [reflexivity|]. right. apply andb_true_iff in E as [_ E]. by apply negb_true_iff in E.
  - destruct (hook_step base fuel now s f Hok Hn) as (s' & f' & E1 & Hs). cbn [nv_event_step] in E1. rewrite E1. cbn [mbind option_bind].
    exists s', f'. split; [done | by left].
Qed.

(** Calls of the hook at the times [ts], from the [j]-th on. *)
Definition hook_calls (max_ms interval : Z) (ts : nat -> Z) (j k : nat) : list nv_event := map (fun i => Sleep max_ms interval (ts i)) (seq j k).

(** Whenever the last flush was, some call to come finds the timer expired. *)
Definition calls_expire (max_ms interval : Z) (ts : nat -> Z) : Prop :=
  forall s k, exists j, (k <= j)%nat /\ nv_record_is_timer_expired_to_check max_ms interval (ts j) s = true.

Section Sleeping.
Context (max_ms interval : Z) (ts : nat -> Z) (fuel : nat) (base : image).
Hypothesis Hts : calls_expire max_ms interval ts.

Lemma sleep_waits d : forall j s f, nv_ok base s f -> nothing_to_do s = false ->
  nv_record_is_timer_expired_to_check max_ms interval (ts (j + d)%nat) s = true -> exists k s' f',
  nv_events crc32_c VL fuel (hook_calls max_ms interval ts j (S k)) s f = Some (s', f') /\ stepped base s f s' f'.
Proof.
  induction d as [|d IH]; intros j s f Hok Hn He;
    (destruct (sleep_step base fuel max_ms interval (ts j) s f Hok Hn) as (s1 & f1 & E & [Hs | (Hx & -> & ->)]);
      [exists 0%nat, s1, f1; split; [unfold hook_calls; cbn [seq map nv_events]; by rewrite E | done]|]).
  - rewrite Nat.add_0_r in He. congruence.
  - rewrite Nat.add_succ_r in He. destruct (IH (S j) s f Hok Hn He) as (k & s' & f' & En & Hs). exists (S k), s', f'.
    split; [|done]. unfold hook_calls in *. cbn [seq map nv_events] in *. rewrite E. exact En.
Qed.

Lemma nv_events_app l1 l2 s f :
  nv_events crc32_c VL fuel (l1 ++ l2) s f = '(s1, f1) ← nv_events crc32_c VL fuel l1 s f; nv_events crc32_c VL fuel l2 s1 f1.
Proof.
  revert s f. induction l1 as [|e l1 IH]; intros s f; [done|]. cbn [app nv_events].
  destruct (nv_event_step crc32_c VL fuel e s f) as [[s1 f1]|]; [apply IH | done].
Qed.

Lemma hook_calls_app j k1 k2 : hook_calls max_ms interval ts j (k1 + k2) = hook_calls max_ms interval ts j k1 ++ hook_calls max_ms interval ts (j + k1) k2.
Proof. unfold hook_calls. by rewrite seq_app, map_app. Qed.

Lemma sleeps_finish s f j : nv_ok base s f -> exists k s' f',
  nv_events crc32_c VL fuel (hook_calls max_ms interval ts j k) s f = Some (s', f') /\ nothing_to_do s' = true /\
  nv_ok base s' f' /\ (clean base s -> clean base s') /\ sealed_of (ram s') = sealed_of (ram s).
Proof.
  remember (rank s) as r eqn:Er. revert s f j Er. induction (lt_wf r) as [r _ IHr]. intros s f j Er.
  remember (work f) as w eqn:Ew. revert s f j Er Ew. induction (lt_wf w) as [w _ IHw]. intros s f j Er Ew Hok.
  destruct (nothing_to_do s) eqn:Hn; [by exists 0%nat, s, f|].
  destruct (Hts s j) as (i & Hi & He). replace i with (j + (i - j))%nat in He by lia.
  destruct (sleep_waits (i - j) j s f Hok Hn He) as (k1 & s1 & f1 & E & Hok1 & Hc1 & Hd & Hr1).
  assert (H : exists k s' f', nv_events crc32_c VL fuel (hook_calls max_ms interval ts (j + S k1) k) s1 f1 = Some (s', f') /\ nothing_to_do s' = true /\
    nv_ok base s' f' /\ (clean base s1 -> clean base s') /\ sealed_of (ram s') = sealed_of (ram s1)).
  { destruct Hd as [Hd | [Hd Hw]].
    - apply (IHr (rank s1) ltac:(lia) s1 f1 _ eq_refl Hok1).
    - apply (IHw (work f1) ltac:(lia) s1 f1); [congruence | done | done]. }
  destruct H as (k & s' & f' & En & H1 & H2 & H3 & H4). exists (S k1 + k)%nat, s', f'. split; [|split; [done|split; [done|split]]].
  - rewrite hook_calls_app, nv_events_app, E. exact En.
  - auto.
  - congruence.
Qed.
End Sleeping.

(** ** A flush at once *)
(** A computation on fuel ends: with enough of it, always in the same result. *)
Definition ends {A} (P : A -> Prop) (e : nat -> option A) : Prop := exists N a, P a /\ forall n, (N <= n)%nat -> e n = Some a.

Lemma ends_ret {A} (P : A -> Prop) a : P a -> ends P (fun _ => Some a).
Proof. intros Ha. by exists 0%nat, a. Qed.

Lemma ends_bind {A B} (P : A -> Prop) (Q : B -> Prop) e k : ends P e -> (forall a, P a -> ends Q (k a)) ->
  ends Q (fun n => a ← e n; k a n).
Proof.
  intros (N & a & Ha & HN) Hk. destruct (Hk a Ha) as (M & b & Hb & HM). exists (N `max` M)%nat, b. split; [done|].
  intros n Hn. rewrite HN by lia. apply HM. lia.
Qed.

Lemma ends_ext {A} (P : A -> Prop) e e' : (forall n, e n = e' n) -> ends P e -> ends P e'.
Proof. intros He (N & a & Ha & HN). exists N, a. split; [done|]. intros n Hn. rewrite <- He. by apply HN. Qed.

(** The flash after some flushes. *)
Inductive flushes : F -> F -> Prop :=
  | flushes_refl f : flushes f f
  | flushes_step f g : flushes (norflash_api_flush f) g -> flushes f g.

Lemma flushes_progress f g ops c0 : flushes f g -> progress ops c0 f -> progress ops c0 g.
Proof. induction 1 as [|f g _ IH]; [done|]. intros Hg. by apply IH, progress_flush. Qed.

Lemma flushes_trans f g h : flushes f g -> flushes g h -> flushes f h.
Proof. induction 1 as [|f g _ IH]; [done|]. intros Hh. by apply flushes_step, IH. Qed.

Lemma flush_until_ends stop f : (forall g, pending g = [] -> stop g = true) ->
  exists N g, stop g = true /\ flushes f g /\ forall n, (N <= n)%nat -> flush_until n stop f = Some g.
Proof.
  intros Hstop. remember (work f) as w eqn:Ew. revert f Ew. induction (lt_wf w) as [w _ IH]. intros f Ew.
  destruct (stop (norflash_api_flush f)) eqn:Es.
  - exists 1%nat, (norflash_api_flush f). split; [done|]. split; [apply flushes_step, flushes_refl|].
    intros [|n] Hn; [lia|]. cbn. by rewrite Es.
  - assert (Hp : pending f <> []).
    { intros Hp. destruct (flush_runs f) as (k & Hk & _). rewrite Hp, drop_nil in Hk. rewrite (Hstop _ Hk) in Es. discriminate Es. }
    destruct (IH (work (norflash_api_flush f)) ltac:(rewrite Ew; by apply flush_works) _ eq_refl) as (N & g & Hg & Hf & HN).
    exists (S N), g. split; [done|]. split; [by apply flushes_step|]. intros [|n] Hn; [lia|]. cbn. rewrite Es. apply HN. lia.
Qed.

(** An operation that is queued, or refused with a full buffer, is queued in the end. *)
Definition queues (o : flash_op image) (op : F -> NORFLASH_API_RET_T * F) (free : F -> Z) : Prop :=
  (forall f, pending f = [] -> 0 < free f) /\
  forall f, match op f with
  | (NORFLASH_API_OK, f') => queued o f f'
  | (NORFLASH_API_BUFFER_FULL, f') => f' = f /\ free f = 0
  | (NORFLASH_API_ERR, _) => False
  end.

Lemma erase_queues' k : queues (Erase k) (norflash_api_erase k) norflash_free_erase.
Proof. split; [intros f Hp; by apply room | apply erase_queues]. Qed.

Lemma write_queues' k i : queues (Write k i) (norflash_api_write k i) norflash_free_write.
Proof. split; [intros f Hp; by apply room | apply write_queues]. Qed.

Lemma queue_now o op free f : queues o op free -> free f <> 0 -> exists g, queued o f g /\ op f = (NORFLASH_API_OK, g).
Proof. intros [_ Hq] Hf. specialize (Hq f). destruct (op f) as [[] g]; [by exists g | by destruct Hq | done]. Qed.

Lemma queue_until_ends o op free f : queues o op free ->
  ends (fun g => exists h, flushes f h /\ queued o h g) (fun n => queue_until n op free f).
Proof.
  intros Hq. destruct (decide (free f = 0)) as [Hz | Hnz].
  - destruct (op f) as [r f'] eqn:E. pose proof (proj2 Hq f) as Hr. rewrite E in Hr. destruct r; [| |done].
    + exists 1%nat, f'. split; [exists f; split; [apply flushes_refl | done]|].
      intros [|n] Hn; [lia|]. cbn. by rewrite E.
    + destruct Hr as [-> _].
      destruct (flush_until_ends (fun g => negb (free g =? 0)) f) as (N & g & Hg & Hf & HN).
      { intros g Hp. apply negb_true_iff, Z.eqb_neq. pose proof (proj1 Hq g Hp). lia. }
      apply negb_true_iff, Z.eqb_neq in Hg. destruct (queue_now o op free g Hq Hg) as (h & Hh & Eh).
      exists (S (S N)), h. split; [by exists g|].
      intros [|n] Hn; [lia|]. cbn [queue_until]. rewrite E, HN by lia. cbn [mbind option_bind].
      destruct n as [|n]; [lia|]. cbn. by rewrite Eh.
  - destruct (queue_now o op free f Hq Hnz) as (g & Hg & E). exists 1%nat, g.
    split; [exists f; split; [apply flushes_refl | done]|]. intros [|n] Hn; [lia|]. cbn. by rewrite E.
Qed.

Lemma drain_ends f : ends (fun g => pending g = [] /\ flushes f g) (fun n => flush_until n drained f).
Proof.
  assert (Hd : forall g, drained g = true <-> pending g = []).
  { intros g. unfold drained. rewrite negb_true_iff, used_count. destruct (pending g) as [|o l]; [done|].
    split; intros E; [|discriminate E]. cbn [length] in E. rewrite Z.gtb_ltb in E. apply Z.ltb_ge in E. lia. }
  destruct (flush_until_ends drained f) as (N & g & Hg & Hf & HN); [intros g; apply Hd|].
  exists N, g. split; [split; [by apply Hd | done] | done].
Qed.

(** Whether a request will be left after the round under way. *)
Definition round_update (s : nv_ext) : bool :=
  match nv_state s with NV_STATE_IDLE | NV_STATE_MAIN_ERASING | NV_STATE_MAIN_ERASED => false | _ => is_update s end.

Definition goes_on (base : image) (s s' : nv_ext) : Prop :=
  (clean base s -> clean base s') /\ sealed_of (ram s') = sealed_of (ram s) /\ round_update s' = round_update s.

Lemma goes_on_refl base s : goes_on base s s.
Proof. done. Qed.

Lemma goes_on_trans base s1 s2 s3 : goes_on base s1 s2 -> goes_on base s2 s3 -> goes_on base s1 s3.
Proof. intros (A1 & A2 & A3) (B1 & B2 & B3). split; [auto | split; congruence]. Qed.

(** The state after a stage: sound, and where the stage should end. *)
Definition stage (base : image) (s : nv_ext) (t : NV_STATE -> Prop) (r : nv_ext * F) : Prop :=
  nv_ok base (fst r) (snd r) /\ goes_on base s (fst r) /\ t (nv_state (fst r)).

(** The flash service working on its own keeps the invariant. *)
Lemma phase_flush s f new old : phase s f new old -> phase s (norflash_api_flush f) new old.
Proof.
  assert (Hk : forall c0 (ops : nat -> list (flash_op image)), (exists k, progress (ops k) c0 f) ->
    exists k, progress (ops k) c0 (norflash_api_flush f)) by (intros c0 ops [k Hk]; exists k; by apply progress_flush).
  intros [c0 Hph]. exists c0.
  destruct (nv_state s); try (by destruct Hph); destruct Hph as [Hp Hr]; (split; [|exact Hr]);
    first [by apply progress_flush | by apply Hk].
Qed.

Lemma nv_ok_flush base s f : nv_ok base s f -> nv_ok base s (norflash_api_flush f).
Proof.
  intros Hok. apply (nv_ok_kept base s f); [done | apply moves_flush | done | apply phase_flush, Hok].
Qed.

Lemma nv_ok_flushes base s f g : flushes f g -> nv_ok base s f -> nv_ok base s g.
Proof. induction 1 as [|f g _ IH]; [done|]. intros Hok. by apply IH, nv_ok_flush. Qed.

Lemma nv_ok_state base t s f f' : nv_ok base s f -> moves f f' -> phase (set_state t s) f' (newest base s) (previous base s) ->
  nv_ok base (set_state t s) f'.
Proof. intros Hok Hm Hp. by apply (nv_ok_kept base s f). Qed.

(** An operation queued after some flushes. *)
Lemma nv_ok_queued base t s f h g o : nv_ok base s f -> flushes f h -> queued o h g ->
  ((forall ops c0, progress ops c0 f -> progress (ops ++ [o]) c0 g) -> phase (set_state t s) g (newest base s) (previous base s)) ->
  nv_ok base (set_state t s) g.
Proof.
  intros Hok Hf Hq Hp. apply (nv_ok_state _ _ _ h); [by apply (nv_ok_flushes _ _ f) | by apply (moves_queued o)|].
  apply Hp. intros ops c0 Hg. apply (queued_progress o h); [done|]. by apply (flushes_progress f).
Qed.

Lemma main_erase_stage base s f : nv_ok base s f -> in_main s = true ->
  ends (stage base s (fun t => t = NV_STATE_MAIN_ERASED \/ t = NV_STATE_MAIN_WRITE_PENDING \/ t = NV_STATE_MAIN_WRITTEN))
    (fun n => if decide (nv_state s = NV_STATE_IDLE \/ nv_state s = NV_STATE_MAIN_ERASING)
              then f' ← queue_until n (norflash_api_erase MAIN) norflash_free_erase f; Some (set_state NV_STATE_MAIN_ERASED s, f')
              else Some (s, f)).
Proof.
  intros Hok Hm. destruct (ok_phase _ _ _ (proj1 Hok)) as [c0 Hph]. destruct (decide _) as [Hd | Hd].
  - eapply ends_bind; [apply (queue_until_ends (Erase MAIN)), erase_queues'|]. intros g (h & Hf & Hq). apply ends_ret.
    assert (Hb : progress [] c0 f /\ base_cells (newest base s) true c0).
    { destruct Hd as [E | E]; rewrite E in Hph; destruct Hph as [Hp Hb]; apply base_cells_update in Hb; done. }
    split; [|split; [|by left]]; cbn [fst snd].
    + apply (nv_ok_queued _ _ _ f h g _ Hok Hf Hq). intros Hg. exists c0. split; [apply (Hg []), Hb | apply Hb].
    + split; [done|]. split; [done|]. unfold round_update. by destruct Hd as [-> | ->].
  - apply ends_ret. split; [done|]. split; [apply goes_on_refl|]. cbn [fst]. unfold in_main in Hm.
    destruct (nv_state s) eqn:Es; try discriminate Hm; auto; [destruct Hd; auto .. | destruct Hph].
Qed.

Lemma main_take_stage base s f : nv_ok base s f ->
  nv_state s = NV_STATE_MAIN_ERASED \/ nv_state s = NV_STATE_MAIN_WRITE_PENDING \/ nv_state s = NV_STATE_MAIN_WRITTEN ->
  exists s', (if decide (nv_state s = NV_STATE_MAIN_ERASED) then take_record crc32_c VL s else Some s) = Some s' /\
    stage base s (fun t => t = NV_STATE_MAIN_WRITE_PENDING \/ t = NV_STATE_MAIN_WRITTEN) (s', f).
Proof.
  intros Hok Ht. destruct (decide _) as [Es | Es].
  - destruct (take_stepped base s f Hok Es) as (s' & E & (H1 & H2 & _ & H3) & H4 & H5 & _). exists s'. split; [done|].
    split; [done|]. split; [|by left]. cbn [fst]. split; [done|]. split; [done|]. unfold round_update. by rewrite Es, H4, H5.
  - exists s. split; [done|]. split; [done|]. split; [apply goes_on_refl|]. cbn [fst]. by destruct Ht as [? | Ht].
Qed.

Lemma main_write_stage base s f : nv_ok base s f ->
  nv_state s = NV_STATE_MAIN_WRITE_PENDING \/ nv_state s = NV_STATE_MAIN_WRITTEN ->
  ends (stage base s (fun t => t = NV_STATE_MAIN_WRITTEN))
    (fun n => if decide (nv_state s = NV_STATE_MAIN_WRITE_PENDING)
              then f' ← queue_until n (norflash_api_write MAIN (burn_buf s)) norflash_free_write f; Some (set_state NV_STATE_MAIN_WRITTEN s, f')
              else Some (s, f)).
Proof.
  intros Hok Ht. destruct (ok_phase _ _ _ (proj1 Hok)) as [c0 Hph]. destruct (decide _) as [Es | Es].
  - rewrite Es in Hph. destruct Hph as (Hp & Hb & Hn).
    eapply ends_bind; [apply (queue_until_ends (Write MAIN (burn_buf s))), write_queues'|]. intros g (h & Hf & Hq). apply ends_ret.
    split; [|split; [|done]]; cbn [fst snd].
    + apply (nv_ok_queued _ _ _ f h g _ Hok Hf Hq). intros Hg. exists c0. rewrite Hn in Hg. split; [exact (Hg _ _ Hp) | exact Hb].
    + split; [done|]. split; [done|]. unfold round_update. by rewrite Es.
  - apply ends_ret. split; [done|]. split; [apply goes_on_refl|]. cbn [fst]. by destruct Ht.
Qed.

Lemma main_drain_stage base s f : nv_ok base s f -> nv_state s = NV_STATE_MAIN_WRITTEN ->
  ends (fun r => exists s' f', r = (0, s', f') /\ stage base s (fun t => t = NV_STATE_MAIN_DONE) (s', f'))
    (fun n => f4 ← flush_until n drained f; Some (0, set_state NV_STATE_MAIN_DONE s, f4)).
Proof.
  intros Hok Es. destruct (ok_phase _ _ _ (proj1 Hok)) as [c0 Hph]. rewrite Es in Hph. destruct Hph as [Hp Hb].
  eapply ends_bind; [apply drain_ends|]. intros g [Hg Hf]. apply ends_ret. eexists _, g. split; [reflexivity|].
  split; [|split; [|done]]; cbn [fst snd].
  - apply (nv_ok_state _ _ _ g); [by apply (nv_ok_flushes _ _ f) | by left|]. exists (stored g). split; [by apply progress_start|].
    rewrite (progress_done _ _ _ (flushes_progress _ _ _ _ Hf Hp) Hg). cbn. apply program_erased.
  - split; [done|]. split; [done|]. unfold round_update. by rewrite Es.
Qed.

Lemma stage_trans base s s1 f1 t t' r : stage base s t (s1, f1) -> stage base s1 t' r -> stage base s t' r.
Proof. intros (_ & A & _) (B1 & B2 & B3). split; [done|]. split; [by apply (goes_on_trans _ _ s1) | done]. Qed.

Lemma main_sync base s f : nv_ok base s f -> in_main s = true ->
  ends (fun r => exists s' f', r = (0, s', f') /\ stage base s (fun t => t = NV_STATE_MAIN_DONE) (s', f'))
    (fun n => flush_main_sync crc32_c VL n s f).
Proof.
  intros Hok Hm. unfold flush_main_sync. rewrite dev_ok, (ok_ptr _ _ _ (proj1 Hok)). cbn [negb].
  eapply ends_bind; [by apply main_erase_stage|]. intros [s1 f1] S1.
  destruct (main_take_stage base s1 f1 (proj1 S1) (proj2 (proj2 S1))) as (s2 & E2 & S2).
  eapply ends_ext; [intros n; rewrite E2; reflexivity|]. cbn [mbind option_bind].
  eapply ends_bind; [apply (main_write_stage base s2 f1); apply S2|]. intros [s3 f3] S3.
  destruct (main_drain_stage base s3 f3 (proj1 S3) (proj2 (proj2 S3))) as (N & r & (s' & f' & -> & S4) & HN).
  exists N, (0, s', f'). split; [|exact HN]. exists s', f'. split; [done|].
  eapply stage_trans; [exact S1|]. eapply stage_trans; [exact S2|]. eapply stage_trans; [exact S3 | exact S4].
Qed.

Lemma bak_erase_stage base s f : nv_ok base s f -> in_bak s = true ->
  ends (stage base s (fun t => t = NV_STATE_BAK_ERASED \/ t = NV_STATE_BAK_WRITE_PENDING \/ t = NV_STATE_BAK_WRITTEN))
    (fun n => if decide (nv_state s = NV_STATE_MAIN_DONE \/ nv_state s = NV_STATE_BAK_ERASING)
              then f' ← queue_until n (norflash_api_erase BAK) norflash_free_erase f; Some (set_state NV_STATE_BAK_ERASED s, f')
              else Some (s, f)).
Proof.
  intros Hok Hm. destruct (ok_phase _ _ _ (proj1 Hok)) as [c0 Hph]. destruct (decide _) as [Hd | Hd].
  - eapply ends_bind; [apply (queue_until_ends (Erase BAK)), erase_queues'|]. intros g (h & Hf & Hq). apply ends_ret.
    assert (Hb : progress [] c0 f /\ cell_main c0 = newest base s) by (by destruct Hd as [E | E]; rewrite E in Hph).
    split; [|split; [|by left]]; cbn [fst snd].
    + apply (nv_ok_queued _ _ _ f h g _ Hok Hf Hq). intros Hg. exists c0. split; [apply (Hg []), Hb | apply Hb].
    + split; [done|]. split; [done|]. unfold round_update. by destruct Hd as [-> | ->].
  - apply ends_ret. split; [done|]. split; [apply goes_on_refl|]. cbn [fst]. unfold in_bak in Hm.
    destruct (nv_state s) eqn:Es; try discriminate Hm; auto; [destruct Hd; auto .. | destruct Hph | destruct Hph].
Qed.

Lemma bak_read_stage base s f : nv_ok base s f ->
  nv_state s = NV_STATE_BAK_ERASED \/ nv_state s = NV_STATE_BAK_WRITE_PENDING \/ nv_state s = NV_STATE_BAK_WRITTEN ->
  exists s', (if decide (nv_state s = NV_STATE_BAK_ERASED \/ nv_state s = NV_STATE_BAK_WRITTEN) then read_main s f else Some s) = Some s' /\
    stage base s (fun t => t = NV_STATE_BAK_WRITE_PENDING) (s', f).
Proof.
  intros Hok Ht. destruct (ok_phase _ _ _ (proj1 Hok)) as [c0 Hph]. destruct (decide _) as [Hd | Hd].
  - assert (Hk : (exists k, progress (bak_ops (newest base s) k) c0 f) /\ cell_main c0 = newest base s).
    { destruct Hd as [E | E]; rewrite E in Hph; [destruct Hph as [Hp Hm] | destruct Hph as [[k Hp] Hm]]; (split; [by eexists | done]). }
    destruct Hk as [[k Hp] Hm]. rewrite (read_main_ok s f k _ c0 Hp Hm). eexists. split; [reflexivity|].
    split; [|split; [|done]]; cbn [fst snd].
    + apply (nv_ok_kept base s f); [done | by left | done |]. exists c0. split; [by exists k | done].
    + split; [done|]. split; [done|]. unfold round_update. by destruct Hd as [-> | ->].
  - exists s. split; [done|]. split; [done|]. split; [apply goes_on_refl|]. cbn [fst].
    destruct Ht as [E | [E | E]]; [destruct Hd; by left | done | destruct Hd; by right].
Qed.

Lemma bak_write_stage base s f : nv_ok base s f -> nv_state s = NV_STATE_BAK_WRITE_PENDING ->
  ends (stage base s (fun t => t = NV_STATE_BAK_WRITTEN))
    (fun n => if decide (nv_state s = NV_STATE_BAK_WRITE_PENDING)
              then f' ← queue_until n (norflash_api_write BAK (burn_buf s)) norflash_free_write f; Some (set_state NV_STATE_BAK_WRITTEN s, f')
              else Some (s, f)).
Proof.
  intros Hok Es. destruct (ok_phase _ _ _ (proj1 Hok)) as [c0 Hph]. destruct (decide _) as [_ | Hd]; [|by destruct Hd].
  rewrite Es in Hph. destruct Hph as ([k Hp] & Hm & Hb).
  eapply ends_bind; [apply (queue_until_ends (Write BAK (burn_buf s))), write_queues'|]. intros g (h & Hf & Hq). apply ends_ret.
  split; [|split; [|done]]; cbn [fst snd].
  - apply (nv_ok_queued _ _ _ f h g _ Hok Hf Hq). intros Hg. exists c0. rewrite Hb in Hg. split; [|done]. exists k. rewrite <- bak_ops_append. exact (Hg _ _ Hp).
  - split; [done|]. split; [done|]. unfold round_update. by rewrite Es.
Qed.

(** The state after a whole round. *)
Definition round_end (base : image) (s s' : nv_ext) (f' : F) : Prop :=
  nv_ok base s' f' /\ (clean base s -> clean base s') /\ sealed_of (ram s') = sealed_of (ram s) /\
  nv_state s' = NV_STATE_IDLE /\ is_update s' = round_update s.

Lemma bak_drain_stage base s f : nv_ok base s f -> nv_state s = NV_STATE_BAK_WRITTEN ->
  ends (fun r => exists s' f', r = (0, s', f') /\ round_end base s s' f')
    (fun n => f4 ← flush_until n drained f; Some (bak_done (0, set_state NV_STATE_BAK_DONE s, f4))).
Proof.
  intros Hok Es. destruct (ok_phase _ _ _ (proj1 Hok)) as [c0 Hph]. rewrite Es in Hph. destruct Hph as [[k Hp] Hm].
  eapply ends_bind; [apply drain_ends|]. intros g [Hg Hf]. rewrite bak_done_idle. apply ends_ret. eexists _, g. split; [reflexivity|].
  split; [|split; [done|split; [done|split; [done|]]]].
  - apply (nv_ok_state _ _ _ g); [by apply (nv_ok_flushes _ _ f) | by left|]. by apply (idle_phase _ g _ _ k c0); [apply (flushes_progress f) | ..].
  - unfold round_update. by rewrite Es.
Qed.

Lemma bak_sync base s f : nv_ok base s f -> in_bak s = true ->
  ends (fun r => exists s' f', r = (0, s', f') /\ round_end base s s' f') (fun n => flush_bak_sync n s f).
Proof.
  intros Hok Hm. unfold flush_bak_sync. rewrite dev_ok.
  eapply ends_bind; [by apply bak_erase_stage|]. intros [s1 f1] S1.
  destruct (bak_read_stage base s1 f1 (proj1 S1) (proj2 (proj2 S1))) as (s2 & E2 & S2).
  eapply ends_ext; [intros n; rewrite E2; reflexivity|]. cbn [mbind option_bind].
  eapply ends_bind; [apply (bak_write_stage base s2 f1); apply S2|]. intros [s3 f3] S3.
  destruct (bak_drain_stage base s3 f3 (proj1 S3) (proj2 (proj2 S3))) as (N & r & (s' & f' & -> & R1 & R2 & R3 & R4 & R5) & HN).
  exists N, (0, s', f'). split; [|exact HN]. exists s', f'. split; [done|].
  destruct (goes_on_trans _ _ _ _ (proj1 (proj2 S1)) (goes_on_trans _ _ _ _ (proj1 (proj2 S2)) (proj1 (proj2 S3)))) as (G1 & G2 & G3).
  split; [done|]. split; [auto|]. split; [by rewrite R3|]. split; [done|]. cbn in G3. by rewrite R5, G3.
Qed.

(** A round with something to do ends with the second copy written. *)
Lemma sync_round_ends base ret s f : nv_ok base s f -> nothing_to_do s = false ->
  ends (fun r => exists s' f', r = (0, s', f') /\ round_end base s s' f') (fun n => sync_round crc32_c VL n ret s f).
Proof.
  intros Hok Hn. unfold sync_round. destruct (in_main s) eqn:Hm.
  - eapply ends_bind; [by apply main_sync|]. intros r (s1 & f1 & -> & H1 & (G1 & G2 & G3) & Es). cbn [fst snd] in *.
    unfold in_bak. rewrite Es. assert (Hb : in_bak s1 = true) by (unfold in_bak; by rewrite Es).
    destruct (bak_sync base s1 f1 H1 Hb) as (N & r & (s' & f' & -> & R1 & R2 & R3 & R4 & R5) & HN).
    exists N, (0, s', f'). split; [|exact HN]. exists s', f'. split; [done|].
    split; [done|]. split; [auto|]. split; [by rewrite R3|]. split; [done|]. by rewrite R5, G3.
  - assert (Hb : in_bak s = true).
    { unfold in_main in Hm. unfold in_bak. destruct (nv_state s) eqn:Es; try done.
      unfold nothing_to_do in Hn. rewrite Es, Hm in Hn. discriminate Hn. }
    cbn [mbind option_bind]. rewrite Hb. by apply bak_sync.
Qed.

(** The rounds left: none, one, or two when a request came after the record was taken. *)
Definition rounds_left (s : nv_ext) : nat := if nothing_to_do s then 0 else if round_update s then 2 else 1.

Lemma sync_rounds base m : forall ret s f, nv_ok base s f -> (rounds_left s <= m)%nat ->
  exists N ret' s' f', (forall r n, (S m <= r)%nat -> (N <= n)%nat -> extension_flush_sync crc32_c VL r n ret s f = Some (ret', s', f')) /\
    nv_ok base s' f' /\ nothing_to_do s' = true /\ (clean base s -> clean base s') /\ sealed_of (ram s') = sealed_of (ram s).
Proof.
  induction m as [|m IH]; intros ret s f Hok Hm; destruct (nothing_to_do s) eqn:Hn.
  1,3: exists 0%nat, ret, s, f; (split; [|done]); intros [|r] n Hr _; [lia | cbn; by rewrite Hn].
  { unfold rounds_left in Hm. rewrite Hn in Hm. destruct (round_update s); lia. }
  destruct (sync_round_ends base ret s f Hok Hn) as (N1 & a & (s1 & f1 & -> & H1 & C1 & R1 & Es & Eu) & HN1).
  assert (Hleft : (rounds_left s1 <= m)%nat).
  { assert (E1 : round_update s1 = false) by (unfold round_update; by rewrite Es).
    unfold rounds_left in *. rewrite Hn in Hm. rewrite E1. destruct (nothing_to_do s1) eqn:N1'; [lia|].
    unfold nothing_to_do in N1'. rewrite Es, Eu in N1'. destruct (round_update s); [lia | discriminate N1']. }
  destruct (IH 0 s1 f1 H1 Hleft) as (N2 & ret' & s' & f' & HN2 & A1 & A2 & A3 & A4).
  exists (N1 `max` N2)%nat, ret', s', f'. split; [|split; [done|split; [done|split; [auto | by rewrite A4]]]].
  intros [|r] n Hr Hn'; [lia|]. cbn [extension_flush_sync]. rewrite Hn, HN1 by lia. cbn [mbind option_bind]. apply HN2; lia.
Qed.

Lemma sync_ends base s f : nv_ok base s f ->
  ends (fun r => exists x s' f', r = (x, s', f') /\ nv_ok base s' f' /\ nothing_to_do s' = true /\
         (clean base s -> clean base s') /\ sealed_of (ram s') = sealed_of (ram s))
    (fun n => nv_record_extension_flush crc32_c VL n false s f).
Proof.
  intros Hok. destruct (sync_rounds base 2 0 s f Hok) as (N & x & s' & f' & HN & H).
  { unfold rounds_left. destruct (nothing_to_do s), (round_update s); lia. }
  exists (N `max` 3)%nat, (x, s', f'). split; [by exists x, s', f'|]. intros n Hn. apply HN; lia.
Qed.

(** ** Runs *)
Definition change_ok (e : nv_event) : Prop := match e with Change b => length b = Z.to_nat VL | _ => True end.

Lemma change_sound base b s f : nv_ok base s f -> length b = Z.to_nat VL -> nv_ok base (set_ram (with_body b (ram s)) s) f.
Proof.
  intros Hok Hb. apply (nv_ok_moves base s f); [done | by left | done |].
  destruct (proj1 Hok) as [[H1 H2 H3 H4 _] Hp Hh Hph]. split; [by split | exact Hp | exact Hh | exact Hph].
Qed.

Lemma request_sound base s f : nv_ok base s f -> nv_ok base (nv_record_update_runtime_userdata s) f.
Proof.
  intros Hok. apply (nv_ok_moves base s f); [done | by left | done |].
  destruct (proj1 Hok) as [H1 Hp Hh [c0 Hph]]. split; [exact H1 | exact Hp | exact Hh|]. exists c0. cbn.
  destruct (nv_state s); try exact Hph; destruct Hph as [Hg Hb]; (split; [exact Hg|]); by apply base_cells_update in Hb.
Qed.

Lemma flush_event base now s f : nv_ok base s f ->
  ends (fun r => nv_ok base (fst r) (snd r) /\ nothing_to_do (fst r) = true /\ (clean base s -> clean base (fst r)) /\
          sealed_of (ram (fst r)) = sealed_of (ram s))
    (fun n => nv_record_flash_flush crc32_c VL n now s f).
Proof.
  intros Hok. unfold nv_record_flash_flush. eapply ends_bind; [by apply (sync_ends base)|].
  intros r (x & s' & f' & -> & H1 & H2 & H3 & H4). apply ends_ret. split; [by apply nv_ok_checkpoint | done].
Qed.

Lemma hook_event base now s f fuel : nv_ok base s f -> exists s' f',
  nv_event_step crc32_c VL fuel (Hook now) s f = Some (s', f') /\ nv_ok base s' f' /\ body (ram s') = body (ram s).
Proof.
  intros Hok. destruct (nothing_to_do s) eqn:Hn.
  - eexists _, _. cbn. unfold nv_record_execute_async_flush, extension_flush_async. rewrite Hn.
    split; [reflexivity|]. split; [by apply nv_ok_checkpoint | done].
  - destruct (hook_step base fuel now s f Hok Hn) as (s' & f' & E & H & _ & _ & Hb). exists s', f'.
    split; [done|]. split; [done|]. by apply (f_equal body) in Hb.
Qed.

Lemma sleep_event base max_ms interval now s f fuel : nv_ok base s f -> exists s' f',
  nv_event_step crc32_c VL fuel (Sleep max_ms interval now) s f = Some (s', f') /\ nv_ok base s' f' /\ body (ram s') = body (ram s).
Proof.
  intros Hok. cbn [nv_event_step]. unfold nv_record_flash_flush_in_sleep. destruct (bool_decide _ && _); [by exists s, f|].
  destruct (hook_event base now s f fuel Hok) as (s' & f' & E & H). cbn [nv_event_step] in E. rewrite E. by exists s', f'.
Qed.

(** What a step leaves as the bytes of the mirror. *)
Definition event_body (b : list Z) (e : nv_event) : list Z := match e with Change b' => b' | _ => b end.

Lemma seal_body i j : sealed_of i = sealed_of j -> body i = body j.
Proof. intros E. by apply (f_equal body) in E. Qed.

Lemma event_ends base e s f : nv_ok base s f -> change_ok e ->
  ends (fun r => nv_ok base (fst r) (snd r) /\ body (ram (fst r)) = event_body (body (ram s)) e)
    (fun n => nv_event_step crc32_c VL n e s f).
Proof.
  intros Hok He. destruct e as [now | max_ms interval now | now | b | |].
  - destruct (hook_event base now s f 0 Hok) as (s' & f' & E & H & Hb). exists 0%nat, (s', f'). split; [done | intros n _; exact E].
  - destruct (sleep_event base max_ms interval now s f 0 Hok) as (s' & f' & E & H & Hb). exists 0%nat, (s', f'). split; [done | intros n _; exact E].
  - destruct (flush_event base now s f Hok) as (N & r & (H & _ & _ & Hs) & HN). exists N, r. split; [|exact HN].
    split; [exact H | by apply seal_body].
  - apply ends_ret. split; [by apply change_sound | done].
  - apply ends_ret. split; [by apply request_sound | done].
  - apply ends_ret. split; [by apply nv_ok_flush | done].
Qed.

Lemma events_end base l : forall s f, nv_ok base s f -> Forall change_ok l ->
  ends (fun r => nv_ok base (fst r) (snd r) /\ body (ram (fst r)) = fold_left event_body l (body (ram s)))
    (fun n => nv_events crc32_c VL n l s f).
Proof.
  induction l as [|e l IH]; intros s f Hok Hl; cbn [nv_events fold_left]; [by apply ends_ret|].
  apply Forall_cons in Hl as [He Hl].
  eapply ends_bind; [by apply (event_ends base)|]. intros [s1 f1] [H1 <-]. by apply IH.
Qed.

Lemma newest_clean base s f : nv_ok base s f -> nothing_to_do s = true -> clean base s -> newest base s = sealed_of (ram s).
Proof.
  intros Hok Hn [Hu | Hc]; [|done]. unfold nothing_to_do in Hn. rewrite Hu, andb_false_r in Hn. discriminate Hn.
Qed.

(** ** The start *)
(** The flash as the power comes on: nothing queued, no history. *)
Definition powered (c : cells image) (f : F) : Prop := pending f = [] /\ snapshots f = [] /\ stored f = c.

(** The module's variables as the image of the program sets them. *)
Record cold (s : nv_ext) : Prop := {
  co_init : nvrec_init s = false; co_ram : ram_ok (ram s); co_taken : taken s = [] }.

(** Both copies hold the record, as does the mirror, and nothing is asked. *)
Record at_rest (x : image) (s : nv_ext) (f : F) : Prop := {
  ar_flash : powered (mkCells x x) f; ar_sealed : sealed x; ar_state : nothing_to_do s = true;
  ar_ram : ram s = x; ar_ptr : extension_p s = true; ar_taken : taken s = [] }.

Lemma powered_safe base s c f : powered c f -> all_safe base s f.
Proof. intros (_ & H & _) ops c0 c' Hin. rewrite H in Hin. by apply not_elem_of_nil in Hin. Qed.

Lemma at_rest_ok x s f : at_rest x s f -> nv_ok x s f.
Proof.
  intros [Hf Hx Hs Hr Hp Ht]. split; [|by apply (powered_safe _ _ _ _ Hf)]. destruct Hf as (Hp1 & _ & Hs1).
  unfold nothing_to_do in Hs. apply andb_true_iff in Hs as [Hi _]. apply bool_decide_eq_true in Hi.
  assert (Hh : hist x s = [x]) by (unfold hist; by rewrite Ht).
  split; [rewrite Hr; apply Hx | done | rewrite Hh; by apply Forall_singleton|].
  exists (mkCells x x). rewrite Hi. unfold newest. rewrite Hh. split; [rewrite <- Hs1; by apply progress_start|].
  split; [done | by left].
Qed.

(** The state the start begins its flush from. *)
Definition start_state (i : image) (u : bool) (t : NV_STATE) (s : nv_ext) : nv_ext :=
  mkNvExt u t true true i (burn_buf s) (lastFlushCheckPointInMs s) (taken s).

Lemma init_chooses fuel s f c i : cold s -> powered c f -> boot_image c = Some i -> sealed i ->
  nv_record_extension_init crc32_c VL default_body fuel s f =
    let mv := copy_is_valid crc32_c VL (cell_main c) in let bv := copy_is_valid crc32_c VL (cell_bak c) in
    if mv && bv then Some (start_state i false NV_STATE_IDLE s, f)
    else '(_, s', f') ← nv_record_extension_flush crc32_c VL fuel false
                         (start_state i true (if mv then NV_STATE_MAIN_DONE else NV_STATE_IDLE) s) f; Some (s', f').
Proof.
  intros [Hi Hr Ht] (Hp & _ & Hs) Hb Hx. unfold nv_record_extension_init. rewrite Hi. cbn [ram].
  replace (local_data_bad (ram s)) with false.
  2: { destruct Hr as [R1 R2 R3 R4 _]. unfold local_data_bad. rewrite R1, R2, R3, R4, !Z.eqb_refl.
       cbn [negb orb]. symmetry. rewrite Z.geb_leb. apply Z.leb_gt. lia. }
  rewrite !mapped_stored, Hs. change (get MAIN c) with (cell_main c). change (get BAK c) with (cell_bak c).
  unfold boot_image in Hb. unfold choose_copy.
  destruct (copy_is_valid crc32_c VL (cell_main c)) eqn:Hm; [|destruct (copy_is_valid crc32_c VL (cell_bak c)) eqn:Hv; [|done]];
    injection Hb as ->; [destruct (copy_is_valid crc32_c VL (cell_bak c)) eqn:Hv|]; cbv zeta;
    (rewrite load_sealed; [|exact Hx | exact Hr]); reflexivity.
Qed.

(** One copy valid: the start brings the other one up to it. *)
Lemma start_state_ok i s c f : cold s -> powered c f -> boot_image c = Some i -> sealed i ->
  ~ (valid (cell_main c) /\ valid (cell_bak c)) ->
  nv_ok i (start_state i true (if copy_is_valid crc32_c VL (cell_main c) then NV_STATE_MAIN_DONE else NV_STATE_IDLE) s) f.
Proof.
  intros [Hi Hr Ht] Hf Hb Hx Hone. split; [|by apply (powered_safe _ _ _ _ Hf)]. destruct Hf as (Hp & _ & Hs).
  set (s1 := start_state _ _ _ _). assert (Hh : hist i s1 = [i]) by (unfold hist; cbn; by rewrite Ht).
  split; [apply Hx | done | rewrite Hh; by apply Forall_singleton|].
  exists c. unfold newest. rewrite Hh. assert (Hg : progress [] c f) by (rewrite <- Hs; by apply progress_start).
  unfold boot_image, valid in *. cbn [nv_state s1 start_state].
  destruct (copy_is_valid crc32_c VL (cell_main c)) eqn:Hm.
  - injection Hb as Hb. split; [exact Hg | exact Hb].
  - destruct (copy_is_valid crc32_c VL (cell_bak c)) eqn:Hv; [|discriminate Hb]. injection Hb as Hb.
    split; [exact Hg|]. split; [exact Hb|]. right. split; [unfold valid; congruence | reflexivity].
Qed.

Lemma start_ends i s c f : cold s -> powered c f -> boot_image c = Some i -> sealed i ->
  ends (fun r => sealed_of (ram (fst r)) = i /\ nothing_to_do (fst r) = true /\
          cell_main (stored (snd r)) = i /\ (valid (cell_main c) -> valid (cell_bak c) -> stored (snd r) = c) /\
          (~ (valid (cell_main c) /\ valid (cell_bak c)) -> stored (snd r) = mkCells i i /\ nv_ok i (fst r) (snd r)))
    (fun n => nv_record_extension_init crc32_c VL default_body n s f).
Proof.
  intros Hs Hf Hb Hx. eapply ends_ext; [intros n; symmetry; by apply (init_chooses n s f c i)|]. cbv zeta.
  pose proof (start_state_ok i s c f Hs Hf Hb Hx) as Hone. unfold boot_image, valid in *.
  destruct (copy_is_valid crc32_c VL (cell_main c)) eqn:Hm; destruct (copy_is_valid crc32_c VL (cell_bak c)) eqn:Hv;
    cbn [andb]; try discriminate Hb; injection Hb as Hb.
  1: { apply ends_ret. cbn [fst snd]. destruct Hf as (_ & _ & ->). split; [by apply seal_of_sealed|]. split; [done|].
       split; [done|]. split; [done|]. intros H. by destruct H. }
  all: eapply ends_bind; [apply (sync_ends i), Hone; intros [H1 H2]; congruence|].
  all: intros r (x & s' & f' & -> & H1 & H2 & H3 & H4); apply ends_ret; cbn [fst snd].
  all: pose proof (newest_clean _ _ _ H1 H2 (H3 (or_introl eq_refl))) as Hn; cbn [ram start_state] in H4.
  all: rewrite H4, (seal_of_sealed i Hx) in Hn; destruct (idle_copies _ _ _ H1 H2) as [_ Hst]; rewrite Hn in Hst.
  all: split; [by rewrite H4, (seal_of_sealed i Hx)|]; split; [done|]; split; [by rewrite Hst|].
  all: split; [intros; congruence | done].
Qed.
End Laws.
