(* ===== verification/NvExtProps.v ===== *)
(** What the user data section of nvrecord_extension.c promises: a loss of power at any moment leaves a
    record that was stored, a flush ends and stores what the mirror holds, by steps or at once, and the
    start loads it; with the case where an older copy comes back. *)
From Stdlib Require Import ZArith Lia Bool.
From stdpp Require Import base option list.
From S2P Require Import Prelude Norflash NvExt NvExtLaws.

(** ** A flash and a checksum for the examples *)
(** Programming clears bits; a blank sector takes the data as they are. *)
Definition nor_program (n : Z) (old new : image) : image :=
  if decide (old = blank_image n) then new
  else mkImage (Z.land (magicNumber old) (magicNumber new)) (Z.land (majorVersion old) (majorVersion new))
         (Z.land (minorVersion old) (minorVersion new)) (Z.land (validLen old) (validLen new))
         (Z.land (crc32 old) (crc32 new)) (zip_with Z.land (body old) (body new)).

Lemma nor_program_erased n i : nor_program n (blank_image n) i = i.
Proof. unfold nor_program. by rewrite decide_True. Qed.

Lemma nor_program_same n i : nor_program n i i = i.
Proof.
  unfold nor_program. destruct (decide _); [done|]. rewrite !Z.land_diag.
  assert (E : forall l, zip_with Z.land l l = l) by (induction l as [|x l IH]; cbn; rewrite ?Z.land_diag, ?IH; done).
  rewrite E. by destruct i.
Qed.

(** A record of two bytes. *)
Definition LEN : Z := 2.
#[local] Instance example_norflash : Norflash image (queue_flash (I:=image)) := queue_norflash (blank_image LEN) (nor_program LEN).
#[local] Instance example_spec : NorflashSpec image (queue_flash (I:=image)) (blank_image LEN) :=
  queue_norflash_spec (blank_image LEN) (nor_program LEN) (nor_program_erased LEN) (nor_program_same LEN).

Definition example_crc (b : list Z) : Z := fold_right Z.add 0 b.
Definition record_of (b : list Z) : image :=
  seal example_crc LEN (mkImage NV_EXTENSION_MAGIC_NUMBER NV_EXTENSION_MAJOR_VERSION NV_EXTENSION_MINOR_VERSION LEN 0 b).
Definition chip (m b : image) : queue_flash := mkQueueFlash (mkCells m b) [] [].
Definition resting (b : list Z) : nv_ext :=
  mkNvExt false NV_STATE_IDLE true true (record_of b) (record_of b) 0 [].
Definition switched_on : nv_ext :=
  mkNvExt false NV_STATE_IDLE false false (record_of [0; 0]) (record_of [0; 0]) 0 [].

Lemma record_of_sealed b : length b = 2%nat -> sealed (VL:=LEN) example_crc (record_of b).
Proof. intros H. by repeat split. Qed.

Lemma resting_at_rest b : length b = 2%nat -> at_rest example_crc (record_of b) (resting b) (chip (record_of b) (record_of b)).
Proof. intros H. split; [done | by apply record_of_sealed | done ..]. Qed.

Lemma switched_on_cold : cold (VL:=LEN) switched_on.
Proof. by repeat split. Qed.

(** C2: No loss of power loses the record. From rest with the record [x] in both copies, any sequence of
    steps from the sleep hook, flushes at once, changes, requests and work of the flash service runs to
    its end with enough fuel; and if the power is lost at any moment of it, between two operations of
    the flash or within one that leaves its sector invalid, the next start, on the copies left, ends with
    a record in the mirror that was [x] or was taken by a flush. Whatever the implementation of the
    flash service. *)
Theorem nvx_crash_safe VL F (NF : Norflash image F) (HF : NorflashSpec image F (blank_image VL)) crc32_c x s f l :
  0 <= VL < NV_EXTENSION_SIZE - NV_EXTENSION_HEADER_SIZE -> at_rest crc32_c x s f -> Forall (change_ok (VL:=VL)) l ->
  ends (fun r => forall ops c0 c, (ops, c0) ∈ snapshots (snd r) -> crash_at (torn_invalid (VL:=VL) crc32_c) ops c0 c ->
          exists i, i ∈ x :: taken (fst r) /\ boot_image (VL:=VL) crc32_c c = Some i /\
            forall default_body s2 f2, cold (VL:=VL) s2 -> powered c f2 ->
              ends (fun r2 => seal crc32_c VL (ram (fst r2)) = i /\ nothing_to_do (fst r2) = true /\ cell_main (stored (snd r2)) = i)
                (fun n => nv_record_extension_init crc32_c VL default_body n s2 f2))
    (fun n => nv_events crc32_c VL n l s f).
Proof.
  intros HVL Hr Hl. destruct (events_end crc32_c HVL x l s f (at_rest_ok crc32_c x s f Hr) Hl) as (N & r & [[Hok Ha] _] & HN).
  exists N, r. split; [|exact HN]. intros ops c0 c Hin Hc. destruct (Ha ops c0 c Hin Hc) as (i & Hi & Hb). exists i.
  split; [apply elem_of_app in Hi as [Hi | Hi]; [by apply list_elem_of_further | apply list_elem_of_singleton in Hi as ->; apply list_elem_of_here]|].
  split; [exact Hb|]. intros default_body s2 f2 Hs2 Hf2.
  assert (Hx : sealed crc32_c i) by exact (proj1 (Forall_forall _ _) (ok_hist _ _ _ _ Hok) i Hi).
  destruct (start_ends crc32_c default_body HVL i s2 c f2 Hs2 Hf2 Hb Hx) as (M & r2 & (H1 & H2 & H3 & _) & HM). by exists M, r2.
Qed.

Definition day : list nv_event := [Change [5; 6]; Request; Hook 1; Hook 2; Background; Hook 3; Change [7; 8]; Flush 4].

Lemma nvx_crash_safe_witness :
  exists n r, nv_events example_crc LEN n day (resting [1; 2]) (chip (record_of [1; 2]) (record_of [1; 2])) = Some r /\
    forall ops c0, (ops, c0) ∈ snapshots (snd r) -> exists i, boot_image (VL:=LEN) example_crc c0 = Some i.
Proof.
  destruct (nvx_crash_safe LEN _ example_norflash example_spec example_crc (record_of [1; 2]) (resting [1; 2])
    (chip (record_of [1; 2]) (record_of [1; 2])) day) as (N & r & H & HN).
  - unfold LEN, NV_EXTENSION_SIZE, NV_EXTENSION_HEADER_SIZE. lia.
  - by apply resting_at_rest.
  - repeat constructor.
  - exists N, r. split; [apply HN; lia|]. intros ops c0 Hin.
    destruct (H ops c0 c0 Hin) as (i & _ & Hb & _); [exists 0%nat; by left | by exists i].
Defined.

(** C25: A flush at once ends and stores the mirror: from rest, after any sequence of steps, whatever
    state they left the flush in, a request and a flush end with nothing left to do and nothing queued,
    both copies holding, sealed, the bytes last written to the mirror. *)
Theorem nvx_flush_persists VL F (NF : Norflash image F) (HF : NorflashSpec image F (blank_image VL)) crc32_c x s f l now :
  0 <= VL < NV_EXTENSION_SIZE - NV_EXTENSION_HEADER_SIZE -> at_rest crc32_c x s f -> Forall (change_ok (VL:=VL)) l ->
  ends (fun r => nothing_to_do (fst r) = true /\ pending (snd r) = [] /\
          exists i, stored (snd r) = mkCells i i /\ sealed (VL:=VL) crc32_c i /\ body i = fold_left event_body l (body x))
    (fun n => nv_events crc32_c VL n (l ++ [Request; Flush now]) s f).
Proof.
  intros HVL Hr Hl. eapply ends_ext; [intros n; symmetry; apply nv_events_app|].
  eapply ends_bind; [apply (events_end crc32_c HVL x l s f (at_rest_ok crc32_c x s f Hr) Hl)|]. intros [s1 f1] [H1 Hb].
  cbn [nv_events nv_event_step mbind option_bind fst snd] in *. pose proof (request_sound crc32_c HVL x s1 f1 H1) as H2.
  eapply ends_bind; [apply (flush_event crc32_c HVL x now _ f1 H2)|]. intros [s3 f3] (H3 & Hn & Hc & Hs). apply ends_ret.
  cbn [fst snd] in *. split; [exact Hn|]. destruct (idle_copies crc32_c x s3 f3 H3 Hn) as [Hp Hst]. split; [exact Hp|].
  exists (newest x s3). split; [exact Hst|]. pose proof (newest_clean crc32_c x s3 f3 H3 Hn (Hc (or_introl eq_refl))) as E.
  split; [exact (nth_sealed crc32_c x s3 0 (ok_hist _ _ _ _ (proj1 H3)))|].
  rewrite E, Hs. cbn. rewrite Hb. by rewrite (ar_ram _ _ _ _ Hr).
Qed.

Lemma nvx_flush_persists_witness :
  exists n r i, nv_events example_crc LEN n (day ++ [Request; Flush 9]) (resting [1; 2]) (chip (record_of [1; 2]) (record_of [1; 2])) = Some r /\
    stored (snd r) = mkCells i i /\ body i = [7; 8].
Proof.
  destruct (nvx_flush_persists LEN _ example_norflash example_spec example_crc (record_of [1; 2]) (resting [1; 2])
    (chip (record_of [1; 2]) (record_of [1; 2])) day 9) as (N & r & (_ & _ & i & H1 & _ & H2) & HN).
  - unfold LEN, NV_EXTENSION_SIZE, NV_EXTENSION_HEADER_SIZE. lia.
  - by apply resting_at_rest.
  - repeat constructor.
  - exists N, r, i. split; [apply HN; lia | by split].
Defined.





(** The start loads the first valid copy and repairs the other: with the mirror as the program's
    image sets it and a sealed record in the copy chosen, [nv_record_extension_init] ends with that record
    in the mirror and in the first copy; when the other copy was not valid it holds the record too. *)
Theorem nvx_restart VL F (NF : Norflash image F) (HF : NorflashSpec image F (blank_image VL)) crc32_c default_body i s c f :
  0 <= VL < NV_EXTENSION_SIZE - NV_EXTENSION_HEADER_SIZE -> cold (VL:=VL) s -> powered c f ->
  boot_image (VL:=VL) crc32_c c = Some i -> sealed (VL:=VL) crc32_c i ->
  ends (fun r => seal crc32_c VL (ram (fst r)) = i /\ nothing_to_do (fst r) = true /\ cell_main (stored (snd r)) = i /\
          (copy_is_valid crc32_c VL (cell_main c) = false \/ copy_is_valid crc32_c VL (cell_bak c) = false ->
             stored (snd r) = mkCells i i))
    (fun n => nv_record_extension_init crc32_c VL default_body n s f).
Proof.
  intros HVL Hs Hf Hb Hx. destruct (start_ends crc32_c default_body HVL i s c f Hs Hf Hb Hx) as (N & r & (H1 & H2 & H3 & _ & H4) & HN).
  exists N, r. split; [|exact HN]. split; [exact H1|]. split; [exact H2|]. split; [exact H3|]. intros Hv. apply H4.
  intros [V1 V2]. destruct Hv; congruence.
Qed.

Lemma nvx_restart_witness :
  exists n r, nv_record_extension_init example_crc LEN [0; 0] n switched_on (chip (blank_image LEN) (record_of [3; 4])) = Some r /\
    stored (snd r) = mkCells (record_of [3; 4]) (record_of [3; 4]).
Proof.
  destruct (nvx_restart LEN _ example_norflash example_spec example_crc [0; 0] (record_of [3; 4]) switched_on
    (mkCells (blank_image LEN) (record_of [3; 4])) (chip (blank_image LEN) (record_of [3; 4]))) as (N & r & (_ & _ & _ & H) & HN).
  - unfold LEN, NV_EXTENSION_SIZE, NV_EXTENSION_HEADER_SIZE. lia.
  - apply switched_on_cold.
  - by repeat split.
  - reflexivity.
  - by apply record_of_sealed.
  - exists N, r. split; [apply HN; lia|]. apply H. left. reflexivity.
Defined.

(** When both copies are valid and differ the start keeps the second one as it is, so the record it loads
    is not safe: after a loss of power between the writing of the two copies, the next start loads [3; 4];
    a loss of power in the flush that follows brings the older [1; 2] back. *)
Theorem nvx_stale_backup :
  exists s f, nv_record_extension_init example_crc LEN [0; 0] 9 switched_on (chip (record_of [3; 4]) (record_of [1; 2])) = Some (s, f) /\
    ram s = record_of [3; 4] /\
    exists s' f', nv_events example_crc LEN 9 [Change [5; 6]; Request; Hook 1; Background] s f = Some (s', f') /\
      boot_image (VL:=LEN) example_crc (stored f') = Some (record_of [1; 2]).
Proof. eexists _, _. split; [reflexivity|]. split; [reflexivity|]. eexists _, _. split; reflexivity. Qed.
