(* ===== verification/HalKey.v ===== *)
(** The key scanner of platform/hal/hal_key.c: interrupts of the power key and the GPIO keys start a
    timer whose handler samples the keys, filters bounces and turns the set of pressed keys into
    key events. The build modelled has a power key, any table of GPIO keys and no ADC keys, and the
    keys are armed one by one (neither NO_GROUPKEY nor __POWERKEY_CTRL_ONOFF_ONLY__ defined).
    The interrupts of the keys and of the timer have one priority, so a handler runs to its end. *)
From Stdlib Require Import ZArith Lia Bool.
From stdpp Require Import base gmap option list.
From S2P Require Import Prelude.

(** ** Constants *)
Definition HAL_KEY_CODE_NONE : Z := 0.
Definition HAL_KEY_CODE_PWR : Z := 1.

Definition HAL_KEY_EVENT_NONE : Z := 0.
Definition HAL_KEY_EVENT_DOWN : Z := 1.
Definition HAL_KEY_EVENT_FIRST_DOWN : Z := 2.
Definition HAL_KEY_EVENT_CONTINUED_DOWN : Z := 3.
Definition HAL_KEY_EVENT_UP : Z := 4.
Definition HAL_KEY_EVENT_UP_AFTER_LONGPRESS : Z := 5.
Definition HAL_KEY_EVENT_LONGPRESS : Z := 6.
Definition HAL_KEY_EVENT_LONGLONGPRESS : Z := 7.
Definition HAL_KEY_EVENT_CLICK : Z := 8.
Definition HAL_KEY_EVENT_RAMPAGECLICK : Z := 12.
Definition HAL_KEY_EVENT_REPEAT : Z := 13.
Definition HAL_KEY_EVENT_INITDOWN : Z := 16.
Definition HAL_KEY_EVENT_INITUP : Z := 17.
Definition HAL_KEY_EVENT_INITLONGPRESS : Z := 18.
Definition HAL_KEY_EVENT_INITLONGLONGPRESS : Z := 19.
Definition HAL_KEY_EVENT_INITFINISHED : Z := 20.

Definition MAX_KEY_CLICK_COUNT : Z := HAL_KEY_EVENT_RAMPAGECLICK - HAL_KEY_EVENT_CLICK.

Definition HAL_KEY_GPIOKEY_VAL_LOW : Z := 0.
Definition HAL_PWRKEY_IRQ_FALLING_EDGE : Z := 1.
Definition HAL_GPIO_IRQ_POLARITY_LOW_FALLING : Z := 0.
Definition HAL_GPIO_IRQ_POLARITY_HIGH_RISING : Z := 1.

(** The words of a pin map: [HAL_GPIO_PIN_NUM] is 16. *)
Definition GPIO_MAP_WORD_CNT : nat := 1.

(** ** Pin maps: arrays of 32-bit words, a bit for each pin *)
Notation GPIO_MAP_T := (list Z).

Definition pin_bit (pin : Z) : Z := Z.shiftl 1 (pin mod 32).
Definition pin_word (pin : Z) : nat := Z.to_nat (pin / 32).

Definition gpio_map_set_pin (map : GPIO_MAP_T) (pin : Z) : GPIO_MAP_T := alter (fun w => Z.lor w (pin_bit pin)) (pin_word pin) map.
Definition gpio_map_clear_pin (map : GPIO_MAP_T) (pin : Z) : GPIO_MAP_T := alter (fun w => Z.land w (Z.lnot (pin_bit pin))) (pin_word pin) map.
Definition gpio_map_test_set_pin (map : GPIO_MAP_T) (pin : Z) : bool := negb (Z.land (nth (pin_word pin) map 0) (pin_bit pin) =? 0).
Definition gpio_map_set_map (map1 map2 : GPIO_MAP_T) : GPIO_MAP_T := zip_with Z.lor map1 map2.
Definition gpio_map_clear_map (map1 map2 : GPIO_MAP_T) : GPIO_MAP_T := zip_with (fun w1 w2 => Z.land w1 (Z.lnot w2)) map1 map2.
Definition gpio_map_clear : GPIO_MAP_T := replicate GPIO_MAP_WORD_CNT 0.
Definition gpio_map_test_set_map (map1 map2 : GPIO_MAP_T) : bool := existsb (fun w => negb (w =? 0)) (zip_with Z.land map1 map2).
Definition gpio_map_test_set (map : GPIO_MAP_T) : bool := existsb (fun w => negb (w =? 0)) map.

(** ** Data *)
Record HAL_KEY_GPIOKEY_CFG_T := mkCfg { key_code : Z; key_pin : Z; key_down : Z }.

Record HAL_KEY_GPIOKEY_T := mkGpio {
  pin_debounce : GPIO_MAP_T; pin_dither : GPIO_MAP_T; pin_down : GPIO_MAP_T; time_debounce : Z; time_dither : Z }.

Record HAL_KEY_PWRKEY_T := mkPwr { debounce : bool; dither : bool; pressed : bool; pwr_time : Z }.

Record HAL_KEY_STATUS_T := mkStatus {
  code_down : Z; code_ready : Z; code_click : Z; event : Z;
  time_updown : Z; time_click : Z; cnt_repeat : Z; cnt_click : Z }.

(** The handler of the timer. *)
Inductive handler := Boot | Debounce.
#[export] Instance handler_eq_dec : EqDecision handler.
Proof. solve_decision. Defined.

(** The variables of the file and what the hardware holds: whether the timer runs, whether the
    falling edge of the power key is armed, the polarity each armed pin has; [sent] is every
    (code, event) passed to the callback. *)
Record keys := mkKeys {
  key_detected_callback : bool; debounce_timer : option handler; timer_active : bool;
  key_status : HAL_KEY_STATUS_T; debounce_started : bool; time_first_debounce : Z;
  pwr_key : HAL_KEY_PWRKEY_T; gpio_key : HAL_KEY_GPIOKEY_T;
  timer_set : bool; pwr_armed : bool; gpio_armed : gmap Z Z; sent : list (Z * Z) }.

Definition zero_status : HAL_KEY_STATUS_T := mkStatus 0 0 0 0 0 0 0 0.
Definition zero_pwr : HAL_KEY_PWRKEY_T := mkPwr false false false 0.
Definition zero_gpio : HAL_KEY_GPIOKEY_T := mkGpio gpio_map_clear gpio_map_clear gpio_map_clear 0 0.

(** Assignments to one variable. *)
Definition set_callback b k := mkKeys b (debounce_timer k) (timer_active k) (key_status k) (debounce_started k) (time_first_debounce k) (pwr_key k) (gpio_key k) (timer_set k) (pwr_armed k) (gpio_armed k) (sent k).
Definition set_handler h k := mkKeys (key_detected_callback k) h (timer_active k) (key_status k) (debounce_started k) (time_first_debounce k) (pwr_key k) (gpio_key k) (timer_set k) (pwr_armed k) (gpio_armed k) (sent k).
Definition set_active b k := mkKeys (key_detected_callback k) (debounce_timer k) b (key_status k) (debounce_started k) (time_first_debounce k) (pwr_key k) (gpio_key k) (timer_set k) (pwr_armed k) (gpio_armed k) (sent k).
Definition set_status s k := mkKeys (key_detected_callback k) (debounce_timer k) (timer_active k) s (debounce_started k) (time_first_debounce k) (pwr_key k) (gpio_key k) (timer_set k) (pwr_armed k) (gpio_armed k) (sent k).
Definition set_started b t k := mkKeys (key_detected_callback k) (debounce_timer k) (timer_active k) (key_status k) b t (pwr_key k) (gpio_key k) (timer_set k) (pwr_armed k) (gpio_armed k) (sent k).
Definition set_pwr p k := mkKeys (key_detected_callback k) (debounce_timer k) (timer_active k) (key_status k) (debounce_started k) (time_first_debounce k) p (gpio_key k) (timer_set k) (pwr_armed k) (gpio_armed k) (sent k).
Definition set_gpio g k := mkKeys (key_detected_callback k) (debounce_timer k) (timer_active k) (key_status k) (debounce_started k) (time_first_debounce k) (pwr_key k) g (timer_set k) (pwr_armed k) (gpio_armed k) (sent k).
Definition set_timer b k := mkKeys (key_detected_callback k) (debounce_timer k) (timer_active k) (key_status k) (debounce_started k) (time_first_debounce k) (pwr_key k) (gpio_key k) b (pwr_armed k) (gpio_armed k) (sent k).
Definition set_pwr_armed b k := mkKeys (key_detected_callback k) (debounce_timer k) (timer_active k) (key_status k) (debounce_started k) (time_first_debounce k) (pwr_key k) (gpio_key k) (timer_set k) b (gpio_armed k) (sent k).
Definition set_gpio_armed m k := mkKeys (key_detected_callback k) (debounce_timer k) (timer_active k) (key_status k) (debounce_started k) (time_first_debounce k) (pwr_key k) (gpio_key k) (timer_set k) (pwr_armed k) m (sent k).
Definition set_sent l k := mkKeys (key_detected_callback k) (debounce_timer k) (timer_active k) (key_status k) (debounce_started k) (time_first_debounce k) (pwr_key k) (gpio_key k) (timer_set k) (pwr_armed k) (gpio_armed k) l.

Definition send_key_event (code ev : Z) (k : keys) : keys :=
  if key_detected_callback k then set_sent (sent k ++ [(code, ev)]) k else k.

(** The timer is stopped and started again; it expires once. *)
Definition hal_key_debounce_timer_restart (k : keys) : keys :=
  if timer_active k then k else set_timer true (set_active true k).

(** ** The power key *)
Definition hal_pwrkey_enable_int (k : keys) : keys := set_pwr_armed true k.
Definition hal_pwrkey_disable_int (k : keys) : keys := set_pwr_armed false k.
Definition hal_pwrkey_reset (k : keys) : keys := set_pwr zero_pwr k.

(** [down] is the level [hal_pwrkey_pressed] reads. *)
Definition hal_pwrkey_handle_irq_state (state now : Z) (down : bool) (k : keys) : keys :=
  let k1 := hal_pwrkey_disable_int k in
  let p := pwr_key k1 in
  let k2 := if negb (Z.land state HAL_PWRKEY_IRQ_FALLING_EDGE =? 0)
            then set_pwr (if down then mkPwr true (dither p) down now else mkPwr (debounce p) true down now) k1
            else k1 in
  hal_key_debounce_timer_restart k2.

Definition hal_pwrkey_open (k : keys) : keys := hal_pwrkey_reset k.
Definition hal_pwrkey_close (k : keys) : keys := hal_pwrkey_disable_int (hal_pwrkey_reset k).

Definition pwr_busy (p : HAL_KEY_PWRKEY_T) : bool := debounce p || dither p || pressed p.

Section Build.
(** [hz] is CONFIG_SYSTICK_HZ / 1000, the ticks of a millisecond, and the table of the GPIO keys. *)
Variable hz : Z.
Variable cfg_hw_gpio_key_cfg : list HAL_KEY_GPIOKEY_CFG_T.

Definition MS_TO_TICKS (ms : Z) : Z := ms * hz.
Definition KEY_PERMPRESS_THRESHOLD : Z := MS_TO_TICKS 30000.
Definition KEY_LONGLONGPRESS_THRESHOLD : Z := MS_TO_TICKS 5000.
Definition KEY_LONGPRESS_THRESHOLD : Z := MS_TO_TICKS 1500.
Definition KEY_DOUBLECLICK_THRESHOLD : Z := MS_TO_TICKS 400.
Definition KEY_LONGPRESS_REPEAT_THRESHOLD : Z := MS_TO_TICKS 500.
Definition KEY_INIT_DOWN_THRESHOLD : Z := MS_TO_TICKS 200.
Definition KEY_INIT_LONGPRESS_THRESHOLD : Z := MS_TO_TICKS 3000.
Definition KEY_INIT_LONGLONGPRESS_THRESHOLD : Z := MS_TO_TICKS 10000.
Definition KEY_CHECKER_INTERVAL : Z := MS_TO_TICKS 40.
Definition KEY_DEBOUNCE_INTERVAL : Z := KEY_CHECKER_INTERVAL * 2.
Definition KEY_DITHER_INTERVAL : Z := KEY_CHECKER_INTERVAL * 1.

(** [time - since >= limit] on 32-bit unsigned numbers. *)
Definition elapsed (time since limit : Z) : bool := u32 (time - since) >=? limit.

(** ** The GPIO keys *)

(** [None]: the assertion at the end of the search fails. *)
Definition hal_gpiokey_find_index (pin : Z) : option HAL_KEY_GPIOKEY_CFG_T :=
  List.find (fun c => key_pin c =? pin) cfg_hw_gpio_key_cfg.

Definition polarity (c : HAL_KEY_GPIOKEY_CFG_T) : Z :=
  if key_down c =? HAL_KEY_GPIOKEY_VAL_LOW then HAL_GPIO_IRQ_POLARITY_LOW_FALLING else HAL_GPIO_IRQ_POLARITY_HIGH_RISING.

Definition hal_gpiokey_enable_irq (pin pol : Z) (k : keys) : keys := set_gpio_armed (<[pin := pol]> (gpio_armed k)) k.
Definition hal_gpiokey_disable_irq (pin : Z) (k : keys) : keys := set_gpio_armed (delete pin (gpio_armed k)) k.

Definition hal_gpiokey_enable_allint (k : keys) : keys :=
  fold_left (fun k c => if key_code c =? HAL_KEY_CODE_NONE then k else hal_gpiokey_enable_irq (key_pin c) (polarity c) k)
    cfg_hw_gpio_key_cfg k.

Definition hal_gpiokey_disable_allint (k : keys) : keys :=
  fold_left (fun k c => if key_code c =? HAL_KEY_CODE_NONE then k else hal_gpiokey_disable_irq (key_pin c) k)
    cfg_hw_gpio_key_cfg k.

Definition hal_gpiokey_reset (k : keys) : keys := set_gpio zero_gpio k.
Definition hal_gpiokey_open (k : keys) : keys := hal_gpiokey_reset k.
Definition hal_gpiokey_close (k : keys) : keys := hal_gpiokey_disable_allint (hal_gpiokey_reset k).

(** [val] is the level [hal_gpio_pin_get_val] reads. *)
Definition hal_gpiokey_irqhandler (pin now val : Z) (k : keys) : option keys :=
  let k1 := hal_gpiokey_disable_irq pin k in
  c ← hal_gpiokey_find_index pin;
  let g := gpio_key k1 in
  let g' := if val =? key_down c
            then mkGpio (gpio_map_set_pin (pin_debounce g) pin) (pin_dither g) (pin_down g) now (time_dither g)
            else mkGpio (pin_debounce g) (gpio_map_set_pin (pin_dither g) pin) (pin_down g) (time_debounce g) now in
  Some (hal_key_debounce_timer_restart (set_gpio g' k1)).

Definition hal_key_enable_allint (k : keys) : keys := hal_gpiokey_enable_allint (hal_pwrkey_enable_int k).
Definition hal_key_disable_allint (k : keys) : keys := hal_gpiokey_disable_allint (hal_pwrkey_disable_int k).

(** ** The timer's handler *)

(** The part of the power key: the code it adds to the pressed keys. *)
Definition debounce_pwr (time : Z) (down : bool) (k : keys) : Z * keys :=
  let p := pwr_key k in
  if pwr_busy p then
    if debounce p then
      if down then
        if elapsed time (pwr_time p) KEY_DEBOUNCE_INTERVAL
        then (HAL_KEY_CODE_PWR, set_pwr (mkPwr false false down (pwr_time p)) k)
        else (0, set_pwr (mkPwr (debounce p) false down (pwr_time p)) k)
      else (0, set_pwr (mkPwr false true down time) k)
    else if dither p then
      if elapsed time (pwr_time p) KEY_DITHER_INTERVAL
      then (0, hal_pwrkey_enable_int (set_pwr (mkPwr (debounce p) false false (pwr_time p)) k))
      else (0, k)
    else if down then (HAL_KEY_CODE_PWR, k)
    else (0, hal_pwrkey_enable_int (set_pwr (mkPwr (debounce p) (dither p) false (pwr_time p)) k))
  else (0, k).

(** The loops over a pin map: the pins that are set, from the lowest one, until none is left. *)
Section PinLoop.
Context {S : Type}.
Variable body : Z -> HAL_KEY_GPIOKEY_CFG_T -> S -> S.

Fixpoint pin_loop (fuel : nat) (gpio : Z) (pin_map : GPIO_MAP_T) (s : S) : option S :=
  if gpio_map_test_set pin_map then
    match fuel with
    | O => None
    | Datatypes.S fuel' =>
        if gpio_map_test_set_pin pin_map gpio then
          c ← hal_gpiokey_find_index gpio;
          pin_loop fuel' (gpio + 1) (gpio_map_clear_pin pin_map gpio) (body gpio c s)
        else pin_loop fuel' (gpio + 1) pin_map s
    end
  else Some s.
End PinLoop.

(** As many steps as the map has bits. *)
Definition PIN_FUEL : nat := 32 * GPIO_MAP_WORD_CNT.

Definition bad_pin_map (g : HAL_KEY_GPIOKEY_T) : bool :=
  gpio_map_test_set_map (pin_debounce g) (pin_dither g) ||
  gpio_map_test_set_map (pin_debounce g) (pin_down g) ||
  gpio_map_test_set_map (pin_down g) (pin_dither g).

Definition debounce_dithered (time : Z) (k : keys) : option keys :=
  let g := gpio_key k in
  if gpio_map_test_set (pin_dither g) && elapsed time (time_dither g) KEY_DITHER_INTERVAL then
    let pin_map := pin_dither g in
    pin_loop (fun gpio c k => hal_gpiokey_enable_irq gpio (polarity c) k) PIN_FUEL 0 pin_map
      (set_gpio (mkGpio (pin_debounce g) (gpio_map_clear_map (pin_dither g) pin_map) (pin_down g) (time_debounce g) (time_dither g)) k)
  else Some k.

Definition down_body (val : Z -> Z) (gpio : Z) (c : HAL_KEY_GPIOKEY_CFG_T) (s : Z * keys) : Z * keys :=
  let '(code, k) := s in
  if val gpio =? key_down c then (Z.lor code (key_code c), k)
  else
    let g := gpio_key k in
    (code, hal_gpiokey_enable_irq gpio (polarity c)
             (set_gpio (mkGpio (pin_debounce g) (pin_dither g) (gpio_map_clear_pin (pin_down g) gpio) (time_debounce g) (time_dither g)) k)).

Definition debounce_downs (val : Z -> Z) (s : Z * keys) : option (Z * keys) :=
  pin_loop (down_body val) PIN_FUEL 0 (pin_down (gpio_key s.2)) s.

(** [down_added] and [dither_added], the codes and the state. *)
Definition debounce_body (time : Z) (val : Z -> Z) (gpio : Z) (c : HAL_KEY_GPIOKEY_CFG_T)
  (s : GPIO_MAP_T * GPIO_MAP_T * Z * keys) : GPIO_MAP_T * GPIO_MAP_T * Z * keys :=
  let '(down_added, dither_added, code, k) := s in
  if val gpio =? key_down c then
    let g := gpio_key k in
    if elapsed time (time_debounce g) KEY_DEBOUNCE_INTERVAL then
      (gpio_map_set_pin down_added gpio, dither_added, Z.lor code (key_code c),
        set_gpio (mkGpio (pin_debounce g) (pin_dither g) (gpio_map_set_pin (pin_down g) gpio) (time_debounce g) (time_dither g)) k)
    else s
  else (down_added, gpio_map_set_pin dither_added gpio, code, k).

Definition debounce_pins (time : Z) (val : Z -> Z) (s : Z * keys) : option (Z * keys) :=
  if gpio_map_test_set (pin_debounce (gpio_key s.2)) then
    '(down_added, dither_added, code, k) ←
      pin_loop (debounce_body time val) PIN_FUEL 0 (pin_debounce (gpio_key s.2)) (gpio_map_clear, gpio_map_clear, s.1, s.2);
    let g := gpio_key k in
    Some (code, set_gpio (mkGpio (gpio_map_clear_map (gpio_map_clear_map (pin_debounce g) down_added) dither_added)
                            (gpio_map_set_map (pin_dither g) dither_added) (pin_down g) (time_debounce g) (time_dither g)) k)
  else Some s.

(** The part of the GPIO keys; [None]: an assertion fails. *)
Definition debounce_gpio (time : Z) (val : Z -> Z) (s : Z * keys) : option (Z * keys) :=
  if bad_pin_map (gpio_key s.2) then None
  else
    k ← debounce_dithered time s.2;
    s2 ← debounce_downs val (s.1, k);
    debounce_pins time val s2.

Definition gpio_busy (g : HAL_KEY_GPIOKEY_T) : bool :=
  gpio_map_test_set (pin_dither g) || gpio_map_test_set (pin_down g) || gpio_map_test_set (pin_debounce g).

(** *** The events of the keys *)
Definition with_event (e : Z) (s : HAL_KEY_STATUS_T) := mkStatus (code_down s) (code_ready s) (code_click s) e (time_updown s) (time_click s) (cnt_repeat s) (cnt_click s).
Definition with_down (c : Z) (s : HAL_KEY_STATUS_T) := mkStatus c (code_ready s) (code_click s) (event s) (time_updown s) (time_click s) (cnt_repeat s) (cnt_click s).
Definition with_ready (c : Z) (s : HAL_KEY_STATUS_T) := mkStatus (code_down s) c (code_click s) (event s) (time_updown s) (time_click s) (cnt_repeat s) (cnt_click s).
Definition with_updown (t : Z) (s : HAL_KEY_STATUS_T) := mkStatus (code_down s) (code_ready s) (code_click s) (event s) t (time_click s) (cnt_repeat s) (cnt_click s).
Definition with_click (c n t : Z) (s : HAL_KEY_STATUS_T) := mkStatus (code_down s) (code_ready s) c (event s) (time_updown s) t (cnt_repeat s) n.
Definition with_repeat (n : Z) (s : HAL_KEY_STATUS_T) := mkStatus (code_down s) (code_ready s) (code_click s) (event s) (time_updown s) (time_click s) n (cnt_click s).
Definition upd (f : HAL_KEY_STATUS_T -> HAL_KEY_STATUS_T) (k : keys) : keys := set_status (f (key_status k)) k.

Definition ev (k : keys) : Z := event (key_status k).
Definition long_pressed (k : keys) : bool := (ev k =? HAL_KEY_EVENT_LONGPRESS) || (ev k =? HAL_KEY_EVENT_LONGLONGPRESS).

(** The loops over a set of codes, [1 << index] for each bit set. *)
Fixpoint key_loop (body : Z -> keys -> keys) (fuel : nat) (index map : Z) (k : keys) : option keys :=
  if map =? 0 then Some k
  else match fuel with
  | O => None
  | S fuel' =>
      let code := Z.shiftl 1 index in
      if negb (Z.land map code =? 0)
      then key_loop body fuel' (index + 1) (Z.land map (Z.lnot code)) (body code k)
      else key_loop body fuel' (index + 1) map k
  end.

(** The codes are 32-bit words. *)
Definition CODE_FUEL : nat := 32.

Definition key_up (time code : Z) (k : keys) : keys :=
  let k1 := send_key_event code HAL_KEY_EVENT_UP k in
  let k2 := if long_pressed k1 then send_key_event code HAL_KEY_EVENT_UP_AFTER_LONGPRESS k1 else k1 in
  upd (with_updown time) k2.

Definition after_ups (up_new code : Z) (k : keys) : keys :=
  if up_new =? 0 then k
  else if long_pressed k then
    if Z.land code (code_ready (key_status k)) =? 0 then upd (with_event HAL_KEY_EVENT_NONE) k else k
  else if ev k =? HAL_KEY_EVENT_DOWN then upd (with_event HAL_KEY_EVENT_UP) k
  else k.

Definition count_click (time up_new : Z) (k : keys) : keys :=
  let s := key_status k in
  if (code_click s =? HAL_KEY_CODE_NONE) || negb (code_click s =? code_ready s) then
    let k1 := if negb (code_click s =? HAL_KEY_CODE_NONE)
              then send_key_event (code_click s) (HAL_KEY_EVENT_CLICK + cnt_click s) k else k in
    upd (with_click (code_ready s) 0 time) k1
  else if negb (up_new =? 0) && (Z.lor up_new (code_down s) =? code_click s) then
    upd (with_click (code_click s) (u8 (cnt_click s + 1)) time) k
  else k.

Definition finish_click (time : Z) (k : keys) : keys :=
  let s := key_status k in
  if elapsed time (time_click s) KEY_DOUBLECLICK_THRESHOLD || (cnt_click s >=? MAX_KEY_CLICK_COUNT) then
    let k1 := send_key_event (code_click s) (HAL_KEY_EVENT_CLICK + cnt_click s) k in
    upd (fun s => with_event HAL_KEY_EVENT_NONE (with_click HAL_KEY_CODE_NONE 0 (time_click s) s)) k1
  else k.

Definition clicks (time up_new : Z) (k : keys) : keys :=
  if ev k =? HAL_KEY_EVENT_UP then finish_click time (count_click time up_new k) else k.

(** [pressed_now] is the set of keys pressed, not yet restricted to the key of the step. *)
Definition key_down_new (time pressed_now code : Z) (k : keys) : keys :=
  let k1 := send_key_event code HAL_KEY_EVENT_DOWN k in
  let k2 := if ev k1 =? HAL_KEY_EVENT_NONE then send_key_event code HAL_KEY_EVENT_FIRST_DOWN k1
            else send_key_event code HAL_KEY_EVENT_CONTINUED_DOWN k1 in
  let k3 := if (ev k2 =? HAL_KEY_EVENT_NONE) || (ev k2 =? HAL_KEY_EVENT_DOWN) || (ev k2 =? HAL_KEY_EVENT_UP)
            then upd (with_ready pressed_now) k2 else k2 in
  upd (with_updown time) k3.

Definition after_downs (down_new : Z) (k : keys) : keys :=
  if negb (down_new =? 0) && ((ev k =? HAL_KEY_EVENT_NONE) || (ev k =? HAL_KEY_EVENT_UP))
  then upd (with_event HAL_KEY_EVENT_DOWN) k else k.

Definition long_presses (time code : Z) (k : keys) : keys :=
  let s := key_status k in
  if Z.land code (code_ready s) =? code_ready s then
    if ev k =? HAL_KEY_EVENT_DOWN then
      if elapsed time (time_updown s) KEY_LONGPRESS_THRESHOLD then
        send_key_event (code_ready s) HAL_KEY_EVENT_LONGPRESS
          (upd (fun s => with_event HAL_KEY_EVENT_LONGPRESS (with_repeat 0 s)) k)
      else k
    else if long_pressed k then
      let k1 := upd (fun s => with_repeat (u8 (cnt_repeat s + 1)) s) k in
      let k2 := if cnt_repeat (key_status k1) =? KEY_LONGPRESS_REPEAT_THRESHOLD / KEY_CHECKER_INTERVAL
                then send_key_event (code_ready s) HAL_KEY_EVENT_REPEAT (upd (with_repeat 0) k1) else k1 in
      if (ev k2 =? HAL_KEY_EVENT_LONGPRESS) && elapsed time (time_updown s) KEY_LONGLONGPRESS_THRESHOLD then
        send_key_event (code_ready s) HAL_KEY_EVENT_LONGLONGPRESS (upd (with_event HAL_KEY_EVENT_LONGLONGPRESS) k2)
      else k2
    else k
  else k.

(** From the newly pressed and released keys to the state of the event. *)
Definition key_events (time code : Z) (k : keys) : option keys :=
  let down_new := Z.land code (Z.lnot (code_down (key_status k))) in
  let up_new := Z.land (Z.lnot code) (code_down (key_status k)) in
  k1 ← key_loop (key_up time) CODE_FUEL 0 up_new k;
  let k2 := clicks time up_new (after_ups up_new code k1) in
  let k3 := upd (with_down code) k2 in
  k4 ← key_loop (key_down_new time code) CODE_FUEL 0 down_new k3;
  Some (long_presses time code (after_downs down_new k4)).

(** The permanent-press watch; its warnings are traces. *)
Definition permpress (time : Z) (k : keys) : keys :=
  if debounce_started k then
    if elapsed time (time_first_debounce k) KEY_PERMPRESS_THRESHOLD then set_started true time k else k
  else set_started true time k.

(** The end of the handler: whether the timer is started again. *)
Definition handler_end (time : Z) (need_timer : bool) (k : keys) : keys :=
  let ongoing := negb (ev k =? HAL_KEY_EVENT_NONE) in
  let k1 := if ongoing then permpress time k else k in
  if need_timer || ongoing then hal_key_debounce_timer_restart k1 else set_started false (time_first_debounce k1) k1.

(** [down] is the level of the power key, [val] of the pins; [None]: an assertion fails. *)
Definition hal_key_debounce_handler (time : Z) (down : bool) (val : Z -> Z) (k : keys) : option keys :=
  let '(code, k1) := debounce_pwr time down (set_active false k) in
  let pwr_timer := pwr_busy (pwr_key k1) in
  '(code', k2) ← debounce_gpio time val (code, k1);
  k3 ← key_events time code' k2;
  Some (handler_end time (pwr_timer || gpio_busy (gpio_key k2)) k3).

(** *** The handler while the device starts *)
Definition boot_pwr (time : Z) (down : bool) (k : keys) : keys :=
  let p := pwr_key k in
  if pwr_busy p then
    if debounce p then
      if down then
        if elapsed time (pwr_time p) KEY_DEBOUNCE_INTERVAL
        then upd (with_updown time) (set_pwr (mkPwr false false down (pwr_time p)) k)
        else set_pwr (mkPwr (debounce p) false down (pwr_time p)) k
      else set_pwr (mkPwr false true down time) k
    else if dither p then
      if elapsed time (pwr_time p) KEY_DITHER_INTERVAL then set_pwr (mkPwr (debounce p) false false (pwr_time p)) k else k
    else if down then k
    else set_pwr (mkPwr (debounce p) (dither p) false (pwr_time p)) k
  else k.

Definition boot_events (time : Z) (k : keys) : keys :=
  let s := key_status k in
  if pressed (pwr_key k) then
    if ev k =? HAL_KEY_EVENT_NONE then
      if elapsed time (time_updown s) KEY_INIT_DOWN_THRESHOLD
      then send_key_event HAL_KEY_CODE_PWR HAL_KEY_EVENT_INITDOWN (upd (with_event HAL_KEY_EVENT_INITDOWN) k) else k
    else if ev k =? HAL_KEY_EVENT_INITDOWN then
      if elapsed time (time_updown s) KEY_INIT_LONGPRESS_THRESHOLD
      then send_key_event HAL_KEY_CODE_PWR HAL_KEY_EVENT_INITLONGPRESS
             (upd (fun s => with_event HAL_KEY_EVENT_INITLONGPRESS (with_repeat 0 s)) k) else k
    else if ev k =? HAL_KEY_EVENT_INITLONGPRESS then
      if elapsed time (time_updown s) KEY_INIT_LONGLONGPRESS_THRESHOLD
      then send_key_event HAL_KEY_CODE_PWR HAL_KEY_EVENT_INITLONGLONGPRESS (upd (with_event HAL_KEY_EVENT_INITLONGLONGPRESS) k) else k
    else k
  else k.

Definition hal_key_boot_handler (time : Z) (down : bool) (k : keys) : keys :=
  let k1 := boot_pwr time down (set_active false k) in
  if pwr_busy (pwr_key k1) then hal_key_debounce_timer_restart (boot_events time k1)
  else
    let k2 := if (ev k1 =? HAL_KEY_EVENT_NONE) || (ev k1 =? HAL_KEY_EVENT_INITDOWN)
              then send_key_event HAL_KEY_CODE_PWR HAL_KEY_EVENT_INITUP k1 else k1 in
    let k3 := send_key_event HAL_KEY_CODE_PWR HAL_KEY_EVENT_INITFINISHED k2 in
    hal_key_enable_allint (hal_pwrkey_reset (set_status zero_status (set_handler (Some Debounce) k3))).

(** ** Opening, closing, reading *)

(** The ten samples of the power key 20 ms apart: [startup i] is the i-th. *)
Definition startup_held (startup : nat -> bool) : bool := forallb startup (seq 0 10).

(** [now] and [down]: the timer and the power key when the boot handler is set up; the allocation
    of the timer succeeds ([alloc]) or the assertion after it fails. *)
Definition hal_key_open (checkPwrKey : bool) (startup : nat -> bool) (now : Z) (down alloc cb : bool) (k : keys) : option (Z * keys) :=
  let k1 := set_status zero_status (set_callback cb k) in
  if checkPwrKey && negb (startup_held startup) then Some (-1, k1)
  else
    let k2 := hal_gpiokey_open (hal_pwrkey_open k1) in
    if negb alloc then None
    else Some (0, if checkPwrKey
                  then hal_pwrkey_handle_irq_state HAL_PWRKEY_IRQ_FALLING_EDGE now down (set_handler (Some Boot) k2)
                  else hal_key_enable_allint (set_handler (Some Debounce) k2)).

Definition hal_key_close (k : keys) : keys :=
  let k1 := hal_gpiokey_close (hal_pwrkey_close (hal_key_disable_allint k)) in
  let k2 := if debounce_timer k1 is Some _ then set_handler None (set_timer false k1) else k1 in
  set_callback false (set_active false k2).

Definition hal_key_read_status (down : bool) (val : Z -> Z) (code : Z) : Z :=
  if code =? HAL_KEY_CODE_PWR then if down then HAL_KEY_EVENT_DOWN else HAL_KEY_EVENT_UP
  else match List.find (fun c => key_code c =? code) cfg_hw_gpio_key_cfg with
       | Some c => if val (key_pin c) =? key_down c then HAL_KEY_EVENT_DOWN else HAL_KEY_EVENT_UP
       | None => HAL_KEY_EVENT_NONE
       end.

(** ** Runs *)

(** The interrupts: the power key's (its state, the time, the level), a pin's (the time, the level)
    and the timer's (the time, the levels). *)
Inductive input :=
| Pwr_irq (state now : Z) (down : bool)
| Gpio_irq (pin now val : Z)
| Timer_irq (now : Z) (down : bool) (val : Z -> Z).

(** The hardware raises only what is armed, the timer only when it runs. *)
Definition enabled (i : input) (k : keys) : bool :=
  match i with
  | Pwr_irq _ _ _ => pwr_armed k
  | Gpio_irq pin _ _ => bool_decide (is_Some (gpio_armed k !! pin))
  | Timer_irq _ _ _ => timer_set k
  end.

Definition handle (i : input) (k : keys) : option keys :=
  match i with
  | Pwr_irq state now down => Some (hal_pwrkey_handle_irq_state state now down k)
  | Gpio_irq pin now val => hal_gpiokey_irqhandler pin now val k
  | Timer_irq now down val =>
      let k1 := set_timer false k in
      match debounce_timer k with
      | Some Boot => Some (hal_key_boot_handler now down k1)
      | Some Debounce => hal_key_debounce_handler now down val k1
      | None => Some k1
      end
  end.

(** The variables before the first call: everything zero. *)
Definition reset_keys : keys := mkKeys false None false zero_status false 0 zero_pwr zero_gpio false false ∅ [].

(** [reach k tr k']: the interrupts [tr], each one enabled, lead from [k] to [k']. *)
Inductive reach (k0 : keys) : list input -> keys -> Prop :=
| reach_open : reach k0 [] k0
| reach_irq tr k i k' : reach k0 tr k -> enabled i k = true -> handle i k = Some k' -> reach k0 (tr ++ [i]) k'.

(** The same as a function, for evaluation: [None] when one is not enabled or fails. *)
Definition step (k : keys) (i : input) : option keys := if enabled i k then handle i k else None.
Definition run (tr : list input) (k : keys) : option keys := fold_left (fun o i => k ← o; step k i) tr (Some k).
End Build.
