(* ===== verification/HalKeyLaws.v ===== *)
(** Lemmas of the key scanner: pin maps as sets of pins, the loops over pins and codes, what one
    handler does to the pins, and the invariants of every run. *)
From Stdlib Require Import ZArith Lia Bool.
From stdpp Require Import base gmap option list.
From S2P Require Import Prelude HalKey.

(** ** Pin maps *)
Notation has := gpio_map_test_set_pin.

Definition PINS : Z := 32 * Z.of_nat GPIO_MAP_WORD_CNT.
Definition wf_map (m : GPIO_MAP_T) : Prop := length m = GPIO_MAP_WORD_CNT /\ Forall (is_u 32) m.
Definition no_pin (m : GPIO_MAP_T) : Prop := forall p, 0 <= p -> has m p = false.

Lemma pin_bit_pow p : pin_bit p = 2 ^ (p mod 32).
Proof. unfold pin_bit. by rewrite Z.shiftl_1_l. Qed.

Lemma pin_mod p : 0 <= p mod 32 < 32.
Proof. apply Z.mod_pos_bound. lia. Qed.

Lemma has_testbit m p : has m p = Z.testbit (nth (pin_word p) m 0) (p mod 32).
Proof. pose proof (pin_mod p). unfold has. by rewrite pin_bit_pow, land_pow2_eqb, negb_involutive by lia. Qed.

Lemma same_pin p q : 0 <= p -> 0 <= q -> pin_word p = pin_word q -> p mod 32 = q mod 32 -> p = q.
Proof.
  unfold pin_word. intros Hp Hq Hw Hm. rewrite (Z.div_mod p 32), (Z.div_mod q 32) by lia.
  assert (0 <= p / 32) by (apply Z.div_pos; lia). assert (0 <= q / 32) by (apply Z.div_pos; lia). lia.
Qed.

Lemma nth_alter f (m : GPIO_MAP_T) i j : (i < length m)%nat ->
  nth j (alter f i m) 0 = if decide (j = i) then f (nth i m 0) else nth j m 0.
Proof.
  intros Hi. rewrite !nth_lookup. case_decide as Hj.
  - subst j. rewrite list_lookup_alter_eq. destruct (lookup_lt_is_Some_2 m i Hi) as [w ->]. done.
  - by rewrite list_lookup_alter_ne by done.
Qed.

Lemma pin_word_lt m q : wf_map m -> 0 <= q < PINS -> (pin_word q < length m)%nat.
Proof.
  intros [HL _] Hq. rewrite HL. unfold pin_word, PINS in *.
  assert (q / 32 < Z.of_nat GPIO_MAP_WORD_CNT) by (apply Z.div_lt_upper_bound; lia).
  assert (0 <= q / 32) by (apply Z.div_pos; lia). lia.
Qed.

Lemma pow2_bit p q : 0 <= q -> Z.testbit (2 ^ q) p = (p =? q).
Proof.
  intros Hq. destruct (Z.eqb_spec p q) as [-> | Hn]; [by apply Z.pow2_bits_true|by apply Z.pow2_bits_false].
Qed.

Lemma has_set_pin m p q : wf_map m -> 0 <= q < PINS -> 0 <= p -> has (gpio_map_set_pin m q) p = (p =? q) || has m p.
Proof.
  intros HW Hq Hp. pose proof (pin_mod q). rewrite !has_testbit. unfold gpio_map_set_pin.
  rewrite nth_alter by (by apply pin_word_lt). rewrite pin_bit_pow. case_decide as Hw.
  - rewrite Z.lor_spec, pow2_bit, Hw, orb_comm by lia. f_equal.
    destruct (Z.eqb_spec p q) as [-> | Hn]; [apply Z.eqb_refl|]. apply Z.eqb_neq. intros Hm. apply Hn. apply same_pin; [lia..|done|done].
  - destruct (Z.eqb_spec p q) as [-> | Hn]; [done|reflexivity].
Qed.

Lemma has_clear_pin m p q : wf_map m -> 0 <= q < PINS -> 0 <= p -> has (gpio_map_clear_pin m q) p = negb (p =? q) && has m p.
Proof.
  intros HW Hq Hp. pose proof (pin_mod q). pose proof (pin_mod p). rewrite !has_testbit. unfold gpio_map_clear_pin.
  rewrite nth_alter by (by apply pin_word_lt). rewrite pin_bit_pow. case_decide as Hw.
  - rewrite Z.land_spec, Z.lnot_spec, pow2_bit, Hw, andb_comm by lia. f_equal.
    destruct (Z.eqb_spec p q) as [-> | Hn]; [by rewrite Z.eqb_refl|]. f_equal. apply Z.eqb_neq. intros Hm. apply Hn. apply same_pin; [lia..|done|done].
  - destruct (Z.eqb_spec p q) as [-> | Hn]; [done|reflexivity].
Qed.

Lemma nth_zip_with f (m1 m2 : GPIO_MAP_T) i : f 0 0 = 0 -> length m1 = length m2 ->
  nth i (zip_with f m1 m2) 0 = f (nth i m1 0) (nth i m2 0).
Proof.
  intros Hf HL. destruct (decide (i < length m1)%nat) as [Hi|Hi].
  - rewrite !nth_lookup, lookup_zip_with.
    destruct (lookup_lt_is_Some_2 m1 i) as [w1 ->]; [done|]. destruct (lookup_lt_is_Some_2 m2 i) as [w2 ->]; [lia|]. done.
  - rewrite !nth_overflow; [done|rewrite ?length_zip_with; lia..].
Qed.

Lemma has_set_map m1 m2 p : length m1 = length m2 -> has (gpio_map_set_map m1 m2) p = has m1 p || has m2 p.
Proof. intros HL. rewrite !has_testbit. unfold gpio_map_set_map. by rewrite nth_zip_with, Z.lor_spec. Qed.

Lemma has_clear_map m1 m2 p : length m1 = length m2 -> has (gpio_map_clear_map m1 m2) p = has m1 p && negb (has m2 p).
Proof.
  intros HL. pose proof (pin_mod p). rewrite !has_testbit. unfold gpio_map_clear_map.
  rewrite (nth_zip_with (fun w1 w2 => Z.land w1 (Z.lnot w2))) by done. by rewrite Z.land_spec, Z.lnot_spec by lia.
Qed.

Lemma has_clear p : 0 <= p -> has gpio_map_clear p = false.
Proof.
  intros Hp. rewrite has_testbit. unfold gpio_map_clear. rewrite nth_lookup.
  destruct (replicate GPIO_MAP_WORD_CNT 0 !! pin_word p) eqn:E; [|apply Z.bits_0].
  apply lookup_replicate in E as [-> _]. apply Z.bits_0.
Qed.

(** A non-zero word has a bit below 32. *)
Lemma word_bit w : is_u 32 w -> w <> 0 -> exists i, 0 <= i < 32 /\ Z.testbit w i = true.
Proof.
  intros [H0 H1] Hn. exists (Z.log2 w). split; [|apply Z.bit_log2; lia].
  split; [apply Z.log2_nonneg|apply Z.log2_lt_pow2; lia].
Qed.

Lemma exists_word (m : GPIO_MAP_T) : Forall (is_u 32) m ->
  existsb (fun w => negb (w =? 0)) m = true <-> exists p, 0 <= p /\ has m p = true.
Proof.
  intros HU. rewrite existsb_exists. split.
  - intros (w & Hin & Hw). apply negb_true_iff, Z.eqb_neq in Hw.
    apply list_elem_of_In, list_elem_of_lookup in Hin as [i Hi].
    rewrite Forall_lookup in HU. destruct (word_bit w (HU _ _ Hi) Hw) as (b & Hb & HT).
    exists (32 * Z.of_nat i + b). split; [lia|]. rewrite has_testbit.
    replace (pin_word (32 * Z.of_nat i + b)) with i.
    + replace ((32 * Z.of_nat i + b) mod 32) with b; [by rewrite nth_lookup, Hi|].
      symmetry. rewrite Z.add_comm, Z.mul_comm, Z.mod_add by lia. apply Z.mod_small. lia.
    + unfold pin_word. rewrite Z.mul_comm, Z.div_add_l, Z.div_small, Z.add_0_r by lia. lia.
  - intros (p & Hp & Hh). rewrite has_testbit, nth_lookup in Hh.
    destruct (m !! pin_word p) as [w|] eqn:E; simpl in Hh; [|by rewrite Z.bits_0 in Hh].
    exists w. split; [apply list_elem_of_In; by eapply list_elem_of_lookup_2|].
    apply negb_true_iff, Z.eqb_neq. intros ->. by rewrite Z.bits_0 in Hh.
Qed.

Lemma is_u_ones w : is_u 32 w <-> Z.land w (Z.ones 32) = w.
Proof.
  rewrite Z.land_ones by lia. split; [intros H; by apply Z.mod_small|].
  intros <-. apply Z.mod_pos_bound. lia.
Qed.

Lemma is_u_land a b : is_u 32 a -> is_u 32 (Z.land a b).
Proof. rewrite !is_u_ones. intros Ha. by rewrite (Z.land_comm a b), <- Z.land_assoc, Ha. Qed.

Lemma is_u_lor a b : is_u 32 a -> is_u 32 b -> is_u 32 (Z.lor a b).
Proof. rewrite !is_u_ones. intros Ha Hb. by rewrite Z.land_lor_distr_l, Ha, Hb. Qed.

Lemma is_u_pin_bit p : is_u 32 (pin_bit p).
Proof.
  rewrite pin_bit_pow. pose proof (pin_mod p). split; [apply Z.pow_nonneg; lia|apply Z.pow_lt_mono_r; lia].
Qed.

Lemma wf_alter f m i : (forall w, is_u 32 w -> is_u 32 (f w)) -> wf_map m -> wf_map (alter f i m).
Proof.
  intros Hf [HL HU]. split; [by rewrite length_alter|]. rewrite Forall_lookup in *. intros j w.
  destruct (decide (i = j)) as [<-|Hn]; [|rewrite list_lookup_alter_ne by done; apply HU].
  rewrite list_lookup_alter_eq. destruct (m !! i) eqn:E; [|done]. intros [= <-]. eauto.
Qed.

Lemma wf_zip f m1 m2 : (forall w1 w2, is_u 32 w1 -> is_u 32 w2 -> is_u 32 (f w1 w2)) -> wf_map m1 -> wf_map m2 -> wf_map (zip_with f m1 m2).
Proof.
  intros Hf [HL1 HU1] [HL2 HU2]. split; [rewrite length_zip_with; lia|].
  apply Forall_lookup. intros i w. rewrite lookup_zip_with_Some. rewrite Forall_lookup in HU1, HU2. intros (w1 & w2 & -> & H1 & H2). eauto.
Qed.

Lemma wf_set_pin m p : wf_map m -> wf_map (gpio_map_set_pin m p).
Proof. apply wf_alter. intros w Hw. apply is_u_lor; [done|apply is_u_pin_bit]. Qed.

Lemma wf_clear_pin m p : wf_map m -> wf_map (gpio_map_clear_pin m p).
Proof. apply wf_alter. intros w. apply is_u_land. Qed.

Lemma wf_set_map m1 m2 : wf_map m1 -> wf_map m2 -> wf_map (gpio_map_set_map m1 m2).
Proof. apply wf_zip. intros. by apply is_u_lor. Qed.

Lemma wf_clear_map m1 m2 : wf_map m1 -> wf_map m2 -> wf_map (gpio_map_clear_map m1 m2).
Proof. apply wf_zip. intros. by apply is_u_land. Qed.

Lemma wf_clear : wf_map gpio_map_clear.
Proof. split; [done|]. apply Forall_replicate. unfold is_u. lia. Qed.

Create HintDb pins.
#[export] Hint Resolve wf_set_pin wf_clear_pin wf_set_map wf_clear_map wf_clear : pins.

Lemma wf_same_length m1 m2 : wf_map m1 -> wf_map m2 -> length m1 = length m2.
Proof. intros [-> _] [-> _]. done. Qed.

Lemma test_set_spec m : wf_map m -> gpio_map_test_set m = true <-> exists p, 0 <= p /\ has m p = true.
Proof. intros [_ HU]. by apply exists_word. Qed.

Lemma test_set_false m : wf_map m -> gpio_map_test_set m = false <-> no_pin m.
Proof.
  intros HW. rewrite <- not_true_iff_false, test_set_spec by done. unfold no_pin. split.
  - intros H p Hp. destruct (has m p) eqn:E; [|done]. destruct H. eauto.
  - intros H (p & Hp & Hh). by rewrite H in Hh.
Qed.

Lemma test_set_map_false m1 m2 : wf_map m1 -> wf_map m2 ->
  gpio_map_test_set_map m1 m2 = false <-> forall p, 0 <= p -> has m1 p && has m2 p = false.
Proof.
  intros H1 H2. assert (HW : wf_map (zip_with Z.land m1 m2)) by (apply wf_zip; [intros; by apply is_u_land|done..]).
  change (gpio_map_test_set_map m1 m2) with (gpio_map_test_set (zip_with Z.land m1 m2)).
  rewrite test_set_false by done. unfold no_pin.
  assert (E : forall p, has (zip_with Z.land m1 m2) p = has m1 p && has m2 p).
  { intros p. rewrite !has_testbit, nth_zip_with by (done || by apply wf_same_length). apply Z.land_spec. }
  split; intros H p Hp; [rewrite <- E|rewrite E]; by apply H.
Qed.

Lemma has_lt m p : wf_map m -> 0 <= p -> has m p = true -> 0 <= p < PINS.
Proof.
  intros [HL _] Hp. rewrite has_testbit. destruct (decide (pin_word p < length m)%nat) as [Hw|Hw].
  - intros _. split; [done|]. rewrite HL in Hw. unfold pin_word, PINS in *.
    pose proof (Z.mul_div_le p 32). pose proof (Z.mod_pos_bound p 32). pose proof (Z.div_mod p 32). lia.
  - rewrite nth_overflow by lia. by rewrite Z.bits_0.
Qed.

(** ** Codes: sets of keys in a word *)

(** The codes set in [map] among [n] from [index] on, the lowest first. *)
Fixpoint codes_from (n : nat) (index map : Z) : list Z :=
  match n with
  | O => []
  | S n' => if Z.testbit map index then 2 ^ index :: codes_from n' (index + 1) map else codes_from n' (index + 1) map
  end.

Definition codes_of (map : Z) : list Z := codes_from CODE_FUEL 0 map.

Lemma clear_bit map i j : 0 <= j -> Z.testbit (Z.land map (Z.lnot (2 ^ i))) j = Z.testbit map j && negb (Z.testbit (2 ^ i) j).
Proof. intros Hj. by rewrite Z.land_spec, Z.lnot_spec by lia. Qed.

Lemma codes_from_ext n i m1 m2 : 0 <= i -> (forall j, i <= j -> Z.testbit m1 j = Z.testbit m2 j) -> codes_from n i m1 = codes_from n i m2.
Proof.
  revert i. induction n as [|n IH]; intros i Hi HE; [done|]. simpl. rewrite <- HE by lia.
  rewrite (IH (i + 1)) by (lia || (intros; apply HE; lia)). done.
Qed.

Lemma codes_from_0 n i : codes_from n i 0 = [].
Proof. revert i. induction n as [|n IH]; intros i; [done|]. simpl. by rewrite Z.bits_0, IH. Qed.

(** The loops over codes end within the fuel and run the body for each code. *)
Lemma key_loop_from body n i map k : 0 <= i -> (forall j, 0 <= j -> Z.testbit map j = true -> i <= j < i + Z.of_nat n) ->
  key_loop body n i map k = Some (fold_left (fun k c => body c k) (codes_from n i map) k).
Proof.
  revert i map k. induction n as [|n IH]; intros i map k Hi HB; simpl; case_match eqn:E; zbool; subst.
  - done.
  - destruct E. apply Z.bits_inj_0. intros j. destruct (Z.ltb_spec j 0); [by apply Z.testbit_neg_r|].
    destruct (Z.testbit map j) eqn:E; [|done]. apply HB in E; lia.
  - by rewrite Z.bits_0, codes_from_0.
  - rewrite Z.shiftl_1_l, land_pow2_eqb, negb_involutive by lia. destruct (Z.testbit map i) eqn:Ei.
    + rewrite IH; [|lia|].
      * simpl. f_equal. f_equal. apply codes_from_ext; [lia|]. intros j Hj. rewrite clear_bit, Z.pow2_bits_false by lia. by rewrite andb_true_r.
      * intros j Hj. rewrite clear_bit by lia. intros [HT HN]%andb_prop. apply HB in HT; [|done].
        rewrite pow2_bit in HN by lia. apply negb_true_iff, Z.eqb_neq in HN. lia.
    + apply IH; [lia|]. intros j Hj HT. pose proof (HB j Hj HT). assert (j <> i) by congruence. lia.
Qed.

Lemma high_bit map j : is_u 32 map -> 0 <= j -> Z.testbit map j = true -> j < 32.
Proof.
  intros HU Hj HT. destruct (Z.ltb_spec j 32); [done|]. apply is_u_ones in HU. rewrite <- HU, Z.land_spec, Z.ones_spec_high in HT by lia.
  by rewrite andb_false_r in HT.
Qed.

Lemma key_loop_spec body map k : is_u 32 map ->
  key_loop body CODE_FUEL 0 map k = Some (fold_left (fun k c => body c k) (codes_of map) k).
Proof.
  intros HU. apply key_loop_from; [done|]. intros j Hj HT. split; [done|]. by apply (high_bit map).
Qed.

(** ** The table of the GPIO keys *)
Record cfg_ok (cfg : list HAL_KEY_GPIOKEY_CFG_T) : Prop := {
  cfg_pins : NoDup (key_pin <$> cfg);
  cfg_range : Forall (fun c => 0 <= key_pin c < PINS /\ is_u 32 (key_code c)) cfg }.

Section Laws.
Variable hz : Z.
Variable cfg : list HAL_KEY_GPIOKEY_CFG_T.
Hypothesis HC : cfg_ok cfg.

Notation find_pin := (hal_gpiokey_find_index cfg).

(** The polarity a pin is armed with, [None] for a pin that is not a key. *)
Definition armed_for (p : Z) : option Z :=
  match find_pin p with
  | Some c => if key_code c =? HAL_KEY_CODE_NONE then None else Some (polarity c)
  | None => None
  end.

Definition pin_code (p : Z) : Z := match find_pin p with Some c => key_code c | None => 0 end.
Definition pin_pressed (val : Z -> Z) (p : Z) : bool := match find_pin p with Some c => val p =? key_down c | None => false end.

Lemma find_pin_Some p c : find_pin p = Some c -> key_pin c = p /\ c ∈ cfg.
Proof. intros [Hin Hp]%find_some. apply Z.eqb_eq in Hp. split; [done|by apply list_elem_of_In]. Qed.

Lemma find_pin_range p c : find_pin p = Some c -> 0 <= p < PINS /\ is_u 32 (key_code c).
Proof.
  intros [Hp Hin]%find_pin_Some. pose proof (cfg_range _ HC) as HR. rewrite Forall_forall in HR. destruct (HR c Hin). by subst.
Qed.

Lemma pin_code_range p : is_u 32 (pin_code p).
Proof. unfold pin_code. destruct (find_pin p) as [c|] eqn:E; [by destruct (find_pin_range p c E)|unfold is_u; lia]. Qed.

Lemma armed_for_find p pol : armed_for p = Some pol -> exists c, find_pin p = Some c /\ pol = polarity c /\ 0 <= p < PINS.
Proof.
  unfold armed_for. destruct (find_pin p) as [c|] eqn:E; [|done]. case_match; [done|]. intros [= <-].
  exists c. split; [done|]. split; [done|]. by destruct (find_pin_range p c E).
Qed.

Lemma armed_for_None p : armed_for p <> None -> exists c, find_pin p = Some c /\ armed_for p = Some (polarity c) /\ 0 <= p < PINS.
Proof.
  intros H. destruct (armed_for p) as [pol|] eqn:E; [|done]. destruct (armed_for_find p pol E) as (c & Hc & -> & HR). eauto.
Qed.

(** The entry of a key of the table is the one its pin finds. *)
Lemma find_pin_entry c : c ∈ cfg -> find_pin (key_pin c) = Some c.
Proof.
  intros Hin. pose proof (cfg_pins _ HC) as HN. unfold hal_gpiokey_find_index. clear HC. induction cfg as [|d l IH]; [by apply not_elem_of_nil in Hin|].
  simpl in *. apply NoDup_cons in HN as [Hd HN]. apply elem_of_cons in Hin as [<-|Hin]; [by rewrite Z.eqb_refl|].
  case_match eqn:E; [|by apply IH]. apply Z.eqb_eq in E. destruct Hd. rewrite E. by apply list_elem_of_fmap_2.
Qed.

(** ** The loops over pins *)
Section Loop.
Context {S : Type} (body : Z -> HAL_KEY_GPIOKEY_CFG_T -> S -> S) (I : GPIO_MAP_T -> S -> Prop).
Hypothesis body_ok : forall m p c s, wf_map m -> I m s -> 0 <= p < PINS -> has m p = true -> find_pin p = Some c ->
  I (gpio_map_clear_pin m p) (body p c s).

(** A loop whose body keeps [I] ends within the fuel with [I] for a map without pins. *)
Lemma pin_loop_from n g m s : wf_map m -> 0 <= g -> (forall p, 0 <= p -> has m p = true -> g <= p < g + Z.of_nat n /\ find_pin p <> None) ->
  I m s -> exists m' s', pin_loop cfg body n g m s = Some s' /\ I m' s' /\ wf_map m' /\ no_pin m'.
Proof.
  revert g m s. induction n as [|n IH]; intros g m s HW Hg HB HI; simpl; destruct (gpio_map_test_set m) eqn:E.
  - apply (test_set_spec m HW) in E as (p & Hp & Hh). destruct (HB p Hp Hh). lia.
  - apply (test_set_false m HW) in E. by exists m, s.
  - destruct (has m g) eqn:Eg.
    + destruct (HB g Hg Eg) as [Hr Hf]. destruct (find_pin g) as [c|] eqn:Ec; [|done]. simpl.
      assert (Hpin : 0 <= g < PINS) by (by destruct (find_pin_range g c Ec)).
      apply IH; [by apply wf_clear_pin|lia| |by apply body_ok].
      intros p Hp. rewrite has_clear_pin by done. intros [Hn Hh]%andb_prop. apply negb_true_iff, Z.eqb_neq in Hn.
      destruct (HB p Hp Hh). split; [lia|done].
    + apply IH; [done|lia| |done]. intros p Hp Hh. destruct (HB p Hp Hh). split; [|done].
      assert (p <> g) by congruence. lia.
  - apply (test_set_false m HW) in E. by exists m, s.
Qed.

Lemma pin_loop_ok m s : wf_map m -> (forall p, 0 <= p -> has m p = true -> armed_for p <> None) -> I m s ->
  exists m' s', pin_loop cfg body PIN_FUEL 0 m s = Some s' /\ I m' s' /\ wf_map m' /\ no_pin m'.
Proof.
  intros HW HK HI. apply pin_loop_from; [done|lia| |done]. intros p Hp Hh. split; [exact (has_lt m p HW Hp Hh)|].
  intros Hn. apply (HK p Hp Hh). unfold armed_for. by rewrite Hn.
Qed.
End Loop.

(** ** The GPIO keys: what is armed and what is in progress *)
Definition in_progress (g : HAL_KEY_GPIOKEY_T) (p : Z) : bool := has (pin_debounce g) p || has (pin_dither g) p || has (pin_down g) p.

(** Every key is armed unless it is in progress or among the pins [m] still to be handled. *)
Definition armed_but (g : HAL_KEY_GPIOKEY_T) (m : GPIO_MAP_T) (a : gmap Z Z) : Prop :=
  (forall p, 0 <= p -> a !! p = if in_progress g p || has m p then None else armed_for p) /\
  (forall p pol, a !! p = Some pol -> 0 <= p).

Record maps_ok (g : HAL_KEY_GPIOKEY_T) : Prop := {
  ok_debounce : wf_map (pin_debounce g);
  ok_dither : wf_map (pin_dither g);
  ok_down : wf_map (pin_down g);
  ok_apart : forall p, 0 <= p -> has (pin_debounce g) p && has (pin_dither g) p = false /\
    has (pin_debounce g) p && has (pin_down g) p = false /\ has (pin_down g) p && has (pin_dither g) p = false;
  ok_keyed : forall p, 0 <= p -> in_progress g p = true -> armed_for p <> None }.

Definition gpio_ok (g : HAL_KEY_GPIOKEY_T) (a : gmap Z Z) : Prop := maps_ok g /\ armed_but g gpio_map_clear a.

Hint Resolve ok_debounce ok_dither ok_down : pins.

Lemma armed_but_no_pin g m a : no_pin m -> armed_but g m a <-> armed_but g gpio_map_clear a.
Proof.
  intros HN. unfold armed_but. split; intros [H1 H2]; (split; [|done]); intros p Hp; rewrite H1 by done; by rewrite HN, has_clear.
Qed.

Lemma armed_but_insert g m a p c : wf_map m -> armed_but g m a -> 0 <= p < PINS -> in_progress g p = false -> armed_for p = Some (polarity c) ->
  armed_but g (gpio_map_clear_pin m p) (<[p := polarity c]> a).
Proof.
  intros HW [H1 H2] Hp HI HA. split.
  - intros q Hq. rewrite has_clear_pin by done. destruct (Z.eqb_spec q p) as [->|Hn].
    + by rewrite lookup_insert_eq, HI, HA.
    + rewrite lookup_insert_ne by done. by apply H1.
  - intros q pol Hl. destruct (decide (q = p)) as [->|Hn]; [lia|]. rewrite lookup_insert_ne in Hl by done. by eapply H2.
Qed.

Lemma keyed_find p c : find_pin p = Some c -> armed_for p <> None -> armed_for p = Some (polarity c).
Proof. unfold armed_for. intros ->. by case_match. Qed.

Lemma in_progress_dither g p : has (pin_dither g) p = true -> in_progress g p = true.
Proof. unfold in_progress. intros ->. by rewrite orb_true_r. Qed.

Lemma in_progress_debounce g p : has (pin_debounce g) p = true -> in_progress g p = true.
Proof. unfold in_progress. by intros ->. Qed.

Lemma in_progress_down g p : has (pin_down g) p = true -> in_progress g p = true.
Proof. unfold in_progress. intros ->. by rewrite !orb_true_r. Qed.

(** A state that differs in the GPIO keys only. *)
Definition with_gpio (g : HAL_KEY_GPIOKEY_T) (a : gmap Z Z) (k : keys) : keys := set_gpio_armed a (set_gpio g k).

(** The dithered pins are armed again together, when the interval has passed. *)
Lemma dithered_ok time k : gpio_ok (gpio_key k) (gpio_armed k) ->
  exists g a, debounce_dithered hz cfg time k = Some (with_gpio g a k) /\ gpio_ok g a /\
    pin_debounce g = pin_debounce (gpio_key k) /\ pin_down g = pin_down (gpio_key k) /\
    time_debounce g = time_debounce (gpio_key k) /\ time_dither g = time_dither (gpio_key k) /\
    forall p, 0 <= p -> has (pin_dither g) p = has (pin_dither (gpio_key k)) p && negb (elapsed time (time_dither (gpio_key k)) (KEY_DITHER_INTERVAL hz)).
Proof.
  intros [HM HA]. unfold debounce_dithered. set (g0 := gpio_key k) in *.
  pose proof (ok_dither _ HM) as HW.
  destruct (gpio_map_test_set (pin_dither g0)) eqn:ET; cbn [andb]; [destruct (elapsed _ _ _) eqn:EE|].
  - set (g := mkGpio _ _ _ _ _).
    assert (HD : forall p, 0 <= p -> has (pin_dither g) p = false).
    { intros p Hp. simpl. rewrite has_clear_map by done. by destruct (has _ p). }
    assert (HP : forall p, 0 <= p -> in_progress g p || has (pin_dither g0) p = in_progress g0 p).
    { intros p Hp. unfold in_progress. rewrite HD by done. simpl. by destruct (has (pin_debounce _) p), (has (pin_dither _) p), (has (pin_down _) p). }
    edestruct (fun H => pin_loop_ok (fun gpio c k => hal_gpiokey_enable_irq gpio (polarity c) k)
      (fun m k' => exists a, k' = with_gpio g a k /\ armed_but g m a /\ forall p, 0 <= p -> has m p = true -> has (pin_dither g0) p = true)
      H (pin_dither g0) (set_gpio g k)) as (m' & s' & HL & (a & -> & HB & _) & HW' & HN); [|done|..].
    + intros m p c s Wm (a & -> & HB & HS) Hp Hh Hc. assert (HK : armed_for p = Some (polarity c)).
      { apply keyed_find; [done|]. apply (ok_keyed _ HM p); [lia|]. apply in_progress_dither, HS; [lia|done]. }
      exists (<[p := polarity c]> a). split; [done|]. split.
      * apply armed_but_insert; try done. pose proof (HP p ltac:(lia)) as E. apply HS in Hh; [|lia].
        unfold in_progress. rewrite HD by lia. destruct (ok_apart _ HM p ltac:(lia)) as (H1 & _ & H3).
        rewrite Hh in H1, H3. simpl in *. by destruct (has (pin_debounce _) p), (has (pin_down _) p).
      * intros q Hq. rewrite has_clear_pin by done. intros [_ Hm]%andb_prop. by apply HS.
    + intros p Hp Hh. apply (ok_keyed _ HM p Hp). by apply in_progress_dither.
    + exists (gpio_armed k). split; [by destruct k|]. split; [|done]. destruct HA as [H1 H2]. split; [|done].
      intros p Hp. rewrite HP, H1 by done. by rewrite has_clear, orb_false_r.
    + exists g, a. rewrite HL. split; [done|]. split; [split; [|by apply (armed_but_no_pin g m')]|].
      * split; simpl; [by apply HM|by apply wf_clear_map|by apply HM| |].
        -- intros p Hp. destruct (ok_apart _ HM p Hp) as (_ & H2 & _). rewrite HD by done. by rewrite !andb_false_r.
        -- intros p Hp Hi. apply (ok_keyed _ HM p Hp). rewrite <- HP by done. by rewrite Hi.
      * split_and!; try done. intros p Hp. rewrite HD by done. by rewrite andb_false_r.
  - exists g0, (gpio_armed k). split; [by destruct k|]. split_and!; try done. intros p Hp. by rewrite andb_true_r.
  - exists g0, (gpio_armed k). split; [by destruct k|]. split_and!; try done. intros p Hp.
    apply test_set_false in ET; [|done]. by rewrite ET.
Qed.

(** *** The codes a loop adds *)

(** [code'] is [code] with the codes of the pins of [P]. *)
Definition adds (code code' : Z) (P : Z -> bool) : Prop :=
  is_u 32 code' /\ forall i, 0 <= i -> Z.testbit code' i = true <->
    Z.testbit code i = true \/ exists p, 0 <= p /\ P p = true /\ Z.testbit (pin_code p) i = true.

Lemma adds_none code P : is_u 32 code -> (forall p, 0 <= p -> P p = false) -> adds code code P.
Proof.
  intros HU HP. split; [done|]. intros i _. split; [by left|]. intros [H|(p & Hp & HT & _)]; [done|]. by rewrite HP in HT.
Qed.

Lemma adds_ext code code' P Q : (forall p, 0 <= p -> Q p = P p) -> adds code code' P -> adds code code' Q.
Proof.
  intros HE [HU HA]. split; [done|]. intros i Hi. rewrite HA by done.
  split; (intros [H|(p & Hp & HT & HB)]; [by left|right; exists p; by rewrite ?HE, <- ?HE in * by done]).
Qed.

Lemma adds_pin code code' P Q q : 0 <= q -> (forall p, 0 <= p -> Q p = (p =? q) || P p) -> adds code code' P ->
  adds code (Z.lor code' (pin_code q)) Q.
Proof.
  intros Hq HE [HU HA]. split; [apply is_u_lor; [done|apply pin_code_range]|]. intros i Hi.
  rewrite Z.lor_spec, orb_true_iff, HA by done. split.
  - intros [[H|(p & Hp & HT & HB)]|H]; [by left|right; exists p|right; exists q]; (split; [done|]); rewrite HE by done.
    + by rewrite HT, orb_true_r.
    + by rewrite Z.eqb_refl.
  - intros [H|(p & Hp & HT & HB)]; [by left; left|]. rewrite HE in HT by done. apply orb_true_iff in HT as [HT|HT].
    + apply Z.eqb_eq in HT as ->. by right.
    + left. right. eauto.
Qed.

Lemma adds_trans c0 c1 c2 P Q R : (forall p, 0 <= p -> R p = P p || Q p) -> adds c0 c1 P -> adds c1 c2 Q -> adds c0 c2 R.
Proof.
  intros HE [_ H1] [HU H2]. split; [done|]. intros i Hi. rewrite H2, H1 by done. split.
  - intros [[H|(p & Hp & HT & HB)]|(p & Hp & HT & HB)]; [by left|right; exists p; rewrite HE, HT by done..]; by rewrite ?orb_true_r.
  - intros [H|(p & Hp & HT & HB)]; [by left; left|]. rewrite HE in HT by done. apply orb_true_iff in HT as [HT|HT]; eauto 8.
Qed.

Lemma pressed_find val p c : find_pin p = Some c -> pin_pressed val p = (val p =? key_down c) /\ pin_code p = key_code c.
Proof. unfold pin_pressed, pin_code. by intros ->. Qed.

(** *** The pins that are down *)
Definition same_but_down (g g0 : HAL_KEY_GPIOKEY_T) : Prop :=
  pin_debounce g = pin_debounce g0 /\ pin_dither g = pin_dither g0 /\ time_debounce g = time_debounce g0 /\ time_dither g = time_dither g0.

(** A released pin leaves the map and is armed. *)
Lemma release_ok g a p c : gpio_ok g a -> 0 <= p < PINS -> has (pin_down g) p = true -> find_pin p = Some c ->
  gpio_ok (mkGpio (pin_debounce g) (pin_dither g) (gpio_map_clear_pin (pin_down g) p) (time_debounce g) (time_dither g)) (<[p := polarity c]> a).
Proof.
  intros [HM HA] Hp Hh Hc. set (g' := mkGpio _ _ _ _ _). pose proof (ok_down _ HM) as HW.
  assert (HE : forall q, 0 <= q -> in_progress g' q = negb (q =? p) && in_progress g q).
  { intros q Hq. unfold in_progress, g'. simpl. rewrite has_clear_pin by done.
    destruct (Z.eqb_spec q p) as [->|_]; [|done]. destruct (ok_apart _ HM p Hq) as (_ & H2 & H3). rewrite Hh in H2, H3.
    simpl in *. by destruct (has (pin_debounce g) p), (has (pin_dither g) p). }
  assert (HK : armed_for p = Some (polarity c)).
  { apply keyed_find; [done|]. apply (ok_keyed _ HM p); [lia|]. by apply in_progress_down. }
  split; [split; simpl; [apply HM|apply HM|by apply wf_clear_pin| |]|].
  - intros q Hq. rewrite has_clear_pin by done. destruct (ok_apart _ HM q Hq) as (H1 & H2 & H3).
    destruct (q =? p); simpl; [|done]. by rewrite andb_false_r.
  - intros q Hq. rewrite HE by done. intros [_ HI]%andb_prop. by apply (ok_keyed _ HM).
  - destruct HA as [H1 H2]. split.
    + intros q Hq. rewrite HE by done. destruct (Z.eqb_spec q p) as [->|Hn]; simpl.
      * by rewrite lookup_insert_eq, has_clear.
      * rewrite lookup_insert_ne by done. by apply H1.
    + intros q pol Hl. destruct (decide (q = p)) as [->|Hn]; [lia|]. rewrite lookup_insert_ne in Hl by done. by eapply H2.
Qed.

Lemma downs_ok val code k : gpio_ok (gpio_key k) (gpio_armed k) -> is_u 32 code ->
  exists code' g a, debounce_downs cfg val (code, k) = Some (code', with_gpio g a k) /\ gpio_ok g a /\ same_but_down g (gpio_key k) /\
    (forall p, 0 <= p -> has (pin_down g) p = has (pin_down (gpio_key k)) p && pin_pressed val p) /\
    adds code code' (has (pin_down g)).
Proof.
  intros HG HU. unfold debounce_downs. cbn [snd]. set (d0 := pin_down (gpio_key k)).
  assert (HW : wf_map d0) by apply HG.
  edestruct (fun H => pin_loop_ok (down_body val) (fun m s => exists code' g a, s = (code', with_gpio g a k) /\ gpio_ok g a /\
    same_but_down g (gpio_key k) /\ (forall p, 0 <= p -> has m p = true -> has d0 p = true) /\
    (forall p, 0 <= p -> has (pin_down g) p = has d0 p && (has m p || pin_pressed val p)) /\
    adds code code' (fun p => has (pin_down g) p && negb (has m p))) H d0 (code, k))
    as (m' & s' & -> & (code' & g & a & -> & HG' & HS & _ & HD & HA) & _ & HN); [|done|..].
  - intros m p c s Wm (code1 & g & a & -> & HG1 & HS & HM & HD & HA) Hp Hh Hc.
    pose proof (HM p ltac:(lia) Hh) as Hd. pose proof (HD p ltac:(lia)) as Hg. rewrite Hd, Hh in Hg. simpl in Hg.
    destruct (pressed_find val p c Hc) as [HP HK]. unfold down_body. cbn [with_gpio gpio_key set_gpio_armed set_gpio].
    destruct (val p =? key_down c) eqn:EV.
    + exists (Z.lor code1 (key_code c)), g, a. split_and!; try done.
      * intros q Hq. rewrite has_clear_pin by done. intros [_ Hm]%andb_prop. by apply HM.
      * intros q Hq. rewrite has_clear_pin, HD by done. destruct (Z.eqb_spec q p) as [->|]; [|done]. by rewrite Hh, HP.
      * rewrite <- HK. eapply adds_pin; [|intros q Hq|exact HA]; [lia|]. simpl. rewrite has_clear_pin by done.
        destruct (Z.eqb_spec q p) as [->|]; [by rewrite Hg|done].
    + exists code1, (mkGpio (pin_debounce g) (pin_dither g) (gpio_map_clear_pin (pin_down g) p) (time_debounce g) (time_dither g)), (<[p := polarity c]> a).
      pose proof (ok_down _ (proj1 HG1)) as HW1. split_and!; try done.
      * by apply release_ok.
      * intros q Hq. rewrite has_clear_pin by done. intros [_ Hm]%andb_prop. by apply HM.
      * intros q Hq. cbn [pin_down]. rewrite !has_clear_pin, HD by done. destruct (Z.eqb_spec q p) as [->|]; [by rewrite HP, andb_false_r|done].
      * eapply adds_ext; [|exact HA]. intros q Hq. cbn [pin_down]. rewrite !has_clear_pin by done.
        destruct (Z.eqb_spec q p) as [->|]; [by rewrite Hh, andb_false_r|done].
  - intros p Hp Hh. apply (ok_keyed _ (proj1 HG) p Hp). by apply in_progress_down.
  - exists code, (gpio_key k), (gpio_armed k). split; [by destruct k|]. split_and!; try done.
    + intros p Hp. unfold d0. by destruct (has _ p).
    + apply adds_none; [done|]. intros p Hp. fold d0. by destruct (has d0 p).
  - exists code', g, a. split_and!; try done; try apply HS.
    + intros p Hp. by rewrite HD, HN by done.
    + eapply adds_ext; [|exact HA]. intros p Hp. simpl. by rewrite HN, andb_true_r.
Qed.

(** One pin [p] changed: the facts about the pin [q] of the goal, rewritten with the known bits. *)
Ltac pin_case q p :=
  destruct (Z.eqb_spec q p) as [->|];
  repeat match goal with
  | H : has _ _ = _ |- _ => progress rewrite H in *
  | H : pin_pressed _ _ = _ |- _ => progress rewrite H in *
  end; simpl in *; split_and!; try done; try congruence; rewrite ?orb_true_r; try done.

(** *** The pins that are being debounced *)
Section Debounce.
Variables (time : Z) (val : Z -> Z) (code : Z) (k : keys).
Notation g0 := (gpio_key k).
Notation settled := (elapsed time (time_debounce g0) (KEY_DEBOUNCE_INTERVAL hz)).

Definition debounce_inv (m : GPIO_MAP_T) (s : GPIO_MAP_T * GPIO_MAP_T * Z * keys) : Prop :=
  exists da dth code' dn, s = (da, dth, code', set_gpio (mkGpio (pin_debounce g0) (pin_dither g0) dn (time_debounce g0) (time_dither g0)) k) /\
    wf_map da /\ wf_map dth /\ wf_map dn /\ adds code code' (has da) /\
    forall p, 0 <= p -> (has m p = true -> has (pin_debounce g0) p = true) /\
      has da p = has (pin_debounce g0) p && negb (has m p) && (pin_pressed val p && settled) /\
      has dth p = has (pin_debounce g0) p && negb (has m p) && negb (pin_pressed val p) /\
      has dn p = has (pin_down g0) p || has da p.

Lemma debounce_body_inv m p c s : wf_map m -> debounce_inv m s -> 0 <= p < PINS -> has m p = true -> find_pin p = Some c ->
  debounce_inv (gpio_map_clear_pin m p) (debounce_body hz time val p c s).
Proof.
  intros Wm (da & dth & code1 & dn & -> & Wa & Wt & Wn & HA & HI) Hp Hh Hc.
  destruct (pressed_find val p c Hc) as [HP HK]. unfold debounce_body. cbn [gpio_key set_gpio time_debounce pin_debounce pin_dither pin_down time_dither].
  destruct (HI p ltac:(lia)) as (Hd & _). specialize (Hd Hh).
  destruct (val p =? key_down c) eqn:EV; [destruct settled eqn:EB|].
  - exists (gpio_map_set_pin da p), dth, (Z.lor code1 (key_code c)), (gpio_map_set_pin dn p).
    split_and!; auto with pins.
    + rewrite <- HK. eapply adds_pin; [|intros q Hq; by apply has_set_pin|exact HA]. lia.
    + intros q Hq. destruct (HI q Hq) as (H1 & H2 & H3 & H4). rewrite has_clear_pin, !has_set_pin by done. pin_case q p.
  - exists da, dth, code1, dn. split_and!; try done.
    intros q Hq. destruct (HI q Hq) as (H1 & H2 & H3 & H4). rewrite has_clear_pin by done. pin_case q p.
  - exists da, (gpio_map_set_pin dth p), code1, dn. split_and!; auto with pins.
    intros q Hq. destruct (HI q Hq) as (H1 & H2 & H3 & H4). rewrite has_clear_pin, !has_set_pin by done. pin_case q p.
Qed.
End Debounce.

Lemma pins_ok time val code k : gpio_ok (gpio_key k) (gpio_armed k) -> is_u 32 code ->
  let g0 := gpio_key k in let settled := elapsed time (time_debounce g0) (KEY_DEBOUNCE_INTERVAL hz) in
  exists code' g, debounce_pins hz cfg time val (code, k) = Some (code', set_gpio g k) /\ gpio_ok g (gpio_armed k) /\
    time_debounce g = time_debounce g0 /\ time_dither g = time_dither g0 /\
    (forall p, 0 <= p ->
      has (pin_debounce g) p = has (pin_debounce g0) p && pin_pressed val p && negb settled /\
      has (pin_dither g) p = has (pin_dither g0) p || has (pin_debounce g0) p && negb (pin_pressed val p) /\
      has (pin_down g) p = has (pin_down g0) p || has (pin_debounce g0) p && pin_pressed val p && settled) /\
    adds code code' (fun p => has (pin_debounce g0) p && pin_pressed val p && settled).
Proof.
  intros HG HU g0 settled. destruct HG as [HM HA]. fold g0 in HM, HA.
  pose proof (ok_debounce _ HM) as HW. unfold debounce_pins. cbn [snd fst]. fold g0.
  destruct (gpio_map_test_set (pin_debounce g0)) eqn:ET.
  2: { apply (test_set_false _ HW) in ET. exists code, g0. split; [by destruct k|]. split_and!; try done.
    - intros p Hp. rewrite ET by done. by rewrite orb_false_r, orb_false_r.
    - apply adds_none; [done|]. intros p Hp. by rewrite ET. }
  edestruct (fun H => pin_loop_ok (debounce_body hz time val) (debounce_inv time val code k) H (pin_debounce g0) (gpio_map_clear, gpio_map_clear, code, k))
    as (m' & s' & -> & (da & dth & code' & dn & -> & Wa & Wt & Wn & HC' & HI) & _ & HN);
    [by intros; apply debounce_body_inv|done| | |].
  - intros p Hp Hh. apply (ok_keyed _ HM p Hp). by apply in_progress_debounce.
  - exists gpio_map_clear, gpio_map_clear, code, (pin_down g0). split; [by destruct k as [??????? [?????]]|].
    split_and!; try apply wf_clear; [apply HM|apply adds_none; [done|]; intros; by apply has_clear|].
    intros p Hp. rewrite has_clear by done. fold g0. destruct (has (pin_debounce g0) p); by rewrite ?orb_false_r.
  - eexists code', _. split; [reflexivity|]. cbn [gpio_key set_gpio pin_debounce pin_dither pin_down time_debounce time_dither]. fold g0.
    assert (HF : forall p, 0 <= p ->
      has (gpio_map_clear_map (gpio_map_clear_map (pin_debounce g0) da) dth) p = has (pin_debounce g0) p && pin_pressed val p && negb settled /\
      has (gpio_map_set_map (pin_dither g0) dth) p = has (pin_dither g0) p || has (pin_debounce g0) p && negb (pin_pressed val p) /\
      has dn p = has (pin_down g0) p || has (pin_debounce g0) p && pin_pressed val p && settled).
    { intros p Hp. destruct (HI p Hp) as (_ & H2 & H3 & H4). fold g0 settled in H2, H3, H4.
      rewrite !has_clear_map, has_set_map by (apply wf_same_length; auto with pins). rewrite H4, H2, H3, HN by done.
      destruct (has (pin_debounce g0) p), (pin_pressed val p), settled; by rewrite ?orb_false_r. }
    split_and!; [split| | | |]; try done.
    + split; cbn [pin_debounce pin_dither pin_down]; [by repeat apply wf_clear_map|by apply wf_set_map; [apply HM|]|done| |]; intros p Hp; destruct (HF p Hp) as (F1 & F2 & F3); unfold in_progress; cbn [pin_debounce pin_dither pin_down];
        rewrite F1, F2, F3; destruct (ok_apart _ HM p Hp) as (P1 & P2 & P3); pose proof (ok_keyed _ HM p Hp) as HK; unfold in_progress in HK;
        destruct (has (pin_debounce g0) p), (has (pin_dither g0) p), (has (pin_down g0) p), (pin_pressed val p), settled; try done; by apply HK.
    + destruct HA as [H1 H2]. split; [|done]. intros p Hp. rewrite H1 by done. destruct (HF p Hp) as (F1 & F2 & F3).
      unfold in_progress; cbn [pin_debounce pin_dither pin_down]. rewrite F1, F2, F3.
      by destruct (has (pin_debounce g0) p), (has (pin_dither g0) p), (has (pin_down g0) p), (pin_pressed val p), settled.
    + eapply adds_ext; [|exact HC']. intros p Hp. destruct (HI p Hp) as (_ & H2 & _). fold g0 settled in H2. rewrite H2, HN by done.
      by destruct (has (pin_debounce g0) p), (pin_pressed val p).
Qed.

(** *** One run of the handler, pin by pin *)
Inductive phase := Idle | Pressing | Held | Releasing.

Definition pin_phase (g : HAL_KEY_GPIOKEY_T) (p : Z) : phase :=
  if has (pin_debounce g) p then Pressing else if has (pin_dither g) p then Releasing else if has (pin_down g) p then Held else Idle.

(** [settled]: the debounce interval has passed; [calm]: the dither interval has; [down]: the level. *)
Definition next_phase (settled calm down : bool) (ph : phase) : phase :=
  match ph with
  | Idle => Idle
  | Pressing => if down then if settled then Held else Pressing else Releasing
  | Held => if down then Held else Idle
  | Releasing => if calm then Idle else Releasing
  end.

Lemma bad_pin_map_ok g : maps_ok g -> bad_pin_map g = false.
Proof.
  intros HM. unfold bad_pin_map. rewrite !orb_false_iff, !test_set_map_false by apply HM.
  split_and!; intros p Hp; by destruct (ok_apart _ HM p Hp) as (? & ? & ?).
Qed.

Lemma debounce_gpio_ok time val code k : gpio_ok (gpio_key k) (gpio_armed k) -> is_u 32 code ->
  exists code' g a, debounce_gpio hz cfg time val (code, k) = Some (code', with_gpio g a k) /\ gpio_ok g a /\
    time_debounce g = time_debounce (gpio_key k) /\ time_dither g = time_dither (gpio_key k) /\
    (forall p, 0 <= p -> pin_phase g p =
      next_phase (elapsed time (time_debounce g) (KEY_DEBOUNCE_INTERVAL hz)) (elapsed time (time_dither g) (KEY_DITHER_INTERVAL hz))
        (pin_pressed val p) (pin_phase (gpio_key k) p)) /\
    adds code code' (has (pin_down g)).
Proof.
  intros HG HU. unfold debounce_gpio. cbn [snd fst]. rewrite bad_pin_map_ok by apply HG.
  destruct (dithered_ok time k HG) as (g1 & a1 & -> & G1 & E1 & E2 & E3 & E4 & D1). cbn [mbind option_bind].
  destruct (downs_ok val code (with_gpio g1 a1 k) G1 HU) as (c2 & g2 & a2 & -> & G2 & (F1 & F2 & F3 & F4) & D2 & A2).
  cbn [mbind option_bind]. destruct A2 as [HU2 A2].
  destruct (pins_ok time val c2 (with_gpio g2 a2 (with_gpio g1 a1 k)) G2 HU2) as (c3 & g3 & -> & G3 & T3 & T4 & D3 & A3).
  cbn [with_gpio gpio_key set_gpio set_gpio_armed] in *. rewrite F1, F2, F3, F4, E1, E2, E3, E4 in *.
  exists c3, g3, a2. split; [done|]. split; [done|]. rewrite T3, T4. split_and!; try done.
  - intros p Hp. unfold pin_phase. destruct (D3 p Hp) as (H1 & H2 & H3). rewrite H1, H2, H3, D2, D1 by done.
    destruct (ok_apart _ (proj1 HG) p Hp) as (P1 & P2 & P3). unfold next_phase.
    by destruct (has (pin_debounce (gpio_key k)) p), (has (pin_dither (gpio_key k)) p), (has (pin_down (gpio_key k)) p),
      (pin_pressed val p), (elapsed _ _ _), (elapsed _ _ _).
  - eapply adds_trans; [|split; [exact HU2|exact A2]|exact A3]. intros p Hp. destruct (D3 p Hp) as (_ & _ & H3). by rewrite H3.
Qed.

(** ** Arming *)
Lemma enable_fold l a k p : gpio_armed k = a ->
  NoDup (key_pin <$> l) ->
  gpio_armed (fold_left (fun k c => if key_code c =? HAL_KEY_CODE_NONE then k else hal_gpiokey_enable_irq (key_pin c) (polarity c) k) l k) !! p =
  match List.find (fun c => key_pin c =? p) l with
  | Some c => if key_code c =? HAL_KEY_CODE_NONE then a !! p else Some (polarity c)
  | None => a !! p
  end.
Proof.
  revert a k. induction l as [|c l IH]; intros a k <- HN; [done|]. simpl in *. apply NoDup_cons in HN as [Hc HN].
  rewrite (IH _ _ eq_refl HN). destruct (Z.eqb_spec (key_pin c) p) as [<-|Hn].
  - destruct (List.find _ l) as [d|] eqn:E.
    + apply find_some in E as [Hin Hp]. apply Z.eqb_eq in Hp. destruct Hc. rewrite <- Hp. apply list_elem_of_fmap_2. by apply list_elem_of_In.
    + case_match; [done|]. simpl. by rewrite lookup_insert_eq.
  - assert (E : gpio_armed (if key_code c =? HAL_KEY_CODE_NONE then k else hal_gpiokey_enable_irq (key_pin c) (polarity c) k) !! p = gpio_armed k !! p).
    { destruct (key_code c =? HAL_KEY_CODE_NONE); [done|]. simpl. by rewrite lookup_insert_ne. }
    by rewrite E.
Qed.

Lemma enable_frame l k : exists a, fold_left (fun k c => if key_code c =? HAL_KEY_CODE_NONE then k else hal_gpiokey_enable_irq (key_pin c) (polarity c) k) l k
  = set_gpio_armed a k.
Proof.
  revert k. induction l as [|c l IH]; intros k; [exists (gpio_armed k); by destruct k|]. simpl.
  destruct (IH (if key_code c =? HAL_KEY_CODE_NONE then k else hal_gpiokey_enable_irq (key_pin c) (polarity c) k)) as [a ->].
  exists a. by case_match.
Qed.

(** From nothing armed and no pin in progress, every key is armed. *)
Lemma enable_allint_ok k : gpio_armed k = ∅ -> gpio_key k = zero_gpio ->
  exists a, hal_gpiokey_enable_allint cfg k = set_gpio_armed a k /\ gpio_ok zero_gpio a.
Proof.
  intros HA HG. destruct (enable_frame cfg k) as [a Ha]. exists a. split; [exact Ha|].
  assert (HL : forall p, a !! p = armed_for p).
  { intros p. pose proof (enable_fold cfg ∅ k p HA (cfg_pins _ HC)) as E. rewrite Ha in E. cbn in E. rewrite E.
    unfold armed_for, hal_gpiokey_find_index. repeat case_match; (done || by rewrite lookup_empty). }
  assert (HZ : forall p, 0 <= p -> in_progress zero_gpio p = false).
  { intros p Hp. unfold in_progress. cbn [zero_gpio pin_debounce pin_dither pin_down]. by rewrite has_clear. }
  split; [split; try apply wf_clear; intros p Hp|split].
  - cbn [zero_gpio pin_debounce pin_dither pin_down]. by rewrite has_clear.
  - by rewrite HZ.
  - intros p Hp. by rewrite HZ, has_clear.
  - intros p pol Hp. rewrite HL in Hp. apply armed_for_find in Hp as (_ & _ & _ & ?). lia.
Qed.

(** ** A pin's interrupt *)
Lemma gpio_irq_ok pin now val k : gpio_ok (gpio_key k) (gpio_armed k) -> is_Some (gpio_armed k !! pin) ->
  exists g a, hal_gpiokey_irqhandler cfg pin now val k = Some (hal_key_debounce_timer_restart (with_gpio g a k)) /\ gpio_ok g a /\
    (forall p, 0 <= p -> pin_phase g p = if p =? pin then if pin_pressed (fun _ => val) pin then Pressing else Releasing else pin_phase (gpio_key k) p) /\
    has (pin_down g) pin = false /\ (forall p, 0 <= p -> has (pin_down g) p = has (pin_down (gpio_key k)) p).
Proof.
  intros [HM [H1 H2]] [pol Hpol]. pose proof (H2 _ _ Hpol) as Hp. pose proof Hpol as HA. rewrite H1 in HA by done.
  rewrite has_clear, orb_false_r in HA by done. destruct (in_progress (gpio_key k) pin) eqn:EI; [done|].
  destruct (armed_for_find _ _ HA) as (c & Hc & -> & HR). destruct (pressed_find (fun _ => val) pin c Hc) as [HP _].
  unfold hal_gpiokey_irqhandler. rewrite Hc. cbn [mbind option_bind gpio_key hal_gpiokey_disable_irq set_gpio_armed].
  set (g := gpio_key k) in *. set (g' := if val =? key_down c then _ else _). exists g', (delete pin (gpio_armed k)).
  unfold in_progress in EI. apply orb_false_iff in EI as [[Ed Et]%orb_false_iff En].
  assert (HE : forall p, 0 <= p -> has (pin_debounce g') p = (p =? pin) && (val =? key_down c) || has (pin_debounce g) p /\
    has (pin_dither g') p = (p =? pin) && negb (val =? key_down c) || has (pin_dither g) p /\ has (pin_down g') p = has (pin_down g) p /\
    wf_map (pin_debounce g') /\ wf_map (pin_dither g') /\ wf_map (pin_down g')).
  { intros p Hp'. unfold g'. destruct (val =? key_down c); cbn [pin_debounce pin_dither pin_down]; rewrite has_set_pin by (apply HM || done);
      rewrite ?andb_true_r, ?andb_false_r; split_and!; try done; try apply wf_set_pin; apply HM. }
  destruct (HE 0 ltac:(lia)) as (_ & _ & _ & W1 & W2 & W3).
  split; [done|]. split_and!.
  - split; [split; try done; intros p Hp'; unfold in_progress; destruct (HE p Hp') as (-> & -> & -> & _)|split].
    + destruct (ok_apart _ HM p Hp') as (A1 & A2 & A3). fold g in A1, A2, A3. destruct (Z.eqb_spec p pin) as [->|]; [|done].
      rewrite Ed, Et, En. by destruct (val =? key_down c).
    + intros HI. destruct (Z.eqb_spec p pin) as [->|]; [by rewrite HA|]. by apply (ok_keyed _ HM p Hp').
    + intros p Hp'. destruct (HE p Hp') as (E1 & E2 & E3 & _). unfold in_progress. rewrite E1, E2, E3. destruct (Z.eqb_spec p pin) as [->|].
      * rewrite lookup_delete_eq. by destruct (val =? key_down c); rewrite ?orb_true_r.
      * rewrite lookup_delete_ne by done. by apply H1.
    + intros p q Hl. destruct (decide (p = pin)) as [->|]; [done|]. rewrite lookup_delete_ne in Hl by done. by eapply H2.
  - intros p Hp'. unfold pin_phase. destruct (HE p Hp') as (-> & -> & -> & _). rewrite HP.
    destruct (Z.eqb_spec p pin) as [->|]; [|done]. by destruct (val =? key_down c); rewrite ?Ed, ?Et.
  - destruct (HE pin Hp) as (_ & _ & -> & _). done.
  - intros p Hp'. by destruct (HE p Hp') as (_ & _ & -> & _).
Qed.
End Laws.

Lemma codes_of_eq m : codes_of m = codes_from CODE_FUEL 0 m.
Proof. done. Qed.

Lemma code_fuel : Z.of_nat CODE_FUEL = 32.
Proof. done. Qed.

Lemma codes_of_nil m : is_u 32 m -> codes_of m = [] <-> m = 0.
Proof.
  intros HU. rewrite codes_of_eq. split; [|intros ->; apply codes_from_0]. intros HE.
  destruct (Z.eq_dec m 0) as [->|Hn]; [done|]. exfalso.
  destruct (word_bit m HU Hn) as (i & Hi & HT).
  assert (HX : forall n j, j <= i < j + Z.of_nat n -> codes_from n j m <> []).
  { induction n as [|n IH]; intros j Hj; [lia|]. simpl. destruct (Z.testbit m j) eqn:E; [done|].
    apply IH. assert (j <> i) by congruence. lia. }
  apply (HX CODE_FUEL 0); [rewrite code_fuel; lia|exact HE].
Qed.

(** The sets of codes are compared by their lemmas, never by running the loop. *)
#[global] Opaque codes_of CODE_FUEL.
