(* ===== verification/HalKeyRuns.v ===== *)
(** Runs of the key scanner: what a handler sends, the invariants of every reachable state, and the
    way back to rest. *)
From Stdlib Require Import ZArith Lia Bool.
From stdpp Require Import base gmap option list.
From S2P Require Import Prelude HalKey HalKeyLaws.

(** ** What a part of the handler may change *)

(** Everything but the status of the keys and the events sent. *)
Definition others (k : keys) := (key_detected_callback k, debounce_timer k, timer_active k, pwr_key k, gpio_key k, timer_set k, pwr_armed k, gpio_armed k,
  debounce_started k, time_first_debounce k).

(** The presses and releases among the events. *)
Definition is_updown (e : Z * Z) : bool := (e.2 =? HAL_KEY_EVENT_DOWN) || (e.2 =? HAL_KEY_EVENT_UP).
Definition updowns (l : list (Z * Z)) : list (Z * Z) := List.filter is_updown l.

(** From [k] to [k'] the events of the kind [f] sent are [ud], if there is a callback. *)
Record acts (f : Z * Z -> bool) (ud : list (Z * Z)) (k k' : keys) : Prop := {
  acts_others : others k' = others k;
  acts_down : code_down (key_status k') = code_down (key_status k);
  acts_sent : exists es, sent k' = sent k ++ es /\ List.filter f es = if key_detected_callback k then ud else [] }.

Notation quiet f := (acts f []).

Lemma others_callback k k' : others k' = others k -> key_detected_callback k' = key_detected_callback k.
Proof. unfold others. congruence. Qed.

(** Assignments to the status of the keys are seen only there. *)
Section Acts.
Variable f : Z * Z -> bool.

Lemma acts_trans ud1 ud2 k1 k2 k3 : acts f ud1 k1 k2 -> acts f ud2 k2 k3 -> acts f (ud1 ++ ud2) k1 k3.
Proof.
  intros [O1 D1 (e1 & S1 & U1)] [O2 D2 (e2 & S2 & U2)]. split; [congruence..|]. exists (e1 ++ e2).
  rewrite S2, S1, app_assoc, List.filter_app, U1, U2, (others_callback _ _ O1). split; [done|]. by destruct (key_detected_callback k1).
Qed.

Lemma quiet_refl k : quiet f k k.
Proof. split; [done..|]. exists []. rewrite app_nil_r. by destruct (key_detected_callback k). Qed.

Lemma quiet_upd g k : code_down (g (key_status k)) = code_down (key_status k) -> quiet f k (upd g k).
Proof. intros H. split; [done..|]. exists []. rewrite app_nil_r. by destruct (key_detected_callback k). Qed.

Lemma acts_send c e k : acts f (if f (c, e) then [(c, e)] else []) k (send_key_event c e k).
Proof.
  unfold send_key_event. destruct (key_detected_callback k) eqn:E.
  - split; [done..|]. exists [(c, e)]. by rewrite E.
  - split; [done..|]. exists []. by rewrite app_nil_r, E.
Qed.

Lemma quiet_send c e k : f (c, e) = false -> quiet f k (send_key_event c e k).
Proof. intros H. pose proof (acts_send c e k) as HA. by rewrite H in HA. Qed.

Lemma quiet_trans k1 k2 k3 : quiet f k1 k2 -> quiet f k2 k3 -> quiet f k1 k3.
Proof. apply (acts_trans [] []). Qed.

(** The loops over the new codes. *)
Lemma fold_acts (body : Z -> keys -> keys) (ud : Z -> list (Z * Z)) l k : (forall c k, acts f (ud c) k (body c k)) ->
  acts f (concat (ud <$> l)) k (fold_left (fun k c => body c k) l k).
Proof.
  intros HB. revert k. induction l as [|c l IH]; intros k; simpl; [apply quiet_refl|].
  apply (acts_trans (ud c) _ _ (body c k)); [apply HB|apply IH].
Qed.
End Acts.

(** The parts are trees of sends and updates. *)
Ltac quiet_tree := repeat first
  [ apply quiet_refl
  | eapply quiet_trans; [|apply quiet_upd; reflexivity]
  | eapply quiet_trans; [|apply quiet_send; reflexivity]
  | match goal with |- acts _ [] _ (if ?b then _ else _) => destruct b end ].

Lemma ev_send c e k : ev (send_key_event c e k) = ev k.
Proof. unfold send_key_event. by case_match. Qed.

Lemma status_send c e k : key_status (send_key_event c e k) = key_status k.
Proof. unfold send_key_event. by case_match. Qed.

Lemma key_up_acts time c k : acts is_updown [(c, HAL_KEY_EVENT_UP)] k (key_up time c k).
Proof.
  unfold key_up. apply (acts_trans _ [(c, HAL_KEY_EVENT_UP)] [] _ (send_key_event c HAL_KEY_EVENT_UP k)).
  - apply (acts_send is_updown c HAL_KEY_EVENT_UP).
  - quiet_tree.
Qed.

Lemma after_ups_quiet f up_new code k : quiet f k (after_ups up_new code k).
Proof. unfold after_ups. quiet_tree. Qed.

(** Between two runs of the handler fewer clicks are counted than end the count. *)
Definition clicks_ok (k : keys) : Prop := 0 <= cnt_click (key_status k) < MAX_KEY_CLICK_COUNT.

Lemma click_event_quiet c n : 0 <= n -> is_updown (c, HAL_KEY_EVENT_CLICK + n) = false.
Proof.
  intros Hn. unfold is_updown, HAL_KEY_EVENT_CLICK, HAL_KEY_EVENT_DOWN, HAL_KEY_EVENT_UP. simpl.
  apply orb_false_iff. split; apply Z.eqb_neq; lia.
Qed.

Lemma count_click_range time up_new k : clicks_ok k -> 0 <= cnt_click (key_status (count_click time up_new k)) <= MAX_KEY_CLICK_COUNT.
Proof.
  unfold clicks_ok, count_click, MAX_KEY_CLICK_COUNT, HAL_KEY_EVENT_RAMPAGECLICK, HAL_KEY_EVENT_CLICK. intros H.
  repeat case_match; rewrite ?status_send; simpl; try lia. rewrite u8_small; lia.
Qed.

Lemma clicks_quiet hz time up_new k : clicks_ok k -> quiet is_updown k (clicks hz time up_new k).
Proof.
  intros H. unfold clicks. case_match; [|apply quiet_refl]. pose proof (count_click_range time up_new k H) as HR.
  apply quiet_trans with (count_click time up_new k).
  - unfold clicks_ok in H. unfold count_click. repeat case_match; try apply quiet_refl; try (apply quiet_upd; done).
    apply quiet_trans with (send_key_event (code_click (key_status k)) (HAL_KEY_EVENT_CLICK + cnt_click (key_status k)) k); [|by apply quiet_upd].
    apply quiet_send, click_event_quiet. lia.
  - unfold finish_click. case_match; [|apply quiet_refl].
    eapply quiet_trans; [apply quiet_send, click_event_quiet; apply HR|by apply quiet_upd].
Qed.

Lemma key_down_acts time now c k : acts is_updown [(c, HAL_KEY_EVENT_DOWN)] k (key_down_new time now c k).
Proof.
  unfold key_down_new. apply (acts_trans _ [(c, HAL_KEY_EVENT_DOWN)] [] _ (send_key_event c HAL_KEY_EVENT_DOWN k)).
  - apply (acts_send is_updown c HAL_KEY_EVENT_DOWN).
  - quiet_tree.
Qed.

Lemma after_downs_quiet f down_new k : quiet f k (after_downs down_new k).
Proof. unfold after_downs. quiet_tree. Qed.

(** A long press sends events of three kinds. *)
Lemma long_presses_quiet f hz time code k :
  (forall c, f (c, HAL_KEY_EVENT_LONGPRESS) = false /\ f (c, HAL_KEY_EVENT_LONGLONGPRESS) = false /\ f (c, HAL_KEY_EVENT_REPEAT) = false) ->
  quiet f k (long_presses hz time code k).
Proof.
  intros HF. unfold long_presses. cbv zeta.
  repeat first
  [ apply quiet_refl
  | eapply quiet_trans; [|apply quiet_upd; reflexivity]
  | eapply quiet_trans; [|apply quiet_send; apply HF]
  | match goal with |- acts _ [] _ (if ?b then _ else _) => destruct b end ].
Qed.

Lemma updowns_app l1 l2 : updowns (l1 ++ l2) = updowns l1 ++ updowns l2.
Proof. apply List.filter_app. Qed.

Lemma concat_single (e : Z) (l : list Z) : concat ((fun c => [(c, e)]) <$> l) = (fun c => (c, e)) <$> l.
Proof. induction l as [|c l IH]; [done|]. cbn. f_equal. exact IH. Qed.

(** ** The status between two runs of the handler *)
Notation ready k := (code_ready (key_status k)).
Notation down_codes k := (code_down (key_status k)).

Record status_ok (k : keys) : Prop := {
  st_clicks : clicks_ok k;
  st_event : ev k = HAL_KEY_EVENT_NONE \/ ev k = HAL_KEY_EVENT_DOWN \/ ev k = HAL_KEY_EVENT_UP \/ long_pressed k = true;
  st_down : ev k = HAL_KEY_EVENT_DOWN -> ready k <> 0 /\ down_codes k <> 0;
  st_up : ev k = HAL_KEY_EVENT_UP -> ready k <> 0 /\ code_click (key_status k) = ready k;
  st_long : long_pressed k = true -> Z.land (down_codes k) (ready k) <> 0 }.

Lemma status_ok_same k k' : key_status k' = key_status k -> status_ok k -> status_ok k'.
Proof. intros E [H1 H2 H3 H4 H5]. unfold clicks_ok, long_pressed, ev in *. by split; unfold clicks_ok, long_pressed, ev; rewrite E. Qed.

Lemma ups_status time l k : key_status (fold_left (fun k c => key_up time c k) l k) =
  match l with [] => key_status k | _ => with_updown time (key_status k) end.
Proof.
  revert k. induction l as [|c l IH]; intros k; [done|]. simpl. rewrite IH.
  assert (E : key_status (key_up time c k) = with_updown time (key_status k)).
  { unfold key_up, upd. cbn [key_status set_status]. f_equal. destruct (long_pressed _); by rewrite !status_send. }
  rewrite E. by destruct l.
Qed.

(** No long press is going on, and no boot event. *)
Definition short (e : Z) : bool := (e =? HAL_KEY_EVENT_NONE) || (e =? HAL_KEY_EVENT_DOWN) || (e =? HAL_KEY_EVENT_UP).

Lemma downs_status time code l k : key_status (fold_left (fun k c => key_down_new time code c k) l k) =
  match l with [] => key_status k | _ => with_updown time (if short (ev k) then with_ready code (key_status k) else key_status k) end.
Proof.
  revert k. induction l as [|c l IH]; intros k; [done|]. simpl. rewrite IH.
  assert (E : key_status (key_down_new time code c k) = with_updown time (if short (ev k) then with_ready code (key_status k) else key_status k)).
  { unfold key_down_new. cbv zeta.
    set (k2 := if ev (send_key_event c HAL_KEY_EVENT_DOWN k) =? HAL_KEY_EVENT_NONE then _ else _).
    assert (E2 : key_status k2 = key_status k) by (unfold k2; destruct (_ =? _); by rewrite !status_send).
    unfold ev at 1 2 3. rewrite E2. fold (ev k) (short (ev k)). cbn. destruct (short (ev k)); cbn; by rewrite E2. }
  unfold ev at 1. rewrite E. destruct l as [|d l]; [done|].
  destruct (short (ev k)) eqn:ES; cbn; fold (ev k); by rewrite ES.
Qed.

(** Nothing newly released: the pressed keys are among those of now. *)
Lemma land_covered code old r : Z.land (Z.lnot code) old = 0 -> Z.land old r <> 0 -> Z.land code r <> 0.
Proof.
  intros H Hn HE. apply Hn. apply Z.bits_inj'. intros i Hi. rewrite Z.land_spec, Z.bits_0.
  assert (H1 : Z.testbit (Z.land (Z.lnot code) old) i = false) by (rewrite H; apply Z.bits_0).
  assert (H2 : Z.testbit (Z.land code r) i = false) by (rewrite HE; apply Z.bits_0).
  rewrite Z.land_spec, Z.lnot_spec in H1 by done. rewrite Z.land_spec in H2.
  by destruct (Z.testbit code i), (Z.testbit old i), (Z.testbit r i).
Qed.

Lemma covered_nonzero code old : Z.land (Z.lnot code) old = 0 -> old <> 0 -> code <> 0.
Proof. intros H Hn ->. apply Hn. by rewrite Z.lnot_0, Z.land_m1_l in H. Qed.

(** The status after the releases: [code] is pressed now. *)
Record released (code : Z) (k : keys) : Prop := {
  rl_clicks : clicks_ok k;
  rl_event : ev k = HAL_KEY_EVENT_NONE \/ ev k = HAL_KEY_EVENT_DOWN \/ ev k = HAL_KEY_EVENT_UP \/ long_pressed k = true;
  rl_down : ev k = HAL_KEY_EVENT_DOWN -> ready k <> 0 /\ code <> 0;
  rl_up : ev k = HAL_KEY_EVENT_UP -> ready k <> 0;
  rl_long : long_pressed k = true -> Z.land code (ready k) <> 0 }.

(** The count belongs to the codes that were ready. *)
Definition counted (k : keys) : Prop := ev k = HAL_KEY_EVENT_UP -> code_click (key_status k) = ready k.

Lemma after_ups_released code k k1 : status_ok k ->
  let up_new := Z.land (Z.lnot code) (down_codes k) in
  ev k1 = ev k -> ready k1 = ready k -> cnt_click (key_status k1) = cnt_click (key_status k) -> released code (after_ups up_new code k1).
Proof.
  intros [HC HE HD HP HL] up_new E1 E2 E3. unfold after_ups, long_pressed, clicks_ok in *. rewrite E1, E2.
  destruct (Z.eqb_spec up_new 0) as [HU|HU].
  - split; unfold clicks_ok, long_pressed; rewrite ?E1, ?E2, ?E3; try done.
    + intros H. destruct (HD H). split; [done|]. by eapply covered_nonzero.
    + intros H. by apply HP.
    + intros H. apply (land_covered code (down_codes k)); [done|by apply HL].
  - destruct ((ev k =? HAL_KEY_EVENT_LONGPRESS) || (ev k =? HAL_KEY_EVENT_LONGLONGPRESS)) eqn:EL.
    + destruct (Z.eqb_spec (Z.land code (ready k)) 0) as [HZ|HZ].
      * split; unfold clicks_ok, long_pressed; cbn; rewrite ?E3; try done; auto.
      * split; unfold clicks_ok, long_pressed; rewrite ?E1, ?E2, ?E3, ?EL; try done; auto; intros H; by rewrite H in EL.
    + destruct (Z.eqb_spec (ev k) HAL_KEY_EVENT_DOWN) as [HN|HN].
      * split; unfold clicks_ok, long_pressed; cbn; rewrite ?E2, ?E3; try done; auto. intros _. by apply HD.
      * split; unfold clicks_ok, long_pressed; rewrite ?E1, ?E2, ?E3, ?EL; try done. intros H. by apply HP.
Qed.

Lemma clicks_released hz time up_new code k : released code k -> released code (clicks hz time up_new k) /\ counted (clicks hz time up_new k).
Proof.
  intros HR. unfold clicks, counted. destruct (Z.eqb_spec (ev k) HAL_KEY_EVENT_UP) as [HE|]; [|by split; [|intros]].
  pose proof (count_click_range time up_new k (rl_clicks _ _ HR)) as HN. pose proof (rl_up _ _ HR HE) as HU.
  assert (E : ev (count_click time up_new k) = HAL_KEY_EVENT_UP).
  { unfold count_click, upd, ev. repeat case_match; cbn [key_status set_status with_click event]; by rewrite ?status_send. }
  assert (ER : ready (count_click time up_new k) = ready k /\ code_click (key_status (count_click time up_new k)) = ready k).
  { unfold count_click, upd. destruct (_ || _) eqn:EC.
    - destruct (code_click (key_status k) =? HAL_KEY_CODE_NONE); cbn [negb key_status set_status with_click code_ready code_click]; by rewrite ?status_send.
    - apply orb_false_iff in EC as [_ EC]. apply negb_false_iff, Z.eqb_eq in EC.
      destruct (_ && _); cbn [key_status set_status with_click code_ready code_click]; by rewrite ?status_send. }
  destruct ER as [ER EC]. unfold finish_click. destruct (elapsed _ _ _ || _) eqn:EF.
  - split; [|done]. split; unfold clicks_ok, long_pressed; cbn; try done; auto.
  - split; [|by rewrite EC, ER]. apply orb_false_iff in EF as [_ EF]. rewrite Z.geb_leb in EF. apply Z.leb_gt in EF.
    split; unfold clicks_ok, long_pressed; rewrite ?E, ?ER; try done; auto; lia.
Qed.

Lemma new_nonzero code old : Z.land code (Z.lnot old) <> 0 -> code <> 0.
Proof. by intros H ->. Qed.

Lemma is_u_new code old : is_u 32 code -> is_u 32 (Z.land code (Z.lnot old)).
Proof. apply is_u_land. Qed.

Lemma is_u_old code old : is_u 32 old -> is_u 32 (Z.land (Z.lnot code) old).
Proof. rewrite Z.land_comm. apply is_u_land. Qed.

Lemma downs_ok_status time code old l k : released code k -> counted k -> down_codes k = code ->
  let down_new := Z.land code (Z.lnot old) in
  (l = [] <-> down_new = 0) ->
  status_ok (after_downs down_new (fold_left (fun k c => key_down_new time code c k) l k)).
Proof.
  intros [RC RE RD RU RL] HCT HD down_new Hl. unfold counted in HCT. pose proof (downs_status time code l k) as HS.
  generalize dependent (fold_left (fun k c => key_down_new time code c k) l k). intros k4 HS.
  destruct l as [|c l].
  - unfold after_downs. rewrite (proj1 Hl eq_refl). cbn [Z.eqb negb andb].
    eapply status_ok_same; [exact HS|]. split; rewrite ?HD; auto; done.
  - assert (HN : down_new <> 0) by (intros E; by apply Hl in E).
    pose proof (new_nonzero _ _ HN) as HC. unfold after_downs. rewrite (proj2 (Z.eqb_neq _ _) HN). cbn [negb andb].
    unfold clicks_ok, long_pressed, ev, short in *.
    destruct RE as [E|[E|[E|E]]]; [rewrite E in *; cbn in HS..|].
    + rewrite HS. cbn. rewrite E. cbn. split; unfold clicks_ok, long_pressed, ev; cbn; rewrite ?HS; cbn; rewrite ?HD; auto; done.
    + rewrite HS. cbn. rewrite E. cbn. split; unfold clicks_ok, long_pressed, ev; rewrite ?HS; cbn; rewrite ?E, ?HD; auto; done.
    + rewrite HS. cbn. rewrite E. cbn. split; unfold clicks_ok, long_pressed, ev; cbn; rewrite ?HS; cbn; rewrite ?HD; auto; done.
    + specialize (RL E). assert (HE : event (key_status k) = 6 \/ event (key_status k) = 7) by (apply orb_true_iff in E; by rewrite !Z.eqb_eq in E).
      assert (ES : event (key_status k4) = event (key_status k) /\ code_ready (key_status k4) = code_ready (key_status k) /\
        cnt_click (key_status k4) = cnt_click (key_status k) /\ code_down (key_status k4) = code).
      { rewrite HS. destruct HE as [HE|HE]; rewrite HE; cbn; rewrite ?HE, ?HD; done. }
      destruct ES as (S1 & S2 & S3 & S4). rewrite S1.
      destruct HE as [HE|HE]; rewrite HE in *; cbn; (split; unfold clicks_ok, long_pressed, ev; rewrite ?S1, ?S2, ?S3, ?S4, ?HE; auto; done).
Qed.

Lemma long_presses_ok hz time code k : status_ok k -> down_codes k = code -> status_ok (long_presses hz time code k).
Proof.
  intros HK HD. pose proof HK as [HC HE HDn HUp HL]. unfold long_presses. cbv zeta.
  destruct (Z.eqb_spec (Z.land code (ready k)) (ready k)) as [HR|]; [|done].
  destruct (Z.eqb_spec (ev k) HAL_KEY_EVENT_DOWN) as [ED|_].
  - destruct (elapsed _ _ _); [|done]. destruct (HDn ED) as [Hr Hc].
    eapply status_ok_same; [apply status_send|]. split; unfold clicks_ok, long_pressed, ev; cbn; auto; try done. intros _. by rewrite HD, HR.
  - destruct (long_pressed k) eqn:EL; [|done]. specialize (HL eq_refl).
    set (k1 := upd _ k). set (k2 := if cnt_repeat (key_status k1) =? _ then _ else k1).
    assert (ES : ev k2 = ev k /\ ready k2 = ready k /\ cnt_click (key_status k2) = cnt_click (key_status k) /\ down_codes k2 = down_codes k).
    { unfold k2, ev. destruct (_ =? _); rewrite ?status_send; done. }
    destruct ES as (S1 & S2 & S3 & S4). destruct (_ && _).
    + eapply status_ok_same; [apply status_send|]. split; unfold clicks_ok, long_pressed, ev in *; cbn; rewrite ?S2, ?S3, ?S4; auto; done.
    + unfold clicks_ok, long_pressed in *. split; unfold clicks_ok, long_pressed; rewrite ?S1, ?S2, ?S3, ?S4; auto; try done.
      intros HX. by rewrite HX in EL.
Qed.

(** ** The events of one run of the handler *)
Definition ups (old code : Z) : list (Z * Z) := (fun c => (c, HAL_KEY_EVENT_UP)) <$> codes_of (Z.land (Z.lnot code) old).
Definition downs (old code : Z) : list (Z * Z) := (fun c => (c, HAL_KEY_EVENT_DOWN)) <$> codes_of (Z.land code (Z.lnot old)).

Lemma released_with_down code k : released code k -> released code (upd (with_down code) k).
Proof. intros [r1 r2 r3 r4 r5]. split; [exact r1|exact r2|exact r3|exact r4|exact r5]. Qed.

Lemma others_with_down code k : others (upd (with_down code) k) = others k /\ sent (upd (with_down code) k) = sent k /\
  down_codes (upd (with_down code) k) = code.
Proof. done. Qed.

(** The releases. *)
Lemma ups_stage hz time code k : is_u 32 (down_codes k) -> status_ok k ->
  let up_new := Z.land (Z.lnot code) (down_codes k) in
  exists k1, key_loop (key_up time) CODE_FUEL 0 up_new k = Some k1 /\ acts is_updown (ups (down_codes k) code) k (clicks hz time up_new (after_ups up_new code k1)) /\
    released code (clicks hz time up_new (after_ups up_new code k1)) /\ counted (clicks hz time up_new (after_ups up_new code k1)).
Proof.
  intros HO HK up_new. rewrite key_loop_spec by (by apply is_u_old).
  pose proof (fold_acts is_updown (key_up time) _ (codes_of up_new) k (key_up_acts time)) as A1. rewrite concat_single in A1.
  pose proof (ups_status time (codes_of up_new) k) as S1.
  eexists. split; [reflexivity|]. fold up_new. unfold ups. fold up_new.
  generalize dependent (fold_left (fun k c => key_up time c k) (codes_of up_new) k). intros k1 A1 S1.
  assert (R : released code (after_ups up_new code k1)).
  { apply (after_ups_released code k); [done|unfold ev; rewrite S1; by destruct (codes_of up_new)..]. }
  split; [|by apply clicks_released].
  rewrite <- (app_nil_r (_ <$> _)). eapply acts_trans; [exact A1|].
  eapply quiet_trans; [apply after_ups_quiet|]. apply clicks_quiet, R.
Qed.

(** The presses. *)
Lemma downs_stage hz time code old k : is_u 32 code -> released code k -> counted k -> down_codes k = code ->
  let down_new := Z.land code (Z.lnot old) in
  exists k1, key_loop (key_down_new time code) CODE_FUEL 0 down_new k = Some k1 /\
    acts is_updown (downs old code) k (long_presses hz time code (after_downs down_new k1)) /\
    status_ok (long_presses hz time code (after_downs down_new k1)).
Proof.
  intros HU HR HCT HD down_new. rewrite key_loop_spec by (by apply is_u_new).
  pose proof (fold_acts is_updown (key_down_new time code) _ (codes_of down_new) k (key_down_acts time code)) as A1. rewrite concat_single in A1.
  pose proof (downs_ok_status time code old (codes_of down_new) k HR HCT HD (codes_of_nil _ (is_u_new code old HU))) as ST.
  eexists. split; [reflexivity|]. fold down_new in ST. unfold downs. fold down_new.
  generalize dependent (fold_left (fun k c => key_down_new time code c k) (codes_of down_new) k). intros k1 A1 ST.
  split.
  - rewrite <- (app_nil_r (_ <$> _)). eapply acts_trans; [exact A1|].
    eapply quiet_trans; [apply after_downs_quiet|by apply long_presses_quiet].
  - apply long_presses_ok; [exact ST|]. by rewrite (acts_down _ _ _ _ (after_downs_quiet is_updown down_new k1)), (acts_down _ _ _ _ A1).
Qed.

Lemma key_events_eq hz time code k k1 k4 :
  let down_new := Z.land code (Z.lnot (down_codes k)) in
  let up_new := Z.land (Z.lnot code) (down_codes k) in
  key_loop (key_up time) CODE_FUEL 0 up_new k = Some k1 ->
  key_loop (key_down_new time code) CODE_FUEL 0 down_new (upd (with_down code) (clicks hz time up_new (after_ups up_new code k1))) = Some k4 ->
  key_events hz time code k = Some (long_presses hz time code (after_downs down_new k4)).
Proof.
  cbv zeta. intros E1 E4. unfold key_events. rewrite (bind_step _ _ _ E1). cbv beta zeta. rewrite (bind_step _ _ _ E4). reflexivity.
Qed.

Lemma key_events_ok hz time code k : is_u 32 code -> is_u 32 (down_codes k) -> status_ok k ->
  exists k', key_events hz time code k = Some k' /\ others k' = others k /\ status_ok k' /\ down_codes k' = code /\
    exists es, sent k' = sent k ++ es /\
      updowns es = if key_detected_callback k then ups (down_codes k) code ++ downs (down_codes k) code else [].
Proof.
  intros HU HO HK. destruct (ups_stage hz time code k HO HK) as (k1 & E1 & [O2 D2 (e2 & E2 & U2)] & R2 & C2).
  apply released_with_down in R2. destruct (others_with_down code (clicks hz time (Z.land (Z.lnot code) (down_codes k)) (after_ups (Z.land (Z.lnot code) (down_codes k)) code k1))) as (O3 & E3 & D3).
  destruct (downs_stage hz time code (down_codes k) _ HU R2 C2 D3) as (k4 & E4 & [O5 D5 (e5 & E5 & U5)] & S5).
  eexists. split; [exact (key_events_eq hz time code k k1 k4 E1 E4)|].
  split; [by rewrite O5, O3|]. split; [done|]. split; [by rewrite D5|]. exists (e2 ++ e5).
  rewrite E5, E3, E2, app_assoc, updowns_app. unfold updowns. rewrite U2, U5. split; [done|].
  rewrite (others_callback _ _ O3), (others_callback _ _ O2). by destruct (key_detected_callback k).
Qed.

(** ** The presses and releases of one key *)

(** A key is released, then pressed, then released, and so on; [None]: out of turn. *)
Definition key_track (c : Z) (st : option bool) (e : Z * Z) : option bool :=
  if e.1 =? c then
    if e.2 =? HAL_KEY_EVENT_DOWN then match st with Some false => Some true | _ => None end
    else if e.2 =? HAL_KEY_EVENT_UP then match st with Some true => Some false | _ => None end
    else st
  else st.

Definition tracked (c : Z) (l : list (Z * Z)) : option bool := fold_left (key_track c) l (Some false).

Lemma track_updowns c l st : fold_left (key_track c) l st = fold_left (key_track c) (updowns l) st.
Proof.
  revert st. induction l as [|e l IH]; intros st; [done|]. simpl. destruct (is_updown e) eqn:E; simpl; [apply IH|].
  rewrite IH. f_equal. unfold is_updown in E. apply orb_false_iff in E as [E1 E2]. unfold key_track. rewrite E1, E2. by case_match.
Qed.

Lemma key_track_other c st e : e.1 <> c -> key_track c st e = st.
Proof. intros H. unfold key_track. by rewrite (proj2 (Z.eqb_neq _ _) H). Qed.

Lemma track_codes e n j m i st : 0 <= i -> 0 <= j ->
  fold_left (key_track (2 ^ i)) ((fun c => (c, e)) <$> codes_from n j m) st =
  if (j <=? i) && (i <? j + Z.of_nat n) && Z.testbit m i then key_track (2 ^ i) st (2 ^ i, e) else st.
Proof.
  intros Hi. revert j st. induction n as [|n IH]; intros j st Hj.
  - assert (HE : (j <=? i) && (i <? j + Z.of_nat 0) = false) by (apply andb_false_iff; rewrite Z.leb_gt, Z.ltb_ge; lia).
    by rewrite HE.
  - assert (HE : (j <=? i) && (i <? j + Z.of_nat (S n)) = (i =? j) || (j + 1 <=? i) && (i <? j + 1 + Z.of_nat n)) by (zcases; simpl; lia).
    rewrite HE. simpl. destruct (Z.testbit m j) eqn:ET.
    + simpl. rewrite IH by lia. destruct (Z.eqb_spec i j) as [->|Hn]; simpl.
      * by rewrite ET, (proj2 (Z.leb_gt _ _)) by lia.
      * rewrite (key_track_other (2 ^ i) st (2 ^ j, e)); [done|]. simpl. intros HP. apply Hn. symmetry. eapply Z.pow_inj_r; [|done..|exact HP]. lia.
    + rewrite IH by lia. destruct (Z.eqb_spec i j) as [->|Hn]; [|done]. rewrite ET. by rewrite andb_false_r.
Qed.

Lemma track_step old code i l es : 0 <= i < 32 -> tracked (2 ^ i) l = Some (Z.testbit old i) -> updowns es = ups old code ++ downs old code ->
  tracked (2 ^ i) (l ++ es) = Some (Z.testbit code i).
Proof.
  intros Hi HT HE. unfold tracked in *. rewrite fold_left_app, HT, track_updowns, HE, fold_left_app. unfold ups, downs.
  rewrite (codes_of_eq (Z.land (Z.lnot code) old)), (codes_of_eq (Z.land code (Z.lnot old))). rewrite (track_codes HAL_KEY_EVENT_UP CODE_FUEL 0) by lia. rewrite (track_codes HAL_KEY_EVENT_DOWN CODE_FUEL 0) by lia. assert (HR : (0 <=? i) && (i <? 0 + Z.of_nat CODE_FUEL) = true) by (rewrite code_fuel; zcases; simpl; lia).
  rewrite HR, !Z.land_spec, !Z.lnot_spec by lia. unfold key_track. simpl. rewrite Z.eqb_refl.
  by destruct (Z.testbit old i), (Z.testbit code i).
Qed.

(** ** The power key *)
Definition pwr_phase (p : HAL_KEY_PWRKEY_T) : phase :=
  if debounce p then Pressing else if dither p then Releasing else if pressed p then Held else Idle.

Definition phase_idle (ph : phase) : bool := match ph with Idle => true | _ => false end.
Definition phase_held (ph : phase) : bool := match ph with Held => true | _ => false end.

Lemma pwr_busy_phase p : pwr_busy p = negb (phase_idle (pwr_phase p)).
Proof. unfold pwr_busy, pwr_phase. by destruct (debounce p), (dither p), (pressed p). Qed.

Lemma debounce_pwr_ok hz time down k : pwr_armed k = negb (pwr_busy (pwr_key k)) ->
  exists p b, debounce_pwr hz time down k = (if phase_held (pwr_phase p) then HAL_KEY_CODE_PWR else 0, set_pwr_armed b (set_pwr p k)) /\
    pwr_phase p = next_phase (elapsed time (pwr_time (pwr_key k)) (KEY_DEBOUNCE_INTERVAL hz))
      (elapsed time (pwr_time (pwr_key k)) (KEY_DITHER_INTERVAL hz)) down (pwr_phase (pwr_key k)) /\
    b = negb (pwr_busy p) /\ (pwr_phase p = pwr_phase (pwr_key k) -> pwr_time p = pwr_time (pwr_key k)).
Proof.
  intros HA. exists (pwr_key (debounce_pwr hz time down k).2), (pwr_armed (debounce_pwr hz time down k).2). revert HA.
  unfold debounce_pwr, pwr_busy, pwr_phase. destruct k as [? ? ? ? ? ? [d t s tm] ? ? a ? ?].
  cbn [pwr_key pwr_armed debounce dither pressed pwr_time]. intros ->.
  destruct d, t, s, down; cbn; repeat case_match; by split_and!.
Qed.

(** ** One run of the handler *)
Lemma held_phase g p cfg : maps_ok cfg g -> 0 <= p -> has (pin_down g) p = phase_held (pin_phase g p).
Proof.
  intros HM Hp. destruct (ok_apart _ _ HM p Hp) as (_ & H2 & H3). unfold pin_phase.
  by destruct (has (pin_debounce g) p), (has (pin_dither g) p), (has (pin_down g) p).
Qed.

Lemma idle_in_progress g p : in_progress g p = negb (phase_idle (pin_phase g p)).
Proof. unfold in_progress, pin_phase. by destruct (has (pin_debounce g) p), (has (pin_dither g) p), (has (pin_down g) p). Qed.

Lemma gpio_busy_spec g cfg : maps_ok cfg g -> gpio_busy g = true <-> exists p, 0 <= p /\ pin_phase g p <> Idle.
Proof.
  intros HM. unfold gpio_busy. rewrite !orb_true_iff, !test_set_spec by apply HM. split.
  - intros [[(p & Hp & Hh)|(p & Hp & Hh)]|(p & Hp & Hh)]; exists p; (split; [done|]); unfold pin_phase; rewrite Hh; repeat case_match; done.
  - intros (p & Hp & Hh). unfold pin_phase in Hh.
    destruct (has (pin_debounce g) p) eqn:E1; [right; by exists p|]. destruct (has (pin_dither g) p) eqn:E2; [left; left; by exists p|].
    destruct (has (pin_down g) p) eqn:E3; [left; right; by exists p|done].
Qed.

Section Runs.
Variable hz : Z.
Variable cfg : list HAL_KEY_GPIOKEY_CFG_T.
Hypothesis HC : cfg_ok cfg.

(** The pressed keys: the power key, code bit 0, and the pins that are held. *)
Definition key_held (k : keys) (i : Z) : Prop :=
  i = 0 /\ pwr_phase (pwr_key k) = Held \/
  exists p, 0 <= p /\ pin_phase (gpio_key k) p = Held /\ Z.testbit (pin_code cfg p) i = true.

(** The handler is the one after the start: what holds whenever no handler runs. *)
Record running (k : keys) : Prop := {
  rn_mode : debounce_timer k = Some Debounce;
  rn_gpio : gpio_ok cfg (gpio_key k) (gpio_armed k);
  rn_pwr : pwr_armed k = negb (pwr_busy (pwr_key k));
  rn_status : status_ok k;
  rn_code : is_u 32 (down_codes k);
  rn_timer : timer_active k = timer_set k;
  rn_watch : pwr_busy (pwr_key k) || gpio_busy (gpio_key k) || negb (ev k =? HAL_KEY_EVENT_NONE) = true -> timer_set k = true;
  rn_keys : forall i, 0 <= i -> Z.testbit (down_codes k) i = true <-> key_held k i;
  rn_log : key_detected_callback k = true -> forall i, 0 <= i < 32 -> tracked (2 ^ i) (sent k) = Some (Z.testbit (down_codes k) i) }.

Lemma handler_eq time down val k code k1 code' k2 k3 :
  debounce_pwr hz time down (set_active false k) = (code, k1) -> debounce_gpio hz cfg time val (code, k1) = Some (code', k2) ->
  key_events hz time code' k2 = Some k3 ->
  hal_key_debounce_handler hz cfg time down val k = Some (handler_end hz time (pwr_busy (pwr_key k1) || gpio_busy (gpio_key k2)) k3).
Proof.
  intros E1 E2 E3. unfold hal_key_debounce_handler. rewrite E1. rewrite (bind_step _ _ _ E2). cbv beta iota zeta. by rewrite (bind_step _ _ _ E3).
Qed.

Lemma handler_end_ok time need k : timer_active k = false -> timer_set k = false ->
  let k' := handler_end hz time need k in
  let again := need || negb (ev k =? HAL_KEY_EVENT_NONE) in
  timer_active k' = again /\ timer_set k' = again /\ key_status k' = key_status k /\ sent k' = sent k /\
  debounce_timer k' = debounce_timer k /\ key_detected_callback k' = key_detected_callback k /\
  pwr_key k' = pwr_key k /\ gpio_key k' = gpio_key k /\ pwr_armed k' = pwr_armed k /\ gpio_armed k' = gpio_armed k.
Proof.
  intros HA HT. unfold handler_end, permpress, hal_key_debounce_timer_restart.
  destruct (ev k =? HAL_KEY_EVENT_NONE), need; cbn [negb orb]; repeat case_match; cbn in *; try congruence; by split_and!.
Qed.

(** The codes the handler finds pressed are those of the keys held. *)
Lemma held_codes g a p code' i : gpio_ok cfg g a -> adds cfg (if phase_held (pwr_phase p) then HAL_KEY_CODE_PWR else 0) code' (has (pin_down g)) -> 0 <= i ->
  Z.testbit code' i = true <-> i = 0 /\ pwr_phase p = Held \/ exists q, 0 <= q /\ pin_phase g q = Held /\ Z.testbit (pin_code cfg q) i = true.
Proof.
  intros G2 [_ A2] Hi. rewrite A2 by done.
  split; (intros [H|(q & Hq & H1 & H2)]; [left|right; exists q; rewrite ?(held_phase g q cfg (proj1 G2) Hq) in *]).
  - destruct (pwr_phase p); simpl in H; try (by rewrite Z.bits_0 in H). split; [|done].
    change HAL_KEY_CODE_PWR with (2 ^ 0) in H. rewrite pow2_bit in H by lia. by apply Z.eqb_eq in H.
  - split; [done|]. split; [|done]. by destruct (pin_phase g q).
  - by destruct H as [-> ->].
  - split; [done|]. split; [|done]. by rewrite H1.
Qed.

(** One run: every key takes its next phase, the rest of the invariant is kept. *)
Lemma debounce_handler_ok time down val k : running k ->
  exists k', hal_key_debounce_handler hz cfg time down val (set_timer false k) = Some k' /\ running k' /\
    key_detected_callback k' = key_detected_callback k /\
    pwr_phase (pwr_key k') = next_phase (elapsed time (pwr_time (pwr_key k)) (KEY_DEBOUNCE_INTERVAL hz))
      (elapsed time (pwr_time (pwr_key k)) (KEY_DITHER_INTERVAL hz)) down (pwr_phase (pwr_key k)) /\
    (pwr_phase (pwr_key k') = pwr_phase (pwr_key k) -> pwr_time (pwr_key k') = pwr_time (pwr_key k)) /\
    (forall p, 0 <= p -> pin_phase (gpio_key k') p =
      next_phase (elapsed time (time_debounce (gpio_key k)) (KEY_DEBOUNCE_INTERVAL hz))
        (elapsed time (time_dither (gpio_key k)) (KEY_DITHER_INTERVAL hz)) (pin_pressed cfg val p) (pin_phase (gpio_key k) p)) /\
    time_debounce (gpio_key k') = time_debounce (gpio_key k) /\ time_dither (gpio_key k') = time_dither (gpio_key k) /\
    timer_set k' = pwr_busy (pwr_key k') || gpio_busy (gpio_key k') || negb (ev k' =? HAL_KEY_EVENT_NONE) /\
    (exists k2 k3, key_events hz time (down_codes k') k2 = Some k3 /\ key_status k2 = key_status k /\ key_status k' = key_status k3) /\
    exists es, sent k' = sent k ++ es /\
      updowns es = if key_detected_callback k then ups (down_codes k) (down_codes k') ++ downs (down_codes k) (down_codes k') else [].
Proof.
  intros HR. pose proof (rn_pwr _ HR) as HP.
  destruct (debounce_pwr_ok hz time down (set_active false (set_timer false k)) HP) as (p & b & E1 & N1 & HB & T1).
  set (code := if phase_held (pwr_phase p) then HAL_KEY_CODE_PWR else 0) in *.
  assert (HU : is_u 32 code) by (unfold code, is_u, HAL_KEY_CODE_PWR; case_match; lia).
  set (k1 := set_pwr_armed b (set_pwr p (set_active false (set_timer false k)))) in *.
  destruct (debounce_gpio_ok hz cfg HC time val code k1 (rn_gpio _ HR) HU) as (code' & g & a & E2 & G2 & T2 & T3 & N2 & A2). pose proof (proj1 A2) as HU'.
  set (k2 := with_gpio g a k1) in *.
  destruct (key_events_ok hz time code' k2 HU' (rn_code _ HR) (status_ok_same k k2 eq_refl (rn_status _ HR)))
    as (k3 & E3 & O3 & S3 & D3 & es & L3 & U3).
  unfold others in O3. injection O3 as O1 O2 O4 O5 O6 O7 O8 O9 O10 O11.
  exists (handler_end hz time (pwr_busy (pwr_key k1) || gpio_busy (gpio_key k2)) k3).
  split; [exact (handler_eq time down val (set_timer false k) _ _ _ _ _ E1 E2 E3)|].
  destruct (handler_end_ok time (pwr_busy (pwr_key k1) || gpio_busy (gpio_key k2)) k3 O4 O7) as (F1 & F2 & F3 & F4 & F5 & F6 & F7 & F8 & F9 & F10).
  set (k' := handler_end _ _ _ _) in *. clearbody k'.
  assert (P' : pwr_key k' = p) by (rewrite F7, O5; done). assert (G' : gpio_key k' = g) by (rewrite F8, O6; done).
  assert (C' : down_codes k' = code') by (by rewrite F3, D3). assert (CB : key_detected_callback k' = key_detected_callback k) by (rewrite F6, O1; done).
  assert (TS : timer_set k' = pwr_busy (pwr_key k') || gpio_busy (gpio_key k') || negb (ev k' =? HAL_KEY_EVENT_NONE)).
  { rewrite F2, P', G'. unfold ev at 2. rewrite F3. done. }
  assert (LG : sent k' = sent k ++ es) by (rewrite F4, L3; done).
  split; [split|split_and!; try done].
  - rewrite F5, O2. exact (rn_mode _ HR).
  - rewrite G', F10, O9. exact G2.
  - rewrite F9, O8, P'. exact HB.
  - by apply (status_ok_same k3).
  - by rewrite C'.
  - by rewrite F1, F2.
  - intros HW. by rewrite TS.
  - intros i Hi. unfold key_held. rewrite C', P', G'. by apply (held_codes g a).
  - intros HCB i Hi. rewrite LG, C'. apply (track_step (down_codes k)); [done|apply (rn_log _ HR); [congruence|done]|].
    rewrite U3. change (key_detected_callback k2) with (key_detected_callback k). rewrite CB in HCB. by rewrite HCB.
  - by rewrite P'.
  - rewrite P'. exact T1.
  - intros q Hq. rewrite G', N2 by done. by rewrite T2, T3.
  - by rewrite G'.
  - by rewrite G'.
  - exists k2, k3. rewrite C'. split; [exact E3|done].
  - exists es. split; [done|]. rewrite U3, C'. done.
Qed.

(** ** The other handlers *)
Lemma restart_ok k : timer_active k = timer_set k -> hal_key_debounce_timer_restart k = set_timer true (set_active true k).
Proof. unfold hal_key_debounce_timer_restart. destruct k as [? ? [] ? ? ? ? ? [] ? ? ?]; by intros. Qed.

Lemma tracked_quiet c l es : updowns es = [] -> tracked c (l ++ es) = tracked c l.
Proof. intros HE. unfold tracked. by rewrite fold_left_app, (track_updowns c es), HE. Qed.

(** An interrupt handler leaves the timer running and no key newly held. *)
Lemma restarted_running k k0 : running k0 -> timer_active k = timer_set k -> debounce_timer k = debounce_timer k0 ->
  gpio_ok cfg (gpio_key k) (gpio_armed k) -> pwr_armed k = negb (pwr_busy (pwr_key k)) -> key_status k = key_status k0 ->
  sent k = sent k0 -> key_detected_callback k = key_detected_callback k0 -> (forall i, key_held k i <-> key_held k0 i) ->
  running (hal_key_debounce_timer_restart k).
Proof.
  intros [R1 R2 R3 R4 R5 R6 R7 R8 R9] HT HM HG HP HS HL HB HK. rewrite restart_ok by done. split; cbn.
  - congruence.
  - done.
  - done.
  - apply (status_ok_same k0); [exact HS|done].
  - by rewrite HS.
  - done.
  - done.
  - intros i Hi. rewrite HS, R8 by done. by rewrite <- HK.
  - intros HCB i Hi. rewrite HL, HS. apply R9; [congruence|done].
Qed.

Lemma pwr_irq_running state now down k : running k -> pwr_armed k = true -> Z.land state HAL_PWRKEY_IRQ_FALLING_EDGE <> 0 ->
  running (hal_pwrkey_handle_irq_state state now down k) /\
  pwr_phase (pwr_key (hal_pwrkey_handle_irq_state state now down k)) = (if down then Pressing else Releasing) /\
  pwr_time (pwr_key (hal_pwrkey_handle_irq_state state now down k)) = now.
Proof.
  intros HR HA HS. pose proof (rn_pwr _ HR) as HP. rewrite HA in HP. symmetry in HP. apply negb_true_iff in HP.
  assert (HI : pwr_phase (pwr_key k) = Idle) by (rewrite pwr_busy_phase in HP; by destruct (pwr_phase _)).
  unfold hal_pwrkey_handle_irq_state. rewrite (proj2 (Z.eqb_neq _ _) HS). cbn [negb].
  set (p := if down then _ else _). assert (HQ : pwr_phase p = if down then Pressing else Releasing).
  { unfold pwr_busy in HP. apply orb_false_iff in HP as [[Hd Ht]%orb_false_iff Hp]. unfold p, pwr_phase.
    destruct down; cbn; [done|]. by rewrite Hd. }
  assert (HT : pwr_time p = now) by (unfold p; by destruct down).
  pose proof (rn_timer _ HR) as HTM. rewrite restart_ok by exact HTM. cbn. split; [|done].
  rewrite <- (restart_ok (set_pwr p (hal_pwrkey_disable_int k)) HTM). apply (restarted_running _ k); try done; try apply HR.
  - cbn. rewrite pwr_busy_phase, HQ. by destruct down.
  - intros i. unfold key_held. cbn. rewrite HQ, HI. by destruct down; split; intros [[_ H]|H]; try done; right.
Qed.

Lemma gpio_irq_running pin now val k : running k -> is_Some (gpio_armed k !! pin) ->
  exists k', hal_gpiokey_irqhandler cfg pin now val k = Some k' /\ running k' /\ pwr_key k' = pwr_key k /\ timer_set k' = true /\
    debounce_timer k' = Some Debounce /\ key_detected_callback k' = key_detected_callback k /\ key_status k' = key_status k.
Proof.
  intros HR HA. destruct (gpio_irq_ok cfg HC pin now val k (rn_gpio _ HR) HA) as (g & a & E & HG & HN & Hd & HD).
  pose proof (rn_timer _ HR) as HTM. rewrite E. eexists. split; [reflexivity|]. split.
  - apply (restarted_running _ k); try done; try apply HR. intros i. unfold key_held. cbn.
    split; (intros [H|(p & Hp & H1 & H2)]; [by left|right; exists p; split; [done|]; split; [|done]]).
    + assert (HH : has (pin_down g) p = true) by (rewrite (held_phase g p cfg (proj1 HG) Hp), H1; done).
      rewrite HD, (held_phase _ p cfg (proj1 (rn_gpio _ HR)) Hp) in HH by done. by destruct (pin_phase (gpio_key k) p).
    + assert (HH : has (pin_down g) p = true).
      { rewrite HD by done. rewrite (held_phase _ p cfg (proj1 (rn_gpio _ HR)) Hp), H1. done. }
      rewrite (held_phase g p cfg (proj1 HG) Hp) in HH. by destruct (pin_phase g p).
  - rewrite restart_ok by exact HTM. cbn. split_and!; try done. apply HR.
Qed.

(** ** The start *)
Record booting (k : keys) : Prop := {
  bt_mode : debounce_timer k = Some Boot;
  bt_gpio : gpio_key k = zero_gpio;
  bt_armed : gpio_armed k = ∅;
  bt_pwr : pwr_armed k = false;
  bt_busy : pwr_busy (pwr_key k) = true;
  bt_timer : timer_active k = true /\ timer_set k = true;
  bt_code : down_codes k = 0;
  bt_log : forall i, tracked (2 ^ i) (sent k) = Some false }.

Lemma zero_gpio_idle p : 0 <= p -> pin_phase zero_gpio p = Idle.
Proof. intros Hp. unfold pin_phase. cbn [zero_gpio pin_debounce pin_dither pin_down]. by rewrite has_clear. Qed.

(** Nothing pressed and no key in progress: arming every key starts a run. *)
Lemma enabled_running k : debounce_timer k = Some Debounce -> gpio_key k = zero_gpio -> gpio_armed k = ∅ -> pwr_key k = zero_pwr ->
  key_status k = zero_status -> timer_active k = timer_set k -> (forall i, tracked (2 ^ i) (sent k) = Some false) ->
  running (hal_key_enable_allint cfg k) /\ pwr_key (hal_key_enable_allint cfg k) = zero_pwr.
Proof.
  intros HM HG HA HP HS HT HL. unfold hal_key_enable_allint.
  destruct (enable_allint_ok cfg HC (hal_pwrkey_enable_int k) HA HG) as (a & -> & HOK). split; [|done]. split; cbn.
  - done.
  - by rewrite HG.
  - by rewrite HP.
  - split; unfold clicks_ok, long_pressed, ev; cbn; rewrite HS; cbn; auto; done.
  - rewrite HS. done.
  - done.
  - unfold ev. cbn. by rewrite HP, HG, HS.
  - intros i Hi. rewrite HS. cbn. rewrite Z.bits_0. split; [done|]. unfold key_held. cbn. rewrite HP, HG.
    intros [[_ H]|(p & Hp & H & _)]; [done|]. by rewrite zero_gpio_idle in H.
  - intros _ i Hi. change (tracked (2 ^ i) (sent k) = Some (Z.testbit (down_codes k) i)). rewrite HS, HL. f_equal. symmetry. apply Z.bits_0.
Qed.

(** The handler while the device starts: it goes on, or every key is armed. *)
Lemma boot_pwr_frame time down k : let k' := boot_pwr hz time down k in
  debounce_timer k' = debounce_timer k /\ gpio_key k' = gpio_key k /\ gpio_armed k' = gpio_armed k /\ pwr_armed k' = pwr_armed k /\
  timer_active k' = timer_active k /\ timer_set k' = timer_set k /\ sent k' = sent k /\ down_codes k' = down_codes k.
Proof. unfold boot_pwr. repeat case_match; by split_and!. Qed.

Lemma boot_events_quiet time k : quiet is_updown k (boot_events hz time k).
Proof. unfold boot_events. cbv zeta. quiet_tree. Qed.

Lemma quiet_tracked k k' i : quiet is_updown k k' -> tracked (2 ^ i) (sent k') = tracked (2 ^ i) (sent k).
Proof. intros [_ _ (es & -> & HE)]. apply tracked_quiet. unfold updowns. rewrite HE. by case_match. Qed.

(** What the start sends is no press and no release, and the callback stays. *)
Lemma boot_sent time down k : exists es, sent (hal_key_boot_handler hz cfg time down k) = sent k ++ es /\ updowns es = [].
Proof.
  unfold hal_key_boot_handler. cbv zeta. destruct (boot_pwr_frame time down (set_active false k)) as (_ & _ & _ & _ & _ & _ & F7 & _).
  set (k1 := boot_pwr _ _ _ _) in *. clearbody k1. cbn in F7. destruct (pwr_busy (pwr_key k1)).
  - destruct (boot_events_quiet time k1) as [_ _ (es & HS & HE)]. exists es. split; [|unfold updowns; rewrite HE; by destruct (key_detected_callback k1)].
    rewrite <- F7, <- HS. unfold hal_key_debounce_timer_restart. by destruct (timer_active (boot_events hz time k1)).
  - set (k3 := send_key_event HAL_KEY_CODE_PWR HAL_KEY_EVENT_INITFINISHED _).
    assert (Q : quiet is_updown k1 k3) by (unfold k3; quiet_tree). destruct Q as [_ _ (es & HS & HE)]. exists es. split; [|unfold updowns; rewrite HE; by destruct (key_detected_callback k1)].
    unfold hal_key_enable_allint, hal_gpiokey_enable_allint. edestruct (enable_frame cfg) as [a ->]. cbn. by rewrite HS, F7.
Qed.

Lemma boot_callback time down k : key_detected_callback (hal_key_boot_handler hz cfg time down k) = key_detected_callback k.
Proof.
  unfold hal_key_boot_handler. cbv zeta. set (k1 := boot_pwr _ _ _ _).
  assert (E : key_detected_callback k1 = key_detected_callback k) by (unfold k1, boot_pwr; repeat case_match; done). clearbody k1.
  destruct (pwr_busy (pwr_key k1)).
  - pose proof (others_callback _ _ (acts_others _ _ _ _ (boot_events_quiet time k1))) as HO. unfold hal_key_debounce_timer_restart. destruct (timer_active (boot_events hz time k1)); cbn; congruence.
  - set (k3 := send_key_event HAL_KEY_CODE_PWR HAL_KEY_EVENT_INITFINISHED _).
    assert (Q : quiet is_updown k1 k3) by (unfold k3; quiet_tree). pose proof (others_callback _ _ (acts_others _ _ _ _ Q)) as HO.
    unfold hal_key_enable_allint, hal_gpiokey_enable_allint. edestruct (enable_frame cfg) as [a ->]. cbn. congruence.
Qed.

Lemma boot_ok time down k : booting k -> let k' := hal_key_boot_handler hz cfg time down (set_timer false k) in booting k' \/ running k' /\ pwr_key k' = zero_pwr.
Proof.
  intros [B1 B2 B3 B4 B5 [B6 B7] B8 B9]. unfold hal_key_boot_handler. cbv zeta.
  destruct (boot_pwr_frame time down (set_active false (set_timer false k))) as (F1 & F2 & F3 & F4 & F5 & F6 & F7 & F8).
  set (k1 := boot_pwr _ _ _ _) in *. clearbody k1. cbn in F1, F2, F3, F4, F5, F6, F7, F8.
  destruct (pwr_busy (pwr_key k1)) eqn:EB; [left|right].
  - pose proof (boot_events_quiet time k1) as Q. pose proof (fun i => quiet_tracked k1 _ i Q) as QT. destruct Q as [O D _].
    set (k2 := boot_events _ _ _) in *. clearbody k2. unfold others in O. injection O as O1 O2 O3 O4 O5 O6 O7 O8 O9 O10.
    rewrite restart_ok by congruence. split; cbn; try congruence; [done|]. intros i. change (tracked (2 ^ i) (sent k2) = Some false). by rewrite QT, F7, B9.
  - set (k3 := send_key_event HAL_KEY_CODE_PWR HAL_KEY_EVENT_INITFINISHED _).
    assert (Q : quiet is_updown k1 k3) by (unfold k3; quiet_tree). pose proof (fun i => quiet_tracked k1 _ i Q) as QT. destruct Q as [O D _].
    clearbody k3. unfold others in O. injection O as O1 O2 O3 O4 O5 O6 O7 O8 O9 O10.
    apply enabled_running; cbn; try congruence. intros i. change (tracked (2 ^ i) (sent k3) = Some false). by rewrite QT, F7, B9.
Qed.

Lemma open_ok chk startup now down alloc cb k : hal_key_open cfg chk startup now down alloc cb reset_keys = Some (0, k) ->
  key_detected_callback k = cb /\ if chk then booting k else running k.
Proof.
  unfold hal_key_open. destruct (chk && negb (startup_held startup)); [done|]. destruct alloc; [|done]. cbn [negb]. intros [= <-].
  set (k2 := set_handler _ _). destruct chk.
  - split; [by destruct down|]. split; try done; by destruct down.
  - split; [|by apply enabled_running].
    unfold hal_key_enable_allint, hal_gpiokey_enable_allint. destruct (enable_frame cfg (hal_pwrkey_enable_int (hal_gpiokey_open (hal_pwrkey_open (set_status zero_status (set_callback cb reset_keys)))))) as [a Ha].
    destruct (enable_frame cfg (hal_pwrkey_enable_int (set_handler (Some Debounce) (hal_gpiokey_open (hal_pwrkey_open (set_status zero_status (set_callback cb reset_keys))))))) as [a' ->]. done.
Qed.

(** ** Every reachable state *)

(** The state the power key's interrupt reports has the falling edge, the only one armed. *)
Definition falling (i : input) : Prop := match i with Pwr_irq state _ _ => Z.land state HAL_PWRKEY_IRQ_FALLING_EDGE <> 0 | _ => True end.

Definition keys_ok (k : keys) : Prop := booting k \/ running k.

Lemma handle_ok i k : keys_ok k -> enabled i k = true -> falling i -> exists k', handle hz cfg i k = Some k' /\ keys_ok k'.
Proof.
  intros [HB|HR] HE HF; destruct i as [state now down|pin now val|now down val]; cbn in HE.
  - by rewrite (bt_pwr _ HB) in HE.
  - apply bool_decide_eq_true in HE. rewrite (bt_armed _ HB), lookup_empty in HE. by destruct HE.
  - exists (hal_key_boot_handler hz cfg now down (set_timer false k)). unfold handle. rewrite (bt_mode _ HB).
    split; [done|]. destruct (boot_ok now down k HB) as [|[? _]]; [by left|by right].
  - eexists. split; [reflexivity|]. right. by apply pwr_irq_running.
  - apply bool_decide_eq_true in HE. destruct (gpio_irq_running pin now val k HR HE) as (k' & E & HR' & _). exists k'. split; [exact E|by right].
  - destruct (debounce_handler_ok now down val k HR) as (k' & E & HR' & _). exists k'. unfold handle. rewrite (rn_mode _ HR). split; [exact E|by right].
Qed.

Lemma reach_ok k0 tr k : keys_ok k0 -> reach hz cfg k0 tr k -> Forall falling tr -> keys_ok k.
Proof.
  intros HK HR. induction HR as [|tr k i k' HR IH HE HH]; [done|]. intros [HF Hi]%Forall_app. apply Forall_inv in Hi.
  destruct (handle_ok i k (IH HF) HE Hi) as (k2 & E & HK2). congruence.
Qed.
End Runs.
