(* ===== verification/HalKeyClicks.v ===== *)
(** The clicks of the key scanner: presses of one set of keys in quick succession are one event,
    whose number is the number of presses. *)
From Stdlib Require Import ZArith Lia Bool.
From stdpp Require Import base gmap option list.
From S2P Require Import Prelude HalKey HalKeyLaws HalKeyRuns.

(** ** The status alone *)

(** The status does not depend on the rest of the state: [bare s] is a state with this status. *)
Definition bare (s : HAL_KEY_STATUS_T) : keys := set_status s reset_keys.

Lemma after_ups_status up_new code k : key_status (after_ups up_new code k) = key_status (after_ups up_new code (bare (key_status k))).
Proof. unfold after_ups, long_pressed, upd, ev. cbn [bare set_status key_status]. by repeat case_match. Qed.

Lemma clicks_status hz time up_new k : key_status (clicks hz time up_new k) = key_status (clicks hz time up_new (bare (key_status k))).
Proof.
  unfold clicks, ev. cbn [bare set_status key_status].
  assert (E : key_status (count_click time up_new k) = key_status (count_click time up_new (bare (key_status k)))).
  { unfold count_click, upd. cbn [bare set_status key_status]. destruct (_ || _); [destruct (negb _)|destruct (_ && _)];
      cbn [set_status key_status]; by rewrite ?status_send. }
  destruct (_ =? _); [|done]. unfold finish_click, upd. cbn [set_status key_status]. rewrite E.
  destruct (_ || _); cbn [set_status key_status]; rewrite ?status_send; by rewrite E.
Qed.

Lemma after_downs_status down_new k : key_status (after_downs down_new k) = key_status (after_downs down_new (bare (key_status k))).
Proof. unfold after_downs, upd, ev. cbn [bare set_status key_status]. by destruct (_ && _). Qed.

(** A sample before any long press: [clicks_new] is what the count sends. *)
Definition is_click (e : Z * Z) : bool := (HAL_KEY_EVENT_CLICK <=? e.2) && (e.2 <=? HAL_KEY_EVENT_RAMPAGECLICK).

(** The events that are clicks of [c]. *)
Definition clicks_in (l : list (Z * Z)) : list (Z * Z) := List.filter is_click l.

Lemma key_up_silent time c k : quiet is_click k (key_up time c k).
Proof. unfold key_up. quiet_tree. Qed.

Lemma key_down_silent time now c k : quiet is_click k (key_down_new time now c k).
Proof. unfold key_down_new. quiet_tree. Qed.

Lemma fold_silent (body : Z -> keys -> keys) l k : (forall c k, quiet is_click k (body c k)) ->
  quiet is_click k (fold_left (fun k c => body c k) l k).
Proof.
  intros HB. pose proof (fold_acts is_click body (fun _ => []) l k HB) as HA.
  assert (E : concat ((fun _ : Z => @nil (Z * Z)) <$> l) = []) by (clear; induction l as [|c l IH]; [done|exact IH]). by rewrite E in HA.
Qed.

(** The status and the clicks of one sample, given its pieces. *)
Lemma sample_pieces hz time code k s2 cl : is_u 32 code -> is_u 32 (code_down (key_status k)) ->
  let up_new := Z.land (Z.lnot code) (code_down (key_status k)) in
  let down_new := Z.land code (Z.lnot (code_down (key_status k))) in
  let s1 := if up_new =? 0 then key_status k else with_updown time (key_status k) in
  (forall k1, key_status k1 = s1 -> acts is_click cl (after_ups up_new code k1) (clicks hz time up_new (after_ups up_new code k1))) ->
  key_status (clicks hz time up_new (after_ups up_new code (bare s1))) = s2 ->
  exists k4 k', key_events hz time code k = Some k' /\ k' = long_presses hz time code (after_downs down_new k4) /\
    key_status k4 = (if down_new =? 0 then with_down code s2
                     else with_updown time (if short (event s2) then with_ready code (with_down code s2) else with_down code s2)) /\
    key_detected_callback k' = key_detected_callback k /\
    exists es, sent k' = sent k ++ es /\ clicks_in es = if key_detected_callback k then cl else [].
Proof.
  intros HU HO up_new down_new s1 HCl HS2.
  pose proof (key_loop_spec (key_up time) up_new k (is_u_old code _ HO)) as E1.
  pose proof (ups_status time (codes_of up_new) k) as S1. pose proof (fold_silent (key_up time) (codes_of up_new) k (key_up_silent time)) as A1.
  revert E1 S1 A1. generalize (fold_left (fun k c => key_up time c k) (codes_of up_new) k). intros k1 E1 S1 A1.
  assert (S1' : key_status k1 = s1).
  { rewrite S1. unfold s1. pose proof (codes_of_nil up_new (is_u_old code _ HO)) as HN. destruct (codes_of up_new) as [|c l].
    - by rewrite (proj1 HN eq_refl).
    - destruct (Z.eqb_spec up_new 0) as [E|]; [by apply HN in E|done]. }
  specialize (HCl k1 S1').
  assert (S2 : key_status (clicks hz time up_new (after_ups up_new code k1)) = s2).
  { rewrite clicks_status, after_ups_status, <- clicks_status, S1'. exact HS2. }
  set (k2 := clicks hz time up_new (after_ups up_new code k1)) in *.
  pose proof (key_loop_spec (key_down_new time code) down_new (upd (with_down code) k2) (is_u_new code _ HU)) as E4.
  pose proof (key_events_eq hz time code k k1 _ E1 E4) as EK. clear E4.
  pose proof (downs_status time code (codes_of down_new) (upd (with_down code) k2)) as S4.
  pose proof (fold_silent (key_down_new time code) (codes_of down_new) (upd (with_down code) k2) (key_down_silent time code)) as A4.
  pose proof (codes_of_nil down_new (is_u_new code (code_down (key_status k)) HU)) as HN.
  fold down_new in EK. revert EK S4 A4. generalize (fold_left (fun k c => key_down_new time code c k) (codes_of down_new) (upd (with_down code) k2)).
  clearbody k2. intros k4 EK S4 A4. exists k4, (long_presses hz time code (after_downs down_new k4)). split; [exact EK|]. split; [done|].
  pose proof (after_downs_quiet is_click down_new k4) as A5. pose proof (long_presses_quiet is_click hz time code (after_downs down_new k4) (fun c => conj eq_refl (conj eq_refl eq_refl))) as A6.
  destruct (quiet_trans _ _ _ _ A4 (quiet_trans _ _ _ _ A5 A6)) as [O4 _ (e4 & L4 & U4)].
  destruct (acts_trans _ _ _ _ _ _ (quiet_trans _ _ _ _ A1 (after_ups_quiet is_click up_new code k1)) HCl) as [O2 _ (e2 & L2 & U2)].
  pose proof (others_callback _ _ O2) as CB2. pose proof (others_callback _ _ O4) as CB4. cbn in CB4, L4, U4.
  split; [|split; [congruence|]].
  - rewrite S4. cbn [key_status upd set_status]. rewrite S2. unfold ev, short in *. cbn [key_status upd set_status with_down event]. rewrite S2.
    destruct (codes_of down_new) as [|c l]; [by rewrite (proj1 HN eq_refl)|].
    destruct (Z.eqb_spec down_new 0) as [E|]; [by apply HN in E|done].
  - exists (e2 ++ e4). rewrite L4, L2, app_assoc. split; [done|]. unfold clicks_in. rewrite List.filter_app, U2, U4, CB2.
    destruct (key_detected_callback k); [by rewrite !app_nil_r|done].
Qed.

(** ** Samples of one set of keys *)
Section Samples.
Variable hz c : Z.
Hypothesis Hhz : 0 < hz.
Hypothesis Hc : is_u 32 c.
Hypothesis Hnz : c <> 0.

(** No key down; [Some (n, u)]: [n + 1] presses counted, the last one released at [u]. *)
Definition between (o : option (Z * Z)) (s : HAL_KEY_STATUS_T) : Prop :=
  code_down s = 0 /\ match o with
  | None => event s = HAL_KEY_EVENT_NONE /\ code_click s = 0
  | Some (n, u) => event s = HAL_KEY_EVENT_UP /\ code_ready s = c /\ code_click s = c /\ cnt_click s = n /\ time_click s = u
  end.

(** The keys down since [d]. *)
Definition holding (d : Z) (o : option (Z * Z)) (s : HAL_KEY_STATUS_T) : Prop :=
  code_down s = c /\ event s = HAL_KEY_EVENT_DOWN /\ code_ready s = c /\ time_updown s = d /\
  match o with None => code_click s = 0 | Some (n, u) => code_click s = c /\ cnt_click s = n /\ time_click s = u end.

(** The sample leads to a status of the kind [P] and sends the clicks [cl]. *)
Definition sample (t code : Z) (k : keys) (P : HAL_KEY_STATUS_T -> Prop) (cl : list (Z * Z)) : Prop :=
  exists k', key_events hz t code k = Some k' /\ P (key_status k') /\ key_detected_callback k' = key_detected_callback k /\
    exists es, sent k' = sent k ++ es /\ clicks_in es = if key_detected_callback k then cl else [].

Lemma elapsed_now t limit : 0 < limit -> elapsed t t limit = false.
Proof. intros H. unfold elapsed. rewrite Z.sub_diag, Z.geb_leb. apply Z.leb_gt. exact H. Qed.

Lemma thresholds : 0 < KEY_LONGPRESS_THRESHOLD hz /\ 0 < KEY_DOUBLECLICK_THRESHOLD hz.
Proof. unfold KEY_LONGPRESS_THRESHOLD, KEY_DOUBLECLICK_THRESHOLD, MS_TO_TICKS. lia. Qed.

Lemma new_of_none : Z.land c (Z.lnot 0) = c /\ Z.land (Z.lnot c) 0 = 0.
Proof. split; [apply Z.land_m1_r|apply Z.land_0_r]. Qed.

Lemma gone_all : Z.land 0 (Z.lnot c) = 0 /\ Z.land (Z.lnot 0) c = c.
Proof. split; [done|apply Z.land_m1_l]. Qed.

Lemma same_codes : Z.land c (Z.lnot c) = 0 /\ Z.land (Z.lnot c) c = 0.
Proof. rewrite (Z.land_comm (Z.lnot c)). split; apply Z.land_lnot_diag. Qed.

(** A count that goes on is not changed by a sample without a release. *)
Lemma clicks_idle t k : (ev k = HAL_KEY_EVENT_UP -> code_ready (key_status k) = c /\ code_click (key_status k) = c /\
    cnt_click (key_status k) < MAX_KEY_CLICK_COUNT /\ elapsed t (time_click (key_status k)) (KEY_DOUBLECLICK_THRESHOLD hz) = false) ->
  clicks hz t 0 k = k.
Proof.
  intros H. unfold clicks. destruct (Z.eqb_spec (ev k) HAL_KEY_EVENT_UP) as [HE|]; [|done]. destruct (H HE) as (H1 & H2 & H3 & H4).
  assert (E : count_click t 0 k = k).
  { unfold count_click, HAL_KEY_CODE_NONE. rewrite H1, H2, Z.eqb_refl, (proj2 (Z.eqb_neq _ _) Hnz). done. }
  rewrite E. unfold finish_click. rewrite H4, Z.geb_leb, (proj2 (Z.leb_gt _ _) H3). done.
Qed.

Lemma press_sample t o k : between o (key_status k) ->
  match o with Some (n, u) => n < MAX_KEY_CLICK_COUNT /\ elapsed t u (KEY_DOUBLECLICK_THRESHOLD hz) = false | None => True end ->
  sample t c k (holding t o) [].
Proof.
  intros [HD HB] Ho. destruct new_of_none as [N1 N2]. destruct thresholds as [HT _].
  assert (HI : forall k1, key_status k1 = key_status k -> clicks hz t 0 (after_ups 0 c k1) = k1).
  { intros k1 E1. unfold after_ups. cbn [Z.eqb]. apply clicks_idle. unfold ev. rewrite E1.
    destruct o as [[n u]|]; [|destruct HB as [-> _]; done]. destruct HB as (_ & -> & -> & -> & ->), Ho. done. }
  destruct (sample_pieces hz t c k (key_status k) [] Hc) as (k4 & k' & EK & -> & S4 & HCB & HCl).
  - rewrite HD. unfold is_u. lia.
  - rewrite HD, N2. cbn [Z.eqb]. intros k1 E1. rewrite (HI k1 E1). unfold after_ups. cbn [Z.eqb]. apply quiet_refl.
  - rewrite HD, N2. cbn [Z.eqb]. rewrite HI by done. done.
  - exists (long_presses hz t c (after_downs (Z.land c (Z.lnot (code_down (key_status k)))) k4)). split; [exact EK|].
    split; [|split; [exact HCB|exact HCl]]. clear EK HCB HCl. rewrite HD, N1 in *. rewrite (proj2 (Z.eqb_neq _ _) Hnz) in S4.
    assert (S5 : key_status (after_downs c k4) = with_event HAL_KEY_EVENT_DOWN (with_updown t (with_ready c (with_down c (key_status k))))).
    { unfold after_downs, ev, upd. rewrite (proj2 (Z.eqb_neq _ _) Hnz). unfold short in S4.
      destruct o as [[n u]|]; destruct HB as [HE _]; rewrite HE in S4; cbn in S4; rewrite S4; cbn; rewrite HE; done. }
    assert (S6 : long_presses hz t c (after_downs c k4) = after_downs c k4).
    { unfold long_presses, ev. cbv zeta. rewrite S5. cbn. rewrite Z.land_diag, Z.eqb_refl, elapsed_now by done. done. }
    rewrite S6, S5. unfold holding. cbn. destruct o as [[n u]|]; tauto.
Qed.

Lemma hold_sample t d o k : holding d o (key_status k) -> elapsed t d (KEY_LONGPRESS_THRESHOLD hz) = false -> sample t c k (holding d o) [].
Proof.
  intros (HD & HE & HR & HU & HB) HT. destruct same_codes as [N1 N2].
  assert (HI : forall k1, key_status k1 = key_status k -> clicks hz t 0 (after_ups 0 c k1) = k1).
  { intros k1 E1. unfold after_ups. cbn [Z.eqb]. apply clicks_idle. unfold ev. by rewrite E1, HE. }
  destruct (sample_pieces hz t c k (key_status k) [] Hc) as (k4 & k' & EK & -> & S4 & HCB & HCl).
  - by rewrite HD.
  - rewrite HD, N2. cbn [Z.eqb]. intros k1 E1. rewrite (HI k1 E1). unfold after_ups. cbn [Z.eqb]. apply quiet_refl.
  - rewrite HD, N2. cbn [Z.eqb]. rewrite HI by done. done.
  - eexists. split; [exact EK|]. split; [|split; [exact HCB|exact HCl]]. clear EK HCB HCl. rewrite HD, N1 in *. cbn [Z.eqb] in S4.
    unfold after_downs. cbn [Z.eqb negb andb].
    assert (S6 : long_presses hz t c k4 = k4).
    { unfold long_presses, ev. cbv zeta. rewrite S4. cbn. by rewrite HR, Z.land_diag, Z.eqb_refl, HE, HU, HT. }
    rewrite S6, S4. unfold holding. cbn. done.
Qed.

(** The number of the click a release counts. *)
Definition next_click (o : option (Z * Z)) : Z := match o with None => 0 | Some (n, _) => n + 1 end.
Definition counting (o : option (Z * Z)) : Prop := match o with None => True | Some (n, _) => 0 <= n < MAX_KEY_CLICK_COUNT end.

(** The clicks before the release: none yet, or those counted. *)
Definition counted_before (o : option (Z * Z)) (s : HAL_KEY_STATUS_T) : Prop :=
  match o with None => code_click s = 0 | Some (n, u) => code_click s = c /\ cnt_click s = n /\ time_click s = u end.

Lemma count_release u o k : code_down (key_status k) = c -> code_ready (key_status k) = c -> counting o -> counted_before o (key_status k) ->
  count_click u c k = upd (with_click c (next_click o) u) k.
Proof.
  intros HD HR HO HB. unfold count_click. change HAL_KEY_CODE_NONE with 0. rewrite HD, HR. destruct o as [[n v]|]; cbn in HB.
  - destruct HB as (-> & -> & _). rewrite (proj2 (Z.eqb_neq _ _) Hnz), Z.lor_diag, Z.eqb_refl. cbn [negb orb andb next_click].
    rewrite u8_small; [done|]. unfold counting, MAX_KEY_CLICK_COUNT, HAL_KEY_EVENT_RAMPAGECLICK, HAL_KEY_EVENT_CLICK in HO. lia.
  - rewrite HB. cbn. done.
Qed.

(** The click that ends a count. *)
Definition end_click (n : Z) (k : keys) : keys :=
  upd (fun s => with_event HAL_KEY_EVENT_NONE (with_click HAL_KEY_CODE_NONE 0 (time_click s) s)) (send_key_event c (HAL_KEY_EVENT_CLICK + n) k).

Lemma end_click_acts n k : 0 <= n <= MAX_KEY_CLICK_COUNT -> acts is_click [(c, HAL_KEY_EVENT_CLICK + n)] k (end_click n k).
Proof.
  intros Hn. apply (acts_trans _ [(c, HAL_KEY_EVENT_CLICK + n)] [] _ (send_key_event c (HAL_KEY_EVENT_CLICK + n) k)); [|by apply quiet_upd].
  pose proof (acts_send is_click c (HAL_KEY_EVENT_CLICK + n) k) as HA. assert (HI : is_click (c, HAL_KEY_EVENT_CLICK + n) = true).
  { unfold is_click, MAX_KEY_CLICK_COUNT, HAL_KEY_EVENT_CLICK, HAL_KEY_EVENT_RAMPAGECLICK in *. cbn [snd]. apply andb_true_iff. split; apply Z.leb_le; lia. }
  by rewrite HI in HA.
Qed.

Lemma next_click_range o : counting o -> 0 <= next_click o <= MAX_KEY_CLICK_COUNT.
Proof. unfold counting, next_click, MAX_KEY_CLICK_COUNT, HAL_KEY_EVENT_RAMPAGECLICK, HAL_KEY_EVENT_CLICK. destruct o as [[n v]|]; lia. Qed.

(** The count at a release: one click more, and the end of the count when there is no further click. *)
Lemma release_clicks u o k : ev k = HAL_KEY_EVENT_UP -> code_down (key_status k) = c -> code_ready (key_status k) = c -> counting o ->
  counted_before o (key_status k) ->
  clicks hz u c k = let ka := upd (with_click c (next_click o) u) k in
    if next_click o <? MAX_KEY_CLICK_COUNT then ka else end_click (next_click o) ka.
Proof.
  intros HE HD HR HO HB. unfold clicks. rewrite HE, Z.eqb_refl, (count_release u o k) by done. cbv zeta. unfold finish_click.
  cbn [key_status upd set_status with_click time_click cnt_click code_click]. rewrite elapsed_now by apply thresholds. cbn [orb].
  rewrite Z.geb_leb, Z.leb_antisym. by destruct (_ <? _).
Qed.

(** The release: a click counted, or the last one there is, sent at once. *)
Lemma release_sample u d o k : holding d o (key_status k) -> counting o ->
  sample u 0 k (if next_click o <? MAX_KEY_CLICK_COUNT then between (Some (next_click o, u)) else between None)
    (if next_click o <? MAX_KEY_CLICK_COUNT then [] else [(c, HAL_KEY_EVENT_CLICK + next_click o)]).
Proof.
  intros (HD & HE & HR & HU & HB) HO. destruct gone_all as [N1 N2]. set (more := next_click o <? MAX_KEY_CLICK_COUNT).
  set (s1 := with_event HAL_KEY_EVENT_UP (with_updown u (key_status k))).
  set (s2 := if more then with_click c (next_click o) u s1 else with_event HAL_KEY_EVENT_NONE (with_click HAL_KEY_CODE_NONE 0 u s1)).
  assert (HA : forall k1, key_status k1 = with_updown u (key_status k) -> after_ups c 0 k1 = upd (with_event HAL_KEY_EVENT_UP) k1 /\
    key_status (after_ups c 0 k1) = s1).
  { intros k1 E1. unfold after_ups, long_pressed, ev. rewrite E1, (proj2 (Z.eqb_neq _ _) Hnz). cbn. rewrite HE. cbn. by rewrite E1. }
  assert (HCk : forall k1, key_status k1 = with_updown u (key_status k) -> clicks hz u c (after_ups c 0 k1) =
    let ka := upd (with_click c (next_click o) u) (after_ups c 0 k1) in if more then ka else end_click (next_click o) ka).
  { intros k1 E1. destruct (HA k1 E1) as [_ Ea]. apply release_clicks; unfold ev; rewrite ?Ea; try done. }
  destruct (sample_pieces hz u 0 k s2 (if more then [] else [(c, HAL_KEY_EVENT_CLICK + next_click o)])) as (k4 & k' & EK & -> & S4 & HCB & HCl).
  - unfold is_u. lia.
  - by rewrite HD.
  - rewrite HD, N2, (proj2 (Z.eqb_neq _ _) Hnz). intros k1 E1. rewrite (HCk k1 E1). cbv zeta. destruct more; [by apply quiet_upd|].
    apply (acts_trans _ [] [(c, HAL_KEY_EVENT_CLICK + next_click o)] _ (upd (with_click c (next_click o) u) (after_ups c 0 k1))); [by apply quiet_upd|].
    by apply end_click_acts, next_click_range.
  - rewrite HD, N2, (proj2 (Z.eqb_neq _ _) Hnz), HCk by done. destruct (HA (bare (with_updown u (key_status k))) eq_refl) as [-> _]. unfold s2. by destruct more.
  - eexists. split; [exact EK|]. split; [|split; [exact HCB|exact HCl]]. clear EK HCB HCl HCk HA. rewrite HD, N1 in *. cbn [Z.eqb] in S4.
    unfold after_downs. cbn [Z.eqb negb andb].
    assert (S6 : long_presses hz u 0 k4 = k4).
    { unfold long_presses. cbv zeta. rewrite S4. unfold s2, s1. rewrite Z.land_0_l. destruct more; cbn; rewrite HR; destruct c; done. }
    rewrite S6, S4. unfold s2, s1, between. destruct more; cbn; tauto.
Qed.

(** While the count goes on. *)
Lemma gap_sample t n u k : between (Some (n, u)) (key_status k) -> n < MAX_KEY_CLICK_COUNT -> elapsed t u (KEY_DOUBLECLICK_THRESHOLD hz) = false ->
  sample t 0 k (between (Some (n, u))) [].
Proof.
  intros (HD & HE & HR & HK & HN & HT) Hn Hu.
  assert (HI : forall k1, key_status k1 = key_status k -> clicks hz t 0 (after_ups 0 0 k1) = k1).
  { intros k1 E1. unfold after_ups. cbn [Z.eqb]. apply clicks_idle. intros _. rewrite E1, HR, HK, HN, HT. done. }
  destruct (sample_pieces hz t 0 k (key_status k) []) as (k4 & k' & EK & -> & S4 & HCB & HCl).
  - unfold is_u. lia.
  - rewrite HD. unfold is_u. lia.
  - rewrite HD. change (Z.land (Z.lnot 0) 0) with 0. cbn [Z.eqb]. intros k1 E1. rewrite (HI k1 E1). unfold after_ups. cbn [Z.eqb]. apply quiet_refl.
  - rewrite HD. change (Z.land (Z.lnot 0) 0) with 0. cbn [Z.eqb]. rewrite HI by done. done.
  - eexists. split; [exact EK|]. split; [|split; [exact HCB|exact HCl]]. clear EK HCB HCl. rewrite HD in *. change (Z.land 0 (Z.lnot 0)) with 0 in *. cbn [Z.eqb] in S4.
    unfold after_downs. cbn [Z.eqb negb andb].
    assert (S6 : long_presses hz t 0 k4 = k4).
    { unfold long_presses, long_pressed, ev. cbv zeta. rewrite S4, Z.land_0_l. cbn. rewrite HE. by case_match. }
    rewrite S6, S4. unfold between. cbn. done.
Qed.

(** The time of the count has passed: the click is sent. *)
Lemma timeout_sample t n u k : between (Some (n, u)) (key_status k) -> elapsed t u (KEY_DOUBLECLICK_THRESHOLD hz) = true -> 0 <= n < MAX_KEY_CLICK_COUNT ->
  sample t 0 k (between None) [(c, HAL_KEY_EVENT_CLICK + n)].
Proof.
  intros (HD & HE & HR & HK & HN & HT) Hu Hn.
  set (s2 := with_event HAL_KEY_EVENT_NONE (with_click HAL_KEY_CODE_NONE 0 u (key_status k))).
  assert (HI : forall k1, key_status k1 = key_status k -> clicks hz t 0 (after_ups 0 0 k1) =
    end_click n k1).
  { intros k1 E1. unfold after_ups. cbn [Z.eqb]. unfold clicks, ev. rewrite E1, HE, Z.eqb_refl.
    assert (E : count_click t 0 k1 = k1).
    { unfold count_click. change HAL_KEY_CODE_NONE with 0. rewrite E1, HR, HK, Z.eqb_refl, (proj2 (Z.eqb_neq _ _) Hnz). done. }
    rewrite E. unfold finish_click. rewrite E1, HT, Hu, HK, HN. done. }
  destruct (sample_pieces hz t 0 k s2 [(c, HAL_KEY_EVENT_CLICK + n)]) as (k4 & k' & EK & -> & S4 & HCB & HCl).
  - unfold is_u. lia.
  - rewrite HD. unfold is_u. lia.
  - rewrite HD. change (Z.land (Z.lnot 0) 0) with 0. cbn [Z.eqb]. intros k1 E1. rewrite (HI k1 E1). unfold after_ups. cbn [Z.eqb].
    apply end_click_acts. lia.
  - rewrite HD. change (Z.land (Z.lnot 0) 0) with 0. cbn [Z.eqb]. rewrite HI by done. unfold s2. cbn. by rewrite HT.
  - eexists. split; [exact EK|]. split; [|split; [exact HCB|exact HCl]]. clear EK HCB HCl. rewrite HD in *. change (Z.land 0 (Z.lnot 0)) with 0 in *. cbn [Z.eqb] in S4.
    unfold after_downs. cbn [Z.eqb negb andb].
    assert (S6 : long_presses hz t 0 k4 = k4).
    { unfold long_presses, long_pressed, ev. cbv zeta. rewrite S4, Z.land_0_l. cbn. by case_match. }
    rewrite S6, S4. unfold between, s2. cbn. done.
Qed.

(** ** Presses *)

(** The keys go down, are held, go up and stay up. *)
Record press := mkPress { p_down : Z; p_hold : list Z; p_up : Z; p_gap : list Z }.

Definition held_samples (p : press) : list (Z * Z) := (p_down p, c) :: ((fun t => (t, c)) <$> p_hold p).
Definition samples_of (p : press) : list (Z * Z) := held_samples p ++ (p_up p, 0) :: ((fun t => (t, 0)) <$> p_gap p).

(** Soon enough after the press before, not a long press, and the next one not yet too late. *)
Definition in_time (o : option (Z * Z)) (p : press) : Prop :=
  match o with Some (_, u) => elapsed (p_down p) u (KEY_DOUBLECLICK_THRESHOLD hz) = false | None => True end /\
  Forall (fun t => elapsed t (p_down p) (KEY_LONGPRESS_THRESHOLD hz) = false) (p_hold p) /\
  Forall (fun t => elapsed t (p_up p) (KEY_DOUBLECLICK_THRESHOLD hz) = false) (p_gap p).

Definition count_press (o : option (Z * Z)) (p : press) : option (Z * Z) := Some (next_click o, p_up p).

Fixpoint all_in_time (o : option (Z * Z)) (ps : list press) : Prop :=
  match ps with [] => True | p :: ps' => in_time o p /\ all_in_time (count_press o p) ps' end.

(** The event part of the handler on a sequence of samples: the time and the pressed codes. *)
Fixpoint scan (ss : list (Z * Z)) (k : keys) : option keys :=
  match ss with [] => Some k | (t, code) :: ss' => k' ← key_events hz t code k; scan ss' k' end.

Definition leads (ss : list (Z * Z)) (k : keys) (P : HAL_KEY_STATUS_T -> Prop) (cl : list (Z * Z)) : Prop :=
  exists k', scan ss k = Some k' /\ P (key_status k') /\ key_detected_callback k' = key_detected_callback k /\
    exists es, sent k' = sent k ++ es /\ clicks_in es = if key_detected_callback k then cl else [].

Lemma leads_nil k (P : HAL_KEY_STATUS_T -> Prop) : P (key_status k) -> leads [] k P [].
Proof. intros H. exists k. split_and!; try done. exists []. rewrite app_nil_r. by destruct (key_detected_callback k). Qed.

Lemma leads_cons t code ss k P Q cl1 cl2 : sample t code k P cl1 -> (forall k', P (key_status k') -> leads ss k' Q cl2) ->
  leads ((t, code) :: ss) k Q (cl1 ++ cl2).
Proof.
  intros (k1 & E1 & HP & C1 & e1 & L1 & U1) HS. destruct (HS k1 HP) as (k2 & E2 & HQ & C2 & e2 & L2 & U2).
  exists k2. simpl. rewrite (bind_step _ _ _ E1). split; [exact E2|]. split; [exact HQ|]. split; [congruence|].
  exists (e1 ++ e2). rewrite L2, L1, app_assoc. split; [done|]. unfold clicks_in in *. rewrite List.filter_app, U1, U2, C1.
  by destruct (key_detected_callback k).
Qed.

Lemma leads_app ss1 ss2 k P Q cl1 cl2 : leads ss1 k P cl1 -> (forall k', P (key_status k') -> leads ss2 k' Q cl2) -> leads (ss1 ++ ss2) k Q (cl1 ++ cl2).
Proof.
  intros (k1 & E1 & HP & C1 & e1 & L1 & U1) HS. destruct (HS k1 HP) as (k2 & E2 & HQ & C2 & e2 & L2 & U2).
  exists k2. split; [|split; [exact HQ|split; [congruence|]]].
  - clear - E1 E2. revert k E1. induction ss1 as [|[t code] ss1 IH]; intros k E1; simpl in *; [by injection E1 as ->|].
    destruct (key_events hz t code k) as [k'|]; [|done]. by apply IH.
  - exists (e1 ++ e2). rewrite L2, L1, app_assoc. split; [done|]. unfold clicks_in in *. rewrite List.filter_app, U1, U2, C1.
    by destruct (key_detected_callback k).
Qed.

Lemma leads_repeat (P : HAL_KEY_STATUS_T -> Prop) code ts k : (forall t k, In t ts -> P (key_status k) -> sample t code k P []) -> P (key_status k) ->
  leads ((fun t => (t, code)) <$> ts) k P [].
Proof.
  intros HS. revert k. induction ts as [|t ts IH]; intros k HP; [by apply leads_nil|].
  apply (leads_cons t code _ k P P [] []); [apply HS; [by left|done]|]. intros k' HP'. apply IH; [|done]. intros t' k2 Hin. apply HS. by right.
Qed.

Lemma held_leads o p k : between o (key_status k) -> counting o -> in_time o p -> leads (held_samples p) k (holding (p_down p) o) [].
Proof.
  intros HB HO (H1 & H2 & _). apply (leads_cons _ _ _ _ (holding (p_down p) o) _ [] []).
  - apply press_sample; [done|]. destruct o as [[n u]|]; [|done]. split; [apply HO|done].
  - intros k' HP. apply leads_repeat; [|done]. intros t k2 Hin HP2. apply hold_sample; [done|].
    rewrite Forall_forall in H2. apply H2. by apply list_elem_of_In.
Qed.

Lemma press_leads o p k : between o (key_status k) -> counting o -> in_time o p -> next_click o < MAX_KEY_CLICK_COUNT ->
  leads (samples_of p) k (between (count_press o p)) [].
Proof.
  intros HB HO HT Hn. apply (leads_app _ _ _ (holding (p_down p) o) _ [] []); [by apply held_leads|]. intros k1 H1.
  pose proof (release_sample (p_up p) (p_down p) o k1 H1 HO) as HR. rewrite (proj2 (Z.ltb_lt _ _) Hn) in HR.
  apply (leads_cons _ _ _ _ _ _ [] [] HR). intros k2 H2. apply leads_repeat; [|done]. intros t k3 Hin H3. apply gap_sample; [done|done|].
  destruct HT as (_ & _ & HT). rewrite Forall_forall in HT. apply HT. by apply list_elem_of_In.
Qed.

Lemma counting_press o p : counting o -> next_click o < MAX_KEY_CLICK_COUNT -> counting (count_press o p).
Proof. intros HO Hn. pose proof (next_click_range o HO). cbn. lia. Qed.

(** The last release. *)
Definition last_up (ps : list press) : Z := p_up (List.last ps (mkPress 0 [] 0 [])).

Lemma fold_count ps o : ps <> [] -> fold_left count_press ps o = Some (next_click o + Z.of_nat (length ps) - 1, last_up ps).
Proof.
  revert o. induction ps as [|p ps IH]; intros o Hn; [done|]. destruct ps as [|q ps].
  - cbn. unfold count_press. do 2 f_equal. lia.
  - change (fold_left count_press (p :: q :: ps) o) with (fold_left count_press (q :: ps) (count_press o p)).
    rewrite IH by done. change (last_up (p :: q :: ps)) with (last_up (q :: ps)). do 2 f_equal. cbn [next_click count_press length]. lia.
Qed.

Lemma presses_lead ps o k : between o (key_status k) -> counting o -> next_click o + Z.of_nat (length ps) <= MAX_KEY_CLICK_COUNT -> all_in_time o ps ->
  leads (concat (samples_of <$> ps)) k (between (fold_left count_press ps o)) [] /\ counting (fold_left count_press ps o) /\
  next_click (fold_left count_press ps o) = next_click o + Z.of_nat (length ps).
Proof.
  revert o k. induction ps as [|p ps IH]; intros o k HB HO Hn HT; simpl length in *.
  - split; [by apply leads_nil|]. split; [done|]. simpl. lia.
  - destruct HT as [HT HTs]. assert (Hn1 : next_click o < MAX_KEY_CLICK_COUNT) by lia. pose proof (counting_press o p HO Hn1) as HO1.
    assert (HI : forall k', between (count_press o p) (key_status k') -> leads (concat (samples_of <$> ps)) k' (between (fold_left count_press ps (count_press o p))) [] /\
      counting (fold_left count_press ps (count_press o p)) /\ next_click (fold_left count_press ps (count_press o p)) = next_click (count_press o p) + Z.of_nat (length ps)).
    { intros k' HB'. apply IH; [done|done|cbn; lia|done]. }
    pose proof (press_leads o p k HB HO HT Hn1) as HL. split.
    + apply (leads_app _ _ _ _ _ [] [] HL). intros k' HB'. by apply HI.
    + destruct HL as (k' & _ & HB' & _). destruct (HI k' HB') as (_ & HO' & HN'). split; [done|]. cbn [fold_left]. rewrite HN'. cbn. lia.
Qed.
(** The click sent when the time has passed, and the fifth press, sent at its release. *)
Lemma clicks_sent ps k t : between None (key_status k) -> ps <> [] -> Z.of_nat (length ps) <= MAX_KEY_CLICK_COUNT -> all_in_time None ps ->
  elapsed t (last_up ps) (KEY_DOUBLECLICK_THRESHOLD hz) = true ->
  leads (concat (samples_of <$> ps) ++ [(t, 0)]) k (between None) [(c, HAL_KEY_EVENT_CLICK + (Z.of_nat (length ps) - 1))].
Proof.
  intros HB Hn HL HT HE. destruct (presses_lead ps None k HB I) as (HP & HO & HN); [cbn; lia|done|].
  apply (leads_app _ _ _ _ _ [] _ HP). intros k1 H1. rewrite (fold_count ps None Hn) in *. cbn in HO, H1.
  apply (leads_cons _ _ _ _ (between None) _ [_] []); [|intros; by apply leads_nil].
  apply (timeout_sample t (Z.of_nat (length ps) - 1) (last_up ps)); [exact H1|exact HE|exact HO].
Qed.

Lemma fifth_click ps p k : between None (key_status k) -> Z.of_nat (length ps) = MAX_KEY_CLICK_COUNT -> all_in_time None (ps ++ [p]) ->
  leads (concat (samples_of <$> ps) ++ held_samples p ++ [(p_up p, 0)]) k (between None) [(c, HAL_KEY_EVENT_RAMPAGECLICK)].
Proof.
  intros HB HL HT. assert (HS : all_in_time None ps /\ in_time (fold_left count_press ps None) p).
  { clear - HT. revert HT. generalize (@None (Z * Z)). induction ps as [|q ps IH]; intros o; simpl; [tauto|].
    intros [H1 H2]. destruct (IH _ H2). done. }
  destruct HS as [HT1 HT2]. destruct (presses_lead ps None k HB I) as (HP & HO & HN); [cbn; lia|done|].
  apply (leads_app _ _ _ _ _ [] _ HP). intros k1 H1.
  apply (leads_app _ _ _ _ _ [] _ (held_leads _ p k1 H1 HO HT2)). intros k2 H2.
  apply (leads_cons _ _ _ _ (between None) _ [_] []); [|intros; by apply leads_nil].
  pose proof (release_sample (p_up p) (p_down p) _ k2 H2 HO) as HR. rewrite HN, HL in HR. exact HR.
Qed.
End Samples.
