(* ===== verification/HalKeyProps.v ===== *)
(** The properties of the key scanner: no key is lost and no assertion fails, the events of a key
    follow the key, a press is reported only after its debounce, and released keys lead to rest. *)
From Stdlib Require Import ZArith Lia Bool.
From stdpp Require Import base gmap option list.
From S2P Require Import Prelude HalKey HalKeyLaws HalKeyRuns HalKeyClicks.

(** ** A press and the samples since *)

(** The samples after an interrupt of the power key, none of them released. *)
Definition held_sample (i : input) : bool :=
  match i with Timer_irq _ down _ => down | Pwr_irq _ _ _ => false | Gpio_irq _ _ _ => true end.

Definition pressed_since (tr : list input) (since : Z) : Prop :=
  exists pre state mid, tr = pre ++ Pwr_irq state since true :: mid /\ forallb held_sample mid = true.

Lemma pressed_since_snoc tr i since : pressed_since tr since -> held_sample i = true -> pressed_since (tr ++ [i]) since.
Proof.
  intros (pre & state & mid & -> & HM) Hi. exists pre, state, (mid ++ [i]). split; [by rewrite <- app_assoc|].
  rewrite forallb_app, HM. simpl. by rewrite Hi.
Qed.

Lemma codes_from_elem n j m c : c ∈ codes_from n j m -> exists i, j <= i /\ Z.testbit m i = true /\ c = 2 ^ i.
Proof.
  revert j. induction n as [|n IH]; intros j; simpl; [by intros ?%elem_of_nil|].
  destruct (Z.testbit m j) eqn:E; [intros [->|H]%elem_of_cons|intros H].
  - by exists j.
  - destruct (IH _ H) as (i & ? & ?). exists i. split; [lia|done].
  - destruct (IH _ H) as (i & ? & ?). exists i. split; [lia|done].
Qed.

Lemma codes_of_elem m i : 0 <= i -> 2 ^ i ∈ codes_of m -> Z.testbit m i = true.
Proof.
  intros Hi. rewrite codes_of_eq. intros H. apply codes_from_elem in H as (j & Hj & HT & HE). apply Z.pow_inj_r in HE; [by subst|lia..].
Qed.

(** A press among the presses and releases of one run. *)
Lemma in_updowns old code i : 0 <= i -> In (2 ^ i, HAL_KEY_EVENT_DOWN) (ups old code ++ downs old code) -> Z.testbit code i = true /\ Z.testbit old i = false.
Proof.
  intros Hi [H|H]%in_app_iff; apply list_elem_of_In in H; unfold ups, downs in H; apply list_elem_of_fmap_1 in H as (c & HE & Hc); [done|].
  injection HE as <-. apply codes_of_elem in Hc; [|done]. rewrite Z.land_spec, Z.lnot_spec in Hc by done.
  apply andb_true_iff in Hc as [-> Hn]. by apply negb_true_iff in Hn.
Qed.

Section Props.
Variable hz : Z.
Variable cfg : list HAL_KEY_GPIOKEY_CFG_T.
Hypothesis HC : cfg_ok cfg.

Lemma start_ok chk startup now down alloc cb k0 : hal_key_open cfg chk startup now down alloc cb reset_keys = Some (0, k0) -> keys_ok cfg k0.
Proof. intros H. destruct (open_ok cfg HC _ _ _ _ _ _ _ H) as [_ HK]. by destruct chk; [left|right]. Qed.


(** While the power key is being debounced it was pressed at every sample since its interrupt. *)
Lemma pressing_inv k0 tr k : keys_ok cfg k0 -> (running cfg k0 -> pwr_phase (pwr_key k0) = Idle) -> reach hz cfg k0 tr k -> Forall falling tr ->
  running cfg k -> pwr_phase (pwr_key k) = Pressing -> pressed_since tr (pwr_time (pwr_key k)).
Proof.
  intros HK H0 HR. induction HR as [|tr k i k' HR IH HE HH]; intros HF HRn HP; [rewrite H0 in HP by done; done|].
  apply Forall_app in HF as [HF Hi]. apply Forall_inv in Hi.
  destruct (reach_ok hz cfg HC k0 tr k HK HR HF) as [HB|HRk].
  - destruct i as [state now down|pin now val|now down val]; cbn in HE.
    + by rewrite (bt_pwr _ HB) in HE.
    + apply bool_decide_eq_true in HE. rewrite (bt_armed _ HB), lookup_empty in HE. by destruct HE.
    + unfold handle in HH. rewrite (bt_mode _ HB) in HH. injection HH as <-.
      destruct (boot_ok hz cfg HC now down k HB) as [HB'|[_ HZ]]; [|by rewrite HZ in HP].
      pose proof (rn_mode _ _ HRn) as HM. by rewrite (bt_mode _ HB') in HM.
  - destruct i as [state now down|pin now val|now down val]; cbn in HE.
    + injection HH as <-. destruct (pwr_irq_running cfg state now down k HRk HE Hi) as (_ & Hph & ->). rewrite Hph in HP.
      destruct down; [|done]. by exists tr, state, [].
    + apply bool_decide_eq_true in HE. destruct (gpio_irq_running cfg HC pin now val k HRk HE) as (k2 & E & _ & Hp & _).
      cbn in HH. rewrite E in HH. injection HH as <-. rewrite Hp in *. apply pressed_since_snoc; [|done]. by apply IH.
    + unfold handle in HH. rewrite (rn_mode _ _ HRk) in HH.
      destruct (debounce_handler_ok hz cfg HC now down val k HRk) as (k2 & E & _ & _ & HN & HT & _).
      rewrite E in HH. injection HH as <-. rewrite HP in HN. symmetry in HN.
      assert (HQ : pwr_phase (pwr_key k) = Pressing /\ down = true).
      { unfold next_phase in HN. repeat case_match; done. }
      destruct HQ as [HQ ->]. rewrite HT by congruence. apply pressed_since_snoc; [|done]. by apply IH.
Qed.
Lemma armed_entry k c : running cfg k -> c ∈ cfg -> key_code c <> HAL_KEY_CODE_NONE ->
  gpio_armed k !! key_pin c = if in_progress (gpio_key k) (key_pin c) then None else Some (polarity c).
Proof.
  intros HN Hin Hc. destruct (rn_gpio _ _ HN) as [_ [H1 _]]. pose proof (find_pin_entry cfg HC c Hin) as HF.
  destruct (find_pin_range cfg HC _ _ HF) as [HP _]. rewrite H1 by lia. rewrite has_clear, orb_false_r by lia.
  case_match; [done|]. unfold armed_for. by rewrite HF, (proj2 (Z.eqb_neq _ _) Hc).
Qed.

Lemma watched k : running cfg k ->
  pwr_busy (pwr_key k) = true \/ (exists p, 0 <= p /\ in_progress (gpio_key k) p = true) \/ ev k <> HAL_KEY_EVENT_NONE -> timer_set k = true.
Proof.
  intros HN H. apply (rn_watch _ _ HN). rewrite !orb_true_iff. destruct H as [->|[(p & Hp & HI)|HE]]; [by left; left|left; right|right].
  - apply (gpio_busy_spec _ _ (proj1 (rn_gpio _ _ HN))). exists p. split; [done|]. rewrite idle_in_progress in HI. by destruct (pin_phase _ p).
  - by rewrite (proj2 (Z.eqb_neq _ _) HE).
Qed.
(** The callback stays as the start set it. *)
Lemma handle_callback i k k' : keys_ok cfg k -> enabled i k = true -> falling i -> handle hz cfg i k = Some k' ->
  key_detected_callback k' = key_detected_callback k.
Proof.
  intros [HB|HN] HE HF HH; destruct i as [state now down|pin now val|now down val]; cbn in HE.
  - by rewrite (bt_pwr _ HB) in HE.
  - apply bool_decide_eq_true in HE. rewrite (bt_armed _ HB), lookup_empty in HE. by destruct HE.
  - unfold handle in HH. rewrite (bt_mode _ HB) in HH. injection HH as <-. exact (boot_callback hz cfg now down (set_timer false k)).
  - injection HH as <-. unfold hal_pwrkey_handle_irq_state, hal_key_debounce_timer_restart. repeat case_match; done.
  - apply bool_decide_eq_true in HE. destruct (gpio_irq_running cfg HC pin now val k HN HE) as (k2 & E & _ & _ & _ & _ & HCB & _).
    cbn in HH. rewrite E in HH. by injection HH as <-.
  - unfold handle in HH. rewrite (rn_mode _ _ HN) in HH.
    destruct (debounce_handler_ok hz cfg HC now down val k HN) as (k2 & E & _ & HCB & _). rewrite E in HH. by injection HH as <-.
Qed.

Lemma reach_callback k0 tr k : keys_ok cfg k0 -> reach hz cfg k0 tr k -> Forall falling tr -> key_detected_callback k = key_detected_callback k0.
Proof.
  intros HK HR. induction HR as [|tr k i k' HR IH HE HH]; [done|]. intros [HF Hi]%Forall_app. apply Forall_inv in Hi.
  rewrite <- (IH HF). by apply (handle_callback i); [by apply (reach_ok hz cfg HC k0 tr)|..].
Qed.

(** No key is pressed for the callback before the start has finished. *)
Lemma boot_no_press now down val k k' : booting k -> handle hz cfg (Timer_irq now down val) k = Some k' ->
  ~ In (HAL_KEY_CODE_PWR, HAL_KEY_EVENT_DOWN) (drop (length (sent k)) (sent k')).
Proof.
  intros HB HH HI. unfold handle in HH. rewrite (bt_mode _ HB) in HH. injection HH as <-.
  destruct (boot_sent hz cfg now down (set_timer false k)) as (es & HS & HE). cbn in HS. rewrite HS, drop_app_length in HI.
  assert (HU : In (HAL_KEY_CODE_PWR, HAL_KEY_EVENT_DOWN) (updowns es)) by (by apply List.filter_In). by rewrite HE in HU.
Qed.

Lemma opened_idle chk startup now down alloc cb k0 : hal_key_open cfg chk startup now down alloc cb reset_keys = Some (0, k0) ->
  running cfg k0 -> pwr_phase (pwr_key k0) = Idle.
Proof.
  intros HO HN. destruct (open_ok cfg HC _ _ _ _ _ _ _ HO) as [_ HK]. destruct chk.
  - pose proof (rn_mode _ _ HN) as HM. by rewrite (bt_mode _ HK) in HM.
  - unfold hal_key_open in HO. cbn [andb negb] in HO. destruct alloc; [|done]. injection HO as <-.
    unfold hal_key_enable_allint, hal_gpiokey_enable_allint. edestruct (enable_frame cfg) as [a ->]. done.
Qed.

(** A press sent: the key was being debounced, and the time has passed. *)
Lemma press_settled now down val k k' : Forall (fun c => Z.testbit (key_code c) 0 = false) cfg -> running cfg k ->
  handle hz cfg (Timer_irq now down val) k = Some k' ->
  In (HAL_KEY_CODE_PWR, HAL_KEY_EVENT_DOWN) (drop (length (sent k)) (sent k')) ->
  pwr_phase (pwr_key k) = Pressing /\ down = true /\ KEY_DEBOUNCE_INTERVAL hz <= u32 (now - pwr_time (pwr_key k)).
Proof.
  intros HP HN HH HI. unfold handle in HH. rewrite (rn_mode _ _ HN) in HH.
  destruct (debounce_handler_ok hz cfg HC now down val k HN) as (k2 & E & HN2 & _ & HPh & _ & _ & _ & _ & _ & _ & es & HS & HE).
  rewrite E in HH. injection HH as <-. rewrite HS, drop_app_length in HI.
  assert (HU : In (2 ^ 0, HAL_KEY_EVENT_DOWN) (updowns es)) by (by apply List.filter_In). rewrite HE in HU.
  destruct (key_detected_callback k); [|done]. apply in_updowns in HU as [H1 H2]; [|lia].
  apply (rn_keys _ _ HN2 0 ltac:(lia)) in H1 as [[_ H1]|(p & _ & _ & H1)].
  - rewrite H1 in HPh. symmetry in HPh. unfold next_phase in HPh. destruct (pwr_phase (pwr_key k)) eqn:EP; try done.
    + destruct down; [|done]. destruct (elapsed _ _ _) eqn:EE in HPh; [|done]. split; [done|]. split; [done|].
      unfold elapsed in EE. rewrite Z.geb_leb in EE. by apply Z.leb_le.
    + assert (H3 : Z.testbit (down_codes k) 0 = true) by (apply (rn_keys _ _ HN); [lia|left; done]). congruence.
    + by case_match.
  - unfold pin_code in H1. destruct (hal_gpiokey_find_index cfg p) as [c|] eqn:EF; [|done].
    apply find_pin_Some in EF as [_ Hin]. rewrite Forall_forall in HP. rewrite HP in H1; done.
Qed.
End Props.

(** ** The way to rest *)

(** The samples at the times [ts], every key released, as long as the timer runs. *)
Fixpoint settle (hz : Z) (cfg : list HAL_KEY_GPIOKEY_CFG_T) (val : Z -> Z) (ts : list Z) (k : keys) : option keys :=
  match ts with
  | [] => Some k
  | t :: ts' => if timer_set k then k' ← handle hz cfg (Timer_irq t false val) k; settle hz cfg val ts' k' else Some k
  end.

(** The times of the 32-bit counter at the samples are at least [d] apart. *)
Fixpoint spaced (d : Z) (ts : list Z) : Prop :=
  match ts with
  | t :: ((t' :: _) as r) => d <= u32 (t' - t) <= 2 ^ 31 /\ spaced d r
  | _ => True
  end.

Lemma u32_step since t t' : u32 (t' - since) = u32 (u32 (t - since) + u32 (t' - t)).
Proof.
  rewrite !u32_mod, <- Zplus_mod. f_equal. lia.
Qed.

(** No more than [n] spaced times fall within [n] times the distance of a moment. *)
Lemma spaced_within d n since ts : 0 < d -> Z.of_nat n * d <= 2 ^ 31 -> spaced d ts ->
  (forall t, In t ts -> elapsed t since (Z.of_nat n * d) = false) -> (length ts <= n)%nat.
Proof.
  intros Hd Hn HS HW.
  assert (HX : match ts with [] => True | t :: _ => u32 (t - since) + Z.of_nat (length ts - 1) * d < Z.of_nat n * d end).
  { induction ts as [|t ts IH]; [done|]. assert (Ht : u32 (t - since) < Z.of_nat n * d).
    { specialize (HW t (or_introl eq_refl)). unfold elapsed in HW. rewrite Z.geb_leb in HW. by apply Z.leb_gt. }
    destruct ts as [|t' ts]; [simpl; lia|]. destruct HS as [Hg HS]. specialize (IH HS (fun x Hx => HW x (or_intror Hx))).
    rewrite (u32_step since t t') in IH. pose proof (wrap_range 32 (t - since) ltac:(lia)) as Hr. fold (u32 (t - since)) in Hr. unfold is_u in Hr.
    rewrite (u32_small (_ + _)) in IH by lia. simpl length in *. lia. }
  destruct ts as [|t ts]; [simpl; lia|]. pose proof (wrap_range 32 (t - since) ltac:(lia)) as Hr. fold (u32 (t - since)) in Hr. unfold is_u in Hr.
  simpl length in *. nia.
Qed.

(** Nothing pressed, nothing released: only a counted click can go on, until its time has passed. *)
Lemma events_rest hz time k k' : status_ok k -> code_down (key_status k) = 0 -> key_events hz time 0 k = Some k' -> ev k' = HAL_KEY_EVENT_UP ->
  ev k = HAL_KEY_EVENT_UP /\ time_click (key_status k') = time_click (key_status k) /\ elapsed time (time_click (key_status k)) (KEY_DOUBLECLICK_THRESHOLD hz) = false.
Proof.
  intros HK HD. rewrite (key_events_eq hz time 0 k k (upd (with_down 0) (clicks hz time 0 k))); [|by rewrite HD|rewrite HD; unfold after_ups; done].
  intros [= <-]. rewrite HD. change (Z.land 0 (Z.lnot 0)) with 0. unfold after_downs. cbn [Z.eqb negb andb].
  intros HU. destruct (Z.eqb_spec (ev k) HAL_KEY_EVENT_UP) as [HE|HE].
  - destruct (st_up _ HK HE) as [HR HCk]. unfold clicks in *. rewrite (proj2 (Z.eqb_eq _ _) HE) in *.
    assert (HCC : count_click time 0 k = k).
    { unfold count_click. rewrite HCk, Z.eqb_refl. rewrite (proj2 (Z.eqb_neq _ _)) by exact HR. done. }
    rewrite HCC in *. unfold finish_click in *. destruct (elapsed _ _ _ || _) eqn:EF.
    + exfalso. revert HU. unfold long_presses, long_pressed, ev. cbn. case_match; done.
    + apply orb_false_iff in EF as [EF _]. split; [done|]. split; [|exact EF].
      unfold long_presses, long_pressed. cbv zeta. change (ev (upd (with_down 0) k)) with (ev k). rewrite HE. cbn. by case_match.
  - exfalso. revert HU. unfold clicks. rewrite (proj2 (Z.eqb_neq _ _) HE).
    unfold long_presses, long_pressed. cbv zeta. change (ev (upd (with_down 0) k)) with (ev k).
    change (code_ready (key_status (upd (with_down 0) k))) with (code_ready (key_status k)). rewrite Z.land_0_l.
    destruct (st_event _ HK) as [E|[E|[E|E]]].
    + rewrite E. cbn. case_match; unfold ev in *; cbn; congruence.
    + destruct (st_down _ HK E) as [_ H]. by rewrite HD in H.
    + done.
    + pose proof (st_long _ HK E) as H. by rewrite HD in H.
Qed.

Section Rest.
Variable hz : Z.
Variable cfg : list HAL_KEY_GPIOKEY_CFG_T.
Hypothesis HC : cfg_ok cfg.
Variable val : Z -> Z.
Hypothesis none_pressed : forall p, pin_pressed cfg val p = false.

Definition resting (ph : phase) : Prop := ph = Idle \/ ph = Releasing.

(** Every key is idle or waits out its dither time. *)
Record releasing (k : keys) : Prop := {
  rs_pwr : resting (pwr_phase (pwr_key k));
  rs_pin : forall p, 0 <= p -> resting (pin_phase (gpio_key k) p);
  rs_code : down_codes k = 0;
  rs_timer : timer_set k = pwr_busy (pwr_key k) || gpio_busy (gpio_key k) || negb (ev k =? HAL_KEY_EVENT_NONE) }.

Lemma next_resting settled calm ph : resting (next_phase settled calm false ph).
Proof. unfold resting. destruct ph, calm; simpl; auto. Qed.

Lemma still_releasing settled calm ph : resting ph -> next_phase settled calm false ph = Releasing -> ph = Releasing /\ calm = false.
Proof. by intros [-> | ->]; destruct calm. Qed.

Lemma no_code k : running cfg k -> resting (pwr_phase (pwr_key k)) -> (forall p, 0 <= p -> resting (pin_phase (gpio_key k) p)) -> down_codes k = 0.
Proof.
  intros HN HP HG. apply Z.bits_inj_0. intros i. destruct (Z.ltb_spec i 0); [by apply Z.testbit_neg_r|].
  destruct (Z.testbit (down_codes k) i) eqn:E; [|done]. apply (rn_keys _ _ HN i ltac:(lia)) in E as [[_ H1]|(p & Hp & H1 & _)].
  - by destruct HP as [HP|HP]; rewrite H1 in HP.
  - by destruct (HG p Hp) as [HP'|HP']; rewrite H1 in HP'.
Qed.

(** A sample with every key released. *)
Lemma sample_released t k : running cfg k -> exists k', handle hz cfg (Timer_irq t false val) k = Some k' /\ running cfg k' /\ releasing k' /\
  (releasing k ->
    (ev k' = HAL_KEY_EVENT_UP -> ev k = HAL_KEY_EVENT_UP /\ time_click (key_status k') = time_click (key_status k) /\
      elapsed t (time_click (key_status k)) (KEY_DOUBLECLICK_THRESHOLD hz) = false) /\
    (pwr_phase (pwr_key k') = Releasing -> pwr_phase (pwr_key k) = Releasing /\ pwr_time (pwr_key k') = pwr_time (pwr_key k) /\
      elapsed t (pwr_time (pwr_key k)) (KEY_DITHER_INTERVAL hz) = false) /\
    (forall p, 0 <= p -> pin_phase (gpio_key k') p = Releasing -> pin_phase (gpio_key k) p = Releasing /\
      time_dither (gpio_key k') = time_dither (gpio_key k) /\ elapsed t (time_dither (gpio_key k)) (KEY_DITHER_INTERVAL hz) = false)).
Proof.
  intros HN. destruct (debounce_handler_ok hz cfg HC t false val k HN) as (k' & E & HN' & _ & HP & HPT & HG & _ & HGT & HTS & (k2 & k3 & EK & SK2 & SK3) & _).
  exists k'. unfold handle. rewrite (rn_mode _ _ HN). split; [exact E|]. split; [exact HN'|].
  assert (RP : resting (pwr_phase (pwr_key k'))) by (rewrite HP; apply next_resting).
  assert (RG : forall p, 0 <= p -> resting (pin_phase (gpio_key k') p)) by (intros p Hp; rewrite HG, none_pressed by done; apply next_resting).
  assert (RC : down_codes k' = 0) by (by apply no_code).
  split; [by split|]. intros HR. split; [|split].
  - intros HU. rewrite RC in EK. unfold ev in *. rewrite SK3 in *. rewrite <- SK2.
    apply (events_rest hz t k2 k3); [apply (status_ok_same k); [exact SK2|apply HN]|rewrite SK2; apply HR|exact EK|exact HU].
  - intros HU. rewrite HU in HP. symmetry in HP. apply still_releasing in HP as [HP HE]; [|apply HR].
    split; [exact HP|]. split; [apply HPT; congruence|exact HE].
  - intros p Hp HU. rewrite HG, none_pressed in HU by done. apply still_releasing in HU as [HU HE]; [|by apply HR]. split; [exact HU|]. by split.
Qed.

(** What the timer still waits for after the samples [ts]. *)
Definition waits (ts : list Z) (k : keys) : Prop :=
  (ev k = HAL_KEY_EVENT_UP /\ forall t, In t ts -> elapsed t (time_click (key_status k)) (KEY_DOUBLECLICK_THRESHOLD hz) = false) \/
  (pwr_phase (pwr_key k) = Releasing /\ forall t, In t ts -> elapsed t (pwr_time (pwr_key k)) (KEY_DITHER_INTERVAL hz) = false) \/
  (exists p, 0 <= p /\ pin_phase (gpio_key k) p = Releasing /\ forall t, In t ts -> elapsed t (time_dither (gpio_key k)) (KEY_DITHER_INTERVAL hz) = false).

Lemma ev_resting k : running cfg k -> down_codes k = 0 -> ev k = HAL_KEY_EVENT_NONE \/ ev k = HAL_KEY_EVENT_UP.
Proof.
  intros HN HD. pose proof (rn_status _ _ HN) as HS. destruct (st_event _ HS) as [E|[E|[E|E]]]; [by left| |by right|].
  - by destruct (st_down _ HS E).
  - pose proof (st_long _ HS E) as H. by rewrite HD in H.
Qed.

Lemma waits_nil k : running cfg k -> releasing k -> timer_set k = true -> waits [] k.
Proof.
  intros HN HR. rewrite (rs_timer _ HR), !orb_true_iff. intros [[HB|HB]|HB].
  - right. left. split; [|done]. rewrite pwr_busy_phase in HB. destruct (rs_pwr _ HR) as [E|E]; [by rewrite E in HB|done].
  - right. right. apply (gpio_busy_spec _ _ (proj1 (rn_gpio _ _ HN))) in HB as (p & Hp & HE). exists p. split; [done|]. split; [|done].
    by destruct (rs_pin _ HR p Hp).
  - left. split; [|done]. apply negb_true_iff, Z.eqb_neq in HB. by destruct (ev_resting k HN (rs_code _ HR)).
Qed.

Lemma settle_ok ts k : running cfg k -> releasing k ->
  exists k', settle hz cfg val ts k = Some k' /\ running cfg k' /\ releasing k' /\ (timer_set k' = true -> waits ts k).
Proof.
  revert k. induction ts as [|t ts IH]; intros k HN HR; simpl.
  - exists k. split; [done|]. split; [done|]. split; [done|]. by apply waits_nil.
  - destruct (timer_set k) eqn:ET; [|exists k; rewrite ET; by split_and!].
    destruct (sample_released t k HN) as (k1 & E & HN1 & HR1 & HK).
    rewrite (bind_step _ _ _ E). destruct (IH k1 HN1 HR1) as (k' & E' & HN' & HR' & HW). exists k'. split; [exact E'|]. split; [done|]. split; [done|].
    intros HT. destruct (HK HR) as (K1 & K2 & K3). destruct (HW HT) as [[H1 H2]|[[H1 H2]|(p & Hp & H1 & H2)]]; [left|right; left|right; right; exists p; split; [done|]].
    + destruct (K1 H1) as (G1 & G2 & G3). split; [done|]. intros u [<-|Hu]; [done|]. rewrite <- G2. by apply H2.
    + destruct (K2 H1) as (G1 & G2 & G3). split; [done|]. intros u [<-|Hu]; [done|]. rewrite <- G2. by apply H2.
    + destruct (K3 p Hp H1) as (G1 & G2 & G3). split; [done|]. intros u [<-|Hu]; [done|]. rewrite <- G2. by apply H2.
Qed.

Lemma waits_short ts k : 0 < hz -> KEY_DOUBLECLICK_THRESHOLD hz <= 2 ^ 31 -> spaced (KEY_CHECKER_INTERVAL hz) ts -> waits ts k -> (length ts <= 10)%nat.
Proof.
  unfold KEY_DOUBLECLICK_THRESHOLD, KEY_CHECKER_INTERVAL, KEY_DITHER_INTERVAL, MS_TO_TICKS, waits. intros Hh Hb HS.
  assert (H10 : Z.of_nat 10 * (40 * hz) = 400 * hz) by lia. assert (H1 : Z.of_nat 1 * (40 * hz) = 40 * hz * 1) by lia.
  unfold KEY_DOUBLECLICK_THRESHOLD, KEY_DITHER_INTERVAL, KEY_CHECKER_INTERVAL, MS_TO_TICKS. rewrite <- H10, <- H1.
  intros [[_ H]|[[_ H]|(p & _ & _ & H)]]; (eapply Nat.le_trans; [eapply spaced_within; [|..|exact HS|exact H]; lia|lia]).
Qed.
(** Enough samples with every key released stop the timer. *)
Lemma comes_to_rest ts k : 0 < hz -> KEY_DOUBLECLICK_THRESHOLD hz <= 2 ^ 31 -> spaced (KEY_CHECKER_INTERVAL hz) ts -> (12 <= length ts)%nat ->
  running cfg k -> exists k', settle hz cfg val ts k = Some k' /\ running cfg k' /\ timer_set k' = false.
Proof.
  intros Hh Hb HS HL HN. destruct ts as [|t ts]; [simpl in HL; lia|]. simpl. destruct (timer_set k) eqn:ET; [|by exists k].
  destruct (sample_released t k HN) as (k1 & E & HN1 & HR1 & _). rewrite (bind_step _ _ _ E).
  destruct (settle_ok ts k1 HN1 HR1) as (k' & E' & HN' & _ & HW). exists k'. split; [exact E'|]. split; [done|].
  destruct (timer_set k') eqn:ET'; [|done]. exfalso. assert (HS' : spaced (KEY_CHECKER_INTERVAL hz) ts) by (destruct ts; [done|apply HS]).
  pose proof (waits_short ts k1 Hh Hb HS' (HW eq_refl)). simpl in HL. lia.
Qed.

(** With the timer stopped nothing is in progress. *)
Lemma stopped_rests k : running cfg k -> timer_set k = false ->
  pwr_armed k = true /\ (forall p, 0 <= p -> in_progress (gpio_key k) p = false) /\ ev k = HAL_KEY_EVENT_NONE /\ down_codes k = 0.
Proof.
  intros HN HT. assert (HW : pwr_busy (pwr_key k) || gpio_busy (gpio_key k) || negb (ev k =? HAL_KEY_EVENT_NONE) = false).
  { destruct (_ || negb _) eqn:E; [|done]. by rewrite (rn_watch _ _ HN E) in HT. }
  apply orb_false_iff in HW as [[HP HG]%orb_false_iff HE]. apply negb_false_iff, Z.eqb_eq in HE.
  assert (HI : forall p, 0 <= p -> in_progress (gpio_key k) p = false).
  { intros p Hp. destruct (in_progress (gpio_key k) p) eqn:E; [|done]. rewrite idle_in_progress in E.
    rewrite (proj2 (gpio_busy_spec _ _ (proj1 (rn_gpio _ _ HN)))) in HG; [done|]. exists p. split; [done|]. by destruct (pin_phase _ p). }
  split; [by rewrite (rn_pwr _ _ HN), HP|]. split; [exact HI|]. split; [exact HE|]. apply no_code; [exact HN|left|].
  - rewrite pwr_busy_phase in HP. by destruct (pwr_phase _).
  - intros p Hp. left. pose proof (HI p Hp) as H. rewrite idle_in_progress in H. by destruct (pin_phase _ p).
Qed.
End Rest.

(** A run evaluated is a run. *)
Lemma run_reach hz cfg tr k0 k : run hz cfg tr k0 = Some k -> reach hz cfg k0 tr k.
Proof.
  unfold run. revert k. induction tr as [|i tr IH] using rev_ind; intros k; [intros [= <-]; constructor|].
  rewrite fold_left_app. simpl. destruct (fold_left _ tr (Some k0)) as [k1|] eqn:E; [|done]. simpl. unfold step.
  destruct (enabled i k1) eqn:EE; [|done]. intros EH. econstructor; [by apply IH|done|done].
Qed.

(** ** Examples: the table of three keys of config/best1307/tgt_hardware.c, 16 ticks a millisecond *)
Definition table3 : list HAL_KEY_GPIOKEY_CFG_T := [mkCfg 2 3 0; mkCfg 4 10 0; mkCfg 8 7 0].

Lemma table3_ok : cfg_ok table3.
Proof.
  split; [apply (bool_decide_unpack _); vm_compute; exact I|].
  apply List.Forall_forall. intros c [<-|[<-|[<-|[]]]]; unfold is_u, PINS, GPIO_MAP_WORD_CNT; cbn [key_pin key_code]; lia.
Qed.

Definition opened (k : option (Z * keys)) : keys := match k with Some (_, k) => k | None => reset_keys end.
Definition open3 : option (Z * keys) := hal_key_open table3 false (fun _ => true) 0 false true true reset_keys.
Definition after (tr : list input) (k : keys) : keys := match run 16 table3 tr k with Some k' => k' | None => reset_keys end.

(** The levels of the pins: key 3 pressed, or none. *)
Definition pin3 (p : Z) : Z := if p =? 3 then 0 else 1.
Definition all_up (p : Z) : Z := 1.

(** The power key and the key of pin 3 go down, and are debounced after two more samples. *)
Definition press_two : list input :=
  [Pwr_irq 1 1000 true; Gpio_irq 3 1010 0; Timer_irq 1640 true pin3].

(** ** Properties *)

(** C3: Whatever the interrupts, no assertion of the handlers fails and no key is lost: once the
    device has started, the power key and every GPIO key is either armed, the GPIO key with its
    polarity, or in progress; and the timer runs as long as a key is in progress, an event is not
    finished or the device is starting. *)
Theorem key_never_lost hz cfg chk startup now down alloc cb k0 tr k : cfg_ok cfg ->
  hal_key_open cfg chk startup now down alloc cb reset_keys = Some (0, k0) -> reach hz cfg k0 tr k -> Forall falling tr ->
  (forall i, enabled i k = true -> falling i -> handle hz cfg i k <> None) /\
  (debounce_timer k = Some Boot -> timer_set k = true) /\
  (debounce_timer k = Some Debounce ->
    pwr_armed k = negb (pwr_busy (pwr_key k)) /\
    (forall c, c ∈ cfg -> key_code c <> HAL_KEY_CODE_NONE ->
      gpio_armed k !! key_pin c = if in_progress (gpio_key k) (key_pin c) then None else Some (polarity c)) /\
    (pwr_busy (pwr_key k) = true \/ (exists p, 0 <= p /\ in_progress (gpio_key k) p = true) \/ ev k <> HAL_KEY_EVENT_NONE -> timer_set k = true)).
Proof.
  intros HC HO HR HF. pose proof (reach_ok hz cfg HC k0 tr k (start_ok cfg HC _ _ _ _ _ _ _ HO) HR HF) as HK.
  split; [intros i HE Hi; destruct (handle_ok hz cfg HC i k HK HE Hi) as (k' & -> & _); done|].
  destruct HK as [HB|HN]; [split; [intros _; apply HB|by rewrite (bt_mode _ HB)]|split; [by rewrite (rn_mode _ _ HN)|intros _]].
  split; [apply HN|]. split; [intros c Hin Hc; by apply (armed_entry cfg HC)|by apply (watched cfg)].
Qed.

Lemma key_never_lost_witness : exists k, reach 16 table3 (opened open3) press_two k /\ timer_set k = true /\ gpio_armed k !! 10 = Some 0.
Proof.
  exists (after press_two (opened open3)). assert (HR : reach 16 table3 (opened open3) press_two (after press_two (opened open3))).
  { apply run_reach. vm_compute. reflexivity. }
  split; [exact HR|].
  destruct (key_never_lost 16 table3 false (fun _ => true) 0 false true true (opened open3) press_two _ table3_ok eq_refl HR) as (_ & _ & HD).
  { unfold press_two. repeat (apply List.Forall_cons; [done|]). apply List.Forall_nil. }
  destruct HD as (_ & HA & HT); [vm_compute; reflexivity|]. split; [apply HT; left; vm_compute; reflexivity|].
  refine (eq_trans (HA (mkCfg 4 10 0) _ _) _); [|discriminate|vm_compute; reflexivity].
  apply elem_of_cons; right. apply elem_of_cons; left. reflexivity.
Defined.

(** C17: The events of a key follow the key: in the events sent since the callback was set, each
    key goes down and up in turn, beginning with a press, and the last one is a press exactly when
    its code is among the pressed codes; once the device has started these are the codes of the
    keys that are debounced and held. *)
Theorem key_events_follow hz cfg chk startup now down alloc k0 tr k i : cfg_ok cfg ->
  hal_key_open cfg chk startup now down alloc true reset_keys = Some (0, k0) -> reach hz cfg k0 tr k -> Forall falling tr -> 0 <= i < 32 ->
  tracked (2 ^ i) (sent k) = Some (Z.testbit (code_down (key_status k)) i) /\
  (debounce_timer k = Some Debounce -> Z.testbit (code_down (key_status k)) i = true <-> key_held cfg k i).
Proof.
  intros HC HO HR HF Hi. destruct (open_ok cfg HC _ _ _ _ _ _ _ HO) as [HCB HK].
  assert (HK0 : keys_ok cfg k0) by (by destruct chk; [left|right]).
  pose proof (reach_callback hz cfg HC k0 tr k HK0 HR HF) as HCB'. rewrite HCB in HCB'.
  destruct (reach_ok hz cfg HC k0 tr k HK0 HR HF) as [HB|HN].
  - rewrite (bt_log _ HB), (bt_code _ HB), Z.bits_0. split; [done|]. by rewrite (bt_mode _ HB).
  - split; [by apply (rn_log _ _ HN)|]. intros _. apply (rn_keys _ _ HN). lia.
Qed.

(** Both keys of the run are held: the power key with code 1 and the key of pin 3 with code 2. *)
Definition held_two : list input := press_two ++ [Timer_irq 2290 true pin3].

Lemma key_events_follow_witness : exists k, reach 16 table3 (opened open3) held_two k /\
  tracked (2 ^ 1) (sent k) = Some true /\ key_held table3 k 1 /\ tracked (2 ^ 2) (sent k) = Some false.
Proof.
  exists (after held_two (opened open3)). assert (HR : reach 16 table3 (opened open3) held_two (after held_two (opened open3))).
  { apply run_reach. vm_compute. reflexivity. }
  assert (HF : Forall falling held_two). { unfold held_two, press_two. repeat (apply List.Forall_cons; [done|]). apply List.Forall_nil. }
  split; [exact HR|].
  destruct (key_events_follow 16 table3 false (fun _ => true) 0 false true (opened open3) held_two _ 1 table3_ok eq_refl HR HF) as [H1 H2]; [lia|].
  destruct (key_events_follow 16 table3 false (fun _ => true) 0 false true (opened open3) held_two _ 2 table3_ok eq_refl HR HF) as [H3 _]; [lia|].
  split; [exact H1|]. split; [apply H2; vm_compute; reflexivity|exact H3].
Defined.

(** C32: A press of the power key is reported only after its debounce: when the handler sends its
    DOWN event, the key was pressed at the interrupt and at every sample since, and the time of the
    debounce has passed since the interrupt. *)
Theorem key_press_debounced hz cfg chk startup now0 down0 alloc cb k0 tr k now down val k' : cfg_ok cfg ->
  Forall (fun c => Z.testbit (key_code c) 0 = false) cfg ->
  hal_key_open cfg chk startup now0 down0 alloc cb reset_keys = Some (0, k0) -> reach hz cfg k0 tr k -> Forall falling tr ->
  handle hz cfg (Timer_irq now down val) k = Some k' ->
  In (HAL_KEY_CODE_PWR, HAL_KEY_EVENT_DOWN) (drop (length (sent k)) (sent k')) ->
  down = true /\ exists since, pressed_since tr since /\ KEY_DEBOUNCE_INTERVAL hz <= u32 (now - since).
Proof.
  intros HC HP HO HR HF HH HI. pose proof (start_ok cfg HC _ _ _ _ _ _ _ HO) as HK.
  destruct (reach_ok hz cfg HC k0 tr k HK HR HF) as [HB|HN]; [by destruct (boot_no_press hz cfg now down val k k' HB HH HI)|].
  destruct (press_settled hz cfg HC now down val k k' HP HN HH HI) as (HPh & -> & HT). split; [done|].
  exists (pwr_time (pwr_key k)). split; [|done]. eapply pressing_inv; [exact HC|exact HK| |exact HR|exact HF|exact HN|exact HPh].
  intros H0. by apply (opened_idle cfg HC _ _ _ _ _ _ _ HO).
Qed.

Lemma key_press_debounced_witness : exists k k', reach 16 table3 (opened open3) press_two k /\
  handle 16 table3 (Timer_irq 2290 true pin3) k = Some k' /\
  exists since, pressed_since press_two since /\ KEY_DEBOUNCE_INTERVAL 16 <= u32 (2290 - since).
Proof.
  exists (after press_two (opened open3)), (after held_two (opened open3)).
  assert (HR : reach 16 table3 (opened open3) press_two (after press_two (opened open3))) by (apply run_reach; vm_compute; reflexivity).
  assert (HH : handle 16 table3 (Timer_irq 2290 true pin3) (after press_two (opened open3)) = Some (after held_two (opened open3))) by (vm_compute; reflexivity).
  split; [exact HR|]. split; [exact HH|].
  refine (proj2 (key_press_debounced 16 table3 false (fun _ => true) 0 false true true (opened open3) press_two _ 2290 true pin3 _ table3_ok _ eq_refl HR _ HH _)).
  - unfold table3. repeat (apply List.Forall_cons; [reflexivity|]). apply List.Forall_nil.
  - unfold press_two. repeat (apply List.Forall_cons; [done|]). apply List.Forall_nil.
  - vm_compute. left. reflexivity.
Defined.

(** C28: The scanner comes to rest: after the start, once every key is released, at most twelve
    samples at least a checker interval apart (and at most 2^31 ticks) stop the timer; nothing is
    pressed then, no event is unfinished, and the power key and every GPIO key are armed. *)
Theorem key_comes_to_rest hz cfg chk startup now down alloc cb k0 tr k val ts : cfg_ok cfg -> 0 < hz -> KEY_DOUBLECLICK_THRESHOLD hz <= 2 ^ 31 ->
  hal_key_open cfg chk startup now down alloc cb reset_keys = Some (0, k0) -> reach hz cfg k0 tr k -> Forall falling tr ->
  debounce_timer k = Some Debounce -> (forall p, pin_pressed cfg val p = false) ->
  spaced (KEY_CHECKER_INTERVAL hz) ts -> (12 <= length ts)%nat ->
  exists k', settle hz cfg val ts k = Some k' /\ timer_set k' = false /\ code_down (key_status k') = 0 /\ ev k' = HAL_KEY_EVENT_NONE /\
    pwr_armed k' = true /\ forall c, c ∈ cfg -> key_code c <> HAL_KEY_CODE_NONE -> gpio_armed k' !! key_pin c = Some (polarity c).
Proof.
  intros HC Hh Hb HO HR HF HM HV HS HL. destruct (reach_ok hz cfg HC k0 tr k (start_ok cfg HC _ _ _ _ _ _ _ HO) HR HF) as [HB|HN]; [by rewrite (bt_mode _ HB) in HM|].
  destruct (comes_to_rest hz cfg HC val HV ts k Hh Hb HS HL HN) as (k' & E & HN' & HT). exists k'. split; [exact E|]. split; [exact HT|].
  destruct (stopped_rests cfg k' HN' HT) as (HA & HI & HE & HD). split_and!; [exact HD|exact HE|exact HA|].
  intros c Hin Hc. rewrite (armed_entry cfg HC k' c HN' Hin Hc), HI; [done|].
  pose proof (find_pin_entry cfg HC c Hin) as HFd. destruct (find_pin_range cfg HC _ _ HFd). lia.
Qed.

Lemma all_up_table3 p : pin_pressed table3 all_up p = false.
Proof.
  unfold pin_pressed. destruct (hal_gpiokey_find_index table3 p) as [c|] eqn:E; [|done].
  apply find_some in E as [[<-|[<-|[<-|[]]]] _]; done.
Qed.

(** Twelve samples 40 ms apart. *)
Definition dozen : list Z := [3000; 3640; 4280; 4920; 5560; 6200; 6840; 7480; 8120; 8760; 9400; 10040].

Lemma key_comes_to_rest_witness : exists k k', reach 16 table3 (opened open3) held_two k /\ timer_set k = true /\
  settle 16 table3 all_up dozen k = Some k' /\ timer_set k' = false.
Proof.
  exists (after held_two (opened open3)). assert (HR : reach 16 table3 (opened open3) held_two (after held_two (opened open3))).
  { apply run_reach. vm_compute. reflexivity. }
  destruct (key_comes_to_rest 16 table3 false (fun _ => true) 0 false true true (opened open3) held_two (after held_two (opened open3)) all_up dozen table3_ok) as (k' & E & HT & _);
    [reflexivity|discriminate|reflexivity|exact HR| |vm_compute; reflexivity|exact all_up_table3| |apply Nat.le_refl|].
  - unfold held_two, press_two. repeat (apply List.Forall_cons; [done|]). apply List.Forall_nil.
  - vm_compute. repeat split; discriminate.
  - exists k'. split; [exact HR|]. split; [vm_compute; reflexivity|]. split; [exact E|exact HT].
Defined.

(** C18: Clicks are counted: from a status at rest, one to four presses of the same keys, each one
    shorter than a long press and soon enough after the one before, send nothing but, when the time
    of a further click has passed, one event of those keys, CLICK for one press to ULTRACLICK for
    four; a fifth press sends RAMPAGECLICK at its release; and the status is at rest again. *)
Theorem key_clicks_counted hz c ps k : 0 < hz -> is_u 32 c -> c <> 0 -> between c None (key_status k) -> ps <> [] ->
  (Z.of_nat (length ps) <= MAX_KEY_CLICK_COUNT -> all_in_time hz None ps ->
    forall t, elapsed t (last_up ps) (KEY_DOUBLECLICK_THRESHOLD hz) = true ->
    leads hz (concat (samples_of c <$> ps) ++ [(t, 0)]) k (between c None) [(c, HAL_KEY_EVENT_CLICK + (Z.of_nat (length ps) - 1))]) /\
  (Z.of_nat (length ps) = MAX_KEY_CLICK_COUNT -> forall p, all_in_time hz None (ps ++ [p]) ->
    leads hz (concat (samples_of c <$> ps) ++ held_samples c p ++ [(p_up p, 0)]) k (between c None) [(c, HAL_KEY_EVENT_RAMPAGECLICK)]).
Proof.
  intros Hh Hc Hnz HB Hn. split.
  - intros HL HT t HE. by apply clicks_sent.
  - intros HL p HT. by apply fifth_click.
Qed.

(** Two presses of the power key, 100 ms each, 150 ms apart. *)
Definition two_presses : list press := [mkPress 1000 [1640] 2600 [3240]; mkPress 5000 [5640] 6600 [7240]].

Lemma key_clicks_counted_witness : leads 16 (concat (samples_of 1 <$> two_presses) ++ [(13000, 0)]) (set_callback true reset_keys) (between 1 None) [(1, 9)].
Proof.
  refine (proj1 (key_clicks_counted 16 1 two_presses (set_callback true reset_keys) _ _ _ _ _) _ _ 13000 _).
  - reflexivity.
  - split; [discriminate|reflexivity].
  - discriminate.
  - split; [reflexivity|split; reflexivity].
  - discriminate.
  - discriminate.
  - repeat split; repeat (apply List.Forall_cons; [reflexivity|]); apply List.Forall_nil.
  - reflexivity.
Defined.

(** ** Where the code does otherwise than meant *)

(** [n] samples of the power key from [start] on, 40 ms apart. *)
Fixpoint power_samples (n : nat) (start : Z) (down : bool) : list input :=
  match n with O => [] | S n' => Timer_irq start down all_up :: power_samples n' (start + 640) down end.

(** The power key pressed at [start] for 200 ms and released. *)
Definition power_click (start : Z) : list input := Pwr_irq 1 start true :: power_samples 4 (start + 640) true ++ power_samples 1 (start + 3200) false.

(** A click, a long press and, four seconds later, one click. *)
Definition click_long_click : list input :=
  power_click 10000 ++ Pwr_irq 1 14000 true :: power_samples 45 14640 true ++ power_samples 1 43440 false ++
  power_click 107440 ++ power_samples 10 111280 false.

Definition presses_in (l : list (Z * Z)) : list (Z * Z) := List.filter (fun e => e.2 =? HAL_KEY_EVENT_DOWN) l.

(** A click followed by a long press of the same key within the time of a double click is never
    sent, and its count is kept: of three presses the only click sent is a double click, at the
    single press four seconds later. *)
Theorem key_stale_click :
  presses_in (sent (after click_long_click (opened open3))) = [(HAL_KEY_CODE_PWR, HAL_KEY_EVENT_DOWN); (HAL_KEY_CODE_PWR, HAL_KEY_EVENT_DOWN); (HAL_KEY_CODE_PWR, HAL_KEY_EVENT_DOWN)] /\
  clicks_in (sent (after click_long_click (opened open3))) = [(HAL_KEY_CODE_PWR, HAL_KEY_EVENT_CLICK + 1)] /\
  clicks_in (sent (after (power_click 10000 ++ power_samples 10 13840 false) (opened open3))) = [(HAL_KEY_CODE_PWR, HAL_KEY_EVENT_CLICK)].
Proof. vm_compute. repeat split. Qed.
