(* ===== verification/HalDma.v ===== *)
(** The DMA controllers of platform/hal/hal_dma.c: descriptors and control words, the channels handed
    out to the drivers, the start, the cancelling and the interrupt of a channel. The tables are those
    of best1307/hal_dmacfg_best1307.h: two controllers of eight channels. Of the configuration word of
    a channel the enable and interrupt mask bits are kept; peripheral remapping, which no build of this
    chip has, two-dimensional transfers and burst increments are left out. *)
From Stdlib Require Import ZArith Lia Bool.
From stdpp Require Import base option list.
From S2P Require Import Prelude.

(** ** Constants and tables *)
Definition DMA_NUMBER_CHANNELS : nat := 8.
Definition HAL_DMA_INST_QTY : nat := 2.
Definition HAL_DMA_CHAN_NONE : Z := 0xFF.
Definition HAL_DMA_MAX_DESC_XFER_SIZE : Z := 0xFFF.

Inductive HAL_DMA_RET_T := HAL_DMA_OK | HAL_DMA_ERR.
Inductive HAL_DMA_GET_CHAN_T := HAL_DMA_HIGH_PRIO | HAL_DMA_LOW_PRIO | HAL_DMA_LOW_PRIO_ONLY.

#[export] Instance HAL_DMA_RET_T_eq_dec : EqDecision HAL_DMA_RET_T.
Proof. solve_decision. Defined.

Definition HAL_DMA_PERIPH_NULL : Z := 0.
Definition HAL_DMA0_MEM : Z := 1.
Definition HAL_DMA1_MEM : Z := 2.
Definition HAL_DMA2_MEM : Z := 3.
Definition HAL_GPDMA_UART0_TX : Z := 20.
Definition HAL_GPDMA_UART1_TX : Z := 22.

Definition HAL_DMA_FLOW_M2M_DMA : Z := 0.
Definition HAL_DMA_FLOW_M2P_DMA : Z := 1.
Definition HAL_DMA_FLOW_P2M_DMA : Z := 2.
Definition HAL_DMA_FLOW_P2P_DMA : Z := 3.
Definition HAL_DMA_FLOW_P2P_DSTPERIPH : Z := 4.
Definition HAL_DMA_FLOW_M2P_PERIPH : Z := 5.
Definition HAL_DMA_FLOW_P2M_PERIPH : Z := 6.
Definition HAL_DMA_FLOW_P2P_SRCPERIPH : Z := 7.
Definition HAL_DMA_FLOW_FLAG_SI : Z := 0x40.
Definition HAL_DMA_FLOW_FLAG_DI : Z := 0x80.
Definition HAL_DMA_FLOW_FLAG_MASK : Z := 0xC0.

Definition DMA_CONTROL_TRANSFERSIZE (n : Z) : Z := Z.land n 0xFFF.
Definition DMA_CONTROL_SBSIZE (n : Z) : Z := Z.shiftl (Z.land n 7) 12.
Definition DMA_CONTROL_DBSIZE (n : Z) : Z := Z.shiftl (Z.land n 7) 15.
Definition DMA_CONTROL_SWIDTH (n : Z) : Z := Z.shiftl (Z.land n 7) 18.
Definition DMA_CONTROL_DWIDTH (n : Z) : Z := Z.shiftl (Z.land n 7) 21.
Definition DMA_CONTROL_SI : Z := Z.shiftl 1 26.
Definition DMA_CONTROL_DI : Z := Z.shiftl 1 27.
Definition DMA_CONTROL_TC_IRQ : Z := Z.shiftl 1 31.

(** [GET_BITFIELD(ctrl, DMA_CONTROL_TRANSFERSIZE)]. *)
Definition get_transfersize (ctrl : Z) : Z := Z.land ctrl 0xFFF.

(** [DMA_DMACONFIG_CLK_EN(1 << hwch)]. *)
Definition DMA_DMACONFIG_CLK_EN (n : Z) : Z := Z.shiftl (Z.land n 0xFF) 12.

Definition audma_fifo_addr : list Z :=
  [0x4030001C; 0x4030001C; 0x4000E1C0; 0x4000E1C8; 0x4000C000; 0x4000C000; 0; 0;
   0x40007008; 0x40007008; 0x4030003C; 0x4030003C; 0x40150034; 0x40300038; 0x4000B000; 0x4000B000].
Definition audma_fifo_periph : list Z := [50; 51; 52; 53; 21; 22; 67; 68; 15; 16; 69; 78; 71; 64; 19; 20].
Definition gpdma_fifo_addr : list Z := replicate 16 0.
Definition gpdma_fifo_periph : list Z := replicate 16 HAL_DMA_PERIPH_NULL.

Definition fifo_addr : list (list Z) := [audma_fifo_addr; gpdma_fifo_addr].
Definition fifo_periph : list (list Z) := [audma_fifo_periph; gpdma_fifo_periph].
Definition chan_start : list nat := [0; 0]%nat.
Definition chan_num : list nat := [8; 8]%nat.

(** ** Data *)
Record HAL_DMA_CH_CFG_T := mkCfg {
  src_tsize : Z; src_width : Z; dst_width : Z; src_bsize : Z; dst_bsize : Z; type : Z;
  src_periph : Z; dst_periph : Z; src : Z; dst : Z; handler : bool }.

(** The link of a descriptor is a pointer: 0 is NULL, [S k] the descriptor [k] of the memory that
    holds the descriptors. *)
Record HAL_DMA_DESC_T := mkDesc { d_src : Z; d_dst : Z; d_lli : nat; d_ctrl : Z }.

(** The registers of a channel: [en] and [irq_mask] are bits of CONFIG, [tcstat] and [errstat] the
    channel's bits of the status registers of the controller. *)
Record DMA_CH_T := mkCh {
  SRCADDR : Z; DSTADDR : Z; LLI : nat; CONTROL : Z; en : bool; irq_mask : bool; tcstat : bool; errstat : bool }.

Definition reset_ch : DMA_CH_T := mkCh 0 0 0 0 false false false false.

(** The controllers: which channels are handed out, their registers, the DMACONFIG words and what
    [hal_dma_sleep] saved. *)
Record dma := mkDma {
  chan_enabled : list (list bool); CH : list (list DMA_CH_T); DMACONFIG : list Z; saved_dma_regs : list Z; dma_opened : bool }.

(** ** Channel numbers and peripherals *)
Definition generate_chan (inst hwch : Z) : Z := u8 (Z.lor (Z.shiftl inst 4) (Z.land hwch 0xF)).
Definition get_inst_from_chan (ch : Z) : Z := Z.shiftr ch 4.
Definition get_hwch_from_chan (ch : Z) : Z := Z.land ch 0xF.

(** The first place of a peripheral, the first controller before the second. *)
Definition get_index_from_periph (periph : Z) : option (nat * nat) :=
  match list_find (fun l => periph ∈ l) fifo_periph with
  | Some (inst, l) => '(i, _) ← list_find (eq periph) l; Some (inst, i)
  | None => None
  end.

Definition hal_dma_get_periph_addr (periph : Z) : Z :=
  match get_index_from_periph periph with
  | Some (inst, i) => nth i (nth inst fifo_addr []) 0
  | None => 0
  end.

(** ** Descriptors *)
Definition flow (t : Z) : Z := Z.land t (Z.lnot HAL_DMA_FLOW_FLAG_MASK).

(** The address increments of a flow; [None] is the default case of the switch. *)
Definition addr_inc (t : Z) : option Z :=
  let f := flow t in
  base ← (if f =? HAL_DMA_FLOW_M2M_DMA then Some (Z.lor DMA_CONTROL_SI DMA_CONTROL_DI)
          else if (f =? HAL_DMA_FLOW_M2P_DMA) || (f =? HAL_DMA_FLOW_M2P_PERIPH) then Some DMA_CONTROL_SI
          else if (f =? HAL_DMA_FLOW_P2M_DMA) || (f =? HAL_DMA_FLOW_P2M_PERIPH) then Some DMA_CONTROL_DI
          else if (f =? HAL_DMA_FLOW_P2P_DMA) || (f =? HAL_DMA_FLOW_P2P_DSTPERIPH) || (f =? HAL_DMA_FLOW_P2P_SRCPERIPH) then Some 0
          else None);
  let a := if negb (Z.land t HAL_DMA_FLOW_FLAG_SI =? 0) then Z.lor base DMA_CONTROL_SI else base in
  Some (if negb (Z.land t HAL_DMA_FLOW_FLAG_DI =? 0) then Z.lor a DMA_CONTROL_DI else a).

Definition hal_dma_init_control (cfg : HAL_DMA_CH_CFG_T) (tc_irq : bool) : option Z :=
  if src_tsize cfg >? HAL_DMA_MAX_DESC_XFER_SIZE then None
  else
    inc ← addr_inc (type cfg);
    Some (Z.lor (DMA_CONTROL_TRANSFERSIZE (src_tsize cfg))
         (Z.lor (DMA_CONTROL_SBSIZE (src_bsize cfg))
         (Z.lor (DMA_CONTROL_DBSIZE (dst_bsize cfg))
         (Z.lor (DMA_CONTROL_SWIDTH (src_width cfg))
         (Z.lor (DMA_CONTROL_DWIDTH (dst_width cfg))
         (Z.lor (if tc_irq then DMA_CONTROL_TC_IRQ else 0) inc)))))).

Definition src_is_memory (t : Z) : bool :=
  (t =? HAL_DMA_FLOW_M2M_DMA) || (t =? HAL_DMA_FLOW_M2P_DMA) || (t =? HAL_DMA_FLOW_M2P_PERIPH).
Definition dst_is_memory (t : Z) : bool :=
  (t =? HAL_DMA_FLOW_M2M_DMA) || (t =? HAL_DMA_FLOW_P2M_DMA) || (t =? HAL_DMA_FLOW_P2M_PERIPH).

(** On an error the descriptor [desc] stays as it was. *)
Definition hal_dma_init_desc (desc : HAL_DMA_DESC_T) (cfg : HAL_DMA_CH_CFG_T) (next : nat) (tc_irq : bool) : HAL_DMA_RET_T * HAL_DMA_DESC_T :=
  match hal_dma_init_control cfg tc_irq with
  | None => (HAL_DMA_ERR, desc)
  | Some ctrl =>
      let t := flow (type cfg) in
      (HAL_DMA_OK, mkDesc (if src_is_memory t then src cfg else hal_dma_get_periph_addr (src_periph cfg))
                          (if dst_is_memory t then dst cfg else hal_dma_get_periph_addr (dst_periph cfg)) next ctrl)
  end.

(** ** One channel *)

(** The part of [hal_dma_sg_2d_start] on the registers of the channel. *)
Definition start_channel (desc : HAL_DMA_DESC_T) (cfg : HAL_DMA_CH_CFG_T) (c : DMA_CH_T) : HAL_DMA_RET_T * DMA_CH_T :=
  if en c then (HAL_DMA_ERR, c)
  else (HAL_DMA_OK, mkCh (d_src desc) (d_dst desc) (d_lli desc) (d_ctrl desc) true (handler cfg) false false).

Definition cancel_channel (c : DMA_CH_T) : DMA_CH_T :=
  mkCh (SRCADDR c) (DSTADDR c) (LLI c) (CONTROL c) false (irq_mask c) false false.

(** The call of the handler: the bytes left of the descriptor, the error, whether another one follows. *)
Definition handle_channel_irq (c : DMA_CH_T) : option (Z * bool * nat) * DMA_CH_T :=
  if tcstat c || errstat c then
    (if irq_mask c then Some (get_transfersize (CONTROL c), errstat c, LLI c) else None,
     mkCh (SRCADDR c) (DSTADDR c) (LLI c) (CONTROL c) (en c) (irq_mask c) false false)
  else (None, c).

(** The sum over the chain from [p] on, until its end or its first descriptor; [None]: the fuel is out
    or a link leads outside the memory [dm] of the descriptors. *)
Fixpoint chain_size (fuel : nat) (dm : list HAL_DMA_DESC_T) (first p : nat) (acc : Z) : option Z :=
  match p with
  | O => Some acc
  | S k =>
      match fuel with
      | O => None
      | S fuel' =>
          d ← dm !! k;
          let acc' := u32 (acc + get_transfersize (d_ctrl d)) in
          if (d_lli d =? first)%nat then Some acc' else chain_size fuel' dm first (d_lli d) acc'
      end
  end.

Definition sg_remain_size (dm : list HAL_DMA_DESC_T) (c : DMA_CH_T) : option Z :=
  chain_size (length dm) dm (LLI c) (LLI c) (get_transfersize (CONTROL c)).

(** ** The hardware of a channel: it moves one unit from an address, counts it, and at the end of a
    descriptor raises its interrupt and loads the next one or stops. *)
Definition next_descriptor (dm : list HAL_DMA_DESC_T) (c : DMA_CH_T) : option DMA_CH_T :=
  let tc := Z.testbit (CONTROL c) 31 || tcstat c in
  match LLI c with
  | O => Some (mkCh (SRCADDR c) (DSTADDR c) (LLI c) (CONTROL c) false (irq_mask c) tc (errstat c))
  | S k => d ← dm !! k; Some (mkCh (d_src d) (d_dst d) (d_lli d) (d_ctrl d) true (irq_mask c) tc (errstat c))
  end.

Definition move_unit (dm : list HAL_DMA_DESC_T) (c : DMA_CH_T) : option (Z * DMA_CH_T) :=
  if en c && (0 <? get_transfersize (CONTROL c)) then
    let a := SRCADDR c in
    let a' := if Z.testbit (CONTROL c) 26 then u32 (a + 1) else a in
    let c1 := mkCh a' (DSTADDR c) (LLI c) (CONTROL c - 1) (en c) (irq_mask c) (tcstat c) (errstat c) in
    c2 ← (if get_transfersize (CONTROL c1) =? 0 then next_descriptor dm c1 else Some c1);
    Some (a, c2)
  else None.

(** A bus error stops the channel. *)
Definition bus_error (c : DMA_CH_T) : DMA_CH_T :=
  mkCh (SRCADDR c) (DSTADDR c) (LLI c) (CONTROL c) false (irq_mask c) (tcstat c) true.

(** ** The controllers *)
Definition channel (ch : Z) (d : dma) : option DMA_CH_T :=
  l ← CH d !! Z.to_nat (get_inst_from_chan ch); l !! Z.to_nat (get_hwch_from_chan ch).

Definition set_channel (ch : Z) (c : DMA_CH_T) (d : dma) : dma :=
  mkDma (chan_enabled d) (alter (alter (fun _ => c) (Z.to_nat (get_hwch_from_chan ch))) (Z.to_nat (get_inst_from_chan ch)) (CH d))
    (DMACONFIG d) (saved_dma_regs d) (dma_opened d).

Definition is_enabled (ch : Z) (d : dma) : option bool :=
  l ← chan_enabled d !! Z.to_nat (get_inst_from_chan ch); l !! Z.to_nat (get_hwch_from_chan ch).

Definition set_enabled (inst hwch : nat) (b : bool) (d : dma) : dma :=
  mkDma (alter (alter (fun _ => b) hwch) inst (chan_enabled d)) (CH d) (DMACONFIG d) (saved_dma_regs d) (dma_opened d).

Definition set_clock (inst hwch : nat) (b : bool) (d : dma) : dma :=
  let bit := DMA_DMACONFIG_CLK_EN (Z.shiftl 1 (Z.of_nat hwch)) in
  mkDma (chan_enabled d) (CH d) (alter (fun w => if b then Z.lor w bit else Z.land w (Z.lnot bit)) inst (DMACONFIG d))
    (saved_dma_regs d) (dma_opened d).

Definition hal_dma_chan_busy_inst (inst hwch : nat) (d : dma) : bool :=
  match CH d !! inst ≫= (.!! hwch) with Some c => en c | None => false end.

Definition hal_dma_chan_busy (ch : Z) (d : dma) : option bool := c ← channel ch d; Some (en c).

(** The periphery's place is on the controller of the channel, or the assertions fail. *)
Definition periph_on (ch periph : Z) : option unit :=
  '(inst, _) ← get_index_from_periph periph;
  guard (Z.of_nat inst = get_inst_from_chan ch);; Some tt.

Definition hal_dma_sg_start (desc : HAL_DMA_DESC_T) (cfg : HAL_DMA_CH_CFG_T) (ch : Z) (d : dma) : option (HAL_DMA_RET_T * dma) :=
  c ← channel ch d; e ← is_enabled ch d;
  let t := flow (type cfg) in
  _ ← (if src_is_memory t then Some tt else periph_on ch (src_periph cfg));
  _ ← (if dst_is_memory t then Some tt else periph_on ch (dst_periph cfg));
  if negb e then Some (HAL_DMA_ERR, d)
  else let '(r, c') := start_channel desc cfg c in Some (r, set_channel ch c' d).

Definition hal_dma_start (cfg : HAL_DMA_CH_CFG_T) (ch : Z) (d : dma) : option (HAL_DMA_RET_T * dma) :=
  match hal_dma_init_desc (mkDesc 0 0 0 0) cfg 0 true with
  | (HAL_DMA_ERR, _) => Some (HAL_DMA_ERR, d)
  | (HAL_DMA_OK, desc) => hal_dma_sg_start desc cfg ch d
  end.

Definition hal_dma_cancel (ch : Z) (d : dma) : option dma := c ← channel ch d; Some (set_channel ch (cancel_channel c) d).

Definition hal_dma_irq_run_chan (ch : Z) (d : dma) : option (HAL_DMA_RET_T * option (Z * bool * nat) * dma) :=
  c ← channel ch d;
  if negb (tcstat c || errstat c) then Some (HAL_DMA_ERR, None, d)
  else let '(call, c') := handle_channel_irq c in Some (HAL_DMA_OK, call, set_channel ch c' d).

Definition hal_dma_get_sg_remain_size (dm : list HAL_DMA_DESC_T) (ch : Z) (d : dma) : option Z :=
  c ← channel ch d; sg_remain_size dm c.

Definition hal_dma_get_cur_src_addr (ch : Z) (d : dma) : option Z := c ← channel ch d; Some (SRCADDR c).
Definition hal_dma_get_cur_dst_addr (ch : Z) (d : dma) : option Z := c ← channel ch d; Some (DSTADDR c).

(** The controller of a peripheral; [None]: the assertion fails. *)
Definition inst_of_periph (periph : Z) : option nat :=
  if (HAL_DMA0_MEM <=? periph) && (periph <=? HAL_DMA2_MEM) then
    Some (if periph =? HAL_DMA1_MEM then 1%nat else 0%nat)
  else '(inst, _) ← get_index_from_periph periph; Some inst.

(** The channel of the [i]-th turn of the loop; [None]: the loop breaks. *)
Definition candidate (policy : HAL_DMA_GET_CHAN_T) (finish i : nat) : option nat :=
  match policy with
  | HAL_DMA_HIGH_PRIO => Some i
  | HAL_DMA_LOW_PRIO => Some (finish - 1 - i)%nat
  | HAL_DMA_LOW_PRIO_ONLY => let hwch := (finish - 1 - i)%nat in if (hwch + 2 <? finish)%nat then None else Some hwch
  end.

Fixpoint get_chan_loop (policy : HAL_DMA_GET_CHAN_T) (inst finish i n : nat) (d : dma) : option nat :=
  match n with
  | O => None
  | S n' =>
      hwch ← candidate policy finish i;
      if negb (default true (chan_enabled d !! inst ≫= (.!! hwch))) && negb (hal_dma_chan_busy_inst inst hwch d)
      then Some hwch else get_chan_loop policy inst finish (S i) n' d
  end.

Definition hal_dma_get_chan (periph : Z) (policy : HAL_DMA_GET_CHAN_T) (d : dma) : option (Z * dma) :=
  if periph =? HAL_DMA_PERIPH_NULL then Some (HAL_DMA_CHAN_NONE, d)
  else
    inst ← inst_of_periph periph; start ← chan_start !! inst; num ← chan_num !! inst;
    Some (match get_chan_loop policy inst (start + num) start num d with
          | Some hwch => (generate_chan (Z.of_nat inst) (Z.of_nat hwch), set_clock inst hwch true (set_enabled inst hwch true d))
          | None => (HAL_DMA_CHAN_NONE, d)
          end).

Definition hal_dma_free_chan (ch : Z) (d : dma) : option dma :=
  e ← is_enabled ch d;
  if (e : bool) then
    d1 ← hal_dma_cancel ch d;
    let inst := Z.to_nat (get_inst_from_chan ch) in
    let hwch := Z.to_nat (get_hwch_from_chan ch) in
    Some (set_clock inst hwch false (set_enabled inst hwch false d1))
  else None.

Definition hal_dma_busy (d : dma) : bool :=
  existsb (fun inst => existsb (fun hwch => hal_dma_chan_busy_inst inst hwch d)
    (seq (nth inst chan_start 0%nat) (nth inst chan_num 0%nat))) (seq 0 HAL_DMA_INST_QTY).

(** [DMA_DMACONFIG_CLK_EN_MASK] cleared, the controller enabled; the other bits are constant. *)
Definition open_config (w : Z) : Z :=
  Z.lor (Z.land w (Z.lnot (Z.lor 0x6 (Z.lor 0xFF000 (Z.shiftl 1 31))))) (Z.lor 0x1 0x8).

Definition hal_dma_open_inst (inst : nat) (d : dma) : dma :=
  mkDma (alter (fun _ => replicate DMA_NUMBER_CHANNELS false) inst (chan_enabled d))
    (alter (fmap (fun c => mkCh (SRCADDR c) (DSTADDR c) (LLI c) (CONTROL c) false false false false)) inst (CH d))
    (alter open_config inst (DMACONFIG d)) (saved_dma_regs d) (dma_opened d).

Definition set_opened (b : bool) (d : dma) : dma := mkDma (chan_enabled d) (CH d) (DMACONFIG d) (saved_dma_regs d) b.

Definition hal_dma_open (d : dma) : dma :=
  if dma_opened d then d else set_opened true (fold_left (fun d inst => hal_dma_open_inst inst d) (seq 0 HAL_DMA_INST_QTY) d).

Definition hal_dma_close (d : dma) : dma :=
  if dma_opened d then mkDma (chan_enabled d) (CH d) ((fun _ : Z => 0) <$> DMACONFIG d) (saved_dma_regs d) false else d.

Definition hal_dma_sleep (d : dma) : dma := mkDma (chan_enabled d) (CH d) (DMACONFIG d) (DMACONFIG d) (dma_opened d).
Definition hal_dma_wakeup (d : dma) : dma := mkDma (chan_enabled d) (CH d) (saved_dma_regs d) (saved_dma_regs d) (dma_opened d).

(** Before the first call. *)
Definition reset_dma : dma :=
  mkDma (replicate HAL_DMA_INST_QTY (replicate DMA_NUMBER_CHANNELS false))
    (replicate HAL_DMA_INST_QTY (replicate DMA_NUMBER_CHANNELS reset_ch)) (replicate HAL_DMA_INST_QTY 0) (replicate HAL_DMA_INST_QTY 0) false.
