(* ===== verification/HalDmaLaws.v ===== *)
(** The lemmas on the DMA controllers: the fields of a control word, what a channel carries and how it
    moves it, the size left of a chain, and the channels handed out. *)
From Stdlib Require Import ZArith Lia Bool.
From stdpp Require Import base option list.
From S2P Require Import Prelude HalDma.

(** ** Control words *)
Lemma land_fff w : Z.land w 0xFFF = w mod 4096.
Proof. change 0xFFF with (Z.ones 12). by rewrite Z.land_ones by lia. Qed.

Lemma size_range w : 0 <= get_transfersize w < 4096.
Proof. unfold get_transfersize. rewrite land_fff. apply Z.mod_pos_bound. lia. Qed.

Lemma testbit_high w i : 12 <= i -> Z.testbit w i = Z.testbit (w / 4096) (i - 12).
Proof. intros Hi. change 4096 with (2 ^ 12). rewrite Z.div_pow2_bits by lia. f_equal. lia. Qed.

(** A unit counted: the size goes down and the other fields stay. *)
Lemma control_pred w : 0 < get_transfersize w ->
  get_transfersize (w - 1) = get_transfersize w - 1 /\ forall i, 12 <= i -> Z.testbit (w - 1) i = Z.testbit w i.
Proof.
  unfold get_transfersize. rewrite !land_fff. intros H. pose proof (Z.div_mod w 4096 ltac:(lia)) as HW.
  pose proof (Z.mod_pos_bound w 4096 ltac:(lia)) as HB.
  assert (HD : (w - 1) / 4096 = w / 4096) by (symmetry; apply Z.div_unique with (w mod 4096 - 1); lia).
  assert (HM : (w - 1) mod 4096 = w mod 4096 - 1) by (symmetry; apply Z.mod_unique with (w / 4096); lia).
  split; [done|]. intros i Hi. by rewrite !(testbit_high _ i Hi), HD.
Qed.

Lemma field_low x k i : 0 <= i < k -> Z.testbit (Z.shiftl x k) i = false.
Proof. intros. rewrite Z.shiftl_spec by lia. apply Z.testbit_neg_r. lia. Qed.

Lemma field_high x k i : 0 <= k -> k + 3 <= i -> Z.testbit (Z.shiftl (Z.land x 7) k) i = false.
Proof.
  intros Hk Hi. rewrite Z.shiftl_spec by lia. rewrite Z.land_spec. replace (Z.testbit 7 (i - k)) with false; [by rewrite andb_false_r|].
  symmetry. apply (Z.bits_above_log2 7); [lia|]. change (Z.log2 7) with 2. lia.
Qed.

Lemma size_high n i : 12 <= i -> Z.testbit (DMA_CONTROL_TRANSFERSIZE n) i = false.
Proof.
  intros Hi. unfold DMA_CONTROL_TRANSFERSIZE. rewrite Z.land_spec. replace (Z.testbit 0xFFF i) with false; [by rewrite andb_false_r|].
  symmetry. apply (Z.bits_above_log2 0xFFF); [lia|]. change (Z.log2 0xFFF) with 11. lia.
Qed.

Lemma one_bit k i : 0 <= k -> 0 <= i -> Z.testbit (Z.shiftl 1 k) i = (i =? k).
Proof.
  intros Hk Hi. rewrite Z.shiftl_1_l. destruct (Z.eqb_spec i k) as [-> | Hn]; [by apply Z.pow2_bits_true|].
  rewrite Z.pow2_bits_false; [done|lia].
Qed.

(** The increments of a flow are bits 26 and 27. *)
Lemma addr_inc_bits t a i : addr_inc t = Some a -> 0 <= i -> i <> 26 -> i <> 27 -> Z.testbit a i = false.
Proof.
  intros HA Hi H6 H7. unfold addr_inc in HA.
  assert (HSI : Z.testbit DMA_CONTROL_SI i = false) by (unfold DMA_CONTROL_SI; rewrite one_bit by lia; by apply Z.eqb_neq).
  assert (HDI : Z.testbit DMA_CONTROL_DI i = false) by (unfold DMA_CONTROL_DI; rewrite one_bit by lia; by apply Z.eqb_neq).
  apply bind_Some in HA as (base & HB & HA).
  assert (HZ : Z.testbit base i = false).
  { repeat case_match; simplify_eq; rewrite ?Z.lor_spec, ?HSI, ?HDI, ?Z.bits_0; done. }
  clear HB. repeat case_match; simplify_eq; rewrite ?Z.lor_spec, ?HZ, ?HSI, ?HDI; done.
Qed.

Lemma land_lor_0 a b m : Z.land b m = 0 -> Z.land (Z.lor a b) m = Z.land a m.
Proof. intros H. rewrite Z.land_lor_distr_l, H. apply Z.lor_0_r. Qed.

Lemma low_bits_0 x : (forall i, 0 <= i < 12 -> Z.testbit x i = false) -> Z.land x 0xFFF = 0.
Proof.
  intros H. apply Z.bits_inj'. intros i Hi. rewrite Z.land_spec, Z.bits_0. destruct (decide (i < 12)).
  - by rewrite H by lia.
  - change 0xFFF with (Z.ones 12). by rewrite (Z.ones_spec_high 12 i), andb_false_r by lia.
Qed.

(** The control word of a configuration: its size, its interrupt bit and its increments. *)
Lemma init_control_spec cfg tc a : 0 <= src_tsize cfg <= HAL_DMA_MAX_DESC_XFER_SIZE -> addr_inc (type cfg) = Some a ->
  exists w, hal_dma_init_control cfg tc = Some w /\ get_transfersize w = src_tsize cfg /\ Z.testbit w 31 = tc /\
    Z.testbit w 26 = Z.testbit a 26 /\ Z.testbit w 27 = Z.testbit a 27.
Proof.
  intros HS HA. unfold hal_dma_init_control. unfold HAL_DMA_MAX_DESC_XFER_SIZE in *. rewrite Z.gtb_ltb, (proj2 (Z.ltb_ge _ _)) by lia.
  rewrite HA. eexists. split; [reflexivity|].
  pose proof (addr_inc_bits _ _ 31 HA ltac:(lia) ltac:(lia) ltac:(lia)) as H31.
  assert (HTC : forall i, 0 <= i -> Z.testbit (if tc then DMA_CONTROL_TC_IRQ else 0) i = tc && (i =? 31)).
  { intros i Hi. destruct tc; [by apply one_bit|by rewrite Z.bits_0]. }
  split; [|rewrite !Z.lor_spec, !(size_high _ _) by lia; unfold DMA_CONTROL_SBSIZE, DMA_CONTROL_DBSIZE, DMA_CONTROL_SWIDTH, DMA_CONTROL_DWIDTH;
    rewrite !field_high, !HTC, ?H31 by lia; simpl; rewrite ?andb_false_r, ?andb_true_r, ?orb_false_r; done].
  unfold get_transfersize. rewrite !land_lor_0; [| apply low_bits_0; intros i Hi ..].
  - unfold DMA_CONTROL_TRANSFERSIZE. rewrite <- Z.land_assoc. change (Z.land 4095 4095) with 4095. rewrite land_fff. apply Z.mod_small. lia.
  - unfold DMA_CONTROL_SBSIZE, DMA_CONTROL_DBSIZE, DMA_CONTROL_SWIDTH, DMA_CONTROL_DWIDTH.
    rewrite !Z.lor_spec, !field_low, HTC, (addr_inc_bits _ _ i HA) by lia. simpl. rewrite orb_false_r. apply andb_false_iff. right. apply Z.eqb_neq. lia.
Qed.

(** ** What a channel carries *)
Definition span (a n : Z) : list Z := (fun i => a + Z.of_nat i) <$> seq 0 (Z.to_nat n).

Lemma span_cons a n : 0 < n -> span a n = a :: span (a + 1) (n - 1).
Proof.
  intros H. unfold span. replace (Z.to_nat n) with (S (Z.to_nat (n - 1))) by lia. cbn [seq fmap list_fmap].
  f_equal; [lia|]. rewrite <- seq_shift, <- list_fmap_compose. apply list_fmap_ext. intros i x _. simpl. lia.
Qed.

Lemma span_0 a : span a 0 = [].
Proof. done. Qed.

Lemma length_span a n : 0 <= n -> Z.of_nat (length (span a n)) = n.
Proof. intros H. unfold span. rewrite length_fmap, length_seq. lia. Qed.

(** The descriptors a link leads through, by their places in the memory [dm]. *)
Fixpoint path (dm : list HAL_DMA_DESC_T) (p : nat) (ks : list nat) : Prop :=
  match ks with
  | [] => p = 0%nat
  | k :: ks' => p = S k /\ exists d, dm !! k = Some d /\ path dm (d_lli d) ks'
  end.

Definition size_at (dm : list HAL_DMA_DESC_T) (k : nat) : Z := from_option (fun d => get_transfersize (d_ctrl d)) 0 (dm !! k).
Definition span_at (dm : list HAL_DMA_DESC_T) (k : nat) : list Z :=
  from_option (fun d => span (d_src d) (get_transfersize (d_ctrl d))) [] (dm !! k).
Definition total (l : list Z) : Z := foldr Z.add 0 l.

(** A word that moves units from increasing addresses, the last of a chain with its interrupt. *)
Definition good_word (a w : Z) (last : bool) : Prop :=
  0 < get_transfersize w /\ Z.testbit w 26 = true /\ Z.testbit w 31 = last /\ 0 <= a /\ a + get_transfersize w <= 2 ^ 32.

Definition is_nil {X} (l : list X) : bool := match l with [] => true | _ => false end.

Fixpoint good_chain (dm : list HAL_DMA_DESC_T) (ks : list nat) : Prop :=
  match ks with
  | [] => True
  | k :: ks' => (exists d, dm !! k = Some d /\ good_word (d_src d) (d_ctrl d) (is_nil ks')) /\ good_chain dm ks'
  end.

Record carries (dm : list HAL_DMA_DESC_T) (c : DMA_CH_T) (ks : list nat) : Prop := {
  ca_en : en c = true;
  ca_tc : tcstat c = false;
  ca_err : errstat c = false;
  ca_word : good_word (SRCADDR c) (CONTROL c) (is_nil ks);
  ca_path : path dm (LLI c) ks;
  ca_chain : good_chain dm ks }.

(** The addresses still to be read, in order. *)
Definition chain_load (dm : list HAL_DMA_DESC_T) (c : DMA_CH_T) (ks : list nat) : list Z :=
  span (SRCADDR c) (get_transfersize (CONTROL c)) ++ concat (span_at dm <$> ks).

Definition left_size (dm : list HAL_DMA_DESC_T) (c : DMA_CH_T) (ks : list nat) : Z :=
  get_transfersize (CONTROL c) + total (size_at dm <$> ks).

Definition at_rest (c : DMA_CH_T) : Prop := en c = false /\ tcstat c = true /\ errstat c = false /\ LLI c = 0%nat /\ get_transfersize (CONTROL c) = 0.

Lemma total_cons dm k ks : total (size_at dm <$> k :: ks) = size_at dm k + total (size_at dm <$> ks).
Proof. done. Qed.

Lemma total_nonneg dm ks : 0 <= total (size_at dm <$> ks).
Proof.
  induction ks as [|k ks IH]; [done|]. rewrite total_cons. enough (0 <= size_at dm k) by lia. unfold size_at.
  destruct (dm !! k) as [d|]; simpl; [apply size_range|lia].
Qed.

Lemma good_sizes dm ks : good_chain dm ks -> Forall (fun k => 0 < size_at dm k) ks.
Proof.
  induction ks as [|k ks IH]; [intros _; constructor|]. intros [(d & HD & HW & _) HG]. apply List.Forall_cons; [|by apply IH].
  unfold size_at. by rewrite HD.
Qed.

Lemma length_load dm c ks : Z.of_nat (length (chain_load dm c ks)) = left_size dm c ks.
Proof.
  unfold chain_load, left_size. rewrite length_app, Nat2Z.inj_add, length_span by apply size_range. f_equal.
  induction ks as [|k ks IH]; [done|]. rewrite total_cons. cbn [fmap list_fmap concat]. rewrite length_app, Nat2Z.inj_add.
  change (list_fmap _ _ (span_at dm) ks) with (span_at dm <$> ks). rewrite IH. f_equal.
  unfold span_at, size_at. destruct (dm !! k) as [d|]; simpl; [apply length_span, size_range|done].
Qed.

(** A unit moved: the first address, and the rest stays to be moved or the channel rests. *)
Lemma move_carries dm c ks : carries dm c ks ->
  exists c', move_unit dm c = Some (SRCADDR c, c') /\ irq_mask c' = irq_mask c /\
    ((exists ks', carries dm c' ks' /\ chain_load dm c ks = SRCADDR c :: chain_load dm c' ks' /\
       (ks' = ks \/ get_transfersize (CONTROL c) = 1 /\ exists k, ks = k :: ks')) \/
     (at_rest c' /\ chain_load dm c ks = [SRCADDR c])).
Proof.
  intros [HE HT HR (HS & H26 & H31 & HA & HL) HP HG]. unfold move_unit. rewrite HE, (proj2 (Z.ltb_lt _ _) HS), H26. cbn [andb CONTROL].
  destruct (control_pred _ HS) as [HS' HB].
  assert (HLD : chain_load dm c ks = SRCADDR c :: span (SRCADDR c + 1) (get_transfersize (CONTROL c) - 1) ++ concat (span_at dm <$> ks)).
  { unfold chain_load. rewrite (span_cons _ _ HS). done. }
  destruct (Z.eqb_spec (get_transfersize (CONTROL c - 1)) 0) as [HZ|HNZ].
  - assert (H1 : get_transfersize (CONTROL c) - 1 = 0) by lia. rewrite H1, span_0 in HLD. unfold next_descriptor. cbn [CONTROL LLI tcstat SRCADDR DSTADDR irq_mask errstat en].
    rewrite (HB 31), H31, HT by lia. destruct ks as [|k ks].
    + simpl in HP. rewrite HP. eexists. split; [reflexivity|]. split; [done|]. right. split; [|done]. by repeat split.
    + destruct HP as [-> (d & HD & HP)]. destruct HG as [(d' & HD' & HW) HG]. rewrite HD in HD'. injection HD' as <-.
      rewrite HD. eexists. split; [reflexivity|]. split; [done|]. left. exists ks. split; [by split|]. split; [|right; split; [lia|by exists k]].
      rewrite HLD. f_equal. unfold chain_load. cbn [fmap list_fmap concat]. unfold span_at at 1. by rewrite HD.
  - eexists. split; [reflexivity|]. split; [done|]. left. exists ks. pose proof (size_range (CONTROL c)).
    assert (HU : u32 (SRCADDR c + 1) = SRCADDR c + 1) by (apply u32_small; lia). split; [|split; [|by left]].
    + split; try done. cbn. rewrite HU. unfold good_word. rewrite HS', !HB, H26, H31 by lia. split_and!; try done; lia.
    + rewrite HLD. unfold chain_load. cbn. by rewrite HU, HS'.
Qed.

(** ** The size left *)
Lemma path_det dm p ks1 ks2 : path dm p ks1 -> path dm p ks2 -> ks1 = ks2.
Proof.
  revert p ks2. induction ks1 as [|k ks1 IH]; intros p [|k2 ks2]; simpl; [done|intros -> []; done|intros [-> _] ?; done|].
  intros [-> (d & HD & HP)] [[= <-] (d2 & HD2 & HP2)]. rewrite HD in HD2. injection HD2 as <-. f_equal. by eapply IH.
Qed.

Lemma path_suffix dm p l k ks : path dm p (l ++ k :: ks) -> path dm (S k) (k :: ks).
Proof. revert p. induction l as [|k' l IH]; intros p; [by intros [-> H]|]. intros [_ (d & _ & HP)]. by eapply IH. Qed.

Lemma path_NoDup dm p ks : path dm p ks -> NoDup ks.
Proof.
  revert p. induction ks as [|k ks IH]; intros p; [constructor|]. intros HP. pose proof HP as [-> (d & HD & HT)].
  constructor; [|by eapply IH]. intros (l1 & l2 & ->)%list_elem_of_split. pose proof (path_suffix dm _ (k :: l1) k l2 HP) as HS.
  pose proof (path_det dm _ _ _ HP HS) as HE. apply (f_equal length) in HE. simpl in HE. rewrite length_app in HE. simpl in HE. lia.
Qed.

Lemma path_length dm p ks : path dm p ks -> (length ks <= length dm)%nat.
Proof.
  intros HP. pose proof (path_NoDup dm p ks HP) as HN. rewrite <- (length_seq (length dm) 0).
  apply NoDup_incl_length; [by apply NoDup_ListNoDup|]. intros k Hk. apply in_seq. split; [lia|]. simpl.
  clear HN. revert p HP. induction ks as [|k' ks IH]; intros p; [done|]. intros [-> (d & HD & HT)].
  destruct Hk as [->|Hk]; [by eapply lookup_lt_Some|by eapply IH].
Qed.

Lemma chain_size_path dm first fuel ks : forall p acc, path dm p ks -> (length ks <= fuel)%nat -> first <> 0%nat ->
  first ∉ S <$> tail ks -> 0 <= acc -> acc + total (size_at dm <$> ks) < 2 ^ 32 ->
  chain_size fuel dm first p acc = Some (acc + total (size_at dm <$> ks)).
Proof.
  revert fuel. induction ks as [|k ks IH]; intros fuel p acc HP HF HN HI HA HB.
  - simpl in HP. subst p. destruct fuel; simpl; by rewrite Z.add_0_r.
  - destruct HP as [-> (d & HD & HP)]. simpl in HF. destruct fuel as [|fuel]; [lia|]. cbn [chain_size]. rewrite HD. cbn [mbind option_bind].
    rewrite total_cons in HB |- *.
    assert (HS : size_at dm k = get_transfersize (d_ctrl d)) by (unfold size_at; by rewrite HD).
    pose proof (total_nonneg dm ks). pose proof (size_range (d_ctrl d)). rewrite HS in HB |- *.
    rewrite u32_small by lia. destruct (Nat.eqb_spec (d_lli d) first) as [HE|HE].
    + destruct ks as [|k' ks]; [simpl in HP; congruence|]. destruct HP as [HP _]. exfalso. apply HI. rewrite <- HE, HP. left.
    + rewrite (IH fuel _ _ HP); [f_equal; lia|lia|done| |lia|lia]. intros HI'. apply HI. destruct ks; [done|]. by right.
Qed.

Lemma sg_remain_spec dm c ks : path dm (LLI c) ks -> Z.of_nat (length dm) < 2 ^ 19 ->
  sg_remain_size dm c = Some (left_size dm c ks).
Proof.
  intros HP HL. unfold sg_remain_size, left_size. pose proof (path_length _ _ _ HP) as HK. pose proof (size_range (CONTROL c)).
  assert (HT : total (size_at dm <$> ks) <= 4096 * Z.of_nat (length ks)).
  { clear. induction ks as [|k ks IH]; [done|]. rewrite total_cons. cbn [length].
    enough (size_at dm k <= 4096) by lia. unfold size_at. destruct (dm !! k) as [d|]; simpl; [|lia]. pose proof (size_range (d_ctrl d)). lia. }
  destruct ks as [|k ks].
  - simpl in HP. rewrite HP. destruct (length dm); simpl; by rewrite Z.add_0_r.
  - apply chain_size_path; [done|done| | |lia|lia].
    + destruct HP as [-> _]. done.
    + pose proof (path_NoDup _ _ _ HP) as HN. destruct HP as [-> _]. simpl. intros (k' & HE & Hk)%list_elem_of_fmap_1. injection HE as <-.
      by apply NoDup_cons in HN as [? _].
Qed.

(** ** Units moved one after the other *)
Fixpoint drain (n : nat) (dm : list HAL_DMA_DESC_T) (c : DMA_CH_T) : option (list Z * DMA_CH_T) :=
  match n with
  | O => Some ([], c)
  | S n' => '(a, c1) ← move_unit dm c; '(l, c2) ← drain n' dm c1; Some (a :: l, c2)
  end.

Lemma drain_carries dm n : forall c ks, carries dm c ks -> (n <= length (chain_load dm c ks))%nat ->
  exists c', drain n dm c = Some (take n (chain_load dm c ks), c') /\
    ((n < length (chain_load dm c ks))%nat -> exists ks', carries dm c' ks' /\ chain_load dm c' ks' = drop n (chain_load dm c ks)) /\
    (n = length (chain_load dm c ks) -> at_rest c') /\ irq_mask c' = irq_mask c.
Proof.
  induction n as [|n IH]; intros c ks HC HL.
  - exists c. split; [done|]. split; [intros _; by exists ks|]. split; [|done]. intros H.
    pose proof (length_load dm c ks) as HLL. rewrite <- H in HLL. destruct (ca_word _ _ _ HC) as [HS _]. pose proof (total_nonneg dm ks).
    unfold left_size in HLL. lia.
  - destruct (move_carries dm c ks HC) as (c1 & E & HM & [(ks1 & HC1 & HLD & _)|[HR HLD]]).
    + cbn [drain]. rewrite E, HLD in *. cbn [mbind option_bind]. simpl in HL. destruct (IH c1 ks1 HC1 ltac:(lia)) as (c2 & E2 & H1 & H2 & H3).
      rewrite E2. exists c2. split; [done|]. split; [intros H; simpl in H; apply H1; lia|]. split; [|congruence]. intros H. simpl in H. apply H2. lia.
    + cbn [drain]. rewrite E, HLD in *. simpl in HL. assert (n = 0%nat) as -> by lia. exists c1. cbn. split; [done|].
      split; [lia|]. by split.
Qed.

(** ** The channels handed out *)
Definition free_idle (d : dma) (inst hwch : nat) : bool :=
  negb (default true (chan_enabled d !! inst ≫= (.!! hwch))) && negb (hal_dma_chan_busy_inst inst hwch d).

Definition order (policy : HAL_DMA_GET_CHAN_T) : list nat :=
  match policy with
  | HAL_DMA_HIGH_PRIO => [0; 1; 2; 3; 4; 5; 6; 7]%nat
  | HAL_DMA_LOW_PRIO => [7; 6; 5; 4; 3; 2; 1; 0]%nat
  | HAL_DMA_LOW_PRIO_ONLY => [7; 6]%nat
  end.

Lemma get_chan_loop_find policy inst d : get_chan_loop policy inst 8 0 8 d = List.find (free_idle d inst) (order policy).
Proof. by destruct policy. Qed.

Lemma order_lt policy h : In h (order policy) -> (h < 8)%nat.
Proof. intros H. apply (proj1 (List.Forall_forall (fun h => h < 8)%nat (order policy))); [|done]. destruct policy; repeat constructor. Qed.

Lemma inst_lt periph inst : inst_of_periph periph = Some inst -> (inst < 2)%nat.
Proof.
  unfold inst_of_periph. case_match; [case_match; intros [= <-]; lia|].
  intros ([i k] & HG & [= <-])%bind_Some. unfold get_index_from_periph in HG.
  destruct (list_find (fun l => periph ∈ l) fifo_periph) as [[i' l]|] eqn:HF; [|done].
  apply bind_Some in HG as ([j y] & _ & [= <- <-]). apply list_find_Some in HF as (HF & _). by apply lookup_lt_Some in HF.
Qed.

Lemma get_chan_inst periph policy d inst : periph <> HAL_DMA_PERIPH_NULL -> inst_of_periph periph = Some inst ->
  hal_dma_get_chan periph policy d =
  Some (match List.find (free_idle d inst) (order policy) with
        | Some h => (generate_chan (Z.of_nat inst) (Z.of_nat h), set_clock inst h true (set_enabled inst h true d))
        | None => (HAL_DMA_CHAN_NONE, d)
        end).
Proof.
  intros HP HI. unfold hal_dma_get_chan. rewrite (proj2 (Z.eqb_neq _ _) HP), HI. cbn [mbind option_bind].
  pose proof (inst_lt _ _ HI) as HL. rewrite <- get_chan_loop_find.
  assert (HS : chan_start !! inst = Some 0%nat) by (destruct inst as [|[|?]]; [done|done|lia]).
  assert (HN : chan_num !! inst = Some 8%nat) by (destruct inst as [|[|?]]; [done|done|lia]).
  by rewrite HS, HN.
Qed.

(** Channel numbers. *)
Lemma generate_chan_eq (inst h : nat) : (inst < 2)%nat -> (h < 8)%nat -> generate_chan (Z.of_nat inst) (Z.of_nat h) = 16 * Z.of_nat inst + Z.of_nat h.
Proof.
  intros Hi Hh. do 2 (destruct inst as [|inst]; [do 8 (destruct h as [|h]; [reflexivity|]); lia|]). lia.
Qed.

Lemma chan_parts (inst h : nat) : (inst < 2)%nat -> (h < 8)%nat -> let ch := generate_chan (Z.of_nat inst) (Z.of_nat h) in
  Z.to_nat (get_inst_from_chan ch) = inst /\ Z.to_nat (get_hwch_from_chan ch) = h /\ ch <> HAL_DMA_CHAN_NONE.
Proof.
  intros Hi Hh. do 2 (destruct inst as [|inst]; [do 8 (destruct h as [|h]; [by vm_compute|]); lia|]). lia.
Qed.

Definition shape {X} (l : list (list X)) : Prop := length l = 2%nat /\ Forall (fun r => length r = 8%nat) l.

Lemma shape_lookup {X} (l : list (list X)) i h : shape l -> (i < 2)%nat -> (h < 8)%nat -> exists r x, l !! i = Some r /\ r !! h = Some x.
Proof.
  intros [HL HF] Hi Hh. destruct (lookup_lt_is_Some_2 l i) as [r Hr]; [lia|]. pose proof (proj1 (Forall_lookup _ _) HF _ _ Hr) as HN.
  destruct (lookup_lt_is_Some_2 r h) as [x Hx]; [simpl in HN; lia|]. by exists r, x.
Qed.

Lemma shape_alter {X} (l : list (list X)) i f : shape l -> (forall r, length (f r) = length r) -> shape (alter f i l).
Proof.
  intros [HL HF] HN. split; [by rewrite length_alter|]. apply Forall_alter; [done|]. intros r _ H. by rewrite HN.
Qed.

(** The table of the channels handed out and their clocks. *)
Definition enabled_at (d : dma) (i h : nat) : bool := default false (chan_enabled d !! i ≫= (.!! h)).
Definition clock_at (d : dma) (i h : nat) : bool := Z.testbit (nth i (DMACONFIG d) 0) (12 + Z.of_nat h).

Record dma_ok (d : dma) : Prop := {
  ok_enabled : shape (chan_enabled d);
  ok_CH : shape (CH d);
  ok_config : length (DMACONFIG d) = 2%nat;
  ok_clock i h : (i < 2)%nat -> (h < 8)%nat -> clock_at d i h = enabled_at d i h }.

Lemma enabled_set d i h b i' h' : shape (chan_enabled d) -> (i < 2)%nat -> (h < 8)%nat ->
  enabled_at (set_enabled i h b d) i' h' = if decide (i' = i /\ h' = h) then b else enabled_at d i' h'.
Proof.
  intros HS Hi Hh. unfold enabled_at, set_enabled. cbn [chan_enabled]. destruct (shape_lookup _ _ _ HS Hi Hh) as (r & x & Hr & Hx).
  destruct (decide (i' = i)) as [->|Hn].
  - rewrite list_lookup_alter_eq, Hr. cbn. destruct (decide (h' = h)) as [->|Hn].
    + by rewrite list_lookup_alter_eq, Hx, decide_True.
    + rewrite list_lookup_alter_ne by done. by rewrite decide_False by (by intros []).
  - rewrite list_lookup_alter_ne by done. by rewrite decide_False by (by intros []).
Qed.

Lemma clock_bit (h h' : nat) : (h < 8)%nat -> (h' < 8)%nat ->
  Z.testbit (DMA_DMACONFIG_CLK_EN (Z.shiftl 1 (Z.of_nat h))) (12 + Z.of_nat h') = bool_decide (h' = h).
Proof. intros Hh Hh'. do 8 (destruct h as [|h]; [do 8 (destruct h' as [|h']; [reflexivity|]); lia|]). lia. Qed.

Lemma clock_set d i h b i' h' : length (DMACONFIG d) = 2%nat -> (i < 2)%nat -> (h < 8)%nat -> (h' < 8)%nat ->
  clock_at (set_clock i h b d) i' h' = if decide (i' = i /\ h' = h) then b else clock_at d i' h'.
Proof.
  intros HL Hi Hh Hh'. unfold clock_at, set_clock. cbn [DMACONFIG]. set (bit := DMA_DMACONFIG_CLK_EN _).
  rewrite !nth_lookup. destruct (decide (i' = i)) as [->|Hn].
  - destruct (lookup_lt_is_Some_2 (DMACONFIG d) i) as [w Hw]; [lia|]. rewrite list_lookup_alter_eq, Hw. cbn [fmap option_fmap option_map default]. unfold id.
    assert (HB : Z.testbit bit (12 + Z.of_nat h') = bool_decide (h' = h)) by by apply clock_bit.
    destruct (decide (h' = h)) as [->|Hn].
    + rewrite bool_decide_eq_true_2 in HB by done. rewrite decide_True by done. destruct b.
      * by rewrite Z.lor_spec, HB, orb_true_r.
      * rewrite Z.land_spec, Z.lnot_spec, HB by lia. by rewrite andb_false_r.
    + rewrite bool_decide_eq_false_2 in HB by done. rewrite decide_False by (by intros []). destruct b.
      * by rewrite Z.lor_spec, HB, orb_false_r.
      * rewrite Z.land_spec, Z.lnot_spec, HB by lia. by rewrite andb_true_r.
  - rewrite list_lookup_alter_ne by done. by rewrite decide_False by (by intros []).
Qed.

Lemma hand_ok d i h b : dma_ok d -> (i < 2)%nat -> (h < 8)%nat -> dma_ok (set_clock i h b (set_enabled i h b d)).
Proof.
  intros [HE HC HD HK] Hi Hh. split.
  - apply (shape_alter (chan_enabled d)); [done|]. intros r. apply length_alter.
  - done.
  - cbn [set_clock DMACONFIG set_enabled]. by rewrite length_alter.
  - intros i' h' Hi' Hh'. rewrite clock_set by done. change (enabled_at (set_clock i h b (set_enabled i h b d)) i' h') with (enabled_at (set_enabled i h b d) i' h').
    rewrite enabled_set by done. case_decide; [done|]. by apply HK.
Qed.

(** Who holds what: the drivers ask for channels and give back those they hold, and the registers of
    the channels change as the drivers and the hardware use them. *)
Inductive uses : dma -> list Z -> Prop :=
| uses_open : uses (hal_dma_open reset_dma) []
| uses_get d held periph policy ch d' : uses d held -> hal_dma_get_chan periph policy d = Some (ch, d') ->
    uses d' (if ch =? HAL_DMA_CHAN_NONE then held else ch :: held)
| uses_free d held ch d' : uses d held -> ch ∈ held -> hal_dma_free_chan ch d = Some d' -> uses d' (filter (fun c => c <> ch) held)
| uses_channels d held chs : uses d held -> shape chs ->
    uses (mkDma (chan_enabled d) chs (DMACONFIG d) (saved_dma_regs d) (dma_opened d)) held.

Definition held_ok (d : dma) (held : list Z) : Prop :=
  NoDup held /\ (forall ch, ch ∈ held <-> exists i h, (i < 2)%nat /\ (h < 8)%nat /\ ch = generate_chan (Z.of_nat i) (Z.of_nat h) /\ enabled_at d i h = true).

Lemma generate_inj (i h i' h' : nat) : (i < 2)%nat -> (h < 8)%nat -> (i' < 2)%nat -> (h' < 8)%nat ->
  generate_chan (Z.of_nat i) (Z.of_nat h) = generate_chan (Z.of_nat i') (Z.of_nat h') -> i = i' /\ h = h'.
Proof. intros ????. rewrite !generate_chan_eq by done. lia. Qed.

Lemma find_free d i policy h : List.find (free_idle d i) (order policy) = Some h -> (h < 8)%nat /\ chan_enabled d !! i ≫= (.!! h) = Some false.
Proof.
  intros HF. apply find_some in HF as [HI HF]. split; [by eapply order_lt|]. unfold free_idle in HF. apply andb_true_iff in HF as [HF _].
  by destruct (chan_enabled d !! i ≫= (.!! h)) as [[]|].
Qed.

(** What a request for a channel does. *)
Lemma get_chan_cases periph policy d ch d' : hal_dma_get_chan periph policy d = Some (ch, d') ->
  (ch = HAL_DMA_CHAN_NONE /\ d' = d) \/
  exists i h, (i < 2)%nat /\ (h < 8)%nat /\ ch = generate_chan (Z.of_nat i) (Z.of_nat h) /\ chan_enabled d !! i ≫= (.!! h) = Some false /\
    d' = set_clock i h true (set_enabled i h true d).
Proof.
  intros HG. destruct (decide (periph = HAL_DMA_PERIPH_NULL)) as [->|HP]; [left; by injection HG as <- <-|].
  destruct (inst_of_periph periph) as [i|] eqn:HI.
  - rewrite (get_chan_inst _ _ _ _ HP HI) in HG. destruct (List.find (free_idle d i) (order policy)) as [h|] eqn:HF; injection HG as <- <-; [right|by left].
    apply find_free in HF as [Hh HF]. exists i, h. pose proof (inst_lt _ _ HI). done.
  - unfold hal_dma_get_chan in HG. by rewrite (proj2 (Z.eqb_neq _ _) HP), HI in HG.
Qed.

Lemma free_cases d i h : dma_ok d -> (i < 2)%nat -> (h < 8)%nat -> enabled_at d i h = true -> exists d1,
  hal_dma_free_chan (generate_chan (Z.of_nat i) (Z.of_nat h)) d = Some (set_clock i h false (set_enabled i h false d1)) /\ dma_ok d1 /\
  chan_enabled d1 = chan_enabled d.
Proof.
  intros HO Hi Hh HE. destruct (chan_parts i h Hi Hh) as (H1 & H2 & _). destruct (shape_lookup _ i h (ok_CH _ HO) Hi Hh) as (r & c & Hr & Hc).
  unfold hal_dma_free_chan, is_enabled, hal_dma_cancel, channel. rewrite H1, H2. unfold enabled_at in HE.
  destruct (chan_enabled d !! i) as [re|]; [|done]. simpl in HE. destruct (re !! h) as [[]|] eqn:Eh; [|done|done]. cbn [mbind option_bind]. rewrite Eh. cbn [mbind option_bind].
  rewrite Hr. cbn [mbind option_bind]. rewrite Hc. cbn [mbind option_bind].
  eexists. split; [reflexivity|]. split; [|done]. destruct HO as [H3 H4 H5 H6]. split; [done| |done|done].
  apply (shape_alter (CH d)); [done|]. intros. by rewrite length_alter.
Qed.

Lemma held_hand d held i h : dma_ok d -> held_ok d held -> (i < 2)%nat -> (h < 8)%nat -> enabled_at d i h = false ->
  held_ok (set_clock i h true (set_enabled i h true d)) (generate_chan (Z.of_nat i) (Z.of_nat h) :: held).
Proof.
  intros HO [HN HH] Hi Hh HE. split.
  - constructor; [|done]. intros (i' & h' & ? & ? & HG & HE')%HH. apply generate_inj in HG as [<- <-]; [|done..]. congruence.
  - intros ch. rewrite elem_of_cons, HH. change (enabled_at (set_clock i h true (set_enabled i h true d))) with (enabled_at (set_enabled i h true d)).
    split.
    + intros [->|(i' & h' & ? & ? & -> & HE')]; [exists i, h|exists i', h']; (split_and!; [done..|]); rewrite enabled_set by (done || apply HO); case_decide; naive_solver.
    + intros (i' & h' & ? & ? & -> & HE'). rewrite enabled_set in HE' by (done || apply HO). case_decide as HD; [left; by destruct HD as [-> ->]|right; eauto 10].
Qed.

Lemma held_free d d1 held i h : dma_ok d -> held_ok d held -> (i < 2)%nat -> (h < 8)%nat -> chan_enabled d1 = chan_enabled d -> dma_ok d1 ->
  held_ok (set_clock i h false (set_enabled i h false d1)) (filter (fun c => c <> generate_chan (Z.of_nat i) (Z.of_nat h)) held).
Proof.
  intros HO [HN HH] Hi Hh HE HO1. split; [by apply NoDup_filter|]. intros ch. rewrite list_elem_of_filter, HH.
  change (enabled_at (set_clock i h false (set_enabled i h false d1))) with (enabled_at (set_enabled i h false d1)).
  assert (HA : forall i' h', enabled_at d1 i' h' = enabled_at d i' h') by (intros; unfold enabled_at; by rewrite HE). split.
  - intros (Hne & i' & h' & ? & ? & -> & HE'). exists i', h'. split_and!; [done..|]. rewrite enabled_set by (done || apply HO1).
    case_decide as HD; [by destruct HD as [-> ->]|by rewrite HA].
  - intros (i' & h' & ? & ? & -> & HE'). rewrite enabled_set in HE' by (done || apply HO1). case_decide as HD; [done|]. rewrite HA in HE'.
    split; [|by eauto 10]. intros HG. apply generate_inj in HG; [done..].
Qed.

Lemma uses_ok d held : uses d held -> dma_ok d /\ held_ok d held.
Proof.
  induction 1 as [|d held periph policy ch d' HU [HO HH] HG|d held ch d' HU [HO HH] HI HF|d held chs HU [HO HH] HS].
  - split; [|split; [constructor|]].
    + split; try (split; [done|]; repeat constructor); [done|]. intros i h Hi Hh. do 2 (destruct i as [|i]; [do 8 (destruct h as [|h]; [reflexivity|]); lia|]). lia.
    + intros ch. split; [by intros ?%elem_of_nil|]. intros (i & h & Hi & Hh & _ & HE). exfalso.
      do 2 (destruct i as [|i]; [do 8 (destruct h as [|h]; [done|]); lia|]). lia.
  - destruct (get_chan_cases _ _ _ _ _ HG) as [[-> ->]|(i & h & Hi & Hh & -> & HE & ->)]; [done|].
    destruct (chan_parts i h Hi Hh) as (_ & _ & HN). rewrite (proj2 (Z.eqb_neq _ _) HN). split; [by apply hand_ok|].
    apply held_hand; try done. unfold enabled_at. by rewrite HE.
  - pose proof (proj1 (proj2 HH ch) HI) as (i & h & Hi & Hh & -> & HE). destruct (free_cases d i h HO Hi Hh HE) as (d1 & E & HO1 & HE1).
    rewrite E in HF. injection HF as <-. split; [by apply hand_ok|by apply (held_free d)].
  - split; [|done]. destruct HO. by split.
Qed.
