(* ===== verification/HalTrace.v ===== *)
(** The trace output of platform/hal/hal_trace.c: records copied into a ring, a DMA channel that moves
    the ring to the UART, its completion interrupt, the pause, the flush and the copy to the
    applications. The build is that of the chip's configuration: one CPU, DMA output, no CP core
    (TRACE_DMA_OUTPUT, TRACE_TO_APP, no CP_TRACE_ENABLE, no AUDIO_DEBUG). The text of a record, built
    by the C library's formatting, is an argument. *)
From Stdlib Require Import ZArith Lia Bool.
From stdpp Require Import base option list.
From S2P Require Import Prelude HalDma.

(** ** Constants *)
Definition TRACE_FLUSH_TIMEOUT_MS : Z := 2000.
Definition max_discards : Z := 99999.

Definition TR_LEVEL_CRITICAL : Z := 0.
Definition TR_LEVEL_INFO : Z := 4.
Definition TR_LEVEL_QTY : Z := 7.
Definition HAL_TRACE_APP_REG_ID_QTY : nat := 3.

Inductive HAL_TRACE_STATE_T := HAL_TRACE_STATE_CRASH_ASSERT_START | HAL_TRACE_STATE_CRASH_FAULT_START | HAL_TRACE_STATE_CRASH_END.

(** ** Data *)

(** [struct HAL_TRACE_BUF_T]. *)
Record HAL_TRACE_BUF_T := mkBuf {
  buf : list Z; wptr : Z; rptr : Z; discards : Z; sending : bool; in_trace : bool; wrapped : bool; pause_cnt : Z; sends : Z * Z }.

(** The file's variables; [ch] are the registers of the DMA channel, [uart_out] the bytes it has moved
    to the UART. A callback is its number; [app_out] and [app_states] are the calls made of them. *)
Record hal_trace := mkTrace {
  trace : HAL_TRACE_BUF_T; dma_desc : list HAL_DMA_DESC_T; ch : DMA_CH_T; uart_transport : bool; uart_out : list Z;
  app_notify_cb : list (option nat); app_output_cb : list (option nat); app_crash_custom_cb : bool;
  app_output_cb_valid : bool; app_output_enabled : bool; app_out : list (nat * list Z); app_states : list (nat * HAL_TRACE_STATE_T) }.

(** Assignments. *)
Definition set_wptr w (b : HAL_TRACE_BUF_T) := mkBuf (buf b) w (rptr b) (discards b) (sending b) (in_trace b) (wrapped b) (pause_cnt b) (sends b).
Definition set_rptr r (b : HAL_TRACE_BUF_T) := mkBuf (buf b) (wptr b) r (discards b) (sending b) (in_trace b) (wrapped b) (pause_cnt b) (sends b).
Definition set_buf l (b : HAL_TRACE_BUF_T) := mkBuf l (wptr b) (rptr b) (discards b) (sending b) (in_trace b) (wrapped b) (pause_cnt b) (sends b).
Definition set_discards n (b : HAL_TRACE_BUF_T) := mkBuf (buf b) (wptr b) (rptr b) n (sending b) (in_trace b) (wrapped b) (pause_cnt b) (sends b).
Definition set_sends x s (b : HAL_TRACE_BUF_T) := mkBuf (buf b) (wptr b) (rptr b) (discards b) s (in_trace b) (wrapped b) (pause_cnt b) x.
Definition set_in_trace i (b : HAL_TRACE_BUF_T) := mkBuf (buf b) (wptr b) (rptr b) (discards b) (sending b) i (wrapped b) (pause_cnt b) (sends b).
Definition set_wrapped w (b : HAL_TRACE_BUF_T) := mkBuf (buf b) (wptr b) (rptr b) (discards b) (sending b) (in_trace b) w (pause_cnt b) (sends b).
Definition set_pause n (b : HAL_TRACE_BUF_T) := mkBuf (buf b) (wptr b) (rptr b) (discards b) (sending b) (in_trace b) (wrapped b) n (sends b).

Definition set_trace t s := mkTrace t (dma_desc s) (ch s) (uart_transport s) (uart_out s) (app_notify_cb s) (app_output_cb s) (app_crash_custom_cb s) (app_output_cb_valid s) (app_output_enabled s) (app_out s) (app_states s).
Definition set_dma d c s := mkTrace (trace s) d c (uart_transport s) (uart_out s) (app_notify_cb s) (app_output_cb s) (app_crash_custom_cb s) (app_output_cb_valid s) (app_output_enabled s) (app_out s) (app_states s).
Definition set_out o s := mkTrace (trace s) (dma_desc s) (ch s) (uart_transport s) o (app_notify_cb s) (app_output_cb s) (app_crash_custom_cb s) (app_output_cb_valid s) (app_output_enabled s) (app_out s) (app_states s).
Definition set_app n o v s := mkTrace (trace s) (dma_desc s) (ch s) (uart_transport s) (uart_out s) n o (app_crash_custom_cb s) v (app_output_enabled s) (app_out s) (app_states s).
Definition set_custom c s := mkTrace (trace s) (dma_desc s) (ch s) (uart_transport s) (uart_out s) (app_notify_cb s) (app_output_cb s) c (app_output_cb_valid s) (app_output_enabled s) (app_out s) (app_states s).
Definition set_app_enabled e s := mkTrace (trace s) (dma_desc s) (ch s) (uart_transport s) (uart_out s) (app_notify_cb s) (app_output_cb s) (app_crash_custom_cb s) (app_output_cb_valid s) e (app_out s) (app_states s).
Definition set_app_out l m s := mkTrace (trace s) (dma_desc s) (ch s) (uart_transport s) (uart_out s) (app_notify_cb s) (app_output_cb s) (app_crash_custom_cb s) (app_output_cb_valid s) (app_output_enabled s) l m.
Definition upd_trace (f : HAL_TRACE_BUF_T -> HAL_TRACE_BUF_T) s := set_trace (f (trace s)) s.

(** A [memcpy] into an array: [None] when it would leave it. *)
Definition memcpy (off : Z) (bs l : list Z) : option (list Z) :=
  if (0 <=? off) && (off + Z.of_nat (length bs) <=? Z.of_nat (length l)) then Some (list_inserts (Z.to_nat off) bs l) else None.

(** [hal_trace_print_unsigned]: the digits of [val], at most [digit]'s ten, from the last one; then the
    first [len] of them from the first one. *)
Fixpoint digits (n : nat) (val : Z) : list Z :=
  match n with
  | O => []
  | S n' => (val mod 10 + 48) :: (if val / 10 =? 0 then [] else digits n' (val / 10))
  end.

Definition hal_trace_print_unsigned (len val : Z) : list Z := take (Z.to_nat len) (rev (digits 10 val)).

Section Build.
(** The size of the ring and its address, whether a new line is CR LF, the ticks of a millisecond, and
    the UART. *)
Variable TRACE_BUF_SIZE : Z.
Variable BUF_ADDR : Z.
Variable TRACE_CRLF : bool.
Variable hz : Z.
Variable uart_periph : Z.

Definition NEW_LINE_STR : list Z := if TRACE_CRLF then [13; 10] else [10].
Definition discards_prefix : list Z := NEW_LINE_STR ++ [76; 79; 83; 84; 32].
Definition sizeof_discards_buf : Z := Z.of_nat (length discards_prefix) + 7.
Definition TRACE_FLUSH_TIMEOUT : Z := TRACE_FLUSH_TIMEOUT_MS * hz.

(** ** Sending *)

(** The configuration of [hal_trace_open]; the size and the source are set for each descriptor. *)
Definition dma_cfg (tsize src : Z) : HAL_DMA_CH_CFG_T := mkCfg (u16 tsize) 0 0 4 2 HAL_DMA_FLOW_M2P_DMA 0 uart_periph src 0 true.

Definition no_desc : HAL_DMA_DESC_T := mkDesc 0 0 0 0.

(** The sizes of the two descriptors. *)
Definition split_sends (w r : Z) : Z * Z :=
  let '(s0, s1) := if w >? r then (w - r, 0)
                   else let s0 := TRACE_BUF_SIZE - r in (s0, if s0 <=? HAL_DMA_MAX_DESC_XFER_SIZE then w else 0) in
  let '(s0, s1) := if s0 >? HAL_DMA_MAX_DESC_XFER_SIZE then (HAL_DMA_MAX_DESC_XFER_SIZE, s0 - HAL_DMA_MAX_DESC_XFER_SIZE) else (s0, s1) in
  (s0, if s1 >? HAL_DMA_MAX_DESC_XFER_SIZE then HAL_DMA_MAX_DESC_XFER_SIZE else s1).

Definition hal_trace_uart_dma_send (s : hal_trace) : hal_trace :=
  let w := wptr (trace s) in let r := rptr (trace s) in
  if negb (sending (trace s)) && negb (w =? r) then
    let '(s0, s1) := split_sends w r in
    let d0 := nth 0 (dma_desc s) no_desc in let d1 := nth 1 (dma_desc s) no_desc in
    let descs :=
      if s1 =? 0 then [(hal_dma_init_desc d0 (dma_cfg s0 (u32 (BUF_ADDR + r))) 0 true).2; d1]
      else [(hal_dma_init_desc d0 (dma_cfg s0 (u32 (BUF_ADDR + r))) 2 false).2;
            (hal_dma_init_desc d1 (dma_cfg s1 (u32 (BUF_ADDR + (if r + s0 <? TRACE_BUF_SIZE then r + s0 else 0)))) 0 true).2] in
    let '(_, c) := start_channel (nth 0 descs no_desc) (dma_cfg (if s1 =? 0 then s0 else s1) 0) (ch s) in
    set_dma descs c (upd_trace (set_sends (u16 s0, u16 s1) true) s)
  else s.

Definition hal_trace_send (s : hal_trace) : hal_trace :=
  if negb (pause_cnt (trace s) =? 0) then s
  else if uart_transport s then hal_trace_uart_dma_send s else s.

(** [rptr] advanced by [n] as the code does: in 16 bits, the size taken off once. *)
Definition advance_rptr (p n : Z) : Z :=
  let q := u16 (p + n) in if q >=? TRACE_BUF_SIZE then u16 (q - TRACE_BUF_SIZE) else q.

Definition sent_sizes (error : bool) (remain : Z) (lli : bool) (x : Z * Z) : Z * Z :=
  let '(s0, s1) := x in
  if error then
    if lli || (s1 =? 0) then (if s0 >? remain then s0 - remain else 0, 0)
    else (s0, if s1 >? remain then s1 - remain else 0)
  else (s0, s1).

Definition hal_trace_uart_xfer_done (remain_tsize : Z) (error : bool) (lli : nat) (s : hal_trace) : hal_trace :=
  let '(s0, s1) := sent_sizes error remain_tsize (negb (lli =? 0)%nat) (sends (trace s)) in
  let s' := upd_trace (fun b => set_sends (0, 0) false (set_rptr (advance_rptr (rptr b) (s0 + s1)) b)) s in
  if pause_cnt (trace s') =? 0 then hal_trace_uart_dma_send s' else s'.

(** The interrupt of the channel. *)
Definition dma_irq (s : hal_trace) : hal_trace :=
  let '(call, c) := handle_channel_irq (ch s) in
  let s' := set_dma (dma_desc s) c s in
  match call with Some (remain, error, lli) => hal_trace_uart_xfer_done remain error lli s' | None => s' end.

Definition hal_trace_uart_stop_dma_send (s : hal_trace) : option hal_trace :=
  if en (ch s) then
    let c := cancel_channel (ch s) in
    remain ← sg_remain_size (dma_desc s) c;
    Some (upd_trace (fun b => set_sends (0, 0) false (set_rptr (advance_rptr (rptr b) remain) b)) (set_dma (dma_desc s) c s))
  else Some s.

(** ** Writing *)

(** The copy of a record, in two parts when it meets the end of the ring; [mark]: a copy that does so
    sets [wrapped]. *)
Definition ring_copy (mark : bool) (bs : list Z) (b : HAL_TRACE_BUF_T) : option HAL_TRACE_BUF_T :=
  let len := Z.of_nat (length bs) in
  let room := u16 (TRACE_BUF_SIZE - wptr b) in
  let size := if room >=? len then u16 len else room in
  l1 ← memcpy (wptr b) (take (Z.to_nat size) bs) (buf b);
  l2 ← (if size <? len then memcpy 0 (drop (Z.to_nat size) bs) l1 else Some l1);
  let w := u16 (wptr b + len) in
  Some (if w >=? TRACE_BUF_SIZE
        then let b' := set_wptr (u16 (w - TRACE_BUF_SIZE)) (set_buf l2 b) in if mark then set_wrapped true b' else b'
        else set_wptr w (set_buf l2 b)).

Definition discards_line (n : Z) : list Z :=
  discards_prefix ++ hal_trace_print_unsigned 5 (if n >? max_discards then max_discards else n) ++ NEW_LINE_STR.

Definition hal_trace_print_discards (n : Z) (b : HAL_TRACE_BUF_T) : option HAL_TRACE_BUF_T := ring_copy false (discards_line n) b.

Definition avail (b : HAL_TRACE_BUF_T) : Z :=
  if wptr b >=? rptr b then TRACE_BUF_SIZE - (wptr b - rptr b) - 1 else rptr b - wptr b - 1.

(** The part of [hal_trace_output_internal] on the ring; the answer tells whether the record was taken
    ([ret] is 0). A record that comes while another one is being written is dropped and counted as taken. *)
Definition ring_output (bs : list Z) (s : hal_trace) : option (bool * hal_trace) :=
  let b := trace s in
  if in_trace b then Some (true, s)
  else
    let b0 := set_in_trace true b in
    let out_len := u32 (Z.of_nat (length bs) + (if discards b =? 0 then 0 else sizeof_discards_buf)) in
    if avail b0 <? out_len then
      let b1 := if discards b0 <? 65535 then set_discards (u16 (discards b0 + 1)) b0 else b0 in
      Some (false, set_trace (set_in_trace false b1) s)
    else
      b1 ← (if discards b0 =? 0 then Some b0 else set_discards 0 <$> hal_trace_print_discards (discards b0) b0);
      b2 ← ring_copy true bs b1;
      Some (true, upd_trace (set_in_trace false) (hal_trace_send (set_trace b2 s))).

Fixpoint ring_outputs (l : list (list Z)) (s : hal_trace) : option (list bool * hal_trace) :=
  match l with
  | [] => Some ([], s)
  | bs :: l' => '(a, s1) ← ring_output bs s; '(r, s2) ← ring_outputs l' s1; Some (a :: r, s2)
  end.

Definition calls {X} (cbs : list (option nat)) (x : X) : list (nat * X) :=
  omap (fun o => match o with Some f => Some (f, x) | None => None end) cbs.

(** [nested] are the records the callbacks of the applications output themselves: they find
    [app_output_enabled] false and stay in the ring. *)
Definition hal_trace_output (bs : list Z) (nested : list (list Z)) (s : hal_trace) : option (list bool * hal_trace) :=
  '(a, s1) ← ring_output bs s;
  if app_output_cb_valid s1 && app_output_enabled s1 then
    let s2 := set_app_out (app_out s1 ++ calls (app_output_cb s1) bs) (app_states s1) (set_app_enabled false s1) in
    '(r, s3) ← ring_outputs nested s2;
    Some (a :: r, set_app_enabled true s3)
  else Some ([a], s1).

(** What the C function returns for a record and the answer for it. *)
Definition output_result (a : bool) (bs : list Z) : Z := if a then Z.of_nat (length bs) else 0.

(** ** Pause and flush *)
Definition hal_trace_pause (s : hal_trace) : option (Z * hal_trace) :=
  s1 ← (if (pause_cnt (trace s) =? 0) && uart_transport s then hal_trace_uart_stop_dma_send s else Some s);
  let n := u8 (pause_cnt (trace s1) + 1) in
  Some (if n =? 0 then (1, s1) else (0, upd_trace (set_pause n) s1)).

Definition hal_trace_continue (s : hal_trace) : Z * hal_trace :=
  if pause_cnt (trace s) =? 0 then (1, s)
  else
    let s1 := upd_trace (set_pause (pause_cnt (trace s) - 1)) s in
    (0, if pause_cnt (trace s1) =? 0 then hal_trace_send s1 else s1).

Definition hal_trace_force_continue (s : hal_trace) : hal_trace :=
  if pause_cnt (trace s) =? 0 then s else hal_trace_send (upd_trace (set_pause 0) s).

(** One unit moved by the channel to the UART. *)
Definition dma_move (s : hal_trace) : option hal_trace :=
  '(a, c) ← move_unit (dma_desc s) (ch s);
  x ← buf (trace s) !! Z.to_nat (a - BUF_ADDR);
  Some (set_out (uart_out s ++ [x]) (set_dma (dma_desc s) c s)).

Definition dma_error (s : hal_trace) : hal_trace := set_dma (dma_desc s) (bus_error (ch s)) s.

(** The channel moves what it has to, or stops with an error after [Some n] units. *)
Fixpoint dma_moves (n : nat) (s : hal_trace) : option hal_trace :=
  match n with
  | O => Some s
  | S n' => if en (ch s) then s' ← dma_move s; dma_moves n' s' else Some s
  end.

(** The units the channel has still to move. *)
Definition remaining (s : hal_trace) : Z := default 0 (sg_remain_size (dma_desc s) (ch s)).

Definition dma_wait (outcome : option nat) (s : hal_trace) : option hal_trace :=
  match outcome with
  | None => dma_moves (Z.to_nat (remaining s)) s
  | Some n => s' ← dma_moves n s; Some (if en (ch s') then dma_error s' else s')
  end.

(** The loop of the flush: a round is the time read and what becomes of the transfer it waits for;
    [None]: the rounds are out. *)
Fixpoint flush_loop (rounds : list (Z * option nat)) (time : Z) (s : hal_trace) : option hal_trace :=
  if wptr (trace s) =? rptr (trace s) then Some s
  else match rounds with
  | [] => None
  | (now, outcome) :: l =>
      if u32 (now - time) <? TRACE_FLUSH_TIMEOUT then
        s1 ← dma_wait outcome s;
        flush_loop l time (if tcstat (ch s1) || errstat (ch s1) then dma_irq s1 else hal_trace_send s1)
      else Some s
  end.

Definition hal_trace_flush_buffer (time : Z) (rounds : list (Z * option nat)) (s : hal_trace) : option (Z * hal_trace) :=
  if negb (uart_transport s) then Some (-1, s)
  else if pause_cnt (trace s) =? 0 then
    s' ← flush_loop rounds time s;
    Some (if wptr (trace s') =? rptr (trace s') then 0 else 1, s')
  else Some (0, s).

(** ** History *)

(** The two parts of the ring, as offsets and lengths. *)
Definition hal_trace_get_history_buffer (b : HAL_TRACE_BUF_T) : (Z * Z) * (Z * Z) :=
  if TRACE_BUF_SIZE >? wptr b then
    if wrapped b then ((wptr b, TRACE_BUF_SIZE - wptr b), (0, wptr b)) else ((0, wptr b), (0, 0))
  else ((0, 0), (0, 0)).

(** ** Applications *)
Definition hal_trace_app_register (id : nat) (notify output : option nat) (s : hal_trace) : Z * hal_trace :=
  if (HAL_TRACE_APP_REG_ID_QTY <=? id)%nat then (1, s)
  else
    let n := <[id := notify]> (app_notify_cb s) in
    let o := <[id := output]> (app_output_cb s) in
    (0, set_app n o (existsb (fun f : option nat => match f with Some _ => true | None => false end) o) s).

Definition hal_trace_app_custom_register (id : nat) (notify output : option nat) (crash_custom : bool) (s : hal_trace) : hal_trace :=
  set_custom crash_custom (hal_trace_app_register id notify output s).2.

Definition hal_trace_app_notify_callback (state : HAL_TRACE_STATE_T) (s : hal_trace) : hal_trace :=
  let s1 := match state with
            | HAL_TRACE_STATE_CRASH_ASSERT_START => set_app_enabled true s
            | HAL_TRACE_STATE_CRASH_FAULT_START => if app_crash_custom_cb s then s else set_app_enabled true s
            | HAL_TRACE_STATE_CRASH_END => s
            end in
  set_app_out (app_out s1) (app_states s1 ++ calls (app_notify_cb s1) state) s1.

(** ** Opening: the part on the ring and the channel *)
Definition hal_trace_open (uart : bool) (s : hal_trace) : hal_trace :=
  set_trace (mkBuf (buf (trace s)) 0 0 0 false false false 0 (0, 0))
    (mkTrace (trace s) (dma_desc s) (ch s) uart (uart_out s) (app_notify_cb s) (app_output_cb s) (app_crash_custom_cb s)
       (app_output_cb_valid s) (app_output_enabled s) (app_out s) (app_states s)).

(** The static variables before the first call; [app_enabled] is set in the builds that log to flash. *)
Definition reset_trace (app_enabled : bool) : hal_trace :=
  mkTrace (mkBuf (replicate (Z.to_nat TRACE_BUF_SIZE) 0) 0 0 0 false false false 0 (0, 0)) [no_desc; no_desc] reset_ch false []
    (replicate HAL_TRACE_APP_REG_ID_QTY None) (replicate HAL_TRACE_APP_REG_ID_QTY None) false false app_enabled [] [].

(** ** Runs *)

(** The operations, and what the hardware does on its own: a unit moved, an error, the interrupt. *)
Inductive event :=
| Output (bs : list Z) (nested : list (list Z))
| Send
| Pause
| Continue
| Flush (time : Z) (rounds : list (Z * option nat))
| Move
| Bus_error
| Irq.

Definition enabled (e : event) (s : hal_trace) : bool :=
  match e with
  | Output bs nested => forallb (fun l => Z.of_nat (length l) <? 2 ^ 31) (bs :: nested)
  | Move | Bus_error => en (ch s)
  | Irq => tcstat (ch s) || errstat (ch s)
  | _ => true
  end.

(** With the answers for the records of an output, and for a pause whether it found a transfer under
    way. *)
Definition exec (e : event) (s : hal_trace) : option (list bool * hal_trace) :=
  match e with
  | Output bs nested => hal_trace_output bs nested s
  | Send => Some ([], hal_trace_send s)
  | Pause => '(_, s') ← hal_trace_pause s; Some ([(pause_cnt (trace s) =? 0) && uart_transport s && en (ch s)], s')
  | Continue => Some ([], (hal_trace_continue s).2)
  | Flush time rounds => '(_, s') ← hal_trace_flush_buffer time rounds s; Some ([], s')
  | Move => s' ← dma_move s; Some ([], s')
  | Bus_error => Some ([], dma_error s)
  | Irq => Some ([], dma_irq s)
  end.

Inductive reach (s0 : hal_trace) : list (event * list bool) -> hal_trace -> Prop :=
| reach_open : reach s0 [] s0
| reach_event tr s e a s' : reach s0 tr s -> enabled e s = true -> exec e s = Some (a, s') -> reach s0 (tr ++ [(e, a)]) s'.

(** The same as a function. *)
Definition step (e : event) (s : hal_trace) : option (list bool * hal_trace) := if enabled e s then exec e s else None.

Fixpoint run (es : list event) (s : hal_trace) : option (list (event * list bool) * hal_trace) :=
  match es with
  | [] => Some ([], s)
  | e :: es' => '(a, s1) ← step e s; '(tr, s2) ← run es' s1; Some ((e, a) :: tr, s2)
  end.

(** ** What was written *)

(** The records of a run with their answers. *)
Definition records (tr : list (event * list bool)) : list (list Z * bool) :=
  flat_map (fun x => match x.1 with Output bs nested => zip (bs :: nested) x.2 | _ => [] end) tr.

(** The bytes written for them and the number of those lost since: a record taken after a loss comes
    after the line that tells it. *)
Definition written_step (x : list Z * Z) (r : list Z * bool) : list Z * Z :=
  if r.2 then (x.1 ++ (if x.2 =? 0 then [] else discards_line x.2) ++ r.1, 0)
  else (x.1, if x.2 <? 65535 then x.2 + 1 else x.2).

Definition written (l : list (list Z * bool)) : list Z * Z := fold_left written_step l ([], 0).

(** No pause found a transfer under way. *)
Definition no_cut (x : event * list bool) : Prop := match x.1 with Pause => x.2 = [false] | _ => True end.

(** The bytes of the ring that have not been moved. *)
Definition moved (s : hal_trace) : Z :=
  if sending (trace s) then (sends (trace s)).1 + (sends (trace s)).2 - remaining s else 0.

Definition ring_slice (b : HAL_TRACE_BUF_T) (from : Z) (n : nat) : list Z :=
  (fun i => nth (Z.to_nat ((from + Z.of_nat i) mod TRACE_BUF_SIZE)) (buf b) 0) <$> seq 0 n.

Definition unsent (s : hal_trace) : list Z :=
  let b := trace s in
  ring_slice b (rptr b + moved s) (Z.to_nat ((wptr b - rptr b) mod TRACE_BUF_SIZE - moved s)).
End Build.
