(* ===== verification/HalTraceLaws.v ===== *)
(** The invariant of the trace output: the ring holds the last bytes of the stream of records, the
    channel carries the addresses of the oldest ones not yet moved, and every operation and every
    move of the hardware keeps it so. *)
From Stdlib Require Import ZArith Lia Bool.
From stdpp Require Import base option list list_numbers.
From S2P Require Import Prelude HalDma HalDmaLaws HalTrace.

Notation zlen l := (Z.of_nat (length l)).

Lemma ring_memcpy_ok off bs l : 0 <= off -> off + zlen bs <= zlen l -> memcpy off bs l = Some (list_inserts (Z.to_nat off) bs l).
Proof. intros H1 H2. unfold memcpy. rewrite (proj2 (Z.leb_le _ _) H1), (proj2 (Z.leb_le _ _) H2). done. Qed.

Section Laws.
Variable SIZE ADDR : Z.
Variable CRLF : bool.
Variable hz periph : Z.
Hypothesis HS : 0 < SIZE <= 32768.
Hypothesis HA : 0 <= ADDR /\ ADDR + SIZE <= 2 ^ 32.

(** ** The ring *)
Record ring_ok (b : HAL_TRACE_BUF_T) (S : list Z) (R : Z) : Prop := {
  ro_len : zlen (buf b) = SIZE;
  ro_R : 0 <= R <= zlen S;
  ro_room : zlen S < R + SIZE;
  ro_w : wptr b = zlen S mod SIZE;
  ro_r : rptr b = R mod SIZE;
  ro_data p : 0 <= p < zlen S -> zlen S - SIZE <= p -> buf b !! Z.to_nat (p mod SIZE) = S !! Z.to_nat p;
  ro_wrapped : wrapped b = true -> SIZE <= zlen S }.

Lemma place_range x : 0 <= x mod SIZE < SIZE.
Proof. apply Z.mod_pos_bound. lia. Qed.

(** Two counts less than the size apart are equal when their places are. *)
Lemma same_place p q : p mod SIZE = q mod SIZE -> Z.abs (p - q) < SIZE -> p = q.
Proof. apply mod_near. lia. Qed.

Lemma place_add p n : 0 <= n < SIZE -> (p + n) mod SIZE = if p mod SIZE + n >=? SIZE then p mod SIZE + n - SIZE else p mod SIZE + n.
Proof.
  intros Hn. rewrite <- Z.add_mod_idemp_l by lia. pose proof (place_range p). zcases.
  - symmetry. apply Z.mod_unique with 1; lia.
  - apply Z.mod_small. lia.
Qed.

Lemma advance_ok p n : 0 <= n < SIZE -> advance_rptr SIZE (p mod SIZE) n = (p + n) mod SIZE.
Proof.
  intros Hn. rewrite place_add by done. unfold advance_rptr. pose proof (place_range p). unfold u16.
  rewrite wrap_small by (split; lia). case_match; [|done]. apply wrap_small. split; lia.
Qed.

Lemma used_spec b S R : ring_ok b S R -> avail SIZE b = SIZE - 1 - (zlen S - R) /\ (wptr b = rptr b <-> R = zlen S) /\
  (wptr b - rptr b) mod SIZE = zlen S - R.
Proof.
  intros [_ HR HM HW Hr _ _]. split_and!.
  - unfold avail. rewrite HW, Hr. pose proof (place_add R (zlen S - R) ltac:(lia)) as HP. replace (R + (zlen S - R)) with (zlen S) in HP by lia.
    pose proof (place_range R). rewrite Z.geb_leb in HP. destruct (Z.leb_spec SIZE (R mod SIZE + (zlen S - R))); rewrite HP; zcases; lia.
  - rewrite HW, Hr. split; [intros HE; symmetry; apply same_place; lia|by intros ->].
  - rewrite HW, Hr, <- Zminus_mod. apply Z.mod_small. lia.
Qed.

(** The lookups in a ring after a copy from the write pointer. *)
Lemma copy_lookup mark bs b : zlen (buf b) = SIZE -> 0 <= wptr b < SIZE -> zlen bs < SIZE ->
  exists b', ring_copy SIZE mark bs b = Some b' /\ zlen (buf b') = SIZE /\ wptr b' = (wptr b + zlen bs) mod SIZE /\
    (forall i, 0 <= i < zlen bs -> buf b' !! Z.to_nat ((wptr b + i) mod SIZE) = bs !! Z.to_nat i) /\
    (forall q, 0 <= q < SIZE -> zlen bs <= (q - wptr b) mod SIZE -> buf b' !! Z.to_nat q = buf b !! Z.to_nat q) /\
    b' = set_wrapped (wrapped b || mark && (SIZE <=? wptr b + zlen bs)) (set_wptr (wptr b') (set_buf (buf b') b)).
Proof.
  intros HL HW HN. unfold ring_copy. set (n := zlen bs) in *.
  assert (HR : u16 (SIZE - wptr b) = SIZE - wptr b) by (apply wrap_small; split; lia). rewrite HR.
  assert (HU : u16 n = n) by (apply wrap_small; split; lia). rewrite HU.
  assert (HV : u16 (wptr b + n) = wptr b + n) by (apply wrap_small; split; lia). rewrite HV.
  set (size := if SIZE - wptr b >=? n then n else SIZE - wptr b).
  assert (Hsz : size = Z.min n (SIZE - wptr b)) by (unfold size; zcases; lia). clearbody size.
  assert (HT : zlen (take (Z.to_nat size) bs) = size) by (rewrite length_take; lia).
  assert (HD : zlen (drop (Z.to_nat size) bs) = n - size) by (rewrite length_drop; lia).
  rewrite ring_memcpy_ok by lia. cbn [mbind option_bind]. set (l1 := list_inserts (Z.to_nat (wptr b)) (take (Z.to_nat size) bs) (buf b)).
  assert (HL1 : zlen l1 = SIZE) by (unfold l1; by rewrite length_inserts).
  set (l2 := if size <? n then list_inserts 0 (drop (Z.to_nat size) bs) l1 else l1).
  assert (E2 : (if size <? n then memcpy 0 (drop (Z.to_nat size) bs) l1 else Some l1) = Some l2).
  { unfold l2. destruct (size <? n); [|done]. rewrite ring_memcpy_ok by lia. done. }
  rewrite E2. cbn [mbind option_bind].
  assert (HL2 : zlen l2 = SIZE) by (unfold l2; destruct (size <? n); by rewrite ?length_inserts).
  assert (HWP : (wptr b + n) mod SIZE = if wptr b + n >=? SIZE then wptr b + n - SIZE else wptr b + n).
  { rewrite <- (Z.mod_small (wptr b) SIZE HW) at 1. rewrite Z.add_mod_idemp_l, place_add by lia. by rewrite !(Z.mod_small (wptr b) SIZE HW). }
  eexists. split; [reflexivity|].
  assert (HB : forall X (f : HAL_TRACE_BUF_T -> X) (a1 a2 a3 : HAL_TRACE_BUF_T) (c m : bool), f (if c then if m then a1 else a2 else a3) = if c then if m then f a1 else f a2 else f a3)
    by (intros; destruct c, m; done).
  rewrite !HB. cbn [buf wptr wrapped set_wptr set_buf set_wrapped].
  assert (HLL : forall (c m : bool), (if c then if m then l2 else l2 else l2) = l2) by (intros [] []; done). rewrite !HLL.
  split; [done|]. split; [|split; [|split]].
  - rewrite HWP. rewrite Z.geb_leb. destruct (Z.leb_spec SIZE (wptr b + n)); [|done]. destruct mark; apply wrap_small; split; lia.
  - intros i Hi. rewrite <- (Z.mod_small (wptr b) SIZE HW) at 1. rewrite Z.add_mod_idemp_l by lia. rewrite place_add by lia. rewrite (Z.mod_small (wptr b) SIZE HW).
    unfold l2. destruct (Z.geb_spec (wptr b + i) SIZE) as [Hge|Hlt].
    + rewrite (proj2 (Z.ltb_lt _ _)) by lia. rewrite list_lookup_inserts by lia. rewrite lookup_drop. f_equal. lia.
    + assert (E1 : l1 !! Z.to_nat (wptr b + i) = bs !! Z.to_nat i).
      { unfold l1. rewrite list_lookup_inserts by lia. rewrite lookup_take_lt by lia. f_equal. lia. }
      destruct (size <? n); [|done]. by rewrite list_lookup_inserts_ge by lia.
  - intros q Hq Hfar. assert (HQ : (q - wptr b) mod SIZE = if q <? wptr b then q - wptr b + SIZE else q - wptr b).
    { zcases; [symmetry; apply Z.mod_unique with (-1); lia|apply Z.mod_small; lia]. }
    rewrite HQ in Hfar. unfold l2. destruct (Z.ltb_spec q (wptr b)) as [Hlt|Hge].
    + assert (E1 : l1 !! Z.to_nat q = buf b !! Z.to_nat q) by (unfold l1; apply list_lookup_inserts_lt; lia).
      destruct (size <? n); [|done]. by rewrite list_lookup_inserts_ge by lia.
    + assert (E1 : l1 !! Z.to_nat q = buf b !! Z.to_nat q) by (unfold l1; apply list_lookup_inserts_ge; lia).
      destruct (Z.ltb_spec size n); [lia|done].
  - rewrite Z.geb_leb. destruct b, mark, (SIZE <=? _); cbn; rewrite ?orb_true_r, ?orb_false_r; done.
Qed.

Lemma copy_ok mark bs b S R : ring_ok b S R -> zlen bs <= SIZE - 1 - (zlen S - R) ->
  exists b', ring_copy SIZE mark bs b = Some b' /\ ring_ok b' (S ++ bs) R /\ rptr b' = rptr b /\ discards b' = discards b /\
    sending b' = sending b /\ in_trace b' = in_trace b /\ pause_cnt b' = pause_cnt b /\ sends b' = sends b.
Proof.
  intros [HL HR HM HW Hr HD Hwr] HN. destruct (copy_lookup mark bs b) as (b' & E & HL' & HW' & HIn & HOut & HB); [done|rewrite HW; apply place_range|lia|].
  exists b'. split; [done|]. assert (HLS : zlen (S ++ bs) = zlen S + zlen bs) by (rewrite length_app; lia).
  split; [|rewrite HB; done]. split; rewrite ?HLS; try lia.
  - by rewrite HW', HW, Z.add_mod_idemp_l by lia.
  - by rewrite HB.
  - intros p Hp HO. destruct (decide (p < zlen S)) as [Hlt|Hge].
    + rewrite HOut; [rewrite HD by lia; by rewrite lookup_app_l by lia|apply place_range|].
      rewrite HW. replace (p mod SIZE - zlen S mod SIZE) with (p mod SIZE - zlen S mod SIZE) by lia. rewrite <- Zminus_mod.
      assert (HQ : (p - zlen S) mod SIZE = p - zlen S + SIZE) by (symmetry; apply Z.mod_unique with (-1); lia). lia.
    + rewrite lookup_app_r by lia. replace (Z.to_nat p - length S)%nat with (Z.to_nat (p - zlen S)) by lia. rewrite <- (HIn (p - zlen S)) by lia.
      f_equal. rewrite HW, Z.add_mod_idemp_l by lia. f_equal. f_equal. lia.
  - rewrite HB. cbn [wrapped set_wrapped]. intros [H|H]%orb_true_iff; [specialize (Hwr H); lia|].
    apply andb_true_iff in H as [_ H%Z.leb_le]. rewrite HW in H. pose proof (Z.mod_le (zlen S) SIZE ltac:(lia) ltac:(lia)). lia.
Qed.

(** ** The channel *)
Definition place (p : Z) : Z := ADDR + p mod SIZE.

Lemma span_places q n : 0 <= n -> q mod SIZE + n <= SIZE -> span (place q) n = place <$> seqZ q n.
Proof.
  intros Hn HB. unfold span, seqZ. rewrite <- list_fmap_compose. apply list_fmap_ext. intros i x Hx. apply lookup_seq in Hx as [-> Hx].
  unfold place. simpl. pose proof (place_range q). rewrite (Z.add_comm (Z.of_nat i) q), place_add by lia. zcases; lia.
Qed.

(** The transfer under way: [m] bytes of the two parts have been moved. *)
Inductive stage (s : hal_trace) (R m : Z) (s0 s1 : Z) : list nat -> Prop :=
| st_moving ks : carries (dma_desc s) (ch s) ks -> chain_load (dma_desc s) (ch s) ks = place <$> seqZ (R + m) (s0 + s1 - m) -> stage s R m s0 s1 ks
| st_done : at_rest (ch s) -> m = s0 + s1 -> stage s R m s0 s1 []
| st_error ks : en (ch s) = false -> tcstat (ch s) = false -> errstat (ch s) = true -> stage s R m s0 s1 ks.

Record busy (s : hal_trace) (S : list Z) (R m s0 s1 : Z) (ks : list nat) : Prop := {
  bu_sending : sending (trace s) = true;
  bu_uart : uart_transport s = true;
  bu_sends : sends (trace s) = (s0, s1);
  bu_s0 : 0 < s0 < 4096;
  bu_s1 : 0 <= s1 < 4096;
  bu_in : R + s0 + s1 <= zlen S;
  bu_m : 0 <= m <= s0 + s1;
  bu_out : uart_out s = take (Z.to_nat (R + m)) S;
  bu_mask : irq_mask (ch s) = true;
  bu_path : path (dma_desc s) (LLI (ch s)) ks;
  bu_left : left_size (dma_desc s) (ch s) ks = s0 + s1 - m;
  bu_ks : (ks = [] /\ (s1 = 0 \/ s0 <= m)) \/ (ks = [1%nat] /\ size_at (dma_desc s) 1 = s1 /\ 0 < s1);
  bu_stage : stage s R m s0 s1 ks }.

Record idle (s : hal_trace) (S : list Z) (R : Z) : Prop := {
  id_sending : sending (trace s) = false;
  id_en : en (ch s) = false;
  id_irq : tcstat (ch s) = false /\ errstat (ch s) = false;
  id_out : uart_out s = take (Z.to_nat R) S }.

Definition link_ok (s : hal_trace) (S : list Z) (R : Z) : Prop :=
  length (dma_desc s) = 2%nat /\ (idle s S R \/ exists m s0 s1 ks, busy s S R m s0 s1 ks).

(** ** Starting a transfer *)
Lemma split_spec (S : list Z) R : 0 <= R < zlen S -> zlen S < R + SIZE -> exists s0 s1, split_sends SIZE (zlen S mod SIZE) (R mod SIZE) = (s0, s1) /\
  0 < s0 < 4096 /\ 0 <= s1 < 4096 /\ R + s0 + s1 <= zlen S /\ R mod SIZE + s0 <= SIZE /\
  (s1 <> 0 -> (if R mod SIZE + s0 <? SIZE then R mod SIZE + s0 else 0) = (R + s0) mod SIZE /\ (R + s0) mod SIZE + s1 <= SIZE).
Proof.
  intros HR HM. pose proof (place_add R (zlen S - R) ltac:(lia)) as HP. replace (R + (zlen S - R)) with (zlen S) in HP by lia.
  rewrite HP. pose proof (place_range R) as Hr. set (r := R mod SIZE) in *. remember (zlen S - R) as u eqn:Hu.
  assert (Hplace : forall n, 0 <= n < SIZE -> (R + n) mod SIZE = if r + n >=? SIZE then r + n - SIZE else r + n) by (intros; by apply place_add).
  clearbody r. clear HP. set (w := if r + u >=? SIZE then r + u - SIZE else r + u).
  assert (Hw : w = r + u /\ r + u < SIZE \/ w = r + u - SIZE /\ SIZE <= r + u) by (unfold w; zcases; lia). clearbody w.
  destruct (split_sends SIZE w r) as [s0 s1] eqn:E. exists s0, s1. split; [done|].
  unfold split_sends, HAL_DMA_MAX_DESC_XFER_SIZE in E.
  repeat (rewrite ?Z.gtb_ltb in E; match type of E with
          | context [if ?a <=? ?b then _ else _] => destruct (Z.leb_spec a b)
          | context [if ?a <? ?b then _ else _] => lazymatch b with context [if _ then _ else _] => fail | _ => destruct (Z.ltb_spec a b) end end);
    injection E as <- <-; split_and!; try lia; intros ?; rewrite Hplace by lia; zcases; lia.
Qed.

(** The descriptor of [n] bytes from a place. *)
Lemma init_desc_ok d n a next tc : 0 < n < 4096 -> 0 <= a -> a + n <= 2 ^ 32 -> exists w,
  (hal_dma_init_desc d (dma_cfg periph n a) next tc).2 = mkDesc a (hal_dma_get_periph_addr periph) next w /\
  get_transfersize w = n /\ good_word a w tc.
Proof.
  intros Hn Ha HB. assert (HU : u16 n = n) by (apply wrap_small; split; lia).
  destruct (init_control_spec (dma_cfg periph n a) tc DMA_CONTROL_SI) as (w & E & Hsz & H31 & H26 & _).
  - cbn [src_tsize dma_cfg]. unfold HAL_DMA_MAX_DESC_XFER_SIZE. lia.
  - reflexivity.
  - exists w. unfold hal_dma_init_desc. rewrite E. split; [reflexivity|]. cbn [src_tsize dma_cfg] in Hsz. rewrite HU in Hsz. split; [done|].
    unfold good_word. rewrite Hsz, H26, H31. split_and!; try done; lia.
Qed.

Lemma start_idle d cfg c : en c = false -> start_channel d cfg c = (HAL_DMA_OK, mkCh (d_src d) (d_dst d) (d_lli d) (d_ctrl d) true (handler cfg) false false).
Proof. intros H. unfold start_channel. by rewrite H. Qed.

Lemma place_u32 q : u32 (ADDR + q mod SIZE) = place q.
Proof. pose proof (place_range q). unfold place. apply u32_small. lia. Qed.

Lemma send_ok s S R : ring_ok (trace s) S R -> length (dma_desc s) = 2%nat -> idle s S R -> uart_transport s = true ->
  let s' := hal_trace_uart_dma_send SIZE ADDR periph s in
  ring_ok (trace s') S R /\ link_ok s' S R /\ (sending (trace s') = true \/ R = zlen S) /\
  discards (trace s') = discards (trace s) /\ in_trace (trace s') = in_trace (trace s) /\ pause_cnt (trace s') = pause_cnt (trace s) /\
  uart_transport s' = uart_transport s.
Proof.
  intros HO HD2 HI HU s'. pose proof (used_spec _ _ _ HO) as (_ & HWR & _). unfold s', hal_trace_uart_dma_send. rewrite (id_sending _ _ _ HI). cbn [negb andb].
  destruct (Z.eqb_spec (wptr (trace s)) (rptr (trace s))) as [HE|HE]; cbn [negb].
  { split; [done|]. split; [split; [done|by left]|]. split; [right; by apply HWR|done]. }
  assert (HRS : R < zlen S) by (destruct (decide (R = zlen S)); [naive_solver|]; pose proof (ro_R _ _ _ HO); lia).
  rewrite (ro_w _ _ _ HO), (ro_r _ _ _ HO). pose proof (ro_R _ _ _ HO) as HR.
  destruct (split_spec S R ltac:(lia) (ro_room _ _ _ HO)) as (s0 & s1 & -> & H0 & H1 & HIn & HF & HSec).
  assert (Hu0 : u16 s0 = s0) by (apply wrap_small; split; lia). assert (Hu1 : u16 s1 = s1) by (apply wrap_small; split; lia).
  rewrite place_u32. pose proof (place_range R) as Hr.
  assert (HP0 : 0 <= place R /\ place R + s0 <= 2 ^ 32) by (unfold place; lia).
  destruct (Z.eqb_spec s1 0) as [HZ|HZ].
  - subst s1. destruct (init_desc_ok (nth 0 (dma_desc s) no_desc) s0 (place R) 0 true H0 (proj1 HP0) (proj2 HP0)) as (w & Ew & Hsz & HG).
    rewrite Ew. cbn [nth]. rewrite (start_idle _ _ _ (id_en _ _ _ HI)). cbn [d_src d_dst d_lli d_ctrl].
    split; [destruct HO; by split|]. split; [|split; [by left|done]].
    split; [done|]. right. exists 0, s0, 0, []. split; cbn; rewrite ?Hu0, ?Hu1; try done; try lia.
    + rewrite (id_out _ _ _ HI). f_equal. lia.
    + unfold left_size. cbn. rewrite Hsz. lia.
    + left. split; [done|by left].
    + apply st_moving; [by split|]. unfold chain_load. cbn. rewrite app_nil_r, Hsz, span_places by lia. f_equal. f_equal; lia.
  - destruct (HSec HZ) as [HQ HB]. rewrite HQ, place_u32. pose proof (place_range (R + s0)).
    assert (HP1 : 0 <= place (R + s0) /\ place (R + s0) + s1 <= 2 ^ 32) by (unfold place; lia).
    destruct (init_desc_ok (nth 0 (dma_desc s) no_desc) s0 (place R) 2 false H0 (proj1 HP0) (proj2 HP0)) as (w0 & E0 & Hsz0 & HG0).
    destruct (init_desc_ok (nth 1 (dma_desc s) no_desc) s1 (place (R + s0)) 0 true ltac:(lia) (proj1 HP1) (proj2 HP1)) as (w1 & E1 & Hsz1 & HG1).
    rewrite E0, E1. cbn [nth]. rewrite (start_idle _ _ _ (id_en _ _ _ HI)). cbn [d_src d_dst d_lli d_ctrl].
    split; [destruct HO; by split|]. split; [|split; [by left|done]].
    split; [done|]. right. exists 0, s0, s1, [1%nat]. split; cbn; rewrite ?Hu0, ?Hu1; try done; try lia.
    + rewrite (id_out _ _ _ HI). f_equal. lia.
    + split; [done|]. eexists. split; [reflexivity|done].
    + unfold left_size. cbn. rewrite Hsz0, Hsz1. lia.
    + right. split; [done|]. split; [done|lia].
    + apply st_moving; [split; cbn; try done|].
      * split; [done|]. eexists. split; [reflexivity|done].
      * split; [|done]. eexists. split; [reflexivity|done].
      * unfold chain_load. cbn. rewrite app_nil_r, Hsz0, Hsz1, !span_places by lia. rewrite <- fmap_app. f_equal.
        replace (R + 0) with R by lia. replace (s0 + s1 - 0) with (s0 + s1) by lia. by rewrite seqZ_app by lia.
Qed.

(** ** The hardware *)
Lemma busy_remaining s S R m s0 s1 ks : length (dma_desc s) = 2%nat -> busy s S R m s0 s1 ks -> remaining s = s0 + s1 - m.
Proof.
  intros HD HB. unfold remaining. rewrite (sg_remain_spec _ _ ks); [apply (bu_left _ _ _ _ _ _ _ HB)|apply HB|]. rewrite HD. lia.
Qed.

Lemma busy_moving s S R m s0 s1 ks : busy s S R m s0 s1 ks -> en (ch s) = true ->
  carries (dma_desc s) (ch s) ks /\ chain_load (dma_desc s) (ch s) ks = place <$> seqZ (R + m) (s0 + s1 - m).
Proof. intros HB HE. destruct (bu_stage _ _ _ _ _ _ _ HB) as [ks HC HL|[HF _]|ks HF]; [done|congruence..]. Qed.

(** A unit moved is the next byte of the stream. *)
Lemma move_busy s S R m s0 s1 ks : ring_ok (trace s) S R -> busy s S R m s0 s1 ks -> en (ch s) = true ->
  exists s' ks', dma_move ADDR s = Some s' /\ busy s' S R (m + 1) s0 s1 ks' /\ errstat (ch s') = false /\ s' = set_out (uart_out s') (set_dma (dma_desc s) (ch s') s).
Proof.
  intros HO HB HE. destruct (busy_moving _ _ _ _ _ _ _ HB HE) as [HC HL].
  destruct (move_carries _ _ _ HC) as (c' & E & HM & HCase).
  pose proof (length_load (dma_desc s) (ch s) ks) as HLen. rewrite HL, length_fmap, length_seqZ in HLen.
  assert (Hm : m < s0 + s1).
  { destruct (ca_word _ _ _ HC) as [H1 _]. pose proof (total_nonneg (dma_desc s) ks). pose proof (bu_left _ _ _ _ _ _ _ HB) as H2. unfold left_size in H2. lia. }
  rewrite (seqZ_cons (R + m)) in HL by lia. rewrite fmap_cons in HL.
  assert (HAddr : SRCADDR (ch s) = place (R + m)) by (destruct HCase as [(ks' & _ & HX & _)|[_ HX]]; rewrite HX in HL; by injection HL).
  pose proof (bu_in _ _ _ _ _ _ _ HB) as HIn. pose proof (bu_m _ _ _ _ _ _ _ HB) as Hm0. pose proof (ro_room _ _ _ HO). pose proof (ro_R _ _ _ HO).
  assert (HX : exists x, buf (trace s) !! Z.to_nat (SRCADDR (ch s) - ADDR) = Some x /\ S !! Z.to_nat (R + m) = Some x).
  { rewrite HAddr. unfold place. replace (ADDR + (R + m) mod SIZE - ADDR) with ((R + m) mod SIZE) by lia.
    rewrite (ro_data _ _ _ HO) by lia. destruct (lookup_lt_is_Some_2 S (Z.to_nat (R + m))) as [x Hx]; [lia|]. by exists x. }
  destruct HX as (x & Hx & HxS). unfold dma_move. rewrite E. cbn [mbind option_bind]. rewrite Hx. cbn [mbind option_bind].
  assert (HOut : uart_out s ++ [x] = take (Z.to_nat (R + (m + 1))) S).
  { rewrite (bu_out _ _ _ _ _ _ _ HB). replace (Z.to_nat (R + (m + 1))) with (Datatypes.S (Z.to_nat (R + m))) by lia. by rewrite (take_S_r _ _ x). }
  destruct HB as [B1 B2 B3 B4 B5 B6 B7 B8 B9 B10 B11 B12 B13].
  destruct HCase as [(ks' & HC' & HX & HK)|[HR HX]]; rewrite HX in HL; injection HL as _ HL; eexists _; [exists ks'|exists []]; (split; [reflexivity|]);
    (split; [|split; [first [apply HC'|apply HR]|reflexivity]]); split; try done; try lia; cbn [set_out set_dma ch dma_desc trace uart_transport uart_out].
  - by rewrite HM.
  - apply HC'.
  - rewrite <- length_load, HL, length_fmap, length_seqZ. lia.
  - destruct B12 as [[-> HN]|(-> & HN)]; [left; split; [|lia]|].
    + destruct HK as [->|[_ [k Hk]]]; [done|done].
    + destruct HK as [->|(HK1 & k & [= <- <-])]; [by right|]. left. split; [done|]. right. unfold left_size in B11. cbn in B11. lia.
  - apply st_moving; [done|]. cbn. rewrite HL. f_equal. f_equal; lia.
  - by rewrite HM.
  - simpl. apply HR.
  - destruct HR as (_ & _ & _ & _ & HR). unfold left_size. rewrite HR. cbn. apply (f_equal length) in HL. rewrite length_fmap, length_seqZ in HL. simpl in HL. lia.
  - left. split; [done|right]. apply (f_equal length) in HL. rewrite length_fmap, length_seqZ in HL. simpl in HL. lia.
  - apply st_done; [done|]. apply (f_equal length) in HL. rewrite length_fmap, length_seqZ in HL. simpl in HL. lia.
Qed.

Lemma error_busy s S R m s0 s1 ks : busy s S R m s0 s1 ks -> en (ch s) = true -> busy (dma_error s) S R m s0 s1 ks.
Proof.
  intros HB HE. destruct (busy_moving _ _ _ _ _ _ _ HB HE) as [HC _]. destruct HB as [B1 B2 B3 B4 B5 B6 B7 B8 B9 B10 B11 B12 B13].
  split; try done. apply st_error; [done|apply HC|done].
Qed.

(** ** The interrupt *)
Lemma sent_total s S R m s0 s1 ks : busy s S R m s0 s1 ks -> en (ch s) = false ->
  exists x0 x1, sent_sizes (errstat (ch s)) (get_transfersize (CONTROL (ch s))) (negb (LLI (ch s) =? 0)%nat) (s0, s1) = (x0, x1) /\ x0 + x1 = m.
Proof.
  intros HB HE. unfold sent_sizes. destruct (bu_stage _ _ _ _ _ _ _ HB) as [? HC _|HR ->|ks _ _ ->]; [rewrite (ca_en _ _ _ HC) in HE; done| |].
  - destruct HR as (_ & _ & -> & _). by exists s0, s1.
  - pose proof (bu_left _ _ _ _ _ _ _ HB) as HL. unfold left_size in HL. pose proof (bu_path _ _ _ _ _ _ _ HB) as HP.
    pose proof (bu_m _ _ _ _ _ _ _ HB). pose proof (size_range (CONTROL (ch s))).
    destruct (bu_ks _ _ _ _ _ _ _ HB) as [[-> HK]|(-> & HK & H1)].
    + simpl in HP. rewrite HP. cbn in HL |- *. destruct (Z.eqb_spec s1 0); do 2 eexists; (split; [reflexivity|]); zcases; lia.
    + destruct HP as [-> _]. cbn in HL |- *. rewrite HK in HL. do 2 eexists. (split; [reflexivity|]). zcases; lia.
Qed.

(** A state with its ring, its channel and its counters in order; the last part: nothing waits. *)
Definition inv (s : hal_trace) (S : list Z) (n R : Z) : Prop :=
  ring_ok (trace s) S R /\ link_ok s S R /\ discards (trace s) = n /\ 0 <= n <= 65535 /\ in_trace (trace s) = false /\ 0 <= pause_cnt (trace s) < 256 /\
  (uart_transport s = true -> pause_cnt (trace s) = 0 -> sending (trace s) = true \/ R = zlen S).

Lemma idle_send s S n R : ring_ok (trace s) S R -> length (dma_desc s) = 2%nat -> idle s S R -> discards (trace s) = n -> 0 <= n <= 65535 ->
  in_trace (trace s) = false -> 0 <= pause_cnt (trace s) < 256 -> inv (hal_trace_send SIZE ADDR periph s) S n R.
Proof.
  intros HO HD HI Hn HN HT HP. unfold hal_trace_send. destruct (Z.eqb_spec (pause_cnt (trace s)) 0) as [H0|H0]; cbn [negb].
  - destruct (uart_transport s) eqn:HU.
    + destruct (send_ok s S R HO HD HI HU) as (H1 & H2 & H3 & H4 & H5 & H6 & H7).
      split; [done|]. split; [done|]. rewrite H4, H5, H6. split_and!; try done; lia.
    + split; [done|]. split; [split; [done|by left]|]. split_and!; try done; lia || congruence.
  - split; [done|]. split; [split; [done|by left]|]. split_and!; try done; lia || congruence.
Qed.

Lemma busy_send s S n R : inv s S n R -> sending (trace s) = true -> hal_trace_send SIZE ADDR periph s = s.
Proof. intros _ HE. unfold hal_trace_send, hal_trace_uart_dma_send. rewrite HE. cbn. by repeat case_match. Qed.

Lemma send_inv s S n R : inv s S n R -> inv (hal_trace_send SIZE ADDR periph s) S n R.
Proof.
  intros HI. pose proof HI as (HO & [HD [HId|(m & s0 & s1 & ks & HB)]] & Hn & HN & HT & HP & _); [by apply idle_send|].
  rewrite (busy_send s S n R HI); [done|apply HB].
Qed.

Lemma irq_inv s S n R m s0 s1 ks : inv s S n R -> busy s S R m s0 s1 ks -> en (ch s) = false -> inv (dma_irq SIZE ADDR periph s) S n (R + m).
Proof.
  intros (HO & [HD _] & Hn & HN & HT & HP & _) HB HE. destruct (sent_total _ _ _ _ _ _ _ HB HE) as (x0 & x1 & ES & Hx).
  assert (HIrq : tcstat (ch s) || errstat (ch s) = true).
  { destruct (bu_stage _ _ _ _ _ _ _ HB) as [? HC _|HR _|? _ _ ->]; [rewrite (ca_en _ _ _ HC) in HE; done|by destruct HR as (_ & -> & _)|by apply orb_true_r]. }
  unfold dma_irq, handle_channel_irq. rewrite HIrq, (bu_mask _ _ _ _ _ _ _ HB). unfold hal_trace_uart_xfer_done.
  cbn [trace set_dma]. rewrite (bu_sends _ _ _ _ _ _ _ HB), ES. set (s1' := upd_trace _ _).
  pose proof (bu_m _ _ _ _ _ _ _ HB) as Hm. pose proof (bu_in _ _ _ _ _ _ _ HB) as HIn. pose proof (ro_room _ _ _ HO) as HRoom. pose proof (ro_R _ _ _ HO) as HR.
  assert (HO' : ring_ok (trace s1') S (R + m)).
  { destruct HO as [A1 A2 A3 A4 A5 A6 A7]. split; cbn; try done; try lia. rewrite A5, Hx, advance_ok by lia. done. }
  assert (HI' : idle s1' S (R + m)) by (split; cbn; try done; apply HB).
  assert (E : (if pause_cnt (trace s1') =? 0 then hal_trace_uart_dma_send SIZE ADDR periph s1' else s1') = hal_trace_send SIZE ADDR periph s1').
  { unfold hal_trace_send. replace (uart_transport s1') with true by (symmetry; apply HB). by destruct (pause_cnt (trace s1') =? 0). }
  rewrite E. by apply idle_send.
Qed.

(** ** Records *)
Lemma digits_length n val : (length (digits n val) <= n)%nat.
Proof. revert val. induction n as [|n IH]; intros val; simpl; [lia|]. case_match; simpl; [lia|]. specialize (IH (val / 10)). lia. Qed.

Lemma discards_line_length n : zlen (discards_line CRLF n) <= sizeof_discards_buf CRLF.
Proof.
  unfold discards_line, sizeof_discards_buf, hal_trace_print_unsigned. generalize (rev (digits 10 (if n >? max_discards then max_discards else n))).
  intros l. assert (HT : (length (take (Z.to_nat 5) l) <= 5)%nat) by (rewrite length_take; lia). rewrite !length_app.
  unfold discards_prefix, NEW_LINE_STR. destruct CRLF; cbn [length app] in *; lia.
Qed.

Lemma link_grows s b S t R : link_ok s S R -> sending b = sending (trace s) -> sends b = sends (trace s) -> 0 <= R <= zlen S -> link_ok (set_trace b s) (S ++ t) R.
Proof.
  intros [HD HL] H1 H2 HR. split; [done|]. destruct HL as [[A1 A2 A3 A4]|(m & s0 & s1 & ks & [B1 B2 B3 B4 B5 B6 B7 B8 B9 B10 B11 B12 B13])]; [left|right].
  - split; cbn; try done; [congruence|]. rewrite A4. symmetry. apply take_app_le. lia.
  - exists m, s0, s1, ks. split; cbn; try done; try congruence.
    + rewrite length_app. lia.
    + rewrite B8. symmetry. apply take_app_le. lia.
    + destruct B13; by econstructor.
Qed.

Lemma copied s b S t n R : ring_ok b (S ++ t) R -> link_ok s S R -> sending b = sending (trace s) -> sends b = sends (trace s) -> 0 <= R <= zlen S ->
  discards b = n -> 0 <= n <= 65535 -> in_trace b = false -> 0 <= pause_cnt b < 256 ->
  inv (hal_trace_send SIZE ADDR periph (set_trace b s)) (S ++ t) n R.
Proof.
  intros HO HL H1 H2 HR Hn HN HT HP. pose proof (link_grows s b S t R HL H1 H2 HR) as [HD HL'].
  destruct HL' as [HI|(m & s0 & s1 & ks & HB)]; [by apply idle_send|].
  assert (HI : inv (set_trace b s) (S ++ t) n R).
  { split; [done|]. split; [split; [done|right; by exists m, s0, s1, ks]|]. cbn [trace set_trace]. split_and!; try done; try lia. intros _ _. left. apply (bu_sending _ _ _ _ _ _ _ HB). }
  rewrite (busy_send _ _ _ _ HI); [done|apply HB].
Qed.

Lemma send_in_trace i s : upd_trace (set_in_trace i) (hal_trace_send SIZE ADDR periph s) = hal_trace_send SIZE ADDR periph (upd_trace (set_in_trace i) s).
Proof.
  unfold hal_trace_send, hal_trace_uart_dma_send. cbn. destruct (pause_cnt (trace s) =? 0); [|done]. cbn. destruct (uart_transport s); [|done].
  destruct (negb (sending (trace s)) && negb (wptr (trace s) =? rptr (trace s))); [|done].
  destruct (split_sends SIZE (wptr (trace s)) (rptr (trace s))) as [s0 s1].
  change (ch (upd_trace (set_in_trace i) s)) with (ch s). change (dma_desc (upd_trace (set_in_trace i) s)) with (dma_desc s).
  match goal with |- context [start_channel ?a ?b ?c] => destruct (start_channel a b c) end. reflexivity.
Qed.

(** The parts of the state the applications own. *)
Definition same_app (s s' : hal_trace) : Prop :=
  app_output_cb s' = app_output_cb s /\ app_output_cb_valid s' = app_output_cb_valid s /\ app_output_enabled s' = app_output_enabled s /\ app_out s' = app_out s /\
  app_notify_cb s' = app_notify_cb s /\ app_states s' = app_states s.

Lemma same_app_trans s1 s2 s3 : same_app s1 s2 -> same_app s2 s3 -> same_app s1 s3.
Proof. unfold same_app. intros (-> & -> & -> & -> & -> & ->). done. Qed.

Lemma send_app s : same_app s (hal_trace_send SIZE ADDR periph s) /\ uart_transport (hal_trace_send SIZE ADDR periph s) = uart_transport s /\
  uart_out (hal_trace_send SIZE ADDR periph s) = uart_out s.
Proof.
  unfold hal_trace_send, hal_trace_uart_dma_send. repeat case_match; try done.
Qed.

Lemma output_inv bs s S n R : inv s S n R -> zlen bs < 2 ^ 31 ->
  exists a s', ring_output SIZE ADDR CRLF periph bs s = Some (a, s') /\ same_app s s' /\ uart_transport s' = uart_transport s /\ uart_out s' = uart_out s /\
    inv s' (written_step CRLF (S, n) (bs, a)).1 (written_step CRLF (S, n) (bs, a)).2 R.
Proof.
  intros (HO & HL & Hn & HN & HT & HP & HW) Hbs. unfold ring_output. rewrite HT. cbn [discards set_in_trace]. rewrite Hn.
  destruct (used_spec _ _ _ HO) as (HA' & _ & _). pose proof (ro_R _ _ _ HO) as HR. pose proof (ro_room _ _ _ HO) as HRoom.
  change (avail SIZE (set_in_trace true (trace s))) with (avail SIZE (trace s)). rewrite HA'.
  assert (HSz : 0 <= sizeof_discards_buf CRLF < 100) by (unfold sizeof_discards_buf; destruct CRLF; simpl; lia).
  set (extra := if n =? 0 then 0 else sizeof_discards_buf CRLF).
  assert (HE : 0 <= extra < 100) by (unfold extra; case_match; lia).
  rewrite u32_small by lia.
  destruct (Z.ltb_spec (SIZE - 1 - (zlen S - R)) (zlen bs + extra)) as [Hfull|Hroom].
  - exists false. eexists. split; [reflexivity|]. split; [done|]. split; [done|]. split; [done|]. cbn [written_step fst snd].
    assert (HU : n < 65535 -> u16 (n + 1) = n + 1) by (intros; apply wrap_small; split; lia).
    split; [|split; [|destruct (Z.ltb_spec n 65535)]].
    + destruct HO. by destruct (n <? 65535).
    + rewrite <- (app_nil_r S). by apply link_grows; [|destruct (n <? 65535)..|].
    + cbn. rewrite HU by done. split_and!; try done; lia.
    + cbn. split_and!; try done; lia.
  - assert (HPr : exists b1, (if n =? 0 then Some (set_in_trace true (trace s)) else set_discards 0 <$> hal_trace_print_discards SIZE CRLF n (set_in_trace true (trace s))) = Some b1 /\
        ring_ok b1 (S ++ (if n =? 0 then [] else discards_line CRLF n)) R /\ discards b1 = 0 /\ sending b1 = sending (trace s) /\ sends b1 = sends (trace s) /\ pause_cnt b1 = pause_cnt (trace s)).
    { assert (HO1 : ring_ok (set_in_trace true (trace s)) S R) by by destruct HO. destruct (Z.eqb_spec n 0) as [->|Hnz].
      - eexists. split; [reflexivity|]. rewrite app_nil_r. done.
      - unfold hal_trace_print_discards. pose proof (discards_line_length n). assert (HX : extra = sizeof_discards_buf CRLF) by done. rewrite HX in Hroom.
        destruct (copy_ok false (discards_line CRLF n) _ S R HO1) as (b1 & E & HO2 & H1 & H2 & H3 & H4 & H5 & H6); [lia|]. rewrite E.
        eexists. split; [reflexivity|]. split; [by destruct HO2|done]. }
    destruct HPr as (b1 & E1 & HO1 & D1 & S1 & X1 & P1). rewrite E1. cbn [mbind option_bind].
    set (line := if n =? 0 then [] else discards_line CRLF n) in *.
    assert (HLn : zlen line <= extra). { unfold line, extra. case_match; [done|apply discards_line_length]. }
    destruct (copy_ok true bs b1 (S ++ line) R HO1) as (b2 & E2 & HO2 & _ & D2 & S2 & _ & P2 & X2); [rewrite length_app; lia|].
    rewrite E2. cbn [mbind option_bind]. rewrite send_in_trace. exists true. eexists. split; [reflexivity|].
    destruct (send_app (upd_trace (set_in_trace false) (set_trace b2 s))) as (HA1 & HA2 & HA3). split; [done|]. split; [done|]. split; [done|].
    cbn [written_step fst snd]. change (if n =? 0 then [] else discards_line CRLF n) with line.
    change (upd_trace (set_in_trace false) (set_trace b2 s)) with (set_trace (set_in_trace false b2) s).
    rewrite <- app_assoc in HO2. apply copied; cbn; try done; try congruence; try lia.
    by destruct HO2.
Qed.

Lemma outputs_inv l s S n R : inv s S n R -> forallb (fun bs => zlen bs <? 2 ^ 31) l = true ->
  exists r s', ring_outputs SIZE ADDR CRLF periph l s = Some (r, s') /\ length r = length l /\ same_app s s' /\
    uart_transport s' = uart_transport s /\ inv s' (fold_left (written_step CRLF) (zip l r) (S, n)).1 (fold_left (written_step CRLF) (zip l r) (S, n)).2 R.
Proof.
  revert s S n. induction l as [|bs l IH]; intros s S n HI HF; [by exists [], s|].
  apply andb_true_iff in HF as [Hb%Z.ltb_lt HF]. destruct (output_inv bs s S n R HI Hb) as (a & s1 & E & HA1 & HU1 & _ & HI1).
  cbn [ring_outputs]. rewrite E. cbn [mbind option_bind]. destruct (IH s1 _ _ HI1 HF) as (r & s2 & E2 & HLr & HA2 & HU2 & HI2). rewrite E2.
  exists (a :: r), s2. split; [done|]. split; [simpl; lia|]. split; [by apply (same_app_trans s s1)|]. split; [congruence|].
  cbn [zip zip_with fold_left]. rewrite <- surjective_pairing in HI2. done.
Qed.
End Laws.
