(* ===== verification/HalTraceRuns.v ===== *)
(** The runs of the trace output: the invariant of HalTraceLaws.v through a record with the records of
    the applications, a pause, a flush and the moves of the hardware, and the flush to its end. *)
From Stdlib Require Import ZArith Lia Bool.
From stdpp Require Import base option list list_numbers.
From S2P Require Import Prelude HalDma HalDmaLaws HalTrace HalTraceLaws.

Section Runs.
Variable SIZE ADDR : Z.
Variable CRLF : bool.
Variable hz periph : Z.
Hypothesis HS : 0 < SIZE <= 32768.
Hypothesis HA : 0 <= ADDR /\ ADDR + SIZE <= 2 ^ 32.

#[local] Notation inv := (inv SIZE ADDR).
#[local] Notation busy := (busy SIZE ADDR).

(** A step of a record: the stream and the count after it. *)
Definition after (l : list (list Z * bool)) (S : list Z) (n : Z) : list Z * Z := fold_left (written_step CRLF) l (S, n).

Lemma inv_same s s' S n R : inv s S n R -> trace s' = trace s -> dma_desc s' = dma_desc s -> ch s' = ch s -> uart_transport s' = uart_transport s ->
  uart_out s' = uart_out s -> inv s' S n R.
Proof.
  intros (HO & [HD HL] & HR) E1 E2 E3 E4 E5. unfold HalTraceLaws.inv. rewrite E1, E4. split; [done|]. split; [|done]. split; [by rewrite E2|].
  destruct HL as [[]|(m & s0 & s1 & ks & [])]; [left|right; exists m, s0, s1, ks]; split; rewrite ?E1, ?E2, ?E3, ?E4, ?E5; try done.
  match goal with H : stage _ _ _ _ _ _ _ _ |- _ => destruct H end; [apply st_moving|apply st_done|apply st_error]; rewrite ?E2, ?E3; done.
Qed.

Lemma trace_output_inv bs nested s S n R : inv s S n R -> forallb (fun l => zlen l <? 2 ^ 31) (bs :: nested) = true ->
  exists r s', hal_trace_output SIZE ADDR CRLF periph bs nested s = Some (r, s') /\ uart_transport s' = uart_transport s /\
    inv s' (after (zip (bs :: nested) r) S n).1 (after (zip (bs :: nested) r) S n).2 R.
Proof.
  intros HI [Hb%Z.ltb_lt HF]%andb_true_iff. destruct (output_inv SIZE ADDR CRLF periph HS HA bs s S n R HI Hb) as (a & s1 & E & HA1 & HU1 & _ & HI1).
  unfold hal_trace_output. rewrite E. cbn [mbind option_bind]. destruct (app_output_cb_valid s1 && app_output_enabled s1).
  - set (s2 := set_app_out _ _ _). assert (HI2 : inv s2 (written_step CRLF (S, n) (bs, a)).1 (written_step CRLF (S, n) (bs, a)).2 R) by by apply (inv_same s1).
    destruct (outputs_inv SIZE ADDR CRLF periph HS HA nested s2 _ _ R HI2 HF) as (r & s3 & E3 & _ & _ & HU3 & HI3). rewrite E3. cbn [mbind option_bind].
    exists (a :: r), (set_app_enabled true s3). split; [done|]. split; [cbn; by rewrite HU3|]. apply (inv_same s3); try done.
    unfold after. cbn [zip zip_with fold_left]. by rewrite <- surjective_pairing in HI3.
  - exists [a], s1. split; [done|]. split; [done|]. unfold after. destruct nested; done.
Qed.

(** ** Pause *)
Lemma set_pause_inv s S n R c : inv s S n R -> 0 <= c < 256 -> (c = 0 -> sending (trace s) = true \/ R = zlen S \/ uart_transport s = false) ->
  inv (upd_trace (set_pause c) s) S n R.
Proof.
  intros (HO & HL & Hn & HN & HT & HP & HW) Hc H0. split; [by destruct HO|]. split.
  - rewrite <- (app_nil_r S). by apply (link_grows SIZE ADDR s (set_pause c (trace s)) S [] R HL); [..|apply HO].
  - cbn. split_and!; try done; try lia. intros HU Hz. destruct (H0 Hz) as [?|[?|?]]; [by left|by right|congruence].
Qed.

Lemma pause_inv s S n R : inv s S n R -> (pause_cnt (trace s) =? 0) && uart_transport s && en (ch s) = false ->
  exists r s', hal_trace_pause SIZE s = Some (r, s') /\ uart_transport s' = uart_transport s /\ inv s' S n R.
Proof.
  intros HI HC. unfold hal_trace_pause, hal_trace_uart_stop_dma_send.
  assert (E : (if (pause_cnt (trace s) =? 0) && uart_transport s then if en (ch s) then
      remain ← sg_remain_size (dma_desc s) (cancel_channel (ch s));
      Some (upd_trace (fun b => set_sends (0, 0) false (set_rptr (advance_rptr SIZE (rptr b) remain) b)) (set_dma (dma_desc s) (cancel_channel (ch s)) s))
      else Some s else Some s) = Some s) by (destruct ((pause_cnt (trace s) =? 0) && uart_transport s); [|done]; simpl in HC; by rewrite HC).
  cbv zeta. rewrite E. cbn [mbind option_bind]. pose proof HI as (_ & _ & _ & _ & _ & HP & _).
  destruct (Z.eqb_spec (u8 (pause_cnt (trace s) + 1)) 0) as [HZ|HZ]; [by exists 1, s|].
  eexists 0, _. split; [reflexivity|]. split; [done|]. apply set_pause_inv; [done| |done]. apply (wrap_range 8). lia.
Qed.

Lemma continue_inv s S n R : inv s S n R -> inv (hal_trace_continue SIZE ADDR periph s).2 S n R.
Proof.
  intros HI. pose proof HI as (HO & HL & Hn & HN & HT & HP & HW). unfold hal_trace_continue. destruct (Z.eqb_spec (pause_cnt (trace s)) 0) as [H0|H0]; [done|].
  cbn [snd]. set (s1 := upd_trace _ _). destruct (Z.eqb_spec (pause_cnt (trace s1)) 0) as [H1|H1].
  - change s1 with (set_trace (set_pause (pause_cnt (trace s) - 1) (trace s)) s). rewrite <- (app_nil_r S).
    apply copied; try done; try lia; [|apply HO|cbn in *; lia]. rewrite app_nil_r. by destruct HO.
  - apply set_pause_inv; [done|lia|]. cbn in H1. lia.
Qed.

(** ** The hardware *)
Lemma move_inv s S n R : inv s S n R -> en (ch s) = true -> exists s', dma_move ADDR s = Some s' /\ inv s' S n R /\ trace s' = trace s /\ uart_transport s' = uart_transport s.
Proof.
  intros (HO & [HD HL] & HR) HE. destruct HL as [HI|(m & s0 & s1 & ks & HB)]; [by rewrite (id_en _ _ _ HI) in HE|].
  destruct (move_busy SIZE ADDR s S R m s0 s1 ks HO HB HE) as (s' & ks' & E & HB' & _ & HX). exists s'. split; [done|].
  assert (HT : trace s' = trace s) by (by rewrite HX). assert (HU : uart_transport s' = uart_transport s) by (by rewrite HX).
  split; [|done]. unfold HalTraceLaws.inv. rewrite HT, HU. split; [done|]. split; [|done]. split; [by rewrite HX|]. right. by exists (m + 1), s0, s1, ks'.
Qed.

Lemma bus_error_inv s S n R : inv s S n R -> en (ch s) = true -> inv (dma_error s) S n R.
Proof.
  intros (HO & [HD HL] & HR) HE. destruct HL as [HI|(m & s0 & s1 & ks & HB)]; [by rewrite (id_en _ _ _ HI) in HE|].
  split; [done|]. split; [|done]. split; [done|]. right. exists m, s0, s1, ks. by apply error_busy.
Qed.

Lemma irq_busy s S n R : inv s S n R -> tcstat (ch s) || errstat (ch s) = true -> exists m s0 s1 ks, busy s S R m s0 s1 ks /\ en (ch s) = false.
Proof.
  intros (HO & [HD HL] & HR) HI. destruct HL as [HId|(m & s0 & s1 & ks & HB)].
  - destruct (id_irq _ _ _ HId) as [H1 H2]. by rewrite H1, H2 in HI.
  - exists m, s0, s1, ks. split; [done|]. destruct (bu_stage _ _ _ _ _ _ _ _ _ HB) as [? HC _|HQ _|]; [|apply HQ|done].
    by rewrite (ca_tc _ _ _ HC), (ca_err _ _ _ HC) in HI.
Qed.

Lemma irq_uart s : uart_transport (dma_irq SIZE ADDR periph s) = uart_transport s.
Proof.
  unfold dma_irq, hal_trace_uart_xfer_done. destruct (handle_channel_irq (ch s)) as [[[[remain error] lli]|] c]; [|done].
  destruct (sent_sizes _ _ _ _) as [x0 x1]. unfold hal_trace_uart_dma_send. repeat (case_match; try done).
Qed.

Lemma moves_inv k : forall s S n R, inv s S n R -> exists s', dma_moves ADDR k s = Some s' /\ inv s' S n R /\ trace s' = trace s /\ uart_transport s' = uart_transport s.
Proof.
  induction k as [|k IH]; intros s S n R HI; [by exists s|]. cbn [dma_moves]. destruct (en (ch s)) eqn:HE; [|by exists s].
  destruct (move_inv s S n R HI HE) as (s1 & E & HI1 & HT1 & HU1). rewrite E. cbn [mbind option_bind].
  destruct (IH s1 S n R HI1) as (s2 & E2 & HI2 & HT2 & HU2). exists s2. split; [done|]. split; [done|]. split; congruence.
Qed.

Lemma wait_inv o s S n R : inv s S n R -> exists s', dma_wait ADDR o s = Some s' /\ inv s' S n R /\ trace s' = trace s /\ uart_transport s' = uart_transport s.
Proof.
  intros HI. destruct o as [k|]; cbn [dma_wait]; [|by apply moves_inv]. destruct (moves_inv k s S n R HI) as (s1 & E & HI1 & HT1 & HU1). rewrite E.
  cbn [mbind option_bind]. destruct (en (ch s1)) eqn:HE; [|by exists s1]. exists (dma_error s1). split; [done|]. split; [by apply bus_error_inv|done].
Qed.

(** ** The flush *)
Lemma flush_round s S n R o : inv s S n R -> exists s1 R', dma_wait ADDR o s = Some s1 /\
  inv (if tcstat (ch s1) || errstat (ch s1) then dma_irq SIZE ADDR periph s1 else hal_trace_send SIZE ADDR periph s1) S n R' /\ R <= R' /\
  uart_transport (if tcstat (ch s1) || errstat (ch s1) then dma_irq SIZE ADDR periph s1 else hal_trace_send SIZE ADDR periph s1) = uart_transport s.
Proof.
  intros HI. destruct (wait_inv o s S n R HI) as (s1 & E & HI1 & _ & HU1). exists s1. destruct (tcstat (ch s1) || errstat (ch s1)) eqn:HQ.
  - destruct (irq_busy s1 S n R HI1 HQ) as (m & s0 & s1' & ks & HB & HE). exists (R + m). split; [done|]. split; [by eapply irq_inv|].
    split; [pose proof (bu_m _ _ _ _ _ _ _ _ _ HB); lia|]. by rewrite irq_uart.
  - exists R. split; [done|]. split; [by apply send_inv|]. split; [lia|]. destruct (send_app SIZE ADDR periph s1) as (_ & -> & _). done.
Qed.

Lemma flush_loop_inv rounds time : forall s S n R s', inv s S n R -> flush_loop SIZE ADDR hz periph rounds time s = Some s' ->
  exists R', inv s' S n R' /\ uart_transport s' = uart_transport s.
Proof.
  induction rounds as [|[now o] l IH]; intros s S n R s' HI; cbn [flush_loop]; case_match; try done; try (intros [= <-]; by exists R).
  case_match; [|intros [= <-]; by exists R]. destruct (flush_round s S n R o HI) as (s1 & R1 & E & HI1 & _ & HU1). rewrite E. cbn [mbind option_bind].
  intros HL. destruct (IH _ _ _ _ _ HI1 HL) as (R2 & HI2 & HU2). exists R2. split; [done|congruence].
Qed.

Lemma flush_inv time rounds s S n R r s' : inv s S n R -> hal_trace_flush_buffer SIZE ADDR hz periph time rounds s = Some (r, s') ->
  exists R', inv s' S n R' /\ uart_transport s' = uart_transport s.
Proof.
  intros HI. unfold hal_trace_flush_buffer. case_match; [intros [= <- <-]; by exists R|]. case_match; [|intros [= <- <-]; by exists R].
  intros (s1 & E & [= <- <-])%bind_Some. by eapply flush_loop_inv.
Qed.

(** The pause count is the callers'. *)
Lemma send_pause s : pause_cnt (trace (hal_trace_send SIZE ADDR periph s)) = pause_cnt (trace s).
Proof. unfold hal_trace_send, hal_trace_uart_dma_send. repeat case_match; done. Qed.

Lemma irq_pause s : pause_cnt (trace (dma_irq SIZE ADDR periph s)) = pause_cnt (trace s).
Proof.
  unfold dma_irq, hal_trace_uart_xfer_done. destruct (handle_channel_irq (ch s)) as [[[[remain error] lli]|] c]; [|done].
  destruct (sent_sizes _ _ _ _) as [x0 x1]. unfold hal_trace_uart_dma_send. repeat (case_match; try done).
Qed.

Lemma dma_send_error s : errstat (ch s) = false -> errstat (ch (hal_trace_uart_dma_send SIZE ADDR periph s)) = false.
Proof.
  intros H. unfold hal_trace_uart_dma_send. destruct (negb (sending (trace s)) && negb (wptr (trace s) =? rptr (trace s))); [|done].
  destruct (split_sends SIZE (wptr (trace s)) (rptr (trace s))) as [s0 s1]. unfold start_channel. by destruct (en (ch s)).
Qed.

Lemma irq_error s : tcstat (ch s) || errstat (ch s) = true -> errstat (ch (dma_irq SIZE ADDR periph s)) = false.
Proof.
  intros H. unfold dma_irq, handle_channel_irq. rewrite H. destruct (irq_mask (ch s)); [|done]. unfold hal_trace_uart_xfer_done.
  destruct (sent_sizes _ _ _ _) as [x0 x1]. case_match; [|done]. by apply dma_send_error.
Qed.

(** A transfer left alone ends. *)
Lemma drain_busy k : forall s S n R m s0 s1 ks, inv s S n R -> busy s S R m s0 s1 ks -> en (ch s) = true -> Z.to_nat (s0 + s1 - m) = k ->
  exists s' ks', dma_moves ADDR k s = Some s' /\ inv s' S n R /\ busy s' S R (s0 + s1) s0 s1 ks' /\ en (ch s') = false /\ trace s' = trace s /\ errstat (ch s') = false.
Proof.
  induction k as [|k IH]; intros s S n R m s0 s1 ks HI HB HE Hk.
  - destruct (busy_moving _ _ _ _ _ _ _ _ _ HB HE) as [HC _]. destruct (ca_word _ _ _ HC) as [H1 _]. pose proof (total_nonneg (dma_desc s) ks).
    pose proof (bu_left _ _ _ _ _ _ _ _ _ HB) as H2. unfold left_size in H2. lia.
  - cbn [dma_moves]. rewrite HE. destruct (move_inv s S n R HI HE) as (s1' & E & HI1 & HT & _).
    destruct (move_busy SIZE ADDR s S R m s0 s1 ks (proj1 HI) HB HE) as (s2 & ks2 & E2 & HB2 & HEr & _). rewrite E in E2. injection E2 as <-.
    rewrite E. cbn [mbind option_bind]. destruct (en (ch s1')) eqn:HE1.
    + destruct (IH s1' S n R (m + 1) s0 s1 ks2 HI1 HB2 HE1 ltac:(lia)) as (s3 & ks3 & E3 & HI3 & HB3 & HE3 & HT3 & HEr3).
      exists s3, ks3. split_and!; try done. congruence.
    + exists s1', ks2. assert (Hm : m + 1 = s0 + s1).
      { destruct (bu_stage _ _ _ _ _ _ _ _ _ HB2) as [? HC _|_ ?|? _ _ HX]; [rewrite (ca_en _ _ _ HC) in HE1; done|done|congruence]. }
      split; [destruct k; cbn; by rewrite ?HE1|]. split_and!; try done. by rewrite <- Hm.
Qed.

(** A round without errors takes the flush further, unless it finds an error left. *)
Lemma quiet_round s S n R : inv s S n R -> uart_transport s = true -> pause_cnt (trace s) = 0 -> R < zlen S -> exists s' R',
  (s1 ← dma_wait ADDR None s; Some (if tcstat (ch s1) || errstat (ch s1) then dma_irq SIZE ADDR periph s1 else hal_trace_send SIZE ADDR periph s1)) = Some s' /\
  inv s' S n R' /\ uart_transport s' = true /\ pause_cnt (trace s') = 0 /\ (R < R' \/ R' = R /\ errstat (ch s) = true /\ errstat (ch s') = false).
Proof.
  intros HI HU HP HR. pose proof HI as (HO & [HD HL] & _ & _ & _ & _ & HW). assert (HSd : sending (trace s) = true) by (destruct (HW HU HP); [done|lia]).
  destruct HL as [HId|(m & s0 & s1 & ks & HB)]; [by rewrite (id_sending _ _ _ HId) in HSd|].
  assert (HX : exists s1' m' ks', dma_wait ADDR None s = Some s1' /\ inv s1' S n R /\ busy s1' S R m' s0 s1 ks' /\ en (ch s1') = false /\ trace s1' = trace s /\
    (m' = s0 + s1 \/ m' = m /\ errstat (ch s) = true)).
  { cbn [dma_wait]. rewrite (busy_remaining _ _ _ _ _ _ _ _ _ HD HB). destruct (en (ch s)) eqn:HE.
    - destruct (drain_busy _ s S n R m s0 s1 ks HI HB HE eq_refl) as (s' & ks' & E & HI' & HB' & HE' & HT' & _). exists s', (s0 + s1), ks'. split_and!; try done. by left.
    - exists s, m, ks. split; [destruct (Z.to_nat _); cbn; by rewrite ?HE|]. split_and!; try done.
      destruct (bu_stage _ _ _ _ _ _ _ _ _ HB) as [? HC _|_ ?|? _ _ ?]; [rewrite (ca_en _ _ _ HC) in HE; done|by left|by right]. }
  destruct HX as (s1' & m' & ks' & E & HI1 & HB1 & HE1 & HT1 & Hm'). rewrite E. cbn [mbind option_bind].
  assert (HQ : tcstat (ch s1') || errstat (ch s1') = true).
  { destruct (bu_stage _ _ _ _ _ _ _ _ _ HB1) as [? HC _|HQ _|? _ _ ->]; [rewrite (ca_en _ _ _ HC) in HE1; done|by destruct HQ as (_ & -> & _)|by rewrite orb_true_r]. }
  rewrite HQ. assert (HI2 : inv (dma_irq SIZE ADDR periph s1') S n (R + m')) by by eapply irq_inv. eexists _, _. split; [reflexivity|]. split; [done|].
  assert (HU2 : uart_transport (dma_irq SIZE ADDR periph s1') = true) by (rewrite irq_uart; apply HB1).
  assert (HP2 : pause_cnt (trace (dma_irq SIZE ADDR periph s1')) = 0) by (rewrite irq_pause; congruence).
  split; [done|]. split; [done|]. pose proof (bu_m _ _ _ _ _ _ _ _ _ HB1). pose proof (bu_s0 _ _ _ _ _ _ _ _ _ HB1). pose proof (bu_s1 _ _ _ _ _ _ _ _ _ HB1).
  destruct (decide (m' = 0)) as [Hz|Hz]; [|left; lia]. right. split; [lia|]. destruct Hm' as [?|[? ?]]; [lia|]. split; [done|].
  by apply irq_error.
Qed.

Lemma flush_done k : forall rounds time s S n R, inv s S n R -> uart_transport s = true -> pause_cnt (trace s) = 0 ->
  Forall (fun r => u32 (r.1 - time) < TRACE_FLUSH_TIMEOUT hz /\ r.2 = None) rounds ->
  2 * (zlen S - R) + (if errstat (ch s) then 1 else 0) <= Z.of_nat k -> (k <= length rounds)%nat ->
  exists s', flush_loop SIZE ADDR hz periph rounds time s = Some s' /\ inv s' S n (zlen S) /\ uart_transport s' = true.
Proof.
  induction k as [|k IH]; intros rounds time s S n R HI HU HP HF Hk HL; pose proof (proj1 HI) as HO; pose proof (ro_R _ _ _ _ HO) as HR;
    destruct (used_spec SIZE HS _ _ _ HO) as (_ & HWR & _).
  - assert (R = zlen S) as -> by (destruct (errstat (ch s)); lia). exists s. split; [|done].
    assert (HE : (wptr (trace s) =? rptr (trace s)) = true) by (apply Z.eqb_eq; by apply HWR). destruct rounds as [|[now o] l]; cbn; by rewrite HE.
  - destruct (decide (R = zlen S)) as [->|HN].
    { exists s. split; [|done]. assert (HE : (wptr (trace s) =? rptr (trace s)) = true) by (apply Z.eqb_eq; by apply HWR). destruct rounds as [|[now o] l]; cbn; by rewrite HE. }
    destruct rounds as [|[now o] l]; [simpl in HL; lia|]. apply Forall_cons in HF as [[Ht Ho] HF]. cbn in Ht, Ho. subst o. simpl in HL.
    cbn [flush_loop]. assert (HE : (wptr (trace s) =? rptr (trace s)) = false) by (apply Z.eqb_neq; by intros HE%HWR). rewrite HE, (proj2 (Z.ltb_lt _ _) Ht).
    destruct (quiet_round s S n R HI HU HP ltac:(lia)) as (s' & R' & E & HI' & HU' & HP' & HC). apply bind_Some in E as (s1 & E & [= <-]). rewrite E. cbn [mbind option_bind].
    apply (IH l time _ S n R' HI' HU' HP' HF); [|lia]. pose proof (ro_R _ _ _ _ (proj1 HI')).
    destruct HC as [HC|(-> & HE1 & HE2)]; [repeat case_match; lia|]. rewrite HE1 in Hk. rewrite HE2. lia.
Qed.

(** ** Runs *)
Lemma exec_inv e s S n R a s' : inv s S n R -> enabled e s = true -> exec SIZE ADDR CRLF hz periph e s = Some (a, s') -> no_cut (e, a) ->
  exists R', inv s' (after (records [(e, a)]) S n).1 (after (records [(e, a)]) S n).2 R' /\ uart_transport s' = uart_transport s.
Proof.
  intros HI HE HX HN. destruct e as [bs nested| | | |time rounds| | |]; cbn [records flat_map fst snd app after fold_left].
  - destruct (trace_output_inv bs nested s S n R HI HE) as (r & s1 & E & HU & HI1). cbn in HX. rewrite E in HX. injection HX as <- <-.
    exists R. rewrite app_nil_r. by split.
  - injection HX as <- <-. exists R. split; [by apply send_inv|]. by destruct (send_app SIZE ADDR periph s) as (_ & -> & _).
  - apply bind_Some in HX as ([r s1] & E & [= <- <-]). unfold no_cut in HN. cbn in HN. injection HN as HN.
    destruct (pause_inv s S n R HI HN) as (r' & s' & E' & HU & HI'). rewrite E in E'. injection E' as <- <-. by exists R.
  - injection HX as <- <-. exists R. split; [by apply continue_inv|]. unfold hal_trace_continue. case_match; [done|]. cbn [snd]. case_match; [|done].
    by destruct (send_app SIZE ADDR periph (upd_trace (set_pause (pause_cnt (trace s) - 1)) s)) as (_ & -> & _).
  - apply bind_Some in HX as ([r s1] & E & [= <- <-]). by apply (flush_inv _ _ _ _ _ _ _ _ HI) in E.
  - apply bind_Some in HX as (s1 & E & [= <- <-]). destruct (move_inv s S n R HI HE) as (s' & E' & HI' & _ & HU). rewrite E in E'. injection E' as <-. by exists R.
  - injection HX as <- <-. exists R. split; [by apply bus_error_inv|done].
  - injection HX as <- <-. destruct (irq_busy s S n R HI HE) as (m & s0 & s1 & ks & HB & HEn). exists (R + m). split; [by eapply irq_inv|apply irq_uart].
Qed.

(** Every operation but a flush that runs out of rounds has a result. *)
Lemma exec_total e s S n R : inv s S n R -> enabled e s = true -> (forall time rounds, e <> Flush time rounds) ->
  ((pause_cnt (trace s) =? 0) && uart_transport s && en (ch s) = true -> e <> Pause) -> exec SIZE ADDR CRLF hz periph e s <> None.
Proof.
  intros HI HE HF HP. destruct e as [bs nested| | | |time rounds| | |]; try done; cbn [exec].
  - destruct (trace_output_inv bs nested s S n R HI HE) as (r & s1 & -> & _). done.
  - destruct ((pause_cnt (trace s) =? 0) && uart_transport s && en (ch s)) eqn:HC; [by destruct (HP eq_refl)|].
    destruct (pause_inv s S n R HI HC) as (r & s' & -> & _). done.
  - by destruct (HF time rounds).
  - destruct (move_inv s S n R HI HE) as (s' & -> & _). done.
Qed.

Lemma after_app l1 l2 S n : after (l1 ++ l2) S n = after l2 (after l1 S n).1 (after l1 S n).2.
Proof. unfold after. by rewrite fold_left_app, <- surjective_pairing. Qed.

Lemma records_app l1 l2 : records (l1 ++ l2) = records l1 ++ records l2.
Proof. apply flat_map_app. Qed.

(** The state after the opening. *)
Definition fresh (uart app : bool) : hal_trace := hal_trace_open uart (reset_trace SIZE app).

Lemma fresh_inv uart app : inv (fresh uart app) [] 0 0.
Proof.
  unfold fresh. split; [|split; [split; [done|left]|]].
  - split; cbn; try done; try lia. rewrite length_replicate. lia.
  - split; try done.
  - cbn. split_and!; try done; try lia.
Qed.

Lemma trace_reach_inv uart app tr s : reach SIZE ADDR CRLF hz periph (fresh uart app) tr s -> Forall no_cut tr ->
  exists R, inv s (written CRLF (records tr)).1 (written CRLF (records tr)).2 R /\ uart_transport s = uart.
Proof.
  induction 1 as [|tr s e a s' HR IH HE HX]; intros HF; [exists 0; split; [apply fresh_inv|done]|].
  apply Forall_app in HF as [HF Hc]. apply Forall_inv in Hc. destruct (IH HF) as (R & HI & HU).
  destruct (exec_inv e s _ _ R a s' HI HE HX Hc) as (R' & HI' & HU'). exists R'. split; [|congruence].
  rewrite records_app. unfold written. fold (after (records tr ++ records [(e, a)]) [] 0). rewrite after_app. exact HI'.
Qed.
End Runs.
