(* ===== verification/HalTraceProps.v ===== *)
(** The properties of the trace output and of the channels it uses: what reaches the UART is what was
    logged, a flush ends with all of it sent, the history is the end of the log, the numbers printed
    read back; a channel moves what its descriptors say, and no two drivers hold one channel. *)
From Stdlib Require Import ZArith Lia Bool.
From stdpp Require Import base option list list_numbers.
From S2P Require Import Prelude HalDma HalDmaLaws HalTrace HalTraceLaws HalTraceRuns.

Section Props.
Variable SIZE ADDR : Z.
Variable CRLF : bool.
Variable hz periph : Z.
Hypothesis HS : 0 < SIZE <= 32768.
Hypothesis HA : 0 <= ADDR /\ ADDR + SIZE <= 2 ^ 32.

(** ** The bytes not yet moved *)
Lemma slice_spec b (S : list Z) R q n : ring_ok SIZE b S R -> R <= q -> 0 <= n -> q + n <= zlen S ->
  ring_slice SIZE b (q mod SIZE) (Z.to_nat n) = take (Z.to_nat n) (drop (Z.to_nat q) S).
Proof.
  intros HO Hq Hn HB. pose proof (ro_R _ _ _ _ HO). pose proof (ro_room _ _ _ _ HO).
  apply list_eq_same_length with (Z.to_nat n); [rewrite length_take, length_drop; lia|unfold ring_slice; by rewrite length_fmap, length_seq|].
  intros i x y Hi Hx Hy. unfold ring_slice in Hx. rewrite list_lookup_fmap, lookup_seq_lt in Hx by done. cbn in Hx. injection Hx as <-.
  rewrite lookup_take_lt, lookup_drop in Hy by done. rewrite Z.add_mod_idemp_l by lia.
  apply nth_lookup_Some with (d := 0) in Hy. rewrite nth_lookup in Hy |- *. rewrite (ro_data _ _ _ _ HO) by lia.
  rewrite <- Hy. f_equal. f_equal. lia.
Qed.

Lemma slice_mod b q n : ring_slice SIZE b q n = ring_slice SIZE b (q mod SIZE) n.
Proof. unfold ring_slice. apply list_fmap_ext. intros i x _. by rewrite Z.add_mod_idemp_l by lia. Qed.

Lemma unsent_spec s S n R : inv SIZE ADDR s S n R -> S = uart_out s ++ unsent SIZE s /\ zlen (unsent SIZE s) < SIZE /\ (sending (trace s) = false -> R = zlen S -> unsent SIZE s = []).
Proof.
  intros (HO & [HD HL] & _). destruct (used_spec SIZE HS _ _ _ HO) as (_ & _ & HU). unfold unsent. rewrite HU, slice_mod.
  pose proof (ro_R _ _ _ _ HO). pose proof (ro_room _ _ _ _ HO).
  assert (HM : exists m, moved s = m /\ 0 <= m /\ R + m <= zlen S /\ uart_out s = take (Z.to_nat (R + m)) S).
  { unfold moved. destruct HL as [HId|(m & s0 & s1 & ks & HB)].
    - exists 0. rewrite (id_sending _ _ _ HId), (id_out _ _ _ HId). split_and!; try done; try lia. f_equal. lia.
    - exists m. rewrite (bu_sending _ _ _ _ _ _ _ _ _ HB), (bu_sends _ _ _ _ _ _ _ _ _ HB), (busy_remaining _ _ _ _ _ _ _ _ _ HD HB). cbn [fst snd].
      pose proof (bu_m _ _ _ _ _ _ _ _ _ HB). pose proof (bu_in _ _ _ _ _ _ _ _ _ HB). split_and!; try lia. apply HB. }
  destruct HM as (m & -> & Hm0 & HmS & HOut). rewrite (ro_r _ _ _ _ HO), Z.add_mod_idemp_l by lia.
  rewrite (slice_spec _ S R (R + m)) by (done || lia). rewrite (take_ge (drop _ _)) by (rewrite length_drop; lia). rewrite HOut, take_drop.
  split; [done|]. split; [rewrite length_drop; lia|]. intros _ HR. apply nil_length_inv. rewrite length_drop. lia.
Qed.

(** ** Numbers *)
Definition decimal (l : list Z) : Z := fold_left (fun a c => a * 10 + (c - 48)) l 0.

Lemma decimal_snoc l c : decimal (l ++ [c]) = decimal l * 10 + (c - 48).
Proof. unfold decimal. by rewrite fold_left_app. Qed.

Lemma digits_value k : forall v, 0 <= v < 10 ^ Z.of_nat k -> (0 < k)%nat -> decimal (rev (digits k v)) = v /\ Forall (fun c => 48 <= c <= 57) (digits k v).
Proof.
  induction k as [|k IH]; intros v Hv Hk; [lia|]. cbn [digits rev]. rewrite decimal_snoc. pose proof (Z.div_mod v 10 ltac:(lia)). pose proof (Z.mod_pos_bound v 10 ltac:(lia)).
  destruct (Z.eqb_spec (v / 10) 0) as [HZ|HZ].
  - cbn. split; [unfold decimal; cbn; lia|]. repeat constructor; lia.
  - assert (HP : 10 ^ Z.of_nat (S k) = 10 * 10 ^ Z.of_nat k) by (rewrite Nat2Z.inj_succ, Z.pow_succ_r by lia; done).
    pose proof (Z.div_pos v 10 ltac:(lia) ltac:(lia)). assert (Hk' : (0 < k)%nat). { destruct k; [|lia]. change (10 ^ Z.of_nat 1) with 10 in Hv. rewrite Z.div_small in HZ by lia. done. }
    assert (v / 10 < 10 ^ Z.of_nat k) by (apply Z.div_lt_upper_bound; lia).
    destruct (IH (v / 10)) as [-> HF]; [lia|done|]. split; [lia|]. apply List.Forall_cons; [lia|done].
Qed.

Lemma decimal_take l : forall k, Forall (fun c => 48 <= c <= 57) l -> decimal (take (length l - k) l) = decimal l / 10 ^ Z.of_nat k.
Proof.
  induction l as [|c l IH] using rev_ind; intros k HF; [rewrite take_nil; by rewrite Z.div_0_l by (apply Z.pow_nonzero; lia)|].
  apply Forall_app in HF as [HF Hc]. apply Forall_inv in Hc. rewrite decimal_snoc, length_app. simpl. destruct k as [|k].
  - rewrite take_ge by (rewrite length_app; simpl; lia). rewrite decimal_snoc. change (10 ^ Z.of_nat 0) with 1. by rewrite Z.div_1_r.
  - replace (length l + 1 - S k)%nat with (length l - k)%nat by lia. rewrite take_app_le by lia. rewrite IH by done.
    rewrite Nat2Z.inj_succ, Z.pow_succ_r, <- Z.div_div by (try apply Z.pow_pos_nonneg; lia). f_equal. apply Z.div_unique with (c - 48); lia.
Qed.
End Props.

(** ** Runs *)
Lemma trace_run_reach SIZE ADDR CRLF hz periph es : forall s0 tr0 s, reach SIZE ADDR CRLF hz periph s0 tr0 s -> forall tr s',
  run SIZE ADDR CRLF hz periph es s = Some (tr, s') -> reach SIZE ADDR CRLF hz periph s0 (tr0 ++ tr) s'.
Proof.
  induction es as [|e es IH]; intros s0 tr0 s HR tr s'; cbn [run]; [intros [= <- <-]; by rewrite app_nil_r|].
  intros ([a s1] & E & ([tr2 s2] & E2 & [= <- <-])%bind_Some)%bind_Some. unfold step in E. destruct (enabled e s) eqn:HE; [|done].
  change ((e, a) :: tr2) with ([(e, a)] ++ tr2). rewrite app_assoc. eapply IH; [|done]. by econstructor.
Qed.

(** ** Properties *)

(** C5: Whatever the records, the moves, errors and interrupts of the channel, pauses between
    transfers and flushes: what the UART has received followed by what is left in the ring is the
    stream of the records taken, each loss told by a line with its number before the next record; no
    operation leaves an array or fails; and with an open UART and no pause a byte left in the ring is
    under way. *)
Theorem trace_stream SIZE ADDR CRLF hz periph uart app tr s : 0 < SIZE <= 32768 -> 0 <= ADDR -> ADDR + SIZE <= 2 ^ 32 ->
  reach SIZE ADDR CRLF hz periph (fresh SIZE uart app) tr s -> Forall no_cut tr ->
  (written CRLF (records tr)).1 = uart_out s ++ unsent SIZE s /\ zlen (unsent SIZE s) < SIZE /\
  (written CRLF (records tr)).2 = discards (trace s) /\
  (forall e, enabled e s = true -> (forall time rounds, e <> Flush time rounds) ->
    ((pause_cnt (trace s) =? 0) && uart_transport s && en (ch s) = true -> e <> Pause) -> exec SIZE ADDR CRLF hz periph e s <> None) /\
  (uart = true -> pause_cnt (trace s) = 0 -> unsent SIZE s <> [] -> sending (trace s) = true /\ en (ch s) || tcstat (ch s) || errstat (ch s) = true).
Proof.
  intros HS HA1 HA2 HR HF. destruct (trace_reach_inv SIZE ADDR CRLF hz periph HS (conj HA1 HA2) uart app tr s HR HF) as (R & HI & HU).
  destruct (unsent_spec SIZE ADDR HS s _ _ R HI) as (H1 & H2 & H3). split; [done|]. split; [done|].
  pose proof HI as (_ & [_ HL] & Hn & _ & _ & _ & HW). split; [done|]. split; [intros e; by apply (exec_total SIZE ADDR CRLF hz periph HS (conj HA1 HA2) e s _ _ R HI)|].
  intros -> HP HN. assert (HSd : sending (trace s) = true).
  { destruct (HW HU HP) as [?|HE]; [done|]. destruct (sending (trace s)) eqn:E; [done|]. by destruct (HN (H3 eq_refl HE)). }
  split; [done|]. destruct HL as [HId|(m & s0 & s1 & ks & HB)]; [by rewrite (id_sending _ _ _ HId) in HSd|].
  destruct (bu_stage _ _ _ _ _ _ _ _ _ HB) as [? HC _|HQ _|? _ _ ->]; [by rewrite (ca_en _ _ _ HC)|destruct HQ as (_ & -> & _)|]; by rewrite !orb_true_r.
Qed.

(** A ring of 32 bytes: a record, one too long after it, moves, and a record after the loss. *)
Definition demo : list event :=
  [Output [65; 66; 67; 10] []; Move; Output (replicate 30 88) []; Move; Move; Move; Irq; Output [68; 69; 10] []; Move; Move].
Definition demo_run : option (list (event * list bool) * hal_trace) := run 32 0x20000000 false 16 20 demo (fresh 32 true false).
Definition demo_tr : list (event * list bool) := match demo_run with Some x => x.1 | None => [] end.
Definition demo_s : hal_trace := match demo_run with Some x => x.2 | None => fresh 32 true false end.

Lemma trace_stream_witness : exists tr s, reach 32 0x20000000 false 16 20 (fresh 32 true false) tr s /\
  uart_out s ++ unsent 32 s = [65; 66; 67; 10] ++ [10; 76; 79; 83; 84; 32; 49; 10] ++ [68; 69; 10] /\ uart_out s = [65; 66; 67; 10; 10; 76].
Proof.
  exists demo_tr, demo_s. assert (HR : reach 32 0x20000000 false 16 20 (fresh 32 true false) demo_tr demo_s).
  { apply (trace_run_reach _ _ _ _ _ demo _ [] _ (reach_open _ _ _ _ _ _)). vm_compute. reflexivity. }
  split; [exact HR|]. split; [|vm_compute; reflexivity].
  refine (eq_trans (eq_sym (proj1 (trace_stream 32 0x20000000 false 16 20 true false demo_tr demo_s _ _ _ HR _))) _).
  - split; [reflexivity|discriminate].
  - discriminate.
  - discriminate.
  - vm_compute. repeat (apply List.Forall_cons; [exact I|]). apply List.Forall_nil.
  - vm_compute. reflexivity.
Defined.

(** C21: A flush ends with everything sent: on a ring of at most 32768 bytes, after any run in which no
    pause cut a transfer ([no_cut]), with an open UART and no pause, when the transfers it waits for end without a new error and before its time is over, at most two rounds of
    its loop for each byte of the ring lead to the answer 0, and the UART has received the whole stream. *)
Theorem trace_flush_sends SIZE ADDR CRLF hz periph app tr s time rounds : 0 < SIZE <= 32768 -> 0 <= ADDR -> ADDR + SIZE <= 2 ^ 32 ->
  reach SIZE ADDR CRLF hz periph (fresh SIZE true app) tr s -> Forall no_cut tr -> pause_cnt (trace s) = 0 ->
  Forall (fun r => u32 (r.1 - time) < TRACE_FLUSH_TIMEOUT hz /\ r.2 = None) rounds -> 2 * SIZE <= zlen rounds ->
  exists s', hal_trace_flush_buffer SIZE ADDR hz periph time rounds s = Some (0, s') /\
    uart_out s' = (written CRLF (records tr)).1 /\ wptr (trace s') = rptr (trace s') /\ en (ch s') = false.
Proof.
  intros HS HA1 HA2 HR HF HP HRd HL. destruct (trace_reach_inv SIZE ADDR CRLF hz periph HS (conj HA1 HA2) true app tr s HR HF) as (R & HI & HU).
  pose proof (ro_R _ _ _ _ (proj1 HI)) as HR0. pose proof (ro_room _ _ _ _ (proj1 HI)) as HR1.
  destruct (flush_done SIZE ADDR hz periph HS (conj HA1 HA2) (length rounds) rounds time s _ _ R HI HU HP HRd) as (s' & E & HI' & HU'); [case_match; lia|done|].
  exists s'. unfold hal_trace_flush_buffer. rewrite HU, HP. cbn [negb Z.eqb]. rewrite E. cbn [mbind option_bind].
  pose proof HI' as (HO & [_ HL'] & _). destruct (used_spec SIZE HS _ _ _ HO) as (_ & HWR & _). assert (HE : wptr (trace s') = rptr (trace s')) by by apply HWR.
  rewrite (proj2 (Z.eqb_eq _ _) HE). split; [done|]. destruct HL' as [HId|(m & s0 & s1 & ks & HB)].
  - split; [|split; [done|apply HId]]. rewrite (id_out _ _ _ HId). apply take_ge. lia.
  - pose proof (bu_s0 _ _ _ _ _ _ _ _ _ HB). pose proof (bu_in _ _ _ _ _ _ _ _ _ HB). pose proof (bu_s1 _ _ _ _ _ _ _ _ _ HB). lia.
Qed.

Lemma trace_flush_sends_witness : exists s', hal_trace_flush_buffer 32 0x20000000 16 20 5 (replicate 64 (6, None)) demo_s = Some (0, s') /\
  uart_out s' = [65; 66; 67; 10; 10; 76; 79; 83; 84; 32; 49; 10; 68; 69; 10].
Proof.
  assert (HR : reach 32 0x20000000 false 16 20 (fresh 32 true false) demo_tr demo_s).
  { apply (trace_run_reach _ _ _ _ _ demo _ [] _ (reach_open _ _ _ _ _ _)). vm_compute. reflexivity. }
  destruct (trace_flush_sends 32 0x20000000 false 16 20 false demo_tr demo_s 5 (replicate 64 (6, None))) as (s' & E & HO & _).
  - split; [reflexivity|discriminate].
  - discriminate.
  - discriminate.
  - exact HR.
  - vm_compute. repeat (apply List.Forall_cons; [exact I|]). apply List.Forall_nil.
  - vm_compute. reflexivity.
  - apply Forall_replicate. split; reflexivity.
  - discriminate.
  - exists s'. split; [exact E|]. rewrite HO. vm_compute. reflexivity.
Defined.

(** The history is the end of the stream: the two parts of the ring the function designates, one
    after the other, are the last bytes written, as many as the ring holds once it has been marked
    as wrapped. *)
Theorem trace_history SIZE ADDR CRLF hz periph uart app tr s : 0 < SIZE <= 32768 -> 0 <= ADDR -> ADDR + SIZE <= 2 ^ 32 ->
  reach SIZE ADDR CRLF hz periph (fresh SIZE uart app) tr s -> Forall no_cut tr ->
  let '((o1, l1), (o2, l2)) := hal_trace_get_history_buffer SIZE (trace s) in
  let S := (written CRLF (records tr)).1 in
  let part o l := take (Z.to_nat l) (drop (Z.to_nat o) (buf (trace s))) in
  part o1 l1 ++ part o2 l2 = drop (length S - Z.to_nat (l1 + l2)) S /\ 0 <= l1 + l2 <= zlen S /\ (wrapped (trace s) = true -> l1 + l2 = SIZE).
Proof.
  intros HS HA1 HA2 HR HF. destruct (trace_reach_inv SIZE ADDR CRLF hz periph HS (conj HA1 HA2) uart app tr s HR HF) as (R & HI & _).
  set (S := (written CRLF (records tr)).1) in *. destruct HI as (HO & _). pose proof (ro_w _ _ _ _ HO) as HW. pose proof (ro_len _ _ _ _ HO) as HL.
  pose proof (place_range SIZE HS (zlen S)) as HM. unfold hal_trace_get_history_buffer. rewrite Z.gtb_ltb, (proj2 (Z.ltb_lt _ _)) by lia.
  assert (HG : forall i j, (i < length (buf (trace s)))%nat -> zlen S - SIZE <= Z.of_nat j < zlen S -> Z.of_nat j mod SIZE = Z.of_nat i -> buf (trace s) !! i = S !! j).
  { intros i j Hi Hj HE. replace i with (Z.to_nat (Z.of_nat j mod SIZE)) by lia. rewrite (ro_data _ _ _ _ HO) by lia. f_equal. lia. }
  assert (HD : zlen S = SIZE * (zlen S / SIZE) + wptr (trace s)) by (rewrite HW; apply Z.div_mod; lia).
  destruct (wrapped (trace s)) eqn:HWr; cbn zeta.
  - pose proof (ro_wrapped _ _ _ _ HO HWr) as HFull. split; [|lia]. replace (SIZE - wptr (trace s) + wptr (trace s)) with SIZE by lia.
    rewrite drop_0, take_ge by (rewrite length_drop; lia). apply list_eq_same_length with (Z.to_nat SIZE).
    + rewrite length_drop. lia.
    + rewrite length_app, length_drop, length_take. lia.
    + intros i x y Hi Hx Hy. rewrite lookup_drop in Hy. assert (x = y); [|done]. apply (inj Some). rewrite <- Hx, <- Hy.
      destruct (decide (Z.of_nat i < SIZE - wptr (trace s))).
      * rewrite lookup_app_l, lookup_drop by (rewrite length_drop; lia). apply HG; [lia|lia|]. symmetry. apply Z.mod_unique with (zlen S / SIZE - 1); lia.
      * rewrite lookup_app_r by (rewrite length_drop; lia). rewrite length_drop, lookup_take_lt by lia. apply HG; [lia|lia|].
        symmetry. apply Z.mod_unique with (zlen S / SIZE); lia.
  - split; [|split; [|done]]; [|pose proof (Z.mod_le (zlen S) SIZE ltac:(lia) ltac:(lia)); lia]. rewrite Z.add_0_r, drop_0, app_nil_r.
    apply list_eq_same_length with (Z.to_nat (wptr (trace s))).
    + rewrite length_drop. pose proof (Z.mod_le (zlen S) SIZE ltac:(lia) ltac:(lia)). lia.
    + rewrite length_take. lia.
    + intros i x y Hi Hx Hy. rewrite lookup_drop in Hy. assert (x = y); [|done]. apply (inj Some). rewrite <- Hx, <- Hy.
      rewrite lookup_take_lt by lia. pose proof (Z.mod_le (zlen S) SIZE ltac:(lia) ltac:(lia)). apply HG; [lia|lia|]. symmetry. apply Z.mod_unique with (zlen S / SIZE); lia.
Qed.

Lemma trace_history_witness : hal_trace_get_history_buffer 32 (trace demo_s) = ((0, 15), (0, 0)) /\
  take 15 (drop 0 (buf (trace demo_s))) ++ take 0 (drop 0 (buf (trace demo_s))) = drop 0 (written false (records demo_tr)).1.
Proof.
  assert (HR : reach 32 0x20000000 false 16 20 (fresh 32 true false) demo_tr demo_s).
  { apply (trace_run_reach _ _ _ _ _ demo _ [] _ (reach_open _ _ _ _ _ _)). vm_compute. reflexivity. }
  assert (HF : Forall no_cut demo_tr). { vm_compute. repeat (apply List.Forall_cons; [exact I|]). apply List.Forall_nil. }
  assert (H1 : 0 < 32 <= 32768) by (split; [reflexivity|discriminate]).
  assert (H2 : 0 <= 0x20000000) by discriminate. assert (H3 : 0x20000000 + 32 <= 2 ^ 32) by discriminate.
  pose proof (trace_history 32 0x20000000 false 16 20 true false demo_tr demo_s H1 H2 H3 HR HF) as H.
  vm_compute in H. split; [vm_compute; reflexivity|]. vm_compute. exact (proj1 H).
Defined.

(** The numbers read back: the characters printed for a 32-bit number are decimal digits, and in
    a field of [len] characters they are the most significant ones, all of them where there is room;
    so the number of a line about lost records is the number counted. *)
Theorem trace_print_digits len v : 0 <= v < 2 ^ 32 -> 0 < len ->
  let l := hal_trace_print_unsigned len v in let n := length (digits 10 v) in
  Forall (fun c => 48 <= c <= 57) l /\ length l = Nat.min (Z.to_nat len) n /\ decimal l = v / 10 ^ Z.of_nat (n - Z.to_nat len) /\
  (v < 10 ^ len -> decimal l = v).
Proof.
  intros Hv Hl. cbn zeta. unfold hal_trace_print_unsigned. assert (H10 : 10 ^ Z.of_nat 10 = 10000000000) by reflexivity.
  assert (Hv10 : 0 <= v < 10 ^ Z.of_nat 10) by (rewrite H10; lia). clear H10. destruct (digits_value 10 v Hv10 ltac:(apply Nat.lt_0_succ)) as [HD HF].
  assert (HFr : Forall (fun c => 48 <= c <= 57) (rev (digits 10 v))) by by apply Forall_rev.
  assert (HLr : length (rev (digits 10 v)) = length (digits 10 v)) by apply length_rev.
  assert (HV : decimal (take (Z.to_nat len) (rev (digits 10 v))) = v / 10 ^ Z.of_nat (length (digits 10 v) - Z.to_nat len)).
  { rewrite <- HD at 2. rewrite <- (decimal_take _ _ HFr), HLr. destruct (decide (Z.to_nat len <= length (digits 10 v))%nat).
    - f_equal. f_equal. lia.
    - rewrite !take_ge by lia. done. }
  split; [by apply Forall_take|]. split; [by rewrite length_take, HLr|]. split; [done|]. intros Hb. rewrite HV.
  assert (HN : forall k w, 0 <= w < 10 ^ Z.of_nat (S k) -> (length (digits 10 w) <= S k)%nat \/ (10 <= k)%nat).
  { assert (HG : forall m k w, 0 <= w < 10 ^ Z.of_nat (S k) -> (length (digits m w) <= S k)%nat).
    { induction m as [|m IH]; intros k w Hw; cbn [digits length]; [lia|]. destruct (Z.eqb_spec (w / 10) 0) as [HZ|HZ]; [simpl; lia|].
      destruct k as [|k]; [change (10 ^ Z.of_nat 1) with 10 in Hw; rewrite Z.div_small in HZ by lia; done|].
      assert (HP : 10 ^ Z.of_nat (S (S k)) = 10 * 10 ^ Z.of_nat (S k)) by (rewrite (Nat2Z.inj_succ (S k)), Z.pow_succ_r by lia; done).
      specialize (IH k (w / 10)). pose proof (Z.div_pos w 10 ltac:(lia) ltac:(lia)). assert (w / 10 < 10 ^ Z.of_nat (S k)) by (apply Z.div_lt_upper_bound; lia). lia. }
    intros k w Hw. left. by apply HG. }
  destruct (Z.to_nat len) as [|k] eqn:EK; [lia|]. destruct (HN k v) as [HX|HX]; [replace (Z.of_nat (S k)) with len by lia; lia| |].
  - replace (length (digits 10 v) - S k)%nat with 0%nat by lia. by rewrite Z.div_1_r.
  - pose proof (digits_length 10 v). replace (length (digits 10 v) - S k)%nat with 0%nat by lia. by rewrite Z.div_1_r.
Qed.

Lemma trace_print_digits_witness : hal_trace_print_unsigned 5 65535 = [54; 53; 53; 51; 53] /\ decimal (hal_trace_print_unsigned 5 65535) = 65535.
Proof.
  split; [vm_compute; reflexivity|]. refine (proj2 (proj2 (proj2 (trace_print_digits 5 65535 _ _))) _); [split; [discriminate|reflexivity]|reflexivity|reflexivity].
Defined.

(** A channel moves what its descriptors say: started on a chain of descriptors whose last one has
    its interrupt, it reads the addresses of the chain in order; until the last one it stays busy, with
    no interrupt, and the size left that is reported is the number of units left; after the last one it
    stops and its interrupt calls the handler with nothing left, no error and no further descriptor. *)
Theorem dma_chain_moves dm desc cfg c ks n : en c = false -> handler cfg = true -> Z.of_nat (length dm) < 2 ^ 19 ->
  good_word (d_src desc) (d_ctrl desc) (is_nil ks) -> path dm (d_lli desc) ks -> good_chain dm ks ->
  let c0 := (start_channel desc cfg c).2 in
  let all := span (d_src desc) (get_transfersize (d_ctrl desc)) ++ concat (span_at dm <$> ks) in
  (start_channel desc cfg c).1 = HAL_DMA_OK /\ (0 < length all)%nat /\
  ((n < length all)%nat -> exists c', drain n dm c0 = Some (take n all, c') /\ en c' = true /\ tcstat c' || errstat c' = false /\ sg_remain_size dm c' = Some (Z.of_nat (length all - n))) /\
  (n = length all -> exists c', drain n dm c0 = Some (all, c') /\ en c' = false /\ (handle_channel_irq c').1 = Some (0, false, 0%nat)).
Proof.
  intros HE HH HL HW HP HG c0 all. assert (HC : carries dm c0 ks) by (unfold c0, start_channel; rewrite HE; by split).
  assert (Hall : chain_load dm c0 ks = all) by (unfold c0, start_channel; by rewrite HE). assert (HM : irq_mask c0 = true) by (unfold c0, start_channel; by rewrite HE).
  split; [unfold start_channel; by rewrite HE|].
  assert (Hpos : (0 < length all)%nat).
  { pose proof (length_load dm c0 ks) as HX. rewrite Hall in HX. destruct (ca_word _ _ _ HC) as [H1 _]. pose proof (total_nonneg dm ks). unfold left_size in HX. lia. }
  split; [done|]. rewrite <- Hall in *. split; intros Hn; destruct (drain_carries dm n c0 ks HC ltac:(lia)) as (c' & E & H1 & H2 & H3).
  - exists c'. split; [done|]. destruct (H1 Hn) as (ks' & HC' & HLd). split; [apply HC'|]. split; [by rewrite (ca_tc _ _ _ HC'), (ca_err _ _ _ HC')|].
    rewrite (sg_remain_spec dm c' ks') by (done || apply HC'). rewrite <- length_load, HLd, length_drop. done.
  - exists c'. rewrite E, take_ge by lia. split; [done|]. destruct (H2 Hn) as (R1 & R2 & R3 & R4 & R5). split; [done|].
    unfold handle_channel_irq. rewrite R2, R3, H3, HM, R4, R5. done.
Qed.

(** The two descriptors of a ring of 8 bytes at 0x20000000 read from its sixth byte to its third. *)
Definition two_parts : list HAL_DMA_DESC_T :=
  [(hal_dma_init_desc (no_desc) (dma_cfg 20 3 0x20000005) 2 false).2; (hal_dma_init_desc (no_desc) (dma_cfg 20 2 0x20000000) 0 true).2].

Lemma dma_chain_moves_witness : exists c', drain 5 two_parts (start_channel (nth 0 two_parts no_desc) (dma_cfg 20 3 0) reset_ch).2 =
  Some ([0x20000005; 0x20000006; 0x20000007; 0x20000000; 0x20000001], c') /\ en c' = false /\ (handle_channel_irq c').1 = Some (0, false, 0%nat).
Proof.
  refine (proj2 (proj2 (proj2 (dma_chain_moves two_parts (nth 0 two_parts no_desc) (dma_cfg 20 3 0) reset_ch [1%nat] 5 _ _ _ _ _ _))) _).
  - reflexivity.
  - reflexivity.
  - reflexivity.
  - unfold good_word. vm_compute. repeat split; discriminate.
  - split; [reflexivity|]. exists (nth 1 two_parts no_desc). split; reflexivity.
  - split; [|exact I]. exists (nth 1 two_parts no_desc). split; [reflexivity|]. unfold good_word. vm_compute. repeat split; discriminate.
  - reflexivity.
Defined.

(** C22: No two drivers hold one channel: whatever channels are asked for and given back, the channels
    held are distinct and exactly those marked, with their clocks on; a channel handed out was nobody's,
    it is the first one free and idle in the order of the policy, and one that is held can be given back. *)
Theorem dma_channels_exclusive d held : uses d held ->
  NoDup held /\
  (forall i h, (i < 2)%nat -> (h < 8)%nat -> (generate_chan (Z.of_nat i) (Z.of_nat h) ∈ held <-> enabled_at d i h = true) /\ clock_at d i h = enabled_at d i h) /\
  (forall periph policy inst, periph <> HAL_DMA_PERIPH_NULL -> inst_of_periph periph = Some inst ->
    match List.find (free_idle d inst) (order policy) with
    | Some h => generate_chan (Z.of_nat inst) (Z.of_nat h) ∉ held /\ exists d', hal_dma_get_chan periph policy d = Some (generate_chan (Z.of_nat inst) (Z.of_nat h), d')
    | None => hal_dma_get_chan periph policy d = Some (HAL_DMA_CHAN_NONE, d)
    end) /\
  (forall ch, ch ∈ held -> hal_dma_free_chan ch d <> None).
Proof.
  intros HU. destruct (uses_ok d held HU) as [HO HH]. split; [apply HH|]. split; [|split].
  - intros i h Hi Hh. split; [|by apply HO]. rewrite (proj2 HH). split; [|by eauto 10]. intros (i' & h' & ? & ? & HG & HE). by apply generate_inj in HG as [<- <-].
  - intros periph policy inst HP HI. rewrite (get_chan_inst _ _ _ _ HP HI). destruct (List.find _ _) as [h|] eqn:HF; [|done].
    apply find_free in HF as [Hh HF]. pose proof (inst_lt _ _ HI). split; [|by eexists]. rewrite (proj2 HH). intros (i' & h' & ? & ? & HG & HE).
    apply generate_inj in HG as [<- <-]; [|done..]. unfold enabled_at in HE. by rewrite HF in HE.
  - intros ch HC. pose proof (proj1 (proj2 HH ch) HC) as (i & h & Hi & Hh & -> & HE). destruct (free_cases d i h HO Hi Hh HE) as (d1 & -> & _). done.
Qed.

Definition one_held : dma := match hal_dma_get_chan HAL_GPDMA_UART0_TX HAL_DMA_HIGH_PRIO (hal_dma_open reset_dma) with Some x => x.2 | None => reset_dma end.

Lemma dma_channels_exclusive_witness : uses one_held [0] /\ exists d', hal_dma_get_chan HAL_GPDMA_UART1_TX HAL_DMA_HIGH_PRIO one_held = Some (1, d').
Proof.
  assert (HU : uses one_held [0]).
  { exact (uses_get _ _ HAL_GPDMA_UART0_TX HAL_DMA_HIGH_PRIO 0 one_held uses_open eq_refl). }
  split; [exact HU|]. destruct (dma_channels_exclusive one_held [0] HU) as (_ & _ & HG & _).
  destruct (HG HAL_GPDMA_UART1_TX HAL_DMA_HIGH_PRIO 0%nat) as [_ HE]; [discriminate|reflexivity|exact HE].
Defined.

(** ** Where the code does otherwise than meant *)

Definition after_run (size : Z) (es : list event) : hal_trace :=
  match run size 0x20000000 false 16 20 es (fresh size true false) with Some x => x.2 | None => fresh size true false end.

(** A pause that cuts a transfer moves the read pointer by what is left instead of what was sent: of
    ten bytes with three sent, four are never sent; with seven sent, four are sent twice. *)
Theorem trace_pause_cut :
  let msg := [0; 1; 2; 3; 4; 5; 6; 7; 8; 9] in let flush := Flush 0 (replicate 4 (1, None)) in
  uart_out (after_run 32 ([Output msg []] ++ replicate 3 Move ++ [Pause; Continue; flush])) = [0; 1; 2; 7; 8; 9] /\
  uart_out (after_run 32 ([Output msg []] ++ replicate 7 Move ++ [Pause; Continue; flush])) = [0; 1; 2; 3; 4; 5; 6; 3; 4; 5; 6; 7; 8; 9].
Proof. vm_compute. split; reflexivity. Qed.

(** A line about lost records that meets the end of the ring does not mark it as wrapped: the history
    is then 4 of the 36 bytes written. *)
Theorem trace_history_short :
  let es := [Output (replicate 10 65) []; Output (replicate 15 66) []; Output (replicate 9 67) []] ++ replicate 10 Move ++ [Irq; Output [68; 68; 68] []] in
  wrapped (trace (after_run 32 es)) = false /\ hal_trace_get_history_buffer 32 (trace (after_run 32 es)) = ((0, 4), (0, 0)) /\
  length (written false (records (match run 32 0x20000000 false 16 20 es (fresh 32 true false) with Some x => x.1 | None => [] end))).1 = 36%nat.
Proof. vm_compute. repeat split. Qed.

(** A ring of more than 32769 bytes, which the static assertion allows, loses its place: the pointers
    wrap in 16 bits before they are compared with the size. *)
Theorem trace_large_ring : advance_rptr 40000 39000 30000 <> (39000 + 30000) mod 40000.
Proof. vm_compute. discriminate. Qed.
