(* ===== verification/LogSection.v ===== *)
(** The log section of apps/nv_section/log_section/log_section.c: the records the trace hands to its
    applications, collected in a ring of sector buffers, each with a numbered header, which the hook of
    the flash service writes to the log's region of the flash one after the other, turning round it.
    The flash service, services/norflash_api/norflash_api.h, whose implementation is not in the
    repository, is the interface [LogFlash]; what it promises is [LogFlashSpec] of LogLaws.v. The build
    is the one that keeps the log over a restart (no DUMP_NO_ROLLBACK). *)
From Stdlib Require Import ZArith Lia Bool.
From stdpp Require Import base option list.
From S2P Require Import Prelude Norflash HalTrace.

(** ** The flash service, for the module of the log: erase a sector, write, read what is stored, work
    on what was accepted, tell whether all of it is done. *)
Class LogFlash (F : Type) := {
  log_api_erase : Z -> bool -> F -> NORFLASH_API_RET_T * F;
  log_api_write : Z -> list Z -> bool -> F -> NORFLASH_API_RET_T * F;
  log_sync_read : Z -> Z -> F -> NORFLASH_API_RET_T * list Z;
  log_api_flush : F -> F;
  log_buffer_is_free : F -> bool }.

(** ** Constants and data *)
Definition DATA_BUFFER_STATE_FREE : Z := 0.
Definition DATA_BUFFER_STATE_WRITTING : Z := 1.
Definition DATA_BUFFER_STATE_WRITTEN : Z := 2.
Definition DUMP_LOG_MAGIC : Z := 0xd5151001.
Definition DUMP_LOG_VERSION : Z := 0x00010001.
(** "__LOG_DUMP:" *)
Definition LOG_DUMP_PREFIX : list Z := [95; 95; 76; 79; 71; 95; 68; 85; 77; 80; 58].

Inductive LOG_DUMP_FLUSH_STATE :=
  LOG_DUMP_FLASH_STATE_IDLE | LOG_DUMP_FLASH_STATE_ERASED | LOG_DUMP_FLASH_STATE_WRITTING | LOG_DUMP_FLASH_STATE_WRITTEN.

#[export] Instance LOG_DUMP_FLUSH_STATE_eq_dec : EqDecision LOG_DUMP_FLUSH_STATE.
Proof. solve_decision. Defined.

Record LOG_DUMP_HEADER := mkHeader { h_magic : Z; h_version : Z; h_seqnum : Z; h_is_bootup : Z; h_reseved : list Z }.
Record DATA_BUFFER := mkData { d_state : Z; d_offset : Z; d_buffer : list Z }.

(** The variables of the file. *)
Record log_dump := mkLog {
  flash_len : Z; data_buffer_list : list DATA_BUFFER; w_seqnum : Z; f_seqnum : Z; flash_offs : Z; cur_dump_seqnum : Z;
  is_init : bool; is_immediately : bool; is_bootup : bool; flash_state : LOG_DUMP_FLUSH_STATE }.

(** Assignments. *)
Definition set_flash_state t s := mkLog (flash_len s) (data_buffer_list s) (w_seqnum s) (f_seqnum s) (flash_offs s) (cur_dump_seqnum s) (is_init s) (is_immediately s) (is_bootup s) t.
Definition set_immediately b s := mkLog (flash_len s) (data_buffer_list s) (w_seqnum s) (f_seqnum s) (flash_offs s) (cur_dump_seqnum s) (is_init s) b (is_bootup s) (flash_state s).
Definition set_list l s := mkLog (flash_len s) l (w_seqnum s) (f_seqnum s) (flash_offs s) (cur_dump_seqnum s) (is_init s) (is_immediately s) (is_bootup s) (flash_state s).
Definition set_w w s := mkLog (flash_len s) (data_buffer_list s) w (f_seqnum s) (flash_offs s) (cur_dump_seqnum s) (is_init s) (is_immediately s) (is_bootup s) (flash_state s).
Definition set_place f o s := mkLog (flash_len s) (data_buffer_list s) (w_seqnum s) f o (cur_dump_seqnum s) (is_init s) (is_immediately s) (is_bootup s) (flash_state s).
Definition set_dump n b s := mkLog (flash_len s) (data_buffer_list s) (w_seqnum s) (f_seqnum s) (flash_offs s) n (is_init s) (is_immediately s) b (flash_state s).

(** The bytes of a header in memory and back. *)
Definition le32 (n : Z) : list Z := (fun k => Z.land (Z.shiftr n (8 * k)) 255) <$> [0; 1; 2; 3].
Definition le32_at (l : list Z) (i : nat) : Z :=
  nth i l 0 + 2 ^ 8 * nth (i + 1) l 0 + 2 ^ 16 * nth (i + 2) l 0 + 2 ^ 24 * nth (i + 3) l 0.

Definition header_bytes (h : LOG_DUMP_HEADER) : list Z :=
  le32 (h_magic h) ++ le32 (h_version h) ++ le32 (h_seqnum h) ++ [h_is_bootup h] ++ h_reseved h.
Definition sizeof_header : Z := 16.
Definition read_header (l : list Z) : LOG_DUMP_HEADER :=
  mkHeader (le32_at l 0) (le32_at l 4) (le32_at l 8) (nth 12 l 0) [nth 13 l 0; nth 14 l 0; nth 15 l 0].

(** ** [strstr] on memory that starts with [l]: up to the first NUL *)
Fixpoint c_string (l : list Z) : list Z :=
  match l with [] => [] | x :: l' => if x =? 0 then [] else x :: c_string l' end.

Fixpoint is_prefix (p l : list Z) : bool :=
  match p, l with [], _ => true | x :: p', y :: l' => (x =? y) && is_prefix p' l' | _, [] => false end.

Fixpoint strstr (l p : list Z) : bool :=
  is_prefix p l || match l with [] => false | _ :: l' => strstr l' p end.

Section Log.
Context {F : Type} `{LogFlash F}.
(** LOG_DUMP_SECTOR_SIZE, LOG_DUMP_SECTOR_BUFFER_COUNT and the region of the flash. *)
Variable SECTOR_SIZE : Z.
Variable BUFFER_COUNT : Z.
Variable log_dump_flash_start_addr : Z.
Variable log_dump_flash_end_addr : Z.

(** ** The wrappers of the flash service. [None]: the fuel is out or an assertion fails. *)
Definition _flash_api_read (addr len : Z) (f : F) : NORFLASH_API_RET_T * list Z := log_sync_read addr len f.

(** [do { norflash_api_flush(); } while (!norflash_api_buffer_is_free(...));] *)
Fixpoint _flash_api_flush (fuel : nat) (f : F) : option F :=
  match fuel with
  | O => None
  | S n => let f' := log_api_flush f in if log_buffer_is_free f' then Some f' else _flash_api_flush n f'
  end.

(** The loop of the erase and of the write. *)
Fixpoint api_loop (fuel : nat) (op : bool -> F -> NORFLASH_API_RET_T * F) (is_async : bool) (f : F) : option (NORFLASH_API_RET_T * F) :=
  match fuel with
  | O => None
  | S n =>
      match op is_async f with
      | (NORFLASH_API_OK, f') => Some (NORFLASH_API_OK, f')
      | (NORFLASH_API_BUFFER_FULL, f') =>
          let f'' := log_api_flush f' in
          if is_async then Some (NORFLASH_API_BUFFER_FULL, f'') else api_loop n op is_async f''
      | (NORFLASH_API_ERR, _) => None
      end
  end.

Definition _flash_api_erase (fuel : nat) (addr : Z) (is_async : bool) (s : log_dump) (f : F) : option (NORFLASH_API_RET_T * F) :=
  api_loop fuel (log_api_erase addr) (is_async && negb (is_immediately s)) f.

Definition _flash_api_write (fuel : nat) (addr : Z) (bs : list Z) (is_async : bool) (s : log_dump) (f : F) : option (NORFLASH_API_RET_T * F) :=
  api_loop fuel (log_api_write addr bs) (is_async && negb (is_immediately s)) f.

(** ** The newest sector: the number and the sector that come after it *)
Definition header_valid (h : LOG_DUMP_HEADER) : bool := (h_magic h =? DUMP_LOG_MAGIC) && (h_version h =? DUMP_LOG_VERSION).

Fixpoint seqnum_loop (n : nat) (i max_dump max_sector : Z) (is_existed : bool) (f : F) : option (bool * Z * Z) :=
  match n with
  | O => Some (is_existed, max_dump, max_sector)
  | S n' =>
      match _flash_api_read (u32 (log_dump_flash_start_addr + i * SECTOR_SIZE)) sizeof_header f with
      | (NORFLASH_API_OK, l) =>
          let h := read_header l in
          if header_valid h then
            if h_seqnum h >? max_dump then seqnum_loop n' (i + 1) (h_seqnum h) i true f
            else seqnum_loop n' (i + 1) max_dump max_sector true f
          else seqnum_loop n' (i + 1) max_dump max_sector is_existed f
      | _ => None
      end
  end.

Definition _get_seqnum (f : F) : option (Z * Z) :=
  let count := (log_dump_flash_end_addr - log_dump_flash_start_addr) / SECTOR_SIZE in
  '(is_existed, max_dump, max_sector) ← seqnum_loop (Z.to_nat count) 0 0 0 false f;
  Some (if is_existed : bool then (u32 (max_dump + 1), if max_sector + 1 >=? count then 0 else max_sector + 1) else (0, 0)).

(** ** One step of the flush *)
Definition _log_dump_flush (fuel : nat) (buff_state : Z) (is_async : bool) (s : log_dump) (f : F) : option (Z * log_dump * F) :=
  let addr := u32 (log_dump_flash_start_addr + flash_offs s) in
  match flash_state s with
  | LOG_DUMP_FLASH_STATE_IDLE =>
      if flash_offs s mod SECTOR_SIZE =? 0 then
        '(r, f') ← _flash_api_erase fuel addr is_async s f;
        Some (0, match r with NORFLASH_API_OK => set_flash_state LOG_DUMP_FLASH_STATE_ERASED s | _ => s end, f')
      else Some (0, s, f)
  | LOG_DUMP_FLASH_STATE_ERASED | LOG_DUMP_FLASH_STATE_WRITTING =>
      d ← data_buffer_list s !! Z.to_nat (f_seqnum s);
      if negb (Z.land (d_state d) buff_state =? 0) && (d_offset d >? 0) then
        let s1 := set_flash_state LOG_DUMP_FLASH_STATE_WRITTING s in
        '(r, f') ← _flash_api_write fuel addr (take (Z.to_nat (d_offset d)) (d_buffer d)) is_async s f;
        Some (match r with
              | NORFLASH_API_OK =>
                  let l := <[Z.to_nat (f_seqnum s) := mkData DATA_BUFFER_STATE_FREE (d_offset d) (d_buffer d)]> (data_buffer_list s) in
                  let fn := if f_seqnum s + 1 =? BUFFER_COUNT then 0 else f_seqnum s + 1 in
                  let o := if u32 (flash_offs s + d_offset d) >=? flash_len s then 0 else u32 (flash_offs s + d_offset d) in
                  (0, set_flash_state LOG_DUMP_FLASH_STATE_IDLE (set_place fn o (set_list l s1)), f')
              | _ => (3, s1, f')
              end)
      else Some (0, s, f)
  | LOG_DUMP_FLASH_STATE_WRITTEN => Some (0, s, f)
  end.

Definition is_free (d : DATA_BUFFER) : bool := d_state d =? DATA_BUFFER_STATE_FREE.

Fixpoint flush_remain_loop (rounds fuel : nat) (s : log_dump) (f : F) : option (log_dump * F) :=
  match rounds with
  | O => None
  | S n =>
      if forallb is_free (data_buffer_list s) then Some (s, f)
      else '(_, s1, f1) ← _log_dump_flush fuel (Z.lor DATA_BUFFER_STATE_WRITTING DATA_BUFFER_STATE_WRITTEN) false s f;
           flush_remain_loop n fuel s1 f1
  end.

Definition _log_dump_flush_remain (fuel : nat) (s : log_dump) (f : F) : option (log_dump * F) :=
  '(s1, f1) ← flush_remain_loop fuel fuel s f; f2 ← _flash_api_flush fuel f1; Some (s1, f2).

Definition log_dump_flush_all (fuel : nat) (s : log_dump) (f : F) : option (log_dump * F) :=
  _log_dump_flush_remain fuel (set_immediately true s) f.

(** The hook of the flash service. *)
Definition log_dump_flush (fuel : nat) (s : log_dump) (f : F) : option (Z * log_dump * F) :=
  if negb (is_init s) then Some (0, s, f) else _log_dump_flush fuel DATA_BUFFER_STATE_WRITTEN true s f.

Definition log_dump_notify_handler (fuel : nat) (state : HAL_TRACE_STATE_T) (s : log_dump) (f : F) : option (log_dump * F) :=
  if negb (is_init s) then Some (s, f)
  else match state with
       | HAL_TRACE_STATE_CRASH_ASSERT_START | HAL_TRACE_STATE_CRASH_FAULT_START => Some (set_immediately true s, f)
       | HAL_TRACE_STATE_CRASH_END => _log_dump_flush_remain fuel s f
       end.

(** ** Collecting a record *)
Definition log_header (s : log_dump) : LOG_DUMP_HEADER :=
  mkHeader DUMP_LOG_MAGIC DUMP_LOG_VERSION (cur_dump_seqnum s) (if is_bootup s then 1 else 0) [0; 0; 10].

(** A buffer out of use is cleared; an empty one gets its header. *)
Definition fresh_buffer (d : DATA_BUFFER) : DATA_BUFFER :=
  if (d_state d =? DATA_BUFFER_STATE_FREE) || (d_state d =? DATA_BUFFER_STATE_WRITTEN)
  then mkData DATA_BUFFER_STATE_WRITTING 0 (replicate (Z.to_nat SECTOR_SIZE) 0) else d.

Definition start_buffer (d : DATA_BUFFER) (s : log_dump) : option (DATA_BUFFER * log_dump) :=
  if d_offset d =? 0 then
    b ← memcpy (d_offset d) (header_bytes (log_header s)) (d_buffer d);
    Some (mkData (d_state d) (d_offset d + sizeof_header) b, set_dump (u32 (cur_dump_seqnum s + 1)) false s)
  else Some (d, s).

(** As many bytes as fit; the buffer and the bytes left. *)
Definition fill_buffer (bs : list Z) (d : DATA_BUFFER) : option (DATA_BUFFER * list Z) :=
  let remain := Z.of_nat (length bs) in
  let write_len := if u32 (d_offset d + remain) >? SECTOR_SIZE then SECTOR_SIZE - d_offset d else remain in
  let n := Z.to_nat write_len in
  b ← (if write_len >? 0 then memcpy (d_offset d) (take n bs) (d_buffer d) else Some (d_buffer d));
  let o := d_offset d + (if write_len >? 0 then write_len else 0) in
  Some (mkData (if o =? SECTOR_SIZE then DATA_BUFFER_STATE_WRITTEN else d_state d) o b, drop n bs).

(** [norflash_api_hook_activate] may call the hook, any number of times. *)
Fixpoint run_hooks (n fuel : nat) (s : log_dump) (f : F) : option (log_dump * F) :=
  match n with
  | O => Some (s, f)
  | S n' => '(_, s1, f1) ← log_dump_flush fuel s f; run_hooks n' fuel s1 f1
  end.

(** The loop; its answer is the number of bytes lost. *)
Fixpoint output_loop (turns fuel : nat) (hooks : list nat) (bs : list Z) (s : log_dump) (f : F) : option (Z * log_dump * F) :=
  match turns with
  | O => None
  | S n =>
      d ← data_buffer_list s !! Z.to_nat (w_seqnum s);
      '(d1, s1) ← start_buffer (fresh_buffer d) s;
      '(d2, rest) ← fill_buffer bs d1;
      let s2 := set_list (<[Z.to_nat (w_seqnum s) := d2]> (data_buffer_list s1)) s1 in
      if d_offset d2 =? SECTOR_SIZE then
        let w := if w_seqnum s2 + 1 =? BUFFER_COUNT then 0 else w_seqnum s2 + 1 in
        let s3 := set_w w s2 in
        if w =? f_seqnum s3 then Some (Z.of_nat (length rest), s3, f)
        else
          d' ← data_buffer_list s3 !! Z.to_nat w;
          guard ((is_free d' || (d_state d' =? DATA_BUFFER_STATE_WRITTEN)) = true);;
          '(s4, f4) ← run_hooks (hd 0%nat hooks) fuel s3 f;
          match rest with [] => Some (0, s4, f4) | _ => output_loop n fuel (tl hooks) rest s4 f4 end
      else
        match rest with [] => Some (0, s2, f) | _ => output_loop n fuel hooks rest s2 f end
  end.

(** [after] is what follows the record in memory, [strstr] being told no length; [hooks] are the
    numbers of calls of the hook at each activation. *)
Definition log_dump_output_handler (fuel : nat) (bs after : list Z) (hooks : list nat) (s : log_dump) (f : F) : option (Z * log_dump * F) :=
  if negb (is_init s) then Some (0, s, f)
  else if strstr (c_string (bs ++ after)) LOG_DUMP_PREFIX then Some (0, s, f)
  else output_loop (S (length bs)) fuel hooks bs s f.

(** ** Start and clearing *)

(** Registered with the trace as its first application. [flash_ok] is the answer of
    norflash_api_register, [cb] the number that stands for the two handlers. *)
Definition log_dump_init (flash_ok : bool) (cb : nat) (s : log_dump) (t : hal_trace) (f : F) : option (log_dump * hal_trace) :=
  let len := log_dump_flash_end_addr - log_dump_flash_start_addr in
  let s0 := mkLog len (data_buffer_list s) (w_seqnum s) (f_seqnum s) (flash_offs s) (cur_dump_seqnum s) (is_init s)
              (is_immediately s) (is_bootup s) (flash_state s) in
  if negb flash_ok then Some (s0, t)
  else
    let t1 := (hal_trace_app_register 0 (Some cb) (Some cb) t).2 in
    '(dump_seqnum, sector_seqnum) ← _get_seqnum f;
    Some (mkLog len (replicate (Z.to_nat BUFFER_COUNT) (mkData DATA_BUFFER_STATE_FREE 0 (replicate (Z.to_nat SECTOR_SIZE) 0)))
            0 0 (u32 (sector_seqnum * SECTOR_SIZE)) dump_seqnum true false (is_bootup s) LOG_DUMP_FLASH_STATE_IDLE, t1).

Fixpoint clear_loop (n : nat) (i : Z) (fuel : nat) (s : log_dump) (f : F) : option F :=
  match n with
  | O => Some f
  | S n' =>
      '(_, f') ← _flash_api_erase fuel (u32 (log_dump_flash_start_addr + i * SECTOR_SIZE)) false s f; clear_loop n' (i + 1) fuel s f'
  end.

Definition log_dump_clear (fuel : nat) (s : log_dump) (f : F) : option F :=
  clear_loop (Z.to_nat (flash_len s / SECTOR_SIZE)) 0 fuel s f.

(** ** Runs *)

(** A record, the hook, the flash service at work. The answer of a record: whether it found every
    buffer waiting to be written, and how many of its bytes were lost. *)
Inductive log_event := Record_out (bs after : list Z) (hooks : list nat) | Hook | Work.

Definition overrun (s : log_dump) : bool :=
  match data_buffer_list s !! Z.to_nat (w_seqnum s) with Some d => d_state d =? DATA_BUFFER_STATE_WRITTEN | None => false end.

Definition kept (bs after : list Z) : list Z := if strstr (c_string (bs ++ after)) LOG_DUMP_PREFIX then [] else bs.

Definition log_step (fuel : nat) (e : log_event) (s : log_dump) (f : F) : option ((bool * Z) * log_dump * F) :=
  match e with
  | Record_out bs after hooks =>
      if (Z.of_nat (length bs) <? 2 ^ 31) && forallb (fun x => (0 <=? x) && (x <? 256)) bs
      then '(lost, s', f') ← log_dump_output_handler fuel bs after hooks s f; Some ((overrun s, lost), s', f')
      else None
  | Hook => '(_, s', f') ← log_dump_flush fuel s f; Some ((false, 0), s', f')
  | Work => Some ((false, 0), s, log_api_flush f)
  end.

Inductive log_reach (s0 : log_dump) (f0 : F) : list (log_event * (bool * Z)) -> log_dump -> F -> Prop :=
| log_reach_start : log_reach s0 f0 [] s0 f0
| log_reach_step tr s f fuel e a s' f' : log_reach s0 f0 tr s f -> (0 < fuel)%nat -> log_step fuel e s f = Some (a, s', f') ->
    log_reach s0 f0 (tr ++ [(e, a)]) s' f'.

(** The same as a function. *)
Fixpoint log_run (fuel : nat) (es : list log_event) (s : log_dump) (f : F) : option (list (log_event * (bool * Z)) * log_dump * F) :=
  match es with
  | [] => Some ([], s, f)
  | e :: es' => '(a, s1, f1) ← log_step fuel e s f; '(tr, s2, f2) ← log_run fuel es' s1 f1; Some ((e, a) :: tr, s2, f2)
  end.

(** No record found the ring of buffers full or lost a byte. *)
Definition intact (x : log_event * (bool * Z)) : Prop := x.2 = (false, 0).

Definition logged (tr : list (log_event * (bool * Z))) : list Z :=
  flat_map (fun x => match x.1 with Record_out bs after _ => kept bs after | _ => [] end) tr.

(** The buffers in use, from the one the flush is at, as they will be written. *)
Definition buffered (s : log_dump) : list (list Z) :=
  omap (fun j => d ← data_buffer_list s !! Z.to_nat ((f_seqnum s + Z.of_nat j) mod BUFFER_COUNT);
                 if is_free d then None else Some (take (Z.to_nat (d_offset d)) (d_buffer d)))
    (seq 0 (Z.to_nat BUFFER_COUNT)).
End Log.
