(* ===== verification/LogLaws.v ===== *)
(** What the log section relies on of the flash service, and its invariant: the sectors handed to the
    flash, the buffers waiting and the one being filled are consecutive numbered pieces of the log. *)
From Stdlib Require Import ZArith Lia Bool.
From stdpp Require Import base option list list_numbers.
From S2P Require Import Prelude Norflash HalTrace LogSection.

Notation zlen l := (Z.of_nat (length l)).

(** ** The region of the flash *)
Inductive log_op := LErase (addr : Z) | LWrite (addr : Z) (bs : list Z).

Definition is_byte (x : Z) : Prop := 0 <= x < 256.

(** [n] bytes from the place [o] on. *)
Definition piece (m : list Z) (o n : Z) : list Z := take (Z.to_nat n) (drop (Z.to_nat o) m).

Lemma piece_inserts_same (m k : list Z) o : 0 <= o -> o + zlen k <= zlen m -> piece (list_inserts (Z.to_nat o) k m) o (zlen k) = k.
Proof.
  intros Ho Hk. unfold piece. rewrite inserts_app by lia. rewrite Nat2Z.id.
  rewrite drop_app_ge by (rewrite length_take; lia). rewrite length_take_le, Nat.sub_diag, drop_0 by lia. by rewrite take_app_length.
Qed.

Lemma piece_length m o n : 0 <= o -> 0 <= n -> o + n <= zlen m -> zlen (piece m o n) = n.
Proof. intros. unfold piece. rewrite length_take, length_drop. lia. Qed.

Lemma piece_lookup m o n i : 0 <= o -> 0 <= i < n -> piece m o n !! Z.to_nat i = m !! Z.to_nat (o + i).
Proof. intros. unfold piece. rewrite lookup_take_lt by lia. rewrite lookup_drop. f_equal. lia. Qed.

Lemma piece_ext m m' o n : 0 <= o -> (forall i, o <= i < o + n -> m !! Z.to_nat i = m' !! Z.to_nat i) -> piece m o n = piece m' o n.
Proof.
  intros Ho H. apply list_eq. intros j. destruct (decide (Z.of_nat j < n)).
  - rewrite <- (Nat2Z.id j), !piece_lookup by lia. apply H. lia.
  - unfold piece. rewrite !lookup_take_ge by lia. done.
Qed.

Lemma piece_inserts_other (m k : list Z) p o n : 0 <= p -> 0 <= o -> p + zlen k <= zlen m -> o + n <= p \/ p + zlen k <= o ->
  piece (list_inserts (Z.to_nat p) k m) o n = piece m o n.
Proof.
  intros Hp Ho Hk Hd. apply piece_ext; [done|]. intros i Hi.
  destruct (decide (i < p)); [rewrite list_lookup_inserts_lt by lia; done|]. by rewrite list_lookup_inserts_ge by lia.
Qed.

Lemma piece_piece m o n o' n' : 0 <= o -> 0 <= o' -> 0 <= n' -> o' + n' <= n -> piece (piece m o n) o' n' = piece m (o + o') n'.
Proof.
  intros. apply list_eq. intros j. destruct (decide (Z.of_nat j < n')).
  - rewrite <- (Nat2Z.id j), !piece_lookup by lia. f_equal. lia.
  - unfold piece at 1 3. rewrite !lookup_take_ge by lia. done.
Qed.

Section Device.
Variable SECTOR_SIZE START : Z.

(** Erasing sets every bit of a sector, writing clears bits. *)
Definition log_effect (m : list Z) (o : log_op) : list Z :=
  match o with
  | LErase a => list_inserts (Z.to_nat (a - START)) (replicate (Z.to_nat SECTOR_SIZE) 255) m
  | LWrite a bs => list_inserts (Z.to_nat (a - START)) (zip_with Z.land bs (piece m (a - START) (zlen bs))) m
  end.

Definition log_effects (l : list log_op) (m : list Z) : list Z := fold_left log_effect l m.

Lemma log_effects_app l1 l2 m : log_effects (l1 ++ l2) m = log_effects l2 (log_effects l1 m).
Proof. apply fold_left_app. Qed.

Lemma length_log_effect m o : length (log_effect m o) = length m.
Proof. destruct o; apply length_inserts. Qed.

Lemma length_log_effects l m : length (log_effects l m) = length m.
Proof. revert m. induction l as [|o l IH]; intros m; [done|]. cbn. rewrite IH. apply length_log_effect. Qed.

Lemma land_erased bs n : Forall is_byte bs -> length bs = n -> zip_with Z.land bs (replicate n 255) = bs.
Proof.
  intros H <-. induction H as [|x l Hx Hl IH]; [done|]. cbn. f_equal; [|done].
  change 255 with (Z.ones 8). rewrite Z.land_ones by lia. apply Z.mod_small. exact Hx.
Qed.

Lemma piece_replicate n o k (x : Z) : 0 <= o -> 0 <= k -> o + k <= n -> piece (replicate (Z.to_nat n) x) o k = replicate (Z.to_nat k) x.
Proof. intros. unfold piece. rewrite drop_replicate, take_replicate. f_equal. lia. Qed.
End Device.

(** ** The service: operations are accepted one after the other and done in that order; a full buffer
    means something is left to do; each call gets ahead with it; a read answers what is stored. *)
Class LogFlashSpec (F : Type) (SECTOR_SIZE START END : Z) `{LogFlash F} := {
  region : F -> list Z;
  accepted : F -> list log_op;
  executed : F -> nat;
  effort : F -> nat;
  region_length f : zlen (region f) = END - START;
  executed_le f : (executed f <= length (accepted f))%nat;
  erase_accepts a b f : match log_api_erase a b f with
    | (NORFLASH_API_OK, f') => accepted f' = accepted f ++ [LErase a] /\ region f' = region f
    | (NORFLASH_API_BUFFER_FULL, f') => f' = f /\ (executed f < length (accepted f))%nat
    | (NORFLASH_API_ERR, _) => False
    end;
  write_accepts a bs b f : match log_api_write a bs b f with
    | (NORFLASH_API_OK, f') => accepted f' = accepted f ++ [LWrite a bs] /\ region f' = region f
    | (NORFLASH_API_BUFFER_FULL, f') => f' = f /\ (executed f < length (accepted f))%nat
    | (NORFLASH_API_ERR, _) => False
    end;
  flush_keeps f : accepted (log_api_flush f) = accepted f /\ region (log_api_flush f) = region f;
  flush_gets_on f : executed (log_api_flush f) = length (accepted f) \/ (effort (log_api_flush f) < effort f)%nat;
  free_done f : log_buffer_is_free f = true <-> executed f = length (accepted f);
  read_stored o n f : 0 <= o -> 0 <= n -> o + n <= END - START ->
    log_sync_read (START + o) n f = (NORFLASH_API_OK, piece (log_effects SECTOR_SIZE START (take (executed f) (accepted f)) (region f)) o n) }.

Definition on_flash {F SECTOR_SIZE START END} `{LogFlashSpec F SECTOR_SIZE START END} (f : F) : list Z :=
  log_effects SECTOR_SIZE START (take (executed f) (accepted f)) (region f).

(** ** The invariant *)
Section Laws.
Context {F : Type} {SECTOR_SIZE START END : Z} `{HSpec : LogFlashSpec F SECTOR_SIZE START END}.
Variable COUNT : Z.
Variable nsec : Z.
Hypothesis HS : 16 < SECTOR_SIZE <= 2 ^ 31.
Hypothesis HC : 0 < COUNT.
Hypothesis HN : 0 < nsec.
Hypothesis HE : 0 <= START /\ END = START + nsec * SECTOR_SIZE /\ END < 2 ^ 32.

Lemma sector_range i : 0 <= (i mod nsec) * SECTOR_SIZE <= (nsec - 1) * SECTOR_SIZE.
Proof. pose proof (Z.mod_pos_bound i nsec HN). nia. Qed.

(** The address of the sector of the [i]-th piece, and the operations that write pieces from the [k]-th on. *)
Definition sector_addr (i : Z) : Z := START + (i mod nsec) * SECTOR_SIZE.

Fixpoint sector_ops (k : Z) (l : list (list Z)) : list log_op :=
  match l with [] => [] | img :: l' => LErase (sector_addr k) :: LWrite (sector_addr k) img :: sector_ops (k + 1) l' end.

Lemma sector_ops_app k l1 l2 : sector_ops k (l1 ++ l2) = sector_ops k l1 ++ sector_ops (k + zlen l1) l2.
Proof.
  revert k. induction l1 as [|x l1 IH]; intros k; [by rewrite Z.add_0_r|]. cbn [sector_ops app]. rewrite IH.
  replace (k + zlen (x :: l1)) with (k + 1 + zlen l1) by (simpl length; lia). done.
Qed.

Lemma u32_sector_addr i : u32 (START + (i mod nsec) * SECTOR_SIZE) = sector_addr i.
Proof. apply u32_small. unfold sector_addr. pose proof (sector_range i). assert ((nsec - 1) * SECTOR_SIZE + SECTOR_SIZE = nsec * SECTOR_SIZE) by ring. lia. Qed.

(** The header of the [i]-th piece after a start with the number [q]. *)
Definition piece_header (q : Z) (boot : bool) (i : Z) : list Z :=
  header_bytes (mkHeader DUMP_LOG_MAGIC DUMP_LOG_VERSION (u32 (q + i)) (if boot && (i =? 0) then 1 else 0) [0; 0; 10]).

Definition headers (q : Z) (boot : bool) (n : nat) : list (list Z) := (fun i => piece_header q boot (Z.of_nat i)) <$> seq 0 n.

Lemma length_header q boot i : length (piece_header q boot i) = 16%nat.
Proof. reflexivity. Qed.

Lemma headers_S q boot n : headers q boot (S n) = headers q boot n ++ [piece_header q boot (Z.of_nat n)].
Proof. unfold headers. by rewrite seq_S, fmap_app. Qed.

Definition olist (o : option (list Z)) : list (list Z) := match o with Some x => [x] | None => [] end.

Definition slot (s : log_dump) (j : Z) : nat := Z.to_nat ((f_seqnum s + j) mod COUNT).

Lemma slot_lt s j : (slot s j < Z.to_nat COUNT)%nat.
Proof. unfold slot. pose proof (Z.mod_pos_bound (f_seqnum s + j) COUNT HC). lia. Qed.

Lemma slot_ne s i j : 0 <= i < COUNT -> 0 <= j < COUNT -> i <> j -> slot s i <> slot s j.
Proof.
  unfold slot. intros Hi Hj Hn HX. apply Hn. apply Z.add_cancel_l with (f_seqnum s). apply mod_near with COUNT; [done| |lia].
  pose proof (Z.mod_pos_bound (f_seqnum s + i) COUNT HC). pose proof (Z.mod_pos_bound (f_seqnum s + j) COUNT HC). lia.
Qed.

(** The ring of buffers: [full] pieces to write, then the one being filled, the rest out of use. *)
Record ring_holds (s : log_dump) (full : list (list Z)) (cur : option (list Z)) : Prop := {
  rh_length : zlen (data_buffer_list s) = COUNT;
  rh_f : 0 <= f_seqnum s < COUNT;
  rh_w : w_seqnum s = (f_seqnum s + zlen full) mod COUNT;
  rh_count : zlen (full ++ olist cur) <= COUNT;
  rh_full j img : full !! j = Some img -> data_buffer_list s !! slot s (Z.of_nat j) = Some (mkData DATA_BUFFER_STATE_WRITTEN SECTOR_SIZE img);
  rh_sizes : Forall (fun img => zlen img = SECTOR_SIZE) full;
  rh_cur img : cur = Some img -> 16 <= zlen img < SECTOR_SIZE /\
    data_buffer_list s !! slot s (zlen full) = Some (mkData DATA_BUFFER_STATE_WRITTING (zlen img) (img ++ replicate (Z.to_nat (SECTOR_SIZE - zlen img)) 0));
  rh_free j : zlen (full ++ olist cur) <= j < COUNT -> exists d, data_buffer_list s !! slot s j = Some d /\ d_state d = DATA_BUFFER_STATE_FREE }.

(** The pieces handed to the flash, waiting and being filled. *)
Record pieces_ok (q : Z) (boot : bool) (all : list (list Z)) (bytes : list Z) (s : log_dump) : Prop := {
  po_headers : take 16 <$> all = headers q boot (length all);
  po_seqnum : cur_dump_seqnum s = u32 (q + zlen all);
  po_bootup : is_bootup s = boot && (zlen all =? 0);
  po_bytes : concat (drop 16 <$> all) = bytes;
  po_range : Forall is_byte (concat all) }.

Record sent_ok (k : Z) (sent : list (list Z)) (s : log_dump) (f : F) : Prop := {
  so_sizes : Forall (fun img => zlen img = SECTOR_SIZE) sent;
  so_state : flash_state s <> LOG_DUMP_FLASH_STATE_WRITTEN;
  so_ops : accepted f = sector_ops k sent ++
    (if decide (flash_state s = LOG_DUMP_FLASH_STATE_IDLE) then [] else [LErase (sector_addr (k + zlen sent))]);
  so_offs : flash_offs s = ((k + zlen sent) mod nsec) * SECTOR_SIZE;
  so_len : flash_len s = nsec * SECTOR_SIZE }.

Record log_inv (k q : Z) (boot : bool) (sent full : list (list Z)) (cur : option (list Z)) (bytes : list Z) (s : log_dump) (f : F) : Prop := {
  lv_ring : ring_holds s full cur;
  lv_pieces : pieces_ok q boot (sent ++ full ++ olist cur) bytes s;
  lv_sent : sent_ok k sent s f;
  lv_init : is_init s = true;
  lv_async : is_immediately s = false }.

(** *** The service at work *)
Lemma sent_flush k sent s f : sent_ok k sent s f -> sent_ok k sent s (log_api_flush f).
Proof. intros []. destruct (flush_keeps f) as [E _]. constructor; [done..| |done|done]. by rewrite E. Qed.

Lemma inv_flush k q boot sent full cur bytes s f : log_inv k q boot sent full cur bytes s f -> log_inv k q boot sent full cur bytes s (log_api_flush f).
Proof. intros []. constructor; try done. by apply sent_flush. Qed.

(** *** A step of the flush *)
Lemma slot_0 s : 0 <= f_seqnum s < COUNT -> slot s 0 = Z.to_nat (f_seqnum s).
Proof. intros Hf. unfold slot. by rewrite Z.add_0_r, Z.mod_small by done. Qed.

Lemma slot_next s s' j : f_seqnum s' = (f_seqnum s + 1) mod COUNT -> slot s' j = slot s (j + 1).
Proof. intros E. unfold slot. rewrite E, Z.add_mod_idemp_l by lia. by rewrite (Z.add_comm j), Z.add_assoc. Qed.

Lemma slot_same s s' j : f_seqnum s' = f_seqnum s -> slot s' j = slot s j.
Proof. unfold slot. by intros ->. Qed.

Lemma ring_pop s s' img full cur d : ring_holds s (img :: full) cur -> d_state d = DATA_BUFFER_STATE_FREE ->
  data_buffer_list s' = <[slot s 0 := d]> (data_buffer_list s) -> f_seqnum s' = (f_seqnum s + 1) mod COUNT -> w_seqnum s' = w_seqnum s ->
  ring_holds s' full cur.
Proof.
  intros [HL Hf Hw Hc HF HZ HU HR] Hd El Ef Ew. pose proof (Z.mod_pos_bound (f_seqnum s + 1) COUNT HC) as Hb.
  simpl length in *. assert (Hzc : zlen (full ++ olist cur) + 1 <= COUNT) by (simpl in Hc; lia).
  assert (Hz : zlen (full ++ olist cur) = zlen full + zlen (olist cur)) by (rewrite length_app; lia).
  assert (HO : forall j, 0 <= j -> j + 1 < COUNT -> data_buffer_list s' !! slot s' j = data_buffer_list s !! slot s (j + 1)).
  { intros j H0 H1. rewrite El, (slot_next s) by done. apply list_lookup_insert_ne. apply slot_ne; lia. }
  constructor.
  - by rewrite El, length_insert.
  - by rewrite Ef.
  - rewrite Ew, Hw, Ef, Z.add_mod_idemp_l by lia. f_equal. lia.
  - lia.
  - intros j x Hx. pose proof (lookup_lt_Some _ _ _ Hx). rewrite HO by lia. replace (Z.of_nat j + 1) with (Z.of_nat (S j)) by lia. by apply HF.
  - by apply List.Forall_inv_tail in HZ.
  - intros x Hx. destruct (HU x Hx) as [H1 H2]. split; [done|]. subst cur. change (zlen (olist (Some x))) with 1 in Hz. rewrite HO by lia.
    replace (zlen full + 1) with (Z.of_nat (S (length full))) by lia. done.
  - intros j Hj. destruct (decide (j + 1 < COUNT)) as [Hlt|Hge].
    + rewrite HO by lia. apply HR. simpl. lia.
    + exists d. split; [|done]. rewrite El, (slot_next s) by done. replace (slot s (j + 1)) with (slot s 0).
      * apply list_lookup_insert_eq. pose proof (slot_lt s 0). lia.
      * unfold slot. replace (j + 1) with COUNT by lia. f_equal. rewrite Z.add_0_r. symmetry. rewrite <- Z.add_mod_idemp_r, Z.mod_same, Z.add_0_r by lia. done.
Qed.

Lemma idle_offs k sent s f : sent_ok k sent s f -> flash_offs s mod SECTOR_SIZE = 0.
Proof. intros []. rewrite so_offs0. apply Z.mod_mul. lia. Qed.

Lemma sent_addr k sent s f : sent_ok k sent s f -> u32 (START + flash_offs s) = sector_addr (k + zlen sent).
Proof. intros []. rewrite so_offs0. apply u32_sector_addr. Qed.

Lemma ring_same s s' full cur : ring_holds s full cur -> data_buffer_list s' = data_buffer_list s -> f_seqnum s' = f_seqnum s ->
  w_seqnum s' = w_seqnum s -> ring_holds s' full cur.
Proof. intros [] El Ef Ew. unfold slot in *. constructor; unfold slot; rewrite ?El, ?Ef, ?Ew; done. Qed.

Lemma pieces_same q boot all bytes s s' : pieces_ok q boot all bytes s -> cur_dump_seqnum s' = cur_dump_seqnum s -> is_bootup s' = is_bootup s ->
  pieces_ok q boot all bytes s'.
Proof. intros [] E1 E2. constructor; rewrite ?E1, ?E2; done. Qed.

(** The place after a sector. *)
Lemma next_place i : (if (i mod nsec) * SECTOR_SIZE + SECTOR_SIZE >=? nsec * SECTOR_SIZE then 0 else (i mod nsec) * SECTOR_SIZE + SECTOR_SIZE)
  = ((i + 1) mod nsec) * SECTOR_SIZE.
Proof.
  pose proof (Z.mod_pos_bound i nsec HN). rewrite <- (Z.add_mod_idemp_l i 1), mod_next by lia. zcases; nia.
Qed.

Lemma inv_moved k q boot sent full cur bytes s s' f f' : log_inv k q boot sent full cur bytes s f -> sent_ok k sent s' f' ->
  data_buffer_list s' = data_buffer_list s -> f_seqnum s' = f_seqnum s -> w_seqnum s' = w_seqnum s ->
  cur_dump_seqnum s' = cur_dump_seqnum s -> is_bootup s' = is_bootup s -> is_init s' = is_init s -> is_immediately s' = is_immediately s ->
  log_inv k q boot sent full cur bytes s' f'.
Proof.
  intros [H1 H2 H3 H4 H5] HS' E1 E2 E3 E4 E5 E6 E7. constructor; [by apply ring_same with s|by apply pieces_same with s|done|congruence|congruence].
Qed.

(** The buffer the flush is at: the first piece to write, or nothing it may take. *)
Lemma at_flush s full cur : ring_holds s full cur ->
  exists d, data_buffer_list s !! Z.to_nat (f_seqnum s) = Some d /\
    match full with
    | [] => Z.land (d_state d) DATA_BUFFER_STATE_WRITTEN = 0
    | img :: _ => d = mkData DATA_BUFFER_STATE_WRITTEN SECTOR_SIZE img /\ zlen img = SECTOR_SIZE
    end.
Proof.
  intros [HL Hf Hw Hc HF HZ HU HR]. rewrite <- slot_0 by done. destruct full as [|img full].
  - destruct cur as [img|].
    + destruct (HU img eq_refl) as [_ H1]. eexists. split; [exact H1|]. reflexivity.
    + destruct (HR 0) as (d & H1 & H2); [simpl; lia|]. exists d. split; [exact H1|]. by rewrite H2.
  - exists (mkData DATA_BUFFER_STATE_WRITTEN SECTOR_SIZE img). split; [by apply (HF 0%nat)|]. split; [done|]. by apply List.Forall_inv in HZ.
Qed.

Lemma snoc_sent k sent img s f : zlen img = SECTOR_SIZE -> sent_ok k sent s f -> flash_state s <> LOG_DUMP_FLASH_STATE_IDLE ->
  accepted f ++ [LWrite (sector_addr (k + zlen sent)) img] = sector_ops k (sent ++ [img]).
Proof. intros Hz [] Hs. rewrite so_ops0, decide_False, sector_ops_app by done. by rewrite <- app_assoc. Qed.

Lemma log_write_step n k q boot sent full cur bytes s f : log_inv k q boot sent full cur bytes s f ->
  flash_state s = LOG_DUMP_FLASH_STATE_ERASED \/ flash_state s = LOG_DUMP_FLASH_STATE_WRITTING ->
  exists r s' f' sent' full', _log_dump_flush SECTOR_SIZE COUNT START (S n) DATA_BUFFER_STATE_WRITTEN true s f = Some (r, s', f') /\
    log_inv k q boot sent' full' cur bytes s' f' /\ region f' = region f /\ zlen full' <= zlen full.
Proof.
  intros HI HW. pose proof HI as [HR HP HT Hi Ha]. unfold _log_dump_flush. rewrite (sent_addr _ _ _ _ HT).
  assert (Hn : flash_state s <> LOG_DUMP_FLASH_STATE_IDLE) by (destruct HW; congruence).
  destruct (at_flush _ _ _ HR) as (d & Ed & Hd).
  assert (EM : forall A (x y z : A), match flash_state s with LOG_DUMP_FLASH_STATE_IDLE => x | LOG_DUMP_FLASH_STATE_WRITTEN => y | _ => z end = z)
    by (intros; by destruct HW as [-> | ->]).
  rewrite EM. clear EM. rewrite Ed. cbn [mbind option_bind]. destruct full as [|img full].
  { rewrite Hd. cbn. exists 0, s, f, sent, []. done. }
  destruct Hd as [-> Hz]. cbn [d_state d_offset d_buffer]. rewrite (proj2 (Z.gtb_lt SECTOR_SIZE 0)) by lia. cbn [Z.land andb negb Z.eqb].
  unfold _flash_api_write. rewrite Ha. cbn [negb andb api_loop]. rewrite take_ge by lia.
  pose proof (write_accepts (sector_addr (k + zlen sent)) img true f) as HA.
  destruct (log_api_write _ img true f) as [[] f']; [| |done]; destruct HA as [HA1 HA2]; cbn.
  - eexists _, _, f', (sent ++ [img]), full. split; [reflexivity|]. split; [|split; [done|simpl; lia]].
    rewrite (snoc_sent _ _ _ _ _ Hz HT Hn) in HA1. destruct HT as [T1 T2 T3 T4 T5]. pose proof (sector_range (k + zlen sent)) as HB.
    assert ((nsec - 1) * SECTOR_SIZE + SECTOR_SIZE = nsec * SECTOR_SIZE) by ring.
    constructor.
    + apply (ring_pop s _ img full cur (mkData DATA_BUFFER_STATE_FREE SECTOR_SIZE img)); [done|done| |cbn; symmetry; apply mod_next; [done|apply HR]|done]. cbn. by rewrite slot_0 by apply HR.
    + rewrite <- app_assoc. by apply pieces_same with s.
    + constructor; cbn; [apply Forall_app; split; [done|by apply List.Forall_cons]|done|by rewrite app_nil_r| |done].
      rewrite T4, T5, u32_small by lia. rewrite next_place. f_equal. f_equal. rewrite length_app. simpl. lia.
    + done.
    + done.
  - subst f'. eexists _, _, _, sent, (img :: full). split; [reflexivity|]. split; [|split; [apply flush_keeps|reflexivity]].
    apply (inv_moved _ _ _ _ _ _ _ s _ f); try done. apply sent_flush. destruct HT as [T1 T2 T3 T4 T5].
    constructor; cbn; try done. rewrite decide_False in T3 by done. done.
Qed.

Lemma log_hook_step n k q boot sent full cur bytes s f : log_inv k q boot sent full cur bytes s f ->
  exists r s' f' sent' full', log_dump_flush SECTOR_SIZE COUNT START (S n) s f = Some (r, s', f') /\
    log_inv k q boot sent' full' cur bytes s' f' /\ region f' = region f /\ zlen full' <= zlen full.
Proof.
  intros HI. pose proof HI as [HR HP HT Hi Ha]. unfold log_dump_flush. rewrite Hi. cbn [negb].
  destruct (flash_state s) eqn:Es.
  - unfold _log_dump_flush. rewrite Es, (sent_addr _ _ _ _ HT), (idle_offs _ _ _ _ HT). cbn [Z.eqb]. unfold _flash_api_erase. rewrite Ha. cbn [negb andb api_loop].
    pose proof (erase_accepts (sector_addr (k + zlen sent)) true f) as HA.
    destruct (log_api_erase _ true f) as [[] f']; [| |done]; destruct HA as [HA1 HA2]; cbn.
    + eexists _, _, f', sent, full. split; [reflexivity|]. split; [|split; [done|lia]]. apply (inv_moved _ _ _ _ _ _ _ s _ f); try done.
      destruct HT. rewrite Es in *. constructor; cbn; try done. by rewrite HA1, so_ops0, app_nil_r.
    + subst f'. eexists _, _, _, sent, full. split; [reflexivity|]. split; [by apply inv_flush|]. split; [apply flush_keeps|lia].
  - eapply log_write_step; [done|by left].
  - eapply log_write_step; [done|by right].
  - by destruct HT.
Qed.

(** *** A record collected *)
Lemma byte_header q boot i : Forall is_byte (piece_header q boot i).
Proof.
  unfold piece_header, header_bytes, le32, is_byte. cbn [h_magic h_version h_seqnum h_is_bootup h_reseved fmap list_fmap app].
  repeat (apply List.Forall_cons; [first [lia | destruct (boot && _); lia | change 255 with (Z.ones 8); rewrite Z.land_ones by lia; apply Z.mod_pos_bound; lia]|]).
  apply List.Forall_nil.
Qed.

Lemma pieces_start q boot l bytes s : pieces_ok q boot l bytes s ->
  header_bytes (log_header s) = piece_header q boot (zlen l) /\
  pieces_ok q boot (l ++ [piece_header q boot (zlen l)]) bytes (set_dump (u32 (cur_dump_seqnum s + 1)) false s).
Proof.
  intros [P1 P2 P3 P4 P5]. split.
  { unfold log_header, piece_header. rewrite P2, P3. done. }
  assert (HL : zlen (l ++ [piece_header q boot (zlen l)]) = zlen l + 1) by (rewrite length_app; simpl; lia).
  constructor; cbn [set_dump cur_dump_seqnum is_bootup].
  - rewrite fmap_app, P1, length_app. change (length [_]) with 1%nat. rewrite Nat.add_1_r, headers_S. done.
  - rewrite HL, P2. unfold u32, wrap. rewrite Z.add_mod_idemp_l by lia. f_equal. lia.
  - rewrite HL. symmetry. apply andb_false_iff. right. apply Z.eqb_neq. lia.
  - rewrite fmap_app, concat_app, P4. cbn. by rewrite app_nil_r.
  - rewrite concat_app. apply Forall_app. split; [done|]. cbn [concat]. rewrite app_nil_r. apply byte_header.
Qed.

Lemma pieces_grow q boot l img chunk bytes s : 16 <= zlen img -> Forall is_byte chunk -> pieces_ok q boot (l ++ [img]) bytes s ->
  pieces_ok q boot (l ++ [img ++ chunk]) (bytes ++ chunk) s.
Proof.
  intros Hi Hc [P1 P2 P3 P4 P5]. rewrite fmap_app in P1, P4. rewrite concat_app in P4, P5. rewrite length_app in P1, P2, P3.
  constructor; rewrite ?fmap_app, ?concat_app, ?length_app; try done.
  - cbn in *. by rewrite take_app_le by lia.
  - cbn in *. rewrite drop_app_le, !app_nil_r in * by lia. by rewrite <- P4, app_assoc.
  - apply Forall_app in P5 as [H1 H2]. apply Forall_app. split; [done|]. cbn in *. rewrite app_nil_r in *. by apply Forall_app.
Qed.

Definition cur_piece (q : Z) (boot : bool) (n : Z) (cur : option (list Z)) : list Z := match cur with Some x => x | None => piece_header q boot n end.
Definition buffer_of (img : list Z) : list Z := img ++ replicate (Z.to_nat (SECTOR_SIZE - zlen img)) 0.
Definition start_state (s : log_dump) (cur : option (list Z)) : log_dump :=
  match cur with Some _ => s | None => set_dump (u32 (cur_dump_seqnum s + 1)) false s end.

Lemma buffer_full img : zlen img = SECTOR_SIZE -> buffer_of img = img.
Proof. intros E. unfold buffer_of. rewrite E, Z.sub_diag. apply app_nil_r. Qed.

Lemma w_slot s full cur : ring_holds s full cur -> Z.to_nat (w_seqnum s) = slot s (zlen full).
Proof. intros []. unfold slot. by rewrite rh_w0. Qed.

Lemma memcpy_buffer img chunk : zlen img + zlen chunk <= SECTOR_SIZE -> memcpy (zlen img) chunk (buffer_of img) = Some (buffer_of (img ++ chunk)).
Proof.
  intros Hl. unfold memcpy, buffer_of. rewrite (proj2 (Z.leb_le _ _)) by lia. rewrite (proj2 (Z.leb_le _ _)) by (rewrite length_app, length_replicate; lia).
  cbn [andb]. rewrite inserts_app by (rewrite length_app, length_replicate; lia). rewrite Nat2Z.id, take_app_length, drop_app_ge by lia.
  rewrite drop_replicate, <- app_assoc, length_app. do 4 f_equal. lia.
Qed.

Lemma start_buffer_ok q boot sent full cur bytes s : ring_holds s full cur -> pieces_ok q boot (sent ++ full ++ olist cur) bytes s -> zlen full < COUNT ->
  let img := cur_piece q boot (zlen (sent ++ full)) cur in
  exists d, data_buffer_list s !! Z.to_nat (w_seqnum s) = Some d /\ 16 <= zlen img < SECTOR_SIZE /\
    start_buffer (fresh_buffer SECTOR_SIZE d) s = Some (mkData DATA_BUFFER_STATE_WRITTING (zlen img) (buffer_of img), start_state s cur) /\
    pieces_ok q boot ((sent ++ full) ++ [img]) bytes (start_state s cur).
Proof.
  intros HR HP Hc. rewrite (w_slot _ _ _ HR). destruct HR as [HL Hf Hw Hk HF HZ HU HR]. destruct cur as [img|]; cbn [cur_piece start_state olist] in *.
  - destruct (HU img eq_refl) as [Hi Hd]. eexists. split; [exact Hd|]. split; [done|]. split; [|by rewrite <- app_assoc].
    unfold fresh_buffer, start_buffer. cbn. rewrite (proj2 (Z.eqb_neq (zlen img) 0)) by lia. done.
  - rewrite app_nil_r in HP, Hk, HR. destruct (HR (zlen full)) as (d & Hd & Hs); [lia|]. exists d. split; [exact Hd|].
    rewrite length_header. split; [lia|]. destruct (pieces_start _ _ _ _ _ HP) as [E1 E2]. split; [|exact E2].
    unfold fresh_buffer, start_buffer. rewrite Hs. cbn [Z.eqb DATA_BUFFER_STATE_FREE orb d_offset d_buffer d_state].
    rewrite E1. pose proof (memcpy_buffer [] (piece_header q boot (zlen (sent ++ full)))) as HM. unfold buffer_of at 1 in HM.
    cbn [length app] in HM. change (Z.of_nat 0) with 0 in HM. rewrite Z.sub_0_r in HM. rewrite HM by (rewrite length_header; lia). done.
Qed.

Lemma fill_ok img bs : 16 <= zlen img < SECTOR_SIZE -> zlen bs < 2 ^ 31 ->
  let n := Z.to_nat (Z.min (zlen bs) (SECTOR_SIZE - zlen img)) in let img1 := img ++ take n bs in
  fill_buffer SECTOR_SIZE bs (mkData DATA_BUFFER_STATE_WRITTING (zlen img) (buffer_of img)) =
    Some (mkData (if zlen img1 =? SECTOR_SIZE then DATA_BUFFER_STATE_WRITTEN else DATA_BUFFER_STATE_WRITTING) (zlen img1) (buffer_of img1), drop n bs) /\
  zlen img1 <= SECTOR_SIZE /\ (zlen img1 < SECTOR_SIZE -> drop n bs = []) /\ (bs <> [] -> (length (drop n bs) < length bs)%nat).
Proof.
  intros Hi Hb n img1. assert (Hz : zlen img1 = zlen img + Z.min (zlen bs) (SECTOR_SIZE - zlen img)).
  { unfold img1. rewrite length_app, length_take. lia. }
  split; [|split; [lia|split]].
  - unfold fill_buffer. cbn [d_offset d_buffer d_state]. rewrite u32_small by lia.
    assert (Hw : (if zlen img + zlen bs >? SECTOR_SIZE then SECTOR_SIZE - zlen img else zlen bs) = Z.of_nat n) by (unfold n; zcases; lia).
    rewrite Hw, Nat2Z.id. destruct (Z.gtb_spec (Z.of_nat n) 0) as [Hn|Hn].
    + rewrite memcpy_buffer by (rewrite length_take; lia). cbn. fold img1. replace (zlen img + Z.of_nat n) with (zlen img1) by lia. done.
    + assert (E : img1 = img) by (unfold img1; replace n with 0%nat by lia; rewrite take_0; apply app_nil_r).
      cbn. rewrite E, Z.add_0_r. done.
  - intros Hx. apply nil_length_inv. rewrite length_drop. lia.
  - intros Hx. assert (0 < zlen bs) by (destruct bs; [done | simpl; lia]). rewrite length_drop. lia.
Qed.

Lemma put_cur s s' full cur img : ring_holds s full cur -> zlen full < COUNT -> 16 <= zlen img < SECTOR_SIZE ->
  data_buffer_list s' = <[slot s (zlen full) := mkData DATA_BUFFER_STATE_WRITTING (zlen img) (buffer_of img)]> (data_buffer_list s) ->
  f_seqnum s' = f_seqnum s -> w_seqnum s' = w_seqnum s -> ring_holds s' full (Some img).
Proof.
  intros [HL Hf Hw Hk HF HZ HU HR] Hc Hi El Ef Ew. pose proof (slot_lt s (zlen full)).
  assert (HO : forall j, 0 <= j < COUNT -> j <> zlen full -> data_buffer_list s' !! slot s' j = data_buffer_list s !! slot s j).
  { intros j Hj Hn. rewrite El, (slot_same s) by done. apply list_lookup_insert_ne. apply slot_ne; lia. }
  assert (Hz : zlen (full ++ olist (Some img)) = zlen full + 1) by (rewrite length_app; simpl; lia).
  assert (Hz' : zlen (full ++ olist cur) <= zlen full + 1) by (rewrite length_app; destruct cur; simpl; lia).
  constructor; rewrite ?Hz; try lia; try done.
  - by rewrite El, length_insert.
  - by rewrite Ew, Ef.
  - intros j x Hx. pose proof (lookup_lt_Some _ _ _ Hx). rewrite HO by lia. by apply HF.
  - intros x [= <-]. split; [done|]. rewrite El, (slot_same s) by done. apply list_lookup_insert_eq. lia.
  - intros j Hj. rewrite HO by lia. apply HR. lia.
Qed.

Lemma put_full s s' full cur img : ring_holds s full cur -> zlen full < COUNT -> zlen img = SECTOR_SIZE ->
  data_buffer_list s' = <[slot s (zlen full) := mkData DATA_BUFFER_STATE_WRITTEN SECTOR_SIZE img]> (data_buffer_list s) ->
  f_seqnum s' = f_seqnum s -> w_seqnum s' = (w_seqnum s + 1) mod COUNT -> ring_holds s' (full ++ [img]) None.
Proof.
  intros [HL Hf Hw Hk HF HZ HU HR] Hc Hi El Ef Ew. pose proof (slot_lt s (zlen full)).
  assert (HO : forall j, 0 <= j < COUNT -> j <> zlen full -> data_buffer_list s' !! slot s' j = data_buffer_list s !! slot s j).
  { intros j Hj Hn. rewrite El, (slot_same s) by done. apply list_lookup_insert_ne. apply slot_ne; lia. }
  assert (Hz : zlen ((full ++ [img]) ++ olist None) = zlen full + 1) by (rewrite app_nil_r, length_app; simpl; lia).
  assert (Hz' : zlen (full ++ olist cur) <= zlen full + 1) by (rewrite length_app; destruct cur; simpl; lia).
  constructor; rewrite ?Hz; try lia; try done.
  - by rewrite El, length_insert.
  - rewrite Ew, Ef, Hw, Z.add_mod_idemp_l by lia. f_equal. rewrite length_app. simpl. lia.
  - intros j x Hx. apply lookup_app_Some in Hx as [Hx|[Hj Hx]].
    + pose proof (lookup_lt_Some _ _ _ Hx). rewrite HO by lia. by apply HF.
    + apply list_lookup_singleton_Some in Hx as [Hj' <-]. replace (Z.of_nat j) with (zlen full) by lia.
      rewrite El, (slot_same s) by done. apply list_lookup_insert_eq. lia.
  - apply Forall_app. split; [done|]. by apply List.Forall_cons.
  - intros j Hj. rewrite HO by lia. apply HR. lia.
Qed.

Lemma sent_same k sent s s' f : sent_ok k sent s f -> flash_state s' = flash_state s -> flash_offs s' = flash_offs s -> flash_len s' = flash_len s ->
  sent_ok k sent s' f.
Proof. intros [] E1 E2 E3. constructor; rewrite ?E1, ?E2, ?E3; done. Qed.

Lemma start_fields s cur : flash_state (start_state s cur) = flash_state s /\ flash_offs (start_state s cur) = flash_offs s /\
  flash_len (start_state s cur) = flash_len s /\ data_buffer_list (start_state s cur) = data_buffer_list s /\ f_seqnum (start_state s cur) = f_seqnum s /\
  w_seqnum (start_state s cur) = w_seqnum s /\ is_init (start_state s cur) = is_init s /\ is_immediately (start_state s cur) = is_immediately s.
Proof. by destruct cur. Qed.

Lemma hooks_ok n fuel k q boot sent full cur bytes s f : log_inv k q boot sent full cur bytes s f ->
  exists s' f' sent' full', run_hooks SECTOR_SIZE COUNT START n (S fuel) s f = Some (s', f') /\
    log_inv k q boot sent' full' cur bytes s' f' /\ region f' = region f /\ zlen full' <= zlen full.
Proof.
  revert sent full s f. induction n as [|n IH]; intros sent full s f HI.
  - exists s, f, sent, full. done.
  - cbn [run_hooks]. destruct (log_hook_step fuel _ _ _ _ _ _ _ _ _ HI) as (r & s1 & f1 & sent1 & full1 & E1 & HI1 & R1 & L1).
    destruct (IH _ _ _ _ HI1) as (s2 & f2 & sent2 & full2 & E2 & HI2 & R2 & L2). rewrite E1. cbn [mbind option_bind]. rewrite E2.
    exists s2, f2, sent2, full2. split; [done|]. split; [done|]. split; [congruence|lia].
Qed.

(** The state after a turn of the loop that leaves room in the buffer, and after one that fills it. *)
Lemma turn_cur k q boot sent full cur bytes s f img1 chunk : log_inv k q boot sent full cur bytes s f -> zlen full < COUNT ->
  Forall is_byte chunk -> img1 = cur_piece q boot (zlen (sent ++ full)) cur ++ chunk -> zlen img1 < SECTOR_SIZE ->
  let s1 := start_state s cur in
  log_inv k q boot sent full (Some img1) (bytes ++ chunk)
    (set_list (<[Z.to_nat (w_seqnum s) := mkData DATA_BUFFER_STATE_WRITTING (zlen img1) (buffer_of img1)]> (data_buffer_list s1)) s1) f.
Proof.
  intros [HR HP HT Hi Ha] Hc Hb E1 Hz s1. destruct (start_buffer_ok q boot sent full cur bytes s HR HP Hc) as (d & Hd & Hl & _ & HP1).
  destruct (start_fields s cur) as (F1 & F2 & F3 & F4 & F5 & F6 & F7 & F8). fold s1 in F1, F2, F3, F4, F5, F6, F7, F8, HP1.
  rewrite (w_slot _ _ _ HR), F4. constructor; cbn [set_list is_init is_immediately]; [|cbn [olist]| |congruence|congruence].
  - eapply put_cur; [exact HR|done| |cbn; reflexivity|done|done]. split; [|exact Hz]. rewrite E1, length_app. lia.
  - rewrite app_assoc, E1. apply pieces_same with s1; [apply pieces_grow; [lia|done|exact HP1]|done|done].
  - apply sent_same with s; done.
Qed.

Lemma turn_full k q boot sent full cur bytes s f img1 chunk : log_inv k q boot sent full cur bytes s f -> zlen full < COUNT ->
  Forall is_byte chunk -> img1 = cur_piece q boot (zlen (sent ++ full)) cur ++ chunk -> zlen img1 = SECTOR_SIZE ->
  let s1 := start_state s cur in
  log_inv k q boot sent (full ++ [img1]) None (bytes ++ chunk)
    (set_w ((w_seqnum s + 1) mod COUNT)
      (set_list (<[Z.to_nat (w_seqnum s) := mkData DATA_BUFFER_STATE_WRITTEN SECTOR_SIZE img1]> (data_buffer_list s1)) s1)) f.
Proof.
  intros [HR HP HT Hi Ha] Hc Hb E1 Hz s1. destruct (start_buffer_ok q boot sent full cur bytes s HR HP Hc) as (d & Hd & Hl & _ & HP1).
  destruct (start_fields s cur) as (F1 & F2 & F3 & F4 & F5 & F6 & F7 & F8). fold s1 in F1, F2, F3, F4, F5, F6, F7, F8, HP1.
  rewrite (w_slot _ _ _ HR), F4. constructor; cbn [set_list set_w is_init is_immediately]; [|cbn [olist]| |congruence|congruence].
  - eapply put_full; [exact HR|done|exact Hz|cbn; reflexivity|done|done].
  - rewrite app_nil_r, app_assoc, E1. apply pieces_same with s1; [apply pieces_grow; [lia|done|exact HP1]|done|done].
  - apply sent_same with s; done.
Qed.

Lemma output_ok turns fuel hooks bs k q boot sent full cur bytes s f : log_inv k q boot sent full cur bytes s f -> zlen full < COUNT ->
  zlen bs < 2 ^ 31 -> Forall is_byte bs -> (length bs < turns)%nat ->
  exists lost s' f', output_loop SECTOR_SIZE COUNT START turns (S fuel) hooks bs s f = Some (lost, s', f') /\ region f' = region f /\
    (lost = 0 -> exists sent' full' cur', log_inv k q boot sent' full' cur' (bytes ++ bs) s' f').
Proof.
  revert hooks bs sent full cur bytes s f. induction turns as [|turns IH]; intros hooks bs sent full cur bytes s f HI Hc Hb Hbs Ht; [lia|].
  pose proof HI as [HR HP HT Hi Ha]. destruct (start_buffer_ok q boot sent full cur bytes s HR HP Hc) as (d & Hd & Hl & E1 & _).
  destruct (fill_ok _ _ Hl Hb) as (E2 & Hz & Hrest & Hless). cbn zeta in E2, Hz, Hrest, Hless. revert E2 Hz Hrest Hless.
  set (n := Z.to_nat (Z.min _ _)). set (img1 := cur_piece _ _ _ _ ++ take n bs). intros E2 Hz Hrest Hless.
  assert (Hch : Forall is_byte (take n bs)) by by apply Forall_take.
  cbn [output_loop]. rewrite Hd. cbn [mbind option_bind]. rewrite E1. cbn [mbind option_bind]. rewrite E2. cbn [mbind option_bind d_offset d_state].
  destruct (Z.eqb_spec (zlen img1) SECTOR_SIZE) as [Hf|Hf].
  - pose proof (turn_full k q boot sent full cur bytes s f img1 (take n bs) HI Hc Hch eq_refl Hf) as HI3. cbn zeta in HI3.
    destruct (start_fields s cur) as (F1 & F2 & F3 & F4 & F5 & F6 & F7 & F8).
    pose proof (Z.mod_pos_bound (f_seqnum s + zlen full) COUNT HC) as Hw. rewrite <- (rh_w _ _ _ HR) in Hw.
    cbn [set_list w_seqnum]. rewrite F6, <- mod_next, buffer_full, Hf by lia. revert HI3. set (s3 := set_w _ _). intros HI3.
    pose proof (lv_ring _ _ _ _ _ _ _ _ _ HI3) as HR3.
    assert (Hw3 : w_seqnum s3 = (f_seqnum s3 + zlen (full ++ [img1])) mod COUNT) by apply HR3.
    assert (Hl3 : zlen (full ++ [img1]) = zlen full + 1) by (rewrite length_app; simpl; lia).
    destruct (Z.eqb_spec ((w_seqnum s + 1) mod COUNT) (f_seqnum s3)) as [Hov|Hov].
    + exists (zlen (drop n bs)), s3, f. split; [done|]. split; [done|]. intros H0.
      exists sent, (full ++ [img1]), None. assert (Hd0 : drop n bs = []) by (apply nil_length_inv; lia).
      rewrite <- (take_drop n bs) at 1. by rewrite Hd0, app_nil_r.
    + assert (Hc3 : zlen full + 1 < COUNT).
      { destruct (decide (zlen full + 1 = COUNT)) as [HX|]; [|lia]. exfalso. apply Hov. change (w_seqnum s3 = f_seqnum s3).
        rewrite Hw3, Hl3, HX, <- Z.add_mod_idemp_r, Z.mod_same, Z.add_0_r by lia. apply Z.mod_small. apply HR3. }
      destruct (rh_free _ _ _ HR3 (zlen (full ++ [img1]))) as (d' & Hd' & Hs'); [rewrite app_nil_r; lia|].
      rewrite <- (w_slot _ _ _ HR3) in Hd'. change (Z.to_nat (w_seqnum s3)) with (Z.to_nat ((w_seqnum s + 1) mod COUNT)) in Hd'.
      rewrite Hd'. cbn [mbind option_bind]. unfold is_free. rewrite Hs'. cbn [Z.eqb DATA_BUFFER_STATE_FREE orb]. rewrite option_guard_True by done. cbn [mbind option_bind].
      destruct (hooks_ok (hd 0%nat hooks) fuel _ _ _ _ _ _ _ _ _ HI3) as (s4 & f4 & sent4 & full4 & E4 & HI4 & R4 & L4).
      rewrite E4. cbn [mbind option_bind]. destruct (drop n bs) as [|y rest] eqn:ER.
      * exists 0, s4, f4. split; [done|]. split; [done|]. intros _. exists sent4, full4, None. rewrite <- (take_drop n bs), ER, app_nil_r. done.
      * rewrite <- ER in *. assert (Hne : bs <> []) by (intros ->; rewrite drop_nil in ER; done). specialize (Hless Hne).
        destruct (IH (tl hooks) (drop n bs) sent4 full4 None _ s4 f4 HI4) as (lost & s5 & f5 & E5 & R5 & L5); [lia|lia|by apply Forall_drop|lia|].
        exists lost, s5, f5. rewrite E5. split; [done|]. split; [congruence|]. intros H0.
        replace (bytes ++ bs) with ((bytes ++ take n bs) ++ drop n bs) by (by rewrite <- app_assoc, take_drop). by apply L5.
  - rewrite Hrest by lia. eexists 0, _, f. split; [reflexivity|]. split; [done|]. intros _. exists sent, full, (Some img1).
    pose proof (turn_cur k q boot sent full cur bytes s f img1 (take n bs) HI Hc Hch eq_refl ltac:(lia)) as HI3. cbn zeta in HI3.
    rewrite <- (take_drop n bs) at 1. rewrite Hrest, app_nil_r by lia. exact HI3.
Qed.
End Laws.

Arguments rh_length {_ _ _ _ _} _.
Arguments rh_f {_ _ _ _ _} _.
Arguments rh_w {_ _ _ _ _} _.
Arguments rh_count {_ _ _ _ _} _.
Arguments rh_full {_ _ _ _ _} _ _ _ _.
Arguments rh_sizes {_ _ _ _ _} _.
Arguments rh_cur {_ _ _ _ _} _ _ _.
Arguments rh_free {_ _ _ _ _} _ _ _.
Arguments lv_ring {_ _ _ _ _ _ _ _ _ _ _ _ _ _ _ _ _} _.
Arguments lv_pieces {_ _ _ _ _ _ _ _ _ _ _ _ _ _ _ _ _} _.
Arguments lv_sent {_ _ _ _ _ _ _ _ _ _ _ _ _ _ _ _ _} _.
Arguments lv_init {_ _ _ _ _ _ _ _ _ _ _ _ _ _ _ _ _} _.
Arguments lv_async {_ _ _ _ _ _ _ _ _ _ _ _ _ _ _ _ _} _.
Arguments so_sizes {_ _ _ _ _ _ _ _ _ _ _} _.
Arguments so_state {_ _ _ _ _ _ _ _ _ _ _} _.
Arguments so_ops {_ _ _ _ _ _ _ _ _ _ _} _.
Arguments so_offs {_ _ _ _ _ _ _ _ _ _ _} _.
Arguments so_len {_ _ _ _ _ _ _ _ _ _ _} _.
Arguments po_headers {_ _ _ _ _} _.
Arguments po_seqnum {_ _ _ _ _} _.
Arguments po_bootup {_ _ _ _ _} _.
Arguments po_bytes {_ _ _ _ _} _.
Arguments po_range {_ _ _ _ _} _.
