(* ===== verification/LogRuns.v ===== *)
(** Runs of the log section: every record, hook and work of the flash service keeps the invariant; what
    a start finds in the flash, after a loss of power too; and the flush of what is left. *)
From Stdlib Require Import ZArith Lia Bool.
From stdpp Require Import base option list list_numbers.
From S2P Require Import Prelude Norflash HalTrace LogSection LogLaws.

Section Runs.
Context {F : Type} {SECTOR_SIZE START END : Z} `{HSpec : LogFlashSpec F SECTOR_SIZE START END}.
Variable COUNT : Z.
Variable nsec : Z.
Hypothesis HS : 16 < SECTOR_SIZE <= 2 ^ 31.
Hypothesis HC : 0 < COUNT.
Hypothesis HN : 0 < nsec.
Hypothesis HE : 0 <= START /\ END = START + nsec * SECTOR_SIZE /\ END < 2 ^ 32.

#[local] Notation ring_holds := (@ring_holds SECTOR_SIZE COUNT).
#[local] Notation log_inv := (@log_inv F SECTOR_SIZE START END _ _ COUNT nsec).
#[local] Notation slot := (slot COUNT).
#[local] Notation sector_addr := (@sector_addr SECTOR_SIZE START nsec).
#[local] Notation sector_ops := (@sector_ops SECTOR_SIZE START nsec).

(** ** The invariant of a run *)
Lemma not_overrun s full cur : ring_holds s full cur -> overrun s = false -> zlen full < COUNT.
Proof.
  intros HR HO. assert (Hk : zlen full <= COUNT) by (pose proof (rh_count HR) as Hk; rewrite length_app in Hk; lia).
  destruct (decide (zlen full = COUNT)) as [HX|]; [|lia]. exfalso. unfold overrun in HO.
  rewrite (w_slot COUNT _ _ _ HR) in HO. replace (slot s (zlen full)) with (slot s (Z.of_nat 0)) in HO.
  - destruct full as [|img full]; [simpl in HX; lia|]. by rewrite (rh_full HR 0 img eq_refl) in HO.
  - unfold LogLaws.slot. rewrite HX, <- (Z.add_mod_idemp_r _ COUNT), Z.mod_same by lia. done.
Qed.

Lemma step_ok fuel e a k q boot sent full cur bytes s f s' f' : log_inv k q boot sent full cur bytes s f -> (0 < fuel)%nat ->
  log_step SECTOR_SIZE COUNT START fuel e s f = Some (a, s', f') -> a = (false, 0) ->
  exists sent' full' cur', log_inv k q boot sent' full' cur' (bytes ++ logged [(e, a)]) s' f' /\ region f' = region f.
Proof.
  intros HI Hf HX ->. destruct fuel as [|fuel]; [lia|]. unfold logged. cbn [flat_map fst app]. destruct e as [bs after hooks| |]; cbn [log_step] in HX.
  - destruct (_ && _) eqn:EB in HX; [|done]. apply andb_true_iff in EB as [Hb Hbs]. apply Z.ltb_lt in Hb.
    apply bind_Some in HX as ([[lost s1] f1] & EO & [= HO H0 -> ->]). subst lost.
    pose proof (not_overrun _ _ _ (lv_ring HI) HO) as Hc. unfold log_dump_output_handler in EO. rewrite (lv_init HI) in EO. cbn [negb] in EO. unfold kept.
    destruct (strstr _ _) in *; rewrite app_nil_r.
    + injection EO as <- <-. by exists sent, full, cur.
    + assert (HB : Forall is_byte bs).
      { apply Forall_forall. intros x Hx. apply forallb_forall with (x := x) in Hbs; [|by apply list_elem_of_In]. unfold is_byte. zbool. lia. }
      destruct (output_ok COUNT nsec HS HC HN HE (S (length bs)) fuel hooks bs _ _ _ _ _ _ _ _ _ HI Hc Hb HB ltac:(lia)) as (lost & s2 & f2 & E2 & R2 & L2).
      rewrite E2 in EO. injection EO as -> -> ->. destruct (L2 eq_refl) as (sent' & full' & cur' & HI'). by exists sent', full', cur'.
  - apply bind_Some in HX as ([[r s1] f1] & EO & [= -> ->]).
    destruct (log_hook_step COUNT nsec HS HC HN HE fuel _ _ _ _ _ _ _ _ _ HI) as (r' & s2 & f2 & sent' & full' & E2 & HI' & R & _).
    rewrite E2 in EO. injection EO as -> -> ->. rewrite app_nil_r. by exists sent', full', cur.
  - injection HX as <- <-. rewrite app_nil_r. exists sent, full, cur. split; [by apply inv_flush|apply flush_keeps].
Qed.

Lemma log_reach_inv k q boot s0 f0 tr s f : log_inv k q boot [] [] None [] s0 f0 -> log_reach SECTOR_SIZE COUNT START s0 f0 tr s f ->
  Forall intact tr -> exists sent full cur, log_inv k q boot sent full cur (logged tr) s f /\ region f = region f0.
Proof.
  intros HI HR. induction HR as [|tr s f fuel e a s' f' HR IH Hf HX]; intros HT; [by exists [], [], None|].
  apply Forall_app in HT as [HT Ha]. apply List.Forall_inv in Ha. destruct (IH HT) as (sent & full & cur & HI1 & R1).
  destruct (step_ok _ _ _ _ _ _ _ _ _ _ _ _ _ _ HI1 Hf HX Ha) as (sent' & full' & cur' & HI2 & R2).
  exists sent', full', cur'. unfold logged in *. rewrite flat_map_app. split; [done|congruence].
Qed.

(** As long as nothing is overrun no step fails, whatever the answers of the flash service. *)
Lemma step_total fuel e k q boot sent full cur bytes s f : log_inv k q boot sent full cur bytes s f -> (0 < fuel)%nat ->
  match e with Record_out bs _ _ => overrun s = false /\ zlen bs < 2 ^ 31 /\ forallb (fun x => (0 <=? x) && (x <? 256)) bs = true | _ => True end ->
  exists r, log_step SECTOR_SIZE COUNT START fuel e s f = Some r.
Proof.
  intros HI Hf He. destruct fuel as [|fuel]; [lia|]. destruct e as [bs after hooks| |]; cbn [log_step].
  - destruct He as (HO & Hb & Hbs). rewrite Hbs, (proj2 (Z.ltb_lt _ _)) by done. cbn [andb].
    pose proof (not_overrun _ _ _ (lv_ring HI) HO) as Hc. unfold log_dump_output_handler.
    rewrite (lv_init HI). cbn [negb]. destruct (strstr _ _); [by eexists|].
    assert (HB : Forall is_byte bs).
    { apply Forall_forall. intros x Hx. apply forallb_forall with (x := x) in Hbs; [|by apply list_elem_of_In]. unfold is_byte. zbool. lia. }
    destruct (output_ok COUNT nsec HS HC HN HE (S (length bs)) fuel hooks bs _ _ _ _ _ _ _ _ _ HI Hc Hb HB ltac:(lia)) as (lost & s2 & f2 & E2 & _).
    rewrite E2. by eexists.
  - destruct (log_hook_step COUNT nsec HS HC HN HE fuel _ _ _ _ _ _ _ _ _ HI) as (r' & s2 & f2 & sent' & full' & E2 & _).
    rewrite E2. by eexists.
  - by eexists.
Qed.

(** ** The buffers in use *)
Lemma omap_none {X Y} (g : X -> option Y) l : (forall x, x ∈ l -> g x = None) -> omap g l = [].
Proof. induction l as [|x l IH]; intros Hg; [done|]. cbn. rewrite Hg by by left. apply IH. intros y Hy. apply Hg. by right. Qed.

Lemma omap_list {Y} (g : nat -> option Y) i (l : list Y) : (forall j y, l !! j = Some y -> g (i + j)%nat = Some y) -> omap g (seq i (length l)) = l.
Proof.
  revert i. induction l as [|y l IH]; intros i Hg; [done|]. cbn [length seq omap list_omap]. pose proof (Hg 0%nat y eq_refl) as H0. rewrite Nat.add_0_r in H0.
  rewrite H0. f_equal. apply IH. intros j z Hz. rewrite <- (Hg (S j) z Hz). f_equal. lia.
Qed.

Lemma buffered_spec s full cur : ring_holds s full cur -> buffered COUNT s = full ++ olist cur.
Proof.
  intros [HL Hf Hw Hk HF HZ HU HR]. unfold buffered. set (g := fun j => _).
  assert (EG : forall j d, data_buffer_list s !! slot s (Z.of_nat j) = Some d -> g j = if is_free d then None else Some (take (Z.to_nat (d_offset d)) (d_buffer d))).
  { intros j d Hd. unfold g. unfold LogLaws.slot in Hd. by rewrite Hd. }
  replace (Z.to_nat COUNT) with (length (full ++ olist cur) + (Z.to_nat COUNT - length (full ++ olist cur)))%nat by lia.
  rewrite seq_app, omap_app, (omap_list g 0 (full ++ olist cur)).
  - rewrite omap_none; [apply app_nil_r|]. intros j Hj. apply elem_of_seq in Hj.
    destruct (HR (Z.of_nat j)) as (d & Hd & Hs); [lia|]. rewrite (EG _ _ Hd). unfold is_free. by rewrite Hs.
  - intros j img Hj. cbn [Nat.add]. apply lookup_app_Some in Hj as [Hj|[Hj Hi]].
    + rewrite (EG _ _ (HF _ _ Hj)). cbn. rewrite take_ge; [done|]. rewrite Forall_lookup in HZ. pose proof (HZ _ _ Hj). lia.
    + destruct cur as [x|]; [|done]. apply list_lookup_singleton_Some in Hi as [Hi <-]. destruct (HU x eq_refl) as [Hx Hd].
      replace (zlen full) with (Z.of_nat j) in Hd by lia. rewrite (EG _ _ Hd). cbn. by rewrite Nat2Z.id, take_app_length.
Qed.

(** ** What a start finds *)
Lemma le32_value n : 0 <= n < 2 ^ 32 -> le32_at (le32 n) 0 = n.
Proof.
  intros Hn. unfold le32_at, le32. cbn [fmap list_fmap nth Nat.add]. change 255 with (Z.ones 8). rewrite !Z.land_ones, !Z.shiftr_div_pow2 by lia.
  change (2 ^ (8 * 0)) with 1. change (2 ^ (8 * 1)) with 256. change (2 ^ (8 * 2)) with 65536. change (2 ^ (8 * 3)) with 16777216.
  change (2 ^ 8) with 256. change (2 ^ 16) with 65536. change (2 ^ 24) with 16777216. change (2 ^ 32) with 4294967296 in Hn.
  Z.to_euclidean_division_equations. lia.
Qed.

Lemma read_piece_header q boot i : read_header (piece_header q boot i) =
  mkHeader DUMP_LOG_MAGIC DUMP_LOG_VERSION (u32 (q + i)) (if boot && (i =? 0) then 1 else 0) [0; 0; 10].
Proof.
  unfold piece_header, header_bytes. cbn [h_magic h_version h_seqnum h_is_bootup h_reseved].
  rewrite <- (le32_value (u32 (q + i))) at 2 by (apply wrap_range; lia). reflexivity.
Qed.

Definition header_at (m : list Z) (i : Z) : LOG_DUMP_HEADER := read_header (piece m (i * SECTOR_SIZE) sizeof_header).

(** The pieces on the flash have numbers below [q], each in the place of its number, the last before
    [q] among them. *)
Record consistent (m : list Z) (q : Z) : Prop := {
  cs_range : 0 <= q < 2 ^ 32;
  cs_length : zlen m = nsec * SECTOR_SIZE;
  cs_valid i : 0 <= i < nsec -> header_valid (header_at m i) = true -> 0 <= h_seqnum (header_at m i) < q /\ h_seqnum (header_at m i) mod nsec = i;
  cs_newest : 0 < q -> header_valid (header_at m ((q - 1) mod nsec)) = true /\ h_seqnum (header_at m ((q - 1) mod nsec)) = q - 1 }.

(** What the loop of [_get_seqnum] knows after [i] sectors. *)
Definition scanned (m : list Z) (i : Z) (ex : bool) (md ms : Z) : Prop :=
  0 <= md /\ (forall j, 0 <= j < i -> header_valid (header_at m j) = true -> h_seqnum (header_at m j) <= md /\ ex = true) /\
  (md = 0 /\ ms = 0 \/ 0 <= ms < i /\ header_valid (header_at m ms) = true /\ h_seqnum (header_at m ms) = md) /\
  (ex = true -> exists j, 0 <= j < i /\ header_valid (header_at m j) = true).

Lemma read_header_at f i : 0 <= i < nsec ->
  _flash_api_read (u32 (START + i * SECTOR_SIZE)) sizeof_header f = (NORFLASH_API_OK, piece (on_flash f) (i * SECTOR_SIZE) sizeof_header).
Proof.
  intros Hi. assert ((i + 1) * SECTOR_SIZE <= nsec * SECTOR_SIZE) by nia. assert (0 <= i * SECTOR_SIZE) by nia.
  rewrite u32_small by lia. apply read_stored; [lia|done|]. unfold sizeof_header. lia.
Qed.

Lemma scan_ok f q n i ex md ms : consistent (on_flash f) q -> 0 <= i -> i + Z.of_nat n = nsec -> scanned (on_flash f) i ex md ms ->
  exists ex' md' ms', seqnum_loop SECTOR_SIZE START n i md ms ex f = Some (ex', md', ms') /\ scanned (on_flash f) nsec ex' md' ms'.
Proof.
  intros HQ. revert i ex md ms. induction n as [|n IH]; intros i ex md ms Hi Hn HI.
  - exists ex, md, ms. split; [done|]. by replace nsec with i by lia.
  - cbn [seqnum_loop]. rewrite read_header_at by lia. fold (header_at (on_flash f) i). set (h := header_at (on_flash f) i).
    destruct HI as (H0 & H1 & H2 & H3). destruct (header_valid h) eqn:HV.
    + destruct (cs_valid _ _ HQ i ltac:(lia) HV) as [Hr _]. fold h in Hr. destruct (Z.gtb_spec (h_seqnum h) md) as [Hg|Hg]; apply IH; try lia.
      * split; [lia|]. split; [|split; [right; split; [lia|by split]|intros _; exists i; split; [lia|done]]].
        intros j Hj Hv. split; [|done]. destruct (decide (j = i)) as [->|]; [fold h; lia|]. destruct (H1 j ltac:(lia) Hv). lia.
      * split; [lia|]. split; [|split; [destruct H2 as [H2|(H2 & H4)]; [by left|right; split; [lia|done]]|intros _; exists i; split; [lia|done]]].
        intros j Hj Hv. split; [|done]. destruct (decide (j = i)) as [->|]; [fold h; lia|]. destruct (H1 j ltac:(lia) Hv). lia.
    + apply IH; try lia. split; [lia|]. split; [|split; [destruct H2 as [H2|(H2 & H4)]; [by left|right; split; [lia|done]]|]].
      * intros j Hj Hv. destruct (decide (j = i)) as [->|]; [unfold h in HV; congruence|]. apply H1; [lia|done].
      * intros HX. destruct (H3 HX) as (j & Hj & Hv). exists j. split; [lia|done].
Qed.

Lemma get_seqnum_ok f q : consistent (on_flash f) q -> _get_seqnum SECTOR_SIZE START END f = Some (q, q mod nsec).
Proof.
  intros HQ. unfold _get_seqnum. replace ((END - START) / SECTOR_SIZE) with nsec.
  2:{ destruct HE as (_ & -> & _). replace (START + nsec * SECTOR_SIZE - START) with (nsec * SECTOR_SIZE) by lia. rewrite Z.div_mul; lia. }
  destruct (scan_ok f q (Z.to_nat nsec) 0 false 0 0 HQ) as (ex & md & ms & E & H0 & H1 & H2 & H3); [lia|lia| |].
  { split; [done|]. split; [lia|]. split; [by left|done]. }
  rewrite E. cbn [mbind option_bind]. destruct HQ as [Hq Hl Hv Hn]. destruct (decide (0 < q)) as [Hp|Hp].
  - destruct (Hn Hp) as [N1 N2]. pose proof (Z.mod_pos_bound (q - 1) nsec HN) as Hb. destruct (H1 _ Hb N1) as [N3 ->]. rewrite N2 in N3.
    assert (Hmd : md = q - 1 /\ ms = (q - 1) mod nsec).
    { destruct H2 as [[-> ->]|(H4 & H5 & H6)].
      - assert (q = 1) by lia. subst q. split; [done|]. symmetry. apply Z.mod_0_l. lia.
      - destruct (Hv ms ltac:(lia) H5) as [H7 H8]. rewrite H6 in H7, H8. split; [lia|]. replace (q - 1) with md by lia. done. }
    destruct Hmd as [-> ->]. rewrite u32_small by lia. replace (q - 1 + 1) with q by lia. do 2 f_equal.
    replace q with (q - 1 + 1) at 3 by lia. rewrite <- Z.add_mod_idemp_l, mod_next by lia. zcases; lia.
  - assert (q = 0) by lia. subst q. destruct ex; [|by rewrite Z.mod_0_l by lia]. destruct (H3 eq_refl) as (j & Hj & Hw). destruct (Hv j Hj Hw). lia.
Qed.

(** ** The flash after some of the operations *)
Notation effect := (log_effect SECTOR_SIZE START).
Notation effects := (log_effects SECTOR_SIZE START).

Lemma place_fits i : 0 <= (i mod nsec) * SECTOR_SIZE /\ (i mod nsec) * SECTOR_SIZE + SECTOR_SIZE <= nsec * SECTOR_SIZE.
Proof. pose proof (Z.mod_pos_bound i nsec HN). assert ((i mod nsec + 1) * SECTOR_SIZE <= nsec * SECTOR_SIZE) by nia. nia. Qed.

Lemma other_place i j : 0 <= i < nsec -> i <> j mod nsec ->
  i * SECTOR_SIZE + SECTOR_SIZE <= (j mod nsec) * SECTOR_SIZE \/ (j mod nsec) * SECTOR_SIZE + SECTOR_SIZE <= i * SECTOR_SIZE.
Proof.
  intros Hi Hj. pose proof (Z.mod_pos_bound j nsec HN). destruct (Z.lt_ge_cases i (j mod nsec)); [left|right].
  - assert ((i + 1) * SECTOR_SIZE <= j mod nsec * SECTOR_SIZE) by nia. nia.
  - assert ((j mod nsec + 1) * SECTOR_SIZE <= i * SECTOR_SIZE) by nia. nia.
Qed.

(** An operation on a place leaves the others. *)
Lemma effect_other m o i j n : zlen m = nsec * SECTOR_SIZE -> 0 <= n <= SECTOR_SIZE -> 0 <= i < nsec -> i <> j mod nsec ->
  match o with LErase a => a = sector_addr j | LWrite a bs => a = sector_addr j /\ zlen bs <= SECTOR_SIZE end ->
  piece (effect m o) (i * SECTOR_SIZE) n = piece m (i * SECTOR_SIZE) n.
Proof.
  intros Hm Hn Hi Hj Ho. pose proof (place_fits j). pose proof (other_place i j Hi Hj). assert (0 <= i * SECTOR_SIZE) by nia.
  destruct o as [a|a bs]; [subst a|destruct Ho as [-> Hb]]; cbn [log_effect]; unfold LogLaws.sector_addr;
    replace (START + j mod nsec * SECTOR_SIZE - START) with (j mod nsec * SECTOR_SIZE) by lia;
    (apply piece_inserts_other; [lia|lia| |]).
  - rewrite length_replicate. lia.
  - rewrite length_replicate. lia.
  - rewrite length_zip_with. lia.
  - rewrite length_zip_with. lia.
Qed.

Lemma erase_place m j : zlen m = nsec * SECTOR_SIZE ->
  piece (effect m (LErase (sector_addr j))) ((j mod nsec) * SECTOR_SIZE) SECTOR_SIZE = replicate (Z.to_nat SECTOR_SIZE) 255.
Proof.
  intros Hm. pose proof (place_fits j). cbn [log_effect]. unfold LogLaws.sector_addr.
  replace (START + j mod nsec * SECTOR_SIZE - START) with (j mod nsec * SECTOR_SIZE) by lia.
  pose proof (piece_inserts_same m (replicate (Z.to_nat SECTOR_SIZE) 255) ((j mod nsec) * SECTOR_SIZE)) as HP.
  rewrite length_replicate, Z2Nat.id in HP by lia. apply HP; lia.
Qed.

Definition blank_at (m : list Z) (j : Z) : Prop := piece m ((j mod nsec) * SECTOR_SIZE) SECTOR_SIZE = replicate (Z.to_nat SECTOR_SIZE) 255.

Lemma write_place m j img : zlen m = nsec * SECTOR_SIZE -> blank_at m j -> zlen img <= SECTOR_SIZE -> Forall is_byte img ->
  piece (effect m (LWrite (sector_addr j) img)) ((j mod nsec) * SECTOR_SIZE) (zlen img) = img.
Proof.
  intros Hm Hb Hz Hi. pose proof (place_fits j). cbn [log_effect]. unfold LogLaws.sector_addr.
  replace (START + j mod nsec * SECTOR_SIZE - START) with (j mod nsec * SECTOR_SIZE) by lia.
  assert (E : piece m (j mod nsec * SECTOR_SIZE) (zlen img) = replicate (length img) 255).
  { rewrite <- (Z.add_0_r (j mod nsec * SECTOR_SIZE)), <- (piece_piece _ _ SECTOR_SIZE) by lia. rewrite Hb, piece_replicate by lia. by rewrite Nat2Z.id. }
  rewrite E, land_erased by done. apply piece_inserts_same; lia.
Qed.

Lemma erase_consistent m q : 1 < nsec -> consistent m q -> consistent (effect m (LErase (sector_addr q))) q /\ blank_at (effect m (LErase (sector_addr q))) q.
Proof.
  intros H1 HQ. pose proof HQ as [Hq Hl Hv Hn]. pose proof (erase_place m q Hl) as HB. split; [|exact HB].
  assert (HO : forall i, 0 <= i < nsec -> i <> q mod nsec -> header_at (effect m (LErase (sector_addr q))) i = header_at m i).
  { intros i Hi Hne. unfold header_at. rewrite (effect_other _ _ i q); try done. unfold sizeof_header. lia. }
  constructor; [done|by rewrite length_log_effect| |].
  - intros i Hi HV. destruct (decide (i = q mod nsec)) as [->|Hne]; [exfalso|rewrite HO in * by done; by apply Hv].
    revert HV. unfold header_at. rewrite <- (Z.add_0_r (q mod nsec * SECTOR_SIZE)), <- (piece_piece _ _ SECTOR_SIZE) by (unfold sizeof_header; pose proof (place_fits q); lia).
    rewrite HB, piece_replicate by (unfold sizeof_header; lia). done.
  - intros Hp. rewrite HO; [by apply Hn|apply Z.mod_pos_bound; lia|]. intros HX. apply mod_near in HX; lia.
Qed.

Lemma write_consistent m q q0 boot img : 1 < nsec -> consistent m q -> blank_at m q -> q + 1 < 2 ^ 32 -> 16 <= zlen img <= SECTOR_SIZE -> Forall is_byte img ->
  take 16 img = piece_header q0 boot (q - q0) -> consistent (effect m (LWrite (sector_addr q) img)) (q + 1).
Proof.
  intros H1 HQ HB Hq1 Hz Hi HH. pose proof HQ as [Hq Hl Hv Hn]. pose proof (write_place m q img Hl HB ltac:(lia) Hi) as HW.
  pose proof (Z.mod_pos_bound q nsec HN) as Hqb.
  assert (HO : forall i, 0 <= i < nsec -> i <> q mod nsec -> header_at (effect m (LWrite (sector_addr q) img)) i = header_at m i).
  { intros i Hn' Hne. unfold header_at. rewrite (effect_other _ _ i q); try done. unfold sizeof_header. lia. split; [done|lia]. }
  assert (HN1 : header_at (effect m (LWrite (sector_addr q) img)) (q mod nsec) = read_header (piece_header q0 boot (q - q0))).
  { unfold header_at. rewrite <- (Z.add_0_r (q mod nsec * SECTOR_SIZE)), <- (piece_piece _ _ (zlen img)) by (unfold sizeof_header; pose proof (place_fits q); lia).
    rewrite HW. change (piece img 0 sizeof_header) with (take 16 img). by rewrite HH. }
  assert (HQ1 : header_valid (read_header (piece_header q0 boot (q - q0))) = true /\ h_seqnum (read_header (piece_header q0 boot (q - q0))) = q).
  { rewrite read_piece_header. split; [done|]. cbn. rewrite u32_small by lia. lia. }
  constructor; [lia|by rewrite length_log_effect| |].
  - intros i Hi' HV. destruct (decide (i = q mod nsec)) as [->|Hne].
    + rewrite HN1. rewrite (proj2 HQ1). split; [lia|done].
    + rewrite HO in * by done. destruct (Hv i Hi' HV). split; [lia|done].
  - intros _. replace (q + 1 - 1) with q by lia. rewrite HN1. exact HQ1.
Qed.

Lemma sector_ops_even k l tail j : (2 * j <= length (sector_ops k l))%nat -> (2 * j < length (sector_ops k l ++ tail))%nat ->
  tail = [] \/ tail = [LErase (sector_addr (k + zlen l))] -> (sector_ops k l ++ tail) !! (2 * j)%nat = Some (LErase (sector_addr (k + Z.of_nat j))).
Proof.
  intros H1 H2 Ht. revert k j H1 H2 Ht. induction l as [|img l IH]; intros k j H1 H2 Ht.
  - destruct j; [|simpl in H1; lia]. cbn in *. destruct Ht as [-> | ->]; [simpl in H2; lia|]. cbn. by rewrite !Z.add_0_r.
  - destruct j as [|j]; [by rewrite Z.add_0_r|]. cbn [LogLaws.sector_ops app length] in *. replace (2 * S j)%nat with (S (S (2 * j))) in * by lia. cbn [lookup list_lookup] in *.
    etransitivity; [apply (IH (k + 1) j); [lia|lia|]|do 3 f_equal; lia]. destruct Ht as [-> | ->]; [by left|right]. do 3 f_equal. lia.
Qed.

Lemma sector_ops_odd k l tail j img : l !! j = Some img -> (sector_ops k l ++ tail) !! (S (2 * j))%nat = Some (LWrite (sector_addr (k + Z.of_nat j)) img).
Proof.
  revert k j. induction l as [|x l IH]; intros k j Hj; [done|]. destruct j as [|j]; [injection Hj as ->; by rewrite Z.add_0_r|].
  cbn [LogLaws.sector_ops app] in *. replace (S (2 * S j)) with (S (S (S (2 * j)))) by lia. cbn [lookup list_lookup].
  etransitivity; [by apply (IH (k + 1))|]. do 3 f_equal. lia.
Qed.

Lemma length_sector_ops k l : length (sector_ops k l) = (2 * length l)%nat.
Proof. revert k. induction l as [|x l IH]; intros k; [done|]. cbn [LogLaws.sector_ops length]. rewrite IH. lia. Qed.

(** ** After any number of the operations, however the power is lost between them *)
Section Prefix.
Context (m : list Z) (q : Z) (boot : bool) (l : list (list Z)) (tail : list log_op).
Hypothesis H1 : 1 < nsec.
Hypothesis HQ : consistent m q.
Hypothesis Hl : Forall (fun img => 16 <= zlen img <= SECTOR_SIZE /\ Forall is_byte img) l.
Hypothesis Hh : take 16 <$> l = headers q boot (length l).
Hypothesis Hq : q + zlen l < 2 ^ 32.
Hypothesis Ht : tail = [] \/ tail = [LErase (sector_addr (q + zlen l))].

#[local] Notation ops := (sector_ops q l ++ tail).
#[local] Notation after n := (effects (take n ops) m).

Definition stored (m' : list Z) (j : nat) (img : list Z) : Prop := piece m' (((q + Z.of_nat j) mod nsec) * SECTOR_SIZE) (zlen img) = img.

Lemma length_ops : (length ops <= 2 * length l + 1)%nat.
Proof. rewrite length_app, length_sector_ops. destruct Ht as [-> | ->]; simpl; lia. Qed.

Lemma after_S n o : ops !! n = Some o -> after (S n) = effect (after n) o.
Proof. intros Ho. rewrite (take_S_r _ _ o) by done. by rewrite log_effects_app. Qed.

Lemma length_after n : zlen (after n) = nsec * SECTOR_SIZE.
Proof. rewrite length_log_effects. apply HQ. Qed.

Lemma piece_facts j img : l !! j = Some img -> 16 <= zlen img <= SECTOR_SIZE /\ Forall is_byte img /\ take 16 img = piece_header q boot (Z.of_nat j).
Proof.
  intros Hj. rewrite Forall_lookup in Hl. destruct (Hl _ _ Hj) as [HZ HB]. split; [done|]. split; [done|].
  pose proof (f_equal (.!! j) Hh) as E. cbn in E. rewrite list_lookup_fmap, Hj in E. cbn in E. symmetry in E. unfold headers in E.
  apply list_lookup_fmap_Some in E as (x & -> & Hx). apply lookup_seq in Hx as [-> _]. done.
Qed.

Lemma other_stored m' o i j img : zlen m' = nsec * SECTOR_SIZE -> zlen img <= SECTOR_SIZE -> 0 < Z.of_nat i - Z.of_nat j < nsec ->
  match o with LErase a => a = sector_addr (q + Z.of_nat i) | LWrite a bs => a = sector_addr (q + Z.of_nat i) /\ zlen bs <= SECTOR_SIZE end ->
  stored m' j img -> stored (effect m' o) j img.
Proof.
  intros Hm Hz Hij Ho HX. unfold stored in *. rewrite (effect_other _ _ _ (q + Z.of_nat i)); try done; [lia|apply Z.mod_pos_bound; lia|].
  intros HY. apply mod_near in HY; lia.
Qed.

(** After the erase that follows [c] pieces, and after [c] pieces. *)
Definition half_done (c : nat) (m' : list Z) : Prop := consistent m' (q + Z.of_nat c) /\ blank_at m' (q + Z.of_nat c) /\
  forall j img, l !! j = Some img -> (j < c)%nat -> Z.of_nat c + 1 <= Z.of_nat j + nsec -> stored m' j img.
Definition all_done (c : nat) (m' : list Z) : Prop := consistent m' (q + Z.of_nat c) /\
  forall j img, l !! j = Some img -> (j < c)%nat -> Z.of_nat c <= Z.of_nat j + nsec -> stored m' j img.

Lemma erase_done c : (2 * c < length ops)%nat -> all_done c (after (2 * c)) -> half_done c (after (S (2 * c))).
Proof.
  intros Hc [HX HS']. pose proof length_ops.
  assert (Ho : ops !! (2 * c)%nat = Some (LErase (sector_addr (q + Z.of_nat c)))).
  { apply sector_ops_even; [rewrite length_sector_ops; lia|done|done]. }
  rewrite (after_S _ _ Ho). destruct (erase_consistent _ _ H1 HX) as [E1 E2]. split; [done|]. split; [done|].
  intros j img Hj Hlt Hn. destruct (piece_facts _ _ Hj) as [Hz _]. apply (other_stored _ _ c); [apply length_after|lia|lia|done|].
  apply HS'; [done|done|lia].
Qed.

Lemma write_done c : (S (2 * c) < length ops)%nat -> half_done c (after (S (2 * c))) -> all_done (S c) (after (2 * S c)).
Proof.
  intros Hc (HX & HB & HS'). pose proof length_ops. destruct (lookup_lt_is_Some_2 l c) as [img Hi]; [lia|].
  pose proof (sector_ops_odd q l tail c img Hi) as Ho. replace (2 * S c)%nat with (S (S (2 * c))) by lia. rewrite (after_S _ _ Ho).
  destruct (piece_facts _ _ Hi) as (Hz & Hb & Hd). split.
  - replace (q + Z.of_nat (S c)) with (q + Z.of_nat c + 1) by lia. apply (write_consistent _ _ q boot); try done; [lia|].
    by replace (q + Z.of_nat c - q) with (Z.of_nat c) by lia.
  - intros j x Hj Hlt Hn. destruct (decide (j = c)) as [->|Hne].
    + assert (x = img) as -> by congruence. apply write_place; [apply length_after|done|lia|done].
    + destruct (piece_facts _ _ Hj) as [Hzx _]. apply (other_stored _ _ c); [apply length_after|lia|lia|split; [done|lia]|]. apply HS'; [done|lia|lia].
Qed.

Lemma done_after c : ((2 * c <= length ops)%nat -> all_done c (after (2 * c))) /\ ((S (2 * c) <= length ops)%nat -> half_done c (after (S (2 * c)))).
Proof.
  induction c as [|c [_ IH]].
  - assert (H0 : all_done 0 (after (2 * 0))) by (split; [by rewrite Z.add_0_r|intros; lia]). split; [done|]. intros Hc. apply erase_done; [lia|done].
  - assert (HA : (2 * S c <= length ops)%nat -> all_done (S c) (after (2 * S c))) by (intros Hc; apply write_done; [lia|apply IH; lia]).
    split; [done|]. intros Hc. apply erase_done; [lia|apply HA; lia].
Qed.

Lemma prefix_ok n : (n <= length ops)%nat -> consistent (after n) (q + Z.of_nat (n / 2)) /\
  forall j img, l !! j = Some img -> (j < n / 2)%nat -> Z.of_nat (S n / 2) <= Z.of_nat j + nsec -> stored (after n) j img.
Proof.
  intros Hn. destruct (done_after (n / 2)) as [HA HB]. pose proof (Nat.div_mod n 2 ltac:(lia)). pose proof (Nat.mod_upper_bound n 2 ltac:(lia)).
  destruct (decide (n mod 2 = 0)%nat) as [Hr|Hr].
  - replace (S n / 2)%nat with (n / 2)%nat by (apply Nat.div_unique with 1%nat; lia). replace (2 * (n / 2))%nat with n in HA by lia. apply HA. lia.
  - replace (S n / 2)%nat with (S (n / 2))%nat by (apply Nat.div_unique with 0%nat; lia). replace (S (2 * (n / 2))) with n in HB by lia.
    destruct (HB ltac:(lia)) as (B1 & _ & B2). split; [done|]. intros j img Hj Hlt Hk. apply B2; [done|done|lia].
Qed.
End Prefix.

(** ** The start *)
Lemma init_ok cb s t f q : consistent (on_flash f) q -> accepted f = [] -> exists s1 t1,
  log_dump_init SECTOR_SIZE COUNT START END true cb s t f = Some (s1, t1) /\ log_inv q q (is_bootup s) [] [] None [] s1 f.
Proof.
  intros HQ HA. unfold log_dump_init. cbn [negb]. rewrite (get_seqnum_ok f q HQ). cbn [mbind option_bind]. eexists _, _. split; [reflexivity|].
  pose proof (place_fits q) as HP. pose proof (cs_range _ _ HQ) as Hq. constructor; cbn.
  - constructor; cbn; try done; try lia.
    + rewrite length_replicate. lia.
    + intros j Hj. exists (mkData DATA_BUFFER_STATE_FREE 0 (replicate (Z.to_nat SECTOR_SIZE) 0)). split; [|reflexivity]. apply lookup_replicate. split; [reflexivity|]. unfold LogLaws.slot. cbn. rewrite Z.mod_small by lia. lia.
  - constructor; cbn; try done. + by rewrite Z.add_0_r, u32_small. + by destruct (is_bootup s).
  - constructor; cbn; try done. + by rewrite Z.add_0_r, u32_small by lia. + lia.
  - done.
  - done.
Qed.

(** ** The flush of what is left *)

(** The buffers from the one the flush is at: the pieces [rest], then buffers out of use. *)
Record remains (s : log_dump) (rest : list (list Z)) : Prop := {
  rm_length : zlen (data_buffer_list s) = COUNT;
  rm_f : 0 <= f_seqnum s < COUNT;
  rm_count : zlen rest <= COUNT;
  rm_rest j img : rest !! j = Some img -> 0 < zlen img /\ exists d, data_buffer_list s !! slot s (Z.of_nat j) = Some d /\
    (d_state d = DATA_BUFFER_STATE_WRITTING \/ d_state d = DATA_BUFFER_STATE_WRITTEN) /\ d_offset d = zlen img /\ take (length img) (d_buffer d) = img;
  rm_short j img : rest !! j = Some img -> (S j < length rest)%nat -> zlen img = SECTOR_SIZE;
  rm_free j : zlen rest <= j < COUNT -> exists d, data_buffer_list s !! slot s j = Some d /\ d_state d = DATA_BUFFER_STATE_FREE }.

Lemma ring_remains s full cur : ring_holds s full cur -> remains s (full ++ olist cur).
Proof.
  intros [HL Hf Hw Hk HF HZ HU HR]. rewrite Forall_lookup in HZ. constructor; try done.
  - intros j img Hj. apply lookup_app_Some in Hj as [Hj|[Hj Hi]].
    + pose proof (HZ _ _ Hj) as Hz. split; [lia|]. exists (mkData DATA_BUFFER_STATE_WRITTEN SECTOR_SIZE img). split; [by apply HF|]. split; [by right|].
      split; [done|]. by apply take_ge.
    + destruct cur as [x|]; [|done]. apply list_lookup_singleton_Some in Hi as [Hi <-]. destruct (HU x eq_refl) as [Hx Hd].
      replace (zlen full) with (Z.of_nat j) in Hd by lia. split; [lia|]. eexists. split; [exact Hd|]. split; [by left|]. split; [done|]. cbn. apply take_app_length.
  - intros j img Hj Hlt. apply lookup_app_Some in Hj as [Hj|[Hj Hi]]; [by apply (HZ j)|].
    rewrite length_app in Hlt. destruct cur as [x|]; cbn in *; [|done]. lia.
Qed.

Lemma remains_free s : remains s [] -> forallb is_free (data_buffer_list s) = true.
Proof.
  intros [HL Hf _ _ _ HR]. apply forallb_forall. intros d Hd. apply list_elem_of_In, list_elem_of_lookup in Hd as [i Hi].
  pose proof (lookup_lt_Some _ _ _ Hi) as Hlt. destruct (HR ((Z.of_nat i - f_seqnum s) mod COUNT)) as (d' & Hd' & Hs).
  { pose proof (Z.mod_pos_bound (Z.of_nat i - f_seqnum s) COUNT HC). cbn. lia. }
  unfold LogLaws.slot in Hd'. rewrite Z.add_mod_idemp_r in Hd' by lia. replace (f_seqnum s + (Z.of_nat i - f_seqnum s)) with (Z.of_nat i) in Hd' by lia.
  rewrite Z.mod_small, Nat2Z.id, Hi in Hd' by lia. injection Hd' as ->. unfold is_free. by rewrite Hs.
Qed.

Lemma remains_busy s img rest : remains s (img :: rest) -> forallb is_free (data_buffer_list s) = false.
Proof.
  intros [HL Hf Hc HR _ _]. destruct (HR 0%nat img eq_refl) as (_ & d & Hd & Hs & _). apply not_true_iff_false. intros HX.
  rewrite forallb_forall in HX. specialize (HX d). unfold is_free in HX. destruct Hs as [Hs|Hs]; rewrite Hs in HX; discriminate HX; apply list_elem_of_In; by eapply list_elem_of_lookup_2.
Qed.

Lemma remains_pop s s' img rest d : remains s (img :: rest) -> d_state d = DATA_BUFFER_STATE_FREE ->
  data_buffer_list s' = <[slot s 0 := d]> (data_buffer_list s) -> f_seqnum s' = (f_seqnum s + 1) mod COUNT -> remains s' rest.
Proof.
  intros [HL Hf Hc HR HZ HX] Hd El Ef. pose proof (Z.mod_pos_bound (f_seqnum s + 1) COUNT HC) as Hb. simpl length in *.
  assert (HO : forall j, 0 <= j -> j + 1 < COUNT -> data_buffer_list s' !! slot s' j = data_buffer_list s !! slot s (j + 1)).
  { intros j Hj Hn. rewrite El, (slot_next COUNT HC s) by done. apply list_lookup_insert_ne. apply slot_ne; lia. }
  constructor; [by rewrite El, length_insert|by rewrite Ef|lia| | |].
  - intros j x Hx. pose proof (lookup_lt_Some _ _ _ Hx). rewrite HO by lia. replace (Z.of_nat j + 1) with (Z.of_nat (S j)) by lia. by apply HR.
  - intros j x Hx Hlt. apply (HZ (S j) x Hx). lia.
  - intros j Hj. destruct (decide (j + 1 < COUNT)) as [Hlt|Hge].
    + rewrite HO by lia. apply HX. lia.
    + exists d. split; [|done]. rewrite El, (slot_next COUNT HC s) by done. replace (slot s (j + 1)) with (slot s 0).
      * apply list_lookup_insert_eq. pose proof (slot_lt COUNT HC s 0). lia.
      * unfold LogLaws.slot. replace (j + 1) with COUNT by lia. f_equal. rewrite Z.add_0_r. symmetry. rewrite <- Z.add_mod_idemp_r, Z.mod_same, Z.add_0_r by lia. done.
Qed.

(** An operation that is tried again while the buffer is full is accepted in the end, and a flush that
    is repeated ends. *)
Lemma api_ends op o : (forall b f, match op b f with
    | (NORFLASH_API_OK, f') => accepted f' = accepted f ++ [o] /\ region f' = region f
    | (NORFLASH_API_BUFFER_FULL, f') => f' = f /\ (executed f < length (accepted f))%nat
    | (NORFLASH_API_ERR, _) => False end) ->
  forall f, exists N f', (forall fuel, (N <= fuel)%nat -> api_loop fuel op false f = Some (NORFLASH_API_OK, f')) /\
    accepted f' = accepted f ++ [o] /\ region f' = region f.
Proof.
  intros Hop. assert (HO : forall f f', op false f = (NORFLASH_API_OK, f') -> forall fuel, (1 <= fuel)%nat -> api_loop fuel op false f = Some (NORFLASH_API_OK, f')).
  { intros f f' E fuel Hf. destruct fuel; [lia|]. cbn. by rewrite E. }
  assert (HF : forall f f' f2 N, op false f = (NORFLASH_API_BUFFER_FULL, f') -> (forall fuel, (N <= fuel)%nat -> api_loop fuel op false (log_api_flush f') = Some (NORFLASH_API_OK, f2)) ->
    forall fuel, (S N <= fuel)%nat -> api_loop fuel op false f = Some (NORFLASH_API_OK, f2)).
  { intros f f' f2 N E HX fuel Hf. destruct fuel; [lia|]. cbn. rewrite E. apply HX. lia. }
  intros f. induction f as [f IH] using (well_founded_induction (well_founded_ltof _ effort)). unfold ltof in IH.
  pose proof (Hop false f) as H1. destruct (op false f) as [[] f1] eqn:E1; [|destruct H1 as [-> H1]|done].
  { exists 1%nat, f1. split; [by apply HO|done]. }
  destruct (flush_keeps f) as [K1 K2]. destruct (flush_gets_on f) as [HD|HD].
  - pose proof (Hop false (log_api_flush f)) as H2. destruct (op false (log_api_flush f)) as [[] f2] eqn:E2; [|destruct H2 as [_ H2]; rewrite K1 in H2; lia|done].
    exists 2%nat, f2. split; [|by rewrite K1, K2 in H2]. apply (HF f f f2 1%nat E1). by apply HO.
  - destruct (IH _ HD) as (N & f2 & HX & H2 & H3). exists (S N), f2. split; [by apply (HF f f)|]. by rewrite H2, H3, K1, K2.
Qed.

Lemma flush_ends f : exists N f', (forall fuel, (N <= fuel)%nat -> _flash_api_flush fuel f = Some f') /\
  accepted f' = accepted f /\ region f' = region f /\ executed f' = length (accepted f').
Proof.
  induction f as [f IH] using (well_founded_induction (well_founded_ltof _ effort)). unfold ltof in IH.
  destruct (flush_keeps f) as [K1 K2]. destruct (log_buffer_is_free (log_api_flush f)) eqn:EF.
  - exists 1%nat, (log_api_flush f). split; [intros fuel Hf; destruct fuel; [lia|]; cbn; by rewrite EF|]. split; [done|]. split; [done|]. by apply free_done.
  - destruct (flush_gets_on f) as [HD|HD]; [rewrite <- K1 in HD; apply free_done in HD; congruence|].
    destruct (IH _ HD) as (N & f2 & HX & H2 & H3 & H4). exists (S N), f2. split; [|split; [congruence|split; [congruence|done]]].
    intros fuel Hf. destruct fuel; [lia|]. cbn. rewrite EF. apply HX. lia.
Qed.

Definition any_state : Z := Z.lor DATA_BUFFER_STATE_WRITTING DATA_BUFFER_STATE_WRITTEN.
#[local] Notation flush_one fuel s f := (_log_dump_flush SECTOR_SIZE COUNT START fuel any_state false s f).
#[local] Notation sent_ok := (@sent_ok F SECTOR_SIZE START END _ _ nsec).

(** The two rounds for a piece. *)
Lemma erase_round k sent s f : sent_ok k sent s f -> flash_state s = LOG_DUMP_FLASH_STATE_IDLE ->
  exists N f', (forall fuel, (N <= fuel)%nat -> flush_one fuel s f = Some (0, set_flash_state LOG_DUMP_FLASH_STATE_ERASED s, f')) /\
    sent_ok k sent (set_flash_state LOG_DUMP_FLASH_STATE_ERASED s) f' /\ region f' = region f.
Proof.
  intros HT Hs. destruct (api_ends (log_api_erase (sector_addr (k + zlen sent))) (LErase (sector_addr (k + zlen sent))) (fun b f => erase_accepts _ b f) f) as (N & f' & HX & HA & HR).
  exists N, f'. split; [|split; [|done]].
  - intros fuel Hf. unfold _log_dump_flush. rewrite Hs, (idle_offs _ HS _ _ _ _ HT), (sent_addr _ HS HN HE _ _ _ _ HT). cbn [Z.eqb].
    unfold _flash_api_erase. cbn [andb]. by rewrite HX.
  - destruct HT as [T1 T2 T3 T4 T5]. rewrite Hs in *. constructor; cbn; try done. by rewrite HA, T3, app_nil_r.
Qed.

Lemma write_round k sent s f img rest : remains s (img :: rest) -> sent_ok k sent s f -> flash_state s <> LOG_DUMP_FLASH_STATE_IDLE ->
  exists N s' f', (forall fuel, (N <= fuel)%nat -> flush_one fuel s f = Some (0, s', f')) /\
    remains s' rest /\ accepted f' = sector_ops k (sent ++ [img]) /\ region f' = region f /\ (rest <> [] -> sent_ok k (sent ++ [img]) s' f').
Proof.
  intros HM HT Hs. destruct (rm_rest _ _ HM 0%nat img eq_refl) as (Hp & d & Hd & Hst & Ho & Hb).
  change (Z.of_nat 0) with 0 in Hd. rewrite (slot_0 _ _ (rm_f _ _ HM)) in Hd.
  destruct (api_ends (log_api_write (sector_addr (k + zlen sent)) img) (LWrite (sector_addr (k + zlen sent)) img) (fun b f => write_accepts _ _ b f) f) as (N & f' & HX & HA & HR).
  assert (HA' : accepted f' = sector_ops k (sent ++ [img])).
  { rewrite HA. destruct HT as [T1 T2 T3 T4 T5]. rewrite T3, decide_False, sector_ops_app by done. by rewrite <- app_assoc. }
  eexists N, _, f'. split; [|split; [|split; [exact HA'|split; [exact HR|]]]].
  - intros fuel Hf. unfold _log_dump_flush. rewrite (sent_addr _ HS HN HE _ _ _ _ HT).
    assert (EM : forall A (x y z : A), match flash_state s with LOG_DUMP_FLASH_STATE_IDLE => x | LOG_DUMP_FLASH_STATE_WRITTEN => y | _ => z end = z)
      by (intros; pose proof (so_state HT); by destruct (flash_state s)).
    rewrite EM. clear EM. rewrite Hd. cbn [mbind option_bind].
    assert (E1 : negb (Z.land (d_state d) any_state =? 0) && (d_offset d >? 0) = true).
    { rewrite Ho, (proj2 (Z.gtb_lt _ _)) by done. by destruct Hst as [-> | ->]. }
    rewrite E1. unfold _flash_api_write. cbn [andb]. rewrite Ho, Nat2Z.id, Hb, HX by done. cbn [mbind option_bind]. reflexivity.
  - eapply (remains_pop s _ img rest (mkData DATA_BUFFER_STATE_FREE _ _)); [done|reflexivity|cbn; by rewrite slot_0 by apply HM|].
    cbn. symmetry. apply mod_next; [done|apply HM].
  - intros Hne. assert (Hz : zlen img = SECTOR_SIZE) by (apply (rm_short _ _ HM 0%nat); [done|destruct rest; [done|simpl; lia]]).
    destruct HT as [T1 T2 T3 T4 T5]. pose proof (place_fits (k + zlen sent)) as HB.
    constructor; cbn; [apply Forall_app; split; [done|by apply List.Forall_cons]|done|by rewrite app_nil_r| |done].
    rewrite T4, T5, Hz, u32_small by lia. rewrite (next_place _ HS HN). f_equal. f_equal. rewrite length_app. simpl. lia.
Qed.

Lemma remain_ends k rest : forall sent s f tail, remains s rest -> accepted f = sector_ops k sent ++ tail ->
  tail = [] \/ tail = [LErase (sector_addr (k + zlen sent))] -> (rest <> [] -> sent_ok k sent s f) ->
  exists N s' f' tail', (forall fuel rounds, (N <= fuel)%nat -> (N <= rounds)%nat -> flush_remain_loop SECTOR_SIZE COUNT START rounds fuel s f = Some (s', f')) /\
    forallb is_free (data_buffer_list s') = true /\ accepted f' = sector_ops k (sent ++ rest) ++ tail' /\
    (tail' = [] \/ tail' = [LErase (sector_addr (k + zlen (sent ++ rest)))]) /\ region f' = region f.
Proof.
  induction rest as [|img rest IH]; intros sent s f tail HM HA Ht HT.
  - exists 1%nat, s, f, tail. rewrite app_nil_r. split; [|by split; [apply remains_free|]].
    intros fuel rounds _ Hr. destruct rounds; [lia|]. cbn. by rewrite (remains_free _ HM).
  - specialize (HT ltac:(done)).
    assert (HW : forall s f, remains s (img :: rest) -> sent_ok k sent s f -> flash_state s <> LOG_DUMP_FLASH_STATE_IDLE ->
      exists N s' f' tail', (forall fuel rounds, (N <= fuel)%nat -> (N <= rounds)%nat -> flush_remain_loop SECTOR_SIZE COUNT START rounds fuel s f = Some (s', f')) /\
        forallb is_free (data_buffer_list s') = true /\ accepted f' = sector_ops k (sent ++ img :: rest) ++ tail' /\
        (tail' = [] \/ tail' = [LErase (sector_addr (k + zlen (sent ++ img :: rest)))]) /\ region f' = region f).
    { clear s f HM HA HT. intros s f HM HT Hs. destruct (write_round k sent s f img rest HM HT Hs) as (N1 & s1 & f1 & E1 & M1 & A1 & R1 & T1).
      destruct (IH (sent ++ [img]) s1 f1 [] M1) as (N2 & s2 & f2 & tail2 & E2 & F2 & A2 & Ht2 & R2); [by rewrite app_nil_r|by left|done|].
      rewrite <- app_assoc in A2, Ht2. exists (N1 + S N2)%nat, s2, f2, tail2. split; [|split; [done|split; [done|split; [done|congruence]]]].
      intros fuel rounds Hf Hr. destruct rounds; [lia|]. cbn [flush_remain_loop]. rewrite (remains_busy _ _ _ HM). rewrite E1 by lia. cbn [mbind option_bind]. apply E2; lia. }
    destruct (decide (flash_state s = LOG_DUMP_FLASH_STATE_IDLE)) as [Hi|Hi]; [|by apply HW].
    destruct (erase_round k sent s f HT Hi) as (N1 & f1 & E1 & T1 & R1).
    destruct (HW (set_flash_state LOG_DUMP_FLASH_STATE_ERASED s) f1) as (N2 & s2 & f2 & tail2 & E2 & F2 & A2 & Ht2 & R2); [by destruct HM|done|done|].
    exists (N1 + S N2)%nat, s2, f2, tail2. split; [|split; [done|split; [done|split; [done|congruence]]]].
    intros fuel rounds Hf Hr. destruct rounds; [lia|]. cbn [flush_remain_loop]. rewrite (remains_busy _ _ _ HM). rewrite E1 by lia. cbn [mbind option_bind]. apply E2; lia.
Qed.
End Runs.
