(* ===== verification/LogProps.v ===== *)
(** Properties of the log section, against any flash service that meets [LogFlashSpec], an
    implementation of it, and the inputs on which the code does otherwise than meant. *)
From Stdlib Require Import ZArith Lia Bool.
From stdpp Require Import base option list list_numbers.
From S2P Require Import Prelude Norflash HalTrace LogSection LogLaws LogRuns.

(** ** An implementation of the service: a queue of two operations, one of them done by each flush *)
Section Queue.
Variable SECTOR_SIZE START END : Z.
Hypothesis HSE : START <= END.

Record log_queue := mkLogQueue { lq_region : list Z; lq_ops : list log_op; lq_done : nat }.

Definition lq_cells (f : log_queue) : list Z := resize (Z.to_nat (END - START)) 255 (lq_region f).
Definition lq_executed (f : log_queue) : nat := Nat.min (lq_done f) (length (lq_ops f)).
Definition lq_accept (o : log_op) (f : log_queue) : NORFLASH_API_RET_T * log_queue :=
  if (length (lq_ops f) <? lq_executed f + 2)%nat then (NORFLASH_API_OK, mkLogQueue (lq_region f) (lq_ops f ++ [o]) (lq_executed f))
  else (NORFLASH_API_BUFFER_FULL, f).

#[local] Instance queue_log_flash : LogFlash log_queue := {
  log_api_erase a _ f := lq_accept (LErase a) f;
  log_api_write a bs _ f := lq_accept (LWrite a bs) f;
  log_sync_read a n f := (NORFLASH_API_OK, piece (log_effects SECTOR_SIZE START (take (lq_executed f) (lq_ops f)) (lq_cells f)) (a - START) n);
  log_api_flush f := mkLogQueue (lq_region f) (lq_ops f) (S (lq_executed f));
  log_buffer_is_free f := (lq_executed f =? length (lq_ops f))%nat }.

Lemma lq_accept_ok o f : match lq_accept o f with
  | (NORFLASH_API_OK, f') => lq_ops f' = lq_ops f ++ [o] /\ lq_cells f' = lq_cells f
  | (NORFLASH_API_BUFFER_FULL, f') => f' = f /\ (lq_executed f < length (lq_ops f))%nat
  | (NORFLASH_API_ERR, _) => False
  end.
Proof. unfold lq_accept. destruct (Nat.ltb_spec (length (lq_ops f)) (lq_executed f + 2)); [done|]. split; [done|lia]. Qed.

#[local] Instance queue_log_spec : LogFlashSpec log_queue SECTOR_SIZE START END.
Proof.
  refine {| region := lq_cells; accepted := lq_ops; executed := lq_executed; effort := fun f => (length (lq_ops f) - lq_executed f)%nat |}.
  - intros f. unfold lq_cells. rewrite length_resize. lia.
  - intros f. unfold lq_executed. lia.
  - intros a b f. exact (lq_accept_ok (LErase a) f).
  - intros a bs b f. exact (lq_accept_ok (LWrite a bs) f).
  - done.
  - intros [r o d]. cbn [log_api_flush queue_log_flash lq_ops]. unfold lq_executed. cbn [lq_ops lq_done lq_region]. lia.
  - intros f. apply Nat.eqb_eq.
  - intros o n f _ _ _. cbn. replace (START + o - START) with o by lia. done.
Defined.
End Queue.

(** ** The properties *)

(** The sizes of a build: sectors larger than a header, buffers, a region of whole sectors. *)
Definition log_build (SECTOR_SIZE COUNT nsec START END : Z) : Prop :=
  16 < SECTOR_SIZE <= 2 ^ 31 /\ 0 < COUNT /\ 0 < nsec /\ 0 <= START /\ END = START + nsec * SECTOR_SIZE /\ END < 2 ^ 32.

Section Props.
Context {F : Type} {SECTOR_SIZE START END : Z} `{HSpec : LogFlashSpec F SECTOR_SIZE START END}.
Variable COUNT nsec : Z.

(** The section was started on a flash whose last piece is the one before [q]. *)
Definition started (old : log_dump) (q : Z) (s0 : log_dump) (f0 : F) : Prop :=
  @consistent SECTOR_SIZE nsec (on_flash f0) q /\ accepted f0 = [] /\
  exists cb t t0, log_dump_init SECTOR_SIZE COUNT START END true cb old t f0 = Some (s0, t0).

(** The operations handed to the flash write the pieces [l], and may end with the erase for the next. *)
Definition writes (q : Z) (l : list (list Z)) (ops : list log_op) : Prop :=
  exists tail, ops = @sector_ops SECTOR_SIZE START nsec q l ++ tail /\ (tail = [] \/ tail = [LErase (@sector_addr SECTOR_SIZE START nsec (q + zlen l))]).

(** [l] are consecutive pieces of the log of the bytes [bytes]. *)
Definition pieces_of (q : Z) (boot : bool) (l : list (list Z)) (bytes : list Z) : Prop :=
  take 16 <$> l = headers q boot (length l) /\ concat (drop 16 <$> l) = bytes.

Hypothesis HB : log_build SECTOR_SIZE COUNT nsec START END.

Lemma started_inv old q s0 f0 : started old q s0 f0 -> @log_inv F SECTOR_SIZE START END _ _ COUNT nsec q q (is_bootup old) [] [] None [] s0 f0.
Proof.
  destruct HB as (B1 & B2 & B3 & B4). intros (HC & HA & cb & t & t0 & E).
  destruct (init_ok COUNT nsec B1 B2 B3 B4 cb old t f0 q HC HA) as (s1 & t1 & E1 & HI). rewrite E1 in E. by injection E as <- <-.
Qed.

Lemma sent_writes q sent s f : @sent_ok F SECTOR_SIZE START END _ _ nsec q sent s f -> writes q sent (accepted f).
Proof. intros []. eexists. split; [done|]. destruct (decide _); [by left|by right]. Qed.

Lemma inv_sizes k q boot sent full cur bytes s f : @log_inv F SECTOR_SIZE START END _ _ COUNT nsec k q boot sent full cur bytes s f ->
  Forall (fun img => 16 <= zlen img <= SECTOR_SIZE /\ Forall is_byte img) (sent ++ full ++ olist cur).
Proof.
  destruct HB as (B1 & _). intros [HR HP HT _ _]. apply Forall_forall. intros img Hi. split.
  - rewrite !elem_of_app in Hi. destruct Hi as [Hi|[Hi|Hi]].
    + pose proof (so_sizes HT) as HZ. rewrite Forall_forall in HZ. rewrite HZ by done. lia.
    + pose proof (rh_sizes HR) as HZ. rewrite Forall_forall in HZ. rewrite HZ by done. lia.
    + destruct cur as [x|]; [|by apply not_elem_of_nil in Hi]. apply list_elem_of_singleton in Hi as ->. destruct (rh_cur HR x eq_refl). lia.
  - pose proof (po_range HP) as HX. apply Forall_forall. intros x Hx. rewrite Forall_forall in HX. apply HX.
    apply list_elem_of_In, in_concat. exists img. split; by apply list_elem_of_In.
Qed.

(** C9: The log is kept in order: after any run in which no record overruns the buffers, the pieces
    handed to the flash and those still in the buffers carry, one after the other, all the bytes of the
    records, none of them the section's own traces; their headers number them from the number found at
    the start on; each was handed over by one erase and one write of the next place of the region; and
    no further record that finds room, hook or work of the service makes an assertion fail. *)
Theorem log_stream old q s0 f0 tr s f : started old q s0 f0 -> log_reach SECTOR_SIZE COUNT START s0 f0 tr s f -> Forall intact tr ->
  (exists sent, writes q sent (accepted f) /\ Forall (fun img => zlen img = SECTOR_SIZE) sent /\
     pieces_of q (is_bootup old) (sent ++ buffered COUNT s) (logged tr)) /\
  (forall fuel e, (0 < fuel)%nat ->
     match e with Record_out bs _ _ => overrun s = false /\ zlen bs < 2 ^ 31 /\ forallb (fun x => (0 <=? x) && (x <? 256)) bs = true | _ => True end ->
     exists r, log_step SECTOR_SIZE COUNT START fuel e s f = Some r).
Proof.
  pose proof HB as (B1 & B2 & B3 & B4). intros HS0 HR HT.
  destruct (log_reach_inv COUNT nsec B1 B2 B3 B4 _ _ _ _ _ _ _ _ (started_inv _ _ _ _ HS0) HR HT) as (sent & full & cur & HI & _).
  split; [|intros fuel e Hf He; by eapply (step_total COUNT nsec B1 B2 B3 B4)].
  exists sent. split; [by eapply sent_writes, lv_sent|]. split; [apply (so_sizes (lv_sent HI))|].
  rewrite (buffered_spec COUNT B1 B2 _ _ _ (lv_ring HI)). split; apply (lv_pieces HI).
Qed.

(** C8: A loss of power costs at most what was not written: in a run in which no record overruns the
    buffers ([intact]), on a region of at least two sectors and with numbers below 2^32, whenever it
    comes, after any number of the operations handed to the flash, the next start finds the number and the place after
    the last piece written, so that the new log goes on where the old one ends; and every piece
    written is still there until its place is erased again. *)
Theorem log_restart old q s0 f0 tr s f n f' : 1 < nsec -> started old q s0 f0 -> log_reach SECTOR_SIZE COUNT START s0 f0 tr s f -> Forall intact tr ->
  q + zlen (accepted f) < 2 ^ 32 -> (n <= length (accepted f))%nat ->
  on_flash f' = log_effects SECTOR_SIZE START (take n (accepted f)) (on_flash f0) ->
  let q' := q + Z.of_nat (n / 2) in
  _get_seqnum SECTOR_SIZE START END f' = Some (q', q' mod nsec) /\ @consistent SECTOR_SIZE nsec (on_flash f') q' /\
  forall j a img, accepted f !! S (2 * j) = Some (LWrite a img) -> (2 * j + 2 <= n)%nat -> Z.of_nat (S n / 2) <= Z.of_nat j + nsec ->
    piece (on_flash f') (a - START) (zlen img) = img.
Proof.
  pose proof HB as (B1 & B2 & B3 & B4). intros H1 HS0 HR HT Hq Hn HF q'.
  destruct (log_reach_inv COUNT nsec B1 B2 B3 B4 _ _ _ _ _ _ _ _ (started_inv _ _ _ _ HS0) HR HT) as (sent & full & cur & HI & _).
  destruct (sent_writes _ _ _ _ (lv_sent HI)) as (tail & EA & Htail). rewrite EA in *.
  assert (Hz : zlen (@sector_ops SECTOR_SIZE START nsec q sent ++ tail) >= 2 * zlen sent) by (rewrite length_app, (length_sector_ops nsec); lia).
  assert (HH : take 16 <$> sent = headers q (is_bootup old) (length sent)).
  { pose proof (po_headers (lv_pieces HI)) as HH. rewrite fmap_app in HH. apply (f_equal (take (length sent))) in HH.
    rewrite take_app_length' in HH by (by rewrite length_fmap). rewrite HH. unfold headers. rewrite length_app, seq_app, fmap_app, take_app_length'; [done|]. by rewrite length_fmap, length_seq. }
  pose proof (inv_sizes _ _ _ _ _ _ _ _ _ HI) as HZ. apply Forall_app in HZ as [HZ _].
  destruct (prefix_ok (SECTOR_SIZE := SECTOR_SIZE) (START := START) nsec B1 B3 (on_flash f0) q (is_bootup old) sent tail H1 (proj1 HS0) HZ HH ltac:(lia) Htail n Hn) as [P1 P2].
  rewrite <- HF in P1, P2. fold q' in P1. split; [by apply (get_seqnum_ok nsec B1 B3 B4)|]. split; [done|].
  intros j a img Hj Hjn Hk. assert (Hjl : (j < n / 2)%nat) by (apply Nat.div_le_lower_bound; lia).
  destruct (lookup_lt_is_Some_2 sent j) as [x Hx].
  { rewrite length_app, length_sector_ops in Hn. assert (length tail <= 1)%nat by (destruct Htail as [-> | ->]; simpl; lia). lia. }
  pose proof (sector_ops_odd (SECTOR_SIZE := SECTOR_SIZE) (START := START) nsec q sent tail j x Hx) as EO. rewrite EO in Hj. injection Hj as <- <-.
  unfold sector_addr. replace (START + (q + Z.of_nat j) mod nsec * SECTOR_SIZE - START) with ((q + Z.of_nat j) mod nsec * SECTOR_SIZE) by lia.
  by apply P2.
Qed.

(** C26: The last flush ends and leaves nothing behind: after any such run it returns, with every buffer
    out of use and every operation done; all the bytes of the records, the last piece being a short
    one, have been written, and the flash holds the last pieces, one less than it has places. *)
Theorem log_flush_ends old q s0 f0 tr s f : 1 < nsec -> started old q s0 f0 -> log_reach SECTOR_SIZE COUNT START s0 f0 tr s f -> Forall intact tr ->
  q + zlen (accepted f) + COUNT < 2 ^ 32 ->
  exists N s' f' images, (forall fuel, (N <= fuel)%nat -> log_dump_flush_all SECTOR_SIZE COUNT START fuel s f = Some (s', f')) /\
    forallb is_free (data_buffer_list s') = true /\ executed f' = length (accepted f') /\
    writes q images (accepted f') /\ pieces_of q (is_bootup old) images (logged tr) /\
    @consistent SECTOR_SIZE nsec (on_flash f') (q + zlen images) /\
    forall j img, images !! j = Some img -> zlen images < Z.of_nat j + nsec -> piece (on_flash f') (((q + Z.of_nat j) mod nsec) * SECTOR_SIZE) (zlen img) = img.
Proof.
  pose proof HB as (B1 & B2 & B3 & B4). intros H1 HS0 HR HT Hq.
  destruct (log_reach_inv COUNT nsec B1 B2 B3 B4 _ _ _ _ _ _ _ _ (started_inv _ _ _ _ HS0) HR HT) as (sent & full & cur & HI & HRG).
  pose proof HI as [IR IP IT _ _]. destruct (sent_writes _ _ _ _ IT) as (tail & EA & Htail).
  destruct (remain_ends COUNT nsec B1 B2 B3 B4 q (full ++ olist cur) sent (set_immediately true s) f tail) as (N1 & s1 & f1 & tail1 & E1 & F1 & A1 & Ht1 & R1).
  { destruct (ring_remains COUNT nsec B1 B3 s full cur IR) as [M1 M2 M3 M4 M5 M6]. by constructor. }
  { done. } { done. } { intros _. by apply sent_same with s. }
  destruct (flush_ends f1) as (N2 & f2 & E2 & A2 & R2 & X2). set (images := sent ++ full ++ olist cur) in *.
  assert (HW : writes q images (accepted f2)) by (exists tail1; by rewrite A2).
  assert (HP : pieces_of q (is_bootup old) images (logged tr)) by (split; apply IP).
  assert (HL : zlen images <= zlen (accepted f) + COUNT).
  { unfold images. pose proof (rh_count IR). rewrite EA, !length_app, length_sector_ops in *. lia. }
  destruct (prefix_ok (SECTOR_SIZE := SECTOR_SIZE) (START := START) nsec B1 B3 (on_flash f0) q (is_bootup old) images tail1 H1 (proj1 HS0)
    (inv_sizes _ _ _ _ _ _ _ _ _ HI) (proj1 HP) ltac:(lia) Ht1 (length (accepted f2))) as [P1 P2]; [by rewrite A2, A1|].
  assert (EF : on_flash f2 = log_effects SECTOR_SIZE START (take (length (accepted f2)) (@sector_ops SECTOR_SIZE START nsec q images ++ tail1)) (on_flash f0)).
  { unfold on_flash at 1. rewrite X2, R2, R1, HRG, A2, A1. unfold on_flash. by rewrite (proj1 (proj2 HS0)), take_nil. }
  rewrite <- EF in P1, P2. rewrite A2, A1, length_app, length_sector_ops in P1, P2.
  assert (HD : ((2 * length images + length tail1) / 2 = length images)%nat).
  { symmetry. apply Nat.div_unique with (length tail1); [|lia]. destruct Ht1 as [-> | ->]; simpl; lia. }
  assert (HD1 : (S (2 * length images + length tail1) / 2 <= S (length images))%nat).
  { apply Nat.Div0.div_le_upper_bound. destruct Ht1 as [-> | ->]; simpl; lia. }
  rewrite HD in P1, P2. exists (N1 + N2)%nat, s1, f2, images. split; [|split; [done|split; [done|split; [done|split; [done|split; [done|]]]]]].
  - intros fuel Hf. unfold log_dump_flush_all, _log_dump_flush_remain. rewrite E1 by lia. cbn [mbind option_bind]. rewrite E2 by lia. done.
  - intros j img Hj Hk. apply P2; [done|by eapply lookup_lt_Some|lia].
Qed.
End Props.

(** ** A small build *)
Section Demo.
#[local] Instance demo_flash : LogFlash log_queue := queue_log_flash 32 0x1000 0x1080.
#[local] Instance demo_spec : LogFlashSpec log_queue 32 0x1000 0x1080 := queue_log_spec 32 0x1000 0x1080 ltac:(discriminate).

Lemma log_run_reach fuel es : (0 < fuel)%nat -> forall s0 f0 tr s f tr' s' f', log_reach 32 2 0x1000 s0 f0 tr s f ->
  log_run 32 2 0x1000 fuel es s f = Some (tr', s', f') -> log_reach 32 2 0x1000 s0 f0 (tr ++ tr') s' f'.
Proof.
  intros Hf. induction es as [|e es IH]; intros s0 f0 tr s f tr' s' f' HR; cbn [log_run].
  - intros [= <- <- <-]. by rewrite app_nil_r.
  - intros ([[a s1] f1] & E1 & ([[tr2 s2] f2] & E2 & [= <- <- <-])%bind_Some)%bind_Some.
    change ((e, a) :: tr2) with ([(e, a)] ++ tr2). rewrite app_assoc. eapply IH; [|exact E2]. by econstructor.
Qed.

(** The variables before the first call, a blank flash, the state after the start. *)
Definition log_reset : log_dump := mkLog 0 [] 0 0 0 0 false false true LOG_DUMP_FLASH_STATE_IDLE.
Definition blank_flash : log_queue := mkLogQueue (replicate 128 255) [] 0.
Definition log_booted (f : log_queue) : log_dump :=
  match log_dump_init 32 2 0x1000 0x1080 true 7 log_reset (reset_trace 32 true) f with Some x => x.1 | None => log_reset end.

Definition log_after (es : list log_event) : list (log_event * (bool * Z)) * log_dump * log_queue :=
  match log_run 32 2 0x1000 4 es (log_booted blank_flash) blank_flash with Some x => x | None => ([], log_reset, blank_flash) end.

(** Two records of twenty bytes in sectors that hold sixteen, the hook between them. *)
Definition log_demo : list log_event :=
  [Record_out (replicate 20 65) [0] [1%nat]; Hook; Work; Hook; Record_out (replicate 20 66) [0] []; Work; Hook; Hook].
Definition demo_end := log_after log_demo.

Lemma demo_build : log_build 32 2 4 0x1000 0x1080.
Proof. unfold log_build. repeat split; discriminate. Qed.

Lemma demo_started : started (START := 0x1000) (END := 0x1080) 2 4 log_reset 0 (log_booted blank_flash) blank_flash.
Proof.
  split; [|split; [done|]].
  - constructor; [by split|by vm_compute| |lia]. intros i Hi. assert (i = 0 \/ i = 1 \/ i = 2 \/ i = 3) as [-> | [-> | [-> | ->]]] by lia; vm_compute; discriminate.
  - eexists 7%nat, (reset_trace 32 true), _. vm_compute. reflexivity.
Qed.

Lemma log_after_reach es : bool_decide (is_Some (log_run 32 2 0x1000 4 es (log_booted blank_flash) blank_flash)) = true ->
  log_reach 32 2 0x1000 (log_booted blank_flash) blank_flash (log_after es).1.1 (log_after es).1.2 (log_after es).2.
Proof.
  intros [[[tr s] f] E]%bool_decide_eq_true_1. unfold log_after. rewrite E.
  exact (log_run_reach 4 es ltac:(lia) _ _ [] _ _ tr s f (log_reach_start _ _ _ _ _) E).
Qed.

Lemma demo_reach : log_reach 32 2 0x1000 (log_booted blank_flash) blank_flash demo_end.1.1 demo_end.1.2 demo_end.2.
Proof. apply log_after_reach. vm_compute. reflexivity. Qed.

Lemma demo_intact : Forall intact demo_end.1.1.
Proof. vm_compute. repeat (apply List.Forall_cons; [reflexivity|]). apply List.Forall_nil. Qed.

Lemma log_stream_witness : logged demo_end.1.1 = replicate 20 65 ++ replicate 20 66 /\
  exists sent, writes (SECTOR_SIZE := 32) (START := 0x1000) 4 0 sent (accepted demo_end.2) /\ Forall (fun img => zlen img = 32) sent /\
    pieces_of 0 (is_bootup log_reset) (sent ++ buffered 2 demo_end.1.2) (logged demo_end.1.1).
Proof.
  split; [vm_compute; reflexivity|].
  destruct (log_stream (F := log_queue) (SECTOR_SIZE := 32) (START := 0x1000) (END := 0x1080) 2 4 demo_build log_reset 0 (log_booted blank_flash) blank_flash
    demo_end.1.1 demo_end.1.2 demo_end.2 demo_started demo_reach demo_intact) as [H _]. exact H.
Defined.

(** The power lost after the first of the operations of the second piece. *)
Definition demo_cut : log_queue := mkLogQueue (log_effects 32 0x1000 (take 3 (lq_ops demo_end.2)) (on_flash blank_flash)) [] 0.

Lemma log_restart_witness : _get_seqnum 32 0x1000 0x1080 demo_cut = Some (1, 1) /\ take 32 (lq_cells 0x1000 0x1080 demo_cut) = header_bytes (mkHeader DUMP_LOG_MAGIC DUMP_LOG_VERSION 0 1 [0; 0; 10]) ++ replicate 16 65.
Proof.
  assert (HN : (3 <= length (lq_ops demo_end.2))%nat) by (vm_compute; lia).
  assert (HF : on_flash demo_cut = log_effects 32 0x1000 (take 3 (lq_ops demo_end.2)) (on_flash blank_flash)) by (vm_compute; reflexivity).
  assert (HQ : 0 + zlen (lq_ops demo_end.2) < 2 ^ 32) by (vm_compute; reflexivity).
  destruct (log_restart (F := log_queue) 2 4 demo_build log_reset 0 _ _ _ _ _ 3 demo_cut ltac:(reflexivity) demo_started demo_reach demo_intact HQ HN HF) as (H1 & _ & H3).
  split; [exact H1|]. specialize (H3 0%nat 0x1000 (header_bytes (mkHeader DUMP_LOG_MAGIC DUMP_LOG_VERSION 0 1 [0; 0; 10]) ++ replicate 16 65)).
  vm_compute in H3. vm_compute. apply H3; [reflexivity|lia|discriminate].
Defined.

Lemma log_flush_ends_witness : exists N s' f', (forall fuel, (N <= fuel)%nat -> log_dump_flush_all 32 2 0x1000 fuel demo_end.1.2 demo_end.2 = Some (s', f')) /\
  forallb is_free (data_buffer_list s') = true /\ lq_executed f' = length (lq_ops f').
Proof.
  assert (HQ : 0 + zlen (lq_ops demo_end.2) + 2 < 2 ^ 32) by (vm_compute; reflexivity).
  destruct (log_flush_ends (F := log_queue) 2 4 demo_build log_reset 0 _ _ _ _ _ ltac:(reflexivity) demo_started demo_reach demo_intact HQ) as (N & s' & f' & images & H1 & H2 & H3 & _).
  exists N, s', f'. split; [exact H1|]. split; [exact H2|exact H3].
Defined.

(** ** Where the code does otherwise than meant *)

(** After a last flush that left a short piece, a record and another last flush (a crash while the
    device shuts down) loop for ever: the place is inside a sector, and the flash is not erased there. *)
Theorem log_flush_twice : exists s f, log_dump_flush_all 32 2 0x1000 20 demo_end.1.2 demo_end.2 = Some (s, f) /\
  exists s1 f1, log_dump_output_handler 32 2 0x1000 4 [67] [0] [] s f = Some (0, s1, f1) /\ forall fuel, log_dump_flush_all 32 2 0x1000 fuel s1 f1 = None.
Proof.
  destruct (log_dump_flush_all 32 2 0x1000 20 demo_end.1.2 demo_end.2) as [[s f]|] eqn:E; [|vm_compute in E; discriminate].
  exists s, f. split; [done|]. vm_compute in E. injection E as <- <-. eexists _, _. split; [vm_compute; reflexivity|].
  intros fuel. unfold log_dump_flush_all, _log_dump_flush_remain.
  match goal with |- context [flush_remain_loop _ _ _ _ _ ?a ?b] => assert (HX : forall rounds, flush_remain_loop 32 2 0x1000 rounds fuel a b = None) end; [|by rewrite HX].
  intros rounds. induction rounds as [|rounds IH]; [done|]. exact IH.
Qed.

(** When every buffer waits to be written the next record takes the oldest one: of three records that
    fill a sector each, the first is lost and the third is written before the second. *)
Theorem log_overrun :
  let es := [Record_out (replicate 16 65) [0] []; Record_out (replicate 16 66) [0] []; Record_out (replicate 16 67) [0] []] in
  (Forall (fun x => x.2.2 = 0) (log_after es).1.1) /\
  option_map (fun x => map (drop 16) (omap (fun o => match o with LWrite _ img => Some img | LErase _ => None end) (lq_ops x.2)))
    (log_dump_flush_all 32 2 0x1000 20 (log_after es).1.2 (log_after es).2) = Some [replicate 16 67; replicate 16 66].
Proof. vm_compute. split; [repeat (apply List.Forall_cons; [reflexivity|]); apply List.Forall_nil|reflexivity]. Qed.

(** A record is dropped when the memory after it holds the section's prefix before the next NUL. *)
Theorem log_prefix_after : kept [79; 75; 10] (LOG_DUMP_PREFIX ++ [0]) = [] /\ kept [79; 75; 10] [0] = [79; 75; 10].
Proof. split; reflexivity. Qed.
End Demo.
